(* ===== verification/_CoqProject ===== *)
-Q . S2P
Prelude.v
Policyfile.v
Ebitmap.v
EbitmapFile.v
Hashtab.v
SymtabFile.v
Avtab.v
Context.v
Sidtab.v
Policydb.v
Expand.v
Mls.v
MlsText.v
MlsFile.v
Cond.v
Services.v
ClassFile.v
SymbolFile.v
PtrTable.v
Sepolicy.v
Rules.v
Magiskpolicy.v
RuleEdit.v
ExpandAv.v
AvtabFile.v
TransFile.v
CondFile.v
LabelFile.v
Indexes.v
Reindex.v
PolicydbFile.v
PolicydbSound.v
TypeMaps.v
Assertion.v
Hierarchy.v
ContextText.v
Records.v
PolicyRecords.v
SymbolRecords.v
SidServer.v
SidFacts.v
PlainNames.v
RecordFacts.v
UserFacts.v
Statements.v
DomainEdit.v
Samples.v
SampleFile.v
SampleServer.v
Containers.v
Process.v
Getopt.v
Pts.v
PtsFacts.v
Daemon.v
Su.v
Buildprops.v
Protocol.v
SuFacts.v
CommandLine.v
SuProperties.v
Properties.v
FileProperties.v
ServerProperties.v
CheckProperties.v
RecordProperties.v
