(* ===== verification/Prelude.v ===== *)
(** * su-binary: verification library

    The repository holds an Android [su] (jni/su) whose daemon runs commands for
    its clients, and the tool [magiskpolicy] (jni/magiskpolicy) that edits a binary
    SELinux policy so that the daemon's domain is unconfined, on top of the library
    libsepol (jni/selinux/libsepol). This library models the two programs and the
    parts of libsepol that the tool runs on; the paths below are relative to
    src/jni, and "libsepol" stands for selinux/libsepol/src.

    ** How the parts interact

    [su] parses its options, connects to the daemon and sends its arguments and
    streams ([connect_daemon], su/daemon.c); the daemon receives the request
    ([daemon_accept]) and forks a child that runs [su_main] again, finds out who asks,
    changes its identity and executes the command (su/su.c). When the daemon starts
    it runs [magiskpolicy] on the live policy.

    [magiskpolicy] reads a policy file into a [policydb] ([load_policydb]:
    policydb.c, with a reader per section), edits it by commands and statements
    (magiskpolicy.c, api.c, rules.c over sepolicy.c), and writes the image back
    ([policydb_to_image]: write.c). An edit changes rule tables (avtab.c),
    bitmaps (ebitmap.c), symbol tables (hashtab.c, symtab.c) and constraints; the
    meaning of the result is the decision of the security server (services.c),
    which evaluates rules, conditionals (conditional.c), constraints and MLS ranges
    (mls.c, context.c) on the sets that expand.c and policydb.c compute.

    ** Files

    - Prelude: machine integers, errors, the tape of allocations, the monad [M] of
      stateful code with undefined behaviour, weakest preconditions, tactics.
    - Ebitmap, Hashtab, Avtab: ebitmap.c, hashtab.c with symtab.c, avtab.c.
      Tables are generic in the key through the class [HashKey], whose laws
      ([HashKeyLaws]) are what the theorems use; each kind of table of policydb.c is
      an instance. A rule table keeps its buckets of ordered chains; a node has an
      address, so that the lists of conditionals can point to it.
    - Context, Mls: mls_types.h, context.h; mls.c and [context_is_valid].
    - Policydb: the record [policydb] (policydb.h) with a store for every kind of
      object that the code shares by pointer, type and role sets, symtab_insert.
    - Expand, ExpandAv: expand.c (sets, semantic levels, [expand_avtab]) and the
      caches and arrays of values that policydb.c rebuilds.
    - Cond, Services: conditional.c and services.c.
    - MlsText, ContextText: the text of ranges and contexts against its parsers
      (mls.c, context.c, context_record.c).
    - Sidtab, SidServer: sidtab.c and the requests of services.c over SIDs - decisions,
      texts, new objects, labels of networks and file systems, the reload of a policy;
      SidFacts: the invariant of the server and what each request guarantees.
    - Records, PolicyRecords, SymbolRecords: the interface for clients of libsepol - records
      of ports, interfaces, nodes, InfiniBand keys and ports, booleans and users
      (port_record.c and its like), and what a client asks of a policy through them (ports.c,
      interfaces.c, nodes.c, ibpkeys.c, ibendports.c; booleans.c, users.c).
      RecordFacts, UserFacts: records against entries, the steps of changing a user.
    - Policyfile: services of private.h and services.c for files: [next_entry],
      [put_entry] on the three kinds of [policy_file] (memory, stdio, counting),
      the reader monad [R], and the notions [emits] (a writer appends these bytes),
      [parses] (a reader takes these bytes to that value) and [sound] (on any
      bytes a reader returns and what it accepts satisfies a predicate).
    - EbitmapFile, SymtabFile, MlsFile, ClassFile, SymbolFile, AvtabFile, TransFile,
      CondFile, LabelFile: the sections of the format, in both directions:
      ebitmap.c, avtab.c, conditional.c, policydb.c, write.c. PtrTable relates
      the tables of pointers of a policy to tables of the objects themselves.
    - PolicydbFile: [policydb_init], [policydb_read], [policydb_write],
      [load_policydb]; PolicydbSound and TypeMaps: what an accepted file guarantees.
    - Assertion: neverallow rules against the tables of a policy (assertion.c).
    - Hierarchy: bounds of types, roles and users and their checks (hierarchy.c).
    - Indexes, Reindex: [policydb_index_classes], [policydb_index_others] and
      re-indexing after [create_domain].
    - Sepolicy, Rules, Magiskpolicy: sepolicy.c; api.c and rules.c; the
      tokenizer and the statement patterns of magiskpolicy.c.
    - RuleEdit, DomainEdit, Statements: the meaning of the edits as operations on
      finite maps from keys to rule data, and of statements as lists of edits.
    - PlainNames: names that have an index and can be read back in a text.
    - Samples, SampleFile, SampleServer: small policies, a policy file and a server on
      which the theorems are instantiated.
    - Containers: vectors and rings (utils/vector.c, utils/list.c).
    - Process: processes as trees of system calls, the static variables of su, worlds
      (what the system may answer) and weakest preconditions of processes.
    - Getopt: [getopt_long], [strtoul] and the string functions of su.c.
    - Pts, Daemon, Su, Buildprops: pts.c; daemon.c; su.c, daemonize.c and common.c;
      utils.c with [access_disabled].
    - PtsFacts, Protocol, SuFacts, CommandLine: the loops and modes of terminals, the
      stream between client and daemon, what is executed and as whom, and command
      lines as the usage message describes them.
    - Properties, FileProperties, SuProperties, ServerProperties, CheckProperties,
      RecordProperties: the properties of the programs.

    ** Conventions

    A 32-bit value is a [Z] with its wrap-around written out; the target is
    armeabi-v7a (Application.mk), 32 bits, little endian. A function that may
    dereference a NULL or dangling pointer or index out of range returns an
    [outcome]: [Ret], [Exit] (the process ends) or [Undef] (undefined
    behaviour); theorems exclude [Undef] or exhibit it. Every [malloc] takes its
    result from a tape of booleans, over which theorems quantify; [plenty m]
    means that no allocation in the tape fails. Loops with a bound in the data are
    structural; the recursion of [context_struct_compute_av] over bounding types
    takes a fuel, and [compute_av_returns] shows that 2 is enough for policies
    whose bounding types are not bounded themselves (a nested call that needs its
    own bounds is undefined behaviour in the code: [nested_bounds_undefined]).

    A process (Process.v) is a finite tree of calls, each answered by the system: the
    theorems quantify over the answers that a world allows. The loops that wait for
    the system (the copying of pts.c, the daemon's [accept]) have a bound on their
    iterations; [pump_copies] shows that the number of bytes is enough, and the
    options of a command line are bounded by its characters ([su_executes] runs
    through them).

    ** Groups of theorems

    - Statements and edits ([statements_refine], [allow_takes_effect] and the like): text
      to abstract semantics, the effect of allow, deny, allowxperm, typetrans,
      permissive, enforce and attradd on rules and decisions, safety when
      allocations fail.
    - su ([su_executes], [request_received], [streams_checked], [exit_code_lost] and
      the others of SuProperties.v): which command runs as whom, the protocol, the
      streams, the exit code, faults of the command line.
    - Decisions ([compute_av_decision], [loaded_policy_decides], [constraint_is_tree_value] and
      the like): the decision as a condition on the policy, the stack machines against
      expression trees, conditionals, transitions.
    - Policy files ([loaded_policy_good] and the others of FileProperties.v): what an
      accepted file guarantees, the size of an image, sections read back from what was
      written.
    - The security server ([reload_keeps_valid], [context_keeps_sid] and the others of
      ServerProperties.v): what SIDs stand for over time and over reloads, the
      contexts they name, which label a request finds, texts read back.
    - Checks of policies ([neverallow_protects], [bounds_protect] and the others of
      CheckProperties.v): what a policy that passes the check of a neverallow rule never
      grants, what a passed check of bounds means, when they report, and what they miss.
    - Records ([label_records_read_back], [user_added], [bool_set_switches] and the others of
      RecordProperties.v): labels, users and booleans that a client changes through
      records, what the server answers afterwards, what a query reads back, and what
      changing a user breaks.
    - Tables and sets: refinement of finite maps and sets, order and uniqueness of
      rules, MLS text. Further results of the components (iteration, unions,
      dominance, indexing, faults of the tools) are lemmas of Properties.v.

    ** Not modelled

    The sections of a file that only modules have (rule blocks and scopes:
    readers and writers that are arguments of [policydb_read] and
    [policydb_write]), linking and CIL: the program does not use them.
    The getters of records that return a field are the projections of the records;
    the handle of libsepol and its messages (handle.c, debug.c) are left out.
    The destruction of a policy, the text of the reasons of a decision, messages, and the file operations around [load_policydb] (open, mmap)
    are left out. Of su, the memory that [setproctitle] overwrites, messages, and
    the helpers of common.c that nothing calls are left out. The parser of statements
    uses lists for its vectors: what [vec_for_each] reads behind a full block
    ([vector_iteration]) has no effect there. *)

From Stdlib Require Export ZArith Lia Ascii String.
From stdpp Require Export prelude gmap strings fin_maps sorting.

#[global] Open Scope Z_scope.
#[global] Set Default Goal Selector "!".

(** ** Machine integers

    A w-bit C integer is a [Z]; the wrap-around of unsigned arithmetic is
    written out with [u8] .. [u64].  The build target is armeabi-v7a
    (jni/Application.mk): [int], [unsigned], [size_t] and [unsigned long]
    have 32 bits and plain [char] is unsigned. *)

Definition u8 (z : Z) : Z := z mod 2 ^ 8.
Definition u16 (z : Z) : Z := z mod 2 ^ 16.
Definition u32 (z : Z) : Z := z mod 2 ^ 32.
Definition u64 (z : Z) : Z := z mod 2 ^ 64.

(** Conversion of a 32-bit pattern to [int] (two's complement). *)
Definition s32 (z : Z) : Z := let x := u32 z in if x <? 2 ^ 31 then x else x - 2 ^ 32.

(** The bitwise complement [~x] at each width. *)
Definition not16 (z : Z) : Z := u16 (Z.lnot z).
Definition not32 (z : Z) : Z := u32 (Z.lnot z).
Definition not64 (z : Z) : Z := u64 (Z.lnot z).

(** [a & b] used as a condition. *)
Definition has_bits (a b : Z) : bool := negb (Z.land a b =? 0).

(** ** Error codes (errno.h, sepol/errcodes.h) *)

Definition EPERM : Z := 1.
Definition ENOENT : Z := 2.
Definition ENOMEM : Z := 12.
Definition EEXIST : Z := 17.
Definition EINVAL : Z := 22.
Definition SEPOL_OK : Z := 0.
Definition SEPOL_ERR : Z := -1.
Definition SEPOL_ENOENT : Z := - ENOENT.
Definition SEPOL_ENOMEM : Z := - ENOMEM.
Definition SEPOL_EEXIST : Z := - EEXIST.

(** ** Memory allocation

    The outcome of each [malloc]/[calloc]/[strdup]/[realloc] call is read from
    a tape: the head is the outcome of the next call, an exhausted tape means
    that every further call succeeds.  Theorems quantify over the tape, so the
    out-of-memory branches of the code are part of the model. *)

Definition mem : Type := list bool.

Definition malloc (m : mem) : bool * mem :=
  match m with
  | [] => (true, [])
  | ok :: m' => (ok, m')
  end.

(** No allocation of the run fails. *)
Definition plenty (m : mem) : Prop := Forall (λ ok, ok = true) m.

(** ** Counting loops

    [for_up n i body a]: [for (k = i; k < i + n; k++) body], where the body
    either updates the loop state ([inr]) or leaves the function ([inl]). *)

Fixpoint for_up {R A : Type} (n : nat) (i : Z) (body : Z → A → R + A) (a : A) : R + A :=
  match n with
  | O => inr a
  | S n' => match body i a with
            | inl r => inl r
            | inr a' => for_up n' (i + 1) body a'
            end
  end.

(** [for (i = lo; i < hi; i++) body]. *)
Definition for_range {R A : Type} (lo hi : Z) (body : Z → A → R + A) (a : A) : R + A :=
  for_up (Z.to_nat (hi - lo)) lo body a.

(** ** Outcomes of code that can stop the process or run into undefined behaviour *)

Inductive outcome (A : Type) : Type :=
| Ret (a : A)           (** the call returns *)
| Exit (status : Z)     (** [exit(status)] *)
| Undef.                (** out-of-bounds access, NULL dereference, ... *)
Arguments Ret {A} a.
Arguments Exit {A} status.
Arguments Undef {A}.

#[export] Instance outcome_ret : MRet outcome := @Ret.
#[export] Instance outcome_bind : MBind outcome := λ A B f o,
  match o with
  | Ret a => f a
  | Exit s => Exit s
  | Undef => Undef
  end.

(** Code that also changes a state of type [S]: its result and the new state. *)
Definition M (S A : Type) : Type := S → outcome (A * S).

#[export] Instance M_ret {S} : MRet (M S) := λ A a s, Ret (a, s).
#[export] Instance M_bind {S} : MBind (M S) := λ A B f c s,
  match c s with
  | Ret (a, s') => f a s'
  | Exit z => Exit z
  | Undef => Undef
  end.

(** A read of the state, a change of it, and code that only computes. *)
Definition gets {S A} (f : S → A) : M S A := λ s, Ret (f s, s).
Definition modify {S} (f : S → S) : M S () := λ s, Ret ((), f s).
Definition lift {S A} (o : outcome A) : M S A := λ s,
  match o with Ret a => Ret (a, s) | Exit z => Exit z | Undef => Undef end.

(** The weakest precondition: the code returns with [Q], or exits with a status
    in [E]; undefined behaviour is excluded. *)
Definition wp {S A} (c : M S A) (Q : A → S → Prop) (E : Z → Prop) (s : S) : Prop :=
  match c s with
  | Ret (a, s') => Q a s'
  | Exit z => E z
  | Undef => False
  end.

(** Reading an array element or dereferencing a pointer. *)
Definition deref {A : Type} (o : option A) : outcome A :=
  match o with Some a => Ret a | None => Undef end.

(** A loop over a list whose body can fail. *)
Fixpoint ofold {A B : Type} (f : B → A → outcome B) (l : list A) (b : B) : outcome B :=
  match l with
  | [] => Ret b
  | a :: l' => b ← f b a; ofold f l' b
  end.

(** Array indexing by a C integer: a negative index is out of bounds. *)
Definition at_index {A : Type} (l : list A) (i : Z) : option A :=
  if i <? 0 then None else l !! Z.to_nat i.

(** Writing an array element that exists. *)
Definition set_index {A : Type} (l : list A) (i : Z) (a : A) : list A :=
  <[Z.to_nat i := a]> l.

(** ** C strings

    A NUL-terminated string is the Rocq string of its bytes.  The C standard
    fixes the sign of [strcmp] only; here it is -1, 0 or 1. *)

Definition strcmp (s1 s2 : string) : Z :=
  match String.compare s1 s2 with Eq => 0 | Lt => -1 | Gt => 1 end.

Definition streq (s1 s2 : string) : bool := strcmp s1 s2 =? 0.

(** The longest prefix without a character of [stop], and the rest. *)
Fixpoint span_until (stop : ascii → bool) (s : string) : string * string :=
  match s with
  | EmptyString => (EmptyString, EmptyString)
  | String c s' =>
      if stop c then (EmptyString, s)
      else let '(a, b) := span_until stop s' in (String c a, b)
  end.

(** [delim = *p; if (delim != 0) *p++ = 0;]: the delimiter and what follows. *)
Definition take_delim (s : string) : option ascii * string :=
  match s with
  | EmptyString => (None, EmptyString)
  | String c s' => (Some c, s')
  end.

(** [strrchr]: the suffix that begins with the last [c]. *)
Fixpoint strrchr (s : string) (c : ascii) : option string :=
  match s with
  | EmptyString => None
  | String a s' =>
      match strrchr s' c with
      | Some r => Some r
      | None => if Ascii.eqb a c then Some s else None
      end
  end.

(** The bytes of a string; plain [char] is unsigned on the target. *)
Definition byte_of (c : ascii) : Z := Z.of_N (N_of_ascii c).

(** ** Automation *)

Create HintDb zint discriminated.
Create Rewrite HintDb zint.

(** Splits every integer comparison of the goal. *)
Ltac zcase :=
  repeat match goal with
  | |- context [?a =? ?b] => destruct (Z.eqb_spec a b)
  | |- context [?a <? ?b] => destruct (Z.ltb_spec a b)
  | |- context [?a <=? ?b] => destruct (Z.leb_spec a b)
  end.

(** Same, for one hypothesis. *)
Ltac zcase_in H :=
  repeat match type of H with
  | context [?a =? ?b] => destruct (Z.eqb_spec a b)
  | context [?a <? ?b] => destruct (Z.ltb_spec a b)
  | context [?a <=? ?b] => destruct (Z.leb_spec a b)
  end.

(** Linear arithmetic with division and remainder by constants. *)
Ltac zmod := Z.to_euclidean_division_equations; lia.

(** ** Shared lemmas *)

Lemma u32_small z : 0 <= z < 2 ^ 32 → u32 z = z.
Proof. apply Z.mod_small. Qed.

Lemma u16_small z : 0 <= z < 2 ^ 16 → u16 z = z.
Proof. apply Z.mod_small. Qed.

Lemma u64_small z : 0 <= z < 2 ^ 64 → u64 z = z.
Proof. apply Z.mod_small. Qed.

Lemma u8_small z : 0 <= z < 2 ^ 8 → u8 z = z.
Proof. apply Z.mod_small. Qed.

Lemma u32_range z : 0 <= u32 z < 2 ^ 32.
Proof. apply Z.mod_pos_bound. lia. Qed.

Lemma u16_range z : 0 <= u16 z < 2 ^ 16.
Proof. apply Z.mod_pos_bound. lia. Qed.

Lemma u64_range z : 0 <= u64 z < 2 ^ 64.
Proof. apply Z.mod_pos_bound. lia. Qed.

#[export] Hint Resolve u16_range u32_range u64_range : zint.
#[export] Hint Rewrite u8_small u16_small u32_small u64_small using lia : zint.

(** *** Bits *)

Lemma testbit_u64 z k : 0 <= k → Z.testbit (u64 z) k = (k <? 64) && Z.testbit z k.
Proof.
  intros Hk. unfold u64. destruct (Z.ltb_spec k 64); simpl.
  - by rewrite Z.mod_pow2_bits_low by lia.
  - by rewrite Z.mod_pow2_bits_high by lia.
Qed.

Lemma testbit_u32 z k : 0 <= k → Z.testbit (u32 z) k = (k <? 32) && Z.testbit z k.
Proof.
  intros Hk. unfold u32. destruct (Z.ltb_spec k 32); simpl.
  - by rewrite Z.mod_pow2_bits_low by lia.
  - by rewrite Z.mod_pow2_bits_high by lia.
Qed.

Lemma testbit_not32 z k : 0 <= k < 32 → Z.testbit (not32 z) k = negb (Z.testbit z k).
Proof. intros Hk. unfold not32. rewrite testbit_u32, Z.lnot_spec by lia. by destruct (Z.ltb_spec k 32); [|lia]. Qed.

Lemma testbit_high w z k : 0 <= z < 2 ^ w → 0 <= w <= k → Z.testbit z k = false.
Proof.
  intros Hz Hk. rewrite <- (Z.mod_small z (2 ^ w)) by done.
  apply Z.mod_pow2_bits_high. lia.
Qed.

Lemma testbit_one_shl j k : 0 <= j → 0 <= k → Z.testbit (Z.shiftl 1 j) k = (j =? k).
Proof.
  intros Hj Hk. rewrite Z.shiftl_1_l. zcase; subst.
  - by apply Z.pow2_bits_true.
  - by apply Z.pow2_bits_false.
Qed.

Lemma has_bits_shl a k : 0 <= k → has_bits a (Z.shiftl 1 k) = Z.testbit a k.
Proof.
  intros Hk. unfold has_bits. destruct (Z.testbit a k) eqn:E.
  - destruct (Z.eqb_spec (Z.land a (Z.shiftl 1 k)) 0) as [E0|]; [|done].
    apply (f_equal (λ z, Z.testbit z k)) in E0.
    rewrite Z.land_spec, testbit_one_shl, Z.eqb_refl, E, Z.bits_0 in E0 by lia. done.
  - assert (Z.land a (Z.shiftl 1 k) = 0) as ->; [|done].
    apply Z.bits_inj'. intros j Hj. rewrite Z.land_spec, testbit_one_shl, Z.bits_0 by lia.
    zcase; subst; [by rewrite E|by rewrite andb_false_r].
Qed.

Lemma nonzero_has_testbit a : 0 < a → ∃ k, 0 <= k ∧ Z.testbit a k = true.
Proof.
  intros Ha. exists (Z.log2 a). split; [apply Z.log2_nonneg|by apply Z.bit_log2].
Qed.

(** A [w]-bit number is determined by its low [w] bits. *)
Lemma bits_inj_low w a b :
  0 <= w → 0 <= a < 2 ^ w → 0 <= b < 2 ^ w →
  (∀ k, 0 <= k < w → Z.testbit a k = Z.testbit b k) → a = b.
Proof.
  intros Hw Ha Hb E. apply Z.bits_inj'. intros k Hk.
  destruct (decide (k < w)); [by apply E|].
  rewrite !(testbit_high w) by lia. done.
Qed.

Lemma bits_range w z :
  0 <= w → 0 <= z → (∀ k, w <= k → Z.testbit z k = false) → z < 2 ^ w.
Proof.
  intros Hw Hz E. assert (z = z mod 2 ^ w) as ->; [|apply Z.mod_pos_bound; lia].
  apply Z.bits_inj'. intros k Hk. destruct (decide (k < w)).
  - by rewrite Z.mod_pow2_bits_low by lia.
  - rewrite Z.mod_pow2_bits_high by lia. apply E. lia.
Qed.

Lemma lor_range w a b :
  0 <= w → 0 <= a < 2 ^ w → 0 <= b < 2 ^ w → 0 <= Z.lor a b < 2 ^ w.
Proof.
  intros Hw Ha Hb. assert (0 <= Z.lor a b) by (apply Z.lor_nonneg; lia).
  split; [done|]. apply bits_range; [done..|]. intros k Hk.
  by rewrite Z.lor_spec, !(testbit_high w) by lia.
Qed.

Lemma land_range w a b : 0 <= a < 2 ^ w → 0 <= Z.land a b < 2 ^ w.
Proof.
  intros Ha. destruct (decide (0 <= w)); [|rewrite Z.pow_neg_r in Ha by lia; lia].
  assert (0 <= Z.land a b) by (apply Z.land_nonneg; lia).
  split; [done|]. apply bits_range; [done..|]. intros k Hk.
  by rewrite Z.land_spec, (testbit_high w) by lia.
Qed.

Lemma land_le_r a b : 0 <= b → Z.land a b <= b.
Proof.
  intros Hb. assert (b - Z.land a b = Z.ldiff b (Z.land a b)) as E.
  { apply Z.sub_nocarry_ldiff. apply Z.bits_inj'. intros k _.
    rewrite Z.ldiff_spec, Z.land_spec, Z.bits_0. by destruct (Z.testbit a k), (Z.testbit b k). }
  assert (0 <= Z.ldiff b (Z.land a b)) by (apply Z.ldiff_nonneg; by left). lia.
Qed.

(** *** Allocation *)

Lemma malloc_plenty m : plenty m → ∃ m', malloc m = (true, m') ∧ plenty m'.
Proof.
  destruct m as [|b m]; intros H; simpl; [by eauto|].
  apply Forall_cons in H as [-> H]. eauto.
Qed.

Lemma plenty_nil : plenty [].
Proof. constructor. Qed.

#[export] Hint Resolve plenty_nil : core.

(** *** Loops: the invariant rule *)

Lemma for_up_inv {R A} (P : Z → A → Prop) (Q : R → Prop) n i body (a : A) :
  P i a →
  (∀ j a, i <= j < i + Z.of_nat n → P j a →
     match body j a with inl r => Q r | inr a' => P (j + 1) a' end) →
  match for_up n i body a with
  | inl r => Q r
  | inr a' => P (i + Z.of_nat n) a'
  end.
Proof.
  revert i a. induction n as [|n IH]; intros i a HP Hbody; cbn [for_up].
  { by rewrite Z.add_0_r. }
  pose proof (Hbody i a ltac:(lia) HP) as Hb.
  destruct (body i a) as [r|a']; [done|].
  specialize (IH (i + 1) a' Hb).
  replace (i + Z.of_nat (S n)) with (i + 1 + Z.of_nat n) by lia.
  apply IH. intros j b Hj. apply Hbody. lia.
Qed.

Lemma for_range_inv {R A} (P : Z → A → Prop) (Q : R → Prop) lo hi body (a : A) :
  lo <= hi → P lo a →
  (∀ j a, lo <= j < hi → P j a →
     match body j a with inl r => Q r | inr a' => P (j + 1) a' end) →
  match for_range lo hi body a with inl r => Q r | inr a' => P hi a' end.
Proof.
  intros Hle HP Hbody. unfold for_range.
  pose proof (for_up_inv P Q (Z.to_nat (hi - lo)) lo body a HP) as H.
  replace (lo + Z.of_nat (Z.to_nat (hi - lo))) with hi in H by lia.
  apply H. intros j b Hj. apply Hbody. lia.
Qed.

(** *** Array indexing *)

Lemma at_index_Some {A} (l : list A) i a :
  at_index l i = Some a → 0 <= i < Z.of_nat (length l).
Proof.
  unfold at_index. zcase; [done|]. intros Hl%lookup_lt_Some. lia.
Qed.

Lemma at_index_None {A} (l : list A) i : at_index l i = None ↔ i < 0 ∨ Z.of_nat (length l) <= i.
Proof. unfold at_index. zcase; [by intuition|]. rewrite lookup_ge_None. lia. Qed.

Lemma at_index_elem {A} (l : list A) i a : at_index l i = Some a → a ∈ l.
Proof. unfold at_index. zcase; [done|]. apply list_elem_of_lookup_2. Qed.

Lemma at_index_in {A} (l : list A) i :
  0 <= i < Z.of_nat (length l) → is_Some (at_index l i).
Proof.
  intros H. unfold at_index. zcase; [lia|]. apply lookup_lt_is_Some. lia.
Qed.

Lemma length_set_index {A} (l : list A) i a : length (set_index l i a) = length l.
Proof. apply length_insert. Qed.

Lemma at_set_index_eq {A} (l : list A) i a :
  0 <= i < Z.of_nat (length l) → at_index (set_index l i a) i = Some a.
Proof.
  intros H. unfold at_index, set_index. zcase; [lia|].
  apply list_lookup_insert_eq. lia.
Qed.

Lemma at_set_index_ne {A} (l : list A) i j a :
  0 <= i → i ≠ j → at_index (set_index l i a) j = at_index l j.
Proof.
  intros Hi Hij. unfold at_index, set_index. zcase; [done|].
  apply list_lookup_insert_ne. lia.
Qed.

(** *** Outcomes *)

Lemma ret_bind_inv {A B} (o : outcome A) (f : A → outcome B) b :
  o ≫= f = Ret b → ∃ a, o = Ret a ∧ f a = Ret b.
Proof. destruct o; [by eexists|done..]. Qed.

(** The same computation returns one value. *)
Ltac same_ret :=
  repeat match goal with
  | H1 : ?o = Ret ?a, H2 : ?o = Ret ?b |- _ => rewrite H1 in H2; injection H2 as H2; subst b
  end.

(** *** Strings *)

Lemma strcmp_refl s : strcmp s s = 0.
Proof.
  unfold strcmp. assert (String.compare s s = Eq) as ->; [|done].
  induction s as [|c s IH]; [done|]. simpl. unfold Ascii.compare. by rewrite N.compare_refl.
Qed.

Lemma strcmp_eq s1 s2 : strcmp s1 s2 = 0 → s1 = s2.
Proof.
  unfold strcmp. destruct (String.compare s1 s2) eqn:E; [|done..]. intros _.
  by apply String.compare_eq_iff.
Qed.

Lemma strcmp_opp s1 s2 : strcmp s2 s1 = - strcmp s1 s2.
Proof. unfold strcmp. rewrite String.compare_antisym. by destruct (String.compare s1 s2). Qed.

Lemma streq_spec s1 s2 : streq s1 s2 = true ↔ s1 = s2.
Proof.
  unfold streq. split.
  - intros H%Z.eqb_eq. by apply strcmp_eq.
  - intros ->. by rewrite strcmp_refl.
Qed.

Lemma strcmp_cons_gt c1 c2 s1 s2 :
  0 < strcmp (String c1 s1) (String c2 s2) ↔
  byte_of c2 < byte_of c1 ∨ (c1 = c2 ∧ 0 < strcmp s1 s2).
Proof.
  unfold strcmp, byte_of. simpl. unfold Ascii.compare.
  destruct (N.compare_spec (N_of_ascii c1) (N_of_ascii c2)) as [E|E|E].
  - assert (c1 = c2) as <-.
    { by rewrite <- (ascii_N_embedding c1), E, ascii_N_embedding. }
    split; [by right|]. intros [?|[_ ?]]; [lia|done].
  - split; [lia|]. intros [?|[-> _]]; lia.
  - split; [left; lia|lia].
Qed.

Lemma strcmp_gt_trans s1 s2 s3 : 0 < strcmp s1 s2 → 0 < strcmp s2 s3 → 0 < strcmp s1 s3.
Proof.
  revert s2 s3. induction s1 as [|c1 s1 IH]; intros [|c2 s2] [|c3 s3] H1 H2; try done.
  rewrite strcmp_cons_gt in *. destruct H1 as [H1|[<- H1]], H2 as [H2|[<- H2]].
  - left. lia.
  - by left.
  - by left.
  - right. split; [done|]. by apply (IH s2).
Qed.

Lemma s32_small z : 0 <= z < 2 ^ 31 → s32 z = z.
Proof. intros. unfold s32. rewrite u32_small by lia. zcase; lia. Qed.

Lemma s32_u32 z : - 2 ^ 31 <= z < 2 ^ 31 → s32 (u32 z) = z.
Proof.
  intros H. unfold s32. rewrite (u32_small (u32 z)) by apply u32_range. unfold u32.
  destruct (Z.ltb_spec (z mod 2 ^ 32) (2 ^ 31)); zmod.
Qed.

(** The difference of two small unsigned numbers, converted to [int]. *)
Lemma s32_sub a b : 0 <= a < 2 ^ 31 → 0 <= b < 2 ^ 31 → s32 (u32 (a - b)) = a - b.
Proof.
  intros Ha Hb. unfold s32. rewrite (u32_small (u32 _)) by apply u32_range.
  destruct (decide (b <= a)).
  - rewrite u32_small by lia. zcase; lia.
  - assert (u32 (a - b) = a - b + 2 ^ 32) as ->.
    { unfold u32. symmetry. apply (Z.mod_unique_pos _ _ (-1)); lia. }
    zcase; lia.
Qed.

(** *** Lists *)

Lemma elem_of_bfilter {A} (f : A → bool) l x : x ∈ List.filter f l ↔ x ∈ l ∧ f x = true.
Proof.
  induction l as [|y l IH]; [split; [by intros ?%not_elem_of_nil|by intros [?%not_elem_of_nil _]]|].
  cbn [List.filter]. destruct (f y) eqn:E; rewrite !elem_of_cons, ?IH; intuition congruence.
Qed.

Lemma NoDup_bfilter {A B} (g : A → B) (f : A → bool) l : NoDup (map g l) → NoDup (map g (List.filter f l)).
Proof.
  induction l as [|x l IH]; [done|]. cbn. intros [Hn Hl]%NoDup_cons. destruct (f x); [|auto].
  cbn. apply NoDup_cons. split; [|auto]. rewrite list_elem_of_fmap. intros (y&E&[Hy _]%elem_of_bfilter).
  apply Hn. rewrite list_elem_of_fmap. by exists y.
Qed.

Lemma filter_none {A} (P : A → Prop) `{∀ x, Decision (P x)} l :
  Forall (λ x, ¬ P x) l → filter P l = [].
Proof. induction 1 as [|x l Hx Hl IH]; [done|]. by rewrite filter_cons, decide_False. Qed.

(** *** Weakest preconditions *)

Section wp.
Context {S : Type}.
Implicit Types (s : S) (E : Z → Prop).

Lemma wp_ret {A} (a : A) (Q : A → S → Prop) E s : Q a s → wp (mret a) Q E s.
Proof. done. Qed.

Lemma wp_bind {A B} (c : M S A) (f : A → M S B) Q E s :
  wp c (λ a s', wp (f a) Q E s') E s → wp (c ≫= f) Q E s.
Proof. unfold wp, mbind, M_bind. by destruct (c s) as [[a s']| |]. Qed.

Lemma wp_gets {A} (f : S → A) (Q : A → S → Prop) E s : Q (f s) s → wp (gets f) Q E s.
Proof. done. Qed.

Lemma wp_modify (f : S → S) (Q : () → S → Prop) E s : Q () (f s) → wp (modify f) Q E s.
Proof. done. Qed.

Lemma wp_lift_deref {A} (o : option A) (Q : A → S → Prop) E s :
  (∃ a, o = Some a ∧ Q a s) → wp (lift (deref o)) Q E s.
Proof. by intros (a&->&HQ). Qed.

Lemma wp_mono {A} (c : M S A) (Q Q' : A → S → Prop) E s :
  (∀ a s', Q a s' → Q' a s') → wp c Q E s → wp c Q' E s.
Proof. unfold wp. destruct (c s) as [[a s']| |]; auto. Qed.

Lemma wp_conj {A} (c : M S A) (Q Q' : A → S → Prop) E s :
  wp c Q E s → wp c Q' E s → wp c (λ a s', Q a s' ∧ Q' a s') E s.
Proof. unfold wp. destruct (c s) as [[a s']| |]; auto. Qed.
End wp.
