(* ===== verification/Policyfile.v ===== *)
(** * Policy files

    The buffers behind a binary policy (services.c: [next_entry], [put_entry],
    [str_read]), the little-endian integers in them (private.h), a monad for
    the readers with their error codes, and what it means that a writer emits
    bytes and that a reader parses them.  [policy_file] is [struct policy_file];
    the flag of android_m_compat.c is kept beside it. *)

From S2P Require Import Prelude.

(** ** The file *)

Definition PF_USE_MEMORY : Z := 0.
Definition PF_USE_STDIO : Z := 1.
Definition PF_LEN : Z := 2.

(** [fdata] are the bytes from the current position on, [flen] is the field
    [len] (for a FILE that is written: the room that is left for it), [fout]
    the bytes written so far. *)
Record policy_file := PF { pf_type : Z; fdata : list Z; flen : Z; fout : list Z }.

(** The state of the readers and writers: the file, [avtab_android_m_compat],
    the allocations. *)
Record fs := FS { file : policy_file; compat : bool; fmem : mem }.

Definition set_file (f : policy_file) (s : fs) : fs := FS f (compat s) (fmem s).

Definition POLICYDB_SUCCESS : Z := 0.
Definition POLICYDB_ERROR : Z := -1.

(** Moves over [n] bytes. *)
Definition advance (n : Z) (f : policy_file) : policy_file :=
  PF (pf_type f) (drop (Z.to_nat n) (fdata f)) (flen f - n) (fout f).

(** NULL stands for the status -1.  [fread(buf, n, 1, fp)] returns 0 for no
    bytes as well; a short read leaves the file at its end. *)
Definition next_entry (n : Z) : M fs (option (list Z)) := λ s,
  let f := file s in
  let buf := take (Z.to_nat n) (fdata f) in
  if pf_type f =? PF_USE_STDIO then
    if n =? 0 then Ret (None, s)
    else if Z.of_nat (length (fdata f)) <? n then Ret (None, set_file (PF (pf_type f) [] (flen f) (fout f)) s)
    else Ret (Some buf, set_file (PF (pf_type f) (drop (Z.to_nat n) (fdata f)) (flen f) (fout f)) s)
  else if pf_type f =? PF_USE_MEMORY then
    if flen f <? n then Ret (None, s)
    else if Z.of_nat (length (fdata f)) <? n then Undef
    else Ret (Some buf, set_file (advance n f) s)
  else Ret (None, s).

(** [put_entry(ptr, size, n, fp)] with the bytes at [ptr]: the items written. *)
Definition put_entry (size n : Z) (bytes : list Z) : M fs Z := λ s,
  let f := file s in
  if pf_type f =? PF_USE_STDIO then
    let k := Z.min n (flen f / size) in
    Ret (k, set_file (PF (pf_type f) (fdata f) (flen f - size * k) (fout f ++ take (Z.to_nat (size * k)) bytes)) s)
  else if pf_type f =? PF_USE_MEMORY then
    if flen f <? u32 (size * n) then Ret (0, s)
    else Ret (n, set_file (PF (pf_type f) (fdata f) (flen f - u32 (size * n)) (fout f ++ bytes)) s)
  else if pf_type f =? PF_LEN then
    Ret (n, set_file (PF (pf_type f) (fdata f) (u32 (flen f + u32 (size * n))) (fout f)) s)
  else Ret (0, s).

(** ** Integers *)

(** The [w] bytes of an unsigned integer, lowest first ([cpu_to_le32] and the
    like are the identity on the target). *)
Fixpoint le_bytes (w : nat) (z : Z) : list Z :=
  match w with O => [] | S w' => u8 z :: le_bytes w' (Z.shiftr z 8) end.

Fixpoint le_value (l : list Z) : Z :=
  match l with [] => 0 | b :: l' => b + 256 * le_value l' end.

(** The bytes of an array of [uint32_t]. *)
Definition u32s (l : list Z) : list Z := l ≫= le_bytes 4.
Definition u16s (l : list Z) : list Z := l ≫= le_bytes 2.

(** [n] integers of [w] bytes. *)
Fixpoint words (w n : nat) (l : list Z) : list Z :=
  match n with O => [] | S n' => le_value (take w l) :: words w n' (drop w l) end.

(** [buf[i]] *)
Definition word (buf : list Z) (i : Z) : Z := default 0 (at_index buf i).

(** The bytes of a key; a string read from a file ends at its first NUL. *)
Definition string_bytes (s : string) : list Z := byte_of <$> list_ascii_of_string s.

Definition ascii_of_byte (b : Z) : ascii := ascii_of_N (Z.to_N b).

Fixpoint string_of_bytes (l : list Z) : string :=
  match l with
  | [] => EmptyString
  | b :: l' => if b =? 0 then EmptyString else String (ascii_of_byte b) (string_of_bytes l')
  end.

Definition strlen (s : string) : Z := Z.of_nat (String.length s).

(** ** Readers

    A reader returns an error status ([inl]) or a value. *)

Definition R (A : Type) : Type := fs → outcome ((Z + A) * fs).

#[export] Instance R_ret : MRet R := λ A a s, Ret (inr a, s).
#[export] Instance R_bind : MBind R := λ A B f c s,
  match c s with
  | Ret (inl e, s') => Ret (inl e, s')
  | Ret (inr a, s') => f a s'
  | Exit z => Exit z
  | Undef => Undef
  end.

Definition fail {A} (rc : Z) : R A := λ s, Ret (inl rc, s).
Definition guard_or (rc : Z) (b : bool) : R () := if b then mret () else fail rc.

(** An array element or a pointer. *)
Definition must {A} (o : option A) : R A := λ s,
  match o with Some a => Ret (inr a, s) | None => Undef end.

(** An allocation; [rc] is the status when it fails. *)
Definition need (rc : Z) : R () := λ s,
  let '(ok, m) := malloc (fmem s) in
  Ret (if ok then inr () else inl rc, FS (file s) (compat s) m).

(** [next_entry]; the status is -1. *)
Definition entry (n : Z) : R (list Z) := λ s,
  match next_entry n s with
  | Ret (Some b, s') => Ret (inr b, s')
  | Ret (None, s') => Ret (inl (-1), s')
  | Exit z => Exit z
  | Undef => Undef
  end.

(** [next_entry(buf, fp, sizeof(uint32_t) * n)] *)
Definition next_u32s (n : Z) : R (list Z) := buf ← entry (4 * n); mret (words 4 (Z.to_nat n) buf).
Definition next_u16s (n : Z) : R (list Z) := buf ← entry (2 * n); mret (words 2 (Z.to_nat n) buf).
Definition next_u64 : R Z := buf ← entry 8; mret (le_value buf).
Definition next_u8 : R Z := buf ← entry 1; mret (le_value buf).

(** Runs a reader and gives every error the status [rc]. *)
Definition on_error {A} (rc : Z) (r : R A) : R A := λ s,
  match r s with
  | Ret (inl _, s') => Ret (inl rc, s')
  | o => o
  end.

(** Code on the memory, in a reader. *)
Definition in_mem {A} (f : mem → A * mem) : R A := λ s,
  let '(a, m) := f (fmem s) in Ret (inr a, FS (file s) (compat s) m).

Definition is_saturated (x : Z) : bool := x =? 2 ^ 32 - 1.
Definition zero_or_saturated (x : Z) : bool := (x =? 0) || is_saturated x.

Definition str_read (len : Z) : R string :=
  _ ← guard_or (-1) (negb (zero_or_saturated len));
  _ ← need (-1);
  b ← entry len;
  mret (string_of_bytes b).

(** The readers of keys that allocate [len + 1] bytes themselves. *)
Definition key_read (len : Z) : R string :=
  _ ← need (-1);
  b ← entry len;
  mret (string_of_bytes b).

(** [for (i = 0; i < n; i++)] over readers: the values in order. *)
Fixpoint repeat_read {A} (n : nat) (r : R A) : R (list A) :=
  match n with
  | O => mret []
  | S n' => a ← r; l ← repeat_read n' r; mret (a :: l)
  end.

(** ** Writers

    A writer returns a status.  [w1 ;;; w2] runs [w2] when [w1] succeeds
    and returns POLICYDB_ERROR otherwise. *)

Definition writer : Type := M fs Z.

Definition w_then (w1 w2 : writer) : writer :=
  rc ← w1; if rc =? 0 then w2 else mret POLICYDB_ERROR.

Infix ";;;" := w_then (at level 60, right associativity).

Definition put (size n : Z) (bytes : list Z) : writer :=
  items ← put_entry size n bytes;
  mret (if items =? n then POLICYDB_SUCCESS else POLICYDB_ERROR).

Definition put_u32s (l : list Z) : writer := put 4 (Z.of_nat (length l)) (u32s l).
Definition put_u16s (l : list Z) : writer := put 2 (Z.of_nat (length l)) (u16s l).
Definition put_u64 (z : Z) : writer := put 8 1 (le_bytes 8 z).
Definition put_u8 (z : Z) : writer := put 1 1 (le_bytes 1 z).

(** [put_entry(key, 1, len, fp)] *)
Definition put_string (s : string) : writer := put 1 (strlen s) (string_bytes s).

(** The loop over a list: the first error ends it. *)
Fixpoint write_all {A} (w : A → writer) (l : list A) : writer :=
  match l with
  | [] => mret POLICYDB_SUCCESS
  | a :: l' => w a ;;; write_all w l'
  end.

(** ** What the readers and writers do

    [parses r bs a]: on a memory image that starts with [bs], [r] returns [a]
    and moves over exactly [bs], provided no allocation fails. *)

Definition image (bs out : list Z) : policy_file := PF PF_USE_MEMORY bs (Z.of_nat (length bs)) out.

Definition parses {A} (c : bool) (r : R A) (bs : list Z) (a : A) : Prop :=
  ∀ rest out m, plenty m → ∃ m', plenty m' ∧
    r (FS (image (bs ++ rest) out) c m) = Ret (inr a, FS (image rest out) c m').

(** The same for a result that satisfies [Q]. *)
Definition parses_to {A} (c : bool) (r : R A) (bs : list Z) (Q : A → Prop) : Prop :=
  ∀ rest out m, plenty m → ∃ a m', plenty m' ∧ Q a ∧
    r (FS (image (bs ++ rest) out) c m) = Ret (inr a, FS (image rest out) c m').

(** [emits w bs]: with enough room, [w] writes [bs] to a memory image, and in
    the mode that only computes a length it adds the length of [bs]. *)
Definition emits (c : bool) (w : writer) (bs : list Z) : Prop :=
  (∀ d room out m, Z.of_nat (length bs) <= room →
     w (FS (PF PF_USE_MEMORY d room out) c m) =
       Ret (POLICYDB_SUCCESS, FS (PF PF_USE_MEMORY d (room - Z.of_nat (length bs)) (out ++ bs)) c m)) ∧
  (∀ d n out m, 0 <= n → n + Z.of_nat (length bs) < 2 ^ 32 →
     w (FS (PF PF_LEN d n out) c m) =
       Ret (POLICYDB_SUCCESS, FS (PF PF_LEN d (n + Z.of_nat (length bs)) out) c m)).

Definition byte_ok (b : Z) : Prop := 0 <= b < 2 ^ 8.
Definition u16_ok (z : Z) : Prop := 0 <= z < 2 ^ 16.
Definition u32_ok (z : Z) : Prop := 0 <= z < 2 ^ 32.
Definition u64_ok (z : Z) : Prop := 0 <= z < 2 ^ 64.

(** A readable file: a memory image holds at least [len] bytes. *)
Definition file_ok (s : fs) : Prop :=
  Forall byte_ok (fdata (file s)) ∧
  (pf_type (file s) = PF_USE_MEMORY → flen (file s) <= Z.of_nat (length (fdata (file s)))).

(** [sound r Q]: on any readable file, whatever bytes it holds, [r] returns,
    and a value it returns satisfies [Q]. *)
Definition sound {A} (r : R A) (Q : A → Prop) : Prop :=
  ∀ s, file_ok s →
    match r s with
    | Ret (inr a, s') => Q a ∧ file_ok s'
    | Ret (inl _, s') => file_ok s'
    | _ => False
    end.

(** The elements of an explicit list are in range. *)
Ltac in_range := repeat first [apply Forall_nil_2 | apply Forall_cons_2; [red; try lia|]].

(** ** Integers in bytes *)

Lemma length_le_bytes w z : length (le_bytes w z) = w.
Proof. revert z. induction w; intros; simpl; auto. Qed.

Lemma le_value_bytes w z : le_value (le_bytes w z) = z mod 2 ^ (8 * Z.of_nat w).
Proof.
  revert z. induction w as [|w IH]; intros z; [by rewrite Z.mod_1_r|].
  cbn [le_bytes le_value]. rewrite IH. unfold u8.
  replace (8 * Z.of_nat (S w)) with (8 + 8 * Z.of_nat w) by lia.
  rewrite Z.shiftr_div_pow2, Z.pow_add_r by lia.
  rewrite Z.rem_mul_r by lia. lia.
Qed.

Lemma le_bytes_mod w z : le_bytes w (z mod 2 ^ (8 * Z.of_nat w)) = le_bytes w z.
Proof.
  revert z. induction w as [|w IH]; intros z; [done|].
  replace (8 * Z.of_nat (S w)) with (8 + 8 * Z.of_nat w) by lia. rewrite Z.pow_add_r by lia.
  cbn [le_bytes]. f_equal.
  - unfold u8. apply Z.mod_mod_divide. by exists (2 ^ (8 * Z.of_nat w)); rewrite Z.mul_comm.
  - rewrite <- (IH (Z.shiftr z 8)), !Z.shiftr_div_pow2, Z.rem_mul_r by lia.
    assert (∀ x y, 0 <= x < 2 ^ 8 → (x + 2 ^ 8 * y) / 2 ^ 8 = y) as -> by (intros; change (2 ^ 8) with 256 in *; zmod); [done|].
    apply Z.mod_pos_bound. lia.
Qed.

Lemma u32s_wrap z : u32s [u32 z] = u32s [z].
Proof. unfold u32s. cbn [mbind list_bind]. by rewrite (le_bytes_mod 4 z : le_bytes 4 (u32 z) = _). Qed.

Lemma le_value_u32 z : u32_ok z → le_value (le_bytes 4 z) = z.
Proof. intros. rewrite le_value_bytes. by apply Z.mod_small. Qed.

Lemma le_value_u16 z : u16_ok z → le_value (le_bytes 2 z) = z.
Proof. intros. rewrite le_value_bytes. by apply Z.mod_small. Qed.

Lemma le_value_u64 z : u64_ok z → le_value (le_bytes 8 z) = z.
Proof. intros. rewrite le_value_bytes. by apply Z.mod_small. Qed.

Lemma le_value_u8 z : byte_ok z → le_value (le_bytes 1 z) = z.
Proof. intros. rewrite le_value_bytes. by apply Z.mod_small. Qed.

Lemma le_bytes_ok w z : Forall byte_ok (le_bytes w z).
Proof.
  revert z. induction w as [|w IH]; intros z; simpl; constructor; [|done].
  apply Z.mod_pos_bound. lia.
Qed.

Lemma le_value_range l : Forall byte_ok l → 0 <= le_value l < 2 ^ (8 * Z.of_nat (length l)).
Proof.
  induction 1 as [|b l Hb Hl IH]; [done|]. cbn [le_value length].
  replace (8 * Z.of_nat (S (length l))) with (8 + 8 * Z.of_nat (length l)) by lia.
  rewrite Z.pow_add_r by lia. red in Hb. lia.
Qed.

Lemma length_bytes_of w l : length (l ≫= le_bytes w) = (length l * w)%nat.
Proof. induction l as [|z l IH]; [done|]. csimpl. rewrite length_app, length_le_bytes, IH. lia. Qed.

Lemma length_words w n l : length (words w n l) = n.
Proof. revert l. induction n; intros; simpl; auto. Qed.

Lemma words_bytes w (P : Z → Prop) l rest :
  (∀ z, P z → le_value (le_bytes w z) = z) → Forall P l →
  words w (length l) ((l ≫= le_bytes w) ++ rest) = l.
Proof.
  intros HP. induction 1 as [|z l Hz Hl IH]; [done|].
  csimpl. rewrite <- app_assoc.
  assert (w = length (le_bytes w z)) as E by (by rewrite length_le_bytes).
  rewrite take_app_length', drop_app_length' by done. by rewrite IH, HP.
Qed.

Lemma words_range w n l :
  (n * w <= length l)%nat → Forall byte_ok l →
  Forall (λ z, 0 <= z < 2 ^ (8 * Z.of_nat w)) (words w n l).
Proof.
  revert l. induction n as [|n IH]; intros l Hn Hl; simpl; constructor.
  - pose proof (le_value_range (take w l) (Forall_take _ _ _ Hl)) as H.
    rewrite length_take_le in H by lia. done.
  - apply IH; [rewrite length_drop; lia|by apply Forall_drop].
Qed.

(** ** Rules for readers *)

Section parses_rules.
Context (c : bool).

Lemma parses_ret {A} (a : A) : parses c (mret a) [] a.
Proof. intros rest out m Hm. by exists m. Qed.

Lemma parses_bind {A B} (r : R A) (f : A → R B) bs1 bs2 a b :
  parses c r bs1 a → parses c (f a) bs2 b → parses c (r ≫= f) (bs1 ++ bs2) b.
Proof.
  intros H1 H2 rest out m Hm. rewrite <- app_assoc.
  destruct (H1 (bs2 ++ rest) out m Hm) as (m1&Hm1&E1).
  destruct (H2 rest out m1 Hm1) as (m2&Hm2&E2).
  exists m2. split; [done|]. unfold mbind, R_bind. by rewrite E1, E2.
Qed.

(** A reader of no bytes in front. *)
Lemma parses_bind_nil {A B} (r : R A) (f : A → R B) bs a b :
  parses c r [] a → parses c (f a) bs b → parses c (r ≫= f) bs b.
Proof. apply (parses_bind r f [] bs). Qed.

Lemma parses_to_ret {A} (a : A) (Q : A → Prop) : Q a → parses_to c (mret a) [] Q.
Proof. intros HQ rest out m Hm. by exists a, m. Qed.

Lemma parses_to_of {A} (r : R A) bs a (Q : A → Prop) : parses c r bs a → Q a → parses_to c r bs Q.
Proof. intros H HQ rest out m Hm. destruct (H rest out m Hm) as (m'&?&?). by exists a, m'. Qed.

Lemma parses_to_mono {A} (r : R A) bs (P Q : A → Prop) :
  parses_to c r bs P → (∀ a, P a → Q a) → parses_to c r bs Q.
Proof.
  intros Hr HPQ rest out m Hm. destruct (Hr rest out m Hm) as (a&m'&?&?&?). exists a, m'. auto.
Qed.

Lemma parses_to_bind {A B} (r : R A) (f : A → R B) bs1 bs2 P Q :
  parses_to c r bs1 P → (∀ a, P a → parses_to c (f a) bs2 Q) → parses_to c (r ≫= f) (bs1 ++ bs2) Q.
Proof.
  intros H1 H2 rest out m Hm. rewrite <- app_assoc.
  destruct (H1 (bs2 ++ rest) out m Hm) as (a&m1&Hm1&Ha&E1).
  destruct (H2 a Ha rest out m1 Hm1) as (b&m2&Hm2&Hb&E2).
  exists b, m2. split_and!; [done..|]. unfold mbind, R_bind. by rewrite E1, E2.
Qed.

(** A reader with a known result comes first. *)
Lemma parses_then {A B} (r : R A) (f : A → R B) bs1 bs2 a Q :
  parses c r bs1 a → parses_to c (f a) bs2 Q → parses_to c (r ≫= f) (bs1 ++ bs2) Q.
Proof.
  intros H1 H2. eapply parses_to_bind; [by eapply (parses_to_of _ _ _ (λ x, x = a))|].
  by intros ? ->.
Qed.

(** A reader of the whole, before one that reads nothing. *)
Lemma parses_last {A B} (r : R A) (f : A → R B) bs a Q :
  parses c r bs a → parses_to c (f a) [] Q → parses_to c (r ≫= f) bs Q.
Proof. intros H1 H2. rewrite <- (app_nil_r bs). by eapply parses_then. Qed.

Lemma parses_guard_then {B} rc b (f : () → R B) bs Q :
  b = true → parses_to c (f ()) bs Q → parses_to c (guard_or rc b ≫= f) bs Q.
Proof. intros ->. apply (parses_then _ _ []), parses_ret. Qed.

Lemma parses_guard_bind {B} rc b (f : () → R B) bs v :
  b = true → parses c (f ()) bs v → parses c (guard_or rc b ≫= f) bs v.
Proof. intros ->. apply parses_bind_nil, parses_ret. Qed.

Lemma parses_guard rc b : b = true → parses c (guard_or rc b) [] ().
Proof. intros ->. apply parses_ret. Qed.

Lemma parses_need rc : parses c (need rc) [] ().
Proof.
  intros rest out m Hm. destruct (malloc_plenty m Hm) as (m'&E&Hm').
  exists m'. split; [done|]. unfold need. cbn. by rewrite E.
Qed.

Lemma parses_need_bind {B} rc (f : () → R B) bs v :
  parses c (f ()) bs v → parses c (need rc ≫= f) bs v.
Proof. apply parses_bind_nil, parses_need. Qed.

Lemma parses_on_error {A} rc (r : R A) bs a : parses c r bs a → parses c (on_error rc r) bs a.
Proof.
  intros H rest out m Hm. destruct (H rest out m Hm) as (m'&Hm'&E).
  exists m'. split; [done|]. unfold on_error. by rewrite E.
Qed.

Lemma parses_to_on_error {A} rc (r : R A) bs Q : parses_to c r bs Q → parses_to c (on_error rc r) bs Q.
Proof.
  intros Hr rest out m Hm. destruct (Hr rest out m Hm) as (a&m'&Hm'&HQ&E). exists a, m'.
  split_and!; [done..|]. unfold on_error. by rewrite E.
Qed.

Lemma parses_in_mem {A} (f : mem → A * mem) a :
  (∀ m, plenty m → ∃ m', f m = (a, m') ∧ plenty m') → parses c (in_mem f) [] a.
Proof.
  intros H rest out m Hm. destruct (H m Hm) as (m'&E&Hm').
  exists m'. split; [done|]. unfold in_mem. cbn. by rewrite E.
Qed.

Lemma parses_entry n bs : Z.of_nat (length bs) = n → parses c (entry n) bs bs.
Proof.
  intros <- rest out m Hm. exists m. split; [done|].
  unfold entry, next_entry, image. cbn. rewrite length_app, Nat2Z.id.
  destruct (Z.ltb_spec (Z.of_nat (length bs + length rest)) (Z.of_nat (length bs))); [lia|].
  rewrite take_app_length. unfold set_file, advance. cbn. rewrite Nat2Z.id, drop_app_length.
  by replace (Z.of_nat (length bs + length rest) - Z.of_nat (length bs)) with (Z.of_nat (length rest)) by lia.
Qed.

(** A reader of no bytes at the end. *)
Lemma parses_bind_r {A B} (r : R A) (f : A → R B) bs a b :
  parses c r bs a → parses c (f a) [] b → parses c (r ≫= f) bs b.
Proof. intros H1 H2. rewrite <- (app_nil_r bs). by eapply parses_bind. Qed.

Lemma parses_map {A B} (f : A → B) (r : R A) bs a b :
  parses c r bs a → f a = b → parses c (x ← r; mret (f x)) bs b.
Proof.
  intros H <-. rewrite <- (app_nil_r bs). by eapply parses_bind; [|apply parses_ret].
Qed.

Lemma parses_u32s n l :
  Z.of_nat (length l) = n → Forall u32_ok l → parses c (next_u32s n) (u32s l) l.
Proof.
  intros <- Hl. unfold next_u32s. eapply parses_map.
  - apply parses_entry. unfold u32s. rewrite length_bytes_of. lia.
  - rewrite Nat2Z.id, <- (app_nil_r (u32s l)). unfold u32s.
    apply (words_bytes 4 u32_ok); [apply le_value_u32|done].
Qed.

Lemma parses_u16s n l :
  Z.of_nat (length l) = n → Forall u16_ok l → parses c (next_u16s n) (u16s l) l.
Proof.
  intros <- Hl. unfold next_u16s. eapply parses_map.
  - apply parses_entry. unfold u16s. rewrite length_bytes_of. lia.
  - rewrite Nat2Z.id, <- (app_nil_r (u16s l)). unfold u16s.
    apply (words_bytes 2 u16_ok); [apply le_value_u16|done].
Qed.

Lemma parses_u64 z : u64_ok z → parses c next_u64 (le_bytes 8 z) z.
Proof.
  intros Hz. eapply parses_map; [by apply parses_entry; rewrite length_le_bytes|by apply le_value_u64].
Qed.

Lemma parses_u8 z : byte_ok z → parses c next_u8 (le_bytes 1 z) z.
Proof.
  intros Hz. eapply parses_map; [by apply parses_entry; rewrite length_le_bytes|by apply le_value_u8].
Qed.

(** A string that a file can hold: no NUL, and a length that fits. *)
Definition name_ok (s : string) : Prop :=
  Forall (λ b, b ≠ 0) (string_bytes s) ∧ strlen s < 2 ^ 32 - 1.

Lemma byte_of_range a : byte_ok (byte_of a).
Proof. unfold byte_of, byte_ok. pose proof (N_ascii_bounded a). lia. Qed.

Lemma string_bytes_ok s : Forall byte_ok (string_bytes s).
Proof. unfold string_bytes. apply Forall_fmap, Forall_true. intros a. apply byte_of_range. Qed.

Lemma length_string_bytes s : Z.of_nat (length (string_bytes s)) = strlen s.
Proof. unfold string_bytes, strlen. rewrite length_fmap. induction s as [|a s IH]; simpl; lia. Qed.

Lemma string_of_string_bytes s : Forall (λ b, b ≠ 0) (string_bytes s) → string_of_bytes (string_bytes s) = s.
Proof.
  induction s as [|a s IH]; [done|]. intros [Ha Hs]%Forall_cons. cbn.
  destruct (Z.eqb_spec (byte_of a) 0); [done|].
  unfold string_bytes in IH. rewrite IH by done. f_equal.
  unfold ascii_of_byte, byte_of. by rewrite N2Z.id, ascii_N_embedding.
Qed.

Lemma strlen_nonneg s : 0 <= strlen s.
Proof. unfold strlen. lia. Qed.

Lemma parses_str_read s n :
  name_ok s → n = strlen s → s ≠ EmptyString → parses c (str_read n) (string_bytes s) s.
Proof.
  intros [Hs Hn] -> He. unfold str_read. apply parses_bind_nil with ().
  { apply parses_guard. unfold zero_or_saturated, is_saturated.
    destruct s; [done|]. unfold strlen in *. cbn [String.length] in *. zcase; lia. }
  apply parses_need_bind.
  eapply parses_map; [by apply parses_entry, length_string_bytes|by apply string_of_string_bytes].
Qed.

Lemma parses_key_read s n : name_ok s → n = strlen s → parses c (key_read n) (string_bytes s) s.
Proof.
  intros [Hs Hn] ->. unfold key_read. apply parses_need_bind.
  eapply parses_map; [by apply parses_entry, length_string_bytes|by apply string_of_string_bytes].
Qed.

Lemma parses_repeat {A} (r : R A) (enc : A → list Z) l n :
  n = length l → Forall (λ a, parses c r (enc a) a) l → parses c (repeat_read n r) (l ≫= enc) l.
Proof.
  intros -> Hl. induction Hl as [|a l Ha Hl IH]; [apply parses_ret|].
  csimpl. eapply parses_bind; [done|]. by eapply parses_map.
Qed.
End parses_rules.

(** ** Rules for writers *)

Section emits_rules.
Context (c : bool).

Lemma emits_nil : emits c (mret POLICYDB_SUCCESS) [].
Proof.
  split; intros; cbn; rewrite ?Z.sub_0_r, ?Z.add_0_r, ?app_nil_r; done.
Qed.

Lemma emits_then w1 w2 bs1 bs2 : emits c w1 bs1 → emits c w2 bs2 → emits c (w1 ;;; w2) (bs1 ++ bs2).
Proof.
  intros [M1 L1] [M2 L2]. split.
  - intros d room out m. rewrite length_app. intros Hroom. unfold w_then, mbind, M_bind.
    rewrite M1 by lia. cbn. rewrite M2 by lia. rewrite app_assoc.
    by replace (room - Z.of_nat (length bs1) - Z.of_nat (length bs2))
      with (room - Z.of_nat (length bs1 + length bs2)) by lia.
  - intros d n out m. rewrite length_app. intros Hn Hlt. unfold w_then, mbind, M_bind.
    rewrite L1 by lia. cbn. rewrite L2 by lia.
    by replace (n + Z.of_nat (length bs1) + Z.of_nat (length bs2))
      with (n + Z.of_nat (length bs1 + length bs2)) by lia.
Qed.

Lemma emits_ext w1 w2 bs : (∀ s, w1 s = w2 s) → emits c w2 bs → emits c w1 bs.
Proof. intros E [H1 H2]. split; intros; rewrite E; auto. Qed.

Lemma emits_put size n bs : 0 <= size → 0 <= n → size * n < 2 ^ 32 →
  Z.of_nat (length bs) = size * n → emits c (put size n bs) bs.
Proof.
  intros Hs Hn Hlt E. split.
  - intros d room out m Hroom. unfold put, mbind, M_bind, put_entry. cbn.
    rewrite u32_small by lia. rewrite <- E. destruct (Z.ltb_spec room (Z.of_nat (length bs))); [lia|].
    by rewrite Z.eqb_refl.
  - intros d k out m Hk Hlt'. unfold put, mbind, M_bind, put_entry. cbn.
    rewrite (u32_small (size * n)) by lia. rewrite <- E, u32_small by lia. by rewrite Z.eqb_refl.
Qed.

Lemma emits_u32s l : Z.of_nat (length l) < 2 ^ 30 → emits c (put_u32s l) (u32s l).
Proof. intros. apply emits_put; [lia..|]. unfold u32s. rewrite length_bytes_of. lia. Qed.

Lemma emits_u16s l : Z.of_nat (length l) < 2 ^ 30 → emits c (put_u16s l) (u16s l).
Proof. intros. apply emits_put; [lia..|]. unfold u16s. rewrite length_bytes_of. lia. Qed.

Lemma emits_u64 z : emits c (put_u64 z) (le_bytes 8 z).
Proof. apply emits_put; rewrite ?length_le_bytes; lia. Qed.

Lemma emits_u8 z : emits c (put_u8 z) (le_bytes 1 z).
Proof. apply emits_put; rewrite ?length_le_bytes; lia. Qed.

Lemma emits_string s : strlen s < 2 ^ 32 → emits c (put_string s) (string_bytes s).
Proof.
  intros H. pose proof (strlen_nonneg s).
  apply emits_put; [lia..|]. rewrite length_string_bytes. lia.
Qed.

Lemma emits_all {A} (w : A → writer) (enc : A → list Z) l :
  Forall (λ a, emits c (w a) (enc a)) l → emits c (write_all w l) (l ≫= enc).
Proof.
  induction 1 as [|a l Ha Hl IH]; [apply emits_nil|]. csimpl. by apply emits_then.
Qed.
End emits_rules.

(** ** Rules for readers of arbitrary bytes *)

Section sound_rules.

Lemma sound_ret {A} (a : A) (Q : A → Prop) : Q a → sound (mret a) Q.
Proof. by intros H s Hs. Qed.

Lemma sound_fail {A} rc (Q : A → Prop) : sound (fail rc) Q.
Proof. by intros s Hs. Qed.

Lemma sound_bind {A B} (r : R A) (f : A → R B) P Q :
  sound r P → (∀ a, P a → sound (f a) Q) → sound (r ≫= f) Q.
Proof.
  intros H1 H2 s Hs. specialize (H1 s Hs). unfold mbind, R_bind.
  destruct (r s) as [[[e|a] s']| |]; try done. destruct H1 as [Ha Hs']. by apply H2.
Qed.

Lemma sound_mono {A} (r : R A) (P Q : A → Prop) : sound r P → (∀ a, P a → Q a) → sound r Q.
Proof.
  intros H1 H2 s Hs. specialize (H1 s Hs). destruct (r s) as [[[e|a] s']| |]; try done.
  destruct H1. auto.
Qed.

Lemma sound_must {A} (o : option A) (Q : A → Prop) : (∃ a, o = Some a ∧ Q a) → sound (must o) Q.
Proof. by intros (a&->&HQ) s Hs. Qed.

Lemma sound_guard rc (b : bool) : sound (guard_or rc b) (λ _, b = true).
Proof. destruct b; [by apply sound_ret|apply sound_fail]. Qed.

Lemma sound_need rc : sound (need rc) (λ _, True).
Proof. intros s Hs. unfold need. destruct (malloc (fmem s)) as [[] m]; done. Qed.

Lemma sound_guard_bind {B} rc (b : bool) (f : () → R B) Q :
  (b = true → sound (f ()) Q) → sound (guard_or rc b ≫= f) Q.
Proof. intros H. eapply sound_bind; [apply sound_guard|]. intros []. apply H. Qed.

Lemma sound_need_bind {B} rc (f : () → R B) Q : sound (f ()) Q → sound (need rc ≫= f) Q.
Proof. intros H. eapply sound_bind; [apply sound_need|]. by intros []. Qed.

Lemma sound_on_error {A} rc (r : R A) Q : sound r Q → sound (on_error rc r) Q.
Proof. intros H s Hs. specialize (H s Hs). unfold on_error. by destruct (r s) as [[[e|a] s']| |]. Qed.

Lemma sound_in_mem {A} (f : mem → A * mem) (Q : A → Prop) :
  (∀ m, Q (f m).1) → sound (in_mem f) Q.
Proof. intros H s Hs. unfold in_mem. specialize (H (fmem s)). destruct (f (fmem s)). done. Qed.

Lemma sound_entry n : 0 <= n →
  sound (entry n) (λ b, Z.of_nat (length b) = n ∧ Forall byte_ok b).
Proof.
  intros Hn s [Hb Hl]. unfold entry, next_entry.
  destruct (Z.eqb_spec (pf_type (file s)) PF_USE_STDIO) as [E|E].
  { destruct (n =? 0); [done|].
    destruct (Z.ltb_spec (Z.of_nat (length (fdata (file s)))) n); cbn.
    - split; [constructor|]. cbn. by rewrite E.
    - split; [split; [rewrite length_take; lia|by apply Forall_take]|].
      split; cbn; [by apply Forall_drop|by rewrite E]. }
  destruct (Z.eqb_spec (pf_type (file s)) PF_USE_MEMORY) as [E'|E']; [|done].
  specialize (Hl E').
  destruct (Z.ltb_spec (flen (file s)) n); [done|].
  destruct (Z.ltb_spec (Z.of_nat (length (fdata (file s)))) n); [lia|]. cbn.
  split; [split; [rewrite length_take; lia|by apply Forall_take]|].
  split; cbn; [by apply Forall_drop|]. intros _. rewrite length_drop. lia.
Qed.

Lemma sound_map {A B} (f : A → B) (r : R A) (P : A → Prop) (Q : B → Prop) :
  sound r P → (∀ a, P a → Q (f a)) → sound (x ← r; mret (f x)) Q.
Proof. intros H1 H2. eapply sound_bind; [done|]. intros a Ha. by apply sound_ret, H2. Qed.

Lemma sound_u32s n : 0 <= n →
  sound (next_u32s n) (λ l, Z.of_nat (length l) = n ∧ Forall u32_ok l).
Proof.
  intros Hn. eapply sound_map; [apply sound_entry; lia|]. intros b [E Hb].
  rewrite length_words. split; [lia|]. apply (words_range 4); [lia|done].
Qed.

Lemma sound_u16s n : 0 <= n →
  sound (next_u16s n) (λ l, Z.of_nat (length l) = n ∧ Forall u16_ok l).
Proof.
  intros Hn. eapply sound_map; [apply sound_entry; lia|]. intros b [E Hb].
  rewrite length_words. split; [lia|]. apply (words_range 2); [lia|done].
Qed.

Lemma sound_u64 : sound next_u64 u64_ok.
Proof.
  eapply sound_map; [by apply sound_entry|]. intros b [E Hb].
  pose proof (le_value_range b Hb). replace (length b) with 8%nat in * by lia. done.
Qed.

Lemma sound_u8 : sound next_u8 byte_ok.
Proof.
  eapply sound_map; [by apply sound_entry|]. intros b [E Hb].
  pose proof (le_value_range b Hb). replace (length b) with 1%nat in * by lia. done.
Qed.

Lemma sound_key_read n : 0 <= n → sound (key_read n) (λ _, True).
Proof.
  intros Hn. apply sound_need_bind.
  by eapply sound_map; [apply sound_entry|].
Qed.

Lemma sound_str_read n : 0 <= n → sound (str_read n) (λ _, True).
Proof.
  intros Hn. apply sound_guard_bind. intros _. by apply sound_key_read.
Qed.

Lemma sound_repeat {A} n (r : R A) Q :
  sound r Q → sound (repeat_read n r) (λ l, length l = n ∧ Forall Q l).
Proof.
  intros H. induction n as [|n IH]; [by apply sound_ret|].
  cbn [repeat_read]. eapply sound_bind; [done|]. intros a Ha.
  eapply sound_map; [done|]. intros l [El Hl]. cbn. split; [lia|by constructor].
Qed.
End sound_rules.
