(* ===== verification/Ebitmap.v ===== *)
(** * Extensible bitmaps (libsepol/src/ebitmap.c, sepol/policydb/ebitmap.h)

    An [ebitmap] is a linked list of 64-bit words, each with the position of
    its first bit, in increasing order of position; [highbit] is one past the
    last word.  The policy represents every set of types, roles, categories and
    attributes this way.

    The first part translates the operations; the second proves that the
    representation is canonical ([ebitmap_wf]), that each operation preserves
    it, and that each operation computes the set operation its name says. *)

From S2P Require Import Prelude.

(** ** Data *)

Definition MAPSIZE : Z := 64.

(** [MAPBIT << k] in a [MAPTYPE] (uint64_t). *)
Definition MAPBIT_shl (k : Z) : Z := u64 (Z.shiftl 1 k).

Record ebitmap_node := EN { startbit : Z; nmap : Z }.

Record ebitmap := EB { node : list ebitmap_node; highbit : Z }.

Definition ebitmap_init : ebitmap := EB [] 0.

(** [ebitmap_destroy] frees the nodes and leaves the empty bitmap. *)
Definition ebitmap_destroy (e : ebitmap) : ebitmap := EB [] 0.

Definition ebitmap_length (e : ebitmap) : Z := highbit e.

Definition ebitmap_startbit (e : ebitmap) : Z :=
  match node e with [] => 0 | n :: _ => startbit n end.

(** [n->startbit + MAPSIZE]: uint32_t plus a 32-bit size_t. *)
Definition node_end (n : ebitmap_node) : Z := u32 (startbit n + MAPSIZE).

(** ** Iteration: [ebitmap_start], [ebitmap_next], [ebitmap_for_each_bit]

    The cursor is the rest of the node list and a bit position. *)

Definition ebitmap_start (e : ebitmap) : list ebitmap_node * Z := (node e, ebitmap_startbit e).

Definition ebitmap_next (n : list ebitmap_node) (bit : Z) : list ebitmap_node * Z :=
  match n with
  | cur :: ((nx :: _) as rest) =>
      if bit =? u32 (startbit cur + MAPSIZE - 1)
      then (rest, startbit nx)
      else (n, u32 (bit + 1))
  | _ => (n, u32 (bit + 1))
  end.

Definition ebitmap_node_get_bit (n : ebitmap_node) (bit : Z) : bool :=
  has_bits (nmap n) (MAPBIT_shl (bit - startbit n)).

(** The positions the loop visits, each with the value
    [ebitmap_node_get_bit(n, bit)] the loop body reads there. *)
Fixpoint for_each_bit_loop (fuel : nat) (hb : Z) (n : list ebitmap_node) (bit : Z)
    : list (Z * bool) :=
  match fuel with
  | O => []
  | S fuel' =>
      if bit <? hb then
        match n with
        | [] => []
        | cur :: _ =>
            let '(n', bit') := ebitmap_next n bit in
            (bit, ebitmap_node_get_bit cur bit) :: for_each_bit_loop fuel' hb n' bit'
        end
      else []
  end.

Definition ebitmap_for_each_bit (e : ebitmap) : list (Z * bool) :=
  let '(n, bit) := ebitmap_start e in
  for_each_bit_loop (64 * length (node e)) (ebitmap_length e) n bit.

(** The positions at which a loop of the form
    [ebitmap_for_each_bit(e, n, i) { if (!ebitmap_node_get_bit(n, i)) continue; ... }]
    runs its body. *)
Definition ebitmap_set_bits (e : ebitmap) : list Z :=
  (filter (λ p, p.2 = true) (ebitmap_for_each_bit e)).*1.

(** ** Reading and writing one bit *)

Fixpoint get_bit_nodes (n : list ebitmap_node) (bit : Z) : bool :=
  match n with
  | [] => false
  | cur :: next =>
      if startbit cur <=? bit then
        if bit <? node_end cur
        then has_bits (nmap cur) (MAPBIT_shl (bit - startbit cur))
        else get_bit_nodes next bit
      else false
  end.

Definition ebitmap_get_bit (e : ebitmap) (bit : Z) : bool :=
  if highbit e <? bit then false else get_bit_nodes (node e) bit.

(** [ebitmap_set_bit] when no word holds [bit]: insert one in front of [n], the
    words after [bit].  The results are the status, the list, the bitmap's
    [highbit]. *)
Definition set_bit_new (n : list ebitmap_node) (bit : Z) (value : bool) (hb : Z) (m : mem)
    : Z * list ebitmap_node * Z * mem :=
  let start := Z.land bit (not32 (MAPSIZE - 1)) in
  if negb value then (0, n, hb, m)
  else
    let '(ok, m) := malloc m in
    if negb ok then (- ENOMEM, n, hb, m)
    else
      (0, EN start (MAPBIT_shl (bit - start)) :: n,
       match n with [] => u32 (start + MAPSIZE) | _ => hb end, m).

(** [ebitmap_set_bit] when the word [cur] holds [bit]; [prev] is the word
    before it and [next] the words after it. *)
Definition set_bit_word (prev : option ebitmap_node) (cur : ebitmap_node)
    (next : list ebitmap_node) (bit : Z) (value : bool) (hb : Z) (m : mem)
    : Z * list ebitmap_node * Z * mem :=
  if value then
    (0, EN (startbit cur) (Z.lor (nmap cur) (MAPBIT_shl (bit - startbit cur))) :: next, hb, m)
  else
    let map' := Z.land (nmap cur) (not64 (MAPBIT_shl (bit - startbit cur))) in
    if map' =? 0 then
      let hb' := match next with
                 | [] => match prev with Some p => node_end p | None => 0 end
                 | _ => hb
                 end in
      (0, next, hb', m)
    else (0, EN (startbit cur) map' :: next, hb, m).

(** The loop of [ebitmap_set_bit], from the word after [prev] on. *)
Fixpoint set_bit_nodes (prev : option ebitmap_node) (n : list ebitmap_node)
    (bit : Z) (value : bool) (hb : Z) (m : mem) : Z * list ebitmap_node * Z * mem :=
  match n with
  | [] => set_bit_new n bit value hb m
  | cur :: next =>
      if startbit cur <=? bit then
        if bit <? node_end cur then set_bit_word prev cur next bit value hb m
        else
          let '(rc, next', hb', m') := set_bit_nodes (Some cur) next bit value hb m in
          (rc, cur :: next', hb', m')
      else set_bit_new n bit value hb m
  end.

Definition ebitmap_set_bit (e : ebitmap) (bit : Z) (value : bool) (m : mem) : Z * ebitmap * mem :=
  let start := Z.land bit (not32 (MAPSIZE - 1)) in
  if u32 (start + MAPSIZE) =? 0 then (- EINVAL, e, m)
  else
    let '(rc, n, hb, m') := set_bit_nodes None (node e) bit value (highbit e) m in
    (rc, EB n hb, m').

(** ** Set operations *)

(** The loop of [ebitmap_or]; [None] when an allocation fails. *)
Fixpoint or_nodes (n1 : list ebitmap_node) : list ebitmap_node → mem → option (list ebitmap_node) * mem :=
  fix or_nodes2 (n2 : list ebitmap_node) (m : mem) {struct n2} :=
    match n1, n2 with
    | [], [] => (Some [], m)
    | a :: n1', b :: n2' =>
        let '(ok, m) := malloc m in
        if negb ok then (None, m)
        else if startbit a =? startbit b then
          let '(r, m) := or_nodes n1' n2' m in
          (cons (EN (startbit a) (Z.lor (nmap a) (nmap b))) <$> r, m)
        else if startbit a <? startbit b then
          let '(r, m) := or_nodes n1' n2 m in (cons (EN (startbit a) (nmap a)) <$> r, m)
        else
          let '(r, m) := or_nodes2 n2' m in (cons (EN (startbit b) (nmap b)) <$> r, m)
    | a :: n1', [] =>
        let '(ok, m) := malloc m in
        if negb ok then (None, m)
        else let '(r, m) := or_nodes n1' n2 m in (cons (EN (startbit a) (nmap a)) <$> r, m)
    | [], b :: n2' =>
        let '(ok, m) := malloc m in
        if negb ok then (None, m)
        else let '(r, m) := or_nodes2 n2' m in (cons (EN (startbit b) (nmap b)) <$> r, m)
    end.

Definition ebitmap_or (e1 e2 : ebitmap) (m : mem) : Z * ebitmap * mem :=
  let '(r, m) := or_nodes (node e1) (node e2) m in
  match r with
  | None => (- ENOMEM, ebitmap_init, m)
  | Some n => (0, EB n (if highbit e2 <? highbit e1 then highbit e1 else highbit e2), m)
  end.

Definition ebitmap_union (dst e1 : ebitmap) (m : mem) : Z * ebitmap * mem :=
  let '(rc, tmp, m) := ebitmap_or dst e1 m in
  if rc =? 0 then (0, EB (node tmp) (highbit tmp), m) else (-1, dst, m).

(** The body shared by the loops that set bit [i] of [dst] to [val] and give
    up on an error. *)
Definition set_or_fail (i : Z) (val : bool) (s : ebitmap * mem)
    : (Z * ebitmap * mem) + (ebitmap * mem) :=
  let '(dst, m) := s in
  let '(rc, dst, m) := ebitmap_set_bit dst i val m in
  if rc <? 0 then inl (rc, dst, m) else inr (dst, m).

Definition finish (r : (Z * ebitmap * mem) + (ebitmap * mem)) : Z * ebitmap * mem :=
  match r with inl r => r | inr (dst, m) => (0, dst, m) end.

Definition ebitmap_and (e1 e2 : ebitmap) (m : mem) : Z * ebitmap * mem :=
  finish (for_range 0 (Z.min (ebitmap_length e1) (ebitmap_length e2))
    (λ i s, if ebitmap_get_bit e1 i && ebitmap_get_bit e2 i
            then set_or_fail i true s else inr s)
    (ebitmap_init, m)).

Definition ebitmap_xor (e1 e2 : ebitmap) (m : mem) : Z * ebitmap * mem :=
  finish (for_range 0 (Z.max (ebitmap_length e1) (ebitmap_length e2))
    (λ i s, set_or_fail i (xorb (ebitmap_get_bit e1 i) (ebitmap_get_bit e2 i)) s)
    (ebitmap_init, m)).

Definition ebitmap_not (e1 : ebitmap) (maxbit : Z) (m : mem) : Z * ebitmap * mem :=
  finish (for_range 0 maxbit
    (λ i s, set_or_fail i (negb (ebitmap_get_bit e1 i)) s)
    (ebitmap_init, m)).

Definition ebitmap_andnot (e1 e2 : ebitmap) (maxbit : Z) (m : mem) : Z * ebitmap * mem :=
  let '(rc, e3, m) := ebitmap_not e2 maxbit m in
  if rc <? 0 then (rc, ebitmap_init, m)
  else
    let '(rc, dst, m) := ebitmap_and e1 e3 m in
    if rc <? 0 then (rc, dst, m) else (0, dst, m).

Definition ebitmap_cardinality (e1 : ebitmap) : Z :=
  match for_range (R := Empty_set) (ebitmap_startbit e1) (ebitmap_length e1)
    (λ i count, inr (if ebitmap_get_bit e1 i then u32 (count + 1) else count)) 0 with
  | inl r => match r with end
  | inr count => count
  end.

(** ** Comparisons *)

Fixpoint cmp_nodes (n1 n2 : list ebitmap_node) : bool :=
  match n1, n2 with
  | a :: n1', b :: n2' =>
      if (startbit a =? startbit b) && (nmap a =? nmap b) then cmp_nodes n1' n2' else false
  | [], [] => true
  | _, _ => false
  end.

(** 1 when the bitmaps are equal. *)
Definition ebitmap_cmp (e1 e2 : ebitmap) : bool :=
  if negb (highbit e1 =? highbit e2) then false else cmp_nodes (node e1) (node e2).

Definition ebitmap_hamming_distance (e1 e2 : ebitmap) (m : mem) : Z * mem :=
  if ebitmap_cmp e1 e2 then (0, m)
  else
    let '(rc, tmp, m) := ebitmap_xor e1 e2 m in
    if rc <? 0 then (-1, m) else (ebitmap_cardinality tmp, m).

Fixpoint cpy_nodes (n : list ebitmap_node) (m : mem) : option (list ebitmap_node) * mem :=
  match n with
  | [] => (Some [], m)
  | a :: n' =>
      let '(ok, m) := malloc m in
      if negb ok then (None, m)
      else let '(r, m) := cpy_nodes n' m in (cons (EN (startbit a) (nmap a)) <$> r, m)
  end.

Definition ebitmap_cpy (src : ebitmap) (m : mem) : Z * ebitmap * mem :=
  let '(r, m) := cpy_nodes (node src) m in
  match r with
  | None => (- ENOMEM, ebitmap_init, m)
  | Some n => (0, EB n (highbit src), m)
  end.

Fixpoint contains_nodes (n1 n2 : list ebitmap_node) : bool :=
  match n1, n2 with
  | a :: n1', b :: n2' =>
      if startbit a <=? startbit b then
        if startbit a <? startbit b then contains_nodes n1' n2
        else if negb (Z.land (nmap a) (nmap b) =? nmap b) then false
        else contains_nodes n1' n2'
      else false
  | _, [] => true
  | [], _ :: _ => false
  end.

Definition ebitmap_contains (e1 e2 : ebitmap) : bool :=
  if highbit e1 <? highbit e2 then false else contains_nodes (node e1) (node e2).

Fixpoint match_any_nodes (n1 : list ebitmap_node) : list ebitmap_node → bool :=
  fix match_any2 (n2 : list ebitmap_node) :=
    match n1, n2 with
    | a :: n1', b :: n2' =>
        if startbit a <? startbit b then match_any_nodes n1' n2
        else if startbit b <? startbit a then match_any2 n2'
        else if has_bits (nmap a) (nmap b) then true
        else match_any_nodes n1' n2'
    | _, _ => false
    end.

Definition ebitmap_match_any (e1 e2 : ebitmap) : bool :=
  match_any_nodes (node e1) (node e2).

(** ** Invariant and abstraction

    [wf_nodes lo n]: the words are aligned, in increasing order from [lo] on,
    non-zero 64-bit values, and none reaches the end of the 32-bit range. *)

Fixpoint wf_nodes (lo : Z) (n : list ebitmap_node) : Prop :=
  match n with
  | [] => True
  | a :: n' =>
      lo <= startbit a ∧ startbit a mod 64 = 0 ∧ startbit a + 64 < 2 ^ 32 ∧
      0 < nmap a < 2 ^ 64 ∧ wf_nodes (startbit a + 64) n'
  end.

(** One past the last word, [d] when there is none. *)
Definition high_of (d : Z) (n : list ebitmap_node) : Z :=
  match last n with Some a => startbit a + 64 | None => d end.

Definition ebitmap_wf (e : ebitmap) : Prop :=
  wf_nodes 0 (node e) ∧ highbit e = high_of 0 (node e).

(** The set of positions a word, a node list, a bitmap stands for. *)
Definition in_node (a : ebitmap_node) (j : Z) : bool :=
  (startbit a <=? j) && (j <? startbit a + 64) && Z.testbit (nmap a) (j - startbit a).

Definition in_nodes (n : list ebitmap_node) (j : Z) : bool := existsb (λ a, in_node a j) n.

Arguments in_nodes : simpl never.

Definition in_ebitmap (e : ebitmap) (j : Z) : bool := in_nodes (node e) j.

(** ** Words *)

Lemma MAPBIT_shl_small k : 0 <= k < 64 → MAPBIT_shl k = Z.shiftl 1 k.
Proof.
  intros Hk. unfold MAPBIT_shl. apply u64_small. rewrite Z.shiftl_1_l.
  split; [lia|]. apply Z.pow_lt_mono_r; lia.
Qed.

Lemma MAPBIT_shl_range k : 0 <= k < 64 → 0 < MAPBIT_shl k < 2 ^ 64.
Proof.
  intros Hk. rewrite MAPBIT_shl_small, Z.shiftl_1_l by done.
  split; [lia|]. apply Z.pow_lt_mono_r; lia.
Qed.

Lemma has_MAPBIT a k : 0 <= k < 64 → has_bits a (MAPBIT_shl k) = Z.testbit a k.
Proof. intros Hk. rewrite MAPBIT_shl_small by done. apply has_bits_shl. lia. Qed.

Lemma testbit_set_MAPBIT a k j :
  0 <= k < 64 → 0 <= j → Z.testbit (Z.lor a (MAPBIT_shl k)) j = Z.testbit a j || (k =? j).
Proof.
  intros Hk Hj. rewrite MAPBIT_shl_small by done.
  by rewrite Z.lor_spec, testbit_one_shl by lia.
Qed.

Lemma testbit_clear_MAPBIT a k j :
  0 <= a < 2 ^ 64 → 0 <= k < 64 → 0 <= j →
  Z.testbit (Z.land a (not64 (MAPBIT_shl k))) j = Z.testbit a j && negb (k =? j).
Proof.
  intros Ha Hk Hj. rewrite MAPBIT_shl_small by done. unfold not64.
  rewrite Z.land_spec, testbit_u64, Z.lnot_spec, testbit_one_shl by lia.
  destruct (Z.ltb_spec j 64); simpl; [done|].
  by rewrite (testbit_high 64 a) by lia.
Qed.

(** The aligned start of the word that holds [bit]. *)
Lemma word_start bit :
  0 <= bit < 2 ^ 32 → Z.land bit (not32 (MAPSIZE - 1)) = bit - bit mod 64.
Proof.
  intros Hb. apply Z.bits_inj'. intros k Hk.
  replace (bit - bit mod 64) with (Z.shiftl (Z.shiftr bit 6) 6).
  2: { rewrite Z.shiftl_mul_pow2, Z.shiftr_div_pow2 by lia.
       pose proof (Z.div_mod bit 64). change (2 ^ 6) with 64. lia. }
  unfold not32, MAPSIZE. rewrite Z.land_spec, testbit_u32, Z.lnot_spec by lia.
  change (64 - 1) with (Z.ones 6). destruct (Z.ltb_spec k 6).
  - rewrite (Z.shiftl_spec_low _ 6 k), Z.ones_spec_low by lia.
    by rewrite !andb_false_r.
  - rewrite Z.shiftl_spec, Z.shiftr_spec, Z.ones_spec_high by lia.
    replace (k - 6 + 6) with k by lia. destruct (Z.ltb_spec k 32); simpl.
    + by rewrite andb_true_r.
    + by rewrite (testbit_high 32 bit) by lia.
Qed.

(** ** Well-formed node lists *)

Lemma wf_nodes_weaken lo lo' n : lo' <= lo → wf_nodes lo n → wf_nodes lo' n.
Proof. intros Hle. destruct n; simpl; [done|]. intros (?&?&?&?&?). split_and!; lia || done. Qed.

Lemma in_nodes_cons a n j : in_nodes (a :: n) j = in_node a j || in_nodes n j.
Proof. done. Qed.

Lemma in_nodes_below lo n j : wf_nodes lo n → j < lo → in_nodes n j = false.
Proof.
  revert lo. induction n as [|a n IH]; intros lo; [done|]. intros (H1&H2&H3&H4&H5) Hj.
  rewrite in_nodes_cons. rewrite (IH _ H5) by lia.
  unfold in_node. zcase; simpl; lia || done.
Qed.

Lemma high_of_cons d a n : high_of d (a :: n) = high_of (startbit a + 64) n.
Proof. unfold high_of. rewrite last_cons. by destruct (last n). Qed.

Lemma high_of_lo lo n : wf_nodes lo n → lo <= high_of lo n.
Proof.
  revert lo. induction n as [|a n IH]; intros lo; [done|]. intros (H1&H2&H3&H4&H5).
  rewrite high_of_cons. specialize (IH _ H5). lia.
Qed.

Lemma high_of_bound lo n : wf_nodes lo n → lo < 2 ^ 32 → high_of lo n < 2 ^ 32.
Proof.
  revert lo. induction n as [|a n IH]; intros lo; [done|]. intros (H1&H2&H3&H4&H5) Hlo.
  rewrite high_of_cons. apply IH; [done|lia].
Qed.

Lemma in_nodes_above lo n j : wf_nodes lo n → high_of lo n <= j → in_nodes n j = false.
Proof.
  revert lo. induction n as [|a n IH]; intros lo; [done|]. intros (H1&H2&H3&H4&H5).
  rewrite high_of_cons. intros Hj. rewrite in_nodes_cons.
  rewrite (IH _ H5) by done. pose proof (high_of_lo _ _ H5).
  unfold in_node. zcase; simpl; lia || done.
Qed.

(** The highest word of a non-empty list holds a bit. *)
Lemma high_of_witness lo n :
  wf_nodes lo n → n ≠ [] → ∃ j, high_of lo n - 64 <= j < high_of lo n ∧ in_nodes n j = true.
Proof.
  revert lo. induction n as [|a n IH]; intros lo; [done|]. intros (H1&H2&H3&H4&H5) _.
  rewrite high_of_cons. destruct n as [|b n].
  - destruct (nonzero_has_testbit (nmap a)) as (k&Hk&Hb); [lia|].
    assert (k < 64). { destruct (decide (k < 64)); [done|]. rewrite (testbit_high 64) in Hb by lia. done. }
    exists (startbit a + k). unfold high_of; simpl. split; [lia|].
    rewrite in_nodes_cons. unfold in_node.
    replace (startbit a + k - startbit a) with k by lia. rewrite Hb.
    zcase; simpl; lia || done.
  - destruct (IH _ H5) as (j&Hj&Hin); [done|]. exists j. split; [done|].
    by rewrite in_nodes_cons, Hin, orb_true_r.
Qed.

Lemma node_end_wf a : 0 <= startbit a → startbit a + 64 < 2 ^ 32 → node_end a = startbit a + 64.
Proof. intros. unfold node_end, MAPSIZE. apply u32_small. lia. Qed.

Lemma in_node_self a j :
  startbit a <= j < startbit a + 64 → in_node a j = Z.testbit (nmap a) (j - startbit a).
Proof. intros. unfold in_node. zcase; simpl; lia || done. Qed.

Lemma in_node_out a j : j < startbit a ∨ startbit a + 64 <= j → in_node a j = false.
Proof. intros. unfold in_node. zcase; simpl; lia || done. Qed.

(** ** [ebitmap_get_bit] *)

Lemma get_bit_nodes_in lo n j :
  0 <= lo → wf_nodes lo n → get_bit_nodes n j = in_nodes n j.
Proof.
  revert lo. induction n as [|a n IH]; intros lo Hlo; [done|]. intros (H1&H2&H3&H4&H5).
  cbn [get_bit_nodes]. rewrite in_nodes_cons, node_end_wf by lia.
  destruct (Z.leb_spec (startbit a) j).
  - destruct (Z.ltb_spec j (startbit a + 64)).
    + rewrite has_MAPBIT, in_node_self, (in_nodes_below _ _ _ H5) by lia. by rewrite orb_false_r.
    + rewrite in_node_out by lia. simpl. apply (IH (startbit a + 64)); [lia|done].
  - rewrite in_node_out, (in_nodes_below _ _ _ H5) by lia. done.
Qed.

Lemma ebitmap_get_bit_in e j : ebitmap_wf e → ebitmap_get_bit e j = in_ebitmap e j.
Proof.
  intros [Hn Hh]. unfold ebitmap_get_bit, in_ebitmap. rewrite (get_bit_nodes_in 0) by done.
  destruct (Z.ltb_spec (highbit e) j); [|done].
  by rewrite (in_nodes_above 0) by (done || lia).
Qed.

Lemma ebitmap_get_bit_high e j : ebitmap_wf e → highbit e <= j → ebitmap_get_bit e j = false.
Proof.
  intros He Hj. rewrite ebitmap_get_bit_in by done. destruct He as [Hn Hh].
  by apply (in_nodes_above 0); [|lia].
Qed.

Lemma ebitmap_get_bit_neg e j : ebitmap_wf e → j < 0 → ebitmap_get_bit e j = false.
Proof. intros He Hj. rewrite ebitmap_get_bit_in by done. by eapply in_nodes_below; [apply He|]. Qed.

Lemma ebitmap_wf_init : ebitmap_wf ebitmap_init.
Proof. done. Qed.

Lemma get_bit_init j : ebitmap_get_bit ebitmap_init j = false.
Proof. rewrite ebitmap_get_bit_in by apply ebitmap_wf_init. done. Qed.

Lemma ebitmap_length_range e : ebitmap_wf e → 0 <= ebitmap_length e < 2 ^ 32.
Proof.
  intros [Hn Hh]. unfold ebitmap_length. rewrite Hh. split; [by apply (high_of_lo 0)|].
  apply high_of_bound; [done|lia].
Qed.

(** ** Canonicity: equal sets are equal bitmaps *)

Lemma nodes_canonical lo n1 n2 :
  wf_nodes lo n1 → wf_nodes lo n2 → (∀ j, in_nodes n1 j = in_nodes n2 j) → n1 = n2.
Proof.
  revert lo n2. induction n1 as [|a n1 IH]; intros lo [|b n2] Hw1 Hw2 E.
  - done.
  - destruct (high_of_witness _ _ Hw2) as (j&_&Hj); [done|]. by rewrite <- E in Hj.
  - destruct (high_of_witness _ _ Hw1) as (j&_&Hj); [done|]. by rewrite E in Hj.
  - assert (Hne : ∀ (a b : ebitmap_node) n1 n2, wf_nodes lo (a :: n1) → wf_nodes lo (b :: n2) →
      (∀ j, in_nodes (a :: n1) j = in_nodes (b :: n2) j) → startbit b <= startbit a).
    { clear. intros a b n1 n2 (?&Ha2&?&?&?) (?&Hb2&?&?&?) E.
      destruct (decide (startbit b <= startbit a)); [done|].
      destruct (nonzero_has_testbit (nmap a)) as (k&Hk&Hb); [lia|].
      assert (k < 64). { destruct (decide (k < 64)); [done|]. rewrite (testbit_high 64) in Hb by lia. done. }
      specialize (E (startbit a + k)). rewrite !in_nodes_cons, in_node_self in E by lia.
      replace (startbit a + k - startbit a) with k in E by lia. rewrite Hb in E. simpl in E.
      assert (startbit a + 64 <= startbit b).
      { pose proof (Z.div_mod (startbit a) 64). pose proof (Z.div_mod (startbit b) 64). lia. }
      rewrite in_node_out in E by lia.
      erewrite in_nodes_below in E by (done || lia). done. }
    pose proof (Hne _ _ _ _ Hw1 Hw2 E).
    pose proof (Hne _ _ _ _ Hw2 Hw1 (λ j, eq_sym (E j))).
    destruct Hw1 as (?&?&?&?&Hw1), Hw2 as (?&?&?&?&Hw2). destruct a as [s x], b as [s' y]; simpl in *.
    assert (s' = s) as -> by lia. f_equal.
    + f_equal. apply (bits_inj_low 64); [lia..|]. intros k Hk.
      specialize (E (s + k)). rewrite !in_nodes_cons, !in_node_self in E by (simpl; lia).
      simpl in E. replace (s + k - s) with k in E by lia.
      by rewrite (in_nodes_below _ _ _ Hw1), (in_nodes_below _ _ _ Hw2), !orb_false_r in E by lia.
    + apply (IH (s + 64)); [done..|]. intros j. destruct (decide (j < s + 64)).
      * by rewrite (in_nodes_below _ _ _ Hw1), (in_nodes_below _ _ _ Hw2) by lia.
      * specialize (E j). by rewrite !in_nodes_cons, !in_node_out in E by (simpl; lia).
Qed.

Lemma ebitmap_ext e1 e2 :
  ebitmap_wf e1 → ebitmap_wf e2 →
  (∀ j, ebitmap_get_bit e1 j = ebitmap_get_bit e2 j) → e1 = e2.
Proof.
  intros Hw1 Hw2 E. setoid_rewrite ebitmap_get_bit_in in E; [|done..].
  destruct e1 as [n1 h1], e2 as [n2 h2], Hw1 as [Hn1 Hh1], Hw2 as [Hn2 Hh2]; simpl in *.
  assert (n1 = n2) as -> by (by apply (nodes_canonical 0)). by subst.
Qed.

(** ** [ebitmap_set_bit] *)

(** A fresh word for [bit] in front of a list that starts after it. *)
Lemma new_word_spec lo n bit :
  wf_nodes lo n → 0 <= lo <= bit - bit mod 64 → bit - bit mod 64 + 64 < 2 ^ 32 →
  match n with [] => True | a :: _ => bit < startbit a end →
  let new := EN (bit - bit mod 64) (MAPBIT_shl (bit - (bit - bit mod 64))) in
  wf_nodes lo (new :: n) ∧
  ∀ j, in_nodes (new :: n) j = if j =? bit then true else in_nodes n j.
Proof.
  intros Hw Hs Hend Hhd new.
  assert (Hk : 0 <= bit - (bit - bit mod 64) < 64) by zmod.
  assert (Hw' : wf_nodes (bit - bit mod 64 + 64) n).
  { destruct n as [|a n]; [done|]. destruct Hw as (?&?&?&?&?). split_and!; done || zmod. }
  split.
  - simpl. pose proof (MAPBIT_shl_range _ Hk). split_and!; done || lia || zmod.
  - intros j. rewrite in_nodes_cons. unfold in_node; simpl. rewrite MAPBIT_shl_small by done.
    destruct (Z.eqb_spec j bit) as [->|].
    + rewrite testbit_one_shl, Z.eqb_refl by lia. zcase; simpl; lia || done.
    + destruct (decide (0 <= j - (bit - bit mod 64))).
      * rewrite testbit_one_shl by lia. zcase; rewrite ?andb_false_r; simpl; lia || done.
      * zcase; simpl; lia || done.
Qed.

(** Changing the word that holds [bit]. *)
Lemma update_word_spec lo a n bit x (v : bool) :
  wf_nodes lo (a :: n) → startbit a <= bit < startbit a + 64 → 0 <= x < 2 ^ 64 →
  (∀ k, 0 <= k → Z.testbit x k = if k =? bit - startbit a then v else Z.testbit (nmap a) k) →
  (x = 0 → ∀ j, in_nodes n j = if j =? bit then v else in_nodes (a :: n) j) ∧
  (x ≠ 0 → wf_nodes lo (EN (startbit a) x :: n) ∧
    ∀ j, in_nodes (EN (startbit a) x :: n) j = if j =? bit then v else in_nodes (a :: n) j).
Proof.
  intros (H1&H2&H3&H4&H5) Hb Hx Hbits.
  assert (Hin : ∀ j, in_node (EN (startbit a) x) j || in_nodes n j
                     = if j =? bit then v else in_nodes (a :: n) j).
  { intros j. rewrite in_nodes_cons. destruct (decide (startbit a <= j < startbit a + 64)).
    - rewrite !in_node_self by (simpl; lia). simpl. rewrite Hbits by lia.
      rewrite (in_nodes_below _ _ _ H5) by lia. rewrite !orb_false_r. zcase; lia || done.
    - rewrite !in_node_out by (simpl; lia). zcase; lia || done. }
  split; intros Hx0.
  - intros j. rewrite <- Hin. subst x. destruct (decide (startbit a <= j < startbit a + 64)).
    + rewrite in_node_self by (simpl; lia). simpl. by rewrite Z.bits_0.
    + rewrite in_node_out by (simpl; lia). done.
  - split; [|done]. simpl. split_and!; done || lia.
Qed.

(** What one step of [ebitmap_set_bit] leaves behind: [d] stands for the end
    of the words before [n], [hb] for the bitmap's [highbit]. *)
Definition set_bit_post (lo d : Z) (n : list ebitmap_node) (bit : Z) (v : bool) (hb : Z)
    (m : mem) (r : Z * list ebitmap_node * Z * mem) : Prop :=
  let '(rc, n', hb', m') := r in
  (plenty m → plenty m' ∧ rc = 0) ∧
  ((rc = 0 ∧ wf_nodes lo n' ∧ hb' = high_of d n' ∧
    ∀ j, in_nodes n' j = if j =? bit then v else in_nodes n j) ∨
   (rc = - ENOMEM ∧ n' = n ∧ hb' = hb ∧ v = true)).

Lemma set_bit_new_spec lo d n bit v hb m :
  wf_nodes lo n → 0 <= lo <= bit - bit mod 64 → bit - bit mod 64 + 64 < 2 ^ 32 →
  match n with [] => True | a :: _ => bit < startbit a end →
  hb = high_of d n → set_bit_post lo d n bit v hb m (set_bit_new n bit v hb m).
Proof.
  intros Hw Hs Hend Hhd Hhb. unfold set_bit_new, set_bit_post.
  rewrite word_start by zmod. destruct v; simpl.
  - destruct (malloc m) as [ok m'] eqn:Hm. pose proof (malloc_plenty m) as Hp. rewrite Hm in Hp.
    destruct ok; simpl; [|split; [intros P; destruct (Hp P) as (?&[=]&?)|by right]].
    split; [intros P; destruct (Hp P) as (?&[=<-]&?); done|]. left.
    destruct (new_word_spec lo n bit) as [Hw' Hin]; [done..|].
    split; [done|]. split; [exact Hw'|]. split; [|exact Hin].
    rewrite high_of_cons. destruct n; [unfold MAPSIZE; rewrite u32_small by lia; done|].
    subst hb. by rewrite !high_of_cons.
  - split; [done|]. left. do 3 (split; [done|]). intros j.
    destruct (Z.eqb_spec j bit) as [->|]; [|done].
    destruct n as [|a n]; [done|]. apply (in_nodes_below (startbit a)); [|done].
    destruct Hw as (?&?&?&?&?). split_and!; done || lia.
Qed.

Lemma set_bit_word_spec lo prev d a n bit v hb m :
  wf_nodes lo (a :: n) → 0 <= lo → startbit a <= bit < startbit a + 64 →
  hb = high_of d (a :: n) → d = match prev with Some p => node_end p | None => 0 end →
  set_bit_post lo d (a :: n) bit v hb m (set_bit_word prev a n bit v hb m).
Proof.
  intros Hw Hlo Hb Hhb Hd. pose proof Hw as (H1&H2&H3&H4&H5).
  rewrite high_of_cons in Hhb. unfold set_bit_word, set_bit_post. destruct v.
  - split; [done|]. left.
    destruct (update_word_spec lo a n bit (Z.lor (nmap a) (MAPBIT_shl (bit - startbit a))) true)
      as [_ Hu]; [done|lia| | |].
    + apply lor_range; [lia..|]. pose proof (MAPBIT_shl_range (bit - startbit a)). lia.
    + intros k Hk. rewrite testbit_set_MAPBIT by lia.
      zcase; rewrite ?orb_true_r, ?orb_false_r; done || lia.
    + destruct Hu as [Hw' Hin]; [intros [Hz _]%Z.lor_eq_0_iff; lia|].
      split; [done|]. split; [exact Hw'|]. split; [|exact Hin]. by rewrite high_of_cons.
  - destruct (update_word_spec lo a n bit
      (Z.land (nmap a) (not64 (MAPBIT_shl (bit - startbit a)))) false) as [Hz Hnz]; [done|lia| | |].
    + apply land_range. lia.
    + intros k Hk. rewrite testbit_clear_MAPBIT by lia.
      zcase; rewrite ?andb_true_r, ?andb_false_r; done || lia.
    + destruct (Z.eqb_spec (Z.land (nmap a) (not64 (MAPBIT_shl (bit - startbit a)))) 0) as [E|E].
      * split; [done|]. left. split; [done|]. split; [|split; [|by apply Hz]].
        -- apply (wf_nodes_weaken (startbit a + 64)); [lia|done].
        -- destruct n as [|b n]; [by subst d|]. subst hb. by rewrite !high_of_cons.
      * destruct (Hnz E) as [Hw' Hin]. split; [done|]. left.
        split; [done|]. split; [exact Hw'|]. split; [|exact Hin]. by rewrite high_of_cons.
Qed.

Lemma set_bit_nodes_spec prev d n bit v hb m lo :
  wf_nodes lo n → 0 <= lo <= bit - bit mod 64 → bit - bit mod 64 + 64 < 2 ^ 32 →
  d = match prev with Some p => node_end p | None => 0 end → hb = high_of d n →
  set_bit_post lo d n bit v hb m (set_bit_nodes prev n bit v hb m).
Proof.
  intros Hw Hs Hend Hd Hhb. revert prev lo d Hw Hs Hd Hhb.
  induction n as [|a n IH]; intros prev lo d Hw Hs Hd Hhb; cbn [set_bit_nodes].
  { by apply set_bit_new_spec. }
  pose proof Hw as (H1&H2&H3&H4&H5). rewrite node_end_wf by lia.
  destruct (Z.leb_spec (startbit a) bit) as [Ha|Ha]; [|by apply set_bit_new_spec].
  destruct (Z.ltb_spec bit (startbit a + 64)) as [Hb|Hb]; [apply set_bit_word_spec; done || lia|].
  specialize (IH (Some a) (startbit a + 64) (node_end a) H5 ltac:(zmod) eq_refl).
  rewrite node_end_wf in IH by lia. rewrite high_of_cons in Hhb. specialize (IH Hhb).
  destruct (set_bit_nodes (Some a) n bit v hb m) as [[[rc n'] hb'] m'].
  destruct IH as [Hp [(->&Hw'&Hh'&Hin)|(->&->&->&->)]]; (split; [done|]); [left|by right].
  split; [done|]. split; [exact (conj H1 (conj H2 (conj H3 (conj H4 Hw'))))|]. split.
  - by rewrite high_of_cons.
  - intros j. rewrite !in_nodes_cons, Hin.
    destruct (Z.eqb_spec j bit) as [->|]; [|done]. by rewrite in_node_out by lia.
Qed.

(** The last 64 positions of the 32-bit range cannot be represented. *)
Definition bit_ok (bit : Z) : Prop := 0 <= bit < 2 ^ 32 - 64.

Lemma ebitmap_set_bit_correct e bit v m :
  ebitmap_wf e → 0 <= bit < 2 ^ 32 →
  let '(rc, e', m') := ebitmap_set_bit e bit v m in
  (plenty m → plenty m' ∧ (bit_ok bit → rc = 0)) ∧
  ((rc = 0 ∧ bit_ok bit ∧ ebitmap_wf e' ∧
    ∀ j, ebitmap_get_bit e' j = if j =? bit then v else ebitmap_get_bit e j) ∨
   (rc = - EINVAL ∧ e' = e ∧ ¬ bit_ok bit) ∨
   (rc = - ENOMEM ∧ e' = e ∧ v = true)).
Proof.
  intros He Hb. unfold ebitmap_set_bit, bit_ok. rewrite word_start by done. unfold MAPSIZE.
  destruct (Z.eqb_spec (u32 (bit - bit mod 64 + 64)) 0) as [E|E].
  { assert (2 ^ 32 - 64 <= bit) by (unfold u32 in E; zmod).
    split; [intros; split; [done|lia]|]. right. left. split_and!; [done..|lia]. }
  assert (bit - bit mod 64 + 64 < 2 ^ 32).
  { destruct (decide (bit - bit mod 64 + 64 < 2 ^ 32)); [done|]. exfalso. apply E.
    assert (bit - bit mod 64 + 64 = 2 ^ 32) as -> by zmod. done. }
  pose proof He as [Hn Hh].
  pose proof (set_bit_nodes_spec None 0 (node e) bit v (highbit e) m 0 Hn ltac:(zmod) ltac:(done) eq_refl Hh) as Hs.
  destruct (set_bit_nodes None (node e) bit v (highbit e) m) as [[[rc n'] hb'] m'].
  destruct Hs as [Hp [(->&Hw'&Hh'&Hin)|(->&->&->&->)]].
  - split; [intros P; split; [by apply Hp|done]|]. left.
    assert (ebitmap_wf (EB n' hb')) by done. split_and!; [done|zmod|zmod|done|].
    intros j. rewrite !ebitmap_get_bit_in by done. apply Hin.
  - split; [intros P; split; [by apply Hp|intros; by apply Hp]|]. right. right.
    destruct e. done.
Qed.

(** ** Set operations *)

(** [set_result m f r]: the operation, started with allocation tape [m],
    returned 0 and the bitmap of the set [f], or ran out of memory. *)
Definition set_result (m : mem) (f : Z → bool) (r : Z * ebitmap * mem) : Prop :=
  let '(rc, d, m') := r in
  (plenty m → plenty m' ∧ rc = 0) ∧
  ((rc = 0 ∧ ebitmap_wf d ∧ ∀ j, ebitmap_get_bit d j = f j) ∨ rc = - ENOMEM).

Lemma set_result_plenty m f r :
  set_result m f r → plenty m →
  ∃ d m', r = (0, d, m') ∧ plenty m' ∧ ebitmap_wf d ∧ ∀ j, ebitmap_get_bit d j = f j.
Proof.
  destruct r as [[rc d] m']. intros [Hp [(->&Hw&Hg)| ->]] P; destruct (Hp P) as [P' E]; [|done].
  by exists d, m'.
Qed.

Lemma set_result_ext m f g r : (∀ j, f j = g j) → set_result m f r → set_result m g r.
Proof.
  intros E. destruct r as [[rc d] m']. intros [Hp [(->&Hw&Hg)| ->]]; split; [done| |done|by right].
  left. split_and!; [done|done|]. intros j. by rewrite Hg, E.
Qed.

(** One iteration of a loop that sets bit [i] to [f i]: the invariant at [i] is
    that the bits below [i] are those of [f]. *)
Definition build_inv (m : mem) (f : Z → bool) (i : Z) (s : ebitmap * mem) : Prop :=
  (plenty m → plenty s.2) ∧ ebitmap_wf s.1 ∧
  ∀ j, ebitmap_get_bit s.1 j = (0 <=? j) && (j <? i) && f j.

Lemma build_step f g i m s :
  0 <= i < 2 ^ 32 - 64 → build_inv m f i s →
  match set_or_fail i (f i) s with
  | inl r => set_result m g r
  | inr s' => build_inv m f (i + 1) s'
  end.
Proof.
  destruct s as [d m1]. intros Hi (Hp&Hw&Hg). simpl in *.
  pose proof (ebitmap_set_bit_correct d i (f i) m1 Hw ltac:(lia)) as Hs.
  destruct (ebitmap_set_bit d i (f i) m1) as [[rc d'] m'].
  destruct Hs as [Hp' [(->&_&Hw'&Hg')|[(->&_&Hno)|(->&_&_)]]]; simpl.
  - split_and!; [intros P; by apply Hp', Hp|done|]. intros j. simpl. rewrite Hg', Hg.
    destruct (Z.eqb_spec j i) as [->|]; zcase; simpl; done || lia.
  - by destruct Hno.
  - split; [|by right]. intros P. destruct (Hp' (Hp P)) as [_ E]. exfalso.
    by specialize (E Hi).
Qed.

Lemma build_skip f i m s : f i = false → build_inv m f i s → build_inv m f (i + 1) s.
Proof.
  intros Hf (Hp&Hw&Hg). split_and!; [done..|]. intros j. rewrite Hg.
  destruct (decide (j = i)) as [->|]; [rewrite Hf, !andb_false_r; done|].
  zcase; simpl; done || lia.
Qed.

(** A loop that sets bit [i] to [f i], for [0 <= i < hi], skipping some of the
    positions where [f i] is false. *)
Lemma build_loop f hi m body :
  0 <= hi <= 2 ^ 32 - 64 →
  (∀ i s, 0 <= i < hi → body i s = set_or_fail i (f i) s ∨ (f i = false ∧ body i s = inr s)) →
  set_result m (λ j, (0 <=? j) && (j <? hi) && f j)
    (finish (for_range 0 hi body (ebitmap_init, m))).
Proof.
  intros Hhi Hbody.
  pose proof (for_range_inv (build_inv m f) (set_result m (λ j, (0 <=? j) && (j <? hi) && f j))
    0 hi body (ebitmap_init, m) ltac:(lia)) as HL.
  unfold finish. destruct (for_range 0 hi body (ebitmap_init, m)) as [r|[d m']].
  2: destruct HL as (Hp&Hw&Hg); [..|split; [intros P; split; [by apply Hp|done]|by left]].
  1: apply HL.
  1, 3: split_and!; [done..|]; intros j; cbn [fst]; rewrite get_bit_init; zcase; simpl; done || lia.
  all: intros i s Hi HI; destruct (Hbody i s Hi) as [->|[Hf ->]];
    [apply build_step; done || lia|by apply build_skip].
Qed.

Lemma high_of_aligned lo n : lo mod 64 = 0 → wf_nodes lo n → high_of lo n mod 64 = 0.
Proof.
  revert lo. induction n as [|a n IH]; intros lo Hlo; [done|]. intros (H1&H2&H3&H4&H5).
  rewrite high_of_cons. apply IH; [|done]. zmod.
Qed.

Lemma ebitmap_length_bound e : ebitmap_wf e → 0 <= ebitmap_length e <= 2 ^ 32 - 64.
Proof.
  intros He. pose proof (ebitmap_length_range e He). destruct He as [Hn Hh].
  pose proof (high_of_aligned 0 _ eq_refl Hn). unfold ebitmap_length in *. rewrite Hh in *. zmod.
Qed.

(** A bit that is set lies below [highbit]. *)
Lemma get_bit_range e j :
  ebitmap_wf e → ebitmap_get_bit e j = true → 0 <= j < ebitmap_length e.
Proof.
  intros He Hj. destruct (decide (j < 0)).
  { rewrite ebitmap_get_bit_neg in Hj by done. done. }
  destruct (decide (ebitmap_length e <= j)); [|lia].
  rewrite ebitmap_get_bit_high in Hj by done. done.
Qed.

Lemma in_range_get_bit e hi j :
  ebitmap_wf e → ebitmap_length e <= hi →
  (0 <=? j) && (j <? hi) && ebitmap_get_bit e j = ebitmap_get_bit e j.
Proof.
  intros He Hhi. destruct (ebitmap_get_bit e j) eqn:E; [|by rewrite andb_false_r].
  apply get_bit_range in E; [|done]. zcase; simpl; done || lia.
Qed.

Lemma ebitmap_and_correct e1 e2 m :
  ebitmap_wf e1 → ebitmap_wf e2 →
  set_result m (λ j, ebitmap_get_bit e1 j && ebitmap_get_bit e2 j) (ebitmap_and e1 e2 m).
Proof.
  intros H1 H2. pose proof (ebitmap_length_bound e1 H1). pose proof (ebitmap_length_bound e2 H2).
  eapply set_result_ext; [|apply (build_loop (λ j, ebitmap_get_bit e1 j && ebitmap_get_bit e2 j));
    [lia|]].
  - intros j. simpl. rewrite <- (in_range_get_bit e1 (ebitmap_length e1) j) at 2 by done || lia.
    rewrite <- (in_range_get_bit e2 (ebitmap_length e2) j) at 2 by done || lia.
    destruct (ebitmap_get_bit e1 j), (ebitmap_get_bit e2 j);
      rewrite ?andb_true_r, ?andb_false_r; zcase; simpl; done || lia.
  - intros i s Hi. simpl. destruct (ebitmap_get_bit e1 i && ebitmap_get_bit e2 i) eqn:E; [|by right].
    by left.
Qed.

Lemma ebitmap_xor_correct e1 e2 m :
  ebitmap_wf e1 → ebitmap_wf e2 →
  set_result m (λ j, xorb (ebitmap_get_bit e1 j) (ebitmap_get_bit e2 j)) (ebitmap_xor e1 e2 m).
Proof.
  intros H1 H2. pose proof (ebitmap_length_bound e1 H1). pose proof (ebitmap_length_bound e2 H2).
  eapply set_result_ext; [|apply (build_loop (λ j, xorb (ebitmap_get_bit e1 j) (ebitmap_get_bit e2 j)));
    [lia|by left]].
  intros j. simpl.
  rewrite <- (in_range_get_bit e1 (Z.max (ebitmap_length e1) (ebitmap_length e2)) j) at 2 by done || lia.
  rewrite <- (in_range_get_bit e2 (Z.max (ebitmap_length e1) (ebitmap_length e2)) j) at 2 by done || lia.
  by destruct ((0 <=? j) && _), (ebitmap_get_bit e1 j), (ebitmap_get_bit e2 j).
Qed.

Lemma ebitmap_not_correct e1 maxbit m :
  ebitmap_wf e1 → 0 <= maxbit <= 2 ^ 32 - 64 →
  set_result m (λ j, (0 <=? j) && (j <? maxbit) && negb (ebitmap_get_bit e1 j))
    (ebitmap_not e1 maxbit m).
Proof. intros H1 Hmax. apply (build_loop (λ j, negb (ebitmap_get_bit e1 j))); [lia|by left]. Qed.

Lemma ebitmap_andnot_correct e1 e2 maxbit m :
  ebitmap_wf e1 → ebitmap_wf e2 → 0 <= maxbit <= 2 ^ 32 - 64 →
  set_result m (λ j, ebitmap_get_bit e1 j && ((j <? maxbit) && negb (ebitmap_get_bit e2 j)))
    (ebitmap_andnot e1 e2 maxbit m).
Proof.
  intros H1 H2 Hmax. unfold ebitmap_andnot.
  pose proof (ebitmap_not_correct e2 maxbit m H2 Hmax) as Hn.
  destruct (ebitmap_not e2 maxbit m) as [[rc e3] m1]. destruct Hn as [Hp [(->&Hw&Hg)| ->]].
  2: { split; [intros P; by destruct (Hp P)|by right]. }
  pose proof (ebitmap_and_correct e1 e3 m1 H1 Hw) as Ha. simpl.
  destruct (ebitmap_and e1 e3 m1) as [[rc d] m2]. destruct Ha as [Hp2 [(->&Hw2&Hg2)| ->]]; simpl.
  - split; [intros P; apply Hp2, Hp, P|]. left. split_and!; [done..|]. intros j.
    rewrite Hg2, Hg. destruct (ebitmap_get_bit e1 j) eqn:E; [|done].
    apply get_bit_range in E; [|done]. zcase; simpl; done || lia.
  - split; [|by right]. intros P. apply Hp2, Hp, P.
Qed.

(** *** [ebitmap_or] *)

(** [nodes_result lo m f h r]: the copying loop built the word list of [f], with
    end [h], or ran out of memory. *)
Definition nodes_result (lo : Z) (m : mem) (f : Z → bool) (h : Z)
    (r : option (list ebitmap_node) * mem) : Prop :=
  (plenty m → plenty r.2 ∧ is_Some r.1) ∧
  match r.1 with
  | Some n => wf_nodes lo n ∧ high_of lo n = h ∧ ∀ j, in_nodes n j = f j
  | None => True
  end.

(** One iteration: allocate a word, then build the rest. *)
Lemma nodes_result_cons lo a m f g h (rest : mem → option (list ebitmap_node) * mem) :
  lo <= startbit a → startbit a mod 64 = 0 → startbit a + 64 < 2 ^ 32 → 0 < nmap a < 2 ^ 64 →
  (∀ m, nodes_result (startbit a + 64) m g h (rest m)) →
  (∀ j, f j = in_node a j || g j) →
  nodes_result lo m f h
    (let '(ok, m) := malloc m in
     if negb ok then (None, m) else let '(r, m) := rest m in (cons a <$> r, m)).
Proof.
  intros H1 H2 H3 H4 Hrest Hf. pose proof (malloc_plenty m) as Hp.
  destruct (malloc m) as [ok m1]. destruct ok; cbn [negb].
  2: { split; [|done]. intros P. by destruct (Hp P) as (?&[=]&?). }
  destruct (Hrest m1) as [Hp2 Hr]. destruct (rest m1) as [[n|] m2]; simpl in *.
  - split.
    + intros P. destruct (Hp P) as (?&[=<-]&P1). split; [by apply Hp2|done].
    + destruct Hr as (Hw&Hh&Hin). split; [exact (conj H1 (conj H2 (conj H3 (conj H4 Hw))))|].
      split; [by rewrite high_of_cons|]. intros j. by rewrite in_nodes_cons, Hin, Hf.
  - split; [|done]. intros P. destruct (Hp P) as (?&[=<-]&P1).
    destruct (Hp2 P1) as [_ [? [=]]].
Qed.

Lemma in_node_lor s x y j :
  in_node (EN s (Z.lor x y)) j = in_node (EN s x) j || in_node (EN s y) j.
Proof. unfold in_node; simpl. rewrite Z.lor_spec. by destruct ((s <=? j) && (j <? s + 64)). Qed.

Lemma or_nodes_spec n1 n2 lo m :
  lo mod 64 = 0 → wf_nodes lo n1 → wf_nodes lo n2 →
  nodes_result lo m (λ j, in_nodes n1 j || in_nodes n2 j) (Z.max (high_of lo n1) (high_of lo n2))
    (or_nodes n1 n2 m).
Proof.
  revert n2 lo m. induction n1 as [|a n1 IH1].
  - induction n2 as [|b n2 IH2]; intros lo m Hlo Hw1 Hw2.
    { split; [done|]. simpl. split_and!; [done|unfold high_of; simpl; lia|done]. }
    destruct Hw2 as (B1&B2&B3&B4&B5). destruct b as [sb mb]; simpl in *.
    apply (nodes_result_cons lo (EN sb mb) m _ (λ j, in_nodes [] j || in_nodes n2 j)); try done.
    intros m'. rewrite high_of_cons. simpl startbit.
    replace (Z.max (high_of lo []) _) with (Z.max (high_of (sb + 64) []) (high_of (sb + 64) n2)).
    2: { pose proof (high_of_lo _ _ B5). unfold high_of at 1 3; simpl. lia. }
    apply IH2; [zmod|done|done].
  - induction n2 as [|b n2 IH2]; intros lo m Hlo Hw1 Hw2.
    + destruct Hw1 as (A1&A2&A3&A4&A5). destruct a as [sa ma]; simpl in *.
      apply (nodes_result_cons lo (EN sa ma) m _ (λ j, in_nodes n1 j || in_nodes [] j)); try done.
      * intros m'. rewrite high_of_cons. simpl startbit.
        replace (Z.max _ (high_of lo [])) with (Z.max (high_of (sa + 64) n1) (high_of (sa + 64) [])).
        2: { pose proof (high_of_lo _ _ A5). unfold high_of at 2 4; simpl. lia. }
        apply IH1; [zmod|done|done].
      * intros j. by rewrite in_nodes_cons, orb_assoc.
    + pose proof Hw1 as (A1&A2&A3&A4&A5). pose proof Hw2 as (B1&B2&B3&B4&B5).
      destruct a as [sa ma], b as [sb mb]; cbn [startbit nmap] in *. rewrite !high_of_cons; cbn [startbit].
      cbn [or_nodes startbit nmap]. destruct (Z.eqb_spec sa sb) as [->|Hne].
      { apply (nodes_result_cons lo (EN sb (Z.lor ma mb)) m _ (λ j, in_nodes n1 j || in_nodes n2 j));
          cbn [startbit nmap]; [done|done|done| | |].
        - assert (Z.lor ma mb ≠ 0) by (intros [? _]%Z.lor_eq_0_iff; lia).
          pose proof (lor_range 64 ma mb). lia.
        - intros m'. apply IH1; [zmod|done|done].
        - intros j. rewrite !in_nodes_cons, in_node_lor.
          destruct (in_node (EN sb ma) j), (in_node (EN sb mb) j), (in_nodes n1 j); done. }
      destruct (Z.ltb_spec sa sb).
      * apply (nodes_result_cons lo (EN sa ma) m _ (λ j, in_nodes n1 j || in_nodes (EN sb mb :: n2) j));
          cbn [startbit nmap]; [done|done|done|done| |].
        -- intros m'. replace (high_of (sb + 64) n2) with (high_of (sa + 64) (EN sb mb :: n2))
             by (by rewrite high_of_cons).
           apply IH1; [zmod|done|]. cbn [wf_nodes startbit nmap]. split; [zmod|done].
        -- intros j. by rewrite !in_nodes_cons, <- orb_assoc.
      * apply (nodes_result_cons lo (EN sb mb) m _ (λ j, in_nodes (EN sa ma :: n1) j || in_nodes n2 j));
          cbn [startbit nmap]; [done|done|done|done| |].
        -- intros m'. replace (high_of (sa + 64) n1) with (high_of (sb + 64) (EN sa ma :: n1))
             by (by rewrite high_of_cons).
           apply (IH2 (sb + 64) m'); [zmod| |done]. cbn [wf_nodes startbit nmap]. split; [zmod|done].
        -- intros j. rewrite !in_nodes_cons.
           destruct (in_node (EN sb mb) j), (in_node (EN sa ma) j), (in_nodes n1 j); done.
Qed.

Lemma high_of_or n1 n2 :
  wf_nodes 0 n1 → wf_nodes 0 n2 →
  (if high_of 0 n2 <? high_of 0 n1 then high_of 0 n1 else high_of 0 n2) = Z.max (high_of 0 n1) (high_of 0 n2).
Proof. intros. zcase; lia. Qed.

Lemma ebitmap_or_correct e1 e2 m :
  ebitmap_wf e1 → ebitmap_wf e2 →
  set_result m (λ j, ebitmap_get_bit e1 j || ebitmap_get_bit e2 j) (ebitmap_or e1 e2 m).
Proof.
  intros H1 H2. pose proof H1 as [Hn1 Hh1]. pose proof H2 as [Hn2 Hh2]. unfold ebitmap_or.
  destruct (or_nodes_spec (node e1) (node e2) 0 m eq_refl Hn1 Hn2) as [Hp Hr].
  destruct (or_nodes (node e1) (node e2) m) as [[n|] m']; simpl in *.
  - destruct Hr as (Hw&Hh&Hin). split; [intros P; by apply Hp in P as [? _]|]. left.
    assert (He : ebitmap_wf (EB n (if highbit e2 <? highbit e1 then highbit e1 else highbit e2))).
    { split; [done|]. simpl. rewrite Hh1, Hh2, high_of_or by done. done. }
    split; [done|]. split; [exact He|]. intros j. rewrite !ebitmap_get_bit_in by done.
    unfold in_ebitmap. cbn [node]. apply Hin.
  - split; [intros P; by apply Hp in P as [_ [? [=]]]|by right].
Qed.

Lemma ebitmap_union_correct dst e1 m :
  ebitmap_wf dst → ebitmap_wf e1 →
  let '(rc, dst', m') := ebitmap_union dst e1 m in
  (plenty m → plenty m' ∧ rc = 0) ∧
  ((rc = 0 ∧ ebitmap_wf dst' ∧
    ∀ j, ebitmap_get_bit dst' j = ebitmap_get_bit dst j || ebitmap_get_bit e1 j) ∨
   (rc = -1 ∧ dst' = dst)).
Proof.
  intros H1 H2. unfold ebitmap_union. pose proof (ebitmap_or_correct dst e1 m H1 H2) as Ho.
  destruct (ebitmap_or dst e1 m) as [[rc d] m']. destruct Ho as [Hp [(->&Hw&Hg)| ->]]; simpl.
  - split; [done|]. left. destruct d. done.
  - split; [intros P; by apply Hp in P as [_ ?]|by right].
Qed.

(** *** [ebitmap_cpy] *)

Lemma cpy_nodes_spec n m :
  (plenty m → plenty (cpy_nodes n m).2 ∧ (cpy_nodes n m).1 = Some n) ∧
  ((cpy_nodes n m).1 = Some n ∨ (cpy_nodes n m).1 = None).
Proof.
  revert m. induction n as [|[s x] n IH]; intros m; simpl; [by split; [|left]|].
  pose proof (malloc_plenty m) as Hp. destruct (malloc m) as [ok m1]. destruct ok; simpl.
  - destruct (IH m1) as [IHp IHr]. destruct (cpy_nodes n m1) as [r m2]; simpl in *. split.
    + intros P. destruct (Hp P) as (?&[=<-]&P1). destruct (IHp P1) as [? ->]. done.
    + destruct IHr as [-> | ->]; [by left|by right].
  - split; [intros P; by destruct (Hp P) as (?&[=]&?)|by right].
Qed.

(** The copy is the bitmap itself, word for word. *)
Lemma ebitmap_cpy_correct src m :
  (plenty m → plenty (ebitmap_cpy src m).2) ∧
  ((ebitmap_cpy src m).1 = (0, src) ∨ (¬ plenty m ∧ (ebitmap_cpy src m).1 = (- ENOMEM, ebitmap_init))).
Proof.
  unfold ebitmap_cpy. pose proof (cpy_nodes_spec (node src) m) as [Hp Hr].
  destruct (cpy_nodes (node src) m) as [r m']; simpl in *.
  destruct Hr as [-> | ->]; simpl; (split; [intros P; by apply Hp|]).
  - left. by destruct src.
  - right. split; [|done]. intros P. by apply Hp in P as [_ ?].
Qed.

(** ** Comparisons *)

Lemma cmp_nodes_eq n1 n2 : cmp_nodes n1 n2 = true ↔ n1 = n2.
Proof.
  revert n2. induction n1 as [|[s x] n1 IH]; intros [|[s' y] n2]; simpl; [done..|].
  destruct (Z.eqb_spec s s'), (Z.eqb_spec x y); simpl; try (split; [done|intros [=]; congruence]).
  rewrite IH. split; [by intros ->; subst|by intros [=]].
Qed.

Lemma ebitmap_cmp_eq e1 e2 : ebitmap_cmp e1 e2 = true ↔ e1 = e2.
Proof.
  unfold ebitmap_cmp. destruct e1 as [n1 h1], e2 as [n2 h2]; simpl.
  destruct (Z.eqb_spec h1 h2); simpl; [|split; [done|by intros [=]]].
  rewrite cmp_nodes_eq. split; [by intros ->; subst|by intros [=]].
Qed.

#[export] Instance ebitmap_node_eq_dec : EqDecision ebitmap_node.
Proof. solve_decision. Defined.
#[export] Instance ebitmap_eq_dec : EqDecision ebitmap.
Proof. solve_decision. Defined.

(** A word is disjoint from lists that start after it. *)
Lemma in_node_disjoint a n j lo :
  wf_nodes lo n → startbit a + 64 <= lo → in_node a j = true → in_nodes n j = false.
Proof.
  intros Hw Hle Hj. eapply in_nodes_below; [done|]. unfold in_node in Hj. zcase_in Hj; simpl in Hj; lia || done.
Qed.

(** The witness bit of a word. *)
Lemma in_node_witness a : 0 < nmap a < 2 ^ 64 → ∃ k, 0 <= k < 64 ∧ in_node a (startbit a + k) = true.
Proof.
  intros Hm. destruct (nonzero_has_testbit (nmap a)) as (k&Hk&Hb); [lia|].
  assert (k < 64). { destruct (decide (k < 64)); [done|]. rewrite (testbit_high 64) in Hb by lia. done. }
  exists k. split; [lia|]. rewrite in_node_self by lia.
  by replace (startbit a + k - startbit a) with k by lia.
Qed.

Lemma land_eq_subset a b :
  0 <= a < 2 ^ 64 → 0 <= b < 2 ^ 64 →
  Z.land a b = b ↔ ∀ k, 0 <= k < 64 → Z.testbit b k = true → Z.testbit a k = true.
Proof.
  intros Ha Hb. split.
  - intros E k Hk Hbk. rewrite <- E, Z.land_spec in Hbk. by apply andb_true_iff in Hbk as [? _].
  - intros H. apply (bits_inj_low 64); [lia|by apply land_range|done|]. intros k Hk.
    rewrite Z.land_spec. specialize (H k Hk). destruct (Z.testbit b k); [by rewrite H|by rewrite andb_false_r].
Qed.

Lemma contains_nodes_spec lo n1 n2 :
  wf_nodes lo n1 → wf_nodes lo n2 →
  contains_nodes n1 n2 = true ↔ ∀ j, in_nodes n2 j = true → in_nodes n1 j = true.
Proof.
  revert lo n2. induction n1 as [|a n1 IH]; intros lo [|b n2] Hw1 Hw2; [done| | done|].
  { split; [done|]. intros H. destruct (high_of_witness _ _ Hw2) as (j&_&Hj); [done|].
    apply H in Hj. done. }
  pose proof Hw1 as (A1&A2&A3&A4&A5). pose proof Hw2 as (B1&B2&B3&B4&B5). cbn [contains_nodes].
  destruct (Z.leb_spec (startbit a) (startbit b)) as [Hle|Hgt].
  - destruct (Z.ltb_spec (startbit a) (startbit b)) as [Hlt|Hge].
    + assert (Hw2' : wf_nodes (startbit a + 64) (b :: n2)) by (split; [zmod|done]).
      rewrite (IH _ _ A5 Hw2'). split; intros H j Hj.
      * rewrite in_nodes_cons, H, orb_true_r by done. done.
      * specialize (H j Hj). rewrite in_nodes_cons in H. destruct (in_node a j) eqn:E; [|done].
        by rewrite (in_node_disjoint a (b :: n2) j _ Hw2') in Hj.
    + assert (E : startbit a = startbit b) by lia.
      destruct (Z.eqb_spec (Z.land (nmap a) (nmap b)) (nmap b)) as [Hm|Hm]; cbn [negb].
      * rewrite land_eq_subset in Hm by lia. rewrite E in A5. rewrite (IH _ _ A5 B5).
        split; intros H j; rewrite ?in_nodes_cons.
        -- unfold in_node. rewrite E.
           destruct (Z.leb_spec (startbit b) j), (Z.ltb_spec j (startbit b + 64)); simpl; try apply H.
           intros [Hj|Hj]%orb_true_iff; [rewrite Hm; done || lia|].
           by rewrite (H _ Hj), orb_true_r.
        -- intros Hj. specialize (H j). rewrite !in_nodes_cons, Hj, orb_true_r in H.
           specialize (H eq_refl). destruct (in_node a j) eqn:Ea; [|done].
           by rewrite (in_node_disjoint a n2 j _ B5) in Hj by (done || lia).
      * split; [done|]. intros H. destruct Hm. apply land_eq_subset; [lia..|]. intros k Hk Hb.
        specialize (H (startbit b + k)). rewrite !in_nodes_cons, !in_node_self in H by lia.
        rewrite E in H. replace (startbit b + k - startbit b) with k in H by lia.
        rewrite Hb in H. specialize (H eq_refl). rewrite E in A5.
        by rewrite (in_nodes_below _ _ _ A5), orb_false_r in H by lia.
  - split; [done|]. intros H. destruct (in_node_witness b B4) as (k&Hk&Hb).
    specialize (H (startbit b + k)). rewrite (in_nodes_cons b), Hb in H. specialize (H eq_refl).
    assert (Hlow : wf_nodes (startbit a) (a :: n1)) by (split; [lia|done]).
    rewrite (in_nodes_below _ _ _ Hlow) in H; [done|zmod].
Qed.

Lemma ebitmap_contains_correct e1 e2 :
  ebitmap_wf e1 → ebitmap_wf e2 →
  ebitmap_contains e1 e2 = true ↔ ∀ j, ebitmap_get_bit e2 j = true → ebitmap_get_bit e1 j = true.
Proof.
  intros H1 H2. setoid_rewrite ebitmap_get_bit_in; [|done..]. unfold ebitmap_contains, in_ebitmap.
  pose proof H1 as [Hn1 Hh1]. pose proof H2 as [Hn2 Hh2]. rewrite <- (contains_nodes_spec 0) by done.
  destruct (Z.ltb_spec (highbit e1) (highbit e2)) as [Hlt|]; [|done]. split; [done|].
  rewrite (contains_nodes_spec 0) by done. intros H. exfalso. rewrite Hh1, Hh2 in Hlt.
  destruct (node e2) as [|b n2] eqn:E2.
  { pose proof (high_of_lo _ _ Hn1). unfold high_of in Hlt at 2; simpl in Hlt. lia. }
  destruct (high_of_witness _ _ Hn2) as (j&Hj&Hin); [done|]. apply H in Hin.
  pose proof (high_of_aligned 0 _ eq_refl Hn1). pose proof (high_of_aligned 0 _ eq_refl Hn2).
  rewrite (in_nodes_above _ _ _ Hn1) in Hin; [done|zmod].
Qed.

Lemma match_any_nodes_spec lo n1 n2 :
  wf_nodes lo n1 → wf_nodes lo n2 →
  match_any_nodes n1 n2 = true ↔ ∃ j, in_nodes n1 j = true ∧ in_nodes n2 j = true.
Proof.
  revert lo n2. induction n1 as [|a n1 IH1].
  { intros lo [|b n2] _ _; simpl; (split; [done|by intros (?&[=]&?)]). }
  intros lo n2. revert lo. induction n2 as [|b n2 IH2]; intros lo Hw1 Hw2.
  { split; [done|by intros (?&?&[=])]. }
  pose proof Hw1 as (A1&A2&A3&A4&A5). pose proof Hw2 as (B1&B2&B3&B4&B5). cbn [match_any_nodes].
  destruct (Z.ltb_spec (startbit a) (startbit b)) as [Hlt|Hge].
  { assert (Hw2' : wf_nodes (startbit a + 64) (b :: n2)) by (split; [zmod|done]).
    rewrite (IH1 _ _ A5 Hw2'). split; intros (j&Hj1&Hj2); exists j.
    - by rewrite in_nodes_cons, Hj1, orb_true_r.
    - rewrite in_nodes_cons in Hj1. destruct (in_node a j) eqn:E; [|done].
      by rewrite (in_node_disjoint a (b :: n2) j _ Hw2') in Hj2. }
  destruct (Z.ltb_spec (startbit b) (startbit a)) as [Hlt|Heq].
  { assert (Hw1' : wf_nodes (startbit b + 64) (a :: n1)) by (split; [zmod|done]).
    rewrite (IH2 _ Hw1' B5). split; intros (j&Hj1&Hj2); exists j.
    - by rewrite (in_nodes_cons b), Hj2, orb_true_r.
    - rewrite (in_nodes_cons b) in Hj2. destruct (in_node b j) eqn:E; [|done].
      by rewrite (in_node_disjoint b (a :: n1) j _ Hw1') in Hj1. }
  assert (E : startbit a = startbit b) by lia. unfold has_bits.
  destruct (Z.eqb_spec (Z.land (nmap a) (nmap b)) 0) as [Hm|Hm]; cbn [negb].
  - rewrite E in A5. rewrite (IH1 _ _ A5 B5). split; intros (j&Hj1&Hj2); exists j.
    { by rewrite !in_nodes_cons, Hj1, Hj2, !orb_true_r. }
    rewrite !in_nodes_cons in *.
    destruct (in_node a j) eqn:Ea, (in_node b j) eqn:Eb; simpl in *; [|..|done].
    + exfalso. unfold in_node in Ea, Eb. rewrite E in Ea. zcase_in Ea; simpl in *; try done.
      apply (f_equal (λ z, Z.testbit z (j - startbit b))) in Hm.
      by rewrite Z.land_spec, Ea, Z.bits_0 in Hm; zcase_in Eb; simpl in *; rewrite ?Eb in Hm.
    + by rewrite (in_node_disjoint a n2 j _ B5) in Hj2 by (done || lia).
    + by rewrite (in_node_disjoint b n1 j _ A5) in Hj1 by (done || lia).
  - split; [intros _|done]. destruct (nonzero_has_testbit (Z.land (nmap a) (nmap b))) as (k&Hk&Hb).
    { pose proof (land_range 64 (nmap a) (nmap b)). lia. }
    rewrite Z.land_spec in Hb. apply andb_true_iff in Hb as [Hb1 Hb2].
    assert (k < 64). { destruct (decide (k < 64)); [done|]. rewrite (testbit_high 64) in Hb1 by lia. done. }
    exists (startbit b + k). rewrite !in_nodes_cons, !in_node_self by lia. rewrite E.
    replace (startbit b + k - startbit b) with k by lia. by rewrite Hb1, Hb2.
Qed.

Lemma ebitmap_match_any_correct e1 e2 :
  ebitmap_wf e1 → ebitmap_wf e2 →
  ebitmap_match_any e1 e2 = true ↔
  ∃ j, ebitmap_get_bit e1 j = true ∧ ebitmap_get_bit e2 j = true.
Proof.
  intros H1 H2. setoid_rewrite ebitmap_get_bit_in; [|done..].
  apply (match_any_nodes_spec 0); [apply H1|apply H2].
Qed.

(** ** Iteration *)

(** What the loop reads in one word. *)
Definition word_bits (a : ebitmap_node) (lo : Z) (k : nat) : list (Z * bool) :=
  (λ j, (j, Z.testbit (nmap a) (j - startbit a))) <$> seqZ lo (Z.of_nat k).

Lemma node_get_bit a j :
  startbit a <= j < startbit a + 64 → ebitmap_node_get_bit a j = Z.testbit (nmap a) (j - startbit a).
Proof. intros. unfold ebitmap_node_get_bit. rewrite has_MAPBIT; [done|lia]. Qed.

(** The loop reads the rest of the current word, then goes on with the next. *)
Lemma for_each_word lo a n hb bit k fuel :
  0 <= lo → wf_nodes lo (a :: n) → (0 < k <= 64)%nat → bit = startbit a + 64 - Z.of_nat k →
  hb = high_of lo (a :: n) →
  for_each_bit_loop (k + fuel) hb (a :: n) bit =
  word_bits a bit k ++ match n with [] => [] | b :: _ => for_each_bit_loop fuel hb n (startbit b) end.
Proof.
  intros Hlo Hw Hk -> Hhb. pose proof Hw as (A1&A2&A3&A4&A5).
  assert (Hend : startbit a + 64 <= hb) by (rewrite Hhb, high_of_cons; by apply high_of_lo).
  revert Hk. induction k as [|k IH]; [lia|]. intros Hk.
  unfold word_bits. rewrite seqZ_cons by lia. simpl.
  destruct (Z.ltb_spec (startbit a + 64 - Z.of_nat (S k)) hb); [|lia].
  assert (Hu : u32 (startbit a + MAPSIZE - 1) = startbit a + 63)
    by (unfold MAPSIZE; rewrite u32_small; lia).
  assert (Hu' : u32 (startbit a + 64 - Z.of_nat (S k) + 1) = startbit a + 64 - Z.of_nat k)
    by (rewrite u32_small; lia).
  rewrite Hu, Hu', node_get_bit by lia.
  destruct k as [|k].
  - destruct n as [|b n]; simpl.
    + destruct fuel; simpl; [done|]. rewrite Hhb. unfold high_of; simpl.
      rewrite Z.sub_0_r, Z.ltb_irrefl. done.
    + destruct (Z.eqb_spec (startbit a + 64 - Z.of_nat 1) (startbit a + 63)); [done|lia].
  - destruct n as [|b n]; [|destruct (Z.eqb_spec (startbit a + 64 - Z.of_nat (S (S k))) (startbit a + 63)); [lia|]];
      rewrite IH by lia; unfold word_bits; rewrite <- Z.add_1_r;
      replace (startbit a + 64 - Z.of_nat (S (S k)) + 1) with (startbit a + 64 - Z.of_nat (S k)) by lia;
      replace (Z.pred (Z.of_nat (S (S k)))) with (Z.of_nat (S k)) by lia; done.
Qed.

Definition nodes_bits (n : list ebitmap_node) : list (Z * bool) :=
  n ≫= λ a, word_bits a (startbit a) 64.

Lemma for_each_nodes lo a n hb fuel :
  0 <= lo → wf_nodes lo (a :: n) → hb = high_of lo (a :: n) → (64 * length (a :: n) <= fuel)%nat →
  for_each_bit_loop fuel hb (a :: n) (startbit a) = nodes_bits (a :: n).
Proof.
  revert lo a fuel. induction n as [|b n IH]; intros lo a fuel Hlo Hw Hhb Hf;
    cbn [length] in Hf; pose proof Hw as (A1&A2&A3&A4&A5).
  - replace fuel with (64 + (fuel - 64))%nat by lia.
    rewrite (for_each_word lo) by (done || lia). done.
  - replace fuel with (64 + (fuel - 64))%nat by lia.
    rewrite (for_each_word lo) by (done || lia). rewrite (IH (startbit a + 64)); [done|lia|done| |cbn [length]; lia].
    by rewrite Hhb, high_of_cons.
Qed.

(** The fuel [64 * length] is enough: the loop visits every position of every
    word, once, in order. *)
Lemma ebitmap_for_each_bit_eq e :
  ebitmap_wf e → ebitmap_for_each_bit e = nodes_bits (node e).
Proof.
  intros [Hn Hh]. unfold ebitmap_for_each_bit, ebitmap_start, ebitmap_startbit, ebitmap_length.
  destruct (node e) as [|a n] eqn:E; [done|]. apply (for_each_nodes 0); [lia|done..].
Qed.

Definition nodes_set_bits (n : list ebitmap_node) : list Z :=
  (filter (λ p, p.2 = true) (nodes_bits n)).*1.

Lemma elem_of_word_bits a j v :
  (j, v) ∈ word_bits a (startbit a) 64 ↔
  startbit a <= j < startbit a + 64 ∧ v = Z.testbit (nmap a) (j - startbit a).
Proof.
  unfold word_bits. rewrite list_elem_of_fmap. split.
  - intros (k&[= -> ->]&Hk%elem_of_seqZ). split; [lia|done].
  - intros [Hj ->]. exists j. split; [done|]. apply elem_of_seqZ. lia.
Qed.

Lemma elem_of_nodes_set_bits n j : j ∈ nodes_set_bits n ↔ in_nodes n j = true.
Proof.
  unfold nodes_set_bits, nodes_bits, in_nodes. rewrite list_elem_of_fmap, existsb_exists.
  setoid_rewrite list_elem_of_filter. setoid_rewrite list_elem_of_bind.
  setoid_rewrite <- list_elem_of_In. split.
  - intros ([j' v]&->&Hv&a&Hin&Ha). apply elem_of_word_bits in Hin as [Hj ->]. simpl in *.
    exists a. split; [done|]. by rewrite in_node_self.
  - intros (a&Ha&Hj). exists (j, true). split; [done|]. split; [done|]. exists a. split; [|done].
    apply elem_of_word_bits. unfold in_node in Hj.
    apply andb_true_iff in Hj as [[H1 H2]%andb_true_iff H3]. split; [lia|done].
Qed.

Lemma elem_of_set_bits e j :
  ebitmap_wf e → j ∈ ebitmap_set_bits e ↔ ebitmap_get_bit e j = true.
Proof.
  intros He. unfold ebitmap_set_bits. rewrite ebitmap_for_each_bit_eq by done.
  rewrite ebitmap_get_bit_in by done. apply elem_of_nodes_set_bits.
Qed.

Lemma StronglySorted_seqZ lo n : StronglySorted Z.lt (seqZ lo (Z.of_nat n)).
Proof.
  revert lo. induction n as [|n IH]; intros lo; [constructor|].
  rewrite seqZ_cons by lia. constructor.
  - replace (Z.pred (Z.of_nat (S n))) with (Z.of_nat n) by lia. apply IH.
  - apply Forall_forall. intros x Hx%elem_of_seqZ. lia.
Qed.

Lemma StronglySorted_fst_filter {A} (P : Z * A → Prop) `{∀ x, Decision (P x)} (l : list (Z * A)) :
  StronglySorted Z.lt l.*1 → StronglySorted Z.lt (filter P l).*1.
Proof.
  induction l as [|x l IH]; [done|]. intros Hs. apply StronglySorted_inv in Hs as [Hs Hx].
  rewrite filter_cons. destruct (decide (P x)); [|by apply IH]. simpl. constructor; [by apply IH|].
  rewrite Forall_forall in *. intros y Hy. apply Hx.
  apply list_elem_of_fmap in Hy as (z&->&[_ Hz']%list_elem_of_filter). by apply list_elem_of_fmap_2.
Qed.

Lemma nodes_bits_sorted lo n : wf_nodes lo n → StronglySorted Z.lt (nodes_bits n).*1.
Proof.
  revert lo. induction n as [|a n IH]; intros lo; [constructor|]. intros (A1&A2&A3&A4&A5).
  unfold nodes_bits. rewrite bind_cons, fmap_app. unfold word_bits at 1.
  rewrite <- list_fmap_compose. rewrite (list_fmap_ext _ id) by done. rewrite list_fmap_id.
  apply StronglySorted_app_2; [|apply (StronglySorted_seqZ _ 64)|by apply (IH _ A5)].
  intros x y Hx%elem_of_seqZ Hy.
  assert (startbit a + 64 <= y); [|lia]. clear -A5 Hy. revert A5.
  generalize (startbit a + 64). induction n as [|b n IH]; intros lo; [by apply not_elem_of_nil in Hy|].
  intros (B1&B2&B3&B4&B5). rewrite bind_cons, fmap_app in Hy.
  apply elem_of_app in Hy as [Hy|Hy]; [|specialize (IH Hy _ B5); lia].
  apply list_elem_of_fmap in Hy as ([? ?]&->&Hy%elem_of_word_bits). simpl. lia.
Qed.

(** The positions come in increasing order, without repetition. *)
Lemma ebitmap_set_bits_sorted e : ebitmap_wf e → StronglySorted Z.lt (ebitmap_set_bits e).
Proof.
  intros He. unfold ebitmap_set_bits. rewrite ebitmap_for_each_bit_eq by done.
  apply StronglySorted_fst_filter. eapply nodes_bits_sorted. apply He.
Qed.

Lemma StronglySorted_lt_NoDup l : StronglySorted Z.lt l → NoDup l.
Proof.
  induction 1 as [|x l _ IH Hx]; [constructor|]. constructor; [|done].
  intros Hin. rewrite Forall_forall in Hx. specialize (Hx x Hin). lia.
Qed.

Lemma ebitmap_set_bits_NoDup e : ebitmap_wf e → NoDup (ebitmap_set_bits e).
Proof. intros. by apply StronglySorted_lt_NoDup, ebitmap_set_bits_sorted. Qed.

(** *** Cardinality *)

Lemma count_loop (f : Z → bool) n lo c :
  0 <= c → c + Z.of_nat n < 2 ^ 32 →
  for_up (R := Empty_set) n lo (λ i count, inr (if f i then u32 (count + 1) else count)) c =
  inr (c + Z.of_nat (length (filter (λ i, f i = true) (seqZ lo (Z.of_nat n))))).
Proof.
  revert lo c. induction n as [|n IH]; intros lo c Hc Hb; [simpl; f_equal; lia|].
  cbn [for_up]. rewrite (seqZ_cons lo) by lia. rewrite filter_cons.
  replace (Z.pred (Z.of_nat (S n))) with (Z.of_nat n) by lia. rewrite <- (Z.add_1_r lo).
  destruct (f lo) eqn:E.
  - rewrite u32_small by lia. rewrite IH by lia. rewrite decide_True by done. f_equal. simpl length. lia.
  - rewrite IH by lia. rewrite decide_False by done. done.
Qed.

Lemma ebitmap_startbit_range e :
  ebitmap_wf e → 0 <= ebitmap_startbit e <= ebitmap_length e.
Proof.
  intros [Hn Hh]. unfold ebitmap_startbit, ebitmap_length. rewrite Hh.
  destruct (node e) as [|a n]; [done|]. destruct Hn as (A1&A2&A3&A4&A5).
  rewrite high_of_cons. pose proof (high_of_lo _ _ A5). lia.
Qed.

Lemma get_bit_below_startbit e j : ebitmap_wf e → j < ebitmap_startbit e → ebitmap_get_bit e j = false.
Proof.
  intros He. rewrite ebitmap_get_bit_in by done. destruct He as [Hn _]. unfold in_ebitmap, ebitmap_startbit.
  destruct (node e) as [|a n]; [done|]. intros Hj. apply (in_nodes_below (startbit a)); [|done].
  destruct Hn as (?&?&?&?&?). split; [lia|done].
Qed.

(** The number of set bits. *)
Lemma ebitmap_cardinality_correct e :
  ebitmap_wf e → ebitmap_cardinality e = Z.of_nat (length (ebitmap_set_bits e)).
Proof.
  intros He. unfold ebitmap_cardinality, for_range.
  pose proof (ebitmap_startbit_range e He). pose proof (ebitmap_length_bound e He).
  rewrite count_loop by lia. rewrite Z.add_0_l. f_equal. apply Permutation_length.
  apply NoDup_Permutation.
  - apply NoDup_filter, NoDup_seqZ.
  - by apply ebitmap_set_bits_NoDup.
  - intros j. rewrite list_elem_of_filter, elem_of_set_bits, elem_of_seqZ by done.
    split; [by intros [? _]|]. intros Hj. split; [done|].
    pose proof (get_bit_range e j He Hj).
    destruct (decide (j < ebitmap_startbit e)); [|lia].
    by rewrite get_bit_below_startbit in Hj.
Qed.

(** 0 exactly for equal bitmaps; otherwise the number of positions where they
    differ, or -1 when memory runs out. *)
Lemma ebitmap_hamming_distance_correct e1 e2 m :
  ebitmap_wf e1 → ebitmap_wf e2 →
  let d := (ebitmap_hamming_distance e1 e2 m).1 in
  (plenty m → d <> -1) ∧
  (d = -1 ∨ ∃ l, NoDup l ∧ d = Z.of_nat (length l) ∧
     ∀ j, j ∈ l ↔ ebitmap_get_bit e1 j <> ebitmap_get_bit e2 j).
Proof.
  intros H1 H2. unfold ebitmap_hamming_distance.
  destruct (ebitmap_cmp e1 e2) eqn:E.
  { apply ebitmap_cmp_eq in E as ->. simpl. split; [done|]. right. exists []. split; [constructor|].
    split; [done|]. intros j. split; [by intros ?%not_elem_of_nil|done]. }
  pose proof (ebitmap_xor_correct e1 e2 m H1 H2) as Hx.
  destruct (ebitmap_xor e1 e2 m) as [[rc t] m']. destruct Hx as [Hp [(->&Hw&Hg)| ->]]; simpl.
  - rewrite ebitmap_cardinality_correct by done. split; [lia|]. right.
    exists (ebitmap_set_bits t). split; [by apply ebitmap_set_bits_NoDup|]. split; [done|].
    intros j. rewrite elem_of_set_bits, Hg by done.
    destruct (ebitmap_get_bit e1 j), (ebitmap_get_bit e2 j); simpl; by clear Hp; naive_solver.
  - split; [intros P; by apply Hp in P as [_ ?]|by left].
Qed.
