(* ===== verification/EbitmapFile.v ===== *)
(** * Bitmaps in a policy file (ebitmap.c: [ebitmap_read]; write.c: [ebitmap_write])

    The binary form of a bitmap is the word size, [highbit], the number of
    words, then each word's position and bits.  The theorems: what is written
    is read back, and whatever bytes are read, the result satisfies the
    representation invariant that every other operation relies on. *)

From S2P Require Import Prelude Policyfile Ebitmap.

(** ** Operations *)

(** The loop of [ebitmap_read]: [l] is the last word read. *)
Fixpoint ebitmap_read_nodes (count : nat) (hb : Z) (l : option ebitmap_node) : R (list ebitmap_node) :=
  match count with
  | O => mret []
  | S count' =>
      buf ← next_u32s 1;
      _ ← need (- ENOMEM);
      let sb := word buf 0 in
      _ ← guard_or (- EINVAL) (negb (has_bits sb (MAPSIZE - 1)));
      _ ← guard_or (- EINVAL) (sb <=? u32 (hb - MAPSIZE));
      map ← next_u64;
      _ ← guard_or (- EINVAL) (negb (map =? 0));
      _ ← guard_or (- EINVAL) (match l with Some p => startbit p <? sb | None => true end);
      let n := EN sb map in
      rest ← ebitmap_read_nodes count' hb (Some n);
      mret (n :: rest)
  end.

(** [l->startbit + MAPSIZE != e->highbit] for the last word [l]. *)
Definition ends_at (n : list ebitmap_node) (hb : Z) : bool :=
  match last n with Some l => u32 (startbit l + MAPSIZE) =? hb | None => true end.

(** On an error the bitmap is destroyed. *)
Definition ebitmap_read : R ebitmap :=
  buf ← next_u32s 3;
  let mapsize := word buf 0 in
  let hb := word buf 1 in
  let count := word buf 2 in
  _ ← guard_or (- EINVAL) (mapsize =? MAPSIZE);
  if hb =? 0 then mret (EB [] 0)
  else
    _ ← guard_or (- EINVAL) (negb (has_bits hb (MAPSIZE - 1)));
    _ ← guard_or (- EINVAL) (negb (count =? 0));
    n ← ebitmap_read_nodes (Z.to_nat count) hb None;
    _ ← guard_or (- EINVAL) (ends_at n hb);
    mret (EB n hb).

Definition ebitmap_write_node (n : ebitmap_node) : writer :=
  put_u32s [startbit n];;; put_u64 (nmap n).

Definition ebitmap_write (e : ebitmap) : writer :=
  put_u32s [MAPSIZE; highbit e; Z.of_nat (length (node e))];;;
  write_all ebitmap_write_node (node e).

(** ** The format *)

Definition ebitmap_node_bytes (n : ebitmap_node) : list Z := u32s [startbit n] ++ le_bytes 8 (nmap n).

Definition ebitmap_bytes (e : ebitmap) : list Z :=
  u32s [MAPSIZE; highbit e; Z.of_nat (length (node e))] ++ (node e ≫= ebitmap_node_bytes).

Lemma emits_ebitmap c e : emits c (ebitmap_write e) (ebitmap_bytes e).
Proof.
  apply emits_then; [by apply emits_u32s|]. apply emits_all, Forall_true. intros n.
  apply emits_then; [by apply emits_u32s|apply emits_u64].
Qed.

(** ** Arithmetic of aligned positions *)

Lemma aligned_bits sb : 0 <= sb → negb (has_bits sb (MAPSIZE - 1)) = (sb mod 64 =? 0).
Proof.
  intros Hsb. unfold has_bits, MAPSIZE. rewrite negb_involutive.
  change (64 - 1) with (Z.ones 6). by rewrite Z.land_ones by lia.
Qed.

Lemma high_of_indep n d d' : n ≠ [] → high_of d n = high_of d' n.
Proof. unfold high_of. destruct n as [|a n _] using rev_ind; [done|]. by rewrite last_snoc. Qed.

Lemma high_of_mod lo n : n ≠ [] → wf_nodes lo n → high_of 0 n mod 64 = 0.
Proof.
  revert lo. induction n as [|a n IH]; intros lo Hne Hn; [done|].
  destruct Hn as (?&Hm&?&?&Hn). destruct n as [|b n].
  - unfold high_of. cbn. rewrite <- Z.add_mod_idemp_l, Hm by lia. done.
  - rewrite high_of_cons, (high_of_indep _ _ 0) by done. by apply (IH (startbit a + 64)).
Qed.

(** ** What is written is read back *)

Lemma parses_nodes c hb n : ∀ lo p, wf_nodes lo n → high_of lo n <= hb → hb < 2 ^ 32 →
  match p with Some a => startbit a < lo | None => 0 <= lo end → 0 <= lo →
  parses c (ebitmap_read_nodes (length n) hb p) (n ≫= ebitmap_node_bytes) n.
Proof.
  induction n as [|a n IH]; intros lo p Hn Hh Hlt Hp Hlo; [apply parses_ret|].
  destruct Hn as (Ha&Hm&Hs&Hv&Hn).
  assert (startbit a + 64 <= hb) as Hend.
  { rewrite high_of_cons in Hh. pose proof (high_of_lo _ _ Hn). lia. }
  rewrite bind_cons. unfold ebitmap_node_bytes at 1. rewrite <- !app_assoc. cbn [length ebitmap_read_nodes].
  eapply parses_bind. { apply parses_u32s; [done|]. in_range. }
  apply parses_need_bind. cbn [word at_index].
  change (word [startbit a] 0) with (startbit a).
  apply parses_guard_bind. { rewrite aligned_bits by lia. lia. }
  apply parses_guard_bind. { unfold MAPSIZE. rewrite u32_small by lia. lia. }
  eapply parses_bind; [apply parses_u64; red; lia|].
  apply parses_guard_bind. { lia. }
  apply parses_guard_bind. { destruct p; lia. }
  eapply parses_map.
  - apply (IH (startbit a + 64)); [done|..|lia|cbn; lia|lia]. by rewrite high_of_cons in Hh.
  - by destruct a.
Qed.

Lemma nodes_count lo n : 0 <= lo → wf_nodes lo n → 64 * Z.of_nat (length n) <= high_of lo n - lo.
Proof.
  revert lo. induction n as [|a n IH]; intros lo Hlo Hn.
  { unfold high_of. simpl. lia. }
  destruct Hn as (?&?&?&?&Hn). rewrite high_of_cons. cbn [length].
  specialize (IH (startbit a + 64) ltac:(lia) Hn). lia.
Qed.

Lemma parses_ebitmap c e : ebitmap_wf e → parses c ebitmap_read (ebitmap_bytes e) e.
Proof.
  intros Hwf. pose proof (ebitmap_length_range e Hwf) as Hr. unfold ebitmap_length in Hr.
  destruct Hwf as [Hn Hh]. destruct e as [n hb]. cbn [node highbit] in *.
  pose proof (nodes_count 0 n ltac:(lia) Hn).
  unfold ebitmap_bytes, ebitmap_read. cbn [node highbit].
  eapply parses_bind. { apply parses_u32s; [done|]. unfold MAPSIZE. in_range. }
  change (word _ 0) with MAPSIZE. change (word _ 1) with hb. change (word _ 2) with (Z.of_nat (length n)).
  apply parses_guard_bind; [done|].
  destruct n as [|a n].
  { rewrite Hh. apply parses_ret. }
  assert (64 <= hb) as Hpos.
  { rewrite Hh, high_of_cons. destruct Hn as (?&?&?&?&Hn). pose proof (high_of_lo _ _ Hn). lia. }
  destruct (Z.eqb_spec hb 0) as [->|_]; [lia|].
  apply parses_guard_bind.
  { rewrite aligned_bits by lia. rewrite Hh. apply Z.eqb_eq. by eapply high_of_mod. }
  apply parses_guard_bind; [done|].
  rewrite Nat2Z.id. rewrite <- (app_nil_r (_ ≫= _)).
  eapply parses_bind; [apply (parses_nodes c hb (a :: n) 0); try done; lia|].
  apply parses_guard_bind; [|apply parses_ret]. unfold ends_at. unfold high_of in Hh.
  destruct (last (a :: n)) as [l|] eqn:El; [|done]. unfold MAPSIZE.
  rewrite u32_small; lia.
Qed.

(** ** Whatever is read is well formed *)

Lemma sound_nodes count hb : 64 <= hb < 2 ^ 32 → ∀ p,
  sound (ebitmap_read_nodes count hb p)
    (λ n, ∀ lo, match p with
                | Some a => lo = startbit a + 64 ∧ startbit a mod 64 = 0
                | None => lo = 0
                end → hb mod 64 = 0 → wf_nodes lo n ∧ length n = count).
Proof.
  intros Hhb. induction count as [|count IH]; intros p; [by apply sound_ret|].
  cbn [ebitmap_read_nodes].
  eapply sound_bind; [by apply sound_u32s|]. intros buf [El Hb].
  destruct buf as [|sb [|]]; try (cbn in El; lia). apply Forall_inv in Hb. change (word [sb] 0) with sb.
  apply sound_need_bind.
  apply sound_guard_bind. intros Hal. red in Hb. rewrite aligned_bits in Hal by lia.
  apply sound_guard_bind. intros Hhi. unfold MAPSIZE in Hhi. rewrite u32_small in Hhi by lia.
  eapply sound_bind; [apply sound_u64|]. intros map Hmap. red in Hmap.
  apply sound_guard_bind. intros Hnz.
  apply sound_guard_bind. intros Hp.
  eapply sound_map; [apply IH|]. intros n Hn lo Hlo Hmod.
  destruct (Hn (sb + 64)) as [Hn1 Hn2]; [cbn; lia|done|]. split; [|cbn; lia].
  cbn. split_and!; try lia; [|done].
  destruct p as [a|]; [|lia]. destruct Hlo as [-> Ha].
  assert (startbit a < sb) by lia. assert (sb mod 64 = 0) by lia. zmod.
Qed.

Lemma sound_ebitmap : sound ebitmap_read ebitmap_wf.
Proof.
  eapply sound_bind; [by apply sound_u32s|]. intros buf [El Hb].
  destruct buf as [|ms [|hb [|cnt [|]]]]; try (cbn in El; lia).
  rewrite !Forall_cons in Hb. destruct Hb as (_&Hhb&Hcnt&_).
  change (word _ 0) with ms. change (word _ 1) with hb. change (word _ 2) with cnt.
  apply sound_guard_bind. intros _.
  destruct (Z.eqb_spec hb 0) as [->|Hnz]; [by apply sound_ret|]. red in Hhb.
  apply sound_guard_bind. intros Hal. rewrite aligned_bits in Hal by lia.
  apply sound_guard_bind. intros Hc.
  assert (64 <= hb < 2 ^ 32) by zmod.
  eapply sound_bind; [by apply sound_nodes|]. intros n Hn.
  destruct (Hn 0 eq_refl ltac:(lia)) as [Hwf El'].
  apply sound_guard_bind. intros Hend. apply sound_ret.
  split; [done|]. cbn [node highbit]. unfold ends_at in Hend. unfold high_of.
  destruct (last n) as [l|] eqn:E.
  - pose proof (high_of_bound 0 n Hwf ltac:(lia)) as Hb'. pose proof (nodes_count 0 n ltac:(lia) Hwf) as Hc'.
    unfold high_of in Hb', Hc'. rewrite E in Hb', Hc'.
    assert (length n ≠ 0%nat) by (by intros ->%length_zero_iff_nil).
    unfold MAPSIZE in Hend. rewrite u32_small in Hend by lia. lia.
  - apply last_None in E. subst n. red in Hcnt. simpl in El'. lia.
Qed.
