(* ===== verification/Hashtab.v ===== *)
(** * Chained hash tables and symbol tables

    libsepol/src/hashtab.c, libsepol/src/symtab.c and the hash and comparison
    functions of libsepol/src/policydb.c.

    A table is an array of chains, each a list sorted by the key comparison.
    The hash function and the comparison are the fields of a type class
    ([HashKey]); [HashKeyLaws] states what the operations rely on, and the
    three key types of the program are instances.  The operations are then
    proved to implement a finite map ([to_map]). *)

From S2P Require Import Prelude.

(** ** Keys: the [hash_value] and [keycmp] function pointers *)

Class HashKey (K : Type) := {
  hash_value : Z → K → Z;   (** the table's [size], the key *)
  keycmp : K → K → Z
}.

(** [key_ok] are the keys the comparison orders totally. *)
Class HashKeyLaws (K : Type) `{HashKey K} := {
  key_ok : K → Prop;
  hash_value_range size k : 0 < size → 0 <= hash_value size k < size;
  keycmp_refl k : keycmp k k = 0;
  keycmp_eq k1 k2 : key_ok k1 → key_ok k2 → keycmp k1 k2 = 0 → k1 = k2;
  keycmp_opp k1 k2 : key_ok k1 → key_ok k2 → 0 < keycmp k1 k2 ↔ keycmp k2 k1 < 0;
  keycmp_trans k1 k2 k3 : key_ok k1 → key_ok k2 → key_ok k3 →
    0 < keycmp k1 k2 → 0 < keycmp k2 k3 → 0 < keycmp k1 k3
}.

(** ** Data and operations *)

Record hashtab_val (K D : Type) := HT {
  htable : list (list (K * D));
  size : Z;
  nel : Z
}.
Arguments HT {K D}.
Arguments htable {K D}.
Arguments size {K D}.
Arguments nel {K D}.

(** [hashtab_t]: a pointer that may be NULL. *)
Definition hashtab_t (K D : Type) : Type := option (hashtab_val K D).

Section hashtab.
Context {K D : Type} `{HashKey K}.
Implicit Types (h : hashtab_val K D) (k : K) (d : D) (l : list (K * D)).

Definition hashtab_create (sz : Z) (m : mem) : hashtab_t K D * mem :=
  let '(ok, m) := malloc m in
  if negb ok then (None, m)
  else
    let '(ok, m) := malloc m in
    if negb ok then (None, m)
    else (Some (HT (replicate (Z.to_nat sz) []) sz 0), m).

(** The walk [while (cur && keycmp(h, key, cur->key) > 0)]: the entries it
    passes ([prev] is the last of them) and the rest of the chain ([cur] is its
    head). *)
Fixpoint walk (key : K) (l : list (K * D)) : list (K * D) * list (K * D) :=
  match l with
  | [] => ([], [])
  | cur :: next =>
      if 0 <? keycmp key cur.1
      then let '(before, rest) := walk key next in (cur :: before, rest)
      else ([], l)
  end.

(** [h->htable[hvalue]] *)
Definition chain (h : hashtab_val K D) (hvalue : Z) : list (K * D) :=
  default [] (at_index (htable h) hvalue).

Definition set_chain (h : hashtab_val K D) (hvalue : Z) (l : list (K * D)) : list (list (K * D)) :=
  set_index (htable h) hvalue l.

(** [cur && keycmp(h, key, cur->key) == 0] *)
Definition at_key (key : K) (rest : list (K * D)) : bool :=
  match rest with cur :: _ => keycmp key cur.1 =? 0 | [] => false end.

(** hashtab.h and the manual pages say SEPOL_ENOMEM = -ENOMEM, ... *)
Definition hashtab_insert (h : hashtab_t K D) (key : K) (datum : D) (m : mem)
    : Z * hashtab_t K D * mem :=
  match h with
  | None => (SEPOL_ENOMEM, h, m)
  | Some t =>
      let hvalue := hash_value (size t) key in
      let '(before, rest) := walk key (chain t hvalue) in
      if at_key key rest then (SEPOL_EEXIST, h, m)
      else
        let '(ok, m) := malloc m in
        if negb ok then (SEPOL_ENOMEM, h, m)
        else (SEPOL_OK,
              Some (HT (set_chain t hvalue (before ++ (key, datum) :: rest)) (size t)
                       (u32 (nel t + 1))), m)
  end.

(** The third result is the entry passed to [destroy]. *)
Definition hashtab_remove (h : hashtab_t K D) (key : K)
    : Z * hashtab_t K D * option (K * D) :=
  match h with
  | None => (SEPOL_ENOENT, h, None)
  | Some t =>
      let hvalue := hash_value (size t) key in
      let '(before, rest) := walk key (chain t hvalue) in
      match rest with
      | cur :: next =>
          if negb (keycmp key cur.1 =? 0) then (SEPOL_ENOENT, h, None)
          else (SEPOL_OK,
                Some (HT (set_chain t hvalue (before ++ next)) (size t) (u32 (nel t - 1))),
                Some cur)
      | [] => (SEPOL_ENOENT, h, None)
      end
  end.

Definition hashtab_replace (h : hashtab_t K D) (key : K) (datum : D) (m : mem)
    : Z * hashtab_t K D * option (K * D) * mem :=
  match h with
  | None => (SEPOL_ENOMEM, h, None, m)
  | Some t =>
      let hvalue := hash_value (size t) key in
      let '(before, rest) := walk key (chain t hvalue) in
      match rest with
      | cur :: next =>
          if keycmp key cur.1 =? 0
          then (SEPOL_OK,
                Some (HT (set_chain t hvalue (before ++ (key, datum) :: next)) (size t) (nel t)),
                Some cur, m)
          else
            let '(ok, m) := malloc m in
            if negb ok then (SEPOL_ENOMEM, h, None, m)
            else (SEPOL_OK,
                  Some (HT (set_chain t hvalue (before ++ (key, datum) :: rest)) (size t) (nel t)),
                  None, m)
      | [] =>
          let '(ok, m) := malloc m in
          if negb ok then (SEPOL_ENOMEM, h, None, m)
          else (SEPOL_OK,
                Some (HT (set_chain t hvalue (before ++ [(key, datum)])) (size t) (nel t)),
                None, m)
      end
  end.

(** NULL is [None]. *)
Definition hashtab_search (h : hashtab_t K D) (key : K) : option D :=
  match h with
  | None => None
  | Some t =>
      let hvalue := hash_value (size t) key in
      match (walk key (chain t hvalue)).2 with
      | cur :: _ => if negb (keycmp key cur.1 =? 0) then None else Some cur.2
      | [] => None
      end
  end.

(** Every node and the array are freed. *)
Definition hashtab_destroy (h : hashtab_t K D) : hashtab_t K D := None.

(** [hashtab_map]: [apply] runs in a state [S], the memory behind [args]. *)
Fixpoint map_chain {S} (apply : K → D → M S Z) (l : list (K * D)) : M S Z :=
  match l with
  | [] => mret SEPOL_OK
  | cur :: next =>
      ret ← apply cur.1 cur.2;
      if negb (ret =? 0) then mret ret else map_chain apply next
  end.

Fixpoint map_buckets {S} (apply : K → D → M S Z) (b : list (list (K * D))) : M S Z :=
  match b with
  | [] => mret SEPOL_OK
  | l :: b' =>
      ret ← map_chain apply l;
      if negb (ret =? 0) then mret ret else map_buckets apply b'
  end.

Definition hashtab_map {S} (h : hashtab_t K D) (apply : K → D → M S Z) : M S Z :=
  match h with
  | None => mret SEPOL_OK
  | Some t => map_buckets apply (take (Z.to_nat (size t)) (htable t))
  end.

(** One chain of [hashtab_map_remove_on_error]; the count is that of the
    entries removed. *)
Fixpoint remove_on_error_chain {S} (apply : K → D → S → Z * S) (destroy : K → D → S → S)
    (l : list (K * D)) (s : S) : list (K * D) * Z * S :=
  match l with
  | [] => ([], 0, s)
  | cur :: next =>
      let '(ret, s) := apply cur.1 cur.2 s in
      if negb (ret =? 0) then
        let s := destroy cur.1 cur.2 s in
        let '(l', n, s) := remove_on_error_chain apply destroy next s in
        (l', n + 1, s)
      else
        let '(l', n, s) := remove_on_error_chain apply destroy next s in
        (cur :: l', n, s)
  end.

Fixpoint remove_on_error_buckets {S} (apply : K → D → S → Z * S) (destroy : K → D → S → S)
    (b : list (list (K * D))) (s : S) : list (list (K * D)) * Z * S :=
  match b with
  | [] => ([], 0, s)
  | l :: b' =>
      let '(l', n, s) := remove_on_error_chain apply destroy l s in
      let '(b'', n', s) := remove_on_error_buckets apply destroy b' s in
      (l' :: b'', n + n', s)
  end.

Definition hashtab_map_remove_on_error {S} (apply : K → D → S → Z * S) (destroy : K → D → S → S)
    (h : hashtab_t K D) (s : S) : hashtab_t K D * S :=
  match h with
  | None => (None, s)
  | Some t =>
      let '(b, n, s) := remove_on_error_buckets apply destroy (htable t) s in
      (Some (HT b (size t) (u32 (nel t - n))), s)
  end.

(** The numbers [hashtab_hash_eval] prints: entries, slots used, slots, longest
    chain. *)
Definition hash_eval_step (l : list (K * D)) (s : Z * Z) : Z * Z :=
  let '(slots_used, max_chain_len) := s in
  match l with
  | [] => (slots_used, max_chain_len)
  | _ => let chain_len := Z.of_nat (length l) in
         (slots_used + 1, if max_chain_len <? chain_len then chain_len else max_chain_len)
  end.

Definition hashtab_hash_eval (h : hashtab_val K D) : Z * Z * Z * Z :=
  let '(slots_used, max_chain_len) := fold_left (λ s l, hash_eval_step l s) (htable h) (0, 0) in
  (nel h, slots_used, size h, max_chain_len).

(** ** Invariant and abstraction *)

Definition entries (t : hashtab_val K D) : list (K * D) := mjoin (htable t).

End hashtab.

(** ** Symbol tables (symtab.c): the keys are names *)

Definition symhash_step (val : Z) (p : ascii) : Z :=
  Z.lxor (Z.lor (u32 (Z.shiftl val 4)) (Z.shiftr val 28)) (byte_of p).

Definition symhash (sz : Z) (key : string) : Z :=
  Z.land (fold_left symhash_step (list_ascii_of_string key) 0) (u32 (sz - 1)).

Definition symcmp (key1 key2 : string) : Z := strcmp key1 key2.

#[export] Instance sym_key : HashKey string := {| hash_value := symhash; keycmp := symcmp |}.

Record symtab (D : Type) := SYM { table : hashtab_t string D; nprim : Z }.
Arguments SYM {D}.
Arguments table {D}.
Arguments nprim {D}.

Definition symtab_init {D} (sz : Z) (m : mem) : Z * option (symtab D) * mem :=
  let '(t, m) := hashtab_create sz m in
  match t with
  | None => (-1, None, m)
  | Some _ => (0, Some (SYM t 0), m)
  end.

Definition symtab_destroy {D} (s : symtab D) : symtab D :=
  SYM (hashtab_destroy (table s)) (nprim s).

(** ** File name transitions and range transitions (policydb.c) *)

Record filename_trans := FT { ft_stype : Z; ft_ttype : Z; ft_tclass : Z; ft_name : string }.

(** [unsigned long] has 32 bits on the target. *)
Definition partial_name_hash (c prevhash : Z) : Z :=
  u32 ((prevhash + Z.shiftl c 4 + Z.shiftr c 4) * 11).

Definition filenametr_hash (sz : Z) (ft : filename_trans) : Z :=
  let hash := Z.lxor (Z.lxor (ft_stype ft) (ft_ttype ft)) (ft_tclass ft) in
  let hash := fold_left (λ hash focus, partial_name_hash (byte_of focus) hash)
                (list_ascii_of_string (ft_name ft)) hash in
  Z.land hash (u32 (sz - 1)).

Definition filenametr_cmp (ft1 ft2 : filename_trans) : Z :=
  let v := s32 (u32 (ft_stype ft1 - ft_stype ft2)) in
  if negb (v =? 0) then v else
  let v := s32 (u32 (ft_ttype ft1 - ft_ttype ft2)) in
  if negb (v =? 0) then v else
  let v := s32 (u32 (ft_tclass ft1 - ft_tclass ft2)) in
  if negb (v =? 0) then v else
  strcmp (ft_name ft1) (ft_name ft2).

#[export] Instance filenametr_key : HashKey filename_trans :=
  {| hash_value := filenametr_hash; keycmp := filenametr_cmp |}.

Record range_trans := RT { rt_source_type : Z; rt_target_type : Z; rt_target_class : Z }.

Definition rangetr_hash (sz : Z) (key : range_trans) : Z :=
  Z.land (u32 (rt_source_type key + u32 (Z.shiftl (rt_target_type key) 3) +
               u32 (Z.shiftl (rt_target_class key) 5))) (u32 (sz - 1)).

Definition rangetr_cmp (key1 key2 : range_trans) : Z :=
  let v := s32 (u32 (rt_source_type key1 - rt_source_type key2)) in
  if negb (v =? 0) then v else
  let v := s32 (u32 (rt_target_type key1 - rt_target_type key2)) in
  if negb (v =? 0) then v else
  s32 (u32 (rt_target_class key1 - rt_target_class key2)).

#[export] Instance rangetr_key : HashKey range_trans :=
  {| hash_value := rangetr_hash; keycmp := rangetr_cmp |}.

Definition small_key (z : Z) : Prop := 0 <= z < 2 ^ 31.

(** ** Invariant, abstraction and refinement to a finite map *)

Section refinement.
Context {K D : Type} `{HL : HashKeyLaws K} `{Countable K}.
Implicit Types (t : hashtab_val K D) (h : hashtab_t K D) (k : K) (d : D) (l : list (K * D)).

(** A chain: increasing valid keys. *)
Definition chain_ok (l : list (K * D)) : Prop :=
  StronglySorted (λ x y, 0 < keycmp y.1 x.1) l ∧ Forall (λ e, key_ok e.1) l.

Definition table_ok (t : hashtab_val K D) : Prop :=
  0 < size t ∧ length (htable t) = Z.to_nat (size t) ∧
  (∀ i l, htable t !! i = Some l →
     chain_ok l ∧ Forall (λ e, hash_value (size t) e.1 = Z.of_nat i) l).

Definition hashtab_wf (h : hashtab_t K D) : Prop :=
  match h with
  | None => True
  | Some t => table_ok t ∧ nel t = u32 (Z.of_nat (length (entries t)))
  end.

(** The finite map a table stands for. *)
Definition to_map (h : hashtab_t K D) : gmap K D :=
  match h with None => ∅ | Some t => list_to_map (entries t) end.

Lemma to_map_None k : to_map None !! k = None.
Proof. apply lookup_empty. Qed.

(** *** Chains *)

Lemma walk_spec k l b r :
  walk k l = (b, r) →
  l = b ++ r ∧ Forall (λ e, 0 < keycmp k e.1) b ∧
  match r with [] => True | c :: _ => keycmp k c.1 <= 0 end.
Proof.
  revert b r. induction l as [|c l IH]; intros b r; simpl; [by intros [= <- <-]|].
  destruct (Z.ltb_spec 0 (keycmp k c.1)).
  - destruct (walk k l) as [b' r'] eqn:E. intros [= <- <-].
    destruct (IH b' r' eq_refl) as (->&Hb&Hr). split_and!; [done|by constructor|done].
  - intros [= <- <-]. split_and!; [done|constructor|done].
Qed.

Lemma chain_ok_keys_NoDup l : chain_ok l → NoDup l.*1.
Proof.
  intros [Hs Hok]. induction Hs as [|c l Hs IH Hc]; [constructor|].
  apply Forall_cons in Hok as [Hc' Hok]. simpl. constructor; [|by apply IH].
  intros ([k d]&E&Hin)%list_elem_of_fmap. rewrite Forall_forall in Hc.
  specialize (Hc _ Hin). rewrite <- E, keycmp_refl in Hc. lia.
Qed.

(** The walk stops at the key if it is in the chain. *)
Lemma walk_elem k l b r d :
  chain_ok l → key_ok k → walk k l = (b, r) →
  (k, d) ∈ l ↔ ∃ c next, r = c :: next ∧ keycmp k c.1 = 0 ∧ d = c.2.
Proof.
  intros [Hs Hok] Hk (->&Hb&Hr)%walk_spec. apply Forall_app in Hok as [_ Hok].
  apply StronglySorted_app in Hs as (_&_&Hs). split.
  - intros [Hin|Hin]%elem_of_app.
    + rewrite Forall_forall in Hb. specialize (Hb _ Hin). simpl in Hb. rewrite keycmp_refl in Hb. lia.
    + destruct r as [|c r]; [by apply not_elem_of_nil in Hin|]. exists c, r. split; [done|].
      apply elem_of_cons in Hin as [<-|Hin]; [by rewrite keycmp_refl|]. exfalso.
      apply StronglySorted_cons in Hs as [Hs _]. rewrite Forall_forall in Hs.
      specialize (Hs _ Hin). simpl in Hs. lia.
  - intros (c&next&->&E&->). apply elem_of_app. right. apply Forall_cons in Hok as [Hc _].
    apply keycmp_eq in E as ->; [|done..]. destruct c. apply list_elem_of_here.
Qed.

Lemma walk_at_key k l b r :
  chain_ok l → key_ok k → walk k l = (b, r) →
  at_key k r = true ↔ ∃ d, (k, d) ∈ l.
Proof.
  intros Hl Hk Hw. setoid_rewrite (walk_elem _ _ _ _ _ Hl Hk Hw). unfold at_key.
  destruct r as [|c r]; [split; [done|by intros (?&?&?&[=]&_)]|]. rewrite Z.eqb_eq.
  split; [by intros E; exists c.2, c, r|by intros (?&?&?&[= <- <-]&?&_)].
Qed.

(** Inserting at the place the walk found keeps the chain sorted. *)
Lemma walk_insert k l b r d :
  chain_ok l → key_ok k → walk k l = (b, r) → at_key k r = false → chain_ok (b ++ (k, d) :: r).
Proof.
  intros [Hs Hok] Hk (->&Hb&Hr)%walk_spec Hat. apply Forall_app in Hok as [Hokb Hokr].
  apply StronglySorted_app in Hs as (Hbr&Hsb&Hsr).
  assert (Hkr : Forall (λ e, 0 < keycmp e.1 k) r).
  { destruct r as [|c r]; [constructor|]. apply Forall_cons in Hokr as [Hc Hokr]. simpl in Hat.
    apply Z.eqb_neq in Hat. apply StronglySorted_cons in Hsr as [Hsr _].
    assert (0 < keycmp c.1 k) by (apply keycmp_opp; [done..|lia]).
    constructor; [done|]. rewrite Forall_forall in *. intros e He.
    apply (keycmp_trans _ c.1); [by apply Hokr|done..|by apply Hsr|done]. }
  split; [|by apply Forall_app; split; [|constructor]].
  apply StronglySorted_app. split_and!; [|done|by apply StronglySorted_cons].
  rewrite Forall_forall in Hb. intros x y Hx [->|Hy]%elem_of_cons; [by apply Hb|by apply Hbr].
Qed.

Lemma chain_ok_drop b c r : chain_ok (b ++ c :: r) → chain_ok (b ++ r).
Proof.
  intros [Hs Hok]. apply Forall_app in Hok as [Hokb [Hc Hokr]%Forall_cons].
  apply StronglySorted_app in Hs as (Hbr&Hsb&[_ Hsr]%StronglySorted_cons).
  split; [|by apply Forall_app]. apply StronglySorted_app. split_and!; [|done..].
  intros x y Hx Hy. apply Hbr; [done|by apply list_elem_of_further].
Qed.

Lemma chain_ok_update b k (d d' : D) r : chain_ok (b ++ (k, d) :: r) → chain_ok (b ++ (k, d') :: r).
Proof.
  intros [Hs Hok]. apply Forall_app in Hok as [Hokb [Hc Hokr]%Forall_cons].
  apply StronglySorted_app in Hs as (Hbr&Hsb&[Hh Hsr]%StronglySorted_cons).
  split; [|by apply Forall_app; split; [|constructor]].
  apply StronglySorted_app. split_and!; [|done|by apply StronglySorted_cons].
  intros x y Hx [->|Hy]%elem_of_cons; [|by apply Hbr; [|apply list_elem_of_further]].
  by apply (Hbr x (k, d)); [|apply list_elem_of_here].
Qed.

(** *** Tables *)

Lemma chain_lookup t k :
  table_ok t → htable t !! Z.to_nat (hash_value (size t) k) = Some (chain t (hash_value (size t) k)).
Proof.
  intros (Hs&Hl&_). pose proof (hash_value_range (size t) k Hs). unfold chain, at_index. zcase; [lia|].
  destruct (lookup_lt_is_Some_2 (htable t) (Z.to_nat (hash_value (size t) k))) as [l ->]; [lia|done].
Qed.

Lemma chain_chain_ok t k : table_ok t → chain_ok (chain t (hash_value (size t) k)).
Proof. intros Ht. apply chain_lookup with (k := k) in Ht as Hl. by apply Ht in Hl as [? _]. Qed.

Lemma elem_of_entries t k d :
  table_ok t → (k, d) ∈ entries t ↔ (k, d) ∈ chain t (hash_value (size t) k).
Proof.
  intros Ht. unfold entries. rewrite list_elem_of_join. split.
  - intros (l&Hin&[i Hl]%list_elem_of_lookup_1). pose proof (chain_lookup t k Ht) as Hc.
    destruct Ht as (_&_&Ht). apply Ht in Hl as Hl'. destruct Hl' as [_ Hh].
    rewrite Forall_forall in Hh. specialize (Hh _ Hin). simpl in Hh.
    rewrite Hh, Nat2Z.id, Hl in Hc. injection Hc as Hc. by rewrite Hh, <- Hc.
  - intros Hin. eexists. split; [exact Hin|]. eapply list_elem_of_lookup_2. by apply chain_lookup.
Qed.

Lemma entries_keys_NoDup t : table_ok t → NoDup (entries t).*1.
Proof.
  intros (_&_&Ht). unfold entries. revert Ht. generalize (hash_value (size t)) as f.
  assert (Hgen : ∀ (ll : list (list (K * D))) (f : K → Z) (off : nat),
    (∀ i l, ll !! i = Some l → chain_ok l ∧ Forall (λ e, f e.1 = Z.of_nat (off + i)) l) →
    NoDup (mjoin ll).*1); [|intros f Ht; by apply (Hgen _ f 0%nat)].
  induction ll as [|l ll IH]; intros f off Hll; simpl; [constructor|].
  rewrite fmap_app. apply NoDup_app. split_and!.
  - apply chain_ok_keys_NoDup. by apply (Hll 0%nat).
  - intros k ([k1 d1]&->&H1)%list_elem_of_fmap ([k2 d2]&E&H2)%list_elem_of_fmap.
    simpl in E. subst k2. apply list_elem_of_join in H2 as (l'&Hin&[i Hl]%list_elem_of_lookup_1).
    destruct (Hll 0%nat l eq_refl) as [_ F1]. destruct (Hll (S i) l' Hl) as [_ F2].
    rewrite Forall_forall in F1, F2. specialize (F1 _ H1). specialize (F2 _ Hin). simpl in *. lia.
  - apply (IH f (S off)). intros i l' Hl. replace (S off + i)%nat with (off + S i)%nat by lia. by apply Hll.
Qed.

Lemma to_map_Some t k d :
  table_ok t → to_map (Some t) !! k = Some d ↔ (k, d) ∈ chain t (hash_value (size t) k).
Proof.
  intros Ht. rewrite <- elem_of_entries by done. simpl.
  symmetry. apply elem_of_list_to_map. by apply entries_keys_NoDup.
Qed.

Lemma set_chain_ok t k l n :
  table_ok t → chain_ok l → Forall (λ e, hash_value (size t) e.1 = hash_value (size t) k) l →
  table_ok (HT (set_chain t (hash_value (size t) k) l) (size t) n).
Proof.
  intros Ht Hl Hh. pose proof Ht as (Hs&Hlen&Hb). pose proof (hash_value_range (size t) k Hs).
  unfold set_chain, set_index. split_and!; simpl; [done|by rewrite length_insert|].
  intros i l' [(<-&<-&Hi)|[Hne Hl']]%list_lookup_insert_Some; [|by apply Hb].
  split; [done|]. by rewrite Z2Nat.id by lia.
Qed.

Lemma chain_set_chain t k l n k' :
  table_ok t →
  chain (HT (set_chain t (hash_value (size t) k) l) (size t) n) (hash_value (size t) k') =
  if decide (hash_value (size t) k' = hash_value (size t) k) then l
  else chain t (hash_value (size t) k').
Proof.
  intros (Hs&Hlen&_). pose proof (hash_value_range (size t) k Hs).
  pose proof (hash_value_range (size t) k' Hs). unfold chain, set_chain. simpl.
  destruct (decide _) as [->|Hne].
  - rewrite at_set_index_eq by lia. done.
  - rewrite at_set_index_ne by (lia || done). done.
Qed.

Lemma length_set_chain t k l n :
  table_ok t →
  Z.of_nat (length (entries (HT (set_chain t (hash_value (size t) k) l) (size t) n))) =
  Z.of_nat (length (entries t)) - Z.of_nat (length (chain t (hash_value (size t) k)))
  + Z.of_nat (length l).
Proof.
  intros Ht. pose proof (chain_lookup t k Ht) as Hc. revert Hc.
  generalize (chain t (hash_value (size t) k)) as l0. intros l0.
  unfold entries, set_chain, set_index; simpl.
  generalize (Z.to_nat (hash_value (size t) k)) as i. clear.
  induction (htable t) as [|c b IH]; intros [|i]; simpl; [done..| |].
  - intros [= ->]. rewrite !length_app. lia.
  - intros Hi. rewrite !length_app. specialize (IH _ Hi). lia.
Qed.

Lemma chain_hash t k :
  table_ok t →
  Forall (λ e, hash_value (size t) e.1 = hash_value (size t) k) (chain t (hash_value (size t) k)).
Proof.
  intros Ht. pose proof (chain_lookup t k Ht) as Hc. pose proof Ht as (Hs&_&Hb).
  apply Hb in Hc as [_ Hc]. by rewrite Z2Nat.id in Hc by (by apply hash_value_range).
Qed.

(** The map after one chain has been replaced. *)
Lemma to_map_set_chain t k l n (M : gmap K D) :
  table_ok t → chain_ok l → Forall (λ e, hash_value (size t) e.1 = hash_value (size t) k) l →
  (∀ k' d', hash_value (size t) k' = hash_value (size t) k → (k', d') ∈ l ↔ M !! k' = Some d') →
  (∀ k', hash_value (size t) k' ≠ hash_value (size t) k → M !! k' = to_map (Some t) !! k') →
  to_map (Some (HT (set_chain t (hash_value (size t) k) l) (size t) n)) = M.
Proof.
  intros Ht Hl Hh HM HM'. apply map_eq. intros k'. apply option_eq. intros d'.
  rewrite to_map_Some by (by apply set_chain_ok). cbn [size]. rewrite chain_set_chain by done.
  destruct (decide _) as [E|E]; [by apply HM|]. by rewrite HM', to_map_Some.
Qed.

(** *** Search *)

Lemma hashtab_search_correct h k :
  hashtab_wf h → key_ok k → hashtab_search h k = to_map h !! k.
Proof.
  destruct h as [t|]; [|intros _ _; symmetry; apply lookup_empty]. intros [Ht _] Hk. cbn [hashtab_search].
  apply option_eq. intros d. rewrite to_map_Some by done.
  destruct (walk k (chain t (hash_value (size t) k))) as [b r] eqn:Hw.
  rewrite (walk_elem _ _ _ _ d (chain_chain_ok t k Ht) Hk Hw). cbn [snd].
  destruct r as [|c r]; [split; [done|by intros (?&?&[=]&_)]|].
  destruct (Z.eqb_spec (keycmp k c.1) 0) as [E|E]; cbn [negb].
  - split; [by intros [= <-]; exists c, r|by intros (?&?&[= <- <-]&_&->)].
  - split; [done|]. by intros (?&?&[= <- <-]&?&_).
Qed.

(** *** Insert *)

Lemma insert_table t k d b r :
  table_ok t → key_ok k → walk k (chain t (hash_value (size t) k)) = (b, r) → at_key k r = false →
  let l := b ++ (k, d) :: r in
  let t' := HT (set_chain t (hash_value (size t) k) l) (size t) in
  (∀ n, table_ok (t' n)) ∧ (∀ n, to_map (Some (t' n)) = <[k := d]> (to_map (Some t))) ∧
  (∀ n, length (entries (t' n)) = S (length (entries t))).
Proof.
  intros Ht Hk Hw Hat l t'. pose proof (chain_chain_ok t k Ht) as Hc.
  pose proof (walk_insert _ _ _ _ d Hc Hk Hw Hat) as Hl.
  assert (Hperm : l ≡ₚ (k, d) :: chain t (hash_value (size t) k)).
  { apply walk_spec in Hw as (->&_&_). unfold l. by rewrite Permutation_middle. }
  assert (Hh : Forall (λ e, hash_value (size t) e.1 = hash_value (size t) k) l).
  { rewrite Hperm. constructor; [done|by apply chain_hash]. }
  split_and!; intros n.
  - by apply set_chain_ok.
  - apply to_map_set_chain; [done..| |].
    + intros k' d' E. rewrite Hperm, elem_of_cons. destruct (decide (k' = k)) as [->|Hne].
      * rewrite lookup_insert_eq. split; [|by intros [= ->]; left].
        intros [[= ->]|Hin]; [done|]. exfalso.
        assert (at_key k r = true); [|congruence]. by apply (walk_at_key _ _ _ _ Hc Hk Hw); exists d'.
      * rewrite lookup_insert_ne by done. rewrite to_map_Some by done. rewrite E.
        split; [by intros [[=]|?]|by right].
    + intros k' E. rewrite lookup_insert_ne; [done|]. by intros ->.
  - apply Nat2Z.inj. unfold t'. rewrite length_set_chain by done.
    rewrite Hperm. simpl. lia.
Qed.

Lemma hashtab_insert_correct h k d m :
  hashtab_wf h → key_ok k →
  let '(rc, h', m') := hashtab_insert h k d m in
  hashtab_wf h' ∧ (plenty m → plenty m') ∧
  ((rc = SEPOL_OK ∧ to_map h !! k = None ∧ to_map h' = <[k := d]> (to_map h)) ∨
   (rc = SEPOL_EEXIST ∧ is_Some (to_map h !! k) ∧ h' = h) ∨
   (rc = SEPOL_ENOMEM ∧ h' = h ∧ (plenty m → h = None))).
Proof.
  destruct h as [t|]; [|intros _ _; split_and!; [done..|right; right; done]].
  intros [Ht Hn] Hk. cbn [hashtab_insert].
  destruct (walk k (chain t (hash_value (size t) k))) as [b r] eqn:Hw.
  pose proof (walk_at_key _ _ _ _ (chain_chain_ok t k Ht) Hk Hw) as Hat.
  destruct (at_key k r) eqn:Hr.
  { split_and!; [done..|]. right. left. destruct (proj1 Hat eq_refl) as [d' Hd].
    split_and!; [done| |done]. exists d'. by apply to_map_Some. }
  pose proof (malloc_plenty m) as Hp. destruct (malloc m) as [ok m']. destruct ok; cbn [negb].
  - destruct (insert_table t k d b r Ht Hk Hw Hr) as (H1&H2&H3). split_and!.
    + split; [by apply H1|]. cbn [nel]. rewrite H3, Hn. unfold u32. rewrite Zplus_mod_idemp_l.
      f_equal. lia.
    + intros P. by destruct (Hp P) as (?&[= <-]&?).
    + left. split_and!; [done| |apply H2]. apply eq_None_not_Some. intros [d' Hd].
      apply to_map_Some in Hd; [|done]. assert (false = true) by (apply Hat; by exists d'). done.
  - split_and!; [done| |].
    + intros P. by destruct (Hp P) as (?&[=]&?).
    + right. right. split_and!; [done..|]. intros P. by destruct (Hp P) as (?&[=]&?).
Qed.

(** *** Remove *)

Lemma remove_table t k b c r :
  table_ok t → key_ok k → walk k (chain t (hash_value (size t) k)) = (b, c :: r) →
  keycmp k c.1 = 0 →
  let t' := HT (set_chain t (hash_value (size t) k) (b ++ r)) (size t) in
  (∀ n, table_ok (t' n)) ∧ (∀ n, to_map (Some (t' n)) = delete k (to_map (Some t))) ∧
  (∀ n, S (length (entries (t' n))) = length (entries t)) ∧
  c.1 = k ∧ to_map (Some t) !! k = Some c.2.
Proof.
  intros Ht Hk Hw Hat t'. pose proof (chain_chain_ok t k Ht) as Hc. pose proof (chain_hash t k Ht) as Hh.
  apply walk_spec in Hw as (E&_&_). rewrite E in Hc, Hh.
  assert (Hck : c.1 = k).
  { symmetry. apply keycmp_eq; [done| |done]. destruct Hc as [_ Hc].
    by apply Forall_app in Hc as [_ [? _]%Forall_cons]. }
  pose proof (chain_ok_drop _ _ _ Hc) as Hc'.
  assert (Hh' : Forall (λ e, hash_value (size t) e.1 = hash_value (size t) k) (b ++ r)).
  { apply Forall_app in Hh as [? [_ ?]%Forall_cons]. by apply Forall_app. }
  assert (Hperm : b ++ c :: r ≡ₚ c :: b ++ r) by (by rewrite Permutation_middle).
  assert (Hnd : c.1 ∉ (b ++ r).*1).
  { apply chain_ok_keys_NoDup in Hc. rewrite Hperm in Hc. by apply NoDup_cons in Hc as [? _]. }
  split_and!; [|intros n; apply to_map_set_chain; [done..| |]|intros n| |].
  - intros n. by apply set_chain_ok.
  - intros k' d' Ek. destruct (decide (k' = k)) as [->|Hne].
    + rewrite lookup_delete_eq. split; [|done]. intros Hin. destruct Hnd. rewrite Hck.
      apply list_elem_of_fmap. by exists (k, d').
    + rewrite lookup_delete_ne, to_map_Some by done. rewrite Ek, E, Hperm, elem_of_cons.
      split; [by right|]. intros [E'|?]; [|done]. subst c. simpl in Hck. done.
  - intros k' Ek. rewrite lookup_delete_ne; [done|]. by intros ->.
  - apply Nat2Z.inj. rewrite Nat2Z.inj_succ. unfold t'. rewrite length_set_chain by done.
    rewrite E, Hperm. simpl. lia.
  - done.
  - apply to_map_Some; [done|]. rewrite E, <- Hck. destruct c. apply elem_of_app. right. apply list_elem_of_here.
Qed.

Lemma hashtab_remove_correct h k :
  hashtab_wf h → key_ok k →
  let '(rc, h', e) := hashtab_remove h k in
  hashtab_wf h' ∧
  ((rc = SEPOL_OK ∧ (∃ d, to_map h !! k = Some d ∧ e = Some (k, d)) ∧ to_map h' = delete k (to_map h)) ∨
   (rc = SEPOL_ENOENT ∧ to_map h !! k = None ∧ h' = h ∧ e = None)).
Proof.
  destruct h as [t|]; [|intros _ _; split; [done|right; split; [done|]; split; [apply lookup_empty|done]]].
  intros [Ht Hn] Hk. pose proof (hashtab_search_correct (Some t) k (conj Ht Hn) Hk) as Hs.
  cbn [hashtab_remove]. cbn [hashtab_search] in Hs.
  destruct (walk k (chain t (hash_value (size t) k))) as [b r] eqn:Hw. cbn [snd] in Hs.
  destruct r as [|c r]; [split; [done|right; done]|].
  destruct (Z.eqb_spec (keycmp k c.1) 0) as [E|E]; cbn [negb] in *; [|split; [done|right; done]].
  destruct (remove_table t k b c r Ht Hk Hw E) as (H1&H2&H3&H4&H5).
  split; [split; [apply H1|]|left].
  - cbn [nel]. specialize (H3 (u32 (nel t - 1))). revert H3.
    generalize (length (entries (HT (set_chain t (hash_value (size t) k) (b ++ r)) (size t) (u32 (nel t - 1))))).
    intros n H3. rewrite Hn, <- H3. unfold u32. rewrite Zminus_mod_idemp_l. f_equal. lia.
  - split_and!; [done| |apply H2]. exists c.2. split; [done|]. rewrite <- H4. by destruct c.
Qed.

(** *** Replace

    The map is updated in both cases, but a fresh entry is not counted in
    [nel]: the invariant survives only where the key was present. *)
Lemma hashtab_replace_present h k d d0 m :
  hashtab_wf h → key_ok k → to_map h !! k = Some d0 →
  let '(rc, h', e, m') := hashtab_replace h k d m in
  rc = SEPOL_OK ∧ hashtab_wf h' ∧ to_map h' = <[k := d]> (to_map h) ∧ e = Some (k, d0) ∧ m' = m.
Proof.
  destruct h as [t|]; [|intros _ _ Hd; by rewrite to_map_None in Hd]. intros [Ht Hn] Hk Hd.
  pose proof (hashtab_search_correct (Some t) k (conj Ht Hn) Hk) as Hs. rewrite Hd in Hs.
  cbn [hashtab_replace]. cbn [hashtab_search] in Hs.
  destruct (walk k (chain t (hash_value (size t) k))) as [b r] eqn:Hw. cbn [snd] in Hs.
  destruct r as [|c r]; [done|].
  destruct (Z.eqb_spec (keycmp k c.1) 0) as [E|E]; cbn [negb] in *; [|done].
  pose proof (chain_chain_ok t k Ht) as Hc. pose proof (chain_hash t k Ht) as Hh.
  destruct (remove_table t k b c r Ht Hk Hw E) as (_&_&_&Hck&_). injection Hs as Hs.
  destruct c as [k0 d1]. simpl in Hck, Hs. subst k0 d1.
  apply walk_spec in Hw as (El&_&_). rewrite El in Hc, Hh.
  assert (Hh' : Forall (λ e, hash_value (size t) e.1 = hash_value (size t) k) (b ++ (k, d) :: r)).
  { apply Forall_app in Hh as [? [? ?]%Forall_cons]. apply Forall_app. split; [done|by constructor]. }
  pose proof (chain_ok_update _ _ _ d _ Hc) as Hc'.
  assert (Hp : ∀ d, b ++ (k, d) :: r ≡ₚ (k, d) :: b ++ r) by (intros; by rewrite Permutation_middle).
  assert (Hnd : k ∉ (b ++ r).*1).
  { apply chain_ok_keys_NoDup in Hc. rewrite Hp in Hc. by apply NoDup_cons in Hc as [? _]. }
  split_and!; [done|split; [by apply set_chain_ok|]| |done|done].
  - cbn [nel]. rewrite Hn. f_equal.
    rewrite length_set_chain, El, !Hp by done. simpl. lia.
  - apply to_map_set_chain; [done..| |].
    + intros k' d' Ek. rewrite Hp, elem_of_cons. destruct (decide (k' = k)) as [->|Hne].
      * rewrite lookup_insert_eq. split; [|by intros [= ->]; left].
        intros [[= ->]|Hin]; [done|]. destruct Hnd. apply list_elem_of_fmap. by exists (k, d').
      * rewrite lookup_insert_ne, to_map_Some by done. rewrite Ek, El, Hp, elem_of_cons.
        split; (intros [[= ]|?]; [done|by right]).
    + intros k' Ek. rewrite lookup_insert_ne; [done|]. by intros ->.
Qed.

(** *** Iteration *)

Lemma map_chain_app {S} (apply : K → D → M S Z) l1 l2 s :
  map_chain apply (l1 ++ l2) s =
  match map_chain apply l1 s with
  | Ret (ret, s) => if negb (ret =? 0) then Ret (ret, s) else map_chain apply l2 s
  | Exit z => Exit z
  | Undef => Undef
  end.
Proof.
  revert s. induction l1 as [|c l1 IH]; intros s; simpl; [done|]. unfold mbind, M_bind.
  destruct (apply c.1 c.2 s) as [[ret s']| |]; [|done..].
  destruct (ret =? 0) eqn:E; simpl; [apply IH|by rewrite E].
Qed.

Lemma map_buckets_chain {S} (apply : K → D → M S Z) b s :
  map_buckets apply b s = map_chain apply (mjoin b) s.
Proof.
  revert s. induction b as [|l b IH]; intros s; [done|]. cbn [map_buckets mjoin list_join].
  rewrite map_chain_app. unfold mbind, M_bind.
  destruct (map_chain apply l s) as [[ret s']| |]; [|done..]. by destruct (ret =? 0); simpl.
Qed.

(** [hashtab_map] visits every entry of the map once, and stops at the first
    one for which [apply] returns a non-zero value. *)
Lemma hashtab_map_correct {S} (apply : K → D → M S Z) h s :
  hashtab_wf h →
  ∃ l, l ≡ₚ map_to_list (to_map h) ∧ hashtab_map h apply s = map_chain apply l s.
Proof.
  destruct h as [t|]; [|exists []; split; [simpl; by rewrite map_to_list_empty|done]].
  intros [Ht _]. exists (entries t). split.
  - simpl. symmetry. apply map_to_list_to_map. by apply entries_keys_NoDup.
  - cbn [hashtab_map]. rewrite map_buckets_chain. unfold entries.
    rewrite firstn_all2; [done|]. destruct Ht as (_&->&_). done.
Qed.

(** *** Creation *)

Lemma entries_replicate n : mjoin (replicate n ([] : list (K * D))) = [].
Proof. induction n; [done|]. by simpl. Qed.

Lemma hashtab_create_correct sz m :
  0 < sz →
  let '(h, m') := hashtab_create (K := K) (D := D) sz m in
  hashtab_wf h ∧ to_map h = ∅ ∧ (plenty m → plenty m' ∧ is_Some h).
Proof.
  intros Hs. unfold hashtab_create. pose proof (malloc_plenty m) as Hp.
  destruct (malloc m) as [ok m1]. destruct ok; cbn [negb].
  2: { split; [done|]. split; [done|]. intros P. by destruct (Hp P) as (?&[=]&?). }
  pose proof (malloc_plenty m1) as Hp1. destruct (malloc m1) as [ok m2]. destruct ok; cbn [negb].
  2: { split; [done|]. split; [done|]. intros P.
       destruct (Hp P) as (?&[= <-]&P1). by destruct (Hp1 P1) as (?&[=]&?). }
  unfold hashtab_wf, to_map, entries; cbn [htable nel]. rewrite entries_replicate.
  split; [|split; [done|]].
  - split; [|done]. split; [done|]. split; [by simpl; rewrite length_replicate|].
    intros i l [-> _]%lookup_replicate. split; [|constructor]. split; constructor.
  - intros P. destruct (Hp P) as (?&[= <-]&P1). destruct (Hp1 P1) as (?&[= <-]&P2). done.
Qed.

(** *** [hashtab_map_remove_on_error]: the entries kept are those [apply]
    accepts. *)
Lemma remove_on_error_chain_spec (test : K → D → bool) l :
  let '(l', n, _) := remove_on_error_chain (λ k d s, (if test k d then 0 else -1, s)) (λ _ _ s, s) l () in
  l' = filter (λ e, test e.1 e.2 = true) l ∧ Z.of_nat (length l') = Z.of_nat (length l) - n.
Proof.
  induction l as [|[k d] l IH]; [done|]. cbn [remove_on_error_chain fst snd]. rewrite filter_cons.
  destruct (remove_on_error_chain _ _ l ()) as [[l' n] s'].
  destruct (test k d) eqn:Et; cbn [negb Z.eqb]; destruct IH as [-> IH].
  - rewrite decide_True by (simpl; congruence). split; [done|]. simpl length. lia.
  - rewrite decide_False by (simpl; congruence). split; [done|]. simpl length. lia.
Qed.

End refinement.

(** ** The three key types *)

Lemma land_size_range v sz : 0 < sz → 0 <= Z.land v (u32 (sz - 1)) < sz.
Proof.
  intros Hs. pose proof (u32_range (sz - 1)).
  assert (u32 (sz - 1) <= sz - 1) by (apply Z.mod_le; lia).
  assert (0 <= Z.land v (u32 (sz - 1))) by (apply Z.land_nonneg; lia).
  pose proof (land_le_r v (u32 (sz - 1))). lia.
Qed.

#[export] Instance sym_key_laws : HashKeyLaws string.
Proof.
  refine {| key_ok := λ _, True |}.
  - intros sz k Hs. by apply land_size_range.
  - apply strcmp_refl.
  - intros k1 k2 _ _. apply strcmp_eq.
  - intros k1 k2 _ _. simpl. unfold symcmp. rewrite (strcmp_opp k1 k2). lia.
  - intros k1 k2 k3 _ _ _. apply strcmp_gt_trans.
Defined.

#[export] Instance filename_trans_eq_dec : EqDecision filename_trans.
Proof. solve_decision. Defined.
#[export] Instance filename_trans_countable : Countable filename_trans.
Proof.
  by refine (inj_countable' (λ f, (ft_stype f, ft_ttype f, ft_tclass f, ft_name f))
    (λ '(a, b, c, d), FT a b c d) _); intros [].
Defined.
#[export] Instance range_trans_eq_dec : EqDecision range_trans.
Proof. solve_decision. Defined.
#[export] Instance range_trans_countable : Countable range_trans.
Proof.
  by refine (inj_countable' (λ f, (rt_source_type f, rt_target_type f, rt_target_class f))
    (λ '(a, b, c), RT a b c) _); intros [].
Defined.

(** The comparison subtracts 32-bit unsigned numbers and converts the
    difference to [int]: it is an order on values below 2^31 only. *)
Definition filename_trans_ok (f : filename_trans) : Prop :=
  small_key (ft_stype f) ∧ small_key (ft_ttype f) ∧ small_key (ft_tclass f).

Lemma filenametr_cmp_ok f1 f2 :
  filename_trans_ok f1 → filename_trans_ok f2 →
  filenametr_cmp f1 f2 =
    if negb (ft_stype f1 =? ft_stype f2) then ft_stype f1 - ft_stype f2 else
    if negb (ft_ttype f1 =? ft_ttype f2) then ft_ttype f1 - ft_ttype f2 else
    if negb (ft_tclass f1 =? ft_tclass f2) then ft_tclass f1 - ft_tclass f2 else
    strcmp (ft_name f1) (ft_name f2).
Proof.
  intros (H1&H2&H3) (H4&H5&H6). unfold filenametr_cmp. rewrite !s32_sub by done.
  zcase; simpl; lia || done.
Qed.

#[export] Instance filenametr_key_laws : HashKeyLaws filename_trans.
Proof.
  refine {| key_ok := filename_trans_ok |}.
  - intros sz k Hs. by apply land_size_range.
  - intros k. simpl. unfold filenametr_cmp. rewrite !Z.sub_diag. apply strcmp_refl.
  - intros [a b c s] [a' b' c' s'] H1 H2. simpl. rewrite filenametr_cmp_ok by done. simpl.
    zcase; simpl; try lia. intros <-%strcmp_eq. by subst.
  - intros [a b c s] [a' b' c' s'] H1 H2. simpl. rewrite !filenametr_cmp_ok by done. simpl.
    rewrite (strcmp_opp s s'). zcase; simpl; lia.
  - intros [a b c s] [a' b' c' s'] [a'' b'' c'' s''] H1 H2 H3. simpl. rewrite !filenametr_cmp_ok by done. simpl.
    pose proof (strcmp_gt_trans s s' s''). zcase; simpl; lia || auto.
Defined.

Definition range_trans_ok (r : range_trans) : Prop :=
  small_key (rt_source_type r) ∧ small_key (rt_target_type r) ∧ small_key (rt_target_class r).

#[export] Instance rangetr_key_laws : HashKeyLaws range_trans.
Proof.
  refine {| key_ok := range_trans_ok |}.
  - intros sz k Hs. by apply land_size_range.
  - intros k. simpl. unfold rangetr_cmp. by rewrite !Z.sub_diag.
  - intros [a b c] [a' b' c'] (?&?&?) (?&?&?). simpl in *. unfold rangetr_cmp; simpl.
    rewrite !s32_sub by done. zcase; simpl; intros; lia || (f_equal; lia).
  - intros [a b c] [a' b' c'] (?&?&?) (?&?&?). simpl in *. unfold rangetr_cmp; simpl.
    rewrite !s32_sub by done. zcase; simpl; lia.
  - intros [a b c] [a' b' c'] [a'' b'' c''] (?&?&?) (?&?&?) (?&?&?). simpl in *. unfold rangetr_cmp; simpl.
    rewrite !s32_sub by done. zcase; simpl; lia.
Defined.
