(* ===== verification/SymtabFile.v ===== *)
(** * Hash tables in a policy file

    Every symbol table is stored as its number of entries and the entries, in
    the order [hashtab_map] visits them, and rebuilt by insertions.  The chains
    of a table are sorted, so a table is determined by its size and the finite
    map it stands for ([hashtab_canonical]): what is rebuilt is not only a table
    with the same entries but the same table. *)

From S2P Require Import Prelude Policyfile Hashtab.

Section table_file.
Context {K D : Type} `{HL : HashKeyLaws K} `{Countable K}.
Implicit Types (t : hashtab_val K D) (h : hashtab_t K D) (k : K) (d : D) (l : list (K * D)).

(** ** Operations

    [r] reads one entry; [None] stands for an entry that is read and dropped. *)

Definition table_insert h k d : R (hashtab_t K D) :=
  '(rc, h) ← in_mem (λ m, let '(rc, h, m) := hashtab_insert h k d m in ((rc, h), m));
  _ ← guard_or (-1) (rc =? 0);
  mret h.

Definition entry_read (r : R (option (K * D))) h : R (hashtab_t K D) :=
  e ← r;
  match e with
  | Some (k, d) => table_insert h k d
  | None => mret h
  end.

Fixpoint table_read (r : R (option (K * D))) (n : nat) h : R (hashtab_t K D) :=
  match n with
  | O => mret h
  | S n' => h ← entry_read r h; table_read r n' h
  end.

(** The bytes of a table whose entries are stored as [enc]. *)
Definition table_entries h : list (K * D) := match h with Some t => entries t | None => [] end.

Definition table_bytes (enc : K → D → list Z) h : list Z := table_entries h ≫= λ e, enc e.1 e.2.

Definition table_size h : Z := match h with Some t => size t | None => 0 end.

(** ** A table is determined by its size and its map *)

Lemma chain_canonical l1 l2 : chain_ok l1 → chain_ok l2 → (∀ e, e ∈ l1 ↔ e ∈ l2) → l1 = l2.
Proof.
  revert l2. induction l1 as [|x1 l1 IH]; intros [|x2 l2] [S1 O1] [S2 O2] E; [done|..].
  - exfalso. apply (not_elem_of_nil x2), E. by left.
  - exfalso. apply (not_elem_of_nil x1), E. by left.
  - apply StronglySorted_cons in S1 as [F1 S1]. apply StronglySorted_cons in S2 as [F2 S2].
    apply Forall_cons in O1 as [K1 O1], O2 as [K2 O2]. rewrite Forall_forall in F1. rewrite Forall_forall in F2.
    assert (Hirr : ∀ x : K * D, ¬ 0 < keycmp x.1 x.1) by (intros x; rewrite keycmp_refl; lia).
    assert (x1 = x2) as ->.
    { pose proof (proj1 (E x1) (list_elem_of_here _ _)) as [|H1]%elem_of_cons; [done|].
      pose proof (proj2 (E x2) (list_elem_of_here _ _)) as [|H2]%elem_of_cons; [done|].
      specialize (F2 _ H1). specialize (F1 _ H2). apply keycmp_opp in F1; [lia|done..]. }
    f_equal. apply IH; [done..|]. intros e.
    assert (∀ l, (∀ x, x ∈ l → 0 < keycmp x.1 x2.1) → e ∈ l ↔ e ∈ x2 :: l ∧ e ≠ x2) as Htl.
    { intros l Fl. rewrite elem_of_cons. split; [|by intros [[|] ?]]. intros He. split; [by right|].
      intros ->. by apply (Hirr x2), Fl. }
    rewrite (Htl l1), (Htl l2), E by done. done.
Qed.

Lemma table_canonical t1 t2 :
  table_ok t1 → table_ok t2 → size t1 = size t2 → to_map (Some t1) = to_map (Some t2) → htable t1 = htable t2.
Proof.
  intros H1 H2 Es Em. pose proof H1 as (Hs1&Hl1&Hb1). pose proof H2 as (_&Hl2&Hb2).
  apply list_eq_same_length with (n := Z.to_nat (size t1)); [congruence|done|].
  intros i l1 l2 _ E1 E2. destruct (Hb1 i l1 E1) as [C1 F1], (Hb2 i l2 E2) as [C2 F2].
  apply chain_canonical; [done..|]. intros [k d]. rewrite Forall_forall in F1. rewrite Forall_forall in F2.
  assert (Hin : ∀ t l, table_ok t → htable t !! i = Some l →
            (∀ e, e ∈ l → hash_value (size t) e.1 = Z.of_nat i) →
            (k, d) ∈ l ↔ to_map (Some t) !! k = Some d ∧ hash_value (size t) k = Z.of_nat i).
  { intros t l Ht El Fl. rewrite to_map_Some by done. unfold chain, at_index.
    split.
    - intros He. specialize (Fl _ He). cbn in Fl. rewrite Fl. destruct (Z.ltb_spec (Z.of_nat i) 0); [lia|].
      by rewrite Nat2Z.id, El.
    - intros [He Hh]. rewrite Hh in He. destruct (Z.ltb_spec (Z.of_nat i) 0); [lia|].
      rewrite Nat2Z.id, El in He. done. }
  rewrite (Hin t1 l1), (Hin t2 l2), Es, Em by done. done.
Qed.

Lemma hashtab_canonical h1 h2 :
  hashtab_wf h1 → hashtab_wf h2 → is_Some h1 → is_Some h2 →
  table_size h1 = table_size h2 → to_map h1 = to_map h2 → h1 = h2.
Proof.
  destruct h1 as [t1|], h2 as [t2|]; intros W1 W2 I1 I2 Es Em; try by destruct I1, I2.
  destruct W1 as [T1 N1], W2 as [T2 N2]. pose proof (table_canonical t1 t2 T1 T2 Es Em) as E.
  unfold entries in *. rewrite E, <- N2 in N1. cbn in Es. destruct t1, t2. cbn in *. by subst.
Qed.

Lemma length_entries t : table_ok t → length (entries t) = base.size (to_map (Some t)).
Proof.
  intros Ht. cbn [to_map]. rewrite <- length_map_to_list, map_to_list_to_map; [done|by apply entries_keys_NoDup].
Qed.

Lemma elem_of_table_entries h k d : hashtab_wf h → (k, d) ∈ table_entries h ↔ to_map h !! k = Some d.
Proof.
  destruct h as [t|]; cbn; [|by rewrite lookup_empty; split; [intros ?%not_elem_of_nil|]].
  intros [Ht _]. rewrite elem_of_list_to_map by (by apply entries_keys_NoDup). done.
Qed.

(** ** Writing *)

Lemma emits_chain c (w : K → D → writer) (enc : K → D → list Z) l :
  Forall (λ e, emits c (w e.1 e.2) (enc e.1 e.2)) l →
  emits c (map_chain w l) (l ≫= λ e, enc e.1 e.2).
Proof.
  induction 1 as [|e l [M1 L1] Hl [M2 L2]]; [apply emits_nil|]. rewrite bind_cons. split.
  - intros d room out m. rewrite length_app. intros Hr. cbn [map_chain]. unfold mbind, M_bind.
    rewrite M1 by lia. cbn [Z.eqb negb POLICYDB_SUCCESS]. rewrite M2 by lia. rewrite app_assoc.
    by rewrite Nat2Z.inj_add, Z.sub_add_distr.
  - intros d n out m. rewrite length_app. intros H1 H2. cbn [map_chain]. unfold mbind, M_bind.
    rewrite L1 by lia. cbn [Z.eqb negb POLICYDB_SUCCESS]. rewrite L2 by lia.
    by rewrite Nat2Z.inj_add, Z.add_assoc.
Qed.

Lemma hashtab_map_entries {S} (w : K → D → M S Z) h s : hashtab_wf h → hashtab_map h w s = map_chain w (table_entries h) s.
Proof.
  destruct h as [t|]; [|done]. intros [(_&Hlen&_) _]. cbn [hashtab_map table_entries].
  rewrite map_buckets_chain, firstn_all2; [done|]. by rewrite Hlen.
Qed.

(** A callback that counts in a 32-bit variable. *)
Lemma map_counts (f : K → D → bool) delta h n :
  hashtab_wf h →
  hashtab_map h (λ k d (x : Z), Ret (0, if f k d then u32 (x + delta) else x)) n =
    Ret (0, if (length (List.filter (λ e, f e.1 e.2) (table_entries h)) =? 0)%nat then n
            else u32 (n + delta * Z.of_nat (length (List.filter (λ e, f e.1 e.2) (table_entries h))))).
Proof.
  intros Hw. rewrite hashtab_map_entries by done. revert n. induction (table_entries h) as [|e l IH]; intros n; [done|].
  cbn [map_chain List.filter]. unfold mbind, M_bind. cbn [Z.eqb negb]. rewrite IH. destruct (f e.1 e.2); [|done].
  cbn [length]. f_equal. f_equal. destruct (Nat.eqb_spec (length (List.filter (λ e, f e.1 e.2) l)) 0) as [->|_]; cbn [Nat.eqb].
  - f_equal. lia.
  - unfold u32. rewrite Z.add_mod_idemp_l by lia. f_equal. lia.
Qed.

Lemma emits_table c (w : K → D → writer) (enc : K → D → list Z) h :
  hashtab_wf h → (∀ k d, to_map h !! k = Some d → emits c (w k d) (enc k d)) →
  emits c (hashtab_map h w) (table_bytes enc h).
Proof.
  intros Hw He. assert (Hl : Forall (λ e, emits c (w e.1 e.2) (enc e.1 e.2)) (table_entries h)).
  { apply Forall_forall. intros [k d] Hin. by apply He, elem_of_table_entries. }
  eapply emits_ext; [intros s; by apply hashtab_map_entries|]. by apply emits_chain.
Qed.

(** ** Reading *)

Lemma insert_size h k d m :
  let '(_, h', _) := hashtab_insert h k d m in table_size h' = table_size h ∧ (is_Some h → is_Some h').
Proof.
  destruct h as [t|]; [|done]. cbn [hashtab_insert].
  destruct (walk k _) as [b r]. destruct (at_key k r); [done|]. by destruct (malloc m) as [[] m'].
Qed.

Lemma parses_insert c h k d :
  hashtab_wf h → is_Some h → key_ok k → to_map h !! k = None →
  parses_to c (table_insert h k d) []
    (λ h', hashtab_wf h' ∧ is_Some h' ∧ table_size h' = table_size h ∧ to_map h' = <[k := d]> (to_map h)).
Proof.
  intros Hw Hs Hk Hn. eapply (parses_to_bind _ _ _ [] [] (λ r, r.1 = 0 ∧ hashtab_wf r.2 ∧ is_Some r.2 ∧
    table_size r.2 = table_size h ∧ to_map r.2 = <[k := d]> (to_map h))).
  - intros rest out m Hm. unfold in_mem. cbn [fmem].
    pose proof (hashtab_insert_correct h k d m Hw Hk) as Hi. pose proof (insert_size h k d m) as Hz.
    destruct (hashtab_insert h k d m) as [[rc h'] m']. destruct Hi as (Hw'&Hp&Hi). exists (rc, h'), m'.
    split; [by apply Hp|]. split; [|done]. cbn [fst snd]. destruct Hz as [Hz1 Hz2].
    destruct Hi as [(->&_&Hm')|[(_&[? Hx]&_)|(_&_&Hx)]].
    + split_and!; auto.
    + by rewrite Hn in Hx.
    + rewrite Hx in Hs by done. by destruct Hs.
  - intros [rc h'] (E&Hr). cbn [fst snd] in *. subst rc.
    apply parses_guard_then; [done|]. by apply parses_to_ret.
Qed.

Section read.
Context (c : bool) (r : R (option (K * D))) (enc : K → D → list Z) (g : K → D → option D).

(** What the entries [l] add to a map. *)
Fixpoint added l (M : gmap K D) : gmap K D :=
  match l with
  | [] => M
  | e :: l' => added l' (match g e.1 e.2 with Some d => <[e.1 := d]> M | None => M end)
  end.

Lemma added_fresh l M k : k ∉ l.*1 → added l M !! k = M !! k.
Proof.
  revert M. induction l as [|[k' d'] l IH]; intros M; [done|]. cbn. rewrite not_elem_of_cons. intros [Hne Hn].
  rewrite IH by done. destruct (g k' d'); [|done]. by rewrite lookup_insert_ne by done.
Qed.

Lemma added_lookup l M k d : NoDup l.*1 → (k, d) ∈ l →
  added l M !! k = match g k d with Some d' => Some d' | None => M !! k end.
Proof.
  revert M. induction l as [|[k' d'] l IH]; intros M Hnd; [by intros ?%not_elem_of_nil|].
  cbn [fmap list_fmap fst] in Hnd. apply NoDup_cons in Hnd as [Hn Hnd]. cbn [added fst snd].
  intros [[= -> ->]|Hin]%elem_of_cons.
  - rewrite added_fresh by done. destruct (g k' d'); [by rewrite lookup_insert_eq|done].
  - rewrite IH by done. assert (k ≠ k').
    { intros ->. apply Hn. apply list_elem_of_fmap. by exists (k', d). }
    destruct (g k d); [done|]. destruct (g k' d'); [|done]. by rewrite lookup_insert_ne by done.
Qed.

Lemma parses_entries l : ∀ h,
  hashtab_wf h → is_Some h → NoDup l.*1 →
  Forall (λ e, parses c r (enc e.1 e.2) (pair e.1 <$> g e.1 e.2)) l →
  (∀ k d, (k, d) ∈ l → is_Some (g k d) → key_ok k ∧ to_map h !! k = None) →
  parses_to c (table_read r (length l) h) (l ≫= λ e, enc e.1 e.2)
    (λ h', hashtab_wf h' ∧ is_Some h' ∧ table_size h' = table_size h ∧ to_map h' = added l (to_map h)).
Proof.
  induction l as [|[k d] l IH]; intros h Hw Hs Hnd Hp Hfresh; [by apply parses_to_ret|].
  apply Forall_cons in Hp as [Hp1 Hp]. cbn [fmap list_fmap fst] in Hnd. apply NoDup_cons in Hnd as [Hn Hnd].
  rewrite bind_cons. cbn [fst snd length table_read added] in *.
  eapply (parses_to_bind _ _ _ _ _ (λ h', hashtab_wf h' ∧ is_Some h' ∧ table_size h' = table_size h ∧
     to_map h' = match g k d with Some d' => <[k := d']> (to_map h) | None => to_map h end)).
  - eapply parses_last; [exact Hp1|]. destruct (g k d) as [d'|] eqn:Eg; cbn [fmap option_fmap option_map].
    + destruct (Hfresh k d) as [Hk Hnone]; [by left|by rewrite Eg|]. by apply parses_insert.
    + by apply parses_to_ret.
  - intros h1 (Hw1&Hs1&Hz1&Hm1). intros rest out m Hm.
    destruct (IH h1 Hw1 Hs1 Hnd Hp) with rest out m as (h'&m'&?&(?&?&Ez&Em)&?); [|done|].
    { intros k' d' Hin Hg. destruct (Hfresh k' d') as [Hk Hnone]; [by right|done|]. split; [done|].
      rewrite Hm1. assert (k' ≠ k). { intros ->. apply Hn, list_elem_of_fmap. by exists (k, d'). }
      destruct (g k d); [by rewrite lookup_insert_ne by done|done]. }
    exists h', m'. rewrite Em, Ez, Hm1. done.
Qed.
End read.

(** An entry of a table that is read back unchanged. *)
Lemma added_all l M : NoDup l.*1 → added (λ _ d, Some d) l M = list_to_map l ∪ M.
Proof.
  intros Hnd. apply map_eq. intros k. rewrite lookup_union.
  destruct (list_to_map (M := gmap K D) l !! k) as [d|] eqn:E.
  - apply elem_of_list_to_map in E; [|done]. rewrite (added_lookup _ l M k d) by done.
    by destruct (M !! k).
  - apply not_elem_of_list_to_map in E. rewrite added_fresh by done. by destruct (M !! k).
Qed.

(** Reading the entries of a table into an empty one of its size gives the table. *)
Lemma parses_table c (r : R (option (K * D))) (enc : K → D → list Z) h h0 :
  hashtab_wf h → is_Some h → hashtab_wf h0 → is_Some h0 → to_map h0 = ∅ → table_size h0 = table_size h →
  (∀ k d, to_map h !! k = Some d → key_ok k ∧ parses c r (enc k d) (Some (k, d))) →
  parses c (table_read r (length (table_entries h)) h0) (table_bytes enc h) h.
Proof.
  intros Hw Hs Hw0 Hs0 Em Ez Hr. destruct h as [t|]; [|by destruct Hs].
  pose proof Hw as [Ht _]. pose proof (entries_keys_NoDup t Ht) as Hnd.
  assert (Hr' : ∀ e, e ∈ entries t → key_ok e.1 ∧ parses c r (enc e.1 e.2) (Some e)).
  { intros [k d] He. apply Hr. by apply (elem_of_table_entries (Some t)). }
  assert (Hf : Forall (λ e, parses c r (enc e.1 e.2) (pair e.1 <$> Some e.2)) (entries t)).
  { apply Forall_forall. intros [k d] He. by apply (Hr' (k, d)). }
  assert (Hfresh : ∀ k d, (k, d) ∈ entries t → is_Some (Some d) → key_ok k ∧ to_map h0 !! k = None).
  { intros k d He _. rewrite Em, lookup_empty. split; [|done]. by apply (Hr' (k, d)). }
  intros rest out m Hm.
  destruct (parses_entries c r enc (λ _ d, Some d) _ h0 Hw0 Hs0 Hnd Hf Hfresh rest out m Hm)
    as (h'&m'&Hm'&(Hw'&Hs'&Ez'&Em')&E).
  exists m'. split; [done|]. rewrite added_all, Em, (right_id_L ∅ (∪)) in Em' by done.
  assert (h' = Some t) as Eh; [|by rewrite Eh in E].
  apply hashtab_canonical; [done..|by rewrite Ez'|by rewrite Em'].
Qed.

(** *** Tables of which a format keeps a part

    [keep] are the entries that are written, and [g] is what reading makes of
    them; an entry for which [g] is [None] is dropped. *)

Definition kept_entries (keep : K → D → bool) h : list (K * D) :=
  List.filter (λ e, keep e.1 e.2) (table_entries h).

Definition stored_map (keep : K → D → bool) (g : K → D → option D) (M : gmap K D) : gmap K D :=
  map_imap (λ k d, if keep k d then g k d else None) M.

Lemma kept_bytes (keep : K → D → bool) (enc : K → D → list Z) l :
  l ≫= (λ e, if keep e.1 e.2 then enc e.1 e.2 else []) =
  List.filter (λ e, keep e.1 e.2) l ≫= λ e, enc e.1 e.2.
Proof.
  induction l as [|e l IH]; [done|]. rewrite bind_cons, IH. cbn [List.filter].
  by destruct (keep e.1 e.2); [rewrite bind_cons|].
Qed.

Lemma kept_lookup keep t k d : table_ok t →
  (k, d) ∈ kept_entries keep (Some t) ↔ to_map (Some t) !! k = Some d ∧ keep k d = true.
Proof.
  intros Ht. unfold kept_entries. rewrite elem_of_bfilter. cbn [table_entries to_map fst snd].
  rewrite elem_of_list_to_map; [done|]. by apply entries_keys_NoDup.
Qed.

Lemma added_stored keep g t M :
  table_ok t → added g (kept_entries keep (Some t)) M = stored_map keep g (to_map (Some t)) ∪ M.
Proof.
  intros Ht. assert (Hnd : NoDup (kept_entries keep (Some t)).*1) by by apply (NoDup_bfilter fst), entries_keys_NoDup.
  apply map_eq. intros k. unfold stored_map. rewrite lookup_union, map_lookup_imap.
  destruct (to_map (Some t) !! k) as [d|] eqn:E; cbn [mbind option_bind];
    [destruct (keep k d) eqn:Ek|].
  - rewrite (added_lookup g _ M k d); [|done|by apply kept_lookup].
    by destruct (g k d), (M !! k).
  - rewrite added_fresh; [by destruct (M !! k)|].
    intros ([k' d']&->&[E' ?]%kept_lookup)%list_elem_of_fmap; [|done]. cbn [fst] in *. congruence.
  - rewrite added_fresh; [by destruct (M !! k)|].
    intros ([k' d']&->&[E' ?]%kept_lookup)%list_elem_of_fmap; [|done]. cbn [fst] in *. congruence.
Qed.

Lemma parses_kept c (r : R (option (K * D))) (enc : K → D → list Z) keep g h h0 :
  hashtab_wf h → is_Some h → hashtab_wf h0 → is_Some h0 →
  (∀ k d, to_map h !! k = Some d → keep k d = true →
     parses c r (enc k d) (pair k <$> g k d) ∧ (is_Some (g k d) → key_ok k ∧ to_map h0 !! k = None)) →
  parses_to c (table_read r (length (kept_entries keep h)) h0)
    (table_bytes (λ k d, if keep k d then enc k d else []) h)
    (λ h', hashtab_wf h' ∧ is_Some h' ∧ table_size h' = table_size h0 ∧
           to_map h' = stored_map keep g (to_map h) ∪ to_map h0).
Proof.
  intros Hw Hs Hw0 Hs0 Hr. destruct h as [t|]; [|by destruct Hs]. pose proof Hw as [Ht _].
  rewrite <- added_stored by done. unfold table_bytes. rewrite kept_bytes.
  apply (parses_entries c r enc g (kept_entries keep (Some t))); [done..| | |].
  - by apply (NoDup_bfilter fst), entries_keys_NoDup.
  - apply Forall_forall. intros [k d] [Hl Hk]%kept_lookup; [|done]. by apply Hr.
  - intros k d [Hl Hk]%kept_lookup Hg; [|done]. by apply (Hr k d).
Qed.

(** ** Arbitrary bytes *)

Lemma sound_insert h k d :
  hashtab_wf h → key_ok k → sound (table_insert h k d) (λ h', hashtab_wf h' ∧ to_map h' = <[k := d]> (to_map h)).
Proof.
  intros Hw Hk. eapply (sound_bind _ _ (λ r, r.1 = 0 → hashtab_wf r.2 ∧ to_map r.2 = <[k := d]> (to_map h))).
  - apply sound_in_mem. intros m. pose proof (hashtab_insert_correct h k d m Hw Hk) as Hi.
    destruct (hashtab_insert h k d m) as [[rc h'] m']. cbn. intros ->.
    destruct Hi as (?&_&[(_&_&?)|[(?&_)|(?&_)]]); done.
  - intros [rc h'] Hr. apply sound_guard_bind. intros ->%Z.eqb_eq. by apply sound_ret, Hr.
Qed.

(** Every entry of the table read satisfies [P] when every entry read does. *)
Definition all_entries (P : K → D → Prop) h : Prop := map_Forall P (to_map h).

Lemma sound_table (r : R (option (K * D))) (P : K → D → Prop) n h :
  sound r (λ e, match e with Some (k, d) => key_ok k ∧ P k d | None => True end) →
  hashtab_wf h → all_entries P h →
  sound (table_read r n h) (λ h', hashtab_wf h' ∧ all_entries P h').
Proof.
  intros Hr. revert h. induction n as [|n IH]; intros h Hw Ha; [by apply sound_ret|].
  cbn [table_read]. eapply (sound_bind _ _ (λ h', hashtab_wf h' ∧ all_entries P h')).
  - eapply sound_bind; [exact Hr|]. intros [[k d]|] He; [|by apply sound_ret]. destruct He as [Hk Hp].
    eapply sound_mono; [by apply sound_insert|]. intros h' [Hw' Em]. split; [done|].
    unfold all_entries. rewrite Em. by apply map_Forall_insert_2.
  - intros h' [Hw' Ha']. by apply IH.
Qed.
End table_file.
