(* ===== verification/Avtab.v ===== *)
(** * Access vector tables (libsepol/src/avtab.c, sepol/policydb/avtab.h)

    A table of rules: a hash table whose chains are sorted by source type,
    target type and class.  [avtab_insert] keeps at most one rule per key and
    rule kind (extended permissions apart); [avtab_search_node] and
    [avtab_search_node_next] enumerate the rules of a key.

    A node pointer is the rest of its chain, from the node on (so [next] can be
    followed); stores through a node or datum pointer go by the node's address. *)

From S2P Require Import Prelude.

(** ** Data *)

Definition AVTAB_ALLOWED : Z := 0x0001.
Definition AVTAB_AUDITALLOW : Z := 0x0002.
Definition AVTAB_AUDITDENY : Z := 0x0004.
Definition AVTAB_NEVERALLOW : Z := 0x0080.
Definition AVTAB_AV : Z := Z.lor (Z.lor AVTAB_ALLOWED AVTAB_AUDITALLOW) AVTAB_AUDITDENY.
Definition AVTAB_TRANSITION : Z := 0x0010.
Definition AVTAB_MEMBER : Z := 0x0020.
Definition AVTAB_CHANGE : Z := 0x0040.
Definition AVTAB_TYPE : Z := Z.lor (Z.lor AVTAB_TRANSITION AVTAB_MEMBER) AVTAB_CHANGE.
Definition AVTAB_XPERMS_ALLOWED : Z := 0x0100.
Definition AVTAB_XPERMS_AUDITALLOW : Z := 0x0200.
Definition AVTAB_XPERMS_DONTAUDIT : Z := 0x0400.
Definition AVTAB_XPERMS_NEVERALLOW : Z := 0x0800.
Definition AVTAB_XPERMS : Z :=
  Z.lor (Z.lor AVTAB_XPERMS_ALLOWED AVTAB_XPERMS_AUDITALLOW) AVTAB_XPERMS_DONTAUDIT.
Definition AVTAB_ENABLED_OLD : Z := 0x80000000.
Definition AVTAB_ENABLED : Z := 0x8000.
Definition AVTAB_XPERMS_IOCTLFUNCTION : Z := 0x01.
Definition AVTAB_XPERMS_IOCTLDRIVER : Z := 0x02.
Definition MAX_AVTAB_HASH_BITS : Z := 20.
Definition MAX_AVTAB_HASH_BUCKETS : Z := Z.shiftl 1 MAX_AVTAB_HASH_BITS.

(** Four [uint16_t]. *)
Record avtab_key := AK {
  source_type : Z;
  target_type : Z;
  target_class : Z;
  specified : Z
}.

(** [perms]: eight [uint32_t]. *)
Record avtab_extended_perms := XP { xp_specified : Z; driver : Z; perms : list Z }.

(** A zeroed [avtab_extended_perms_t]. *)
Definition xperms_zero : avtab_extended_perms := XP 0 0 (replicate 8 0).

(** [xperms] is a pointer each node owns; NULL is [None]. *)
Record avtab_datum := AD { data : Z; xperms : option avtab_extended_perms }.

(** [naddr] is the address [malloc] returned for the node.  [merged] is only
    used by [avtab_write]; [parse_context] is set for the nodes read from a
    conditional. *)
Record avtab_node := AN { naddr : Z; key : avtab_key; datum : avtab_datum; merged : Z; parse_context : Z }.

(** [fresh] is the next address [malloc] hands out; it is no field of the C
    structure. *)
Record avtab := AVT {
  av_htable : option (list (list avtab_node));
  av_nel : Z;
  nslot : Z;
  mask : Z;
  fresh : Z
}.

(** ** Hashing *)

Definition rotl32 (v r : Z) : Z := Z.lor (u32 (Z.shiftl v r)) (Z.shiftr v (32 - r)).

(** The macro [mix]. *)
Definition mix (hash input : Z) : Z :=
  let v := u32 (input * 0xcc9e2d51) in
  let v := rotl32 v 15 in
  let v := u32 (v * 0x1b873593) in
  let hash := Z.lxor hash v in
  let hash := rotl32 hash 13 in
  u32 (hash * 5 + 0xe6546b64).

Definition avtab_hash (keyp : avtab_key) (msk : Z) : Z :=
  let hash := 0 in
  let hash := mix hash (target_class keyp) in
  let hash := mix hash (target_type keyp) in
  let hash := mix hash (source_type keyp) in
  let hash := Z.lxor hash (Z.shiftr hash 16) in
  let hash := u32 (hash * 0x85ebca6b) in
  let hash := Z.lxor hash (Z.shiftr hash 13) in
  let hash := u32 (hash * 0xc2b2ae35) in
  let hash := Z.lxor hash (Z.shiftr hash 16) in
  Z.land hash msk.

(** ** The walk along a chain that insertion and search share *)

(** [specified & ~(AVTAB_ENABLED | AVTAB_ENABLED_OLD)] *)
Definition not_enabled (spec : Z) : Z := Z.land spec (not32 (Z.lor AVTAB_ENABLED AVTAB_ENABLED_OLD)).

Definition same_types (k cur : avtab_key) : bool :=
  (source_type k =? source_type cur) && (target_type k =? target_type cur) &&
  (target_class k =? target_class cur).

Definition key_matches (k : avtab_key) (spec : Z) (cur : avtab_key) : bool :=
  same_types k cur && has_bits spec (specified cur).

(** The three tests that leave the loop: the rest of the chain is larger. *)
Definition key_before (k cur : avtab_key) : bool :=
  (source_type k <? source_type cur)
  || ((source_type k =? source_type cur) && (target_type k <? target_type cur))
  || ((source_type k =? source_type cur) && (target_type k =? target_type cur) &&
      (target_class k <? target_class cur)).

(** The nodes passed (the last is [prev]), the rest of the chain (its head is
    [cur]), and whether the loop left because [cur] matches. *)
Fixpoint avtab_walk (k : avtab_key) (spec : Z) (l : list avtab_node)
    : list avtab_node * list avtab_node * bool :=
  match l with
  | [] => ([], [], false)
  | cur :: next =>
      if key_matches k spec (key cur) then ([], l, true)
      else if key_before k (key cur) then ([], l, false)
      else let '(before, rest, found) := avtab_walk k spec next in (cur :: before, rest, found)
  end.

Definition av_chain (b : list (list avtab_node)) (hvalue : Z) : list avtab_node :=
  default [] (at_index b hvalue).

(** ** Insertion *)

(** The datum of the new node: a copy of [xperms] for an extended-permission
    rule. *)
Definition new_datum (k : avtab_key) (d : avtab_datum) : avtab_datum :=
  if has_bits (specified k) AVTAB_XPERMS
  then AD (data d) (Some (match xperms d with Some x => x | None => xperms_zero end))
  else d.

(** [before] and [rest] are the parts of the chain around the insertion point.
    The result is NULL or the new node. *)
Definition avtab_insert_node (h : avtab) (b : list (list avtab_node)) (hvalue : Z)
    (before rest : list avtab_node) (k : avtab_key) (d : avtab_datum) (m : mem)
    : option avtab_node * avtab * mem :=
  let '(ok, m) := malloc m in
  if negb ok then (None, h, m)
  else
    let '(ok, m) := if has_bits (specified k) AVTAB_XPERMS then malloc m else (true, m) in
    if negb ok then (None, h, m)
    else
      let newnode := AN (fresh h) k (new_datum k d) 0 0 in
      (Some newnode,
       AVT (Some (set_index b hvalue (before ++ newnode :: rest))) (u32 (av_nel h + 1))
           (nslot h) (mask h) (fresh h + 1), m).

Definition avtab_insert (h : avtab) (k : avtab_key) (d : avtab_datum) (m : mem) : Z * avtab * mem :=
  let spec := not_enabled (specified k) in
  match av_htable h with
  | None => (SEPOL_ENOMEM, h, m)
  | Some b =>
      let hvalue := avtab_hash k (mask h) in
      let '(before, rest, found) := avtab_walk k spec (av_chain b hvalue) in
      (* Extended permissions are not necessarily unique *)
      if found && negb (has_bits spec AVTAB_XPERMS) then (SEPOL_EEXIST, h, m)
      else
        let '(newnode, h', m) := avtab_insert_node h b hvalue before rest k d m in
        match newnode with
        | None => (SEPOL_ENOMEM, h', m)
        | Some _ => (0, h', m)
        end
  end.

Definition avtab_insert_nonunique (h : avtab) (k : avtab_key) (d : avtab_datum) (m : mem)
    : option avtab_node * avtab * mem :=
  let spec := not_enabled (specified k) in
  match av_htable h with
  | None => (None, h, m)
  | Some b =>
      let hvalue := avtab_hash k (mask h) in
      let '(before, rest, _) := avtab_walk k spec (av_chain b hvalue) in
      avtab_insert_node h b hvalue before rest k d m
  end.

(** ** Search *)

(** A node pointer: the chain from the node on; NULL is []. *)
Definition avtab_search_node (h : avtab) (k : avtab_key) : list avtab_node :=
  let spec := not_enabled (specified k) in
  match av_htable h with
  | None => []
  | Some b =>
      let '(_, rest, found) := avtab_walk k spec (av_chain b (avtab_hash k (mask h))) in
      if found then rest else []
  end.

(** The result points into the node. *)
Definition avtab_search (h : avtab) (k : avtab_key) : option avtab_node :=
  let spec := not_enabled (specified k) in
  match av_htable h with
  | None => None
  | Some b =>
      let '(_, rest, found) := avtab_walk k spec (av_chain b (avtab_hash k (mask h))) in
      if found then head rest else None
  end.

Definition avtab_search_node_next (nd : list avtab_node) (spec : Z) : list avtab_node :=
  match nd with
  | [] => []
  | cur :: next =>
      let spec := not_enabled spec in
      let '(_, rest, found) := avtab_walk (key cur) spec next in
      if found then rest else []
  end.

(** The loop
    [for (node = avtab_search_node(h, k); node; node = avtab_search_node_next(node, k->specified))]:
    the nodes it visits.  The fuel is the length of the remaining chain. *)
Fixpoint search_next_loop (fuel : nat) (spec : Z) (nd : list avtab_node) : list avtab_node :=
  match fuel, nd with
  | S fuel', cur :: _ => cur :: search_next_loop fuel' spec (avtab_search_node_next nd spec)
  | _, _ => []
  end.

Definition avtab_search_all (h : avtab) (k : avtab_key) : list avtab_node :=
  let nd := avtab_search_node h k in
  search_next_loop (length nd) (specified k) nd.

(** ** Stores through a node or datum pointer *)

Definition store_node (a : Z) (f : avtab_node → avtab_node) (n : avtab_node) : avtab_node :=
  if naddr n =? a then f n else n.

Definition avtab_store (h : avtab) (a : Z) (f : avtab_node → avtab_node) : avtab :=
  AVT (map (map (store_node a f)) <$> av_htable h) (av_nel h) (nslot h) (mask h) (fresh h).

Definition set_datum (d : avtab_datum) (n : avtab_node) : avtab_node :=
  AN (naddr n) (key n) d (merged n) (parse_context n).

Definition avtab_set_datum (h : avtab) (a : Z) (d : avtab_datum) : avtab := avtab_store h a (set_datum d).

(** ** The whole table *)

Definition avtab_destroy (h : avtab) : avtab :=
  match av_htable h with
  | None => h
  | Some _ => AVT None (av_nel h) 0 0 (fresh h)
  end.

Fixpoint avtab_map_chain {S} (apply : avtab_key → avtab_datum → S → Z * S)
    (l : list avtab_node) (s : S) : Z * S :=
  match l with
  | [] => (0, s)
  | cur :: next =>
      let '(ret, s) := apply (key cur) (datum cur) s in
      if negb (ret =? 0) then (ret, s) else avtab_map_chain apply next s
  end.

Fixpoint avtab_map_buckets {S} (apply : avtab_key → avtab_datum → S → Z * S)
    (b : list (list avtab_node)) (s : S) : Z * S :=
  match b with
  | [] => (0, s)
  | l :: b' =>
      let '(ret, s) := avtab_map_chain apply l s in
      if negb (ret =? 0) then (ret, s) else avtab_map_buckets apply b' s
  end.

Definition avtab_map {S} (apply : avtab_key → avtab_datum → S → Z * S) (h : avtab) (s : S) : Z * S :=
  avtab_map_buckets apply (take (Z.to_nat (nslot h)) (default [] (av_htable h))) s.

(** [nslot] and [mask] are left alone. *)
Definition avtab_init (h : avtab) : avtab := AVT None 0 (nslot h) (mask h) (fresh h).

(** [while (work) { work = work >> 1; shift++; }]: 32 iterations are enough. *)
Fixpoint alloc_shift (fuel : nat) (work shift : Z) : Z :=
  match fuel with
  | O => shift
  | S fuel' => if work =? 0 then shift else alloc_shift fuel' (Z.shiftr work 1) (shift + 1)
  end.

Definition avtab_alloc (h : avtab) (nrules : Z) (m : mem) : Z * avtab * mem :=
  if nrules =? 0 then (0, AVT (av_htable h) 0 0 0 (fresh h), m)
  else
    let shift := alloc_shift 32 nrules 0 in
    let shift := if 2 <? shift then shift - 2 else shift in
    let ns := u32 (Z.shiftl 1 shift) in
    let ns := if MAX_AVTAB_HASH_BUCKETS <? ns then MAX_AVTAB_HASH_BUCKETS else ns in
    let msk := ns - 1 in
    let '(ok, m) := malloc m in
    if negb ok then (-1, AVT None (av_nel h) (nslot h) (mask h) (fresh h), m)
    else (0, AVT (Some (replicate (Z.to_nat ns) [])) 0 ns msk (fresh h), m).

(** The numbers [avtab_hash_eval] prints. *)
Definition avtab_hash_eval_step (s : Z * Z) (l : list avtab_node) : Z * Z :=
  let '(slots_used, max_chain_len) := s in
  match l with
  | [] => s
  | _ => let chain_len := Z.of_nat (length l) in
         (slots_used + 1, if max_chain_len <? chain_len then chain_len else max_chain_len)
  end.

Definition avtab_hash_eval (h : avtab) : Z * Z * Z * Z :=
  let '(slots_used, max_chain_len) :=
    fold_left avtab_hash_eval_step (take (Z.to_nat (nslot h)) (default [] (av_htable h))) (0, 0) in
  (av_nel h, slots_used, nslot h, max_chain_len).

(** ** Abstraction and invariant *)

(** Every rule of the table. *)
Definition avtab_nodes (h : avtab) : list avtab_node := mjoin (default [] (av_htable h)).

Definition avkey_ok (k : avtab_key) : Prop :=
  0 <= source_type k < 2 ^ 16 ∧ 0 <= target_type k < 2 ^ 16 ∧ 0 <= target_class k < 2 ^ 16.

(** The order of the chains. *)
Definition ord (k : avtab_key) : Z :=
  (source_type k * 2 ^ 16 + target_type k) * 2 ^ 16 + target_class k.

Definition av_chain_ok (msk : Z) (i : nat) (l : list avtab_node) : Prop :=
  Forall (λ n, avkey_ok (key n) ∧ avtab_hash (key n) msk = Z.of_nat i) l ∧
  StronglySorted (λ x y, ord (key x) <= ord (key y)) l.

Definition avtab_wf (h : avtab) : Prop :=
  match av_htable h with
  | None => True
  | Some b =>
      0 <= mask h ∧ nslot h = mask h + 1 ∧ length b = Z.to_nat (nslot h) ∧
      ∀ i l, b !! i = Some l → av_chain_ok (mask h) i l
  end ∧
  NoDup (naddr <$> avtab_nodes h) ∧ Forall (λ n, naddr n < fresh h) (avtab_nodes h) ∧
  av_nel h = u32 (Z.of_nat (length (avtab_nodes h))).

(** ** Keys *)

Lemma same_types_ord k1 k2 : avkey_ok k1 → avkey_ok k2 → same_types k1 k2 = true ↔ ord k1 = ord k2.
Proof.
  intros (?&?&?) (?&?&?). unfold same_types, ord. rewrite !andb_true_iff, !Z.eqb_eq. lia.
Qed.

Lemma key_before_ord k1 k2 : avkey_ok k1 → avkey_ok k2 → key_before k1 k2 = true ↔ ord k1 < ord k2.
Proof.
  intros (?&?&?) (?&?&?). unfold key_before, ord.
  rewrite !orb_true_iff, !andb_true_iff, !Z.eqb_eq, !Z.ltb_lt. lia.
Qed.

Lemma same_types_refl k : same_types k k = true.
Proof. unfold same_types. by rewrite !Z.eqb_refl. Qed.

Lemma same_types_eq k1 k2 :
  same_types k1 k2 = true →
  source_type k1 = source_type k2 ∧ target_type k1 = target_type k2 ∧ target_class k1 = target_class k2.
Proof. unfold same_types. rewrite !andb_true_iff, !Z.eqb_eq. tauto. Qed.

Lemma same_types_hash k1 k2 msk : same_types k1 k2 = true → avtab_hash k1 msk = avtab_hash k2 msk.
Proof. intros (E1&E2&E3)%same_types_eq. unfold avtab_hash. by rewrite E1, E2, E3. Qed.

Lemma same_types_sym k1 k2 : same_types k1 k2 = same_types k2 k1.
Proof. unfold same_types. by rewrite (Z.eqb_sym (source_type k1)), (Z.eqb_sym (target_type k1)),
  (Z.eqb_sym (target_class k1)). Qed.

Lemma key_matches_types k spec c : key_matches k spec c = true → same_types k c = true.
Proof. unfold key_matches. by intros [? _]%andb_true_iff. Qed.

Lemma avtab_hash_range k msk : 0 <= msk → 0 <= avtab_hash k msk <= msk.
Proof.
  intros Hm. unfold avtab_hash. split; [apply Z.land_nonneg; by right|by apply land_le_r].
Qed.

(** The walk only looks at the three types of the key. *)
Lemma avtab_walk_types k1 k2 spec l : same_types k1 k2 = true → avtab_walk k1 spec l = avtab_walk k2 spec l.
Proof.
  intros (E1&E2&E3)%same_types_eq. induction l as [|c l IH]; [done|]. simpl.
  unfold key_matches, same_types, key_before. by rewrite E1, E2, E3, IH.
Qed.

(** ** The walk *)

Lemma avtab_walk_spec msk i k spec l b r f :
  av_chain_ok msk i l → avkey_ok k → avtab_walk k spec l = (b, r, f) →
  l = b ++ r ∧
  Forall (λ n, key_matches k spec (key n) = false ∧ ord (key n) <= ord k) b ∧
  (if f then ∃ c next, r = c :: next ∧ key_matches k spec (key c) = true
   else Forall (λ n, key_matches k spec (key n) = false ∧ ord k < ord (key n)) r) ∧
  Forall (λ n, ord k <= ord (key n)) r.
Proof.
  intros [Hf Hs] Hk. revert b r f. induction Hs as [|c l Hs IH Hc]; intros b r f; simpl.
  { intros [= <- <- <-]. split_and!; constructor. }
  apply Forall_cons in Hf as [[Hck _] Hf]. specialize (IH Hf).
  destruct (key_matches k spec (key c)) eqn:Hm.
  { intros [= <- <- <-]. apply key_matches_types in Hm as Ht.
    apply (same_types_ord _ _ Hk Hck) in Ht.
    split_and!; [done|constructor|by exists c, l|]. constructor; [lia|].
    eapply Forall_impl; [exact Hc|]. simpl. lia. }
  destruct (key_before k (key c)) eqn:Hb.
  { intros [= <- <- <-]. apply (key_before_ord _ _ Hk Hck) in Hb.
    assert (Hr : Forall (λ n, ord k < ord (key n)) (c :: l)).
    { constructor; [done|]. eapply Forall_impl; [exact Hc|]. simpl. lia. }
    split_and!; [done|constructor| |eapply Forall_impl; [exact Hr|]; simpl; lia].
    rewrite Forall_forall in *. intros n Hn. specialize (Hr n Hn). split; [|done].
    destruct (key_matches k spec (key n)) eqn:E; [|done]. apply key_matches_types in E.
    apply same_types_ord in E; [lia|done|]. apply elem_of_cons in Hn as [->|Hn]; [done|by apply Hf]. }
  destruct (avtab_walk k spec l) as [[b' r'] f'] eqn:E. intros [= <- <- <-].
  destruct (IH b' r' f' eq_refl) as (->&Hb'&Hr&Hr'). split_and!; [done| |done|done].
  constructor; [|done]. split; [done|].
  assert (¬ ord k < ord (key c)) by (rewrite <- key_before_ord by done; by rewrite Hb). lia.
Qed.

(** ** The table as a list of nodes *)

Lemma av_chain_lookup h b k :
  avtab_wf h → av_htable h = Some b →
  b !! Z.to_nat (avtab_hash k (mask h)) = Some (av_chain b (avtab_hash k (mask h))) ∧
  av_chain_ok (mask h) (Z.to_nat (avtab_hash k (mask h))) (av_chain b (avtab_hash k (mask h))).
Proof.
  intros [Hw _] Hb. rewrite Hb in Hw. destruct Hw as (Hm&Hn&Hl&Hc).
  pose proof (avtab_hash_range k (mask h) Hm) as Hr.
  assert (Hlk : b !! Z.to_nat (avtab_hash k (mask h)) = Some (av_chain b (avtab_hash k (mask h)))).
  { unfold av_chain, at_index. zcase; [lia|].
    destruct (lookup_lt_is_Some_2 b (Z.to_nat (avtab_hash k (mask h)))) as [l ->]; [lia|done]. }
  split; [done|by apply Hc].
Qed.

(** The nodes that match a key are all in its chain. *)
Lemma filter_matches h b k spec :
  avtab_wf h → av_htable h = Some b →
  filter (λ n, key_matches k spec (key n) = true) (avtab_nodes h) =
  filter (λ n, key_matches k spec (key n) = true) (av_chain b (avtab_hash k (mask h))).
Proof.
  intros Hw Hb. destruct (av_chain_lookup h b k Hw Hb) as [Hlk _].
  destruct Hw as [Hw _]. rewrite Hb in Hw. destruct Hw as (Hm&_&_&Hc).
  pose proof (avtab_hash_range k (mask h) Hm) as Hr. unfold avtab_nodes. rewrite Hb. cbn [default].
  assert (Hnil : ∀ i l, b !! i = Some l → i ≠ Z.to_nat (avtab_hash k (mask h)) →
    filter (λ n, key_matches k spec (key n) = true) l = []).
  { intros i l Hl Hi. apply Hc in Hl as [Hl _]. rewrite Forall_forall in Hl.
    apply filter_none. apply Forall_forall. intros n Hn Hk. apply Hl in Hn as [_ Hn].
    apply key_matches_types in Hk. apply (same_types_hash _ _ (mask h)) in Hk. lia. }
  clear Hc. revert Hnil Hlk. generalize (av_chain b (avtab_hash k (mask h))) as c.
  generalize (Z.to_nat (avtab_hash k (mask h))) as j. clear.
  induction b as [|l b IH]; intros j c Hnil Hc; [done|]. simpl. rewrite filter_app.
  destruct j as [|j]; simpl in Hc.
  - injection Hc as ->. assert (filter (λ n, key_matches k spec (key n) = true) (mjoin b) = []) as ->;
      [|by rewrite app_nil_r].
    assert (Hall : ∀ i l, b !! i = Some l → filter (λ n, key_matches k spec (key n) = true) l = []).
    { intros i l Hl. by apply (Hnil (S i)). }
    clear -Hall. induction b as [|l b IH]; [done|]. simpl. rewrite filter_app.
    rewrite (Hall 0%nat l), IH; [done| |done]. intros i l' Hl. by apply (Hall (S i)).
  - rewrite (Hnil 0%nat l) by done. apply (IH j); [|done]. intros i l' Hl Hi. apply (Hnil (S i)); [done|lia].
Qed.

(** ** Search *)

Lemma search_next_loop_spec msk i k spec l fuel :
  av_chain_ok msk i l → avkey_ok k → (length l <= fuel)%nat →
  (let '(_, r, f) := avtab_walk k (not_enabled spec) l in
   search_next_loop fuel spec (if f then r else [])) =
  filter (λ n, key_matches k (not_enabled spec) (key n) = true) l.
Proof.
  revert l. induction fuel as [|fuel IH]; intros l Hl Hk Hf.
  { destruct l; [done|simpl in Hf; lia]. }
  destruct (avtab_walk k (not_enabled spec) l) as [[b r] f] eqn:E.
  destruct (avtab_walk_spec _ _ _ _ _ _ _ _ Hl Hk E) as (->&Hb&Hr&_).
  rewrite filter_app. rewrite (filter_none _ b) by (eapply Forall_impl; [exact Hb|]; simpl; intros n [-> _]; done).
  simpl. destruct f; [|rewrite (filter_none _ r); [done|]; eapply Forall_impl; [exact Hr|]; simpl; by intros n [-> _]].
  destruct Hr as (c&next&->&Hc). rewrite filter_cons, decide_True by done. f_equal.
  rewrite <- (IH next).
  - unfold avtab_search_node_next. apply key_matches_types in Hc.
    rewrite (avtab_walk_types (key c) k) by (by rewrite same_types_sym).
    by destruct (avtab_walk k (not_enabled spec) next) as [[? ?] ?].
  - destruct Hl as [Hl1 Hl2]. apply Forall_app in Hl1 as [_ [_ Hl1]%Forall_cons].
    apply StronglySorted_app in Hl2 as (_&_&[_ Hl2]%StronglySorted_cons). done.
  - done.
  - rewrite length_app in Hf. simpl in Hf. lia.
Qed.

Lemma search_next_loop_fuel fuel1 fuel2 spec nd :
  (length nd <= fuel1)%nat → (length nd <= fuel2)%nat →
  search_next_loop fuel1 spec nd = search_next_loop fuel2 spec nd.
Proof.
  revert fuel2 nd. induction fuel1 as [|fuel1 IH]; intros [|fuel2] [|c nd] H1 H2;
    cbn [search_next_loop length] in *; try done; try lia.
  f_equal. assert (Hle : (length (avtab_search_node_next (c :: nd) spec) <= length nd)%nat).
  { simpl. assert (Hw : ∀ l, (length (avtab_walk (key c) (not_enabled spec) l).1.2 <= length l)%nat).
    { clear. induction l as [|a l IH]; [done|]. simpl. destruct (key_matches _ _ _); [done|].
      destruct (key_before _ _); [done|]. destruct (avtab_walk _ _ l) as [[b r] f]. simpl in *. lia. }
    specialize (Hw nd). destruct (avtab_walk _ _ nd) as [[b r] f]. simpl in *. destruct f; simpl; lia. }
  apply IH; lia.
Qed.

(** The search loop enumerates exactly the rules of the key that share a kind
    with [specified]. *)
Lemma avtab_search_all_correct h k :
  avtab_wf h → avkey_ok k →
  avtab_search_all h k =
  filter (λ n, key_matches k (not_enabled (specified k)) (key n) = true) (avtab_nodes h).
Proof.
  intros Hw Hk. unfold avtab_search_all, avtab_search_node. destruct (av_htable h) as [b|] eqn:Hb.
  2: { unfold avtab_nodes. by rewrite Hb. }
  rewrite (filter_matches _ b) by done. destruct (av_chain_lookup h b k Hw Hb) as [_ Hc].
  rewrite <- (search_next_loop_spec _ _ k (specified k) _ _ Hc Hk (le_n _)).
  destruct (avtab_walk k (not_enabled (specified k)) (av_chain b (avtab_hash k (mask h)))) as [[b0 r] f] eqn:E.
  destruct (avtab_walk_spec _ _ _ _ _ _ _ _ Hc Hk E) as (El&_&_&_).
  apply search_next_loop_fuel; [done|]. rewrite El, length_app. destruct f; simpl; lia.
Qed.

(** [avtab_search] finds a rule exactly when there is one. *)
Lemma avtab_search_correct h k :
  avtab_wf h → avkey_ok k →
  match avtab_search h k with
  | Some n => n ∈ avtab_nodes h ∧ key_matches k (not_enabled (specified k)) (key n) = true
  | None => ∀ n, n ∈ avtab_nodes h → key_matches k (not_enabled (specified k)) (key n) = false
  end.
Proof.
  intros Hw Hk. pose proof (filter_matches h) as Hfm. unfold avtab_search.
  destruct (av_htable h) as [b|] eqn:Hb.
  2: { unfold avtab_nodes. rewrite Hb. intros n Hn. by apply not_elem_of_nil in Hn. }
  specialize (Hfm b k (not_enabled (specified k)) Hw eq_refl).
  destruct (av_chain_lookup h b k Hw Hb) as [_ Hc].
  destruct (avtab_walk k (not_enabled (specified k)) (av_chain b (avtab_hash k (mask h)))) as [[b0 r] f] eqn:E.
  destruct (avtab_walk_spec _ _ _ _ _ _ _ _ Hc Hk E) as (El&Hb0&Hr&_). rewrite El in Hfm. destruct f.
  - destruct Hr as (c&next&->&Hm). simpl.
    assert (Hin : c ∈ filter (λ n, key_matches k (not_enabled (specified k)) (key n) = true) (avtab_nodes h)).
    { rewrite Hfm, list_elem_of_filter. split; [done|]. apply elem_of_app. right. apply list_elem_of_here. }
    apply list_elem_of_filter in Hin as [_ Hin]. done.
  - rewrite filter_app, (filter_none _ b0), (filter_none _ r) in Hfm.
    + intros n Hn. destruct (key_matches _ _ (key n)) eqn:Hm; [|done]. exfalso.
      assert (Hin : n ∈ filter (λ n, key_matches k (not_enabled (specified k)) (key n) = true) (avtab_nodes h))
        by (by apply list_elem_of_filter).
      rewrite Hfm in Hin. by apply not_elem_of_nil in Hin.
    + eapply Forall_impl; [exact Hr|]. simpl. by intros n [-> _].
    + eapply Forall_impl; [exact Hb0|]. simpl. by intros n [-> _].
Qed.

(** ** Insertion *)

Lemma mjoin_insert {A} (b : list (list A)) i l l' :
  b !! i = Some l → ∀ x, l' ≡ₚ x :: l → mjoin (<[i := l']> b) ≡ₚ x :: mjoin b.
Proof.
  intros Hi x Hx. revert i Hi. induction b as [|c b IH]; intros [|i] Hi; simpl in *; try done.
  - injection Hi as ->. by rewrite Hx.
  - rewrite (IH i) by done. by rewrite Permutation_middle.
Qed.

Lemma insert_chain_ok msk n k spec before rest found l :
  av_chain_ok msk (Z.to_nat (avtab_hash k msk)) l → 0 <= msk → avkey_ok k →
  avtab_walk k spec l = (before, rest, found) → key n = k →
  av_chain_ok msk (Z.to_nat (avtab_hash k msk)) (before ++ n :: rest).
Proof.
  intros Hl Hm Hk E <-. pose proof (avtab_walk_spec _ _ _ _ _ _ _ _ Hl Hk E) as (->&Hb&_&Hr).
  destruct Hl as [Hl Hs]. apply Forall_app in Hl as [Hl1 Hl2].
  apply StronglySorted_app in Hs as (Hbr&Hs1&Hs2). split.
  - apply Forall_app. split; [done|]. constructor; [|done]. split; [done|].
    pose proof (avtab_hash_range (key n) msk Hm). lia.
  - apply StronglySorted_app. split_and!; [|done|by apply StronglySorted_cons].
    rewrite Forall_forall in Hb. intros x y Hx [->|Hy]%elem_of_cons; [by apply Hb|by apply Hbr].
Qed.

(** The new node goes into its chain, in order, and nothing else changes. *)
Lemma insert_node_spec h b k d m before rest found :
  avtab_wf h → av_htable h = Some b → avkey_ok k →
  avtab_walk k (not_enabled (specified k)) (av_chain b (avtab_hash k (mask h))) = (before, rest, found) →
  let '(r, h', m') := avtab_insert_node h b (avtab_hash k (mask h)) before rest k d m in
  (plenty m → plenty m' ∧ is_Some r) ∧
  match r with
  | None => h' = h
  | Some n => n = AN (fresh h) k (new_datum k d) 0 0 ∧ avtab_wf h' ∧
      avtab_nodes h' ≡ₚ n :: avtab_nodes h ∧ fresh h' = fresh h + 1 ∧ is_Some (av_htable h')
  end.
Proof.
  intros Hw Hb Hk E. destruct (av_chain_lookup h b k Hw Hb) as [Hlk Hc].
  unfold avtab_insert_node. pose proof (malloc_plenty m) as Hp. destruct (malloc m) as [ok m1].
  destruct ok; cbn [negb]; [|split; [intros P; by destruct (Hp P) as (?&[=]&?)|done]].
  pose proof (malloc_plenty m1) as Hp1.
  destruct (if has_bits (specified k) AVTAB_XPERMS then malloc m1 else (true, m1)) as [ok m2] eqn:Em.
  assert (Hpl : plenty m → plenty m2 ∧ ok = true).
  { intros P. destruct (Hp P) as (?&[= <-]&P1). destruct (Hp1 P1) as (?&E1&P2).
    destruct (has_bits _ _); [rewrite E1 in Em; by injection Em as <- <-|by injection Em as <- <-]. }
  destruct ok; cbn [negb]; [|split; [intros P; by destruct (Hpl P)|done]].
  split; [intros P; by destruct (Hpl P)|]. split; [done|].
  set (n := AN (fresh h) k (new_datum k d) 0 0).
  assert (Hperm : mjoin (set_index b (avtab_hash k (mask h)) (before ++ n :: rest)) ≡ₚ n :: avtab_nodes h).
  { destruct (avtab_walk_spec _ _ _ _ _ _ _ _ Hc Hk E) as (El&_&_&_).
    assert (before ++ n :: rest ≡ₚ n :: av_chain b (avtab_hash k (mask h)))
      by (rewrite El; by rewrite Permutation_middle).
    unfold avtab_nodes. rewrite Hb. cbn [default]. unfold set_index. eapply mjoin_insert; [exact Hlk|done]. }
  split_and!; [|done|done|done].
  destruct Hw as (Ht&Hnd&Hfr&Hnel). rewrite Hb in Ht. destruct Ht as (Hm&Hn&Hl&Hch).
  unfold avtab_wf, avtab_nodes; cbn [av_htable default mask nslot fresh av_nel]. rewrite Hperm. split_and!.
  - done.
  - done.
  - unfold set_index. by rewrite length_insert.
  - intros i l [(<-&<-&Hi)|[Hne Hl']]%list_lookup_insert_Some; [|by apply Hch].
    by apply (insert_chain_ok _ n _ (not_enabled (specified k)) before rest found (av_chain b (avtab_hash k (mask h)))).
  - rewrite fmap_cons. apply NoDup_cons. split; [|done]. simpl.
    intros (x&Ex&Hx)%list_elem_of_fmap. rewrite Forall_forall in Hfr. specialize (Hfr _ Hx). simpl in Hfr. lia.
  - constructor; [simpl; lia|]. eapply Forall_impl; [exact Hfr|]. simpl. lia.
  - rewrite Hnel. unfold u32. rewrite Zplus_mod_idemp_l. f_equal. simpl length. lia.
Qed.

(** [avtab_insert]: a rule of the same key and kind makes it fail with EEXIST
    (extended permissions apart); otherwise the rule is added. *)
Lemma avtab_insert_correct h k d m :
  avtab_wf h → avkey_ok k →
  let '(rc, h', m') := avtab_insert h k d m in
  (plenty m → plenty m') ∧
  ((rc = 0 ∧ avtab_wf h' ∧ is_Some (av_htable h') ∧ fresh h' = fresh h + 1 ∧
    avtab_nodes h' ≡ₚ AN (fresh h) k (new_datum k d) 0 0 :: avtab_nodes h ∧
    (has_bits (not_enabled (specified k)) AVTAB_XPERMS = false → avtab_search h k = None)) ∨
   (rc = SEPOL_EEXIST ∧ h' = h ∧ is_Some (avtab_search h k)) ∨
   (rc = SEPOL_ENOMEM ∧ h' = h ∧ (plenty m → av_htable h = None))).
Proof.
  intros Hw Hk. unfold avtab_insert, avtab_search.
  destruct (av_htable h) as [b|] eqn:Hb; [|split; [done|right; right; done]].
  destruct (av_chain_lookup h b k Hw Hb) as [Hlk Hc].
  destruct (avtab_walk k (not_enabled (specified k)) (av_chain b (avtab_hash k (mask h)))) as [[bf r] f] eqn:E.
  destruct (f && negb _) eqn:Ef.
  { apply andb_true_iff in Ef as [-> _]. split; [done|]. right. left. split_and!; [done..|].
    destruct (avtab_walk_spec _ _ _ _ _ _ _ _ Hc Hk E) as (_&_&(c&next&->&_)&_). by exists c. }
  pose proof (insert_node_spec h b k d m bf r f Hw Hb Hk E) as Hi.
  destruct (avtab_insert_node h b (avtab_hash k (mask h)) bf r k d m) as [[[n|] h'] m'].
  - destruct Hi as [Hp (->&Hw'&Hperm&Hfr&Hs)]. split; [intros P; by apply Hp in P as [? _]|].
    left. split_and!; [done..|]. intros Hx. rewrite Hx, andb_true_r in Ef. by rewrite Ef.
  - destruct Hi as [Hp ->]. split; [intros P; by apply Hp in P as [? _]|].
    right. right. split_and!; [done..|]. intros P. by apply Hp in P as [_ [? [=]]].
Qed.

Lemma mjoin_split {A} (b : list (list A)) i l1 l2 x :
  b !! i = Some (l1 ++ l2) →
  ∃ m1 m2, mjoin b = m1 ++ m2 ∧ mjoin (<[i := l1 ++ x :: l2]> b) = m1 ++ x :: m2.
Proof.
  revert i. induction b as [|c b IH]; intros [|i] Hi; simpl in *; try done.
  - injection Hi as ->. exists l1, (l2 ++ mjoin b). by rewrite <- !app_assoc.
  - destruct (IH i Hi) as (m1&m2&E1&E2). exists (c ++ m1), m2. rewrite E1, E2. by rewrite <- !app_assoc.
Qed.

(** The rules that were there keep their order. *)
Lemma avtab_insert_split h k d m h' m' :
  avtab_wf h → avkey_ok k → avtab_insert h k d m = (0, h', m') →
  ∃ l1 l2, avtab_nodes h = l1 ++ l2 ∧ avtab_nodes h' = l1 ++ AN (fresh h) k (new_datum k d) 0 0 :: l2.
Proof.
  intros Hw Hk. unfold avtab_insert. destruct (av_htable h) as [b|] eqn:Hb; [|done].
  destruct (av_chain_lookup h b k Hw Hb) as [Hlk Hc].
  destruct (avtab_walk _ _ _) as [[bf r] f] eqn:E. destruct (f && negb _); [done|].
  unfold avtab_insert_node. destruct (malloc m) as [ok1 m1]. destruct ok1; cbn [negb]; [|done].
  destruct (if has_bits _ _ then malloc m1 else _) as [ok2 m2]. destruct ok2; cbn [negb]; [|done].
  intros [= <- _]. destruct (avtab_walk_spec _ _ _ _ _ _ _ _ Hc Hk E) as (El&_).
  unfold avtab_nodes. rewrite Hb. cbn [default av_htable]. unfold set_index. apply mjoin_split. by rewrite <- El.
Qed.

Lemma avtab_insert_nonunique_correct h k d m :
  avtab_wf h → avkey_ok k →
  let '(r, h', m') := avtab_insert_nonunique h k d m in
  (plenty m → plenty m') ∧
  match r with
  | Some n => n = AN (fresh h) k (new_datum k d) 0 0 ∧ avtab_wf h' ∧ avtab_nodes h' ≡ₚ n :: avtab_nodes h
  | None => h' = h ∧ (plenty m → av_htable h = None)
  end.
Proof.
  intros Hw Hk. unfold avtab_insert_nonunique.
  destruct (av_htable h) as [b|] eqn:Hb; [|done].
  destruct (avtab_walk k (not_enabled (specified k)) (av_chain b (avtab_hash k (mask h)))) as [[bf r] f] eqn:E.
  pose proof (insert_node_spec h b k d m bf r f Hw Hb Hk E) as Hi.
  destruct (avtab_insert_node h b (avtab_hash k (mask h)) bf r k d m) as [[[n|] h'] m'].
  - destruct Hi as [Hp (->&Hw'&Hperm&_&_)]. split; [intros P; by apply Hp in P as [? _]|done].
  - destruct Hi as [Hp ->]. split; [intros P; by apply Hp in P as [? _]|]. split; [done|].
    intros P. by apply Hp in P as [_ [? [=]]].
Qed.

(** ** Stores *)

Lemma avtab_store_nodes h a f :
  avtab_nodes (avtab_store h a f) = store_node a f <$> avtab_nodes h.
Proof.
  unfold avtab_nodes, avtab_store. cbn [av_htable]. destruct (av_htable h) as [b|]; [|done].
  simpl. induction b as [|l b IH]; [done|]. simpl. rewrite fmap_app, IH. done.
Qed.

Lemma store_node_key a d n : key (store_node a (set_datum d) n) = key n.
Proof. unfold store_node. by destruct (naddr n =? a). Qed.

(** The fields of a key that say where its rule is in the table. *)
Definition same_place (k k' : avtab_key) : Prop :=
  source_type k = source_type k' ∧ target_type k = target_type k' ∧ target_class k = target_class k'.

Lemma same_place_same k k' : same_place k k' →
  (avkey_ok k ↔ avkey_ok k') ∧ (∀ msk, avtab_hash k msk = avtab_hash k' msk) ∧ ord k = ord k'.
Proof. intros (E1&E2&E3). unfold avkey_ok, avtab_hash, ord. rewrite E1, E2, E3. by split_and!. Qed.

(** A store that changes neither the place nor the address of a node. *)
Lemma avtab_store_wf h a f :
  (∀ n, same_place (key (f n)) (key n) ∧ naddr (f n) = naddr n) → avtab_wf h → avtab_wf (avtab_store h a f).
Proof.
  intros Hf (Ht&Hnd&Hfr&Hnel). unfold avtab_wf. rewrite avtab_store_nodes.
  assert (Hkey : ∀ n, same_place (key (store_node a f n)) (key n)) by (intros n; unfold store_node; destruct (naddr n =? a); [apply Hf|done]).
  assert (Hadr : ∀ n, naddr (store_node a f n) = naddr n) by (intros n; unfold store_node; destruct (naddr n =? a); [apply Hf|done]).
  split_and!.
  - unfold avtab_store; cbn [av_htable mask nslot]. destruct (av_htable h) as [b|]; [|done]. simpl.
    destruct Ht as (Hm&Hn&Hl&Hc). split_and!; [done|done|by rewrite length_map|].
    intros i l Hl'. change (map ?f b) with (f <$> b) in Hl'. apply list_lookup_fmap_Some in Hl' as (l0&->&Hl0).
    apply Hc in Hl0 as [H1 H2]. split.
    + apply Forall_fmap. eapply Forall_impl; [exact H1|]. cbn [compose]. intros n [Hk Hh].
      destruct (same_place_same _ _ (Hkey n)) as (Ek&Eh&_). by rewrite Ek, Eh.
    + clear -H2 Hkey. induction H2 as [|x l Hs IH Hx]; [constructor|]. simpl. constructor; [done|].
      apply Forall_fmap. eapply Forall_impl; [exact Hx|]. cbn [compose]. intros n.
      destruct (same_place_same _ _ (Hkey n)) as (_&_&->), (same_place_same _ _ (Hkey x)) as (_&_&->). done.
  - rewrite <- list_fmap_compose. erewrite list_fmap_ext; [exact Hnd|].
    intros i n _. simpl. apply Hadr.
  - apply Forall_fmap. eapply Forall_impl; [exact Hfr|]. simpl. intros n. by rewrite Hadr.
  - rewrite length_fmap. done.
Qed.

Lemma avtab_set_datum_wf h a d : avtab_wf h → avtab_wf (avtab_set_datum h a d).
Proof. by apply avtab_store_wf. Qed.

(** A store to the newest node. *)
Lemma store_fresh_nodes (h h' : avtab) f n :
  avtab_wf h → naddr n = fresh h → avtab_nodes h' ≡ₚ n :: avtab_nodes h →
  avtab_nodes (avtab_store h' (fresh h) f) ≡ₚ f n :: avtab_nodes h.
Proof.
  intros (_&_&Hfr&_) En Hp. rewrite avtab_store_nodes, Hp. cbn [fmap list_fmap]. unfold store_node at 1.
  rewrite En, Z.eqb_refl. apply perm_skip. clear Hp. induction Hfr as [|x l Hx Hl IH]; [done|]. cbn [fmap list_fmap].
  rewrite IH. unfold store_node. by destruct (Z.eqb_spec (naddr x) (fresh h)); [lia|].
Qed.

Lemma avtab_set_datum_htable h a d : is_Some (av_htable (avtab_set_datum h a d)) ↔ is_Some (av_htable h).
Proof. unfold avtab_set_datum, avtab_store; cbn [av_htable]. by rewrite fmap_is_Some. Qed.

Lemma naddr_inj h n1 n2 :
  avtab_wf h → n1 ∈ avtab_nodes h → n2 ∈ avtab_nodes h → naddr n1 = naddr n2 → n1 = n2.
Proof.
  intros (_&Hnd&_&_) H1 H2 E. apply list_elem_of_lookup in H1 as [i H1], H2 as [j H2].
  assert (i = j) as ->; [|congruence]. eapply (NoDup_lookup _ i j (naddr n1) Hnd).
  - by rewrite list_lookup_fmap, H1.
  - by rewrite list_lookup_fmap, H2, E.
Qed.

(** The rules after a store through a datum pointer. *)
Lemma elem_of_set_datum h n d x :
  avtab_wf h → n ∈ avtab_nodes h →
  x ∈ avtab_nodes (avtab_set_datum h (naddr n) d) ↔
  x = set_datum d n ∨ (x ∈ avtab_nodes h ∧ x ≠ n).
Proof.
  intros Hw Hn. unfold avtab_set_datum. rewrite avtab_store_nodes, list_elem_of_fmap. unfold store_node. split.
  - intros (y&->&Hy). destruct (Z.eqb_spec (naddr y) (naddr n)) as [E|E].
    + left. f_equal. by eapply naddr_inj.
    + right. split; [done|]. by intros ->.
  - intros [->|[Hx Hne]].
    + exists n. by rewrite Z.eqb_refl.
    + exists x. destruct (Z.eqb_spec (naddr x) (naddr n)) as [E|E]; [|done].
      destruct Hne. by eapply naddr_inj.
Qed.

(** ** Uniqueness of the rules that are not extended permissions *)

Definition conflict (n1 n2 : avtab_node) : bool :=
  same_types (key n1) (key n2) && has_bits (not_enabled (specified (key n1))) (specified (key n2))
  && negb (has_bits (specified (key n1)) AVTAB_XPERMS) && negb (has_bits (specified (key n2)) AVTAB_XPERMS).

Definition avtab_unique (h : avtab) : Prop :=
  ∀ n1 n2, n1 ∈ avtab_nodes h → n2 ∈ avtab_nodes h → conflict n1 n2 = true → n1 = n2.

Lemma has_bits_not_enabled_sym a b : has_bits (not_enabled a) b = has_bits (not_enabled b) a.
Proof.
  unfold has_bits, not_enabled. do 2 f_equal. rewrite <- !Z.land_assoc, (Z.land_comm _ b), (Z.land_comm _ a).
  rewrite !Z.land_assoc. by rewrite (Z.land_comm a b).
Qed.

Lemma has_bits_land_not_enabled a : has_bits (not_enabled a) AVTAB_XPERMS = has_bits a AVTAB_XPERMS.
Proof. unfold has_bits, not_enabled. by rewrite <- Z.land_assoc. Qed.

Lemma conflict_sym n1 n2 : conflict n1 n2 = conflict n2 n1.
Proof.
  unfold conflict. rewrite same_types_sym, has_bits_not_enabled_sym.
  destruct (same_types _ _), (has_bits _ (specified (key n1))); simpl; [|done..]. apply andb_comm.
Qed.

Lemma avtab_insert_unique h k d m :
  avtab_wf h → avkey_ok k → avtab_unique h → avtab_unique (avtab_insert h k d m).1.2.
Proof.
  intros Hw Hk Hu. pose proof (avtab_insert_correct h k d m Hw Hk) as Hi.
  pose proof (avtab_search_correct h k Hw Hk) as Hs.
  destruct (avtab_insert h k d m) as [[rc h'] m']. cbn [fst snd].
  destruct Hi as [_ [(->&_&_&_&Hp&Hx)|[(->&->&_)|(->&->&_)]]]; [|done..].
  assert (Hnew : ∀ n, n ∈ avtab_nodes h → conflict (AN (fresh h) k (new_datum k d) 0 0) n = false).
  { intros n Hn. unfold conflict. cbn [key]. rewrite has_bits_land_not_enabled in Hx.
    destruct (has_bits (specified k) AVTAB_XPERMS); [by rewrite andb_false_r|].
    rewrite Hx in Hs by done. specialize (Hs n Hn). unfold key_matches in Hs. by rewrite Hs. }
  intros n1 n2. rewrite Hp, !elem_of_cons. intros [->|H1] [->|H2] Hc; [done|..|by apply Hu].
  - by rewrite Hnew in Hc.
  - by rewrite conflict_sym, Hnew in Hc.
Qed.

Lemma avtab_set_datum_unique h n d :
  avtab_wf h → n ∈ avtab_nodes h → avtab_unique h → avtab_unique (avtab_set_datum h (naddr n) d).
Proof.
  intros Hw Hn Hu n1 n2. rewrite !elem_of_set_datum by done.
  intros [->|[H1 Hne1]] [->|[H2 Hne2]] Hc; [done| | |by apply Hu].
  - destruct Hne2. symmetry. by apply Hu.
  - destruct Hne1. by apply Hu.
Qed.

(** ** Allocation of the slots *)

(** The loop of [avtab_alloc] ends with the number of bits of [nrules]. *)
Lemma alloc_shift_log2 fuel work shift :
  0 < work < 2 ^ Z.of_nat fuel → alloc_shift fuel work shift = shift + Z.log2 work + 1.
Proof.
  revert work shift. induction fuel as [|fuel IH]; intros work shift Hw; [simpl in Hw; lia|].
  cbn [alloc_shift]. zcase; [lia|]. rewrite Nat2Z.inj_succ, Z.pow_succ_r in Hw by lia.
  pose proof (Z.log2_shiftr work 1 ltac:(lia)) as Hlog.
  assert (Hdiv : Z.shiftr work 1 = work / 2) by (by rewrite Z.shiftr_div_pow2 by lia).
  destruct (decide (work = 1)) as [->|Hne]; [destruct fuel; simpl; lia|].
  assert (0 < work / 2) by (apply Z.div_str_pos; lia).
  assert (1 <= Z.log2 work) by (apply (Z.log2_le_mono 2); lia).
  rewrite IH; [lia|]. rewrite Hdiv. split; [lia|]. apply Z.div_lt_upper_bound; lia.
Qed.

(** The number of slots [avtab_alloc] chooses. *)
Definition alloc_nslot (nrules : Z) : Z :=
  let bits := Z.log2 nrules + 1 in 2 ^ Z.min 20 (if 2 <? bits then bits - 2 else bits).

Lemma alloc_nslot_eq nrules :
  0 < nrules < 2 ^ 32 →
  let shift := alloc_shift 32 nrules 0 in
  let shift := if 2 <? shift then shift - 2 else shift in
  let ns := u32 (Z.shiftl 1 shift) in
  (if MAX_AVTAB_HASH_BUCKETS <? ns then MAX_AVTAB_HASH_BUCKETS else ns) = alloc_nslot nrules.
Proof.
  intros Hn. rewrite (alloc_shift_log2 32) by done. unfold alloc_nslot.
  replace (0 + Z.log2 nrules + 1) with (Z.log2 nrules + 1) by lia.
  pose proof (Z.log2_nonneg nrules). assert (Z.log2 nrules < 32) by (apply Z.log2_lt_pow2; lia).
  set (s := if 2 <? Z.log2 nrules + 1 then _ else _).
  assert (Hs : 1 <= s < 32) by (unfold s; zcase; lia). cbv zeta.
  rewrite Z.shiftl_1_l, u32_small by (split; [lia|apply Z.pow_lt_mono_r; lia]).
  change MAX_AVTAB_HASH_BUCKETS with (2 ^ 20).
  destruct (Z.ltb_spec (2 ^ 20) (2 ^ s)) as [H1|H1].
  - apply Z.pow_lt_mono_r_iff in H1; [|lia..]. by rewrite Z.min_l by lia.
  - apply Z.pow_le_mono_r_iff in H1; [|lia..]. by rewrite Z.min_r by lia.
Qed.

Lemma mjoin_replicate_nil {A} n : mjoin (replicate n ([] : list A)) = [].
Proof. induction n; [done|]. by simpl. Qed.

(** A table of rules is allocated with a power of two of slots, at most 2^20. *)
Lemma avtab_alloc_correct h nrules m :
  0 <= nrules < 2 ^ 32 → av_htable h = None →
  let '(rc, h', m') := avtab_alloc h nrules m in
  (plenty m → plenty m' ∧ rc = 0) ∧
  ((rc = 0 ∧ avtab_wf h' ∧ avtab_nodes h' = [] ∧ fresh h' = fresh h ∧
    (0 < nrules → nslot h' = alloc_nslot nrules ∧ is_Some (av_htable h'))) ∨
   (rc = -1 ∧ av_htable h' = None)).
Proof.
  intros Hn Hh. unfold avtab_alloc. destruct (Z.eqb_spec nrules 0) as [->|Hn0].
  { split; [done|]. left. rewrite Hh. split_and!; [done| |done|done|lia].
    unfold avtab_wf, avtab_nodes. simpl. split_and!; [done|constructor|constructor|done]. }
  cbv zeta. rewrite alloc_nslot_eq by lia. pose proof (malloc_plenty m) as Hp.
  destruct (malloc m) as [ok m']. destruct ok; cbn [negb].
  - split; [intros P; by destruct (Hp P) as (?&[= <-]&?)|]. left.
    assert (Hpos : 0 < alloc_nslot nrules).
    { unfold alloc_nslot. apply Z.pow_pos_nonneg; [lia|]. pose proof (Z.log2_nonneg nrules). zcase; lia. }
    revert Hpos. generalize (alloc_nslot nrules) as ns. intros ns Hpos.
    assert (Hnil : avtab_nodes (AVT (Some (replicate (Z.to_nat ns) [])) 0 ns (ns - 1) (fresh h)) = [])
      by apply mjoin_replicate_nil.
    split; [done|]. split; [|split; [done|]; split; [done|]; intros _; split; [done|by eexists]].
    unfold avtab_wf. rewrite Hnil. cbn [av_htable mask nslot av_nel].
    split; [|split; [constructor|]; split; [constructor|done]].
    split; [lia|]. split; [lia|]. split; [by rewrite length_replicate|].
    intros i l [-> _]%lookup_replicate. split; constructor.
  - split; [intros P; by destruct (Hp P) as (?&[=]&?)|]. by right.
Qed.

(** ** [avtab_map] visits every rule once *)

Lemma avtab_map_chain_app {S} (apply : avtab_key → avtab_datum → S → Z * S) l1 l2 s :
  avtab_map_chain apply (l1 ++ l2) s =
  let '(ret, s) := avtab_map_chain apply l1 s in
  if negb (ret =? 0) then (ret, s) else avtab_map_chain apply l2 s.
Proof.
  revert s. induction l1 as [|c l1 IH]; intros s; simpl; [done|].
  destruct (apply (key c) (datum c) s) as [ret s']. destruct (ret =? 0) eqn:E; simpl; [apply IH|by rewrite E].
Qed.

Lemma avtab_map_correct {S} (apply : avtab_key → avtab_datum → S → Z * S) h s :
  avtab_wf h → avtab_map apply h s = avtab_map_chain apply (avtab_nodes h) s.
Proof.
  intros [Ht _]. unfold avtab_map, avtab_nodes.
  assert (take (Z.to_nat (nslot h)) (default [] (av_htable h)) = default [] (av_htable h)) as ->.
  { destruct (av_htable h) as [b|]; [|by destruct (Z.to_nat (nslot h))].
    destruct Ht as (_&_&Hl&_). apply firstn_all2. simpl. lia. }
  generalize (default [] (av_htable h)) as b. clear. intros b. revert s.
  induction b as [|l b IH]; intros s; [done|]. cbn [avtab_map_buckets mjoin list_join].
  rewrite avtab_map_chain_app. destruct (avtab_map_chain apply l s) as [ret s']. by destruct (ret =? 0); simpl.
Qed.
