(* ===== verification/Context.v ===== *)
(** * Security contexts and MLS levels (sepol/policydb/mls_types.h, context.h)

    A level is a sensitivity and a category set; a context is a user, a role, a
    type and a range of two levels.  The dominance relation is proved to be a
    partial order on well-formed levels. *)

From S2P Require Import Prelude Ebitmap.

(** ** Data *)

Record mls_level := ML { sens : Z; cat : ebitmap }.

(** [level[2]]: low == level[0], high == level[1]. *)
Record mls_range := MR { level0 : mls_level; level1 : mls_level }.

Record context_struct := CTX { user : Z; role : Z; type : Z; range : mls_range }.

(** ** Levels *)

Definition mls_level_init : mls_level := ML 0 ebitmap_init.

(** The level after the call: the categories are freed and everything zeroed. *)
Definition mls_level_destroy (level : mls_level) : mls_level := mls_level_init.

(** The status, [dst] after the call. *)
Definition mls_level_cpy (src : mls_level) (m : mem) : Z * mls_level * mem :=
  let '(rc, c, m) := ebitmap_cpy (cat src) m in
  if rc <? 0 then (-1, ML (sens src) c, m) else (0, ML (sens src) c, m).

Definition mls_level_eq (l1 l2 : mls_level) : bool :=
  (sens l1 =? sens l2) && ebitmap_cmp (cat l1) (cat l2).

Definition mls_level_dom (l1 l2 : mls_level) : bool :=
  (sens l2 <=? sens l1) && ebitmap_contains (cat l1) (cat l2).

Definition mls_level_incomp (l1 l2 : mls_level) : bool :=
  negb (mls_level_dom l1 l2) && negb (mls_level_dom l2 l1).

Definition mls_level_between (l1 l2 l3 : mls_level) : bool :=
  mls_level_dom l1 l2 && mls_level_dom l3 l1.

(** ** Ranges *)

Definition mls_range_contains (r1 r2 : mls_range) : bool :=
  mls_level_dom (level0 r2) (level0 r1) && mls_level_dom (level1 r1) (level1 r2).

Definition mls_range_init : mls_range := MR mls_level_init mls_level_init.

Definition mls_range_destroy (r : mls_range) : mls_range :=
  MR (mls_level_destroy (level0 r)) (mls_level_destroy (level1 r)).

Definition mls_range_cpy (dst src : mls_range) (m : mem) : Z * mls_range * mem :=
  let '(rc, l0, m) := mls_level_cpy (level0 src) m in
  if rc <? 0 then (-1, MR l0 (level1 dst), m)
  else
    let '(rc, l1, m) := mls_level_cpy (level1 src) m in
    if rc <? 0 then (-1, MR (mls_level_destroy l0) l1, m)
    else (0, MR l0 l1, m).

Definition mls_range_eq (r1 r2 : mls_range) : bool :=
  mls_level_eq (level0 r1) (level0 r2) && mls_level_eq (level1 r1) (level1 r2).

(** ** Contexts *)

Definition set_range (c : context_struct) (r : mls_range) : context_struct :=
  CTX (user c) (role c) (type c) r.

Definition mls_context_init (c : context_struct) : context_struct := set_range c mls_range_init.

Definition mls_context_cpy (dst src : context_struct) (m : mem) : Z * context_struct * mem :=
  let '(rc, r, m) := mls_range_cpy (range dst) (range src) m in
  if rc <? 0 then (-1, set_range dst r, m) else (0, set_range dst r, m).

(** Sets both levels of [dst] to [l]: the common body of
    [mls_context_cpy_low] and [mls_context_cpy_high]. *)
Definition cpy_both (dst : context_struct) (l : mls_level) (m : mem) : Z * context_struct * mem :=
  let '(rc, c0, m) := ebitmap_cpy (cat l) m in
  let lvl0 := ML (sens l) c0 in
  if negb (rc =? 0) then (rc, set_range dst (MR lvl0 (level1 (range dst))), m)
  else
    let '(rc, c1, m) := ebitmap_cpy (cat l) m in
    let lvl1 := ML (sens l) c1 in
    if negb (rc =? 0) then (rc, set_range dst (MR (ML (sens l) (ebitmap_destroy c0)) lvl1), m)
    else (rc, set_range dst (MR lvl0 lvl1), m).

Definition mls_context_cpy_low (dst src : context_struct) (m : mem) : Z * context_struct * mem :=
  cpy_both dst (level0 (range src)) m.

Definition mls_context_cpy_high (dst src : context_struct) (m : mem) : Z * context_struct * mem :=
  cpy_both dst (level1 (range src)) m.

Definition mls_context_cmp (c1 c2 : context_struct) : bool :=
  mls_level_eq (level0 (range c1)) (level0 (range c2)) &&
  mls_level_eq (level1 (range c1)) (level1 (range c2)).

Definition mls_context_destroy (c : context_struct) : context_struct :=
  mls_context_init (set_range c (mls_range_destroy (range c))).

Definition context_init : context_struct := CTX 0 0 0 mls_range_init.

Definition context_cpy (dst src : context_struct) (m : mem) : Z * context_struct * mem :=
  mls_context_cpy (CTX (user src) (role src) (type src) (range dst)) src m.

Definition context_destroy (c : context_struct) : context_struct :=
  mls_context_destroy (CTX 0 0 0 (range c)).

Definition context_cmp (c1 c2 : context_struct) : bool :=
  (user c1 =? user c2) && (role c1 =? role c2) && (type c1 =? type c2) && mls_context_cmp c1 c2.

(** ** Well-formedness *)

Definition level_wf (l : mls_level) : Prop := ebitmap_wf (cat l).
Definition range_wf (r : mls_range) : Prop := level_wf (level0 r) ∧ level_wf (level1 r).
Definition context_wf (c : context_struct) : Prop := range_wf (range c).

(** ** Equality and dominance *)

Lemma mls_level_eq_spec l1 l2 : mls_level_eq l1 l2 = true ↔ l1 = l2.
Proof.
  unfold mls_level_eq. rewrite andb_true_iff, Z.eqb_eq, ebitmap_cmp_eq.
  destruct l1, l2; simpl. split; [by intros [-> ->]|by intros [=]].
Qed.

Lemma mls_range_eq_spec r1 r2 : mls_range_eq r1 r2 = true ↔ r1 = r2.
Proof.
  unfold mls_range_eq. rewrite andb_true_iff, !mls_level_eq_spec.
  destruct r1, r2; simpl. split; [by intros [-> ->]|by intros [=]].
Qed.

(** [context_cmp] is equality of contexts. *)
Lemma context_cmp_spec c1 c2 : context_cmp c1 c2 = true ↔ c1 = c2.
Proof.
  unfold context_cmp. change (mls_context_cmp c1 c2) with (mls_range_eq (range c1) (range c2)).
  rewrite !andb_true_iff, !Z.eqb_eq, mls_range_eq_spec. destruct c1, c2; simpl.
  split; [by intros [[[-> ->] ->] ->]|by intros [=]].
Qed.

Lemma mls_level_dom_spec l1 l2 :
  level_wf l1 → level_wf l2 →
  mls_level_dom l1 l2 = true ↔
  sens l2 <= sens l1 ∧ ∀ j, ebitmap_get_bit (cat l2) j = true → ebitmap_get_bit (cat l1) j = true.
Proof.
  intros H1 H2. unfold mls_level_dom.
  by rewrite andb_true_iff, Z.leb_le, ebitmap_contains_correct.
Qed.

Lemma mls_level_dom_refl l : level_wf l → mls_level_dom l l = true.
Proof. intros H. apply mls_level_dom_spec; [done..|]. split; [lia|done]. Qed.

Lemma mls_level_dom_trans l1 l2 l3 :
  level_wf l1 → level_wf l2 → level_wf l3 →
  mls_level_dom l1 l2 = true → mls_level_dom l2 l3 = true → mls_level_dom l1 l3 = true.
Proof.
  intros H1 H2 H3. rewrite !mls_level_dom_spec by done. intros [Hs Hc] [Hs' Hc'].
  split; [lia|]. intros j Hj. auto.
Qed.

Lemma mls_level_dom_antisym l1 l2 :
  level_wf l1 → level_wf l2 →
  mls_level_dom l1 l2 = true → mls_level_dom l2 l1 = true → l1 = l2.
Proof.
  intros H1 H2. rewrite !mls_level_dom_spec by done. intros [Hs Hc] [Hs' Hc'].
  destruct l1 as [s1 c1], l2 as [s2 c2]; simpl in *. f_equal; [lia|].
  apply ebitmap_ext; [done..|]. intros j. apply eq_bool_prop_intro.
  split; intros ?%Is_true_eq_true; apply Is_true_eq_left; auto.
Qed.

(** Exactly one of: equal, strictly dominating, strictly dominated, incomparable. *)
Lemma mls_level_incomp_spec l1 l2 :
  mls_level_incomp l1 l2 = true ↔ mls_level_dom l1 l2 = false ∧ mls_level_dom l2 l1 = false.
Proof. unfold mls_level_incomp. rewrite andb_true_iff, !negb_true_iff. done. Qed.

Lemma mls_range_contains_trans r1 r2 r3 :
  range_wf r1 → range_wf r2 → range_wf r3 →
  mls_range_contains r1 r2 = true → mls_range_contains r2 r3 = true → mls_range_contains r1 r3 = true.
Proof.
  intros [] [] []. unfold mls_range_contains. rewrite !andb_true_iff. intros [] [].
  split; [apply (mls_level_dom_trans _ (level0 r2))|apply (mls_level_dom_trans _ (level1 r2))]; done.
Qed.

(** ** Copies *)

Lemma mls_level_cpy_correct src m :
  (plenty m → plenty (mls_level_cpy src m).2) ∧
  ((mls_level_cpy src m).1 = (0, src) ∨ (¬ plenty m ∧ (mls_level_cpy src m).1.1 = -1)).
Proof.
  unfold mls_level_cpy. pose proof (ebitmap_cpy_correct (cat src) m) as [Hp Hc].
  destruct (ebitmap_cpy (cat src) m) as [[rc c] m']; simpl in *.
  destruct Hc as [[= -> ->]|[Hn [= -> ->]]]; simpl; (split; [done|]); [left|right]; [by destruct src|done].
Qed.

Lemma mls_range_cpy_correct dst src m :
  (plenty m → plenty (mls_range_cpy dst src m).2) ∧
  ((mls_range_cpy dst src m).1 = (0, src) ∨ (¬ plenty m ∧ (mls_range_cpy dst src m).1.1 = -1)).
Proof.
  unfold mls_range_cpy. pose proof (mls_level_cpy_correct (level0 src) m) as [Hp Hc].
  destruct (mls_level_cpy (level0 src) m) as [[rc l0] m1]; simpl in *.
  destruct Hc as [[= -> ->]|[Hn ->]]; simpl; [|split; [done|by right]].
  pose proof (mls_level_cpy_correct (level1 src) m1) as [Hp1 Hc1].
  destruct (mls_level_cpy (level1 src) m1) as [[rc l1] m2]; simpl in *.
  destruct Hc1 as [[= -> ->]|[Hn ->]]; simpl; (split; [by auto|]); [left|right].
  - by destruct src.
  - split; [|done]. intros P. by apply Hn, Hp.
Qed.

(** A successful copy is the source context itself. *)
Lemma context_cpy_correct dst src m :
  (plenty m → plenty (context_cpy dst src m).2) ∧
  ((context_cpy dst src m).1 = (0, src) ∨ (¬ plenty m ∧ (context_cpy dst src m).1.1 = -1)).
Proof.
  unfold context_cpy, mls_context_cpy. cbn [range].
  pose proof (mls_range_cpy_correct (range dst) (range src) m) as [Hp Hc].
  destruct (mls_range_cpy (range dst) (range src) m) as [[rc r] m']; simpl in *.
  destruct Hc as [[= -> ->]|[Hn ->]]; simpl; (split; [done|]); [left|right; done].
  unfold set_range. by destruct src.
Qed.

Lemma cpy_both_correct dst l m :
  (plenty m → plenty (cpy_both dst l m).2) ∧
  ((cpy_both dst l m).1 = (0, set_range dst (MR l l)) ∨ (¬ plenty m ∧ (cpy_both dst l m).1.1 = - ENOMEM)).
Proof.
  unfold cpy_both. pose proof (ebitmap_cpy_correct (cat l) m) as [Hp Hc].
  destruct (ebitmap_cpy (cat l) m) as [[rc c0] m1]; simpl in *.
  destruct Hc as [[= -> ->]|[Hn [= -> ->]]]; simpl; [|split; [done|by right]].
  pose proof (ebitmap_cpy_correct (cat l) m1) as [Hp1 Hc1].
  destruct (ebitmap_cpy (cat l) m1) as [[rc c1] m2]; simpl in *.
  destruct Hc1 as [[= -> ->]|[Hn [= -> ->]]]; simpl; (split; [by auto|]); [left|right].
  - by destruct l.
  - split; [|done]. intros P. by apply Hn, Hp.
Qed.
