(* ===== verification/Sidtab.v ===== *)
(** * The table of security identifiers (libsepol/src/sidtab.c)

    A table has a fixed number of chains of (SID, context), each in increasing
    order of SIDs.  It implements a finite map from SIDs to contexts
    ([sid_map]), whose lemmas come from the chained tables of Hashtab.v; the
    SIDs that [sepol_sidtab_context_to_sid] assigns are fresh, and a context
    keeps its SID. *)

From S2P Require Import Prelude Ebitmap Hashtab Context.

(** flask.h, flask_types.h *)
Definition SEPOL_SECSID_NULL : Z := 0.
Definition SECINITSID_UNLABELED : Z := 3.
Definition UINT_MAX : Z := 2 ^ 32 - 1.

Definition SIDTAB_HASH_BITS : Z := 7.
Definition SIDTAB_SIZE : Z := Z.shiftl 1 SIDTAB_HASH_BITS.
Definition SIDTAB_HASH (sid : Z) : Z := Z.land sid (SIDTAB_SIZE - 1).

(** ** Data *)

(** A node: its [sid] and its [context]. *)
Abbreviation sidtab_node := (Z * context_struct)%type.

(** [htable] is NULL before the initialisation and after the destruction. *)
Record sidtab := ST {
  st_htable : option (list (list sidtab_node));
  st_nel : Z;
  next_sid : Z;
  shutdown : Z
}.

(** [s->htable[hvalue]], and the table after a change of that chain. *)
Definition bucket (b : list (list sidtab_node)) (hvalue : Z) : list sidtab_node := default [] (at_index b hvalue).

(** The loop [while (cur != NULL && sid > cur->sid)]: the nodes it passes and
    the rest of the chain, whose head is [cur]. *)
Fixpoint sid_walk (sid : Z) (l : list sidtab_node) : list sidtab_node * list sidtab_node :=
  match l with
  | [] => ([], [])
  | cur :: next =>
      if cur.1 <? sid then let '(before, rest) := sid_walk sid next in (cur :: before, rest) else ([], l)
  end.

(** [cur && sid == cur->sid] *)
Definition at_sid (sid : Z) (rest : list sidtab_node) : bool :=
  match rest with cur :: _ => sid =? cur.1 | [] => false end.

(** ** Operations *)

Definition sepol_sidtab_init (s : sidtab) (m : mem) : Z * sidtab * mem :=
  let '(ok, m) := malloc m in
  if negb ok then (- ENOMEM, ST None (st_nel s) (next_sid s) (shutdown s), m)
  else (0, ST (Some (replicate (Z.to_nat SIDTAB_SIZE) [])) 0 1 0, m).

(** The fresh node is not initialised before [context_cpy]. *)
Definition sepol_sidtab_insert (s : sidtab) (sid : Z) (context : context_struct) (m : mem) : Z * sidtab * mem :=
  match st_htable s with
  | None => (- ENOMEM, s, m)
  | Some b =>
      let hvalue := SIDTAB_HASH sid in
      let '(before, rest) := sid_walk sid (bucket b hvalue) in
      if at_sid sid rest then (- EEXIST, s, m)
      else
        let '(ok, m) := malloc m in
        if negb ok then (- ENOMEM, s, m)
        else
          let '(rc, c, m) := context_cpy context_init context m in
          if negb (rc =? 0) then (- ENOMEM, s, m)
          else
            (0, ST (Some (set_index b hvalue (before ++ (sid, c) :: rest))) (u32 (st_nel s + 1))
                   (if next_sid s <=? sid then u32 (sid + 1) else next_sid s) (shutdown s), m)
  end.

Definition sepol_sidtab_remove (s : sidtab) (sid : Z) : Z * sidtab :=
  match st_htable s with
  | None => (- ENOENT, s)
  | Some b =>
      let hvalue := SIDTAB_HASH sid in
      let '(before, rest) := sid_walk sid (bucket b hvalue) in
      match rest with
      | cur :: next =>
          if negb (sid =? cur.1) then (- ENOENT, s)
          else (0, ST (Some (set_index b hvalue (before ++ next))) (u32 (st_nel s - 1)) (next_sid s) (shutdown s))
      | [] => (- ENOENT, s)
      end
  end.

(** The entry for exactly this SID. *)
Definition sid_lookup (b : list (list sidtab_node)) (sid : Z) : option context_struct :=
  match (sid_walk sid (bucket b (SIDTAB_HASH sid))).2 with
  | cur :: _ => if negb (sid =? cur.1) then None else Some cur.2
  | [] => None
  end.

(** Invalid SIDs are remapped to the unlabeled SID. *)
Definition sepol_sidtab_search (s : sidtab) (sid : Z) : option context_struct :=
  match st_htable s with
  | None => None
  | Some b =>
      match sid_lookup b sid with
      | Some c => Some c
      | None => sid_lookup b SECINITSID_UNLABELED
      end
  end.

(** [apply] may change the context it is given, and a state of its own. *)
Section iteration.
Context {S : Type}.
Variable apply : Z → context_struct → S → outcome (Z * context_struct * S).

Fixpoint sid_map_chain (l : list sidtab_node) (s : S) : outcome (Z * list sidtab_node * S) :=
  match l with
  | [] => mret (0, [], s)
  | cur :: next =>
      '(ret, c, s) ← apply cur.1 cur.2 s;
      if negb (ret =? 0) then mret (ret, (cur.1, c) :: next, s)
      else '(ret, next, s) ← sid_map_chain next s; mret (ret, (cur.1, c) :: next, s)
  end.

Fixpoint sid_map_buckets (b : list (list sidtab_node)) (s : S) : outcome (Z * list (list sidtab_node) * S) :=
  match b with
  | [] => mret (0, [], s)
  | l :: b' =>
      '(ret, l, s) ← sid_map_chain l s;
      if negb (ret =? 0) then mret (ret, l :: b', s)
      else '(ret, b', s) ← sid_map_buckets b' s; mret (ret, l :: b', s)
  end.

Definition sepol_sidtab_map (t : sidtab) (s : S) : outcome (Z * sidtab * S) :=
  match st_htable t with
  | None => mret (0, t, s)
  | Some b =>
      '(ret, b, s) ← sid_map_buckets b s;
      mret (ret, ST (Some b) (st_nel t) (next_sid t) (shutdown t), s)
  end.

(** The nodes kept, the number of nodes removed. *)
Fixpoint sid_filter_chain (l : list sidtab_node) (s : S) : outcome (list sidtab_node * Z * S) :=
  match l with
  | [] => mret ([], 0, s)
  | cur :: next =>
      '(ret, c, s) ← apply cur.1 cur.2 s;
      '(next, n, s) ← sid_filter_chain next s;
      if negb (ret =? 0) then mret (next, n + 1, s) else mret ((cur.1, c) :: next, n, s)
  end.

Fixpoint sid_filter_buckets (b : list (list sidtab_node)) (s : S) : outcome (list (list sidtab_node) * Z * S) :=
  match b with
  | [] => mret ([], 0, s)
  | l :: b' =>
      '(l, n, s) ← sid_filter_chain l s;
      '(b', n', s) ← sid_filter_buckets b' s;
      mret (l :: b', n + n', s)
  end.

Definition sepol_sidtab_map_remove_on_error (t : sidtab) (s : S) : outcome (sidtab * S) :=
  match st_htable t with
  | None => mret (t, s)
  | Some b =>
      '(b, n, s) ← sid_filter_buckets b s;
      mret (ST (Some b) (u32 (st_nel t - n)) (next_sid t) (shutdown t), s)
  end.

End iteration.

(** [s->htable] is not compared with NULL here. *)
Definition sepol_sidtab_search_context (s : sidtab) (context : context_struct) : outcome Z :=
  b ← deref (st_htable s);
  mret (match find (λ cur, context_cmp cur.2 context) (mjoin b) with Some cur => cur.1 | None => 0 end).

Definition set_next_sid (v : Z) (s : sidtab) : sidtab := ST (st_htable s) (st_nel s) v (shutdown s).

(** The status and [*out_sid]. *)
Definition sepol_sidtab_context_to_sid (s : sidtab) (context : context_struct) (m : mem)
    : outcome (Z * Z * sidtab * mem) :=
  sid ← sepol_sidtab_search_context s context;
  if negb (sid =? 0) then mret (0, sid, s, m)
  else
    (* Rescan now that we hold the lock. *)
    sid ← sepol_sidtab_search_context s context;
    if negb (sid =? 0) then mret (0, sid, s, m)
    else if (next_sid s =? UINT_MAX) || negb (shutdown s =? 0) then mret (- ENOMEM, SEPOL_SECSID_NULL, s, m)
    else
      let sid := next_sid s in
      let s := set_next_sid (u32 (next_sid s + 1)) s in
      let '(ret, s, m) := sepol_sidtab_insert s sid context m in
      if negb (ret =? 0) then mret (ret, SEPOL_SECSID_NULL, set_next_sid (u32 (next_sid s - 1)) s, m)
      else mret (0, sid, s, m).

Definition sepol_sidtab_destroy (s : sidtab) : sidtab :=
  match st_htable s with
  | None => s
  | Some _ => ST None 0 1 (shutdown s)
  end.

(** [dst] after the call: the two tables then share the chains. *)
Definition sepol_sidtab_set (src : sidtab) : sidtab := ST (st_htable src) (st_nel src) (next_sid src) 0.

Definition sepol_sidtab_shutdown (s : sidtab) : sidtab := ST (st_htable s) (st_nel s) (next_sid s) 1.

(** The numbers [sepol_sidtab_hash_eval] prints. *)
Definition sepol_sidtab_hash_eval (h : sidtab) : outcome (Z * Z * Z * Z) :=
  b ← deref (st_htable h);
  let '(slots_used, max_chain_len) := fold_left (λ s l, hash_eval_step l s) b (0, 0) in
  mret (st_nel h, slots_used, SIDTAB_SIZE, max_chain_len).

(** ** Invariant and abstraction *)

(** A chain is a chain of Hashtab.v for the keys that are SIDs. *)
#[local] Instance sid_key : HashKey Z := {| hash_value := λ sz sid, sid mod sz; keycmp := Z.sub |}.

#[local] Instance sid_key_laws : HashKeyLaws Z.
Proof.
  refine {| key_ok := λ _, True |}; simpl; intros; try lia.
  by apply Z.mod_pos_bound.
Defined.

Definition sid_table (b : list (list sidtab_node)) (n : Z) : hashtab_val Z context_struct := HT b SIDTAB_SIZE n.

(** The finite map a table stands for. *)
Definition sid_map (s : sidtab) : gmap Z context_struct :=
  match st_htable s with None => ∅ | Some b => list_to_map (mjoin b) end.

(** The chains are in order, the entries are counted and [next_sid] is above
    every SID in use. *)
Definition sidtab_wf (s : sidtab) : Prop :=
  (∃ b, st_htable s = Some b ∧ hashtab_wf (Some (sid_table b (st_nel s)))) ∧
  0 < next_sid s <= UINT_MAX ∧
  ∀ sid c, sid_map s !! sid = Some c → 0 < sid < next_sid s.

Lemma SIDTAB_HASH_mod sid : SIDTAB_HASH sid = sid mod SIDTAB_SIZE.
Proof. unfold SIDTAB_HASH. change (SIDTAB_SIZE - 1) with (Z.ones 7). by rewrite Z.land_ones. Qed.

Lemma sid_walk_eq sid l : sid_walk sid l = walk sid l.
Proof.
  induction l as [|cur l IH]; [done|]. cbn [sid_walk walk]. rewrite IH. simpl keycmp.
  by destruct (Z.ltb_spec cur.1 sid), (Z.ltb_spec 0 (sid - cur.1)); try lia.
Qed.

Lemma at_sid_eq sid l : at_sid sid l = at_key sid l.
Proof.
  destruct l as [|cur l]; [done|]. simpl.
  by destruct (Z.eqb_spec sid cur.1), (Z.eqb_spec (sid - cur.1) 0); try lia.
Qed.

Lemma bucket_eq b n sid : bucket b (SIDTAB_HASH sid) = chain (sid_table b n) (hash_value SIDTAB_SIZE sid).
Proof. by rewrite SIDTAB_HASH_mod. Qed.

Lemma sid_map_eq b nl nx sh n : sid_map (ST (Some b) nl nx sh) = to_map (Some (sid_table b n)).
Proof. done. Qed.

(** *** Search *)

Lemma sid_lookup_correct b n sid : hashtab_wf (Some (sid_table b n)) →
  sid_lookup b sid = to_map (Some (sid_table b n)) !! sid.
Proof.
  intros Hb. rewrite <- (hashtab_search_correct (Some (sid_table b n)) sid Hb I). unfold sid_lookup.
  rewrite sid_walk_eq, (bucket_eq b n). cbn [hashtab_search sid_table size].
  destruct (walk sid _) as [before [|cur next]]; [done|]. simpl.
  by destruct (Z.eqb_spec sid cur.1), (Z.eqb_spec (sid - cur.1) 0); try lia.
Qed.

(** An unknown SID has the context of the unlabeled SID, if there is one. *)
Lemma sepol_sidtab_search_correct s sid : sidtab_wf s →
  sepol_sidtab_search s sid =
  match sid_map s !! sid with Some c => Some c | None => sid_map s !! SECINITSID_UNLABELED end.
Proof.
  intros ((b&E&Hb)&_). unfold sepol_sidtab_search, sid_map. rewrite E.
  by rewrite !(sid_lookup_correct b (st_nel s)).
Qed.

Lemma sid_map_Some s b sid c : sidtab_wf s → st_htable s = Some b →
  sid_map s !! sid = Some c ↔ (sid, c) ∈ mjoin b.
Proof.
  intros ((b'&E&[Hb _])&_) E'. rewrite E in E'. injection E' as ->. unfold sid_map. rewrite E.
  symmetry. apply elem_of_list_to_map. by apply (entries_keys_NoDup _ Hb).
Qed.

(** *** Creation *)

Lemma malloc_ok m ok m' : malloc m = (ok, m') → plenty m → ok = true ∧ plenty m'.
Proof. intros E P. destruct (malloc_plenty m P) as (m''&E'&P'). rewrite E in E'. by injection E' as -> ->. Qed.

Lemma sepol_sidtab_init_correct s m :
  let '(rc, s', m') := sepol_sidtab_init s m in
  (plenty m → plenty m' ∧ rc = 0) ∧
  ((rc = 0 ∧ sidtab_wf s' ∧ sid_map s' = ∅ ∧ next_sid s' = 1 ∧ shutdown s' = 0) ∨ rc = - ENOMEM).
Proof.
  unfold sepol_sidtab_init. destruct (malloc m) as [ok m'] eqn:E.
  destruct ok; cbn [negb]; (split; [intros P; by destruct (malloc_ok _ _ _ E P)|]); [|by right].
  left. split; [done|]. split; [|unfold sid_map; cbn [st_htable]; by rewrite entries_replicate].
  split; [|split; [done|unfold sid_map; cbn [st_htable]; rewrite entries_replicate; done]].
    exists (replicate (Z.to_nat SIDTAB_SIZE) []). split; [done|].
    unfold hashtab_wf, entries; cbn [sid_table htable nel]. rewrite entries_replicate.
    split; [|done]. split; [done|]. split; [by cbn [sid_table htable size]; rewrite length_replicate|].
    intros i l [-> _]%lookup_replicate. split; [|constructor]. split; constructor.
Qed.

(** *** Insertion and removal *)

Lemma insert_chain b n sid c before rest :
  hashtab_wf (Some (sid_table b n)) → sid_walk sid (bucket b (SIDTAB_HASH sid)) = (before, rest) →
  if at_sid sid rest then is_Some ((list_to_map (mjoin b) : gmap Z context_struct) !! sid)
  else
    let b' := set_index b (SIDTAB_HASH sid) (before ++ (sid, c) :: rest) in
    hashtab_wf (Some (sid_table b' (u32 (n + 1)))) ∧
    (list_to_map (mjoin b) : gmap Z context_struct) !! sid = None ∧
    (list_to_map (mjoin b') : gmap Z context_struct) = <[sid := c]> (list_to_map (mjoin b)).
Proof.
  intros Hb Hw. pose proof (hashtab_insert_correct (Some (sid_table b n)) sid c [] Hb I) as H.
  rewrite sid_walk_eq, (bucket_eq b n) in Hw. cbn [hashtab_insert sid_table size] in H.
  rewrite Hw, <- at_sid_eq in H. destruct (at_sid sid rest).
  - destruct H as (_&_&[([=]&_)|[(_&H&_)|([=]&_)]]). exact H.
  - simpl malloc in H. cbn [negb] in H. rewrite SIDTAB_HASH_mod. destruct H as (H&_&[(_&H1&H2)|[([=]&_)|([=]&_)]]). done.
Qed.

Lemma remove_chain b n sid before rest :
  hashtab_wf (Some (sid_table b n)) → sid_walk sid (bucket b (SIDTAB_HASH sid)) = (before, rest) →
  if at_sid sid rest
  then
    let b' := set_index b (SIDTAB_HASH sid) (before ++ tail rest) in
    hashtab_wf (Some (sid_table b' (u32 (n - 1)))) ∧
    is_Some ((list_to_map (mjoin b) : gmap Z context_struct) !! sid) ∧
    (list_to_map (mjoin b') : gmap Z context_struct) = delete sid (list_to_map (mjoin b))
  else (list_to_map (mjoin b) : gmap Z context_struct) !! sid = None.
Proof.
  intros Hb Hw. pose proof (hashtab_remove_correct (Some (sid_table b n)) sid Hb I) as H.
  rewrite sid_walk_eq, (bucket_eq b n) in Hw. cbn [hashtab_remove sid_table size] in H.
  rewrite Hw in H. rewrite SIDTAB_HASH_mod, at_sid_eq. destruct rest as [|cur next].
  - destruct H as (_&[([=]&_)|(_&H&_)]). exact H.
  - cbn [at_key]. destruct (keycmp sid cur.1 =? 0); cbn [negb] in H.
    + destruct H as (H&[(_&(d&Hd&_)&H2)|([=]&_)]). split; [done|]. split; [by exists d|done].
    + destruct H as (_&[([=]&_)|(_&H&_)]). exact H.
Qed.

Lemma sepol_sidtab_insert_correct s sid c m : sidtab_wf s → 0 < sid < UINT_MAX →
  let '(rc, s', m') := sepol_sidtab_insert s sid c m in
  sidtab_wf s' ∧ (plenty m → plenty m') ∧ shutdown s' = shutdown s ∧
  ((rc = 0 ∧ sid_map s !! sid = None ∧ sid_map s' = <[sid := c]> (sid_map s) ∧ next_sid s' = Z.max (next_sid s) (sid + 1)) ∨
   (rc = - EEXIST ∧ is_Some (sid_map s !! sid) ∧ s' = s) ∨
   (rc = - ENOMEM ∧ s' = s ∧ ¬ plenty m)).
Proof.
  intros Hs Hsid. pose proof Hs as ((b&E&Hb)&Hn&Hf). unfold sid_map in *. unfold sepol_sidtab_insert. rewrite E in Hf |- *.
  destruct (sid_walk sid _) as [before rest] eqn:Hw. pose proof (insert_chain b _ sid c _ _ Hb Hw) as Hi.
  destruct (at_sid sid rest); [split_and!; [done..|by right; left]|]. destruct Hi as (Hb'&Hnone&Hmap).
  destruct (malloc m) as [ok m1] eqn:Em. pose proof (malloc_ok _ _ _ Em) as Hm. destruct ok; cbn [negb].
  2: { split_and!; [done|by intros [? _]%Hm|done|]. right. right. split_and!; [done..|]. by intros [? _]%Hm. }
  assert (Hm' : plenty m → plenty m1) by (intros [_ ?]%Hm; done). clear Hm.
  pose proof (context_cpy_correct context_init c m1) as [Hp Hc].
  destruct (context_cpy context_init c m1) as [[rc d] m2]. simpl in Hp, Hc.
  destruct Hc as [[= -> ->]|[Hno ->]]; cbn [Z.eqb negb].
  2: { split_and!; [done|by auto|done|]. right. right. split_and!; [done..|]. auto. }
  assert (Hnext : (if next_sid s <=? sid then u32 (sid + 1) else next_sid s) = Z.max (next_sid s) (sid + 1)).
  { unfold UINT_MAX in *. zcase; [rewrite u32_small by lia|]; lia. }
  rewrite Hnext. split_and!; [|by auto|done|left; cbn [st_htable]; done].
  split; [by eexists|]. cbn [next_sid st_htable]. split; [lia|]. unfold sid_map; cbn [st_htable]. rewrite Hmap.
  intros sid' c' [[<- _]|[_ ?%Hf]]%lookup_insert_Some; lia.
Qed.

Lemma sepol_sidtab_remove_correct s sid : sidtab_wf s →
  let '(rc, s') := sepol_sidtab_remove s sid in
  sidtab_wf s' ∧ shutdown s' = shutdown s ∧ next_sid s' = next_sid s ∧
  ((rc = 0 ∧ is_Some (sid_map s !! sid) ∧ sid_map s' = delete sid (sid_map s)) ∨
   (rc = - ENOENT ∧ sid_map s !! sid = None ∧ s' = s)).
Proof.
  intros Hs. pose proof Hs as ((b&E&Hb)&Hn&Hf). unfold sid_map in *. unfold sepol_sidtab_remove. rewrite E in Hf |- *.
  destruct (sid_walk sid _) as [before rest] eqn:Hw. pose proof (remove_chain b _ sid _ _ Hb Hw) as Hr.
  destruct rest as [|cur next]; cbn [at_sid] in Hr; [split_and!; [done..|by right]|].
  destruct (sid =? cur.1); cbn [negb tail] in *; [|split_and!; [done..|by right]].
  destruct Hr as (Hb'&Hsome&Hmap). split_and!; [|done..|left; cbn [st_htable]; done].
  split; [by eexists|]. cbn [next_sid st_htable]. split; [done|]. unfold sid_map; cbn [st_htable]. rewrite Hmap.
  intros sid' c' [_ ?%Hf]%lookup_delete_Some. done.
Qed.

(** *** Assigning SIDs *)

Lemma sepol_sidtab_search_context_correct s c : sidtab_wf s →
  ∃ sid, sepol_sidtab_search_context s c = Ret sid ∧
    ((sid = 0 ∧ ∀ k, sid_map s !! k ≠ Some c) ∨ (0 < sid ∧ sid_map s !! sid = Some c)).
Proof.
  intros Hs. pose proof Hs as ((b&E&_)&_&Hf). unfold sepol_sidtab_search_context. rewrite E. cbn [deref mbind outcome_bind].
  eexists. split; [reflexivity|]. destruct (find _ (mjoin b)) as [[sid c']|] eqn:Hfind.
  - right. apply find_some in Hfind as [Hin%list_elem_of_In Hc%context_cmp_spec]. cbn [fst snd] in *. subst c'.
    assert (Hc : sid_map s !! sid = Some c) by (by apply (sid_map_Some s b)).
    apply Hf in Hc as Hsid. split; [lia|done].
  - left. split; [done|]. intros k Hk%(sid_map_Some s b); [|done..].
    apply list_elem_of_In in Hk. apply (find_none _ _ Hfind) in Hk. cbn [snd] in Hk.
    rewrite (proj2 (context_cmp_spec c c)) in Hk; done.
Qed.

(** A context that has a SID gets that one; otherwise the next free one, unless
    the SIDs are used up, the table is shut down or memory runs out. *)
Lemma sepol_sidtab_context_to_sid_correct s c m : sidtab_wf s →
  ∃ rc sid s' m', sepol_sidtab_context_to_sid s c m = Ret (rc, sid, s', m') ∧
    sidtab_wf s' ∧ (plenty m → plenty m') ∧ shutdown s' = shutdown s ∧
    ((rc = 0 ∧ sid_map s !! sid = Some c ∧ s' = s ∧ m' = m) ∨
     (rc = 0 ∧ (∀ k, sid_map s !! k ≠ Some c) ∧ sid = next_sid s ∧ sid_map s !! sid = None ∧
      sid_map s' = <[sid := c]> (sid_map s) ∧ next_sid s' = sid + 1) ∨
     (rc = - ENOMEM ∧ sid = SEPOL_SECSID_NULL ∧ s' = s ∧ (∀ k, sid_map s !! k ≠ Some c) ∧
      (next_sid s = UINT_MAX ∨ shutdown s ≠ 0 ∨ ¬ plenty m))).
Proof.
  intros Hs. pose proof Hs as (Hb&Hn&Hf). unfold sepol_sidtab_context_to_sid.
  destruct (sepol_sidtab_search_context_correct s c Hs) as (sid&E&Hsid). rewrite !E. cbn [mbind outcome_bind].
  destruct Hsid as [[-> Hno]|[Hpos Hc]]; cbn [Z.eqb negb].
  2: { destruct (Z.eqb_spec sid 0); [lia|]. cbn [negb]. eexists _, _, _, _. split; [done|]. split_and!; [done..|]. by left. }
  destruct (Z.eqb_spec (next_sid s) UINT_MAX) as [Hmax|Hmax]; cbn [orb].
  { eexists _, _, _, _. split; [done|]. split_and!; [done..|]. right. right. split_and!; [done..|]. by left. }
  destruct (Z.eqb_spec (shutdown s) 0) as [Hsh|Hsh]; cbn [negb].
  2: { eexists _, _, _, _. split; [done|]. split_and!; [done..|]. right. right. split_and!; [done..|]. right. by left. }
  set (s1 := set_next_sid (u32 (next_sid s + 1)) s).
  assert (Hnext : u32 (next_sid s + 1) = next_sid s + 1) by (unfold UINT_MAX in *; apply u32_small; lia).
  assert (Hs1 : sidtab_wf s1).
  { split; [done|]. cbn [s1 set_next_sid next_sid]. rewrite Hnext. split; [unfold UINT_MAX in *; lia|].
    intros k d ?%Hf. lia. }
  pose proof (sepol_sidtab_insert_correct s1 (next_sid s) c m Hs1 ltac:(lia)) as Hi.
  destruct (sepol_sidtab_insert s1 (next_sid s) c m) as [[rc s2] m2]. destruct Hi as (Hwf&Hp&Hsh2&Hi).
  destruct Hi as [(->&Hnone&Hmap&Hn2)|[(_&[d Hd%Hf]&_)|(->&->&Hno')]]; [|lia|]; cbn [Z.eqb negb].
  - eexists _, _, _, _. split; [done|]. split_and!; [done..|]. right. left. split_and!; [done..|].
    rewrite Hn2. cbn [s1 set_next_sid next_sid]. lia.
  - assert (Es : set_next_sid (u32 (next_sid s1 - 1)) s1 = s).
    { cbn [s1 set_next_sid next_sid]. rewrite Hnext. rewrite u32_small by (unfold UINT_MAX in *; lia).
      destruct s; unfold set_next_sid; cbn. f_equal. lia. }
    rewrite Es. eexists _, _, _, _. split; [done|]. split_and!; [done..|]. right. right. split_and!; [done..|]. by right; right.
Qed.

(** *** Iteration *)

(** [sepol_sidtab_map] with a function that leaves the contexts alone: an
    invariant of the entries done and the state holds at the end, unless the
    function fails. *)
Section mapping.
Context {S : Type} (apply : Z → context_struct → S → outcome (Z * context_struct * S)).
Variable I : list sidtab_node → S → Prop.
Variable E : Z → Prop.

Definition map_step (es : list sidtab_node) : Prop :=
  ∀ done sid c rest s, es = done ++ (sid, c) :: rest → I done s →
  ∃ ret s', apply sid c s = Ret (ret, c, s') ∧ if ret =? 0 then I (done ++ [(sid, c)]) s' else E ret.

Lemma map_chain_inv es done l rest s :
  map_step es → es = done ++ l ++ rest → I done s →
  ∃ ret s', sid_map_chain apply l s = Ret (ret, l, s') ∧ if ret =? 0 then I (done ++ l) s' else E ret.
Proof.
  intros Hstep. revert done s. induction l as [|[sid c] l IH]; intros done s Hes Hs; cbn [sid_map_chain].
  - exists 0, s. split; [done|]. cbn. by rewrite app_nil_r.
  - destruct (Hstep done sid c (l ++ rest) s Hes Hs) as (ret&s'&Ea&Hr). cbn [fst snd]. rewrite Ea. cbn [mbind outcome_bind].
    destruct (ret =? 0) eqn:Eret; cbn [negb]; [|exists ret, s'; by rewrite Eret].
    destruct (IH (done ++ [(sid, c)]) s') as (ret2&s2&E2&H2); [by rewrite <- app_assoc|done|].
    rewrite E2. cbn [mbind outcome_bind]. exists ret2, s2. split; [done|]. by rewrite <- app_assoc in H2.
Qed.

Lemma map_buckets_inv es done b s :
  map_step es → es = done ++ mjoin b → I done s →
  ∃ ret s', sid_map_buckets apply b s = Ret (ret, b, s') ∧ if ret =? 0 then I es s' else E ret.
Proof.
  intros Hstep. revert done s. induction b as [|l b IH]; intros done s Hes Hs; cbn [sid_map_buckets].
  - exists 0, s. split; [done|]. cbn. rewrite Hes. cbn. by rewrite app_nil_r.
  - destruct (map_chain_inv es done l (mjoin b) s Hstep Hes Hs) as (ret&s'&Ec&Hr). rewrite Ec. cbn [mbind outcome_bind].
    destruct (ret =? 0) eqn:Eret; cbn [negb]; [|exists ret, s'; by rewrite Eret].
    destruct (IH (done ++ l) s') as (ret2&s2&E2&H2); [by rewrite <- app_assoc|done|].
    rewrite E2. cbn [mbind outcome_bind]. by exists ret2, s2.
Qed.

Lemma sepol_sidtab_map_inv t b s :
  st_htable t = Some b → map_step (mjoin b) → I [] s →
  ∃ ret s', sepol_sidtab_map apply t s = Ret (ret, t, s') ∧ if ret =? 0 then I (mjoin b) s' else E ret.
Proof.
  intros Eb Hstep Hs. unfold sepol_sidtab_map. rewrite Eb.
  destruct (map_buckets_inv (mjoin b) [] b s Hstep eq_refl Hs) as (ret&s'&E1&H1).
  rewrite E1. cbn [mbind outcome_bind]. exists ret, s'. split; [|done]. rewrite <- Eb. by destruct t.
Qed.

End mapping.

(** [sepol_sidtab_map_remove_on_error]: the function relates the context of an
    entry to its new context, or to nothing when it fails. *)
Inductive filtered (R : context_struct → option context_struct → Prop) : list sidtab_node → list sidtab_node → Prop :=
| filtered_nil : filtered R [] []
| filtered_keep sid c c' l l' : R c (Some c') → filtered R l l' → filtered R ((sid, c) :: l) ((sid, c') :: l')
| filtered_drop sid c l l' : R c None → filtered R l l' → filtered R ((sid, c) :: l) l'.

Lemma filtered_app R l1 l1' l2 l2' : filtered R l1 l1' → filtered R l2 l2' → filtered R (l1 ++ l2) (l1' ++ l2').
Proof. induction 1; intros H2; cbn [app]; [done|constructor; auto..]. Qed.

Lemma filtered_Forall R (P : Z → Prop) l l' : filtered R l l' → Forall (λ e, P e.1) l → Forall (λ e, P e.1) l'.
Proof.
  induction 1 as [|sid c c' l l' _ _ IH|sid c l l' _ _ IH]; intros HP; [constructor|..];
    apply Forall_cons in HP as [? ?]; [constructor|]; auto.
Qed.

Lemma filtered_chain_ok R l l' : filtered R l l' → chain_ok l → chain_ok l'.
Proof.
  intros Hf [Hs Hok]. split; [|by apply Forall_true].
  induction Hf as [|sid c c' l l' _ Hf IH|sid c l l' _ Hf IH]; [constructor|..];
    apply Forall_cons in Hok as [_ Hok]; apply StronglySorted_cons in Hs as [Hh Hs].
  - apply StronglySorted_cons. split; [|by apply IH]. cbn [fst] in *.
    by apply (filtered_Forall R (λ k, 0 < keycmp k sid) l l').
  - by apply IH.
Qed.

Lemma filtered_lookup R l l' sid : filtered R l l' → NoDup l.*1 →
  match (list_to_map l : gmap Z context_struct) !! sid with
  | Some c => R c ((list_to_map l' : gmap Z context_struct) !! sid)
  | None => (list_to_map l' : gmap Z context_struct) !! sid = None
  end.
Proof.
  induction 1 as [|k c c' l l' HR Hf IH|k c l l' HR Hf IH]; cbn [fmap list_fmap fst list_to_map foldr]; intros Hnd;
    [done|..]; apply NoDup_cons in Hnd as [Hk Hnd]; specialize (IH Hnd).
  - destruct (decide (sid = k)) as [->|Hne]; simplify_map_eq; done.
  - destruct (decide (sid = k)) as [->|Hne]; simplify_map_eq; [|done].
    rewrite not_elem_of_list_to_map_1 in IH by done. by rewrite IH.
Qed.

Section filtering.
Context {S : Type} (apply : Z → context_struct → S → outcome (Z * context_struct * S)).
Variable R : context_struct → option context_struct → Prop.
Hypothesis step : ∀ sid c s ret c' s', apply sid c s = Ret (ret, c', s') → R c (if ret =? 0 then Some c' else None).

Lemma filter_chain_inv l : ∀ s l' n s', sid_filter_chain apply l s = Ret (l', n, s') →
  filtered R l l' ∧ Z.of_nat (length l') = Z.of_nat (length l) - n.
Proof.
  induction l as [|[sid c] l IH]; intros s l' n s' H; cbn [sid_filter_chain fst snd] in H.
  - injection H as <- <- <-. split; [constructor|done].
  - apply ret_bind_inv in H as ([[ret c'] s1]&E1&H). apply ret_bind_inv in H as ([[l2 n2] s2]&E2&H).
    apply step in E1. apply IH in E2 as [Hf Hlen]. destruct (ret =? 0); cbn [negb] in H; injection H as <- <- <-.
    + split; [by constructor|]. cbn [length]. lia.
    + split; [by constructor|]. cbn [length]. lia.
Qed.

Lemma filter_buckets_inv b : ∀ s b' n s', sid_filter_buckets apply b s = Ret (b', n, s') →
  Forall2 (filtered R) b b' ∧ Z.of_nat (length (mjoin b')) = Z.of_nat (length (mjoin b)) - n.
Proof.
  induction b as [|l b IH]; intros s b' n s' H; cbn [sid_filter_buckets] in H.
  - injection H as <- <- <-. split; [constructor|done].
  - apply ret_bind_inv in H as ([[l' n1] s1]&E1&H). apply ret_bind_inv in H as ([[b1 n2] s2]&E2&H). injection H as <- <- <-.
    apply filter_chain_inv in E1 as [Hf Hlen]. apply IH in E2 as [Hfs Hlens]. split; [by constructor|].
    change (Z.of_nat (length (l' ++ mjoin b1)) = Z.of_nat (length (l ++ mjoin b)) - (n1 + n2)). rewrite !length_app. lia.
Qed.

Lemma filtered_join b b' : Forall2 (filtered R) b b' → filtered R (mjoin b) (mjoin b').
Proof. induction 1; cbn; [constructor|by apply filtered_app]. Qed.

Lemma sepol_sidtab_filter_inv t s t' s' : sidtab_wf t → sepol_sidtab_map_remove_on_error apply t s = Ret (t', s') →
  sidtab_wf t' ∧ next_sid t' = next_sid t ∧ shutdown t' = shutdown t ∧
  ∀ sid, match sid_map t !! sid with
         | Some c => R c (sid_map t' !! sid)
         | None => sid_map t' !! sid = None
         end.
Proof.
  intros Ht H. pose proof Ht as ((b&Eb&Hb)&Hn&Hf). unfold sepol_sidtab_map_remove_on_error in H. rewrite Eb in H.
  apply ret_bind_inv in H as ([[b' n] s1]&E1&H). injection H as <- <-. apply filter_buckets_inv in E1 as [Hfs Hlen].
  pose proof Hb as [Htab Hnel]. pose proof (entries_keys_NoDup _ Htab) as Hnd.
  assert (Hmap : ∀ sid, match sid_map t !! sid with
           | Some c => R c ((list_to_map (mjoin b') : gmap Z context_struct) !! sid)
           | None => (list_to_map (mjoin b') : gmap Z context_struct) !! sid = None end).
  { intros sid. unfold sid_map. rewrite Eb. apply filtered_lookup; [by apply filtered_join|done]. }
  split; [|split_and!; done]. split; [exists b'; split; [done|]|split; [done|]].
  - destruct Htab as (Hpos&Hl&Hc). cbn [sid_table htable size] in Hl, Hc. split.
    + split; [done|]. cbn [sid_table htable size]. split; [by rewrite <- (Forall2_length _ _ _ Hfs)|].
      intros i l' Hl'. destruct (Forall2_lookup_r _ _ _ _ _ Hfs Hl') as (l&Hli&Hfl).
      apply Hc in Hli as [Hok Hh]. split; [by apply (filtered_chain_ok R l)|].
      by apply (filtered_Forall R (λ k, hash_value SIDTAB_SIZE k = Z.of_nat i) l l').
    + cbn [sid_table st_nel nel] in *. unfold entries in *. cbn [htable sid_table] in *. rewrite Hnel, Hlen.
      unfold u32. by rewrite Zminus_mod_idemp_l.
  - intros sid c Hc. specialize (Hmap sid). unfold sid_map in Hc at 1; cbn [st_htable] in Hc.
    destruct (sid_map t !! sid) eqn:Et; [by apply Hf in Et|congruence].
Qed.

End filtering.

(** ** Tables over time

    The operations that run while a policy is in use: SIDs are only added. *)
Inductive sid_step : sidtab → sidtab → Prop :=
| step_assign s c m rc sid s' m' : sepol_sidtab_context_to_sid s c m = Ret (rc, sid, s', m') → sid_step s s'
| step_insert s sid c m : 0 < sid < UINT_MAX → sid_step s (sepol_sidtab_insert s sid c m).1.2
| step_shutdown s : sid_step s (sepol_sidtab_shutdown s).

Lemma sid_step_grows s s' : sid_step s s' → sidtab_wf s → sidtab_wf s' ∧ sid_map s ⊆ sid_map s' ∧ next_sid s <= next_sid s'.
Proof.
  destruct 1 as [s c m rc sid s' m' E|s sid c m Hsid|s]; intros Hs.
  - destruct (sepol_sidtab_context_to_sid_correct s c m Hs) as (?&?&?&?&E'&Hwf&_&_&H).
    rewrite E in E'. injection E' as <- <- <- <-.
    destruct H as [(_&_&->&_)|[(_&_&->&Hnone&->&->)|(_&_&->&_)]]; split_and!; try done; [|lia]. by apply insert_subseteq.
  - pose proof (sepol_sidtab_insert_correct s sid c m Hs Hsid) as H.
    destruct (sepol_sidtab_insert s sid c m) as [[rc s'] m']. cbn [fst snd]. destruct H as (Hwf&_&_&H).
    destruct H as [(_&Hnone&->&->)|[(_&_&->)|(_&->&_)]]; split_and!; try done; [|lia]. by apply insert_subseteq.
  - done.
Qed.

Lemma sid_steps_grow s s' : rtc sid_step s s' → sidtab_wf s → sidtab_wf s' ∧ sid_map s ⊆ sid_map s' ∧ next_sid s <= next_sid s'.
Proof.
  induction 1 as [|s1 s2 s3 H1 _ IH]; intros Hs; [split_and!; done|].
  destruct (sid_step_grows _ _ H1 Hs) as (Hwf&Hsub&Hn). destruct (IH Hwf) as (?&?&?).
  split_and!; [done|by etrans|lia].
Qed.
