(* ===== verification/Policydb.v ===== *)
(** * The policy database (sepol/policydb/policydb.h, constraint.h,
      conditional.h; libsepol/src/policydb.c)

    The data of a policy, and the operations that maintain its symbol tables
    and its [*_val_to_struct] index arrays.

    Objects that the program reaches through more than one pointer (a class is
    in its symbol table and in [class_val_to_struct]) live in a store: the
    field [class_mem] holds the class objects, and a pointer is a position in
    it.  Objects with one owner are values. *)

From S2P Require Import Prelude Ebitmap Hashtab Avtab Context.

(** A pointer: a position in the store of its kind.  NULL is [None]. *)
Definition ptr : Type := Z.

(** ** Constraints (constraint.h) *)

Definition CEXPR_MAXDEPTH : Z := 5.
Definition CEXPR_NOT : Z := 1.
Definition CEXPR_AND : Z := 2.
Definition CEXPR_OR : Z := 3.
Definition CEXPR_ATTR : Z := 4.
Definition CEXPR_NAMES : Z := 5.
Definition CEXPR_USER : Z := 1.
Definition CEXPR_ROLE : Z := 2.
Definition CEXPR_TYPE : Z := 4.
Definition CEXPR_TARGET : Z := 8.
Definition CEXPR_XTARGET : Z := 16.
Definition CEXPR_L1L2 : Z := 32.
Definition CEXPR_L1H2 : Z := 64.
Definition CEXPR_H1L2 : Z := 128.
Definition CEXPR_H1H2 : Z := 256.
Definition CEXPR_L1H1 : Z := 512.
Definition CEXPR_L2H2 : Z := 1024.
Definition CEXPR_EQ : Z := 1.
Definition CEXPR_NEQ : Z := 2.
Definition CEXPR_DOM : Z := 3.
Definition CEXPR_DOMBY : Z := 4.
Definition CEXPR_INCOMP : Z := 5.

Definition TYPE_STAR : Z := 1.
Definition TYPE_COMP : Z := 2.
Definition ROLE_STAR : Z := 1.
Definition ROLE_COMP : Z := 2.

Record type_set := TS { types : ebitmap; negset : ebitmap; ts_flags : Z }.
Record role_set := RS { rs_roles : ebitmap; rs_flags : Z }.

(** [next] is the rest of the list that holds the expression. *)
Record constraint_expr := CE {
  expr_type : Z;
  attr : Z;
  op : Z;
  names : ebitmap;
  type_names : option type_set
}.

Record constraint_node := CN { cn_permissions : Z; expr : list constraint_expr }.

(** ** Conditionals (conditional.h) *)

Definition COND_EXPR_MAXDEPTH : Z := 10.
Definition COND_MAX_BOOLS : Z := 5.
Definition COND_BOOL : Z := 1.
Definition COND_NOT : Z := 2.
Definition COND_OR : Z := 3.
Definition COND_AND : Z := 4.
Definition COND_XOR : Z := 5.
Definition COND_EQ : Z := 6.
Definition COND_NEQ : Z := 7.
Definition COND_LAST : Z := COND_NEQ.

Record cond_expr := CX { cx_expr_type : Z; cx_bool : Z }.

(** [true_list] and [false_list] hold the addresses of nodes of
    [te_cond_avtab]; [avtrue_list] and [avfalse_list] are pointers to rules of
    policy modules, 0 when NULL. *)
Record cond_node := CD {
  cur_state : Z;
  cd_expr : list cond_expr;
  true_list : list Z;
  false_list : list Z;
  avtrue_list : Z;
  avfalse_list : Z;
  nbools : Z;
  bool_ids : list Z;
  expr_pre_comp : Z;
  cd_flags : Z
}.

(** ** Symbols (policydb.h) *)

(** A [symtab_datum_t] holds the [value] of the symbol. *)
Record perm_datum := PD { pd_value : Z }.

Record common_datum := CMD { cm_value : Z; cm_permissions : symtab perm_datum }.

Definition DEFAULT_SOURCE : Z := 1.
Definition DEFAULT_TARGET : Z := 2.
Definition DEFAULT_SOURCE_LOW : Z := 1.
Definition DEFAULT_SOURCE_HIGH : Z := 2.
Definition DEFAULT_SOURCE_LOW_HIGH : Z := 3.
Definition DEFAULT_TARGET_LOW : Z := 4.
Definition DEFAULT_TARGET_HIGH : Z := 5.
Definition DEFAULT_TARGET_LOW_HIGH : Z := 6.

Record class_datum := CLD {
  c_value : Z;
  comkey : option string;
  comdatum : option common_datum;
  permissions : symtab perm_datum;
  constraints : list constraint_node;
  validatetrans : list constraint_node;
  default_user : Z;
  default_role : Z;
  default_type : Z;
  default_range : Z
}.

Definition ROLE_ROLE : Z := 0.
Definition ROLE_ATTRIB : Z := 1.

Record role_datum := RD {
  r_value : Z;
  dominates : ebitmap;
  r_types : type_set;
  r_cache : ebitmap;
  r_bounds : Z;
  r_flavor : Z;
  r_roles : ebitmap
}.

Record role_trans := RTR { rtr_role : Z; rtr_type : Z; rtr_tclass : Z; rtr_new_role : Z }.
Record role_allow_t := RA { ra_role : Z; ra_new_role : Z }.
Record filename_trans_datum := FTD { otype : Z }.

Definition TYPE_TYPE : Z := 0.
Definition TYPE_ATTRIB : Z := 1.
Definition TYPE_ALIAS : Z := 2.
Definition TYPE_FLAGS_EXPAND_ATTR_TRUE : Z := Z.shiftl 1 1.

Record type_datum := TD {
  t_value : Z;
  primary : Z;
  flavor : Z;
  t_types : ebitmap;
  t_flags : Z;
  bounds : Z
}.

(** mls_types.h: a semantic level is a sensitivity and category intervals. *)
Record mls_semantic_cat := SC { sc_low : Z; sc_high : Z }.
Record mls_semantic_level := SL { sl_sens : Z; sl_cat : list mls_semantic_cat }.
Record mls_semantic_range := SR { sr_level0 : mls_semantic_level; sr_level1 : mls_semantic_level }.

Record user_datum := UD {
  u_value : Z;
  u_roles : role_set;
  u_range : mls_semantic_range;
  dfltlevel : mls_semantic_level;
  u_cache : ebitmap;
  exp_range : mls_range;
  exp_dfltlevel : mls_level;
  u_bounds : Z
}.

(** [level] is a pointer that may be NULL. *)
Record level_datum := LD { level : option mls_level; l_isalias : Z; defined : Z }.
Record cat_datum := CTD { ct_value : Z; ct_isalias : Z }.
Record cond_bool_datum := BD { b_value : Z; b_state : Z; b_flags : Z }.

Definition SYM_COMMONS : Z := 0.
Definition SYM_CLASSES : Z := 1.
Definition SYM_ROLES : Z := 2.
Definition SYM_TYPES : Z := 3.
Definition SYM_USERS : Z := 4.
Definition SYM_BOOLS : Z := 5.
Definition SYM_LEVELS : Z := 6.
Definition SYM_CATS : Z := 7.
Definition SYM_NUM : Z := 8.

Definition SCOPE_REQ : Z := 1.
Definition SCOPE_DECL : Z := 2.
(** [decl_ids] is a pointer to an array of [decl_ids_len] numbers. *)
Record scope_datum := SD { sd_scope : Z; decl_ids : option (list Z); decl_ids_len : Z }.

(** The fields of [avrule_decl_t] and [avrule_block_t] that editing a loaded
    policy touches: [declared] is [declared.scope], one set of symbols per kind. *)
Record avrule_decl := DECL { decl_id : Z; declared : list ebitmap }.
Record avrule_block := BLK { branch_list : list avrule_decl }.

Definition POLICY_KERN : Z := 0.
Definition POLICY_BASE : Z := 1.
Definition POLICY_MOD : Z := 2.

(** ** Labels (policydb.h: [ocontext_t], [genfs_t]) *)

(** What an entry labels: the union [u]. *)
Inductive ocontext_key :=
| OC_none
| OC_name (name : string)  (** initial SID, file system, interface, path *)
| OC_port (protocol low_port high_port : Z)
| OC_node (addr mask : Z)
| OC_node6 (addr mask : list Z)  (** four [uint32_t] each *)
| OC_ibpkey (subnet_prefix low_pkey high_pkey : Z)
| OC_ibendport (dev_name : string) (port : Z)
| OC_pirq (pirq : Z)
| OC_ioport (low_ioport high_ioport : Z)
| OC_iomem (low_iomem high_iomem : Z)
| OC_device (device : Z).

(** [oc_v] is the class of a genfs entry and the behaviour of an fs_use one. *)
Record ocontext := OC {
  oc_u : ocontext_key;
  oc_v : Z;
  oc_context0 : context_struct;
  oc_context1 : context_struct;
  oc_sid0 : Z;
  oc_sid1 : Z
}.

Record genfs_t := GF { fstype : string; gf_head : list ocontext }.

(** ** The database

    [p_name], [p_version] and [genfs] are the fields [name], [version] and
    [genfs]; every field of [policydb_t] is here. *)

Record policydb := PDB {
  policy_type : Z;
  mls : Z;
  p_commons : symtab common_datum;
  p_classes : symtab ptr;
  p_roles : symtab ptr;
  p_types : symtab ptr;
  p_users : symtab ptr;
  p_bools : symtab ptr;
  p_levels : symtab level_datum;
  p_cats : symtab cat_datum;
  sym_val_to_name : list (list (option string))  (** symbol names indexed by kind, then by value - 1 *);
  class_val_to_struct : list (option ptr);
  role_val_to_struct : list (option ptr);
  user_val_to_struct : list (option ptr);
  type_val_to_struct : list (option ptr);
  scope : list (symtab ptr);
  global : list avrule_block;
  decl_val_to_struct : list (option (Z * Z));
  te_avtab : avtab;
  bool_val_to_struct : list (option ptr);
  te_cond_avtab : avtab;
  cond_list : list cond_node;
  role_tr : list role_trans;
  role_allow : list role_allow_t;
  range_tr : hashtab_t range_trans mls_range;
  filename_trans_tab : hashtab_t filename_trans ptr;
  type_attr_map : list (option ebitmap)  (** None: the array element is not initialised *);
  attr_type_map : list (option ebitmap);
  permissive_map : ebitmap;
  policyvers : Z;
  class_mem : list class_datum  (** the objects the pointers above point to *);
  role_mem : list role_datum;
  user_mem : list user_datum;
  type_mem : list type_datum;
  bool_mem : list cond_bool_datum;
  scope_mem : list scope_datum;
  ftrans_mem : list filename_trans_datum;
  dangling : list filename_trans  (** keys of [filename_trans_tab] whose storage is gone *);
  p_name : option string;
  p_version : option string;
  target_platform : Z;
  unsupported_format : Z;
  ocontexts : list (list ocontext)  (** by kind *);
  genfs : list genfs_t;
  policycaps : ebitmap;
  handle_unknown : Z
}.

Definition set_p_types (v : symtab ptr) (p : policydb) : policydb :=
  PDB (policy_type p) (mls p) (p_commons p) (p_classes p) (p_roles p) v (p_users p) (p_bools p)
      (p_levels p) (p_cats p) (sym_val_to_name p) (class_val_to_struct p) (role_val_to_struct p)
      (user_val_to_struct p) (type_val_to_struct p) (scope p) (global p) (decl_val_to_struct p)
      (te_avtab p) (bool_val_to_struct p) (te_cond_avtab p) (cond_list p) (role_tr p)
      (role_allow p) (range_tr p) (filename_trans_tab p) (type_attr_map p) (attr_type_map p)
      (permissive_map p) (policyvers p) (class_mem p) (role_mem p) (user_mem p) (type_mem p)
      (bool_mem p) (scope_mem p) (ftrans_mem p) (dangling p) (p_name p) (p_version p)
      (target_platform p) (unsupported_format p) (ocontexts p) (genfs p) (policycaps p)
      (handle_unknown p).

Definition set_p_classes (v : symtab ptr) (p : policydb) : policydb :=
  PDB (policy_type p) (mls p) (p_commons p) v (p_roles p) (p_types p) (p_users p) (p_bools p)
      (p_levels p) (p_cats p) (sym_val_to_name p) (class_val_to_struct p) (role_val_to_struct p)
      (user_val_to_struct p) (type_val_to_struct p) (scope p) (global p) (decl_val_to_struct p)
      (te_avtab p) (bool_val_to_struct p) (te_cond_avtab p) (cond_list p) (role_tr p)
      (role_allow p) (range_tr p) (filename_trans_tab p) (type_attr_map p) (attr_type_map p)
      (permissive_map p) (policyvers p) (class_mem p) (role_mem p) (user_mem p) (type_mem p)
      (bool_mem p) (scope_mem p) (ftrans_mem p) (dangling p) (p_name p) (p_version p)
      (target_platform p) (unsupported_format p) (ocontexts p) (genfs p) (policycaps p)
      (handle_unknown p).

Definition set_p_roles (v : symtab ptr) (p : policydb) : policydb :=
  PDB (policy_type p) (mls p) (p_commons p) (p_classes p) v (p_types p) (p_users p) (p_bools p)
      (p_levels p) (p_cats p) (sym_val_to_name p) (class_val_to_struct p) (role_val_to_struct p)
      (user_val_to_struct p) (type_val_to_struct p) (scope p) (global p) (decl_val_to_struct p)
      (te_avtab p) (bool_val_to_struct p) (te_cond_avtab p) (cond_list p) (role_tr p)
      (role_allow p) (range_tr p) (filename_trans_tab p) (type_attr_map p) (attr_type_map p)
      (permissive_map p) (policyvers p) (class_mem p) (role_mem p) (user_mem p) (type_mem p)
      (bool_mem p) (scope_mem p) (ftrans_mem p) (dangling p) (p_name p) (p_version p)
      (target_platform p) (unsupported_format p) (ocontexts p) (genfs p) (policycaps p)
      (handle_unknown p).

Definition set_p_users (v : symtab ptr) (p : policydb) : policydb :=
  PDB (policy_type p) (mls p) (p_commons p) (p_classes p) (p_roles p) (p_types p) v (p_bools p)
      (p_levels p) (p_cats p) (sym_val_to_name p) (class_val_to_struct p) (role_val_to_struct p)
      (user_val_to_struct p) (type_val_to_struct p) (scope p) (global p) (decl_val_to_struct p)
      (te_avtab p) (bool_val_to_struct p) (te_cond_avtab p) (cond_list p) (role_tr p)
      (role_allow p) (range_tr p) (filename_trans_tab p) (type_attr_map p) (attr_type_map p)
      (permissive_map p) (policyvers p) (class_mem p) (role_mem p) (user_mem p) (type_mem p)
      (bool_mem p) (scope_mem p) (ftrans_mem p) (dangling p) (p_name p) (p_version p)
      (target_platform p) (unsupported_format p) (ocontexts p) (genfs p) (policycaps p)
      (handle_unknown p).

Definition set_p_bools (v : symtab ptr) (p : policydb) : policydb :=
  PDB (policy_type p) (mls p) (p_commons p) (p_classes p) (p_roles p) (p_types p) (p_users p) v
      (p_levels p) (p_cats p) (sym_val_to_name p) (class_val_to_struct p) (role_val_to_struct p)
      (user_val_to_struct p) (type_val_to_struct p) (scope p) (global p) (decl_val_to_struct p)
      (te_avtab p) (bool_val_to_struct p) (te_cond_avtab p) (cond_list p) (role_tr p)
      (role_allow p) (range_tr p) (filename_trans_tab p) (type_attr_map p) (attr_type_map p)
      (permissive_map p) (policyvers p) (class_mem p) (role_mem p) (user_mem p) (type_mem p)
      (bool_mem p) (scope_mem p) (ftrans_mem p) (dangling p) (p_name p) (p_version p)
      (target_platform p) (unsupported_format p) (ocontexts p) (genfs p) (policycaps p)
      (handle_unknown p).

Definition set_scope (v : list (symtab ptr)) (p : policydb) : policydb :=
  PDB (policy_type p) (mls p) (p_commons p) (p_classes p) (p_roles p) (p_types p) (p_users p)
      (p_bools p) (p_levels p) (p_cats p) (sym_val_to_name p) (class_val_to_struct p)
      (role_val_to_struct p) (user_val_to_struct p) (type_val_to_struct p) v (global p)
      (decl_val_to_struct p) (te_avtab p) (bool_val_to_struct p) (te_cond_avtab p) (cond_list p)
      (role_tr p) (role_allow p) (range_tr p) (filename_trans_tab p) (type_attr_map p)
      (attr_type_map p) (permissive_map p) (policyvers p) (class_mem p) (role_mem p)
      (user_mem p) (type_mem p) (bool_mem p) (scope_mem p) (ftrans_mem p) (dangling p)
      (p_name p) (p_version p) (target_platform p) (unsupported_format p) (ocontexts p)
      (genfs p) (policycaps p) (handle_unknown p).

Definition set_sym_val_to_name (v : list (list (option string))) (p : policydb) : policydb :=
  PDB (policy_type p) (mls p) (p_commons p) (p_classes p) (p_roles p) (p_types p) (p_users p)
      (p_bools p) (p_levels p) (p_cats p) v (class_val_to_struct p) (role_val_to_struct p)
      (user_val_to_struct p) (type_val_to_struct p) (scope p) (global p) (decl_val_to_struct p)
      (te_avtab p) (bool_val_to_struct p) (te_cond_avtab p) (cond_list p) (role_tr p)
      (role_allow p) (range_tr p) (filename_trans_tab p) (type_attr_map p) (attr_type_map p)
      (permissive_map p) (policyvers p) (class_mem p) (role_mem p) (user_mem p) (type_mem p)
      (bool_mem p) (scope_mem p) (ftrans_mem p) (dangling p) (p_name p) (p_version p)
      (target_platform p) (unsupported_format p) (ocontexts p) (genfs p) (policycaps p)
      (handle_unknown p).

Definition set_class_val_to_struct (v : list (option ptr)) (p : policydb) : policydb :=
  PDB (policy_type p) (mls p) (p_commons p) (p_classes p) (p_roles p) (p_types p) (p_users p)
      (p_bools p) (p_levels p) (p_cats p) (sym_val_to_name p) v (role_val_to_struct p)
      (user_val_to_struct p) (type_val_to_struct p) (scope p) (global p) (decl_val_to_struct p)
      (te_avtab p) (bool_val_to_struct p) (te_cond_avtab p) (cond_list p) (role_tr p)
      (role_allow p) (range_tr p) (filename_trans_tab p) (type_attr_map p) (attr_type_map p)
      (permissive_map p) (policyvers p) (class_mem p) (role_mem p) (user_mem p) (type_mem p)
      (bool_mem p) (scope_mem p) (ftrans_mem p) (dangling p) (p_name p) (p_version p)
      (target_platform p) (unsupported_format p) (ocontexts p) (genfs p) (policycaps p)
      (handle_unknown p).

Definition set_role_val_to_struct (v : list (option ptr)) (p : policydb) : policydb :=
  PDB (policy_type p) (mls p) (p_commons p) (p_classes p) (p_roles p) (p_types p) (p_users p)
      (p_bools p) (p_levels p) (p_cats p) (sym_val_to_name p) (class_val_to_struct p) v
      (user_val_to_struct p) (type_val_to_struct p) (scope p) (global p) (decl_val_to_struct p)
      (te_avtab p) (bool_val_to_struct p) (te_cond_avtab p) (cond_list p) (role_tr p)
      (role_allow p) (range_tr p) (filename_trans_tab p) (type_attr_map p) (attr_type_map p)
      (permissive_map p) (policyvers p) (class_mem p) (role_mem p) (user_mem p) (type_mem p)
      (bool_mem p) (scope_mem p) (ftrans_mem p) (dangling p) (p_name p) (p_version p)
      (target_platform p) (unsupported_format p) (ocontexts p) (genfs p) (policycaps p)
      (handle_unknown p).

Definition set_user_val_to_struct (v : list (option ptr)) (p : policydb) : policydb :=
  PDB (policy_type p) (mls p) (p_commons p) (p_classes p) (p_roles p) (p_types p) (p_users p)
      (p_bools p) (p_levels p) (p_cats p) (sym_val_to_name p) (class_val_to_struct p)
      (role_val_to_struct p) v (type_val_to_struct p) (scope p) (global p)
      (decl_val_to_struct p) (te_avtab p) (bool_val_to_struct p) (te_cond_avtab p) (cond_list p)
      (role_tr p) (role_allow p) (range_tr p) (filename_trans_tab p) (type_attr_map p)
      (attr_type_map p) (permissive_map p) (policyvers p) (class_mem p) (role_mem p)
      (user_mem p) (type_mem p) (bool_mem p) (scope_mem p) (ftrans_mem p) (dangling p)
      (p_name p) (p_version p) (target_platform p) (unsupported_format p) (ocontexts p)
      (genfs p) (policycaps p) (handle_unknown p).

Definition set_type_val_to_struct (v : list (option ptr)) (p : policydb) : policydb :=
  PDB (policy_type p) (mls p) (p_commons p) (p_classes p) (p_roles p) (p_types p) (p_users p)
      (p_bools p) (p_levels p) (p_cats p) (sym_val_to_name p) (class_val_to_struct p)
      (role_val_to_struct p) (user_val_to_struct p) v (scope p) (global p)
      (decl_val_to_struct p) (te_avtab p) (bool_val_to_struct p) (te_cond_avtab p) (cond_list p)
      (role_tr p) (role_allow p) (range_tr p) (filename_trans_tab p) (type_attr_map p)
      (attr_type_map p) (permissive_map p) (policyvers p) (class_mem p) (role_mem p)
      (user_mem p) (type_mem p) (bool_mem p) (scope_mem p) (ftrans_mem p) (dangling p)
      (p_name p) (p_version p) (target_platform p) (unsupported_format p) (ocontexts p)
      (genfs p) (policycaps p) (handle_unknown p).

Definition set_bool_val_to_struct (v : list (option ptr)) (p : policydb) : policydb :=
  PDB (policy_type p) (mls p) (p_commons p) (p_classes p) (p_roles p) (p_types p) (p_users p)
      (p_bools p) (p_levels p) (p_cats p) (sym_val_to_name p) (class_val_to_struct p)
      (role_val_to_struct p) (user_val_to_struct p) (type_val_to_struct p) (scope p) (global p)
      (decl_val_to_struct p) (te_avtab p) v (te_cond_avtab p) (cond_list p) (role_tr p)
      (role_allow p) (range_tr p) (filename_trans_tab p) (type_attr_map p) (attr_type_map p)
      (permissive_map p) (policyvers p) (class_mem p) (role_mem p) (user_mem p) (type_mem p)
      (bool_mem p) (scope_mem p) (ftrans_mem p) (dangling p) (p_name p) (p_version p)
      (target_platform p) (unsupported_format p) (ocontexts p) (genfs p) (policycaps p)
      (handle_unknown p).

Definition set_global (v : list avrule_block) (p : policydb) : policydb :=
  PDB (policy_type p) (mls p) (p_commons p) (p_classes p) (p_roles p) (p_types p) (p_users p)
      (p_bools p) (p_levels p) (p_cats p) (sym_val_to_name p) (class_val_to_struct p)
      (role_val_to_struct p) (user_val_to_struct p) (type_val_to_struct p) (scope p) v
      (decl_val_to_struct p) (te_avtab p) (bool_val_to_struct p) (te_cond_avtab p) (cond_list p)
      (role_tr p) (role_allow p) (range_tr p) (filename_trans_tab p) (type_attr_map p)
      (attr_type_map p) (permissive_map p) (policyvers p) (class_mem p) (role_mem p)
      (user_mem p) (type_mem p) (bool_mem p) (scope_mem p) (ftrans_mem p) (dangling p)
      (p_name p) (p_version p) (target_platform p) (unsupported_format p) (ocontexts p)
      (genfs p) (policycaps p) (handle_unknown p).

Definition set_decl_val_to_struct (v : list (option (Z * Z))) (p : policydb) : policydb :=
  PDB (policy_type p) (mls p) (p_commons p) (p_classes p) (p_roles p) (p_types p) (p_users p)
      (p_bools p) (p_levels p) (p_cats p) (sym_val_to_name p) (class_val_to_struct p)
      (role_val_to_struct p) (user_val_to_struct p) (type_val_to_struct p) (scope p) (global p)
      v (te_avtab p) (bool_val_to_struct p) (te_cond_avtab p) (cond_list p) (role_tr p)
      (role_allow p) (range_tr p) (filename_trans_tab p) (type_attr_map p) (attr_type_map p)
      (permissive_map p) (policyvers p) (class_mem p) (role_mem p) (user_mem p) (type_mem p)
      (bool_mem p) (scope_mem p) (ftrans_mem p) (dangling p) (p_name p) (p_version p)
      (target_platform p) (unsupported_format p) (ocontexts p) (genfs p) (policycaps p)
      (handle_unknown p).

Definition set_te_avtab (v : avtab) (p : policydb) : policydb :=
  PDB (policy_type p) (mls p) (p_commons p) (p_classes p) (p_roles p) (p_types p) (p_users p)
      (p_bools p) (p_levels p) (p_cats p) (sym_val_to_name p) (class_val_to_struct p)
      (role_val_to_struct p) (user_val_to_struct p) (type_val_to_struct p) (scope p) (global p)
      (decl_val_to_struct p) v (bool_val_to_struct p) (te_cond_avtab p) (cond_list p)
      (role_tr p) (role_allow p) (range_tr p) (filename_trans_tab p) (type_attr_map p)
      (attr_type_map p) (permissive_map p) (policyvers p) (class_mem p) (role_mem p)
      (user_mem p) (type_mem p) (bool_mem p) (scope_mem p) (ftrans_mem p) (dangling p)
      (p_name p) (p_version p) (target_platform p) (unsupported_format p) (ocontexts p)
      (genfs p) (policycaps p) (handle_unknown p).

Definition set_te_cond_avtab (v : avtab) (p : policydb) : policydb :=
  PDB (policy_type p) (mls p) (p_commons p) (p_classes p) (p_roles p) (p_types p) (p_users p)
      (p_bools p) (p_levels p) (p_cats p) (sym_val_to_name p) (class_val_to_struct p)
      (role_val_to_struct p) (user_val_to_struct p) (type_val_to_struct p) (scope p) (global p)
      (decl_val_to_struct p) (te_avtab p) (bool_val_to_struct p) v (cond_list p) (role_tr p)
      (role_allow p) (range_tr p) (filename_trans_tab p) (type_attr_map p) (attr_type_map p)
      (permissive_map p) (policyvers p) (class_mem p) (role_mem p) (user_mem p) (type_mem p)
      (bool_mem p) (scope_mem p) (ftrans_mem p) (dangling p) (p_name p) (p_version p)
      (target_platform p) (unsupported_format p) (ocontexts p) (genfs p) (policycaps p)
      (handle_unknown p).

Definition set_cond_list (v : list cond_node) (p : policydb) : policydb :=
  PDB (policy_type p) (mls p) (p_commons p) (p_classes p) (p_roles p) (p_types p) (p_users p)
      (p_bools p) (p_levels p) (p_cats p) (sym_val_to_name p) (class_val_to_struct p)
      (role_val_to_struct p) (user_val_to_struct p) (type_val_to_struct p) (scope p) (global p)
      (decl_val_to_struct p) (te_avtab p) (bool_val_to_struct p) (te_cond_avtab p) v (role_tr p)
      (role_allow p) (range_tr p) (filename_trans_tab p) (type_attr_map p) (attr_type_map p)
      (permissive_map p) (policyvers p) (class_mem p) (role_mem p) (user_mem p) (type_mem p)
      (bool_mem p) (scope_mem p) (ftrans_mem p) (dangling p) (p_name p) (p_version p)
      (target_platform p) (unsupported_format p) (ocontexts p) (genfs p) (policycaps p)
      (handle_unknown p).

Definition set_filename_trans_tab (v : hashtab_t filename_trans ptr) (p : policydb) : policydb :=
  PDB (policy_type p) (mls p) (p_commons p) (p_classes p) (p_roles p) (p_types p) (p_users p)
      (p_bools p) (p_levels p) (p_cats p) (sym_val_to_name p) (class_val_to_struct p)
      (role_val_to_struct p) (user_val_to_struct p) (type_val_to_struct p) (scope p) (global p)
      (decl_val_to_struct p) (te_avtab p) (bool_val_to_struct p) (te_cond_avtab p) (cond_list p)
      (role_tr p) (role_allow p) (range_tr p) v (type_attr_map p) (attr_type_map p)
      (permissive_map p) (policyvers p) (class_mem p) (role_mem p) (user_mem p) (type_mem p)
      (bool_mem p) (scope_mem p) (ftrans_mem p) (dangling p) (p_name p) (p_version p)
      (target_platform p) (unsupported_format p) (ocontexts p) (genfs p) (policycaps p)
      (handle_unknown p).

Definition set_type_attr_map (v : list (option ebitmap)) (p : policydb) : policydb :=
  PDB (policy_type p) (mls p) (p_commons p) (p_classes p) (p_roles p) (p_types p) (p_users p)
      (p_bools p) (p_levels p) (p_cats p) (sym_val_to_name p) (class_val_to_struct p)
      (role_val_to_struct p) (user_val_to_struct p) (type_val_to_struct p) (scope p) (global p)
      (decl_val_to_struct p) (te_avtab p) (bool_val_to_struct p) (te_cond_avtab p) (cond_list p)
      (role_tr p) (role_allow p) (range_tr p) (filename_trans_tab p) v (attr_type_map p)
      (permissive_map p) (policyvers p) (class_mem p) (role_mem p) (user_mem p) (type_mem p)
      (bool_mem p) (scope_mem p) (ftrans_mem p) (dangling p) (p_name p) (p_version p)
      (target_platform p) (unsupported_format p) (ocontexts p) (genfs p) (policycaps p)
      (handle_unknown p).

Definition set_attr_type_map (v : list (option ebitmap)) (p : policydb) : policydb :=
  PDB (policy_type p) (mls p) (p_commons p) (p_classes p) (p_roles p) (p_types p) (p_users p)
      (p_bools p) (p_levels p) (p_cats p) (sym_val_to_name p) (class_val_to_struct p)
      (role_val_to_struct p) (user_val_to_struct p) (type_val_to_struct p) (scope p) (global p)
      (decl_val_to_struct p) (te_avtab p) (bool_val_to_struct p) (te_cond_avtab p) (cond_list p)
      (role_tr p) (role_allow p) (range_tr p) (filename_trans_tab p) (type_attr_map p) v
      (permissive_map p) (policyvers p) (class_mem p) (role_mem p) (user_mem p) (type_mem p)
      (bool_mem p) (scope_mem p) (ftrans_mem p) (dangling p) (p_name p) (p_version p)
      (target_platform p) (unsupported_format p) (ocontexts p) (genfs p) (policycaps p)
      (handle_unknown p).

Definition set_permissive_map (v : ebitmap) (p : policydb) : policydb :=
  PDB (policy_type p) (mls p) (p_commons p) (p_classes p) (p_roles p) (p_types p) (p_users p)
      (p_bools p) (p_levels p) (p_cats p) (sym_val_to_name p) (class_val_to_struct p)
      (role_val_to_struct p) (user_val_to_struct p) (type_val_to_struct p) (scope p) (global p)
      (decl_val_to_struct p) (te_avtab p) (bool_val_to_struct p) (te_cond_avtab p) (cond_list p)
      (role_tr p) (role_allow p) (range_tr p) (filename_trans_tab p) (type_attr_map p)
      (attr_type_map p) v (policyvers p) (class_mem p) (role_mem p) (user_mem p) (type_mem p)
      (bool_mem p) (scope_mem p) (ftrans_mem p) (dangling p) (p_name p) (p_version p)
      (target_platform p) (unsupported_format p) (ocontexts p) (genfs p) (policycaps p)
      (handle_unknown p).

Definition set_class_mem (v : list class_datum) (p : policydb) : policydb :=
  PDB (policy_type p) (mls p) (p_commons p) (p_classes p) (p_roles p) (p_types p) (p_users p)
      (p_bools p) (p_levels p) (p_cats p) (sym_val_to_name p) (class_val_to_struct p)
      (role_val_to_struct p) (user_val_to_struct p) (type_val_to_struct p) (scope p) (global p)
      (decl_val_to_struct p) (te_avtab p) (bool_val_to_struct p) (te_cond_avtab p) (cond_list p)
      (role_tr p) (role_allow p) (range_tr p) (filename_trans_tab p) (type_attr_map p)
      (attr_type_map p) (permissive_map p) (policyvers p) v (role_mem p) (user_mem p)
      (type_mem p) (bool_mem p) (scope_mem p) (ftrans_mem p) (dangling p) (p_name p)
      (p_version p) (target_platform p) (unsupported_format p) (ocontexts p) (genfs p)
      (policycaps p) (handle_unknown p).

Definition set_role_mem (v : list role_datum) (p : policydb) : policydb :=
  PDB (policy_type p) (mls p) (p_commons p) (p_classes p) (p_roles p) (p_types p) (p_users p)
      (p_bools p) (p_levels p) (p_cats p) (sym_val_to_name p) (class_val_to_struct p)
      (role_val_to_struct p) (user_val_to_struct p) (type_val_to_struct p) (scope p) (global p)
      (decl_val_to_struct p) (te_avtab p) (bool_val_to_struct p) (te_cond_avtab p) (cond_list p)
      (role_tr p) (role_allow p) (range_tr p) (filename_trans_tab p) (type_attr_map p)
      (attr_type_map p) (permissive_map p) (policyvers p) (class_mem p) v (user_mem p)
      (type_mem p) (bool_mem p) (scope_mem p) (ftrans_mem p) (dangling p) (p_name p)
      (p_version p) (target_platform p) (unsupported_format p) (ocontexts p) (genfs p)
      (policycaps p) (handle_unknown p).

Definition set_user_mem (v : list user_datum) (p : policydb) : policydb :=
  PDB (policy_type p) (mls p) (p_commons p) (p_classes p) (p_roles p) (p_types p) (p_users p)
      (p_bools p) (p_levels p) (p_cats p) (sym_val_to_name p) (class_val_to_struct p)
      (role_val_to_struct p) (user_val_to_struct p) (type_val_to_struct p) (scope p) (global p)
      (decl_val_to_struct p) (te_avtab p) (bool_val_to_struct p) (te_cond_avtab p) (cond_list p)
      (role_tr p) (role_allow p) (range_tr p) (filename_trans_tab p) (type_attr_map p)
      (attr_type_map p) (permissive_map p) (policyvers p) (class_mem p) (role_mem p) v
      (type_mem p) (bool_mem p) (scope_mem p) (ftrans_mem p) (dangling p) (p_name p)
      (p_version p) (target_platform p) (unsupported_format p) (ocontexts p) (genfs p)
      (policycaps p) (handle_unknown p).

Definition set_type_mem (v : list type_datum) (p : policydb) : policydb :=
  PDB (policy_type p) (mls p) (p_commons p) (p_classes p) (p_roles p) (p_types p) (p_users p)
      (p_bools p) (p_levels p) (p_cats p) (sym_val_to_name p) (class_val_to_struct p)
      (role_val_to_struct p) (user_val_to_struct p) (type_val_to_struct p) (scope p) (global p)
      (decl_val_to_struct p) (te_avtab p) (bool_val_to_struct p) (te_cond_avtab p) (cond_list p)
      (role_tr p) (role_allow p) (range_tr p) (filename_trans_tab p) (type_attr_map p)
      (attr_type_map p) (permissive_map p) (policyvers p) (class_mem p) (role_mem p)
      (user_mem p) v (bool_mem p) (scope_mem p) (ftrans_mem p) (dangling p) (p_name p)
      (p_version p) (target_platform p) (unsupported_format p) (ocontexts p) (genfs p)
      (policycaps p) (handle_unknown p).

Definition set_bool_mem (v : list cond_bool_datum) (p : policydb) : policydb :=
  PDB (policy_type p) (mls p) (p_commons p) (p_classes p) (p_roles p) (p_types p) (p_users p)
      (p_bools p) (p_levels p) (p_cats p) (sym_val_to_name p) (class_val_to_struct p)
      (role_val_to_struct p) (user_val_to_struct p) (type_val_to_struct p) (scope p) (global p)
      (decl_val_to_struct p) (te_avtab p) (bool_val_to_struct p) (te_cond_avtab p) (cond_list p)
      (role_tr p) (role_allow p) (range_tr p) (filename_trans_tab p) (type_attr_map p)
      (attr_type_map p) (permissive_map p) (policyvers p) (class_mem p) (role_mem p)
      (user_mem p) (type_mem p) v (scope_mem p) (ftrans_mem p) (dangling p) (p_name p)
      (p_version p) (target_platform p) (unsupported_format p) (ocontexts p) (genfs p)
      (policycaps p) (handle_unknown p).

Definition set_scope_mem (v : list scope_datum) (p : policydb) : policydb :=
  PDB (policy_type p) (mls p) (p_commons p) (p_classes p) (p_roles p) (p_types p) (p_users p)
      (p_bools p) (p_levels p) (p_cats p) (sym_val_to_name p) (class_val_to_struct p)
      (role_val_to_struct p) (user_val_to_struct p) (type_val_to_struct p) (scope p) (global p)
      (decl_val_to_struct p) (te_avtab p) (bool_val_to_struct p) (te_cond_avtab p) (cond_list p)
      (role_tr p) (role_allow p) (range_tr p) (filename_trans_tab p) (type_attr_map p)
      (attr_type_map p) (permissive_map p) (policyvers p) (class_mem p) (role_mem p)
      (user_mem p) (type_mem p) (bool_mem p) v (ftrans_mem p) (dangling p) (p_name p)
      (p_version p) (target_platform p) (unsupported_format p) (ocontexts p) (genfs p)
      (policycaps p) (handle_unknown p).

Definition set_ftrans_mem (v : list filename_trans_datum) (p : policydb) : policydb :=
  PDB (policy_type p) (mls p) (p_commons p) (p_classes p) (p_roles p) (p_types p) (p_users p)
      (p_bools p) (p_levels p) (p_cats p) (sym_val_to_name p) (class_val_to_struct p)
      (role_val_to_struct p) (user_val_to_struct p) (type_val_to_struct p) (scope p) (global p)
      (decl_val_to_struct p) (te_avtab p) (bool_val_to_struct p) (te_cond_avtab p) (cond_list p)
      (role_tr p) (role_allow p) (range_tr p) (filename_trans_tab p) (type_attr_map p)
      (attr_type_map p) (permissive_map p) (policyvers p) (class_mem p) (role_mem p)
      (user_mem p) (type_mem p) (bool_mem p) (scope_mem p) v (dangling p) (p_name p)
      (p_version p) (target_platform p) (unsupported_format p) (ocontexts p) (genfs p)
      (policycaps p) (handle_unknown p).

Definition set_dangling (v : list filename_trans) (p : policydb) : policydb :=
  PDB (policy_type p) (mls p) (p_commons p) (p_classes p) (p_roles p) (p_types p) (p_users p)
      (p_bools p) (p_levels p) (p_cats p) (sym_val_to_name p) (class_val_to_struct p)
      (role_val_to_struct p) (user_val_to_struct p) (type_val_to_struct p) (scope p) (global p)
      (decl_val_to_struct p) (te_avtab p) (bool_val_to_struct p) (te_cond_avtab p) (cond_list p)
      (role_tr p) (role_allow p) (range_tr p) (filename_trans_tab p) (type_attr_map p)
      (attr_type_map p) (permissive_map p) (policyvers p) (class_mem p) (role_mem p)
      (user_mem p) (type_mem p) (bool_mem p) (scope_mem p) (ftrans_mem p) v (p_name p)
      (p_version p) (target_platform p) (unsupported_format p) (ocontexts p) (genfs p)
      (policycaps p) (handle_unknown p).

Definition set_policy_type (v : Z) (p : policydb) : policydb :=
  PDB v (mls p) (p_commons p) (p_classes p) (p_roles p) (p_types p) (p_users p) (p_bools p)
      (p_levels p) (p_cats p) (sym_val_to_name p) (class_val_to_struct p) (role_val_to_struct p)
      (user_val_to_struct p) (type_val_to_struct p) (scope p) (global p) (decl_val_to_struct p)
      (te_avtab p) (bool_val_to_struct p) (te_cond_avtab p) (cond_list p) (role_tr p)
      (role_allow p) (range_tr p) (filename_trans_tab p) (type_attr_map p) (attr_type_map p)
      (permissive_map p) (policyvers p) (class_mem p) (role_mem p) (user_mem p) (type_mem p)
      (bool_mem p) (scope_mem p) (ftrans_mem p) (dangling p) (p_name p) (p_version p)
      (target_platform p) (unsupported_format p) (ocontexts p) (genfs p) (policycaps p)
      (handle_unknown p).

Definition set_mls (v : Z) (p : policydb) : policydb :=
  PDB (policy_type p) v (p_commons p) (p_classes p) (p_roles p) (p_types p) (p_users p)
      (p_bools p) (p_levels p) (p_cats p) (sym_val_to_name p) (class_val_to_struct p)
      (role_val_to_struct p) (user_val_to_struct p) (type_val_to_struct p) (scope p) (global p)
      (decl_val_to_struct p) (te_avtab p) (bool_val_to_struct p) (te_cond_avtab p) (cond_list p)
      (role_tr p) (role_allow p) (range_tr p) (filename_trans_tab p) (type_attr_map p)
      (attr_type_map p) (permissive_map p) (policyvers p) (class_mem p) (role_mem p)
      (user_mem p) (type_mem p) (bool_mem p) (scope_mem p) (ftrans_mem p) (dangling p)
      (p_name p) (p_version p) (target_platform p) (unsupported_format p) (ocontexts p)
      (genfs p) (policycaps p) (handle_unknown p).

Definition set_p_commons (v : symtab common_datum) (p : policydb) : policydb :=
  PDB (policy_type p) (mls p) v (p_classes p) (p_roles p) (p_types p) (p_users p) (p_bools p)
      (p_levels p) (p_cats p) (sym_val_to_name p) (class_val_to_struct p) (role_val_to_struct p)
      (user_val_to_struct p) (type_val_to_struct p) (scope p) (global p) (decl_val_to_struct p)
      (te_avtab p) (bool_val_to_struct p) (te_cond_avtab p) (cond_list p) (role_tr p)
      (role_allow p) (range_tr p) (filename_trans_tab p) (type_attr_map p) (attr_type_map p)
      (permissive_map p) (policyvers p) (class_mem p) (role_mem p) (user_mem p) (type_mem p)
      (bool_mem p) (scope_mem p) (ftrans_mem p) (dangling p) (p_name p) (p_version p)
      (target_platform p) (unsupported_format p) (ocontexts p) (genfs p) (policycaps p)
      (handle_unknown p).

Definition set_p_levels (v : symtab level_datum) (p : policydb) : policydb :=
  PDB (policy_type p) (mls p) (p_commons p) (p_classes p) (p_roles p) (p_types p) (p_users p)
      (p_bools p) v (p_cats p) (sym_val_to_name p) (class_val_to_struct p)
      (role_val_to_struct p) (user_val_to_struct p) (type_val_to_struct p) (scope p) (global p)
      (decl_val_to_struct p) (te_avtab p) (bool_val_to_struct p) (te_cond_avtab p) (cond_list p)
      (role_tr p) (role_allow p) (range_tr p) (filename_trans_tab p) (type_attr_map p)
      (attr_type_map p) (permissive_map p) (policyvers p) (class_mem p) (role_mem p)
      (user_mem p) (type_mem p) (bool_mem p) (scope_mem p) (ftrans_mem p) (dangling p)
      (p_name p) (p_version p) (target_platform p) (unsupported_format p) (ocontexts p)
      (genfs p) (policycaps p) (handle_unknown p).

Definition set_p_cats (v : symtab cat_datum) (p : policydb) : policydb :=
  PDB (policy_type p) (mls p) (p_commons p) (p_classes p) (p_roles p) (p_types p) (p_users p)
      (p_bools p) (p_levels p) v (sym_val_to_name p) (class_val_to_struct p)
      (role_val_to_struct p) (user_val_to_struct p) (type_val_to_struct p) (scope p) (global p)
      (decl_val_to_struct p) (te_avtab p) (bool_val_to_struct p) (te_cond_avtab p) (cond_list p)
      (role_tr p) (role_allow p) (range_tr p) (filename_trans_tab p) (type_attr_map p)
      (attr_type_map p) (permissive_map p) (policyvers p) (class_mem p) (role_mem p)
      (user_mem p) (type_mem p) (bool_mem p) (scope_mem p) (ftrans_mem p) (dangling p)
      (p_name p) (p_version p) (target_platform p) (unsupported_format p) (ocontexts p)
      (genfs p) (policycaps p) (handle_unknown p).

Definition set_role_tr (v : list role_trans) (p : policydb) : policydb :=
  PDB (policy_type p) (mls p) (p_commons p) (p_classes p) (p_roles p) (p_types p) (p_users p)
      (p_bools p) (p_levels p) (p_cats p) (sym_val_to_name p) (class_val_to_struct p)
      (role_val_to_struct p) (user_val_to_struct p) (type_val_to_struct p) (scope p) (global p)
      (decl_val_to_struct p) (te_avtab p) (bool_val_to_struct p) (te_cond_avtab p) (cond_list p)
      v (role_allow p) (range_tr p) (filename_trans_tab p) (type_attr_map p) (attr_type_map p)
      (permissive_map p) (policyvers p) (class_mem p) (role_mem p) (user_mem p) (type_mem p)
      (bool_mem p) (scope_mem p) (ftrans_mem p) (dangling p) (p_name p) (p_version p)
      (target_platform p) (unsupported_format p) (ocontexts p) (genfs p) (policycaps p)
      (handle_unknown p).

Definition set_role_allow (v : list role_allow_t) (p : policydb) : policydb :=
  PDB (policy_type p) (mls p) (p_commons p) (p_classes p) (p_roles p) (p_types p) (p_users p)
      (p_bools p) (p_levels p) (p_cats p) (sym_val_to_name p) (class_val_to_struct p)
      (role_val_to_struct p) (user_val_to_struct p) (type_val_to_struct p) (scope p) (global p)
      (decl_val_to_struct p) (te_avtab p) (bool_val_to_struct p) (te_cond_avtab p) (cond_list p)
      (role_tr p) v (range_tr p) (filename_trans_tab p) (type_attr_map p) (attr_type_map p)
      (permissive_map p) (policyvers p) (class_mem p) (role_mem p) (user_mem p) (type_mem p)
      (bool_mem p) (scope_mem p) (ftrans_mem p) (dangling p) (p_name p) (p_version p)
      (target_platform p) (unsupported_format p) (ocontexts p) (genfs p) (policycaps p)
      (handle_unknown p).

Definition set_range_tr (v : hashtab_t range_trans mls_range) (p : policydb) : policydb :=
  PDB (policy_type p) (mls p) (p_commons p) (p_classes p) (p_roles p) (p_types p) (p_users p)
      (p_bools p) (p_levels p) (p_cats p) (sym_val_to_name p) (class_val_to_struct p)
      (role_val_to_struct p) (user_val_to_struct p) (type_val_to_struct p) (scope p) (global p)
      (decl_val_to_struct p) (te_avtab p) (bool_val_to_struct p) (te_cond_avtab p) (cond_list p)
      (role_tr p) (role_allow p) v (filename_trans_tab p) (type_attr_map p) (attr_type_map p)
      (permissive_map p) (policyvers p) (class_mem p) (role_mem p) (user_mem p) (type_mem p)
      (bool_mem p) (scope_mem p) (ftrans_mem p) (dangling p) (p_name p) (p_version p)
      (target_platform p) (unsupported_format p) (ocontexts p) (genfs p) (policycaps p)
      (handle_unknown p).

Definition set_policyvers (v : Z) (p : policydb) : policydb :=
  PDB (policy_type p) (mls p) (p_commons p) (p_classes p) (p_roles p) (p_types p) (p_users p)
      (p_bools p) (p_levels p) (p_cats p) (sym_val_to_name p) (class_val_to_struct p)
      (role_val_to_struct p) (user_val_to_struct p) (type_val_to_struct p) (scope p) (global p)
      (decl_val_to_struct p) (te_avtab p) (bool_val_to_struct p) (te_cond_avtab p) (cond_list p)
      (role_tr p) (role_allow p) (range_tr p) (filename_trans_tab p) (type_attr_map p)
      (attr_type_map p) (permissive_map p) v (class_mem p) (role_mem p) (user_mem p)
      (type_mem p) (bool_mem p) (scope_mem p) (ftrans_mem p) (dangling p) (p_name p)
      (p_version p) (target_platform p) (unsupported_format p) (ocontexts p) (genfs p)
      (policycaps p) (handle_unknown p).

Definition set_p_name (v : option string) (p : policydb) : policydb :=
  PDB (policy_type p) (mls p) (p_commons p) (p_classes p) (p_roles p) (p_types p) (p_users p)
      (p_bools p) (p_levels p) (p_cats p) (sym_val_to_name p) (class_val_to_struct p)
      (role_val_to_struct p) (user_val_to_struct p) (type_val_to_struct p) (scope p) (global p)
      (decl_val_to_struct p) (te_avtab p) (bool_val_to_struct p) (te_cond_avtab p) (cond_list p)
      (role_tr p) (role_allow p) (range_tr p) (filename_trans_tab p) (type_attr_map p)
      (attr_type_map p) (permissive_map p) (policyvers p) (class_mem p) (role_mem p)
      (user_mem p) (type_mem p) (bool_mem p) (scope_mem p) (ftrans_mem p) (dangling p) v
      (p_version p) (target_platform p) (unsupported_format p) (ocontexts p) (genfs p)
      (policycaps p) (handle_unknown p).

Definition set_p_version (v : option string) (p : policydb) : policydb :=
  PDB (policy_type p) (mls p) (p_commons p) (p_classes p) (p_roles p) (p_types p) (p_users p)
      (p_bools p) (p_levels p) (p_cats p) (sym_val_to_name p) (class_val_to_struct p)
      (role_val_to_struct p) (user_val_to_struct p) (type_val_to_struct p) (scope p) (global p)
      (decl_val_to_struct p) (te_avtab p) (bool_val_to_struct p) (te_cond_avtab p) (cond_list p)
      (role_tr p) (role_allow p) (range_tr p) (filename_trans_tab p) (type_attr_map p)
      (attr_type_map p) (permissive_map p) (policyvers p) (class_mem p) (role_mem p)
      (user_mem p) (type_mem p) (bool_mem p) (scope_mem p) (ftrans_mem p) (dangling p)
      (p_name p) v (target_platform p) (unsupported_format p) (ocontexts p) (genfs p)
      (policycaps p) (handle_unknown p).

Definition set_target_platform (v : Z) (p : policydb) : policydb :=
  PDB (policy_type p) (mls p) (p_commons p) (p_classes p) (p_roles p) (p_types p) (p_users p)
      (p_bools p) (p_levels p) (p_cats p) (sym_val_to_name p) (class_val_to_struct p)
      (role_val_to_struct p) (user_val_to_struct p) (type_val_to_struct p) (scope p) (global p)
      (decl_val_to_struct p) (te_avtab p) (bool_val_to_struct p) (te_cond_avtab p) (cond_list p)
      (role_tr p) (role_allow p) (range_tr p) (filename_trans_tab p) (type_attr_map p)
      (attr_type_map p) (permissive_map p) (policyvers p) (class_mem p) (role_mem p)
      (user_mem p) (type_mem p) (bool_mem p) (scope_mem p) (ftrans_mem p) (dangling p)
      (p_name p) (p_version p) v (unsupported_format p) (ocontexts p) (genfs p) (policycaps p)
      (handle_unknown p).

Definition set_ocontexts (v : list (list ocontext)) (p : policydb) : policydb :=
  PDB (policy_type p) (mls p) (p_commons p) (p_classes p) (p_roles p) (p_types p) (p_users p)
      (p_bools p) (p_levels p) (p_cats p) (sym_val_to_name p) (class_val_to_struct p)
      (role_val_to_struct p) (user_val_to_struct p) (type_val_to_struct p) (scope p) (global p)
      (decl_val_to_struct p) (te_avtab p) (bool_val_to_struct p) (te_cond_avtab p) (cond_list p)
      (role_tr p) (role_allow p) (range_tr p) (filename_trans_tab p) (type_attr_map p)
      (attr_type_map p) (permissive_map p) (policyvers p) (class_mem p) (role_mem p)
      (user_mem p) (type_mem p) (bool_mem p) (scope_mem p) (ftrans_mem p) (dangling p)
      (p_name p) (p_version p) (target_platform p) (unsupported_format p) v (genfs p)
      (policycaps p) (handle_unknown p).

Definition set_genfs (v : list genfs_t) (p : policydb) : policydb :=
  PDB (policy_type p) (mls p) (p_commons p) (p_classes p) (p_roles p) (p_types p) (p_users p)
      (p_bools p) (p_levels p) (p_cats p) (sym_val_to_name p) (class_val_to_struct p)
      (role_val_to_struct p) (user_val_to_struct p) (type_val_to_struct p) (scope p) (global p)
      (decl_val_to_struct p) (te_avtab p) (bool_val_to_struct p) (te_cond_avtab p) (cond_list p)
      (role_tr p) (role_allow p) (range_tr p) (filename_trans_tab p) (type_attr_map p)
      (attr_type_map p) (permissive_map p) (policyvers p) (class_mem p) (role_mem p)
      (user_mem p) (type_mem p) (bool_mem p) (scope_mem p) (ftrans_mem p) (dangling p)
      (p_name p) (p_version p) (target_platform p) (unsupported_format p) (ocontexts p) v
      (policycaps p) (handle_unknown p).

Definition set_policycaps (v : ebitmap) (p : policydb) : policydb :=
  PDB (policy_type p) (mls p) (p_commons p) (p_classes p) (p_roles p) (p_types p) (p_users p)
      (p_bools p) (p_levels p) (p_cats p) (sym_val_to_name p) (class_val_to_struct p)
      (role_val_to_struct p) (user_val_to_struct p) (type_val_to_struct p) (scope p) (global p)
      (decl_val_to_struct p) (te_avtab p) (bool_val_to_struct p) (te_cond_avtab p) (cond_list p)
      (role_tr p) (role_allow p) (range_tr p) (filename_trans_tab p) (type_attr_map p)
      (attr_type_map p) (permissive_map p) (policyvers p) (class_mem p) (role_mem p)
      (user_mem p) (type_mem p) (bool_mem p) (scope_mem p) (ftrans_mem p) (dangling p)
      (p_name p) (p_version p) (target_platform p) (unsupported_format p) (ocontexts p)
      (genfs p) v (handle_unknown p).

Definition set_handle_unknown (v : Z) (p : policydb) : policydb :=
  PDB (policy_type p) (mls p) (p_commons p) (p_classes p) (p_roles p) (p_types p) (p_users p)
      (p_bools p) (p_levels p) (p_cats p) (sym_val_to_name p) (class_val_to_struct p)
      (role_val_to_struct p) (user_val_to_struct p) (type_val_to_struct p) (scope p) (global p)
      (decl_val_to_struct p) (te_avtab p) (bool_val_to_struct p) (te_cond_avtab p) (cond_list p)
      (role_tr p) (role_allow p) (range_tr p) (filename_trans_tab p) (type_attr_map p)
      (attr_type_map p) (permissive_map p) (policyvers p) (class_mem p) (role_mem p)
      (user_mem p) (type_mem p) (bool_mem p) (scope_mem p) (ftrans_mem p) (dangling p)
      (p_name p) (p_version p) (target_platform p) (unsupported_format p) (ocontexts p)
      (genfs p) (policycaps p) v.

(** ** State, pointers and memory *)

(** The policy and the allocation tape. *)
Definition st : Type := policydb * mem.

Definition get_p {A} (f : policydb → A) : M st A := gets (λ s, f s.1).
Definition upd (f : policydb → policydb) : M st () := modify (λ s, (f s.1, s.2)).

(** Runs an operation that only needs memory. *)
Definition with_mem {A} (f : mem → A * mem) : M st A := λ s, let '(a, m) := f s.2 in Ret (a, (s.1, m)).

Definition alloc : M st bool := with_mem malloc.

(** Reading and writing the object a pointer refers to; [ref] makes NULL
    undefined behaviour. *)
Definition load {A} (store : policydb → list A) (q : ptr) : M st A :=
  l ← get_p store; lift (deref (at_index l q)).

Definition ref {A} (o : option A) : M st A := lift (deref o).

Definition elem {A} (arr : policydb → list A) (i : Z) : M st A :=
  l ← get_p arr; lift (deref (at_index l i)).

(** Writes one element of an array that is a field of the policy. *)
Definition write {A} (arr : policydb → list A) (set : list A → policydb → policydb) (i : Z) (a : A) : M st () :=
  l ← get_p arr;
  _ ← lift (deref (at_index l i));
  upd (set (set_index l i a)).

(** A fresh object in a store: its pointer. *)
Definition new {A} (store : policydb → list A) (set : list A → policydb → policydb) (a : A) : M st ptr :=
  l ← get_p store;
  _ ← upd (set (l ++ [a]));
  mret (Z.of_nat (length l)).

(** A loop over [l] with loop variables [b]; the body leaves it with [inl]. *)
Fixpoint loop {A B R} (body : A → B → M st (R + B)) (l : list A) (b : B) : M st (R + B) :=
  match l with
  | [] => mret (inr b)
  | a :: l' =>
      r ← body a b;
      match r with
      | inl r => mret (inl r)
      | inr b => loop body l' b
      end
  end.

(** [for (i = 0; i < n; i++)] *)
Definition upto (n : Z) : list Z := seqZ 0 n.

(** Ebitmap operations in the state: the status and the new bitmap. *)
Definition set_bit (e : ebitmap) (bit : Z) (value : bool) : M st (Z * ebitmap) :=
  with_mem (λ m, let '(rc, e, m) := ebitmap_set_bit e bit value m in ((rc, e), m)).
Definition union (dst e : ebitmap) : M st (Z * ebitmap) :=
  with_mem (λ m, let '(rc, e, m) := ebitmap_union dst e m in ((rc, e), m)).
Definition cpy (src : ebitmap) : M st (Z * ebitmap) :=
  with_mem (λ m, let '(rc, e, m) := ebitmap_cpy src m in ((rc, e), m)).

(** ** Type sets and role sets *)

Definition type_set_init : type_set := TS ebitmap_init ebitmap_init 0.

(** The flags are left alone. *)
Definition type_set_destroy (x : type_set) : type_set :=
  TS (ebitmap_destroy (types x)) (ebitmap_destroy (negset x)) (ts_flags x).

Definition role_set_init : role_set := RS ebitmap_init 0.

Definition type_set_or (a b : type_set) (m : mem) : Z * type_set * mem :=
  let dst := type_set_init in
  let '(rc, t, m) := ebitmap_or (types a) (types b) m in
  if negb (rc =? 0) then (-1, TS t (negset dst) (ts_flags dst), m)
  else
    let '(rc, n, m) := ebitmap_or (negset a) (negset b) m in
    if negb (rc =? 0) then (-1, TS t n (ts_flags dst), m)
    else (0, TS t n (Z.lor (Z.lor (ts_flags dst) (ts_flags a)) (ts_flags b)), m).

Definition type_set_cpy (src : type_set) (m : mem) : Z * type_set * mem :=
  let dst := type_set_init in
  let '(rc, t, m) := ebitmap_cpy (types src) m in
  if negb (rc =? 0) then (-1, TS t (negset dst) (ts_flags src), m)
  else
    let '(rc, n, m) := ebitmap_cpy (negset src) m in
    if negb (rc =? 0) then (-1, TS t n (ts_flags src), m)
    else (0, TS t n (ts_flags src), m).

Definition type_set_or_eq (dst other : type_set) (m : mem) : Z * type_set * mem :=
  let '(rc, tmp, m) := type_set_or dst other m in
  if negb (rc =? 0) then (-1, dst, m)
  else type_set_cpy tmp m.

Definition role_set_get_role (x : role_set) (r : Z) : Z :=
  if has_bits (rs_flags x) ROLE_STAR then 1
  else if ebitmap_get_bit (rs_roles x) (u32 (r - 1)) then
    if has_bits (rs_flags x) ROLE_COMP then 0 else 1
  else if has_bits (rs_flags x) ROLE_COMP then 1 else 0.

Definition type_datum_init : type_datum := TD 0 0 0 ebitmap_init 0 0.

(** ** [symtab_insert] *)

(** util.c: [add_i_to_a] on the array of a scope datum. *)
Definition add_i_to_a (i : Z) (cnt : Z) (a : option (list Z)) (m : mem)
    : Z * Z * option (list Z) * mem :=
  let '(ok, m) := malloc m in
  let cnt := match a with Some _ => cnt | None => 0 end in
  if negb ok then (-1, cnt, None, m)
  else (0, u32 (cnt + 1), Some (take (Z.to_nat cnt) (default [] a) ++ [i]), m).

(** The symbol tables whose objects are reached through pointers. *)
Definition symtab_of (sym : Z) (p : policydb) : symtab ptr :=
  if sym =? SYM_CLASSES then p_classes p
  else if sym =? SYM_ROLES then p_roles p
  else if sym =? SYM_TYPES then p_types p
  else if sym =? SYM_USERS then p_users p
  else p_bools p.

Definition set_symtab_of (sym : Z) (v : symtab ptr) (p : policydb) : policydb :=
  if sym =? SYM_CLASSES then set_p_classes v p
  else if sym =? SYM_ROLES then set_p_roles v p
  else if sym =? SYM_TYPES then set_p_types v p
  else if sym =? SYM_USERS then set_p_users v p
  else set_p_bools v p.

(** The symbol table [sym] after [hashtab_insert], and its status. *)
Definition symtab_put (sym : Z) (key : string) (datum : ptr) : M st Z :=
  tab ← get_p (symtab_of sym);
  '(rc, h) ← with_mem (λ m, let '(rc, h, m) := hashtab_insert (table tab) key datum m in ((rc, h), m));
  _ ← upd (set_symtab_of sym (SYM h (nprim tab)));
  mret rc.

(** [*value = ++pol->symtab[sym].nprim] *)
Definition next_value (sym : Z) : M st Z :=
  tab ← get_p (symtab_of sym);
  let v := u32 (nprim tab + 1) in
  _ ← upd (set_symtab_of sym (SYM (table tab) v));
  mret v.

Definition scope_put (sym : Z) (key : string) (datum : ptr) : M st Z :=
  tab ← elem scope sym;
  '(rc, h) ← with_mem (λ m, let '(rc, h, m) := hashtab_insert (table tab) key datum m in ((rc, h), m));
  _ ← write scope set_scope sym (SYM h (nprim tab));
  mret rc.

(** The part after the scope datum is known: record the declaration. *)
Definition symtab_insert_decl (sd : ptr) (scp avrule_decl_id retval : Z) : M st Z :=
  d ← load scope_mem sd;
  let ids := default [] (decl_ids d) in
  _ ← (if negb (decl_ids_len d =? 0) then _ ← ref (decl_ids d); mret () else mret ());
  if existsb (Z.eqb avrule_decl_id) (take (Z.to_nat (decl_ids_len d)) ids) then mret retval
  else
    '(rc, cnt, a) ← with_mem (λ m,
      let '(rc, cnt, a, m) := add_i_to_a avrule_decl_id (decl_ids_len d) (decl_ids d) m in ((rc, cnt, a), m));
    _ ← write scope_mem set_scope_mem sd (SD (sd_scope d) a cnt);
    if rc =? -1 then mret (- ENOMEM)
    else if (sd_scope d =? SCOPE_DECL) && (scp =? SCOPE_REQ) then
      if cnt <? 2 then mret (-1)
      else
        l ← ref a;
        x ← ref (at_index l (cnt - 2));
        y ← ref (at_index l (cnt - 1));
        _ ← write scope_mem set_scope_mem sd
              (SD (sd_scope d) (Some (set_index (set_index l (cnt - 2) y) (cnt - 1) x)) cnt);
        mret retval
    else mret retval.

(** [want_value] tells whether the caller passes a non-NULL [value]; the number
    stored there, if one is, is the second result. *)
Definition symtab_insert (sym : Z) (key : string) (datum : ptr) (scp avrule_decl_id : Z)
    (want_value : bool) : M st (Z * option Z) :=
  rc ← symtab_put sym key datum;
  '(retval, value, stop) ←
    (if rc =? SEPOL_OK then
       if want_value then v ← next_value sym; mret (0, Some v, false) else mret (0, None, false)
     else if rc =? SEPOL_EEXIST then mret (1, None, false)
     else mret (rc, None, true));
  if stop : bool then mret (retval, value)
  else
    stab ← elem scope sym;
    match hashtab_search (table stab) key with
    | None =>
        ok ← alloc;                                  (* strdup *)
        if negb ok then mret (- ENOMEM, value)
        else
          ok ← alloc;                                (* malloc *)
          if negb ok then mret (- ENOMEM, value)
          else
            sd ← new scope_mem set_scope_mem (SD scp None 0);
            rc ← scope_put sym key sd;
            if negb (rc =? 0) then mret (rc, value)
            else rc ← symtab_insert_decl sd scp avrule_decl_id retval; mret (rc, value)
    | Some sd =>
        d ← load scope_mem sd;
        if (sd_scope d =? SCOPE_DECL) && (scp =? SCOPE_DECL) then
          if negb (sym =? SYM_ROLES) && negb (sym =? SYM_USERS) then mret (-2, value)
          else if sym =? SYM_ROLES then
            tab ← get_p (symtab_of sym);
            base ← ref (hashtab_search (table tab) key);   (* assert(base_role != NULL) *)
            base_role ← load role_mem base;
            cur_role ← load role_mem datum;
            if negb ((r_flavor base_role =? ROLE_ROLE) && (r_flavor cur_role =? ROLE_ROLE))
            then mret (-2, value)
            else rc ← symtab_insert_decl sd scp avrule_decl_id retval; mret (rc, value)
          else rc ← symtab_insert_decl sd scp avrule_decl_id retval; mret (rc, value)
        else
          _ ← (if (sd_scope d =? SCOPE_REQ) && (scp =? SCOPE_DECL)
               then write scope_mem set_scope_mem sd (SD SCOPE_DECL (decl_ids d) (decl_ids_len d))
               else mret ());
          rc ← symtab_insert_decl sd scp avrule_decl_id retval; mret (rc, value)
    end.

(** ** Running code step by step *)

Lemma bind_ret {S A B} (c : M S A) (f : A → M S B) s a s' : c s = Ret (a, s') → (c ≫= f) s = f a s'.
Proof. intros H. unfold mbind, M_bind. by rewrite H. Qed.

Lemma load_eq {A} (store : policydb → list A) q s a : at_index (store s.1) q = Some a → load store q s = Ret (a, s).
Proof. intros H. unfold load, get_p, gets, lift, mbind, M_bind. by rewrite H. Qed.

Lemma elem_eq {A} (arr : policydb → list A) i s a : at_index (arr s.1) i = Some a → elem arr i s = Ret (a, s).
Proof. apply load_eq. Qed.

Lemma ref_eq {A} (a : A) (s : st) : ref (Some a) s = Ret (a, s).
Proof. done. Qed.

Lemma write_eq {A} (arr : policydb → list A) set i a p m :
  is_Some (at_index (arr p) i) → write arr set i a (p, m) = Ret ((), (set (set_index (arr p) i a) p, m)).
Proof. intros [x H]. unfold write, upd, modify, get_p, gets, lift, mbind, M_bind. cbn [fst]. by rewrite H. Qed.

(** Setting one bit with memory available. *)
Lemma set_bit_plenty e bit v p m :
  ebitmap_wf e → bit_ok bit → plenty m →
  ∃ e' m', set_bit e bit v (p, m) = Ret ((0, e'), (p, m')) ∧ plenty m' ∧ ebitmap_wf e' ∧
    ∀ j, ebitmap_get_bit e' j = if j =? bit then v else ebitmap_get_bit e j.
Proof.
  intros He Hb Hm. unfold set_bit, with_mem. cbn [fst snd].
  pose proof (ebitmap_set_bit_correct e bit v m He ltac:(unfold bit_ok in Hb; lia)) as H.
  destruct (ebitmap_set_bit e bit v m) as [[rc e'] m']. destruct H as [Hp H].
  destruct (Hp Hm) as [Hm' Hrc]. specialize (Hrc Hb). subst rc.
  destruct H as [(_&_&Hw&Hg)|[(?&_)|(?&_)]]; [|done..]. exists e', m'. by split_and!.
Qed.
