(* ===== verification/Expand.v ===== *)
(** * Expansion and indexing (libsepol/src/expand.c, policydb.c, conditional.c)

    The expansion of type sets, role sets and semantic MLS ranges into bitmaps,
    and the functions that rebuild the [*_val_to_struct], [sym_val_to_name] and
    role and user caches of a policy. *)

From S2P Require Import Prelude Ebitmap Hashtab Avtab Context Policydb.

(** ** [type_set_expand]

    The result is the status and [*t]. *)

(** The loop over [set->types]: the attributes' types, or the types themselves. *)
Definition expand_types_step (expand : bool) (i : Z) (tys : ebitmap) : M st (ebitmap + ebitmap) :=
  np ← get_p (λ p, nprim (p_types p));
  if np <=? i then mret (inl tys)
  else
    q ← elem type_val_to_struct i;
    match q with
    | None => mret (inl tys)
    | Some q =>
        type ← load type_mem q;
        if (flavor type =? TYPE_ATTRIB) && (expand || has_bits (t_flags type) TYPE_FLAGS_EXPAND_ATTR_TRUE)
        then '(rc, tys) ← union tys (t_types type); mret (if negb (rc =? 0) then inl tys else inr tys)
        else '(rc, tys) ← set_bit tys i true; mret (if negb (rc =? 0) then inl tys else inr tys)
    end.

(** The loop over [set->negset]; [type_val_to_struct[i]] is not checked here. *)
Definition expand_neg_step (i : Z) (neg : ebitmap) : M st (ebitmap + ebitmap) :=
  q ← elem type_val_to_struct i;
  attr ← match q with
         | None => mret None
         | Some q => type ← load type_mem q; mret (if flavor type =? TYPE_ATTRIB then Some type else None)
         end;
  match attr with
  | Some type => '(rc, neg) ← union neg (t_types type); mret (if negb (rc =? 0) then inl neg else inr neg)
  | None => '(rc, neg) ← set_bit neg i true; mret (if negb (rc =? 0) then inl neg else inr neg)
  end.

(** [p->type_val_to_struct[i] && ...->flavor == TYPE_ATTRIB] *)
Definition is_attrib (i : Z) : M st bool :=
  q ← elem type_val_to_struct i;
  match q with
  | None => mret false
  | Some q => type ← load type_mem q; mret (flavor type =? TYPE_ATTRIB)
  end.

(** TYPE_STAR: every type that is no attribute and not in [neg]. *)
Definition expand_star_step (neg : ebitmap) (i : Z) (t : ebitmap) : M st (ebitmap + ebitmap) :=
  if ebitmap_get_bit neg i then mret (inr t)
  else
    a ← is_attrib i;
    if a : bool then mret (inr t)
    else '(rc, t) ← set_bit t i true; mret (if negb (rc =? 0) then inl t else inr t).

Definition expand_copy_step (neg : ebitmap) (i : Z) (t : ebitmap) : M st (ebitmap + ebitmap) :=
  if ebitmap_get_bit neg i then mret (inr t)
  else '(rc, t) ← set_bit t i true; mret (if negb (rc =? 0) then inl t else inr t).

(** TYPE_COMP: the assertion fails the process when an attribute is set. *)
Definition expand_comp_step (i : Z) (t : ebitmap) : M st (ebitmap + ebitmap) :=
  a ← is_attrib i;
  if a : bool then
    if ebitmap_get_bit t i then lift Undef else mret (inr t)
  else
    '(rc, t) ← set_bit t i (negb (ebitmap_get_bit t i));
    mret (if negb (rc =? 0) then inl t else inr t).

Definition type_set_expand (set : type_set) (alwaysexpand : bool) : M st (Z * ebitmap) :=
  let expand := alwaysexpand || negb (ebitmap_length (negset set) =? 0) || negb (ts_flags set =? 0) in
  let t := ebitmap_init in
  r ← loop (expand_types_step expand) (ebitmap_set_bits (types set)) ebitmap_init;
  match r with
  | inl _ => mret (-1, t)
  | inr tys =>
      r ← loop expand_neg_step (ebitmap_set_bits (negset set)) ebitmap_init;
      match r with
      | inl _ => mret (-1, t)
      | inr neg =>
          np ← get_p (λ p, nprim (p_types p));
          if has_bits (ts_flags set) TYPE_STAR then
            r ← loop (expand_star_step neg) (upto np) t;
            match r with inl t => mret (-1, t) | inr t => mret (0, t) end
          else
            r ← loop (expand_copy_step neg) (ebitmap_set_bits tys) t;
            match r with
            | inl t => mret (-1, t)
            | inr t =>
                if has_bits (ts_flags set) TYPE_COMP then
                  r ← loop expand_comp_step (upto np) t;
                  match r with inl t => mret (-1, t) | inr t => mret (0, t) end
                else mret (0, t)
            end
      end
  end.

(** ** [role_set_expand], with [rolemap] NULL as the policy loader calls it *)

Definition role_copy_step (i : Z) (r : ebitmap) : M st (ebitmap + ebitmap) :=
  '(rc, r) ← set_bit r i true; mret (if negb (rc =? 0) then inl r else inr r).

(** ROLE_COMP: the bound [ebitmap_length(r)] is read again in every iteration;
    the fuel is the number of positions of the 32-bit range. *)
Fixpoint role_comp_loop (fuel : nat) (i : Z) (r : ebitmap) : M st (ebitmap + ebitmap) :=
  match fuel with
  | O => mret (inr r)
  | S fuel' =>
      if i <? ebitmap_length r then
        '(rc, r) ← set_bit r i (negb (ebitmap_get_bit r i));
        if negb (rc =? 0) then mret (inl r) else role_comp_loop fuel' (i + 1) r
      else mret (inr r)
  end.

Definition role_set_expand (x : role_set) : M st (Z * ebitmap) :=
  let r := ebitmap_init in
  if has_bits (rs_flags x) ROLE_STAR then
    np ← get_p (λ p, nprim (p_roles p));
    r ← loop role_copy_step (upto np) r;
    match r with inl r => mret (-1, r) | inr r => mret (0, r) end
  else
    '(rc, mapped_roles) ← cpy (rs_roles x);
    if negb (rc =? 0) then mret (-1, r)
    else
      res ← loop role_copy_step (ebitmap_set_bits mapped_roles) r;
      match res with
      | inl r => mret (-1, r)
      | inr r =>
          if has_bits (rs_flags x) ROLE_COMP then
            res ← role_comp_loop (Z.to_nat (ebitmap_length r)) 0 r;
            match res with inl r => mret (-1, r) | inr r => mret (0, r) end
          else mret (0, r)
      end.

(** ** Semantic MLS levels *)

(** [p->sym_val_to_name[sym][i]] *)
Definition name_at (sym i : Z) : M st (option string) :=
  arr ← elem sym_val_to_name sym; lift (deref (at_index arr i)).

Definition expand_cat_step (lev : mls_level) (lsens : Z) (i : Z) (c : ebitmap) : M st (ebitmap + ebitmap) :=
  if negb (ebitmap_get_bit (cat lev) i) then
    _ ← name_at SYM_CATS i;
    _ ← name_at SYM_LEVELS (lsens - 1);
    mret (inl c)
  else '(rc, c) ← set_bit c i true; mret (if negb (rc =? 0) then inl c else inr c).

Definition expand_cats_step (levdatum : level_datum) (lsens : Z) (sc : mls_semantic_cat) (c : ebitmap)
    : M st (ebitmap + ebitmap) :=
  if sc_high sc <? sc_low sc then
    _ ← name_at SYM_CATS (u32 (sc_low sc - 1));
    _ ← name_at SYM_CATS (u32 (sc_high sc - 1));
    mret (inl c)
  else
    let lo := u32 (sc_low sc - 1) in
    loop (λ i c, lev ← ref (level levdatum); expand_cat_step lev lsens i c) (seqZ lo (sc_high sc - lo)) c.

Definition mls_semantic_level_expand (sl : mls_semantic_level) : M st (Z * mls_level) :=
  let l := mls_level_init in
  on ← get_p mls;
  if on =? 0 then mret (0, l)
  else if sl_sens sl =? 0 then mret (0, l)
  else
    k ← name_at SYM_LEVELS (sl_sens sl - 1);
    key ← ref k;
    tab ← get_p p_levels;
    match hashtab_search (table tab) key with
    | None => mret (-1, ML (sl_sens sl) (cat l))
    | Some levdatum =>
        r ← loop (expand_cats_step levdatum (sl_sens sl)) (sl_cat sl) (cat l);
        match r with
        | inl c => mret (-1, ML (sl_sens sl) c)
        | inr c => mret (0, ML (sl_sens sl) c)
        end
    end.

Definition mls_semantic_range_expand (sr : mls_semantic_range) (r : mls_range) : M st (Z * mls_range) :=
  '(rc, l0) ← mls_semantic_level_expand (sr_level0 sr);
  if rc <? 0 then mret (-1, MR l0 (level1 r))
  else
    '(rc, l1) ← mls_semantic_level_expand (sr_level1 sr);
    if rc <? 0 then mret (-1, MR (mls_level_destroy l0) l1)
    else if negb (mls_level_dom l1 l0) then mret (-1, mls_range_destroy (MR l0 l1))
    else mret (0, MR l0 l1).

(** ** Caches (policydb.c) *)

Definition set_r_cache (c : ebitmap) (d : role_datum) : role_datum :=
  RD (r_value d) (dominates d) (r_types d) c (r_bounds d) (r_flavor d) (r_roles d).

Definition policydb_role_cache (key : string) (q : ptr) : M st Z :=
  role ← load role_mem q;
  '(rc, c) ← type_set_expand (r_types role) true;
  _ ← write role_mem set_role_mem q (set_r_cache c role);
  mret (if negb (rc =? 0) then -1 else 0).

Definition policydb_user_cache (key : string) (q : ptr) : M st Z :=
  user ← load user_mem q;
  '(rc, c) ← role_set_expand (u_roles user);
  let user := UD (u_value user) (u_roles user) (u_range user) (dfltlevel user) c
                 (exp_range user) (exp_dfltlevel user) (u_bounds user) in
  _ ← write user_mem set_user_mem q user;
  if negb (rc =? 0) then mret (-1)
  else
    ty ← get_p policy_type;
    if negb (ty =? POLICY_KERN) && negb (ty =? POLICY_MOD) then
      '(rc, r) ← mls_semantic_range_expand (u_range user) (mls_range_destroy (exp_range user));
      let user := UD (u_value user) (u_roles user) (u_range user) (dfltlevel user) (u_cache user)
                     r (exp_dfltlevel user) (u_bounds user) in
      _ ← write user_mem set_user_mem q user;
      if negb (rc =? 0) then mret (-1)
      else
        '(rc, l) ← mls_semantic_level_expand (dfltlevel user);
        _ ← write user_mem set_user_mem q
              (UD (u_value user) (u_roles user) (u_range user) (dfltlevel user) (u_cache user)
                  (exp_range user) l (u_bounds user));
        mret (if negb (rc =? 0) then -1 else 0)
    else mret 0.

(** ** The index functions (policydb.c, conditional.c) *)

(** [p->sym_val_to_name[sym][i] = key] *)
Definition write_name (sym i : Z) (key : string) : M st () :=
  arr ← elem sym_val_to_name sym;
  _ ← lift (deref (at_index arr i));
  write sym_val_to_name set_sym_val_to_name sym (set_index arr i (Some key)).

(** The common start of the index functions: the value is in range and its name
    slot is free.  The result is 0 or -EINVAL. *)
Definition claim_name (sym value np : Z) (key : string) : M st Z :=
  if (value =? 0) || (np <? value) then mret (- EINVAL)
  else
    n ← name_at sym (value - 1);
    match n with
    | Some _ => mret (- EINVAL)
    | None => _ ← write_name sym (value - 1) key; mret 0
    end.

Definition common_index (key : string) (d : common_datum) : M st Z :=
  np ← get_p (λ p, nprim (p_commons p));
  claim_name SYM_COMMONS (cm_value d) np key.

Definition class_index (key : string) (q : ptr) : M st Z :=
  d ← load class_mem q;
  np ← get_p (λ p, nprim (p_classes p));
  rc ← claim_name SYM_CLASSES (c_value d) np key;
  if negb (rc =? 0) then mret rc
  else _ ← write class_val_to_struct set_class_val_to_struct (c_value d - 1) (Some q); mret 0.

Definition role_index (key : string) (q : ptr) : M st Z :=
  d ← load role_mem q;
  np ← get_p (λ p, nprim (p_roles p));
  rc ← claim_name SYM_ROLES (r_value d) np key;
  if negb (rc =? 0) then mret rc
  else _ ← write role_val_to_struct set_role_val_to_struct (r_value d - 1) (Some q); mret 0.

Definition type_index (key : string) (q : ptr) : M st Z :=
  d ← load type_mem q;
  if negb (primary d =? 0) then
    np ← get_p (λ p, nprim (p_types p));
    rc ← claim_name SYM_TYPES (t_value d) np key;
    if negb (rc =? 0) then mret rc
    else _ ← write type_val_to_struct set_type_val_to_struct (t_value d - 1) (Some q); mret 0
  else mret 0.

Definition user_index (key : string) (q : ptr) : M st Z :=
  d ← load user_mem q;
  np ← get_p (λ p, nprim (p_users p));
  rc ← claim_name SYM_USERS (u_value d) np key;
  if negb (rc =? 0) then mret rc
  else _ ← write user_val_to_struct set_user_val_to_struct (u_value d - 1) (Some q); mret 0.

Definition cond_index_bool (key : string) (q : ptr) : M st Z :=
  d ← load bool_mem q;
  np ← get_p (λ p, nprim (p_bools p));
  rc ← claim_name SYM_BOOLS (b_value d) np key;
  if negb (rc =? 0) then mret rc
  else _ ← write bool_val_to_struct set_bool_val_to_struct (b_value d - 1) (Some q); mret 0.

Definition sens_index (key : string) (d : level_datum) : M st Z :=
  if l_isalias d =? 0 then
    l ← ref (level d);
    np ← get_p (λ p, nprim (p_levels p));
    claim_name SYM_LEVELS (sens l) np key
  else mret 0.

Definition cat_index (key : string) (d : cat_datum) : M st Z :=
  if ct_isalias d =? 0 then
    np ← get_p (λ p, nprim (p_cats p));
    claim_name SYM_CATS (ct_value d) np key
  else mret 0.

(** [calloc] of an array of [n] pointers, or [None]. *)
Definition calloc_ptrs {A} (n : Z) : M st (option (list (option A))) :=
  ok ← alloc;
  mret (if ok : bool then Some (replicate (Z.to_nat n) None) else None).

(** [free(p->sym_val_to_name[sym]); p->sym_val_to_name[sym] = calloc(...)]:
    false when memory runs out. *)
Definition new_names (sym n : Z) : M st bool :=
  a ← calloc_ptrs n;
  _ ← write sym_val_to_name set_sym_val_to_name sym (default [] a);
  mret (bool_decide (is_Some a)).

Definition new_structs (set : list (option ptr) → policydb → policydb) (n : Z) : M st bool :=
  a ← calloc_ptrs n;
  _ ← upd (set (default [] a));
  mret (bool_decide (is_Some a)).

Definition policydb_index_classes : M st Z :=
  nc ← get_p (λ p, nprim (p_commons p));
  ok ← new_names SYM_COMMONS nc;
  if negb ok then mret (-1)
  else
    tab ← get_p p_commons;
    rc ← hashtab_map (table tab) common_index;
    if negb (rc =? 0) then mret (-1)
    else
      ncl ← get_p (λ p, nprim (p_classes p));
      ok ← new_structs set_class_val_to_struct ncl;
      if negb ok then mret (-1)
      else
        ok ← new_names SYM_CLASSES ncl;
        if negb ok then mret (-1)
        else
          tab ← get_p p_classes;
          rc ← hashtab_map (table tab) class_index;
          mret (if negb (rc =? 0) then -1 else 0).

(** [cond_init_bool_indexes]: the array is not initialised by the C code; a
    slot no bool claims is left as NULL here. *)
Definition cond_init_bool_indexes : M st Z :=
  nb ← get_p (λ p, nprim (p_bools p));
  ok ← new_structs set_bool_val_to_struct nb;
  mret (if ok : bool then 0 else -1).

(** The positions (block, declaration) of every declaration, with its id. *)
Definition decls_of (blocks : list avrule_block) : list (Z * Z * Z) :=
  mjoin (imap (λ b blk, imap (λ d decl, (Z.of_nat b, Z.of_nat d, decl_id decl)) (branch_list blk)) blocks).

Definition policydb_index_decls : M st Z :=
  blocks ← get_p global;
  let ds := decls_of blocks in
  let num_decls := Z.of_nat (length ds) in
  ok ← alloc;
  _ ← upd (set_decl_val_to_struct (if ok : bool then replicate (length ds) None else []));
  if negb ok then mret (-1)
  else
    r ← loop (λ '(b, d, id) _,
           if (id <? 1) || (num_decls <? id) then mret (inl (-1))
           else
             x ← elem decl_val_to_struct (id - 1);
             match x with
             | Some _ => mret (inl (-1))
             | None =>
                 _ ← write decl_val_to_struct set_decl_val_to_struct (id - 1) (Some (b, d));
                 mret (inr ())
             end) ds ();
    match r with inl rc => mret rc | inr _ => mret 0 end.

(** One iteration of the loop over SYM_ROLES .. SYM_CATS. *)
Definition index_symtab {D} (sym : Z) (tab : policydb → symtab D) (f : string → D → M st Z) : M st Z :=
  t ← get_p tab;
  _ ← write sym_val_to_name set_sym_val_to_name sym [];
  if negb (nprim t =? 0) then
    ok ← new_names sym (nprim t);
    if negb ok then mret (-1)
    else rc ← hashtab_map (table t) f; mret (if negb (rc =? 0) then -1 else 0)
  else mret 0.

(** Runs the second step when the first returned 0. *)
Definition and_then (c1 c2 : M st Z) : M st Z :=
  rc ← c1; if negb (rc =? 0) then mret rc else c2.

(** With [verbose] = 0. *)
Definition policydb_index_others : M st Z :=
  nr ← get_p (λ p, nprim (p_roles p));
  ok ← new_structs set_role_val_to_struct nr;
  if negb ok then mret (-1)
  else
    nu ← get_p (λ p, nprim (p_users p));
    ok ← new_structs set_user_val_to_struct nu;
    if negb ok then mret (-1)
    else
      nt ← get_p (λ p, nprim (p_types p));
      ok ← new_structs set_type_val_to_struct nt;
      if negb ok then mret (-1)
      else
        _ ← cond_init_bool_indexes;
        and_then (index_symtab SYM_ROLES p_roles role_index)
        (and_then (index_symtab SYM_TYPES p_types type_index)
        (and_then (index_symtab SYM_USERS p_users user_index)
        (and_then (index_symtab SYM_BOOLS p_bools cond_index_bool)
        (and_then (index_symtab SYM_LEVELS p_levels sens_index)
        (and_then (index_symtab SYM_CATS p_cats cat_index)
        (rt ← get_p p_roles;
         rc ← hashtab_map (table rt) policydb_role_cache;
         if negb (rc =? 0) then mret (-1)
         else
           ut ← get_p p_users;
           rc ← hashtab_map (table ut) policydb_user_cache;
           mret (if negb (rc =? 0) then -1 else 0))))))).

Definition policydb_index_bools : M st Z :=
  rc ← cond_init_bool_indexes;
  if rc =? -1 then mret (-1)
  else
    nb ← get_p (λ p, nprim (p_bools p));
    ok ← new_names SYM_BOOLS nb;
    if negb ok then mret (-1)
    else
      t ← get_p p_bools;
      rc ← hashtab_map (table t) cond_index_bool;
      mret (if negb (rc =? 0) then -1 else 0).
