(* ===== verification/Mls.v ===== *)
(** * MLS operations on a policy (libsepol/src/mls.c, context.c)

    The validity of contexts, their text form, its parser, and the MLS part of
    the computation of a new context. *)

From S2P Require Import Prelude Ebitmap Hashtab Avtab Context Policydb.

Definition OBJECT_R_VAL : Z := 1.
Definition SECCLASS_PROCESS : Z := 2.
Definition STATUS_SUCCESS : Z := 0.
Definition STATUS_ERR : Z := -1.

(** [p->sym_val_to_name[sym][i]], and the string it points to. *)
Definition val_to_name (p : policydb) (sym i : Z) : outcome (option string) :=
  arr ← deref (at_index (sym_val_to_name p) sym); deref (at_index arr i).

Definition val_name (p : policydb) (sym i : Z) : outcome string :=
  n ← val_to_name p sym i; deref n.

(** The object a [*_val_to_struct] slot points to; NULL is [None]. *)
Definition val_to_struct {A} (arr : list (option ptr)) (store : list A) (i : Z) : outcome (option A) :=
  q ← deref (at_index arr i);
  match q with
  | None => mret None
  | Some q => a ← deref (at_index store q); mret (Some a)
  end.

(** [range.level[l]] for l = 0, 1. *)
Definition get_level (l : Z) (c : context_struct) : mls_level :=
  if l =? 0 then level0 (range c) else level1 (range c).

Definition set_level (l : Z) (v : mls_level) (c : context_struct) : context_struct :=
  set_range c (if l =? 0 then MR v (level1 (range c)) else MR (level0 (range c)) v).

(** ** Length and text of the MLS fields *)

Definition slen (s : string) : Z := Z.of_nat (String.length s).

(** One position of the category loop of [mls_compute_context_len]: the state is
    ([range], [len]). *)
Definition len_step (p : policydb) (s : Z * Z) (b : Z * bool) : outcome (Z * Z) :=
  let '(rng, len) := s in
  let '(i, set) := b in
  if set : bool then
    if negb (rng =? 0) then mret (rng + 1, len)
    else n ← val_name p SYM_CATS i; mret (rng + 1, len + (slen n + 1))
  else if 1 <? rng then n ← val_name p SYM_CATS (i - 1); mret (0, len + (slen n + 1))
  else mret (0, len).

(** The last position the loop visited, [i - 1] after the loop. *)
Definition last_visited (bits : list (Z * bool)) : Z := match last bits with Some (i, _) => i | None => -1 end.

Definition level_len (p : policydb) (lv : mls_level) (len : Z) : outcome Z :=
  sn ← val_name p SYM_LEVELS (sens lv - 1);
  let bits := ebitmap_for_each_bit (cat lv) in
  '(rng, len) ← ofold (len_step p) bits (0, len + slen sn);
  if 1 <? rng then n ← val_name p SYM_CATS (last_visited bits); mret (len + (slen n + 1))
  else mret len.

Definition mls_compute_context_len (p : policydb) (c : context_struct) : outcome Z :=
  if mls p =? 0 then mret 0
  else
    len ← level_len p (level0 (range c)) 1;
    if mls_level_eq (level0 (range c)) (level1 (range c)) then mret len
    else level_len p (level1 (range c)) (len + 1).

(** The same loop in [mls_sid_to_context]: the state is ([range], [wrote_sep],
    the text written so far). *)
Definition text_step (p : policydb) (s : Z * bool * string) (b : Z * bool) : outcome (Z * bool * string) :=
  let '(rng, wrote_sep, out) := s in
  let '(i, set) := b in
  if set : bool then
    if negb (rng =? 0) then mret (rng + 1, wrote_sep, out)
    else
      n ← val_name p SYM_CATS i;
      mret (rng + 1, true, (out +:+ (if wrote_sep : bool then "," else ":") +:+ n)%string)
  else if 1 <? rng then
    n ← val_name p SYM_CATS (i - 1);
    mret (0, wrote_sep, (out +:+ (if (2 <? rng)%Z then "." else ",") +:+ n)%string)
  else mret (0, wrote_sep, out).

Definition level_text (p : policydb) (lv : mls_level) (out : string) : outcome string :=
  sn ← val_name p SYM_LEVELS (sens lv - 1);
  let bits := ebitmap_for_each_bit (cat lv) in
  '(rng, _, out) ← ofold (text_step p) bits (0, false, (out +:+ sn)%string);
  if 1 <? rng then
    n ← val_name p SYM_CATS (last_visited bits);
    mret (out +:+ (if (2 <? rng)%Z then "." else ",") +:+ n)%string
  else mret out.

(** The text [mls_sid_to_context] writes. *)
Definition mls_sid_to_context (p : policydb) (c : context_struct) : outcome string :=
  if mls p =? 0 then mret EmptyString
  else
    out ← level_text p (level0 (range c)) ":";
    if mls_level_eq (level0 (range c)) (level1 (range c)) then mret out
    else level_text p (level1 (range c)) (out +:+ "-")%string.

(** The text without its leading ':', or NULL when memory runs out. *)
Definition mls_to_string (p : policydb) (c : context_struct) (m : mem) : outcome (Z * option string * mem) :=
  _ ← mls_compute_context_len p c;
  let '(ok, m) := malloc m in
  if negb ok then mret (STATUS_ERR, None, m)
  else
    let '(ok, m) := malloc m in
    if negb ok then mret (STATUS_ERR, None, m)
    else
      out ← mls_sid_to_context p c;
      match out with
      | String _ s => mret (STATUS_SUCCESS, Some s, m)
      | EmptyString => Undef       (* no MLS: reads past the buffer *)
      end.

(** ** Validity *)

(** The category loop of [mls_context_isvalid]. *)
Definition cats_valid (ncats : Z) (lev : option mls_level) (cats : list Z) : outcome bool :=
  ofold (λ ok i,
    if negb ok then mret ok
    else if ncats <? i then mret false
    else l ← deref lev; mret (ebitmap_get_bit (cat l) i)) cats true.

Definition level_valid (p : policydb) (lv : mls_level) : outcome bool :=
  if (sens lv =? 0) || (nprim (p_levels p) <? sens lv) then mret false
  else
    k ← val_to_name p SYM_LEVELS (sens lv - 1);
    match k with
    | None => mret false
    | Some key =>
        match hashtab_search (table (p_levels p)) key with
        | None => mret false
        | Some levdatum => cats_valid (nprim (p_cats p)) (level levdatum) (ebitmap_set_bits (cat lv))
        end
    end.

Definition mls_context_isvalid (p : policydb) (c : context_struct) : outcome bool :=
  if mls p =? 0 then mret true
  else if negb (mls_level_dom (level1 (range c)) (level0 (range c))) then mret false
  else
    ok ← level_valid p (level0 (range c));
    if negb ok then mret false
    else
      ok ← level_valid p (level1 (range c));
      if negb ok then mret false
      else if role c =? OBJECT_R_VAL then mret true
      else if (user c =? 0) || (nprim (p_users p) <? user c) then mret false
      else
        u ← val_to_struct (user_val_to_struct p) (user_mem p) (user c - 1);
        match u with
        | None => mret false
        | Some usrdatum => mret (mls_range_contains (exp_range usrdatum) (range c))
        end.

Definition context_is_valid (p : policydb) (c : context_struct) : outcome bool :=
  if (role c =? 0) || (nprim (p_roles p) <? role c) then mret false
  else if (user c =? 0) || (nprim (p_users p) <? user c) then mret false
  else if (type c =? 0) || (nprim (p_types p) <? type c) then mret false
  else if negb (role c =? OBJECT_R_VAL) then
    r ← val_to_struct (role_val_to_struct p) (role_mem p) (role c - 1);
    match r with
    | None => mret false
    | Some r =>
        if negb (ebitmap_get_bit (r_cache r) (type c - 1)) then mret false
        else
          u ← val_to_struct (user_val_to_struct p) (user_mem p) (user c - 1);
          match u with
          | None => mret false
          | Some u =>
              if negb (ebitmap_get_bit (u_cache u) (role c - 1)) then mret false
              else mls_context_isvalid p c
          end
    end
  else mls_context_isvalid p c.

(** ** Parsing *)

(** The context being filled in, and the allocation tape. *)
Definition pstate : Type := context_struct * mem.

Definition pset_bit (l bit : Z) : M pstate Z := λ s,
  let '(c, m) := s in
  let lv := get_level l c in
  let '(rc, e, m) := ebitmap_set_bit (cat lv) bit true m in
  Ret (rc, (set_level l (ML (sens lv) e) c, m)).

(** The bits [lo .. hi-1] of a category range; 0 or an error. *)
Fixpoint pset_range (n : nat) (l i : Z) : M pstate Z :=
  match n with
  | O => mret 0
  | S n' => rc ← pset_bit l i; if negb (rc =? 0) then mret rc else pset_range n' l (i + 1)
  end.

(** One category or category range, [scontextp]. *)
Definition parse_cat (p : policydb) (l : Z) (scontextp : string) : M pstate Z :=
  let '(first, r) := span_until (λ c, Ascii.eqb c ".") scontextp in
  match hashtab_search (table (p_cats p)) first with
  | None => mret STATUS_ERR
  | Some catdatum =>
      rc ← pset_bit l (u32 (ct_value catdatum - 1));
      if negb (rc =? 0) then mret STATUS_ERR
      else
        match r with
        | EmptyString => mret 0
        | String _ rngptr =>
            match hashtab_search (table (p_cats p)) rngptr with
            | None => mret STATUS_ERR
            | Some rngdatum =>
                if ct_value rngdatum <=? ct_value catdatum then mret STATUS_ERR
                else
                  rc ← pset_range (Z.to_nat (ct_value rngdatum - ct_value catdatum)) l (ct_value catdatum);
                  mret (if negb (rc =? 0) then STATUS_ERR else 0)
            end
        end
  end.

(** The [while (1)] over the categories: 0 with the delimiter that ended it and
    the rest of the text, or an error.  Every iteration that continues has
    consumed a ','. *)
Fixpoint parse_cats (fuel : nat) (p : policydb) (l : Z) (s : string)
    : M pstate (Z * option ascii * string) :=
  match fuel with
  | O => mret (STATUS_ERR, None, s)
  | S fuel' =>
      let '(scontextp, r) := span_until (λ c, Ascii.eqb c "," || Ascii.eqb c "-") s in
      let '(delim, s') := take_delim r in
      rc ← parse_cat p l scontextp;
      if negb (rc =? 0) then mret (STATUS_ERR, delim, s')
      else
        match delim with
        | Some c => if Ascii.eqb c "," then parse_cats fuel' p l s' else mret (0, delim, s')
        | None => mret (0, delim, s')
        end
  end.

(** One level: the name [sname], ended by [delim], and the text after it. *)
Definition parse_level (p : policydb) (l : Z) (sname : string) (delim : option ascii) (s : string)
    : M pstate (Z * option ascii * string) :=
  match hashtab_search (table (p_levels p)) sname with
  | None => mret (STATUS_ERR, delim, s)
  | Some levdatum =>
      lev ← lift (deref (level levdatum));
      _ ← modify (λ '(c, m), (set_level l (ML (sens lev) (cat (get_level l c))) c, m));
      match delim with
      | Some ":"%char => parse_cats (S (String.length s)) p l s
      | _ => mret (0, delim, s)
      end
  end.

Definition is_dash (d : option ascii) : bool := match d with Some c => Ascii.eqb c "-" | None => false end.

Definition mls_context_to_sid (p : policydb) (oldc : Z) (scontext : string) : M pstate Z :=
  if mls p =? 0 then mret 0
  else if oldc =? 0 then mret STATUS_ERR
  else
    let '(s0, r) := span_until (λ c, Ascii.eqb c ":" || Ascii.eqb c "-") scontext in
    let '(delim, rest) := take_delim r in
    '(rc, delim, rest) ← parse_level p 0 s0 delim rest;
    if negb (rc =? 0) then mret STATUS_ERR
    else if is_dash delim then
      (* high sensitivity *)
      let '(s1, r) := span_until (λ c, Ascii.eqb c ":") rest in
      let '(delim, rest) := take_delim r in
      '(rc, delim, rest) ← parse_level p 1 s1 delim rest;
      mret (if negb (rc =? 0) then STATUS_ERR else STATUS_SUCCESS)
    else
      (* high level is missing, copy low level *)
      λ '(c, m),
        let '(rc, l1, m) := mls_level_cpy (level0 (range c)) m in
        Ret (if rc <? 0 then STATUS_ERR else STATUS_SUCCESS, (set_level 1 l1 c, m)).

Definition mls_from_string (p : policydb) (str : string) : M pstate Z :=
  ok ← (λ '(c, m), let '(ok, m) := malloc m in Ret (ok, (c, m)));
  if negb ok then mret STATUS_ERR
  else
    rc ← mls_context_to_sid p 36 str;
    mret (if rc <? 0 then STATUS_ERR else STATUS_SUCCESS).

(** ** Copies used by [mls_compute_sid] *)

(** [dst->range.level[l] = ] a copy of [src]; the category copy can fail. *)
Definition cpy_level (l : Z) (src : mls_level) (dst : context_struct) (m : mem) : Z * context_struct * mem :=
  let '(rc, c, m) := ebitmap_cpy (cat src) m in
  (rc, set_level l (ML (sens src) c) dst, m).

(** The loop over [l] of the three functions below. *)
Definition cpy_levels (dst : context_struct) (l0 l1 : mls_level) (m : mem) : Z * context_struct * mem :=
  let '(rc, dst, m) := cpy_level 0 l0 dst m in
  if negb (rc =? 0) then (rc, dst, m) else cpy_level 1 l1 dst m.

Definition mls_copy_context (dst src : context_struct) (m : mem) : Z * context_struct * mem :=
  cpy_levels dst (level0 (range src)) (level1 (range src)) m.

Definition mls_scopy_context (dst src : context_struct) (m : mem) : Z * context_struct * mem :=
  cpy_levels dst (level0 (range src)) (level0 (range src)) m.

Definition mls_range_set (context : context_struct) (r : mls_range) (m : mem) : Z * context_struct * mem :=
  cpy_levels context (level0 r) (level1 r) m.

(** The new range of [usercon], or -EINVAL; a level that is not chosen keeps
    its value. *)
Definition mls_setup_user_range (fromcon : context_struct) (u : user_datum) (usercon : context_struct)
    (on : bool) : Z * context_struct :=
  if on then
    let fromcon_sen := level0 (range fromcon) in
    let fromcon_clr := level1 (range fromcon) in
    let user_low := level0 (exp_range u) in
    let user_clr := level1 (exp_range u) in
    let user_def := exp_dfltlevel u in
    let sen :=
      if mls_level_between user_def fromcon_sen fromcon_clr then Some user_def
      else if mls_level_between fromcon_sen user_def user_clr then Some fromcon_sen
      else if mls_level_between fromcon_clr user_low user_def then Some user_low
      else None in
    match sen with
    | None => (- EINVAL, usercon)
    | Some sen =>
        let usercon := set_level 0 sen usercon in
        if mls_level_dom user_clr fromcon_clr then (0, set_level 1 fromcon_clr usercon)
        else if mls_level_dom fromcon_clr user_clr then (0, set_level 1 user_clr usercon)
        else (- EINVAL, usercon)
    end
  else (0, usercon).

(** ** [mls_convert_context] *)

Fixpoint convert_cats (oldp newp : policydb) (cats : list Z) (bitmap : ebitmap) (m : mem)
    : outcome (Z * ebitmap * mem) :=
  match cats with
  | [] => mret (0, bitmap, m)
  | i :: cats' =>
      key ← val_name oldp SYM_CATS i;
      match hashtab_search (table (p_cats newp)) key with
      | None => mret (- EINVAL, bitmap, m)
      | Some catdatum =>
          let '(rc, bitmap, m) := ebitmap_set_bit bitmap (u32 (ct_value catdatum - 1)) true m in
          if negb (rc =? 0) then mret (rc, bitmap, m) else convert_cats oldp newp cats' bitmap m
      end
  end.

Definition convert_level (oldp newp : policydb) (l : Z) (c : context_struct) (m : mem)
    : outcome (Z * context_struct * mem) :=
  let lv := get_level l c in
  key ← val_name oldp SYM_LEVELS (sens lv - 1);
  match hashtab_search (table (p_levels newp)) key with
  | None => mret (- EINVAL, c, m)
  | Some levdatum =>
      lev ← deref (level levdatum);
      let c := set_level l (ML (sens lev) (cat lv)) c in
      '(rc, bitmap, m) ← convert_cats oldp newp (ebitmap_set_bits (cat lv)) ebitmap_init m;
      if negb (rc =? 0) then mret (rc, c, m)
      else mret (0, set_level l (ML (sens lev) bitmap) c, m)
  end.

Definition mls_convert_context (oldp newp : policydb) (c : context_struct) (m : mem)
    : outcome (Z * context_struct * mem) :=
  if mls oldp =? 0 then mret (0, c, m)
  else
    '(rc, c, m) ← convert_level oldp newp 0 c m;
    if negb (rc =? 0) then mret (rc, c, m) else convert_level oldp newp 1 c m.

(** ** [mls_compute_sid] *)

(** The cases AVTAB_CHANGE (and the fall-through of AVTAB_TRANSITION). *)
Definition mls_change (scontext : context_struct) (tclass : Z) (newcontext : context_struct) (m : mem)
    : Z * context_struct * mem :=
  if tclass =? SECCLASS_PROCESS then mls_copy_context newcontext scontext m
  else mls_scopy_context newcontext scontext m.

(** [class_val_to_struct[tclass - 1]->default_range], 0 without a class. *)
Definition class_default_range (p : policydb) (tclass : Z) : outcome Z :=
  if negb (tclass =? 0) && (tclass <=? nprim (p_classes p)) then
    cl ← val_to_struct (class_val_to_struct p) (class_mem p) (tclass - 1);
    mret (match cl with Some cl => default_range cl | None => 0 end)
  else mret 0.

Definition mls_transition (p : policydb) (scontext tcontext : context_struct) (tclass : Z)
    (newcontext : context_struct) (m : mem) : outcome (Z * context_struct * mem) :=
  match hashtab_search (range_tr p) (RT (type scontext) (type tcontext) tclass) with
  | Some r => mret (mls_range_set newcontext r m)
  | None =>
      dr ← class_default_range p tclass;
      if dr =? DEFAULT_SOURCE_LOW then mret (mls_context_cpy_low newcontext scontext m)
      else if dr =? DEFAULT_SOURCE_HIGH then mret (mls_context_cpy_high newcontext scontext m)
      else if dr =? DEFAULT_SOURCE_LOW_HIGH then mret (mls_context_cpy newcontext scontext m)
      else if dr =? DEFAULT_TARGET_LOW then mret (mls_context_cpy_low newcontext tcontext m)
      else if dr =? DEFAULT_TARGET_HIGH then mret (mls_context_cpy_high newcontext tcontext m)
      else if dr =? DEFAULT_TARGET_LOW_HIGH then mret (mls_context_cpy newcontext tcontext m)
      else mret (mls_change scontext tclass newcontext m)
  end.

Definition mls_compute_sid (p : policydb) (scontext tcontext : context_struct) (tclass spec : Z)
    (newcontext : context_struct) (m : mem) : outcome (Z * context_struct * mem) :=
  if mls p =? 0 then mret (0, newcontext, m)
  else if spec =? AVTAB_TRANSITION then mls_transition p scontext tcontext tclass newcontext m
  else if spec =? AVTAB_CHANGE then mret (mls_change scontext tclass newcontext m)
  else if spec =? AVTAB_MEMBER then mret (mls_context_cpy_low newcontext scontext m)
  else mret (- EINVAL, newcontext, m).

(** ** The public checks *)

(** [*response] is unchanged ([None]) on an error. *)
Definition sepol_mls_contains (p : policydb) (mls1 mls2 : string) (m : mem)
    : outcome (Z * option bool * mem) :=
  let '(ok1, m) := malloc m in
  let '(ok2, m) := malloc m in
  if negb ok1 && negb ok2 then mret (STATUS_ERR, None, m)
  else if negb ok1 || negb ok2 then
    (* the error path runs context_destroy on the context that was allocated
       but not initialised *)
    Undef
  else
    '(rc, (ctx1, m)) ← mls_from_string p mls1 (context_init, m);
    if rc <? 0 then mret (STATUS_ERR, None, m)
    else
      '(rc, (ctx2, m)) ← mls_from_string p mls2 (context_init, m);
      if rc <? 0 then mret (STATUS_ERR, None, m)
      else mret (STATUS_SUCCESS, Some (mls_range_contains (range ctx1) (range ctx2)), m).

Definition sepol_mls_check (p : policydb) (str : string) (m : mem) : outcome (Z * mem) :=
  let '(ok, m) := malloc m in
  if negb ok then mret (STATUS_ERR, m)
  else '(rc, (_, m)) ← mls_from_string p str (context_init, m); mret (rc, m).

(** ** Semantic levels *)

Fixpoint cpy_semantic_cats (c : list mls_semantic_cat) (m : mem) : option (list mls_semantic_cat) * mem :=
  match c with
  | [] => (Some [], m)
  | sc :: c' =>
      let '(ok, m) := malloc m in
      if negb ok then (None, m)
      else let '(r, m) := cpy_semantic_cats c' m in (cons (SC (sc_low sc) (sc_high sc)) <$> r, m)
  end.

(** On an error the list of [dst] has been freed but is still pointed to. *)
Definition mls_semantic_level_cpy (src : mls_semantic_level) (m : mem)
    : Z * option mls_semantic_level * mem :=
  let '(r, m) := cpy_semantic_cats (sl_cat src) m in
  match r with
  | None => (-1, None, m)
  | Some c => (0, Some (SL (sl_sens src) c), m)
  end.

Definition mls_semantic_range_cpy (src : mls_semantic_range) (m : mem)
    : Z * option mls_semantic_range * mem :=
  let '(rc, l0, m) := mls_semantic_level_cpy (sr_level0 src) m in
  if rc <? 0 then (-1, None, m)
  else
    let '(rc, l1, m) := mls_semantic_level_cpy (sr_level1 src) m in
    if rc <? 0 then (-1, None, m)
    else
      match l0, l1 with
      | Some l0, Some l1 => (0, Some (SR l0 l1), m)
      | _, _ => (-1, None, m)
      end.

(** * The length computed is the length written *)

Lemma slen_app a b : slen (a +:+ b)%string = slen a + slen b.
Proof.
  unfold slen. induction a as [|c a IH]; [done|].
  change (String c a +:+ b)%string with (String c (a +:+ b)). cbn [String.length]. lia.
Qed.

(** The two loops take the same decisions: the length of the text is the number. *)
Definition in_step (s1 : Z * Z) (s2 : Z * bool * string) : Prop := s1.1 = s2.1.1 ∧ s1.2 = slen s2.2.

Lemma steps_agree p bits : ∀ s1 s2 r1 r2, in_step s1 s2 →
  ofold (len_step p) bits s1 = Ret r1 → ofold (text_step p) bits s2 = Ret r2 → in_step r1 r2.
Proof.
  induction bits as [|[i set] bits IH]; intros [rng len] [[rng' sep] out] r1 r2 [E1 E2] H1 H2; cbn [fst snd] in *; subst.
  { simpl in H1, H2. injection H1 as <-. injection H2 as <-. by split. }
  cbn [ofold] in H1, H2. apply ret_bind_inv in H1 as (s1&S1&H1). apply ret_bind_inv in H2 as (s2&S2&H2).
  eapply IH; [|exact H1|exact H2]. clear IH H1 H2. unfold len_step in S1. unfold text_step in S2.
  destruct set.
  - destruct (negb (rng' =? 0)).
    + injection S1 as <-. injection S2 as <-. by split.
    + apply ret_bind_inv in S1 as (n&Hn&[= <-]). rewrite Hn in S2. injection S2 as <-. split; [done|].
      cbn [fst snd]. rewrite !slen_app. destruct sep; unfold slen at 4; cbn [String.length]; lia.
  - destruct (1 <? rng').
    + apply ret_bind_inv in S1 as (n&Hn&[= <-]). rewrite Hn in S2. injection S2 as <-. split; [done|].
      cbn [fst snd]. rewrite !slen_app. destruct (2 <? rng'); unfold slen at 4; cbn [String.length]; lia.
    + injection S1 as <-. injection S2 as <-. by split.
Qed.

Lemma level_text_length p lv out len len' out' :
  len = slen out → level_len p lv len = Ret len' → level_text p lv out = Ret out' → len' = slen out'.
Proof.
  intros -> H1 H2. unfold level_len in H1. unfold level_text in H2.
  apply ret_bind_inv in H1 as (sn&Hsn&H1). rewrite Hsn in H2. cbn [mbind outcome_bind] in H2.
  apply ret_bind_inv in H1 as ([rng l1]&F1&H1). apply ret_bind_inv in H2 as ([[rng' sep] o1]&F2&H2).
  assert (in_step (rng, l1) (rng', sep, o1)) as [E1 E2].
  { eapply steps_agree; [|exact F1|exact F2]. split; [done|]. cbn [fst snd]. by rewrite slen_app. }
  cbn [fst snd] in *. subst rng' l1. destruct (1 <? rng).
  - apply ret_bind_inv in H1 as (n&Hn&[= <-]). rewrite Hn in H2. injection H2 as <-.
    rewrite !slen_app. destruct (2 <? rng); unfold slen at 4; cbn [String.length]; lia.
  - injection H1 as <-. by injection H2 as <-.
Qed.

Lemma context_text_length p c len out :
  mls_compute_context_len p c = Ret len → mls_sid_to_context p c = Ret out → len = slen out.
Proof.
  intros H1 H2. unfold mls_compute_context_len in H1. unfold mls_sid_to_context in H2.
  destruct (mls p =? 0); [injection H1 as <-; by injection H2 as <-|].
  apply ret_bind_inv in H1 as (l1&F1&H1). apply ret_bind_inv in H2 as (o1&F2&H2).
  pose proof (level_text_length p _ ":"%string 1 _ _ eq_refl F1 F2) as E.
  destruct (mls_level_eq _ _); [injection H1 as <-; by injection H2 as <-|].
  eapply level_text_length; [|exact H1|exact H2]. rewrite slen_app, E. done.
Qed.

(** * Valid contexts *)

(** The range of a valid context is a range, its levels are in the policy with
    the categories their sensitivities admit, and the user may have it. *)
Lemma ofold_false {A} (f : bool → A → outcome bool) l ok :
  (∀ a, f false a = Ret false) → ofold f l false = Ret ok → ok = false.
Proof.
  intros Hf. induction l as [|a l IH]; simpl; [by intros [= <-]|]. rewrite Hf. simpl. apply IH.
Qed.

Lemma cats_valid_true n lev l ok :
  cats_valid n lev l = Ret ok → ok = true →
  ∀ i, i ∈ l → i <= n ∧ ∃ lv, lev = Some lv ∧ ebitmap_get_bit (cat lv) i = true.
Proof.
  unfold cats_valid. revert ok. induction l as [|j l IH]; intros ok H Hok i Hi; [by apply not_elem_of_nil in Hi|].
  simpl in H. destruct (Z.ltb_spec n j).
  { simpl in H. apply ofold_false in H; [by subst|done]. }
  destruct lev as [lv|]; [|done]. simpl in H. destruct (ebitmap_get_bit (cat lv) j) eqn:E.
  - apply elem_of_cons in Hi as [->|Hi]; [by eauto|by eapply IH].
  - apply ofold_false in H; [by subst|done].
Qed.

Definition level_admitted (p : policydb) (lv : mls_level) : Prop :=
  sens lv ≠ 0 ∧ sens lv <= nprim (p_levels p) ∧
  ∃ key d, val_to_name p SYM_LEVELS (sens lv - 1) = Ret (Some key) ∧
    hashtab_search (table (p_levels p)) key = Some d ∧
    ∀ i, ebitmap_get_bit (cat lv) i = true → ∃ l, level d = Some l ∧ ebitmap_get_bit (cat l) i = true.

Lemma level_valid_true p lv :
  ebitmap_wf (cat lv) → level_valid p lv = Ret true → level_admitted p lv.
Proof.
  intros Hw H. unfold level_valid in H. destruct (Z.eqb_spec (sens lv) 0); [done|].
  destruct (Z.ltb_spec (nprim (p_levels p)) (sens lv)); [done|]. cbn [orb] in H.
  split; [done|]. split; [done|]. apply ret_bind_inv in H as ([key|]&Hk&H); [|done].
  destruct (hashtab_search (table (p_levels p)) key) as [d|] eqn:E; [|done]. exists key, d.
  split; [done|]. split; [done|]. intros i Hi. apply elem_of_set_bits in Hi; [|done].
  by eapply (cats_valid_true _ _ _ true) in H as [_ H].
Qed.

Lemma mls_context_isvalid_true p c :
  mls p ≠ 0 → level_wf (level0 (range c)) → level_wf (level1 (range c)) →
  mls_context_isvalid p c = Ret true →
  mls_level_dom (level1 (range c)) (level0 (range c)) = true ∧
  level_admitted p (level0 (range c)) ∧ level_admitted p (level1 (range c)) ∧
  (role c ≠ OBJECT_R_VAL → ∃ u, val_to_struct (user_val_to_struct p) (user_mem p) (user c - 1) = Ret (Some u) ∧
    mls_range_contains (exp_range u) (range c) = true).
Proof.
  intros Hm H0 H1 H. unfold mls_context_isvalid in H. destruct (Z.eqb_spec (mls p) 0); [done|].
  destruct (mls_level_dom (level1 (range c)) (level0 (range c))) eqn:Ed; [|done]. cbn [negb] in H.
  apply ret_bind_inv in H as ([|]&L0&H); [|done]. apply ret_bind_inv in H as ([|]&L1&H); [|done].
  split; [done|]. split; [by apply level_valid_true|]. split; [by apply level_valid_true|].
  intros Hr. cbn [negb] in H. destruct (Z.eqb_spec (role c) OBJECT_R_VAL); [done|].
  destruct ((user c =? 0) || (nprim (p_users p) <? user c)); [done|].
  apply ret_bind_inv in H as ([u|]&Hu&H); [|done]. exists u. split; [done|]. by injection H as ->.
Qed.
