(* ===== verification/MlsText.v ===== *)
(** * The text of a range is read back (libsepol/src/mls.c)

    [mls_sid_to_context] writes the categories of a level as items, single
    categories and spans; [mls_context_to_sid] reads items.  Between the two,
    the runs of a category set: the text of a range whose names are plain and
    whose runs do not cross a gap of the bitmap is read back as that range. *)

From S2P Require Import Prelude Ebitmap Hashtab Avtab Context Policydb Mls.

(** ** Items *)

Inductive item :=
| one (i : Z)
| span (lo hi : Z).

Definition item_bits (it : item) (j : Z) : Prop :=
  match it with one i => j = i | span lo hi => lo <= j <= hi end.

Definition items_bits (its : list item) (j : Z) : Prop := Exists (λ it, item_bits it j) its.

(** The categories of an item, and whether a span is written with two names. *)
Definition item_ok (used : Z → Prop) (it : item) : Prop :=
  match it with one i => used i | span lo hi => lo < hi ∧ used lo ∧ used hi end.

Section text.
Variable name : Z → string.

Definition item_text (it : item) : string :=
  match it with one i => name i | span lo hi => (name lo +:+ "." +:+ name hi)%string end.

(** The items with a separator before each: [sep] before the first. *)
Fixpoint items_text (sep : string) (its : list item) : string :=
  match its with
  | [] => EmptyString
  | it :: its' => (sep +:+ item_text it +:+ items_text "," its')%string
  end.

Lemma append_cons c (a b : string) : (String c a +:+ b = String c (a +:+ b))%string.
Proof. done. Qed.

Lemma append_assoc (a b c : string) : ((a +:+ b) +:+ c = a +:+ b +:+ c)%string.
Proof. induction a as [|x a IH]; [done|]. by rewrite !append_cons, IH. Qed.

Lemma append_empty (a : string) : (a +:+ EmptyString = a)%string.
Proof. induction a as [|x a IH]; [done|]. by rewrite !append_cons, IH. Qed.

Lemma items_text_snoc sep its it :
  items_text sep (its ++ [it]) = (items_text sep its +:+ (if bool_decide (its = []) then sep else ",") +:+ item_text it)%string.
Proof.
  revert sep. induction its as [|i its IH]; intros sep; cbn [items_text app].
  - rewrite bool_decide_true by done. by rewrite append_empty.
  - rewrite bool_decide_false by done. rewrite IH, !append_assoc. do 2 f_equal.
    destruct its as [|i' its]; [by rewrite bool_decide_true|]. by rewrite bool_decide_false.
Qed.

End text.

(** ** The runs of a category set *)

(** No run continues over a gap between two words. *)
Fixpoint contiguous (bits : list (Z * bool)) : Prop :=
  match bits with
  | [] => True
  | (i, b) :: bits' =>
      match bits' with [] => True | (j, _) :: _ => b = true → j = i + 1 end ∧ contiguous bits'
  end.

(** The items of a closed run. *)
Definition run (lo n : Z) : list item :=
  if n =? 1 then [one lo] else if n =? 2 then [one lo; one (lo + 1)] else [span lo (lo + n - 1)].

(** The open run at a position of the loop: nothing, or its start. *)
Definition open_run (i rng : Z) : list item := if rng =? 0 then [] else [one (i - rng)].

Fixpoint runs (bits : list (Z * bool)) (i rng : Z) : list item :=
  match bits with
  | [] => if rng =? 0 then [] else run (i - rng) rng
  | (j, b) :: bits' =>
      if b : bool then runs bits' (j + 1) (rng + 1)
      else (if rng =? 0 then [] else run (i - rng) rng) ++ runs bits' (j + 1) 0
  end.

Lemma run_bits lo n j : 0 < n → items_bits (run lo n) j ↔ lo <= j < lo + n.
Proof.
  intros Hn. unfold items_bits, run. destruct (Z.eqb_spec n 1) as [->|]; [|destruct (Z.eqb_spec n 2) as [->|]];
    rewrite ?Exists_cons, Exists_nil; cbn [item_bits]; lia.
Qed.

Lemma items_bits_app a b j : items_bits (a ++ b) j ↔ items_bits a j ∨ items_bits b j.
Proof. apply Exists_app. Qed.

(** Exactly the bits of the set, and of the run open before. *)
Lemma runs_bits bits j : ∀ i rng, 0 <= rng → contiguous bits →
  (rng ≠ 0 → match bits with (k, _) :: _ => k = i | [] => True end) →
  items_bits (runs bits i rng) j ↔ i - rng <= j < i ∧ rng ≠ 0 ∨ (j, true) ∈ bits.
Proof.
  induction bits as [|[k b] bits IH]; intros i rng Hr Hc Hi; cbn [runs].
  - rewrite elem_of_nil. destruct (Z.eqb_spec rng 0) as [->|]; [unfold items_bits; rewrite Exists_nil; lia|].
    rewrite run_bits by lia. lia.
  - destruct Hc as [Hk Hc]. rewrite elem_of_cons. destruct b.
    + rewrite IH; [|lia|done|intros _; destruct bits as [|[k' b'] bits]; [done|by apply Hk]].
      destruct (decide (rng = 0)) as [->|Hne].
      * split; [intros [?|?]; [right; left; f_equal; lia|by right; right]|].
        intros [[_ ?]|[[= ->]|?]]; [done|left; lia|by right].
      * specialize (Hi Hne). subst k. split; [|intros [?|[[= ->]|?]]; [left; lia|left; lia|by right]].
        intros [[? _]|?]; [|by right; right]. destruct (decide (j = i)) as [->|]; [by right; left|left; lia].
    + rewrite items_bits_app, IH; [|lia|done|done].
      destruct (Z.eqb_spec rng 0) as [->|Hne].
      * unfold items_bits at 1. rewrite Exists_nil. split; [intros [[]|[[? ?]|?]]; [lia|by right; right]|intros [[? ?]|[?|?]]; [lia|done|by right; right]].
      * rewrite run_bits by lia. split; [intros [?|[[? ?]|?]]; [left; lia|lia|by right; right]|].
        intros [[? _]|[?|?]]; [left; lia|done|by right; right].
Qed.

Lemma runs_spans bits : ∀ i rng, 0 <= rng → Forall (item_ok (λ _, True)) (runs bits i rng).
Proof.
  assert (Hrun : ∀ lo n, 0 < n → Forall (item_ok (λ _, True)) (run lo n)).
  { intros lo n Hn. unfold run. zcase; repeat constructor; lia. }
  induction bits as [|[k []] bits IH]; intros i rng Hr; cbn [runs].
  - destruct (Z.eqb_spec rng 0); [constructor|by apply Hrun; lia].
  - apply IH. lia.
  - apply Forall_app. split; [|by apply IH]. destruct (Z.eqb_spec rng 0); [constructor|by apply Hrun; lia].
Qed.

(** *** The text the loops write *)

Section writing.
Variable p : policydb.
Variable name : Z → string.
Variable bits : list (Z * bool).
Hypothesis named : ∀ i, (i, true) ∈ bits → val_name p SYM_CATS i = Ret (name i).

(** What has been written: the items of the closed runs and the first name of
    the open one. *)
Definition written (base : string) (its : list item) (i rng : Z) : string :=
  (base +:+ items_text name ":" (its ++ open_run i rng))%string.

Lemma close_run base its i rng : 1 < rng →
  (written base its i rng +:+ (if (2 <? rng)%Z then "." else ",") +:+ name (i - 1))%string =
  (base +:+ items_text name ":" (its ++ run (i - rng) rng))%string.
Proof.
  intros Hr. unfold written, open_run, run. zcase; try lia; subst; rewrite ?append_assoc; f_equal.
  - change ([one (i - 2); one (i - 2 + 1)]) with ([one (i - 2)] ++ [one (i - 2 + 1)]).
    rewrite app_assoc, (items_text_snoc _ _ (its ++ _)), bool_decide_false by (by intros [? ?]%app_nil).
    cbn [item_text]. do 3 f_equal. lia.
  - rewrite !items_text_snoc. cbn [item_text]. rewrite !append_assoc. do 4 f_equal. f_equal. lia.
Qed.

Definition wrote (its : list item) (i rng : Z) : bool := negb (bool_decide (its ++ open_run i rng = [])).

Lemma written_next base its i rng : 0 < rng → written base its i rng = written base its (i + 1) (rng + 1).
Proof. intros Hr. unfold written, open_run. zcase; try lia. by replace (i + 1 - (rng + 1)) with (i - rng) by lia. Qed.

Lemma written_start base its i j :
  (written base its i 0 +:+ (if wrote its i 0 then "," else ":") +:+ name j)%string = written base its (j + 1) 1.
Proof.
  unfold written, wrote, open_run. cbn [Z.eqb]. rewrite app_nil_r, items_text_snoc, !append_assoc. cbn [item_text].
  replace (j + 1 - 1) with j by lia. by destruct (bool_decide (its = [])).
Qed.

(** The items after the run that is open at [i] is closed. *)
Definition closed (its : list item) (i rng : Z) : list item := its ++ (if rng =? 0 then [] else run (i - rng) rng).

Lemma close_written base its i rng : 0 <= rng → (1 < rng → val_name p SYM_CATS (i - 1) = Ret (name (i - 1))) →
  (if 1 <? rng then n ← val_name p SYM_CATS (i - 1); mret (written base its i rng +:+ (if (2 <? rng)%Z then "." else ",") +:+ n)%string
   else mret (written base its i rng)) = Ret (base +:+ items_text name ":" (closed its i rng))%string.
Proof.
  intros Hr Hn. unfold closed. destruct (Z.ltb_spec 1 rng).
  - rewrite Hn by done. cbn [mbind outcome_bind]. rewrite close_run by done. by destruct (Z.eqb_spec rng 0); [lia|].
  - unfold written, open_run, run. by zcase; try lia; subst.
Qed.

Lemma fold_text base bs : ∀ its i rng, (∀ x, x ∈ bs → x ∈ bits) → 0 <= rng → contiguous bs →
  (rng ≠ 0 → match bs with (k, _) :: _ => k = i | [] => True end) →
  (rng ≠ 0 → val_name p SYM_CATS (i - 1) = Ret (name (i - 1))) →
  ∃ rng' its', let i' := match last bs with Some (k, _) => k + 1 | None => i end in
    ofold (text_step p) bs (rng, wrote its i rng, written base its i rng) = Ret (rng', wrote its' i' rng', written base its' i' rng') ∧
    0 <= rng' ∧ (rng' ≠ 0 → val_name p SYM_CATS (i' - 1) = Ret (name (i' - 1))) ∧
    closed its' i' rng' = its ++ runs bs i rng.
Proof.
  induction bs as [|[k b] bs IH]; intros its i rng Hin Hr Hc Hi Hn; [by exists rng, its|].
  destruct Hc as [Hk Hc]. cbn [ofold runs].
  assert (Hin' : ∀ x, x ∈ bs → x ∈ bits) by (intros; apply Hin; by right).
  assert (Elast : match last ((k, b) :: bs) with Some (k', _) => k' + 1 | None => i end =
                  match last bs with Some (k', _) => k' + 1 | None => k + 1 end).
  { rewrite last_cons. by destruct (last bs). }
  cbv zeta. rewrite Elast. destruct b.
  - assert (Hname : val_name p SYM_CATS k = Ret (name k)) by (apply named, Hin; by left).
    assert (E : text_step p (rng, wrote its i rng, written base its i rng) (k, true) =
                Ret (rng + 1, wrote its (k + 1) (rng + 1), written base its (k + 1) (rng + 1))).
    { unfold text_step. destruct (Z.eqb_spec rng 0) as [->|Hne]; cbn [negb].
      - rewrite Hname. cbn [mbind outcome_bind]. rewrite written_start. change (0 + 1) with 1.
        assert (wrote its (k + 1) 1 = true) as ->; [|done]. unfold wrote, open_run. cbn [Z.eqb].
        rewrite bool_decide_false; [done|]. by intros [? ?]%app_nil.
      - rewrite (Hi Hne), written_next by lia. unfold wrote, open_run. zcase; try lia.
        by replace (i + 1 - (rng + 1)) with (i - rng) by lia. }
    rewrite E. cbn [mbind outcome_bind]. apply IH; [done|lia|done| |].
    + intros _. destruct bs as [|[k' b'] bs]; [done|by apply Hk].
    + intros _. by replace (k + 1 - 1) with k by lia.
  - set (its1 := closed its i rng).
    assert (E : text_step p (rng, wrote its i rng, written base its i rng) (k, false) = Ret (0, wrote its1 (k + 1) 0, written base its1 (k + 1) 0)).
    { assert (Hw : (0 <? rng) = true → wrote its i rng = true ∧ its1 ≠ []).
      { intros ?%Z.ltb_lt. unfold wrote, open_run, its1, closed. destruct (Z.eqb_spec rng 0); [lia|].
        rewrite bool_decide_false by (by intros [? ?]%app_nil). split; [done|]. intros [_ E]%app_nil. unfold run in E. revert E. by zcase. }
      assert (Ew : wrote its i rng = wrote its1 (k + 1) 0 ∧ written base its1 (k + 1) 0 = (base +:+ items_text name ":" its1)%string).
      { split; [|unfold written, open_run; by rewrite app_nil_r]. unfold wrote at 2, open_run. cbn [Z.eqb]. rewrite app_nil_r.
        destruct (Z.ltb_spec 0 rng).
        - destruct (Hw eq_refl) as [-> ?]. by rewrite bool_decide_false.
        - assert (rng = 0) as -> by lia. unfold its1, closed, wrote, open_run. cbn [Z.eqb]. by rewrite !app_nil_r. }
      unfold text_step. destruct Ew as [<- ->]. pose proof (close_written base its i rng Hr ltac:(intros; apply Hn; lia)) as Ecl.
      fold its1 in Ecl. destruct (Z.ltb_spec 1 rng); [|by injection Ecl as <-].
      rewrite (Hi ltac:(lia)). rewrite Hn in Ecl |- * by lia. cbn [mbind outcome_bind] in *. by injection Ecl as <-. }
    rewrite E. cbn [mbind outcome_bind].
    destruct (IH its1 (k + 1) 0) as (rng'&its'&E'&?&?&Ecl); [done|lia|done|done|done|].
    exists rng', its'. split_and!; [done..|]. rewrite Ecl. unfold its1, closed. by rewrite app_assoc.
Qed.

Lemma level_text_items lv out sn :
  val_name p SYM_LEVELS (sens lv - 1) = Ret sn → bits = ebitmap_for_each_bit (cat lv) → contiguous bits →
  level_text p lv out = Ret (out +:+ sn +:+ items_text name ":" (runs bits 0 0))%string.
Proof.
  intros Hsn Hb Hc. unfold level_text. rewrite Hsn, <- Hb. cbn [mbind outcome_bind].
  destruct (fold_text (out +:+ sn)%string bits [] 0 0) as (rng&its&E&Hr&Hn&Ecl); [done|done|done|done|done|].
  assert (Ew : written (out +:+ sn)%string [] 0 0 = (out +:+ sn)%string).
  { unfold written, open_run. cbn [Z.eqb app items_text]. by rewrite append_empty. }
  rewrite Ew in E. change (wrote [] 0 0) with false in E. rewrite E. cbn [mbind outcome_bind].
  set (i' := match last bits with Some (k, _) => k + 1 | None => 0 end) in *.
  assert (Elast : last_visited bits = i' - 1).
  { unfold last_visited, i'. destruct (last bits) as [[k b]|]; lia. }
  rewrite Elast, (close_written _ its i' rng Hr ltac:(intros; apply Hn; lia)), Ecl. by rewrite append_assoc.
Qed.

End writing.

(** *** Reading items *)

Definition cat_plain (s : string) : Prop := Forall (λ c, c ≠ ","%char ∧ c ≠ "-"%char ∧ c ≠ "."%char) (list_ascii_of_string s).
Definition sens_plain (s : string) : Prop := Forall (λ c, c ≠ ":"%char ∧ c ≠ "-"%char) (list_ascii_of_string s).

Lemma span_app stop s rest : Forall (λ c, stop c = false) (list_ascii_of_string s) →
  match rest with EmptyString => True | String c _ => stop c = true end →
  span_until stop (s +:+ rest)%string = (s, rest).
Proof.
  intros Hs Hr. induction s as [|c s IH].
  - change (EmptyString +:+ rest)%string with rest. destruct rest as [|c r]; [done|]. cbn [span_until]. by rewrite Hr.
  - cbn [list_ascii_of_string] in Hs. apply Forall_cons in Hs as [Hc Hs]. rewrite append_cons. cbn [span_until].
    by rewrite Hc, IH.
Qed.

Lemma span_all stop s : Forall (λ c, stop c = false) (list_ascii_of_string s) → span_until stop s = (s, EmptyString).
Proof. intros Hs. pose proof (span_app stop s EmptyString Hs I) as H. by rewrite append_empty in H. Qed.

Lemma ascii_app s1 s2 : list_ascii_of_string (s1 +:+ s2) = list_ascii_of_string s1 ++ list_ascii_of_string s2.
Proof. induction s1 as [|c s IH]; [done|]. rewrite append_cons. cbn. by rewrite IH. Qed.

Section reading.
Variable p : policydb.
Variable name : Z → string.
Variable l : Z.
Hypothesis Hl : l = 0 ∨ l = 1.

(** The categories that can be read back. *)
Definition readable (i : Z) : Prop :=
  0 <= i ∧ i + 1 < 2 ^ 31 ∧ cat_plain (name i) ∧
  ∃ d, hashtab_search (table (p_cats p)) (name i) = Some d ∧ ct_value d = i + 1.

(** The state after some categories have been added to level [l]. *)
Definition adds (c : context_struct) (A : Z → Prop) (s : pstate) : Prop :=
  let '(c', m') := s in
  plenty m' ∧ ∃ e, c' = set_level l (ML (sens (get_level l c)) e) c ∧ ebitmap_wf e ∧
    ∀ j, ebitmap_get_bit e j = true ↔ A j ∨ ebitmap_get_bit (cat (get_level l c)) j = true.

Lemma get_set_level v c : get_level l (set_level l v c) = v.
Proof. destruct Hl as [-> | ->]; done. Qed.

Lemma set_set_level v v' c : set_level l v (set_level l v' c) = set_level l v c.
Proof. destruct Hl as [-> | ->]; done. Qed.

Lemma adds_trans c A B s s' : adds c A s → adds s.1 B s' → adds c (λ j, A j ∨ B j) s'.
Proof.
  destruct s as [c1 m1], s' as [c2 m2]. intros (_&e1&->&_&H1) (Hp&e2&->&Hw&H2). split; [done|].
  exists e2. cbn [fst] in *. rewrite get_set_level in *. cbn [sens cat] in *. rewrite set_set_level.
  split_and!; [done..|]. intros j. rewrite H2, H1. tauto.
Qed.

Lemma adds_ext c A B s : adds c A s → (∀ j, A j ↔ B j) → adds c B s.
Proof.
  destruct s as [c' m']. intros (Hp&e&?&?&H) HAB. split; [done|]. exists e. split_and!; [done..|].
  intros j. by rewrite H, HAB.
Qed.

Lemma adds_wf c A s : adds c A s → level_wf (get_level l s.1) ∧ plenty s.2.
Proof. destruct s as [c' m']. intros (Hp&e&->&Hw&_). cbn [fst snd]. by rewrite get_set_level. Qed.

Lemma pset_bit_adds c m i : level_wf (get_level l c) → plenty m → 0 <= i < 2 ^ 31 →
  ∃ s, pset_bit l i (c, m) = Ret (0, s) ∧ adds c (λ j, j = i) s.
Proof.
  intros Hw Hm Hi. unfold pset_bit.
  pose proof (ebitmap_set_bit_correct (cat (get_level l c)) i true m Hw ltac:(lia)) as H.
  destruct (ebitmap_set_bit _ i true m) as [[rc e] m']. destruct H as [Hp H]. destruct (Hp Hm) as [Hm' Hrc].
  assert (Hok : bit_ok i) by (split; lia).
  specialize (Hrc Hok). subst rc. destruct H as [(_&_&He&Hg)|[([=]&_)|([=]&_)]].
  eexists. split; [done|]. split; [done|]. exists e. split_and!; [done..|]. intros j. rewrite Hg.
  destruct (Z.eqb_spec j i); [split; [by left|done]|]. split; [by right|by intros [?|?]].
Qed.

Lemma pset_range_adds n : ∀ c m i, level_wf (get_level l c) → plenty m → 0 <= i → i + Z.of_nat n <= 2 ^ 31 →
  ∃ s, pset_range n l i (c, m) = Ret (0, s) ∧ adds c (λ j, i <= j < i + Z.of_nat n) s.
Proof.
  induction n as [|n IH]; intros c m i Hw Hm Hi Hn; cbn [pset_range].
  - exists (c, m). split; [done|]. split; [done|]. exists (cat (get_level l c)). split_and!; [|done|intros j; split; [by right|intros [?|?]; [lia|done]]].
    destruct Hl as [-> | ->]; destruct c as [? ? ? [[] []]]; done.
  - destruct (pset_bit_adds c m i Hw Hm ltac:(lia)) as (s&E&Ha). unfold mbind, M_bind. rewrite E. cbn [Z.eqb negb].
    destruct (adds_wf _ _ _ Ha) as [Hw1 Hm1]. destruct s as [c1 m1]. destruct (IH c1 m1 (i + 1)) as (s2&E2&Ha2); [done|done|lia|lia|].
    exists s2. split; [done|]. eapply adds_ext; [by apply (adds_trans _ _ _ _ _ Ha Ha2)|]. intros j. lia.
Qed.

(** An item is read as its categories. *)
Lemma parse_item it c m : item_ok readable it → level_wf (get_level l c) → plenty m →
  ∃ s, parse_cat p l (item_text name it) (c, m) = Ret (0, s) ∧ adds c (item_bits it) s.
Proof.
  intros Hit Hw Hm. unfold parse_cat. destruct it as [i|lo hi]; cbn [item_text item_bits].
  - destruct Hit as (Hi&Hi2&Hpl&d&Hd&Hv). rewrite span_all.
    2: { eapply Forall_impl; [exact Hpl|]. intros x (_&_&?). by apply Ascii.eqb_neq. }
    rewrite Hd, Hv. replace (i + 1 - 1) with i by lia. rewrite u32_small by lia.
    destruct (pset_bit_adds c m i Hw Hm ltac:(lia)) as (s&E&Ha). unfold mbind, M_bind. rewrite E. cbn [Z.eqb negb].
    by exists s.
  - destruct Hit as (Hlt&(Hi&Hi2&Hpl&d&Hd&Hv)&(_&Hj2&_&d2&Hd2&Hv2)).
    change (name lo +:+ "." +:+ name hi)%string with (name lo +:+ String "." (name hi))%string. rewrite span_app; [| |done].
    2: { eapply Forall_impl; [exact Hpl|]. intros x (_&_&?). by apply Ascii.eqb_neq. }
    rewrite Hd, Hv. replace (lo + 1 - 1) with lo by lia. rewrite u32_small by lia.
    destruct (pset_bit_adds c m lo Hw Hm ltac:(lia)) as (s&E&Ha). unfold mbind, M_bind. rewrite E. cbn [Z.eqb negb].
    rewrite Hd2, Hv2. destruct (Z.leb_spec (hi + 1) (lo + 1)); [lia|].
    destruct (adds_wf _ _ _ Ha) as [Hw1 Hm1]. destruct s as [c1 m1].
    destruct (pset_range_adds (Z.to_nat (hi + 1 - (lo + 1))) c1 m1 (lo + 1)) as (s2&E2&Ha2); [done|done|lia|lia|].
    rewrite E2. cbn [Z.eqb negb]. exists s2. split; [done|].
    eapply adds_ext; [by apply (adds_trans _ _ _ _ _ Ha Ha2)|]. intros j. cbn [item_bits]. lia.
Qed.

Lemma item_plain it : item_ok readable it →
  Forall (λ c, (Ascii.eqb c "," || Ascii.eqb c "-") = false) (list_ascii_of_string (item_text name it)).
Proof.
  assert (Hn : ∀ i, readable i → Forall (λ c, (Ascii.eqb c "," || Ascii.eqb c "-") = false) (list_ascii_of_string (name i))).
  { intros i (_&_&Hpl&_). eapply Forall_impl; [exact Hpl|]. intros x (H1&H2&_).
    by rewrite (proj2 (Ascii.eqb_neq _ _) H1), (proj2 (Ascii.eqb_neq _ _) H2). }
  destruct it as [i|lo hi]; cbn [item_text]; [by apply Hn|]. intros (_&H1&H2). rewrite !ascii_app.
  apply Forall_app; split; [by apply Hn|]. apply Forall_app; split; [by constructor|by apply Hn].
Qed.

(** The categories of a level, up to the end of the text or the dash. *)
Lemma parse_items it its : ∀ fuel rest c m, Forall (item_ok readable) (it :: its) → level_wf (get_level l c) → plenty m →
  match rest with EmptyString => True | String x _ => x = "-"%char end → (length its < fuel)%nat →
  ∃ s, parse_cats fuel p l (item_text name it +:+ items_text name "," its +:+ rest)%string (c, m) =
       Ret ((0, (take_delim rest).1, (take_delim rest).2), s) ∧ adds c (items_bits (it :: its)) s.
Proof.
  revert it. induction its as [|it2 its IH]; intros it [|fuel] rest c m Hits Hw Hm Hrest Hfuel; cbn [length] in Hfuel; try lia;
    apply Forall_cons in Hits as [Hit Hits]; destruct (parse_item it c m Hit Hw Hm) as (s&E&Ha); cbn [parse_cats items_text].
  - change (EmptyString +:+ rest)%string with rest.
    rewrite span_app; [|by apply item_plain|destruct rest; [done|by subst]].
    destruct (take_delim rest) as [delim s'] eqn:Ed. unfold mbind, M_bind. rewrite E. cbn [Z.eqb negb fst snd].
    exists s. split; [|eapply adds_ext; [exact Ha|]; intros j; unfold items_bits; rewrite Exists_cons, Exists_nil; tauto].
    destruct rest as [|x rest]; injection Ed as <- <-; [done|]. by subst.
  - rewrite !append_assoc. change ("," +:+ ?r)%string with (String "," r).
    rewrite span_app; [|by apply item_plain|done]. cbn [take_delim]. unfold mbind, M_bind. rewrite E. cbn [Z.eqb negb].
    destruct (adds_wf _ _ _ Ha) as [Hw1 Hm1]. destruct s as [c1 m1].
    destruct (IH it2 fuel rest c1 m1) as (s2&E2&Ha2); [done..|lia|].
    exists s2. split; [exact E2|]. eapply adds_ext; [by apply (adds_trans _ _ _ _ _ Ha Ha2)|].
    intros j. unfold items_bits. by rewrite (Exists_cons _ it).
Qed.


Lemma items_length its : (length its <= String.length (items_text name "," its))%nat.
Proof.
  induction its as [|it its IH]; cbn [items_text length]; [lia|].
  pose proof (slen_app "," (item_text name it +:+ items_text name "," its)) as H1.
  pose proof (slen_app (item_text name it) (items_text name "," its)) as H2. unfold slen in *. cbn [String.length] in H1. lia.
Qed.

(** A level is read into an empty one. *)
Lemma parse_level_items sn d lev its rest c m :
  hashtab_search (table (p_levels p)) sn = Some d → level d = Some lev → Forall (item_ok readable) its →
  cat (get_level l c) = ebitmap_init → plenty m → match rest with EmptyString => True | String x _ => x = "-"%char end →
  let text := (items_text name ":" its +:+ rest)%string in
  ∃ e m', parse_level p l sn (take_delim text).1 (take_delim text).2 (c, m) =
    Ret ((0, (take_delim rest).1, (take_delim rest).2), (set_level l (ML (sens lev) e) c, m')) ∧
    plenty m' ∧ ebitmap_wf e ∧ ∀ j, ebitmap_get_bit e j = true ↔ items_bits its j.
Proof.
  intros Hd Hlev Hits Hempty Hm Hrest text. unfold parse_level. rewrite Hd, Hlev. unfold mbind, M_bind, lift, modify. cbn [deref].
  rewrite Hempty. set (c1 := set_level l _ c).
  assert (Hw1 : level_wf (get_level l c1)) by (unfold c1; rewrite get_set_level; split; [done|done]).
  destruct its as [|it its]; cbn [items_text] in text.
  - exists ebitmap_init, m. split; [|split_and!; [done|split; done|]].
    + change text with rest. destruct rest as [|x rest]; cbn [take_delim fst snd]; [done|]. by subst x.
    + intros j. unfold items_bits. by rewrite Exists_nil, get_bit_init.
  - set (s := (item_text name it +:+ items_text name "," its +:+ rest)%string).
    assert (text = String ":" s) as -> by (unfold text, s; by rewrite !append_assoc).
    cbn [take_delim fst snd].
    destruct (parse_items it its (S (String.length s)) rest c1 m Hits Hw1 Hm Hrest) as ([c2 m2]&E&Hm2&e&->&He&Hbits).
    { pose proof (items_length its) as Hlen. pose proof (slen_app (item_text name it) (items_text name "," its +:+ rest)) as H1.
      pose proof (slen_app (items_text name "," its) rest) as H2. unfold slen, s in *. lia. }
    fold s in E. rewrite E. exists e, m2. unfold c1. rewrite get_set_level, set_set_level. cbn [sens cat]. split_and!; [done..|].
    intros j. rewrite Hbits. unfold c1. rewrite get_set_level. cbn [cat]. rewrite get_bit_init. split; [by intros [?|?]|by left].
Qed.
End reading.

(** ** Ranges *)

Section ranges.
Variable p : policydb.

Definition cat_name (i : Z) : string := match val_name p SYM_CATS i with Ret n => n | _ => EmptyString end.

(** A category whose name is plain and leads back to it. *)
Definition cat_readable (i : Z) : Prop := val_name p SYM_CATS i = Ret (cat_name i) ∧ readable p cat_name i.

(** A sensitivity whose name is plain and leads back to it. *)
Definition sens_readable (i : Z) (sn : string) : Prop :=
  val_name p SYM_LEVELS (i - 1) = Ret sn ∧ sens_plain sn ∧
  ∃ d lev, hashtab_search (table (p_levels p)) sn = Some d ∧ level d = Some lev ∧ sens lev = i.

Definition level_readable (lv : mls_level) : Prop :=
  level_wf lv ∧ (∃ sn, sens_readable (sens lv) sn) ∧ contiguous (ebitmap_for_each_bit (cat lv)) ∧
  ∀ i, ebitmap_get_bit (cat lv) i = true → cat_readable i.

Definition range_readable (r : mls_range) : Prop := level_readable (level0 r) ∧ level_readable (level1 r).

Definition level_items (lv : mls_level) : list item := runs (ebitmap_for_each_bit (cat lv)) 0 0.

Lemma for_each_bits e i : ebitmap_wf e → (i, true) ∈ ebitmap_for_each_bit e ↔ ebitmap_get_bit e i = true.
Proof.
  intros He. rewrite <- elem_of_set_bits by done. unfold ebitmap_set_bits. rewrite list_elem_of_fmap. split.
  - intros Hin. exists (i, true). split; [done|]. by apply list_elem_of_filter.
  - by intros ([j b]&->&[Hb Hin]%list_elem_of_filter); cbn in *; subst b.
Qed.

Lemma level_items_bits lv i : level_readable lv → items_bits (level_items lv) i ↔ ebitmap_get_bit (cat lv) i = true.
Proof.
  intros (Hw&_&Hc&_). unfold level_items. rewrite runs_bits; [|lia|done|done]. rewrite for_each_bits by done.
  split; [intros [?|?]; [lia|done]|by right].
Qed.

Lemma level_items_ok lv : level_readable lv → Forall (item_ok (readable p cat_name)) (level_items lv).
Proof.
  intros H. pose proof (runs_spans (ebitmap_for_each_bit (cat lv)) 0 0 ltac:(lia)) as Hs. fold (level_items lv) in Hs.
  assert (Hused : ∀ it j, it ∈ level_items lv → item_bits it j → readable p cat_name j).
  { intros it j Hit Hj. destruct H as (Hw&Hsn&Hc&Hr). apply Hr. apply level_items_bits; [by split_and!|].
    apply Exists_exists. by exists it. }
  rewrite Forall_forall in Hs. apply Forall_forall. intros it Hit. specialize (Hs it Hit). destruct it as [i|lo hi].
  - by apply (Hused _ _ Hit).
  - destruct Hs as (Hlt&_). split; [done|]. split; apply (Hused _ _ Hit); cbn [item_bits]; lia.
Qed.

(** The text of a level, and what is read from it. *)
Lemma level_text_of lv out sn : level_readable lv → val_name p SYM_LEVELS (sens lv - 1) = Ret sn →
  level_text p lv out = Ret (out +:+ sn +:+ items_text cat_name ":" (level_items lv))%string.
Proof.
  intros (Hw&_&Hc&Hr) Hsn. apply (level_text_items p cat_name (ebitmap_for_each_bit (cat lv))); [|done..].
  intros i Hi%for_each_bits; [|done]. by apply Hr.
Qed.

Lemma parse_level_of l lv sn rest c m : l = 0 ∨ l = 1 → level_readable lv → sens_readable (sens lv) sn →
  cat (get_level l c) = ebitmap_init → plenty m → match rest with EmptyString => True | String x _ => x = "-"%char end →
  let text := (items_text cat_name ":" (level_items lv) +:+ rest)%string in
  ∃ m', parse_level p l sn (take_delim text).1 (take_delim text).2 (c, m) =
    Ret ((0, (take_delim rest).1, (take_delim rest).2), (set_level l lv c, m')) ∧ plenty m'.
Proof.
  intros Hl Hlv (_&_&d&lev&Hd&Hlev&Hs) Hc Hm Hrest text.
  destruct (parse_level_items p cat_name l Hl sn d lev (level_items lv) rest c m Hd Hlev (level_items_ok lv Hlv) Hc Hm Hrest)
    as (e&m'&E&Hm'&He&Hbits).
  exists m'. split; [|done]. unfold text. rewrite E. do 3 f_equal. f_equal. destruct lv as [s ct]. cbn [sens cat] in *. subst s. f_equal.
  apply ebitmap_ext; [done|by apply Hlv|]. intros j. apply eq_true_iff_eq. rewrite Hbits.
  by apply (level_items_bits (ML (sens lev) ct)).
Qed.

Lemma sens_span (stop : ascii → bool) sn rest : sens_plain sn → (∀ x, stop x = true → x = ":"%char ∨ x = "-"%char) →
  match rest with EmptyString => True | String x _ => stop x = true end →
  span_until stop (sn +:+ rest)%string = (sn, rest).
Proof.
  intros Hs Hstop Hr. apply span_app; [|done]. eapply Forall_impl; [exact Hs|]. intros x [? ?].
  destruct (stop x) eqn:E; [|done]. by destruct (Hstop x E).
Qed.

Lemma items_head its rest : match rest with EmptyString => True | String x _ => x = "-"%char end →
  match (items_text cat_name ":" its +:+ rest)%string with EmptyString => True | String x _ => (Ascii.eqb x ":" || Ascii.eqb x "-") = true end.
Proof.
  intros Hr. destruct its as [|it its]; cbn [items_text]; [|done].
  change (EmptyString +:+ rest)%string with rest. destruct rest; [done|]. by subst.
Qed.

Lemma read_low lv sn rest c m : level_readable lv → sens_readable (sens lv) sn → cat (get_level 0 c) = ebitmap_init → plenty m →
  match rest with EmptyString => True | String x _ => x = "-"%char end → mls p ≠ 0 →
  ∃ m', plenty m' ∧ mls_context_to_sid p 36 (sn +:+ items_text cat_name ":" (level_items lv) +:+ rest)%string (c, m) =
    (if is_dash (take_delim rest).1 then
       let '(s1, r) := span_until (λ c, Ascii.eqb c ":") (take_delim rest).2 in
       let '(delim, rest) := take_delim r in
       '(rc, delim, rest) ← parse_level p 1 s1 delim rest;
       mret (if negb (rc =? 0) then STATUS_ERR else STATUS_SUCCESS)
     else λ '(c, m), let '(rc, l1, m) := mls_level_cpy (level0 (range c)) m in
       Ret (if rc <? 0 then STATUS_ERR else STATUS_SUCCESS, (set_level 1 l1 c, m))) (set_level 0 lv c, m').
Proof.
  intros Hlv Hsn Hc Hm Hrest Hmls. pose proof (parse_level_of 0 lv sn rest c m (or_introl eq_refl) Hlv Hsn Hc Hm Hrest) as (m'&E&Hm').
  exists m'. split; [done|]. unfold mls_context_to_sid. destruct (Z.eqb_spec (mls p) 0); [done|]. cbn [Z.eqb].
  rewrite (sens_span _ sn); [|apply Hsn|intros x [?%Ascii.eqb_eq|?%Ascii.eqb_eq]%orb_true_iff; auto|by apply items_head].
  destruct (take_delim _) as [delim r]. cbn [fst snd] in E. unfold mbind at 1, M_bind at 1. rewrite E. cbn [Z.eqb negb].
  by destruct (is_dash _).
Qed.

(** The text of a readable range is read back as that range. *)
Lemma range_text_read c c0 m : mls p ≠ 0 → range_readable (range c) → range c0 = mls_range_init → plenty m →
  ∃ text m', mls_sid_to_context p c = Ret (String ":" text) ∧
    mls_from_string p text (c0, m) = Ret (STATUS_SUCCESS, (set_range c0 (range c), m')) ∧ plenty m'.
Proof.
  intros Hmls [H0 H1] Hc0 Hm. destruct (range c) as [l0 l1] eqn:Er. cbn [level0 level1] in *.
  pose proof H0 as (_&(s0&Hs0)&_). pose proof H1 as (_&(s1&Hs1)&_).
  unfold mls_sid_to_context. destruct (Z.eqb_spec (mls p) 0); [done|]. rewrite Er. cbn [level0 level1].
  rewrite (level_text_of l0 ":" s0 H0) by apply Hs0. cbn [mbind outcome_bind].
  assert (Hfrom : ∀ text, mls_from_string p text (c0, m) =
    (rc ← mls_context_to_sid p 36 text; mret (if rc <? 0 then STATUS_ERR else STATUS_SUCCESS)) (c0, (malloc m).2)).
  { intros text. unfold mls_from_string, mbind, M_bind. destruct (malloc_plenty m Hm) as (m'&->&_). done. }
  assert (Hm1 : plenty (malloc m).2) by (by destruct (malloc_plenty m Hm) as (m'&->&?)).
  assert (Hlow : cat (get_level 0 c0) = ebitmap_init) by (unfold get_level; by rewrite Hc0).
  destruct (mls_level_eq l0 l1) eqn:Eeq.
  - apply mls_level_eq_spec in Eeq as <-. eexists _. 
    destruct (read_low l0 s0 EmptyString c0 _ H0 Hs0 Hlow Hm1 I Hmls) as (m2&Hm2&E). rewrite append_empty in E.
    pose proof (mls_level_cpy_correct l0 m2) as [Hp Hcpy]. exists (mls_level_cpy l0 m2).2. split; [done|]. split; [|by apply Hp].
    rewrite Hfrom. unfold mbind, M_bind. rewrite E. cbn [take_delim fst is_dash set_level set_range range level0 Z.eqb].
    destruct (mls_level_cpy l0 m2) as [[rc l1'] m3]. cbn [fst snd] in *. destruct Hcpy as [[= -> ->]|[Hno _]]; [done|by destruct Hno].
  - rewrite (level_text_of l1 _ s1 H1) by apply Hs1. eexists _.
    destruct (read_low l0 s0 (String "-" (s1 +:+ items_text cat_name ":" (level_items l1)))%string c0 _ H0 Hs0 Hlow Hm1 eq_refl Hmls) as (m2&Hm2&E).
    cbn [take_delim fst snd is_dash] in E.
    destruct (parse_level_of 1 l1 s1 EmptyString (set_level 0 l0 c0) m2 (or_intror eq_refl) H1 Hs1) as (m3&E3&Hm3); [|done|done|].
    { unfold get_level, set_level. cbn. by rewrite Hc0. }
    rewrite append_empty in E3. exists m3. split; [|split; [|done]].
    + rewrite !append_assoc. cbn [mbind outcome_bind]. done.
    + rewrite Hfrom. unfold mbind at 1, M_bind at 1.
      change ("-" +:+ ?r)%string with (String "-" r). rewrite E.
      rewrite (sens_span _ s1); [|apply Hs1|intros x ?%Ascii.eqb_eq; auto|by destruct (level_items l1)].
      destruct (take_delim (items_text _ _ _)) as [delim r]. cbn [fst snd] in E3. unfold mbind, M_bind. rewrite Ascii.eqb_refl, E3.
      cbn [Z.eqb negb]. unfold set_level. cbn. done.
Qed.
End ranges.
