(* ===== verification/MlsFile.v ===== *)
(** * Sets, MLS levels and contexts in a policy file

    policydb.c: [role_set_read], [type_set_read], [mls_read_*], [mls_*_to_semantic],
    [context_read_and_validate]; write.c: [role_set_write], [type_set_write],
    [mls_write_*], [context_write].  A range whose levels are equal is stored
    with one level; semantic levels come back with their categories reversed. *)

From S2P Require Import Prelude Policyfile Ebitmap EbitmapFile Hashtab Avtab Context Policydb Mls.

Definition POLICYDB_VERSION_MLS : Z := 19.
Definition MOD_POLICYDB_VERSION_MLS : Z := 5.

(** [(type == KERN && vers >= kv) || (type == BASE && vers >= bv)] *)
Definition kern_or_base (p : policydb) (kv bv : Z) : bool :=
  ((policy_type p =? POLICY_KERN) && (kv <=? policyvers p)) ||
  ((policy_type p =? POLICY_BASE) && (bv <=? policyvers p)).

(** ** Reading *)

Definition role_set_read : R role_set :=
  on_error (-1) (r ← ebitmap_read; buf ← next_u32s 1; mret (RS r (word buf 0))).

Definition type_set_read : R type_set :=
  on_error (-1) (t ← ebitmap_read; n ← ebitmap_read; buf ← next_u32s 1; mret (TS t n (word buf 0))).

(** [ebitmap_cpy]; a status other than 0 is the error. *)
Definition read_cpy (e : ebitmap) : R ebitmap :=
  '(rc, c) ← in_mem (λ m, let '(rc, c, m) := ebitmap_cpy e m in ((rc, c), m));
  _ ← guard_or rc (rc =? 0);
  mret c.

(** Without items, [buf[0]] still holds their number. *)
Definition mls_read_range_helper : R mls_range :=
  buf ← next_u32s 1;
  let items := word buf 0 in
  _ ← guard_or (- EINVAL) (items <=? 2);
  buf ← next_u32s items;
  let s0 := if items =? 0 then items else word buf 0 in
  let s1 := if 1 <? items then word buf 1 else s0 in
  c0 ← ebitmap_read;
  c1 ← (if 1 <? items then ebitmap_read else read_cpy c0);
  mret (MR (ML s0 c0) (ML s1 c1)).

Definition mls_read_level : R mls_level :=
  on_error (- EINVAL) (buf ← next_u32s 1; c ← ebitmap_read; mret (ML (word buf 0) c)).

(** Each category interval is put in front of the list. *)
Fixpoint read_semantic_cats (n : nat) (l : list mls_semantic_cat) : R (list mls_semantic_cat) :=
  match n with
  | O => mret l
  | S n' =>
      _ ← need (- EINVAL);
      buf ← next_u32s 2;
      read_semantic_cats n' (SC (word buf 0) (word buf 1) :: l)
  end.

Definition mls_read_semantic_level_helper : R mls_semantic_level :=
  on_error (- EINVAL)
    (buf ← next_u32s 2;
     l ← read_semantic_cats (Z.to_nat (word buf 1)) [];
     mret (SL (word buf 0) l)).

Definition mls_read_semantic_range_helper : R mls_semantic_range :=
  l0 ← mls_read_semantic_level_helper;
  l1 ← mls_read_semantic_level_helper;
  mret (SR l0 l1).

(** [mls_level_to_semantic]: the loop over the positions the iteration visits.
    [open] tells whether the head of [l] is [open_cat]. *)
Fixpoint to_semantic_loop (bits : list (Z * bool)) (l : list mls_semantic_cat) (open : bool) (m : mem)
    : option (list mls_semantic_cat * bool) * mem :=
  match bits with
  | [] => (Some (l, open), m)
  | (i, true) :: bits' =>
      if open then to_semantic_loop bits' l open m
      else
        let '(ok, m) := malloc m in
        if negb ok then (None, m)
        else to_semantic_loop bits' (SC (i + 1) 0 :: l) true m
  | (i, false) :: bits' =>
      if open then
        to_semantic_loop bits' (match l with c :: l' => SC (sc_low c) i :: l' | [] => [] end) false m
      else to_semantic_loop bits' l open m
  end.

(** After the loop [i] is the length of the bitmap. *)
Definition mls_level_to_semantic (l : mls_level) (m : mem) : option mls_semantic_level * mem :=
  match to_semantic_loop (ebitmap_for_each_bit (cat l)) [] false m with
  | (None, m) => (None, m)
  | (Some (cats, open), m) =>
      (Some (SL (sens l)
        (if open then match cats with c :: cats' => SC (sc_low c) (ebitmap_length (cat l)) :: cats' | [] => [] end
         else cats)), m)
  end.

Definition mls_range_to_semantic (r : mls_range) (m : mem) : option mls_semantic_range * mem :=
  match mls_level_to_semantic (level0 r) m with
  | (None, m) => (None, m)
  | (Some l0, m) =>
      match mls_level_to_semantic (level1 r) m with
      | (None, m) => (None, m)
      | (Some l1, m) => (Some (SR l0 l1), m)
      end
  end.

(** [policydb_context_isvalid] of context.c is [context_is_valid]. *)
Definition context_read_and_validate (p : policydb) : R context_struct :=
  on_error (-1)
    (buf ← next_u32s 3;
     r ← (if kern_or_base p POLICYDB_VERSION_MLS MOD_POLICYDB_VERSION_MLS then mls_read_range_helper
          else mret mls_range_init);
     let c := CTX (word buf 0) (word buf 1) (word buf 2) r in
     ok ← (λ s, match context_is_valid p c with
                | Ret b => Ret (inr b, s)
                | Exit z => Exit z
                | Undef => Undef
                end);
     _ ← guard_or (-1) ok;
     mret c).

(** ** Writing *)

Definition role_set_write (x : role_set) : writer := ebitmap_write (rs_roles x);;; put_u32s [rs_flags x].

Definition type_set_write (x : type_set) : writer :=
  ebitmap_write (types x);;; ebitmap_write (negset x);;; put_u32s [ts_flags x].

Definition mls_write_semantic_cat (c : mls_semantic_cat) : writer := put_u32s [sc_low c; sc_high c].

Definition mls_write_semantic_level_helper (l : mls_semantic_level) : writer :=
  put_u32s [sl_sens l; Z.of_nat (length (sl_cat l))];;; write_all mls_write_semantic_cat (sl_cat l).

Definition mls_write_semantic_range_helper (r : mls_semantic_range) : writer :=
  mls_write_semantic_level_helper (sr_level0 r);;; mls_write_semantic_level_helper (sr_level1 r).

Definition mls_write_level (l : mls_level) : writer := put_u32s [sens l];;; ebitmap_write (cat l).

Definition mls_write_range_helper (r : mls_range) : writer :=
  if mls_level_eq (level1 r) (level0 r) then
    put_u32s [1; sens (level0 r)];;; ebitmap_write (cat (level0 r))
  else
    put_u32s [2; sens (level0 r); sens (level1 r)];;;
    ebitmap_write (cat (level0 r));;; ebitmap_write (cat (level1 r)).

Definition context_write (p : policydb) (c : context_struct) : writer :=
  put_u32s [user c; role c; type c];;;
  if kern_or_base p POLICYDB_VERSION_MLS MOD_POLICYDB_VERSION_MLS then mls_write_range_helper (range c)
  else mret POLICYDB_SUCCESS.

(** ** Formats *)

Definition role_set_bytes (x : role_set) : list Z := ebitmap_bytes (rs_roles x) ++ u32s [rs_flags x].
Definition type_set_bytes (x : type_set) : list Z :=
  ebitmap_bytes (types x) ++ ebitmap_bytes (negset x) ++ u32s [ts_flags x].
Definition semantic_cat_bytes (c : mls_semantic_cat) : list Z := u32s [sc_low c; sc_high c].
Definition semantic_level_bytes (l : mls_semantic_level) : list Z :=
  u32s [sl_sens l; Z.of_nat (length (sl_cat l))] ++ (sl_cat l ≫= semantic_cat_bytes).
Definition semantic_range_bytes (r : mls_semantic_range) : list Z :=
  semantic_level_bytes (sr_level0 r) ++ semantic_level_bytes (sr_level1 r).
Definition level_bytes (l : mls_level) : list Z := u32s [sens l] ++ ebitmap_bytes (cat l).
Definition range_bytes (r : mls_range) : list Z :=
  if mls_level_eq (level1 r) (level0 r) then u32s [1; sens (level0 r)] ++ ebitmap_bytes (cat (level0 r))
  else u32s [2; sens (level0 r); sens (level1 r)] ++ ebitmap_bytes (cat (level0 r)) ++ ebitmap_bytes (cat (level1 r)).
Definition context_bytes (p : policydb) (c : context_struct) : list Z :=
  u32s [user c; role c; type c] ++
  if kern_or_base p POLICYDB_VERSION_MLS MOD_POLICYDB_VERSION_MLS then range_bytes (range c) else [].

(** What a file can hold. *)
Definition role_set_ok (x : role_set) : Prop := ebitmap_wf (rs_roles x) ∧ u32_ok (rs_flags x).
Definition type_set_ok (x : type_set) : Prop := ebitmap_wf (types x) ∧ ebitmap_wf (negset x) ∧ u32_ok (ts_flags x).
Definition semantic_cat_ok (c : mls_semantic_cat) : Prop := u32_ok (sc_low c) ∧ u32_ok (sc_high c).
Definition semantic_level_ok (l : mls_semantic_level) : Prop :=
  u32_ok (sl_sens l) ∧ Z.of_nat (length (sl_cat l)) < 2 ^ 32 ∧ Forall semantic_cat_ok (sl_cat l).
Definition level_ok (l : mls_level) : Prop := u32_ok (sens l) ∧ ebitmap_wf (cat l).
Definition range_ok (r : mls_range) : Prop := level_ok (level0 r) ∧ level_ok (level1 r).
Definition context_ok (c : context_struct) : Prop :=
  u32_ok (user c) ∧ u32_ok (role c) ∧ u32_ok (type c) ∧ range_ok (range c).

(** The level after one trip through a file. *)
Definition reversed (l : mls_semantic_level) : mls_semantic_level := SL (sl_sens l) (reverse (sl_cat l)).

(** ** Emission *)

Lemma emits_role_set c x : emits c (role_set_write x) (role_set_bytes x).
Proof. apply emits_then; [apply emits_ebitmap|by apply emits_u32s]. Qed.

Lemma emits_type_set c x : emits c (type_set_write x) (type_set_bytes x).
Proof. repeat (apply emits_then; [apply emits_ebitmap|]). by apply emits_u32s. Qed.

Lemma emits_semantic_level c l : emits c (mls_write_semantic_level_helper l) (semantic_level_bytes l).
Proof.
  apply emits_then; [by apply emits_u32s|]. apply emits_all, Forall_true. intros x. by apply emits_u32s.
Qed.

Lemma emits_semantic_range c r : emits c (mls_write_semantic_range_helper r) (semantic_range_bytes r).
Proof. apply emits_then; apply emits_semantic_level. Qed.

Lemma emits_level c l : emits c (mls_write_level l) (level_bytes l).
Proof. apply emits_then; [by apply emits_u32s|apply emits_ebitmap]. Qed.

Lemma emits_range c r : emits c (mls_write_range_helper r) (range_bytes r).
Proof.
  unfold mls_write_range_helper, range_bytes. destruct (mls_level_eq _ _).
  - apply emits_then; [by apply emits_u32s|apply emits_ebitmap].
  - apply emits_then; [by apply emits_u32s|]. apply emits_then; apply emits_ebitmap.
Qed.

Lemma emits_context c p x : emits c (context_write p x) (context_bytes p x).
Proof.
  apply emits_then; [by apply emits_u32s|]. destruct (kern_or_base _ _ _); [apply emits_range|apply emits_nil].
Qed.

(** ** What is written is read back *)

Section parse.
Context (c : bool).

Lemma parses_role_set x : role_set_ok x → parses c role_set_read (role_set_bytes x) x.
Proof.
  destruct x as [r f]. intros [Hr Hf]. apply parses_on_error. eapply parses_bind; [by apply parses_ebitmap|].
  eapply parses_map; [apply parses_u32s; [done|in_range; apply Hf]|done].
Qed.

Lemma parses_type_set x : type_set_ok x → parses c type_set_read (type_set_bytes x) x.
Proof.
  destruct x as [t n f]. intros (Ht&Hn&Hf). apply parses_on_error.
  eapply parses_bind; [by apply parses_ebitmap|]. eapply parses_bind; [by apply parses_ebitmap|].
  eapply parses_map; [apply parses_u32s; [done|in_range; apply Hf]|done].
Qed.

Lemma parses_level l : level_ok l → parses c mls_read_level (level_bytes l) l.
Proof.
  destruct l as [s k]. intros [Hs Hk]. apply parses_on_error.
  eapply parses_bind; [apply parses_u32s; [done|in_range; apply Hs]|].
  eapply parses_map; [by apply parses_ebitmap|done].
Qed.

Lemma parses_cpy e : ebitmap_wf e → parses c (read_cpy e) [] e.
Proof.
  intros He. eapply parses_bind_nil with (a := (0, e)).
  - apply parses_in_mem. intros m Hm. pose proof (ebitmap_cpy_correct e m) as Hc.
    destruct (ebitmap_cpy e m) as [[rc e'] m']. destruct Hc as [Hp [[= -> ->]|[Hn _]]]; [|done].
    exists m'. split; [done|by apply Hp].
  - apply parses_guard_bind; [done|apply parses_ret].
Qed.

Lemma parses_range r : range_ok r → parses c mls_read_range_helper (range_bytes r) r.
Proof.
  destruct r as [[s0 k0] [s1 k1]]. intros [[Hs0 Hk0] [Hs1 Hk1]]. cbn [level0 level1 sens cat] in *.
  unfold mls_read_range_helper, range_bytes. cbn [level0 level1 sens cat].
  destruct (mls_level_eq (ML s1 k1) (ML s0 k0)) eqn:E.
  - apply mls_level_eq_spec in E as [= -> ->].
    change (u32s [1; s0]) with (u32s [1] ++ u32s [s0]). rewrite <- app_assoc.
    eapply parses_bind; [by apply parses_u32s; [|in_range]|]. change (word [1] 0) with 1.
    apply parses_guard_bind; [done|].
    eapply parses_bind; [apply parses_u32s; [done|in_range; apply Hs0]|].
    rewrite <- (app_nil_r (ebitmap_bytes k0)). eapply parses_bind; [by apply parses_ebitmap|].
    eapply parses_map; [by apply parses_cpy|done].
  - change (u32s [2; s0; s1]) with (u32s [2] ++ u32s [s0; s1]). rewrite <- app_assoc.
    eapply parses_bind; [by apply parses_u32s; [|in_range]|]. change (word [2] 0) with 2.
    apply parses_guard_bind; [done|].
    eapply parses_bind; [apply parses_u32s; [done|in_range; [apply Hs0|apply Hs1]]|].
    eapply parses_bind; [by apply parses_ebitmap|].
    eapply parses_map; [by apply parses_ebitmap|done].
Qed.

Lemma parses_semantic_cats cats acc : Forall semantic_cat_ok cats →
  parses c (read_semantic_cats (length cats) acc) (cats ≫= semantic_cat_bytes) (reverse cats ++ acc).
Proof.
  intros Hc. revert acc. induction Hc as [|[lo hi] cats [Hlo Hhi] Hc IH]; intros acc; [apply parses_ret|].
  rewrite bind_cons. cbn [length read_semantic_cats]. apply parses_need_bind.
  eapply parses_bind; [apply parses_u32s; [done|in_range; [apply Hlo|apply Hhi]]|].
  change (word [lo; hi] 0) with lo. change (word [lo; hi] 1) with hi.
  rewrite reverse_cons, <- app_assoc. apply IH.
Qed.

(** The categories come back in the opposite order. *)
Lemma parses_semantic_level l : semantic_level_ok l →
  parses c mls_read_semantic_level_helper (semantic_level_bytes l) (reversed l).
Proof.
  destruct l as [s cats]. intros (Hs&Hl&Hc). apply parses_on_error. unfold semantic_level_bytes.
  eapply parses_bind; [apply parses_u32s; [done|in_range; apply Hs]|].
  cbn [sl_sens sl_cat]. change (word [s; Z.of_nat (length cats)] 1) with (Z.of_nat (length cats)).
  rewrite Nat2Z.id. eapply parses_map; [by apply parses_semantic_cats|]. by rewrite app_nil_r.
Qed.

Lemma parses_semantic_range r : semantic_level_ok (sr_level0 r) → semantic_level_ok (sr_level1 r) →
  parses c mls_read_semantic_range_helper (semantic_range_bytes r) (SR (reversed (sr_level0 r)) (reversed (sr_level1 r))).
Proof.
  intros H0 H1. eapply parses_bind; [by apply parses_semantic_level|].
  by eapply parses_map; [apply parses_semantic_level|].
Qed.

(** A context is read back when the policy accepts it. *)
Lemma parses_context p x :
  context_ok x → context_is_valid p x = Ret true →
  (kern_or_base p POLICYDB_VERSION_MLS MOD_POLICYDB_VERSION_MLS = false → range x = mls_range_init) →
  parses c (context_read_and_validate p) (context_bytes p x) x.
Proof.
  destruct x as [u r t rg]. intros (Hu&Hr&Ht&Hrg) Hv Hno. apply parses_on_error. unfold context_bytes.
  eapply parses_bind; [apply parses_u32s; [done|in_range; [apply Hu|apply Hr|apply Ht]]|].
  cbn [user role type range] in *. 
  rewrite <- (app_nil_r (if kern_or_base p POLICYDB_VERSION_MLS MOD_POLICYDB_VERSION_MLS then range_bytes rg else [])).
  eapply parses_bind with (a := rg).
  { destruct (kern_or_base _ _ _); [by apply parses_range|]. rewrite Hno by done. apply parses_ret. }
  change (CTX _ _ _ rg) with (CTX u r t rg).
  eapply parses_bind_nil with (a := true).
  - intros rest out m Hm. exists m. by rewrite Hv.
  - apply parses_guard_bind; [done|apply parses_ret].
Qed.
End parse.

(** ** Arbitrary bytes *)

(** The words a successful read returns. *)
Lemma sound_u32s_bind {B} n (f : list Z → R B) Q :
  (∀ l, length l = n → Forall u32_ok l → sound (f l) Q) → sound (next_u32s (Z.of_nat n) ≫= f) Q.
Proof. intros H. eapply sound_bind; [apply sound_u32s; lia|]. intros l [El Hl]. apply H; [lia|done]. Qed.

Lemma word_ok l i : Forall u32_ok l → u32_ok (word l i).
Proof.
  intros Hl. unfold word, at_index. destruct (i <? 0); [done|].
  destruct (l !! Z.to_nat i) eqn:E; [|done]. rewrite Forall_lookup in Hl. by eapply Hl.
Qed.

Lemma sound_role_set : sound role_set_read role_set_ok.
Proof.
  apply sound_on_error. eapply sound_bind; [apply sound_ebitmap|]. intros r Hr.
  apply (sound_u32s_bind 1). intros l _ Hl. apply sound_ret. split; [done|by apply word_ok].
Qed.

Lemma sound_type_set : sound type_set_read type_set_ok.
Proof.
  apply sound_on_error. eapply sound_bind; [apply sound_ebitmap|]. intros t Ht.
  eapply sound_bind; [apply sound_ebitmap|]. intros n Hn.
  apply (sound_u32s_bind 1). intros l _ Hl. apply sound_ret. split; [done|]. split; [done|by apply word_ok].
Qed.

Lemma sound_level : sound mls_read_level level_ok.
Proof.
  apply sound_on_error. apply (sound_u32s_bind 1). intros l _ Hl.
  eapply sound_map; [apply sound_ebitmap|]. intros k Hk. split; [by apply word_ok|done].
Qed.

Lemma sound_cpy e : ebitmap_wf e → sound (read_cpy e) ebitmap_wf.
Proof.
  intros He. eapply (sound_bind _ _ (λ r, r.1 = 0 → r.2 = e)).
  - apply sound_in_mem. intros m. pose proof (ebitmap_cpy_correct e m) as Hc.
    destruct (ebitmap_cpy e m) as [[rc e'] m']. cbn. intros ->. by destruct Hc as [_ [[= ->]|[_ [=]]]].
  - intros [rc e'] Hr. apply sound_guard_bind. intros ->%Z.eqb_eq. apply sound_ret.
    cbn in Hr. by rewrite Hr.
Qed.

Lemma sound_range : sound mls_read_range_helper range_ok.
Proof.
  apply (sound_u32s_bind 1). intros l _ Hl. pose proof (word_ok l 0 Hl) as Hi. revert Hi.
  generalize (word l 0). intros items Hi. apply sound_guard_bind. intros Hle.
  eapply sound_bind; [apply sound_u32s; red in Hi; lia|]. intros b [_ Hb].
  eapply sound_bind; [apply sound_ebitmap|]. intros k0 Hk0.
  eapply (sound_bind _ _ ebitmap_wf); [destruct (1 <? items); [apply sound_ebitmap|by apply sound_cpy]|].
  intros k1 Hk1. apply sound_ret.
  assert (u32_ok (if items =? 0 then items else word b 0)) by (destruct (items =? 0); [done|by apply word_ok]).
  split; (split; [cbn [level0 level1 sens]|done]); [done|]. destruct (1 <? items); [by apply word_ok|done].
Qed.

Lemma sound_semantic_cats n acc : sound (read_semantic_cats n acc) (λ _, True).
Proof.
  revert acc. induction n as [|n IH]; intros acc; [by apply sound_ret|]. cbn [read_semantic_cats].
  apply sound_need_bind. apply (sound_u32s_bind 2). intros l _ _. apply IH.
Qed.

Lemma sound_semantic_level : sound mls_read_semantic_level_helper (λ _, True).
Proof.
  apply sound_on_error. apply (sound_u32s_bind 2). intros l _ _.
  by eapply sound_map; [apply sound_semantic_cats|].
Qed.

Lemma sound_semantic_range : sound mls_read_semantic_range_helper (λ _, True).
Proof.
  eapply sound_bind; [apply sound_semantic_level|]. intros l0 _. by eapply sound_map; [apply sound_semantic_level|].
Qed.

(** *** Contexts

    The validity test of a context looks through the index arrays; on a policy
    whose arrays cover its symbols it always has an answer. *)

Record indexed (p : policydb) : Prop := {
  ix_roles : nprim (p_roles p) <= Z.of_nat (length (role_val_to_struct p));
  ix_role : ∀ q, Some q ∈ role_val_to_struct p → is_Some (at_index (role_mem p) q);
  ix_users : nprim (p_users p) <= Z.of_nat (length (user_val_to_struct p));
  ix_user : ∀ q, Some q ∈ user_val_to_struct p → is_Some (at_index (user_mem p) q);
  ix_levels : ∃ arr, at_index (sym_val_to_name p) SYM_LEVELS = Some arr ∧ nprim (p_levels p) <= Z.of_nat (length arr);
  ix_level : ∀ key d, hashtab_search (table (p_levels p)) key = Some d → is_Some (level d)
}.

Lemma val_to_struct_total {A} (arr : list (option ptr)) (store : list A) i :
  0 <= i < Z.of_nat (length arr) → (∀ q, Some q ∈ arr → is_Some (at_index store q)) →
  ∃ o, val_to_struct arr store i = Ret o.
Proof.
  intros Hi Hq. unfold val_to_struct. destruct (at_index_in arr i Hi) as [[q|] E]; rewrite E; cbn; [|by eexists].
  destruct (Hq q) as [a Ea]; [|rewrite Ea; by eexists].
  unfold at_index in E. destruct (i <? 0); [done|]. by apply list_elem_of_lookup_2 in E.
Qed.

Lemma cats_valid_total n lev l : is_Some lev → ∃ b, cats_valid n lev l = Ret b.
Proof.
  intros [lv ->]. unfold cats_valid. generalize true. induction l as [|i l IH]; intros b; [by eexists|].
  cbn [ofold]. destruct b; [|apply IH]. cbn [negb]. destruct (n <? i); apply IH.
Qed.

Lemma level_valid_total p lv : indexed p → 0 <= sens lv → ∃ b, level_valid p lv = Ret b.
Proof.
  intros H Hs. unfold level_valid. destruct ((sens lv =? 0) || (nprim (p_levels p) <? sens lv)) eqn:E; [by eexists|].
  apply orb_false_iff in E as [E1%Z.eqb_neq E2%Z.ltb_ge]. destruct (ix_levels _ H) as (arr&Ea&Hl).
  unfold val_to_name. rewrite Ea. cbn [deref mbind outcome_bind].
  destruct (at_index_in arr (sens lv - 1)) as [o Eo]; [lia|]. rewrite Eo. cbn [deref mbind outcome_bind].
  destruct o as [key|]; [|by eexists]. destruct (hashtab_search (table (p_levels p)) key) as [d|] eqn:Ed; [|by eexists].
  by apply cats_valid_total, (ix_level _ H key).
Qed.

Lemma mls_valid_total p x : indexed p → context_ok x → ∃ b, mls_context_isvalid p x = Ret b.
Proof.
  intros H (Hu&Hr&Ht&[[Hs0 _] [Hs1 _]]). red in Hu, Hs0, Hs1. unfold mls_context_isvalid.
  destruct (mls p =? 0); [by eexists|]. destruct (negb _); [by eexists|].
  destruct (level_valid_total p (level0 (range x)) H) as [b0 E0]; [lia|]. rewrite E0. cbn [mbind outcome_bind].
  destruct b0; [|by eexists]. cbn [negb].
  destruct (level_valid_total p (level1 (range x)) H) as [b1 E1]; [lia|]. rewrite E1. cbn [mbind outcome_bind].
  destruct b1; [|by eexists]. cbn [negb]. destruct (role x =? OBJECT_R_VAL); [by eexists|].
  destruct ((user x =? 0) || (nprim (p_users p) <? user x)) eqn:E; [by eexists|].
  apply orb_false_iff in E as [E2%Z.eqb_neq E3%Z.ltb_ge]. pose proof (ix_users _ H).
  destruct (val_to_struct_total (user_val_to_struct p) (user_mem p) (user x - 1)) as [o Eo]; [lia|apply (ix_user _ H)|].
  rewrite Eo. destruct o; by eexists.
Qed.

Lemma context_valid_total p x : indexed p → context_ok x → ∃ b, context_is_valid p x = Ret b.
Proof.
  intros H Hx. destruct (mls_valid_total p x H Hx) as [bm Em]. pose proof Hx as (Hu&Hr&_). red in Hu, Hr.
  unfold context_is_valid. destruct ((role x =? 0) || (nprim (p_roles p) <? role x)) eqn:Er; [by eexists|].
  apply orb_false_iff in Er as [R1%Z.eqb_neq R2%Z.ltb_ge].
  destruct ((user x =? 0) || (nprim (p_users p) <? user x)) eqn:Eu; [by eexists|].
  apply orb_false_iff in Eu as [U1%Z.eqb_neq U2%Z.ltb_ge].
  destruct ((type x =? 0) || (nprim (p_types p) <? type x)); [by eexists|].
  destruct (negb (role x =? OBJECT_R_VAL)); [|by eexists].
  pose proof (ix_users _ H). pose proof (ix_roles _ H).
  destruct (val_to_struct_total (role_val_to_struct p) (role_mem p) (role x - 1)) as [o Eo]; [lia|apply (ix_role _ H)|].
  rewrite Eo. cbn [mbind outcome_bind]. destruct o as [r|]; [|by eexists]. destruct (negb _); [by eexists|].
  destruct (val_to_struct_total (user_val_to_struct p) (user_mem p) (user x - 1)) as [o Eo']; [lia|apply (ix_user _ H)|].
  rewrite Eo'. cbn [mbind outcome_bind]. destruct o as [u|]; [|by eexists]. destruct (negb _); by eexists.
Qed.

(** A context that is accepted is valid in the policy. *)
Lemma sound_context p : indexed p →
  sound (context_read_and_validate p) (λ x, context_ok x ∧ context_is_valid p x = Ret true).
Proof.
  intros H. apply sound_on_error, (sound_u32s_bind 3). intros l _ Hl.
  eapply (sound_bind _ _ range_ok).
  { destruct (kern_or_base _ _ _); [apply sound_range|]. apply sound_ret. split; (split; [done|apply ebitmap_wf_init]). }
  intros r Hr. set (x := CTX _ _ _ r).
  assert (Hx : context_ok x) by (unfold context_ok, x; cbn [user role type range]; split_and!; [by apply word_ok..|done]).
  destruct (context_valid_total p x H Hx) as [b Eb].
  apply (sound_bind _ _ (λ b', b' = b)); [intros s Hs; by rewrite Eb|]. intros b' ->.
  apply sound_guard_bind. intros ->. by apply sound_ret.
Qed.
