(* ===== verification/Cond.v ===== *)
(** * Conditional policy (libsepol/src/conditional.c)

    Evaluation of conditional expressions in reverse Polish notation, the
    switching of the rules of a conditional, the normal form used to compare
    expressions, and the contribution of conditional rules to a decision. *)

From S2P Require Import Prelude Ebitmap Hashtab Avtab Context Policydb.

(** ** Lists of conditional rules *)

(** [cur->node->key.specified & AVTAB_TYPE] for the node at an address. *)
Definition node_at (t : avtab) (a : Z) : option avtab_node := find (λ n, naddr n =? a) (avtab_nodes t).

Definition is_type_rule (t : avtab) (a : Z) : bool :=
  match node_at t a with Some n => has_bits (specified (key n)) AVTAB_TYPE | None => false end.

(** The loop of [cond_optimize]: [before] is the list from [top] to [p]. *)
Fixpoint cond_optimize_loop (t : avtab) (before cur : list Z) : list Z :=
  match cur with
  | [] => before
  | a :: next =>
      if is_type_rule t a && negb (bool_decide (before = []))
      then cond_optimize_loop t (a :: before) next
      else cond_optimize_loop t (before ++ [a]) next
  end.

Definition cond_optimize (t : avtab) (l : list Z) : list Z := cond_optimize_loop t [] l.

Definition set_lists (tl fl : list Z) (n : cond_node) : cond_node :=
  CD (cur_state n) (cd_expr n) tl fl (avtrue_list n) (avfalse_list n) (nbools n) (bool_ids n)
     (expr_pre_comp n) (cd_flags n).

Definition cond_optimize_lists (t : avtab) (cl : list cond_node) : list cond_node :=
  map (λ n, set_lists (cond_optimize t (true_list n)) (cond_optimize t (false_list n)) n) cl.

(** ** Comparison of expressions *)

(** [bool_present(target, bools, num_bools)] for an array of COND_MAX_BOOLS. *)
Definition bool_present (target : Z) (bools : list Z) (num_bools : Z) : bool :=
  if COND_MAX_BOOLS <? num_bools then false
  else existsb (Z.eqb target) (take (Z.to_nat num_bools) bools).

Definition same_bools (a b : cond_node) : bool :=
  let x := nbools a in
  if negb (x =? nbools b) then false
  else forallb (λ i, bool_present i (bool_ids b) x) (take (Z.to_nat x) (bool_ids a)).

Fixpoint same_exprs (a b : list cond_expr) : bool :=
  match a, b with
  | [], [] => true
  | x :: a', y :: b' =>
      if negb (cx_expr_type x =? cx_expr_type y) then false
      else if (cx_expr_type x =? COND_BOOL) && negb (cx_bool x =? cx_bool y) then false
      else same_exprs a' b'
  | _, _ => false
  end.

Definition cond_expr_equal (a b : cond_node) : bool :=
  if negb (nbools a =? nbools b) then false
  else if (nbools a <=? COND_MAX_BOOLS) && (nbools b <=? COND_MAX_BOOLS) then
    if negb (same_bools a b) then false
    else expr_pre_comp a =? expr_pre_comp b
  else same_exprs (cd_expr a) (cd_expr b).

(** ** Evaluation *)

(** [p->bool_val_to_struct[b - 1]->state] *)
Definition bool_ptr (p : policydb) (b : Z) : outcome ptr :=
  q ← deref (at_index (bool_val_to_struct p) (b - 1)); deref q.

Definition bool_state (p : policydb) (b : Z) : outcome Z :=
  q ← bool_ptr p b; d ← deref (at_index (bool_mem p) q); mret (b_state d).

(** A binary operator of the RPN machine on [s[sp]] and [s[sp + 1]]. *)
Definition cond_binop (t : Z) : option (Z → Z → Z) :=
  if t =? COND_OR then Some Z.lor
  else if t =? COND_AND then Some Z.land
  else if t =? COND_XOR then Some Z.lxor
  else if t =? COND_EQ then Some (λ x y, if x =? y then 1 else 0)
  else if t =? COND_NEQ then Some (λ x y, if x =? y then 0 else 1)
  else None.

(** The stack has its top first; [None] is the early [return -1]. *)
Definition cond_step (p : policydb) (s : list Z) (e : cond_expr) : outcome (option (list Z)) :=
  if cx_expr_type e =? COND_BOOL then
    if Z.of_nat (length s) =? COND_EXPR_MAXDEPTH then mret None
    else v ← bool_state p (cx_bool e); mret (Some (v :: s))
  else if cx_expr_type e =? COND_NOT then
    match s with
    | [] => mret None
    | x :: s' => mret (Some ((if x =? 0 then 1 else 0) :: s'))
    end
  else
    match cond_binop (cx_expr_type e), s with
    | Some f, y :: x :: s' => mret (Some (f x y :: s'))
    | _, _ => mret None
    end.

Fixpoint cond_eval_loop (p : policydb) (s : list Z) (e : list cond_expr) : outcome Z :=
  match e with
  | [] => mret (default (-1) (last s))              (* s[0] *)
  | cur :: next =>
      r ← cond_step p s cur;
      match r with
      | None => mret (-1)
      | Some s => cond_eval_loop p s next
      end
  end.

Definition cond_evaluate_expr (p : policydb) (e : list cond_expr) : outcome Z := cond_eval_loop p [] e.

(** NULL when memory runs out, and for the empty expression. *)
Fixpoint copy_exprs (e : list cond_expr) (m : mem) : option (list cond_expr) * mem :=
  match e with
  | [] => (Some [], m)
  | cur :: e' =>
      let '(ok, m) := malloc m in
      if negb ok then (None, m)
      else let '(r, m) := copy_exprs e' m in (cons (CX (cx_expr_type cur) (cx_bool cur)) <$> r, m)
  end.

Definition cond_copy_expr (e : list cond_expr) (m : mem) : option (list cond_expr) * mem :=
  let '(r, m) := copy_exprs e m in
  (match r with Some [] => None | _ => r end, m).

Definition empty_cond_node : cond_node := CD 0 [] [] [] 0 0 0 (replicate 5 0) 0 0.

Definition cond_node_create (p : policydb) (n : option cond_node) (m : mem)
    : outcome (option cond_node * mem) :=
  let '(ok, m) := malloc m in
  if negb ok then mret (None, m)
  else
    match n with
    | None => mret (Some empty_cond_node, m)
    | Some n =>
        let '(e, m) := cond_copy_expr (cd_expr n) m in
        match e with
        | None => mret (None, m)
        | Some e =>
            st ← cond_evaluate_expr p e;
            let k := Z.to_nat (Z.min (nbools n) COND_MAX_BOOLS) in
            mret (Some (CD st e [] [] 0 0 (nbools n)
                        (take k (bool_ids n) ++ replicate (5 - k) 0) (expr_pre_comp n) (cd_flags n)), m)
        end
    end.

(** The position of an equal conditional in the list, or a new one. *)
Fixpoint find_equal (needle : cond_node) (haystack : list cond_node) (i : nat) : option nat :=
  match haystack with
  | [] => None
  | n :: h' => if cond_expr_equal needle n then Some i else find_equal needle h' (S i)
  end.

(** [inl i]: the node at position [i] of the list; [inr r]: a new node. *)
Definition cond_node_find (p : policydb) (needle : cond_node) (haystack : list cond_node) (m : mem)
    : outcome ((nat + option cond_node) * mem) :=
  match find_equal needle haystack 0 with
  | Some i => mret (inl i, m)
  | None => '(r, m) ← cond_node_create p (Some needle) m; mret (inr r, m)
  end.

(** Searches [p->cond_list], the list the callers pass; a new node is put in
    front of it.  The result is the position of the node. *)
Definition cond_node_search (p : policydb) (cn : cond_node) (m : mem) : outcome (option nat * policydb * mem) :=
  '(r, m) ← cond_node_find p cn (cond_list p) m;
  match r with
  | inl i => mret (Some i, p, m)
  | inr None => mret (None, p, m)
  | inr (Some n) => mret (Some 0%nat, set_cond_list (n :: cond_list p) p, m)
  end.

(** ** Switching the rules of a conditional *)

Definition set_enabled (on : bool) (n : avtab_node) : avtab_node :=
  let k := key n in
  AN (naddr n)
     (AK (source_type k) (target_type k) (target_class k)
         (if on then Z.lor (specified k) AVTAB_ENABLED else Z.land (specified k) (not16 AVTAB_ENABLED)))
     (datum n) (merged n) (parse_context n).

Definition switch_list (l : list Z) (on : bool) (t : avtab) : avtab :=
  fold_left (λ t a, avtab_store t a (set_enabled on)) l t.

Definition set_cur_state (v : Z) (n : cond_node) : cond_node :=
  CD v (cd_expr n) (true_list n) (false_list n) (avtrue_list n) (avfalse_list n) (nbools n) (bool_ids n)
     (expr_pre_comp n) (cd_flags n).

Definition evaluate_cond_node (p : policydb) (n : cond_node) (t : avtab) : outcome (cond_node * avtab) :=
  new_state ← cond_evaluate_expr p (cd_expr n);
  if negb (new_state =? cur_state n) then
    let t := switch_list (true_list n) (negb (new_state <=? 0)) t in
    let t := switch_list (false_list n) (new_state =? 0) t in
    mret (set_cur_state new_state n, t)
  else mret (n, t).

(** The loop of [evaluate_conds]: the list and the table it leaves. *)
Fixpoint evaluate_conds_loop (p : policydb) (l : list cond_node) (t : avtab) : outcome (list cond_node * avtab) :=
  match l with
  | [] => mret ([], t)
  | cur :: next =>
      '(cur, t) ← evaluate_cond_node p cur t;
      '(next, t) ← evaluate_conds_loop p next t;
      mret (cur :: next, t)
  end.

Definition evaluate_conds (p : policydb) : outcome (Z * policydb) :=
  '(l, t) ← evaluate_conds_loop p (cond_list p) (te_cond_avtab p);
  mret (0, set_te_cond_avtab t (set_cond_list l p)).

(** ** Normal form *)

Definition set_bool_state (p : policydb) (b v : Z) : outcome policydb :=
  q ← bool_ptr p b;
  d ← deref (at_index (bool_mem p) q);
  mret (set_bool_mem (set_index (bool_mem p) q (BD (b_value d) v (b_flags d))) p).

(** The last element is a NOT: drop it and swap the two sides. *)
Definition strip_not (cn : cond_node) : outcome (option cond_node) :=
  match last (cd_expr cn) with
  | None => Undef                                    (* cn->expr is NULL *)
  | Some e =>
      if cx_expr_type e =? COND_NOT then
        if Z.of_nat (length (cd_expr cn)) =? 1 then mret None
        else mret (Some (CD (cur_state cn) (removelast (cd_expr cn)) (false_list cn) (true_list cn)
                            (avfalse_list cn) (avtrue_list cn) (nbools cn) (bool_ids cn)
                            (expr_pre_comp cn) (cd_flags cn)))
      else mret (Some cn)
  end.

(** The bools of the expression: how many, and the first COND_MAX_BOOLS. *)
Definition collect_bool (s : Z * list Z) (e : cond_expr) : Z * list Z :=
  let '(n, ids) := s in
  if cx_expr_type e =? COND_BOOL then
    if bool_present (cx_bool e) ids n then s
    else if n <? COND_MAX_BOOLS then (n + 1, set_index ids n (cx_bool e)) else (n + 1, ids)
  else s.

(** Sets the bools [ids] to the bits of [test] (the loop over [j]). *)
Fixpoint set_test (p : policydb) (ids : list Z) (j test : Z) : outcome policydb :=
  match ids with
  | [] => mret p
  | b :: ids' => p ← set_bool_state p b (if Z.testbit test j then 1 else 0); set_test p ids' (j + 1) test
  end.

(** The loop over [test], [n] values left: the status, the policy and the bits
    found so far. *)
Fixpoint precompute (n : nat) (p : policydb) (e : list cond_expr) (ids : list Z) (test bits : Z)
    : outcome (Z * policydb * Z) :=
  match n with
  | O => mret (0, p, bits)
  | S n' =>
      p ← set_test p ids 0 test;
      k ← cond_evaluate_expr p e;
      if k =? -1 then mret (-1, p, bits)
      else precompute n' p e ids (test + 1)
             (if negb (k =? 0) then Z.lor bits (u32 (Z.shiftl 1 test)) else bits)
  end.

Fixpoint save_states (p : policydb) (ids : list Z) : outcome (list Z) :=
  match ids with
  | [] => mret []
  | b :: ids' => v ← bool_state p b; l ← save_states p ids'; mret (v :: l)
  end.

Fixpoint restore_states (p : policydb) (ids vals : list Z) : outcome policydb :=
  match ids, vals with
  | b :: ids', v :: vals' => p ← set_bool_state p b v; restore_states p ids' vals'
  | _, _ => mret p
  end.

(** The status, the policy (its bool states) and the conditional. *)
Definition cond_normalize_expr (p : policydb) (cn : cond_node) : outcome (Z * policydb * cond_node) :=
  let cn := CD (cur_state cn) (cd_expr cn) (true_list cn) (false_list cn) (avtrue_list cn)
               (avfalse_list cn) 0 (replicate 5 0) 0 (cd_flags cn) in
  r ← strip_not cn;
  match r with
  | None => mret (-1, p, cn)
  | Some cn =>
      let '(n, ids) := fold_left collect_bool (cd_expr cn) (0, bool_ids cn) in
      let cn := CD (cur_state cn) (cd_expr cn) (true_list cn) (false_list cn) (avtrue_list cn)
                   (avfalse_list cn) n ids 0 (cd_flags cn) in
      if n <=? COND_MAX_BOOLS then
        let used := take (Z.to_nat n) ids in
        orig_value ← save_states p used;
        '(rc, p, bits) ← precompute (Z.to_nat (2 ^ n)) p (cd_expr cn) used 0 0;
        let cn := CD (cur_state cn) (cd_expr cn) (true_list cn) (false_list cn) (avtrue_list cn)
                     (avfalse_list cn) n ids bits (cd_flags cn) in
        if negb (rc =? 0) then mret (-1, p, cn)      (* the states are not restored *)
        else p ← restore_states p used orig_value; mret (0, p, cn)
      else mret (0, p, cn)
  end.

(** ** Decisions *)

(** [struct sepol_av_decision] (flask_types.h). *)
Record av_decision := AVD { allowed : Z; decided : Z; auditallow : Z; auditdeny : Z; seqno : Z }.

(** The body of the loop of [cond_compute_av]. *)
Definition cond_av_step (avd : av_decision) (n : avtab_node) : av_decision :=
  let enabled k := Z.lor k AVTAB_ENABLED =? Z.land (specified (key n)) (Z.lor k AVTAB_ENABLED) in
  let d := data (datum n) in
  AVD (if enabled AVTAB_ALLOWED then Z.lor (allowed avd) d else allowed avd)
      (decided avd)
      (if enabled AVTAB_AUDITALLOW then Z.lor (auditallow avd) d else auditallow avd)
      (if enabled AVTAB_AUDITDENY then Z.land (auditdeny avd) d else auditdeny avd)
      (seqno avd).

Definition cond_compute_av (ctab : avtab) (k : avtab_key) (avd : av_decision) : av_decision :=
  fold_left cond_av_step (avtab_search_all ctab k) avd.

(** The first rule of the list with the types and class of the key. *)
Definition cond_av_list_search (t : avtab) (k : avtab_key) (l : list Z) : option avtab_node :=
  find (λ n, same_types (key n) k) (omap (node_at t) l).

(** * Correctness *)

(** ** Expressions as trees *)

Inductive bexp :=
  | BVar (b : Z)
  | BNot (a : bexp)
  | BOp (o : Z) (a b : bexp).

Fixpoint bpostfix (a : bexp) : list cond_expr :=
  match a with
  | BVar b => [CX COND_BOOL b]
  | BNot a => bpostfix a ++ [CX COND_NOT 0]
  | BOp o a b => bpostfix a ++ bpostfix b ++ [CX o 0]
  end.

Fixpoint bneed (a : bexp) : Z :=
  match a with
  | BVar _ => 1
  | BNot a => bneed a
  | BOp _ a b => Z.max (bneed a) (1 + bneed b)
  end.

(** The value of an expression for an assignment of the booleans; [None] for an
    operator that is not binary. *)
Definition bool_op (o : Z) : option (bool → bool → bool) :=
  if o =? COND_OR then Some orb
  else if o =? COND_AND then Some andb
  else if o =? COND_XOR then Some xorb
  else if o =? COND_EQ then Some eqb
  else if o =? COND_NEQ then Some xorb
  else None.

Fixpoint beval (v : Z → option bool) (a : bexp) : option bool :=
  match a with
  | BVar b => v b
  | BNot a => negb <$> beval v a
  | BOp o a b => f ← bool_op o; x ← beval v a; y ← beval v b; Some (f x y)
  end.

(** The booleans of a policy; their state is 0 or 1. *)
Definition bool_value (p : policydb) (b : Z) : option bool :=
  match bool_state p b with
  | Ret 0 => Some false
  | Ret 1 => Some true
  | _ => None
  end.

Lemma bool_value_state p b v : bool_value p b = Some v → bool_state p b = Ret (Z.b2z v).
Proof. unfold bool_value. destruct (bool_state p b) as [[|[]|]| |]; by intros [= <-]. Qed.

Lemma cond_binop_b2z o f x y :
  bool_op o = Some f → ∃ g, cond_binop o = Some g ∧ g (Z.b2z x) (Z.b2z y) = Z.b2z (f x y).
Proof.
  unfold bool_op, cond_binop.
  destruct (o =? COND_OR); [intros [= <-]; eexists; split; [done|by destruct x, y]|].
  destruct (o =? COND_AND); [intros [= <-]; eexists; split; [done|by destruct x, y]|].
  destruct (o =? COND_XOR); [intros [= <-]; eexists; split; [done|by destruct x, y]|].
  destruct (o =? COND_EQ); [intros [= <-]; eexists; split; [done|by destruct x, y]|].
  destruct (o =? COND_NEQ); [intros [= <-]; eexists; split; [done|by destruct x, y]|done].
Qed.

Lemma bool_op_other o f : bool_op o = Some f → (o =? COND_BOOL) = false ∧ (o =? COND_NOT) = false.
Proof.
  unfold bool_op. intros H. split; destruct (Z.eqb_spec o COND_BOOL), (Z.eqb_spec o COND_NOT); subst; done.
Qed.

Lemma cond_eval_postfix p a v : beval (bool_value p) a = Some v → ∀ s rest,
  Z.of_nat (length s) + bneed a <= COND_EXPR_MAXDEPTH →
  cond_eval_loop p s (bpostfix a ++ rest) = cond_eval_loop p (Z.b2z v :: s) rest.
Proof.
  revert v. induction a as [b|a IH|o a IHa b IHb]; intros v Hv s rest Hn; simpl in Hv, Hn.
  - simpl. unfold cond_step. cbn [cx_expr_type cx_bool]. change (COND_BOOL =? COND_BOOL) with true. cbn iota.
    destruct (Z.eqb_spec (Z.of_nat (length s)) COND_EXPR_MAXDEPTH); [lia|].
    by rewrite (bool_value_state _ _ _ Hv).
  - apply fmap_Some in Hv as (u&Hu&->). cbn [bpostfix]. rewrite <- app_assoc, (IH u Hu) by done. by destruct u.
  - apply bind_Some in Hv as (f&Hf&Hv). apply bind_Some in Hv as (x&Hx&Hv). apply bind_Some in Hv as (y&Hy&Hv).
    injection Hv as <-. cbn [bpostfix].
    rewrite <- app_assoc, (IHa x Hx), <- app_assoc, (IHb y Hy) by (simpl; lia). simpl.
    destruct (cond_binop_b2z o f x y Hf) as (g&Hg&Hgxy). destruct (bool_op_other o f Hf) as [E1 E2].
    unfold cond_step. cbn [cx_expr_type]. rewrite E1, E2, Hg. by rewrite <- Hgxy.
Qed.

Lemma cond_evaluate_tree p a v :
  beval (bool_value p) a = Some v → bneed a <= COND_EXPR_MAXDEPTH →
  cond_evaluate_expr p (bpostfix a) = Ret (Z.b2z v).
Proof.
  intros Hv Hn. unfold cond_evaluate_expr. rewrite <- (app_nil_r (bpostfix a)).
  by rewrite (cond_eval_postfix p a v Hv) by done.
Qed.

(** ** Switching rules on and off *)

(** Whether the rule at an address is enabled. *)
Definition enabled (t : avtab) (a : Z) : bool :=
  match node_at t a with Some n => has_bits (specified (key n)) AVTAB_ENABLED | None => false end.

Definition addresses (n : cond_node) : list Z := true_list n ++ false_list n.

(** The rules of a conditional agree with its state: those of the true list are
    enabled when it is true, those of the false list when it is false, and none
    when it has no value (-1). *)
Definition consistent (t : avtab) (n : cond_node) : Prop :=
  (∀ a, a ∈ true_list n → enabled t a = negb (cur_state n <=? 0)) ∧
  (∀ a, a ∈ false_list n → enabled t a = (cur_state n =? 0)).

Lemma node_at_store t a f b :
  (∀ n, naddr (f n) = naddr n) → node_at (avtab_store t a f) b = store_node a f <$> node_at t b.
Proof.
  intros Hf. unfold node_at. rewrite avtab_store_nodes. generalize (avtab_nodes t) as l.
  induction l as [|x l IH]; [done|]. simpl.
  assert (naddr (store_node a f x) = naddr x) as ->.
  { unfold store_node. destruct (naddr x =? a); [apply Hf|done]. }
  by destruct (naddr x =? b).
Qed.

Lemma set_enabled_bit on n : has_bits (specified (key (set_enabled on n))) AVTAB_ENABLED = on.
Proof.
  unfold set_enabled; cbn [key specified]. change AVTAB_ENABLED with (Z.shiftl 1 15) at 3.
  rewrite has_bits_shl by lia. destruct on.
  - rewrite Z.lor_spec. change (Z.testbit AVTAB_ENABLED 15) with true. apply orb_true_r.
  - rewrite Z.land_spec. change (Z.testbit (not16 AVTAB_ENABLED) 15) with false. apply andb_false_r.
Qed.

Lemma node_at_naddr t a n : node_at t a = Some n → naddr n = a.
Proof. intros H. apply find_some in H as [_ H]. by apply Z.eqb_eq. Qed.

Lemma enabled_store t a on b :
  is_Some (node_at t b) →
  enabled (avtab_store t a (set_enabled on)) b = if b =? a then on else enabled t b.
Proof.
  intros [n Hn]. unfold enabled. rewrite node_at_store, Hn by done. simpl. unfold store_node.
  rewrite (node_at_naddr _ _ _ Hn). destruct (b =? a); [apply set_enabled_bit|done].
Qed.

Lemma node_at_switch t l on b : is_Some (node_at (switch_list l on t) b) ↔ is_Some (node_at t b).
Proof.
  unfold switch_list. revert t. induction l as [|a l IH]; intros t; [done|]. simpl.
  rewrite IH, node_at_store by done. apply fmap_is_Some.
Qed.

Lemma enabled_switch t l on b :
  is_Some (node_at t b) →
  enabled (switch_list l on t) b = if bool_decide (b ∈ l) then on else enabled t b.
Proof.
  revert t. induction l as [|a l IH]; intros t Hb; [done|].
  change (switch_list (a :: l) on t) with (switch_list l on (avtab_store t a (set_enabled on))).
  rewrite IH by (rewrite node_at_store by done; by apply fmap_is_Some). rewrite enabled_store by done.
  destruct (bool_decide_reflect (b ∈ l)) as [Hl|Hl]; [by rewrite bool_decide_true by by right|].
  destruct (Z.eqb_spec b a) as [->|Hne]; [by rewrite bool_decide_true by by left|].
  rewrite bool_decide_false; [done|]. by intros [?|?]%elem_of_cons.
Qed.

(** One conditional. *)
Lemma evaluate_cond_node_spec p n t v :
  cond_evaluate_expr p (cd_expr n) = Ret v → NoDup (addresses n) →
  (∀ a, a ∈ addresses n → is_Some (node_at t a)) → consistent t n →
  ∃ t', evaluate_cond_node p n t = Ret (set_cur_state v n, t') ∧ consistent t' (set_cur_state v n) ∧
    (∀ a, is_Some (node_at t' a) ↔ is_Some (node_at t a)) ∧
    (∀ a, is_Some (node_at t a) → a ∉ addresses n → enabled t' a = enabled t a).
Proof.
  intros Hv Hnd Hat Hc. unfold evaluate_cond_node. rewrite Hv. cbn [mbind outcome_bind].
  destruct (Z.eqb_spec v (cur_state n)) as [->|Hne]; cbn [negb].
  { exists t. split; [by destruct n|]. by split_and!. }
  eexists. split; [done|]. apply NoDup_app in Hnd as (_&Hdisj&_).
  set (t1 := switch_list (true_list n) _ t). split_and!.
  - assert (Hat1 : ∀ a, a ∈ addresses n → is_Some (node_at t1 a)) by (intros a Ha; apply node_at_switch; auto).
    split; cbn [true_list false_list set_cur_state cur_state]; intros a Ha.
    + rewrite enabled_switch by (apply Hat1, elem_of_app; by left).
      rewrite bool_decide_false by by apply Hdisj. unfold t1.
      rewrite enabled_switch by (apply Hat, elem_of_app; by left). by rewrite bool_decide_true.
    + rewrite enabled_switch by (apply Hat1, elem_of_app; by right). by rewrite bool_decide_true.
  - intros a. etransitivity; apply node_at_switch.
  - intros a Ha [Hnt Hnf]%not_elem_of_app. rewrite enabled_switch by by apply node_at_switch.
    rewrite bool_decide_false by done. unfold t1. rewrite enabled_switch by done. by rewrite bool_decide_false.
Qed.

(** The list of conditionals: every one gets its value and its rules follow. *)
Lemma evaluate_conds_loop_spec p l t :
  Forall (λ n, ∃ v, cond_evaluate_expr p (cd_expr n) = Ret v) l →
  NoDup (l ≫= addresses) → (∀ a, a ∈ l ≫= addresses → is_Some (node_at t a)) →
  Forall (consistent t) l →
  ∃ l' t', evaluate_conds_loop p l t = Ret (l', t') ∧
    Forall2 (λ n n', ∃ v, cond_evaluate_expr p (cd_expr n) = Ret v ∧ n' = set_cur_state v n ∧ consistent t' n') l l' ∧
    (∀ a, is_Some (node_at t a) → a ∉ l ≫= addresses → enabled t' a = enabled t a).
Proof.
  revert t. induction l as [|n l IH]; intros t Hev Hnd Hat Hc.
  { exists [], t. by split_and!. }
  apply Forall_cons in Hev as [[v Hv] Hev]. apply Forall_cons in Hc as [Hn Hc].
  simpl in Hnd, Hat. apply NoDup_app in Hnd as (Hnd1&Hdisj&Hnd2).
  destruct (evaluate_cond_node_spec p n t v Hv Hnd1) as (t1&E1&Hc1&Hat1&Hsame); [|done|].
  { intros a Ha. apply Hat, elem_of_app. by left. }
  assert (Hc' : Forall (consistent t1) l).
  { rewrite Forall_forall in *. intros n' Hn'. specialize (Hc n' Hn') as [Ht Hf].
    assert (Hin : ∀ a, a ∈ addresses n' → a ∈ l ≫= addresses) by (intros a Ha; apply list_elem_of_bind; eauto).
    split; intros a Ha; rewrite Hsame.
    - by apply Ht.
    - apply Hat, elem_of_app. right. apply Hin, elem_of_app. by left.
    - intros Hx. apply (Hdisj a Hx), Hin, elem_of_app. by left.
    - by apply Hf.
    - apply Hat, elem_of_app. right. apply Hin, elem_of_app. by right.
    - intros Hx. apply (Hdisj a Hx), Hin, elem_of_app. by right. }
  destruct (IH t1 Hev Hnd2) as (l'&t'&E'&H2&Hs'); [|done|].
  { intros a Ha. apply Hat1, Hat, elem_of_app. by right. }
  exists (set_cur_state v n :: l'), t'. cbn [evaluate_conds_loop]. rewrite E1. cbn [mbind outcome_bind].
  rewrite E'. split; [done|]. split.
  - constructor; [|done]. exists v. split; [done|]. split; [done|]. destruct Hc1 as [H1 H3].
    split; intros a Ha; cbn [true_list false_list set_cur_state] in Ha;
      (rewrite Hs'; [by auto|apply Hat1, Hat, elem_of_app; left; apply elem_of_app; auto|]);
      apply Hdisj, elem_of_app; auto.
  - intros a Ha [Hx Hy]%not_elem_of_app. rewrite Hs'; [by apply Hsame|by apply Hat1|done].
Qed.

Lemma evaluate_conds_spec p :
  Forall (λ n, ∃ v, cond_evaluate_expr p (cd_expr n) = Ret v) (cond_list p) →
  NoDup (cond_list p ≫= addresses) →
  (∀ a, a ∈ cond_list p ≫= addresses → is_Some (node_at (te_cond_avtab p) a)) →
  Forall (consistent (te_cond_avtab p)) (cond_list p) →
  ∃ p', evaluate_conds p = Ret (0, p') ∧
    Forall2 (λ n n', ∃ v, cond_evaluate_expr p (cd_expr n) = Ret v ∧ n' = set_cur_state v n ∧
                          consistent (te_cond_avtab p') n') (cond_list p) (cond_list p').
Proof.
  intros Hev Hnd Hat Hc. unfold evaluate_conds.
  destruct (evaluate_conds_loop_spec p _ _ Hev Hnd Hat Hc) as (l'&t'&->&H&_). by eexists.
Qed.

(** ** The normal form *)

(** The states of some booleans in the store. *)
Definition put_state (bm : list cond_bool_datum) (q v : Z) : list cond_bool_datum :=
  match at_index bm q with
  | Some d => set_index bm q (BD (b_value d) v (b_flags d))
  | None => bm
  end.

Fixpoint put_states (bm : list cond_bool_datum) (qs vs : list Z) : list cond_bool_datum :=
  match qs, vs with
  | q :: qs', v :: vs' => put_states (put_state bm q v) qs' vs'
  | _, _ => bm
  end.

Definition states_of (bm : list cond_bool_datum) (qs : list Z) : list Z :=
  map (λ q, default 0 (b_state <$> at_index bm q)) qs.

Lemma length_put_state bm q v : length (put_state bm q v) = length bm.
Proof. unfold put_state. destruct (at_index bm q); [|done]. unfold set_index. apply length_insert. Qed.

Lemma at_put_state bm q v q' :
  at_index (put_state bm q v) q' =
  if q' =? q then (λ d, BD (b_value d) v (b_flags d)) <$> at_index bm q else at_index bm q'.
Proof.
  unfold put_state. destruct (at_index bm q) as [d|] eqn:E.
  - pose proof (at_index_Some _ _ _ E). destruct (Z.eqb_spec q' q) as [->|].
    + by rewrite at_set_index_eq.
    + rewrite at_set_index_ne by lia. done.
  - destruct (Z.eqb_spec q' q) as [->|]; [done|done].
Qed.

Lemma put_state_twice bm q v v' : put_state (put_state bm q v) q v' = put_state bm q v'.
Proof.
  unfold put_state at 1. rewrite at_put_state, Z.eqb_refl. unfold put_state.
  destruct (at_index bm q) as [d|]; [|done]. simpl. unfold set_index. by rewrite list_insert_insert_eq.
Qed.

Lemma put_state_comm bm q1 v1 q2 v2 :
  q1 ≠ q2 → 0 <= q1 → 0 <= q2 → put_state (put_state bm q1 v1) q2 v2 = put_state (put_state bm q2 v2) q1 v1.
Proof.
  intros Hne H1 H2. unfold put_state at 1 3. rewrite !at_put_state.
  destruct (Z.eqb_spec q2 q1) as [->|_]; [done|]. destruct (Z.eqb_spec q1 q2) as [->|_]; [done|].
  unfold put_state. destruct (at_index bm q1) as [d1|], (at_index bm q2) as [d2|]; try done.
  unfold set_index. apply list_insert_insert_ne. lia.
Qed.

Lemma put_state_same bm q d : at_index bm q = Some d → put_state bm q (b_state d) = bm.
Proof.
  intros Hd. unfold put_state. rewrite Hd. pose proof (at_index_Some _ _ _ Hd). unfold set_index.
  apply list_insert_id. unfold at_index in Hd. destruct (q <? 0); [done|]. rewrite Hd. by destruct d.
Qed.

Lemma put_states_out bm q v qs vs :
  q ∉ qs → 0 <= q → Forall (λ q, 0 <= q) qs →
  put_states (put_state bm q v) qs vs = put_state (put_states bm qs vs) q v.
Proof.
  revert bm vs. induction qs as [|q1 qs IH]; intros bm vs Hn Hq Hqs; [done|]. destruct vs as [|v1 vs]; [done|].
  apply Forall_cons in Hqs as [H1 Hqs]. apply not_elem_of_cons in Hn as [Hne Hn]. simpl.
  rewrite put_state_comm by done. by apply IH.
Qed.

Lemma put_states_twice bm qs vs vs' :
  NoDup qs → Forall (λ q, 0 <= q) qs → length vs = length qs → length vs' = length qs →
  put_states (put_states bm qs vs) qs vs' = put_states bm qs vs'.
Proof.
  intros Hnd. revert bm vs vs'. induction Hnd as [|q qs Hq Hnd IH]; intros bm vs vs' Hpos Hl Hl'; [done|].
  destruct vs as [|v vs], vs' as [|v' vs']; try done. apply Forall_cons in Hpos as [Hq0 Hpos]. simpl.
  rewrite <- (put_states_out (put_state bm q v) q v' qs vs) by done. rewrite put_state_twice.
  simpl in *. apply IH; [done|lia|lia].
Qed.

Lemma put_states_same bm qs :
  NoDup qs → Forall (λ q, is_Some (at_index bm q)) qs → put_states bm qs (states_of bm qs) = bm.
Proof.
  intros Hnd H. induction H as [|q qs [d Hd] H IH]; [done|]. apply NoDup_cons in Hnd as [_ Hnd]. simpl.
  rewrite Hd. simpl. rewrite (put_state_same _ _ _ Hd). by apply IH.
Qed.

(** The state of a boolean after the stores. *)
Lemma at_put_states bm qs vs q :
  NoDup qs → Forall (λ q, 0 <= q) qs →
  b_state <$> at_index (put_states bm qs vs) q =
  match find (λ p, p.1 =? q) (zip qs vs) with
  | Some p => (λ _, p.2) <$> at_index bm q
  | None => b_state <$> at_index bm q
  end.
Proof.
  intros Hnd. revert bm vs. induction Hnd as [|q1 qs Hq1 Hnd IH]; intros bm vs Hpos; [done|].
  destruct vs as [|v vs]; [done|]. apply Forall_cons in Hpos as [Hq0 Hpos]. simpl.
  rewrite put_states_out, at_put_state by done. rewrite (Z.eqb_sym q q1).
  destruct (Z.eqb_spec q1 q) as [->|Hne]; [|by apply IH]. simpl.
  assert (Hin : is_Some (at_index (put_states bm qs vs) q) ↔ is_Some (at_index bm q)).
  { specialize (IH bm vs Hpos). destruct (find _ _); destruct (at_index (put_states bm qs vs) q), (at_index bm q);
      simpl in IH; try done; split; eauto. }
  destruct (at_index (put_states bm qs vs) q) as [d|], (at_index bm q) as [d'|]; simpl; try done.
  - destruct Hin as [Hin _]. by destruct (Hin ltac:(eauto)).
  - destruct Hin as [_ Hin]. by destruct (Hin ltac:(eauto)).
Qed.

Lemma set_bool_mem_twice bm bm' p : set_bool_mem bm (set_bool_mem bm' p) = set_bool_mem bm p.
Proof. done. Qed.
Lemma set_bool_mem_id p : set_bool_mem (bool_mem p) p = p.
Proof. by destruct p. Qed.

Section normal_form.
Context (p : policydb) (ids qs : list Z).
Hypothesis Hptr : Forall2 (λ b q, bool_ptr p b = Ret q) ids qs.
Hypothesis Hnd : NoDup qs.
Hypothesis Hobj : Forall (λ q, is_Some (at_index (bool_mem p) q)) qs.

(** The states the loop gives to the booleans for [test]. *)
Fixpoint test_bits (n : nat) (j test : Z) : list Z :=
  match n with O => [] | S n' => Z.b2z (Z.testbit test j) :: test_bits n' (j + 1) test end.

Lemma length_test_bits n j test : length (test_bits n j test) = n.
Proof. revert j. induction n as [|n IH]; intros j; [done|]. simpl. by rewrite IH. Qed.

Lemma set_bool_state_eq bm b q v :
  bool_ptr p b = Ret q → is_Some (at_index bm q) →
  set_bool_state (set_bool_mem bm p) b v = Ret (set_bool_mem (put_state bm q v) p).
Proof.
  intros Hb [d Hd]. unfold set_bool_state. change (bool_ptr (set_bool_mem bm p) b) with (bool_ptr p b).
  rewrite Hb. cbn [mbind outcome_bind bool_mem set_bool_mem]. rewrite Hd. cbn [deref mbind outcome_bind].
  unfold put_state. rewrite Hd. done.
Qed.

Lemma objects_put (bm : list cond_bool_datum) q v (l : list Z) :
  Forall (λ q, is_Some (at_index bm q)) l → Forall (λ q', is_Some (at_index (put_state bm q v) q')) l.
Proof.
  intros H. eapply Forall_impl; [exact H|]. intros q' Hq'. simpl. rewrite at_put_state.
  destruct (Z.eqb_spec q' q) as [->|]; [by apply fmap_is_Some|done].
Qed.

Lemma objects_puts (bm : list cond_bool_datum) qs' vs (l : list Z) :
  Forall (λ q, is_Some (at_index bm q)) l → Forall (λ q', is_Some (at_index (put_states bm qs' vs) q')) l.
Proof.
  revert bm vs. induction qs' as [|q qs' IH]; intros bm vs H; [done|]. destruct vs as [|v vs]; [done|].
  simpl. apply IH. by apply objects_put.
Qed.

Lemma restore_eq ids' qs' : Forall2 (λ b q, bool_ptr p b = Ret q) ids' qs' → ∀ bm vs,
  Forall (λ q, is_Some (at_index bm q)) qs' → length vs = length qs' →
  restore_states (set_bool_mem bm p) ids' vs = Ret (set_bool_mem (put_states bm qs' vs) p).
Proof.
  induction 1 as [|b q ids' qs' Hb _ IH]; intros bm vs Hall Hl; [done|].
  destruct vs as [|v vs]; [done|]. apply Forall_cons in Hall as [Hq Hall]. cbn [restore_states put_states].
  rewrite (set_bool_state_eq bm b q v) by done. cbn [mbind outcome_bind].
  apply IH; [by apply objects_put|]. simpl in Hl. lia.
Qed.

Lemma set_test_eq ids' qs' : Forall2 (λ b q, bool_ptr p b = Ret q) ids' qs' → ∀ bm j test,
  Forall (λ q, is_Some (at_index bm q)) qs' →
  set_test (set_bool_mem bm p) ids' j test = Ret (set_bool_mem (put_states bm qs' (test_bits (length qs') j test)) p).
Proof.
  induction 1 as [|b q ids' qs' Hb _ IH]; intros bm j test Hall; [done|].
  apply Forall_cons in Hall as [Hq Hall]. cbn [set_test put_states length test_bits].
  assert ((if Z.testbit test j then 1 else 0) = Z.b2z (Z.testbit test j)) as -> by by destruct (Z.testbit test j).
  rewrite (set_bool_state_eq bm b q) by done. cbn [mbind outcome_bind]. apply IH. by apply objects_put.
Qed.

Lemma save_eq ids' qs' : Forall2 (λ b q, bool_ptr p b = Ret q) ids' qs' → 
  Forall (λ q, is_Some (at_index (bool_mem p) q)) qs' → save_states p ids' = Ret (states_of (bool_mem p) qs').
Proof.
  induction 1 as [|b q ids' qs' Hb _ IH]; intros Hall; [done|].
  apply Forall_cons in Hall as [[d Hd] Hall]. cbn [save_states states_of map]. unfold bool_state. rewrite Hb.
  cbn [mbind outcome_bind]. rewrite Hd. cbn [deref mbind outcome_bind]. by rewrite (IH Hall).
Qed.

Lemma pos_qs : Forall (λ q, 0 <= q) qs.
Proof. eapply Forall_impl; [exact Hobj|]. intros q [d Hd]. by apply at_index_Some in Hd as [? _]. Qed.

(** The policy with the states of a test. *)
Definition under (test : Z) : policydb :=
  set_bool_mem (put_states (bool_mem p) qs (test_bits (length qs) 0 test)) p.

Lemma set_test_under vs test :
  length vs = length qs →
  set_test (set_bool_mem (put_states (bool_mem p) qs vs) p) ids 0 test = Ret (under test).
Proof.
  intros Hl. rewrite (set_test_eq ids qs Hptr) by by apply objects_puts. unfold under.
  rewrite put_states_twice; [done|done|apply pos_qs|done|apply length_test_bits].
Qed.

Lemma restore_under test : restore_states (under test) ids (states_of (bool_mem p) qs) = Ret p.
Proof.
  unfold under. rewrite (restore_eq ids qs Hptr).
  - rewrite put_states_twice, put_states_same, set_bool_mem_id; [done|done|done|done|apply pos_qs|apply length_test_bits|].
    unfold states_of. apply length_map.
  - by apply objects_puts.
  - unfold states_of. apply length_map.
Qed.

(** The loop computes the truth table of the expression, bit by bit, from the
    values [val] the expression has. *)
Lemma precompute_eq e (val : Z → Z) n : ∀ vs test bits,
  (∀ k, test <= k < test + Z.of_nat n → cond_evaluate_expr (under k) e = Ret (val k) ∧ val k ≠ -1) →
  0 <= test → test + Z.of_nat n <= 32 → length vs = length qs →
  ∃ bits', precompute n (set_bool_mem (put_states (bool_mem p) qs vs) p) e ids test bits =
      Ret (0, match n with O => set_bool_mem (put_states (bool_mem p) qs vs) p | S m => under (test + Z.of_nat m) end, bits') ∧
    ∀ k, 0 <= k → Z.testbit bits' k =
      Z.testbit bits k || ((test <=? k) && (k <? test + Z.of_nat n) && negb (val k =? 0)).
Proof.
  induction n as [|n IH]; intros vs test bits Hval Ht Hn Hl.
  { exists bits. split; [done|]. intros k Hk. rewrite Z.add_0_r.
    destruct (Z.leb_spec test k), (Z.ltb_spec k test); try lia; by rewrite ?andb_false_r, orb_false_r. }
  cbn [precompute]. rewrite set_test_under by done. cbn [mbind outcome_bind].
  destruct (Hval test ltac:(lia)) as [Hev Hne]. rewrite Hev. cbn [mbind outcome_bind].
  destruct (Z.eqb_spec (val test) (-1)) as [|_]; [done|].
  destruct (IH (test_bits (length qs) 0 test) (test + 1)
    (if negb (val test =? 0) then Z.lor bits (u32 (Z.shiftl 1 test)) else bits)) as (bits'&Hb&Hbits).
  - intros k Hk. apply Hval. lia.
  - lia.
  - lia.
  - apply length_test_bits.
  - exists bits'. fold (under test) in Hb. rewrite Hb. split.
    { destruct n as [|n]; [by rewrite Z.add_0_r|]. do 3 f_equal. f_equal. lia. }
    intros k Hk. rewrite (Hbits k Hk).
    assert (Hu : Z.testbit (if negb (val test =? 0) then Z.lor bits (u32 (Z.shiftl 1 test)) else bits) k =
                 Z.testbit bits k || ((k =? test) && negb (val test =? 0))).
    { destruct (negb (val test =? 0)); rewrite ?andb_false_r, ?andb_true_r; [|by rewrite orb_false_r].
      rewrite Z.lor_spec, testbit_u32, testbit_one_shl by lia. f_equal. rewrite (Z.eqb_sym k).
      destruct (Z.eqb_spec test k) as [<-|]; [|apply andb_false_r]. rewrite andb_true_r. by apply Z.ltb_lt; lia. }
    rewrite Hu, <- orb_assoc. f_equal.
    destruct (Z.eqb_spec k test) as [->|Hne'].
    + destruct (Z.leb_spec (test + 1) test); [lia|]. destruct (Z.leb_spec test test); [|lia].
      destruct (Z.ltb_spec test (test + Z.of_nat (S n))); [|lia]. cbn [andb]. by rewrite orb_false_r.
    + cbn [andb orb]. f_equal. f_equal; [|f_equal; lia].
      destruct (Z.leb_spec (test + 1) k), (Z.leb_spec test k); try done; lia.
Qed.
End normal_form.

(** The booleans of an expression, at most five, as the normal form lists them. *)
Definition listed_bools (e : list cond_expr) : Z * list Z := fold_left collect_bool e (0, replicate 5 0).

Lemma listed_bools_range e : ∀ n ids, 0 <= n → length ids = 5%nat →
  n <= (fold_left collect_bool e (n, ids)).1 ∧ length (fold_left collect_bool e (n, ids)).2 = 5%nat.
Proof.
  induction e as [|x e IH]; intros n ids Hn Hl; [simpl; split; [lia|done]|].
  cbn [fold_left]. unfold collect_bool at 2 4.
  destruct (cx_expr_type x =? COND_BOOL); [|by apply IH].
  destruct (bool_present (cx_bool x) ids n); [by apply IH|].
  destruct (n <? COND_MAX_BOOLS).
  - destruct (IH (n + 1) (set_index ids n (cx_bool x))) as [H1 H2]; [lia|unfold set_index; by rewrite length_insert|].
    split; [lia|done].
  - destruct (IH (n + 1) ids) as [H1 H2]; [lia|done|]. split; [lia|done].
Qed.

(** On an expression of at most five booleans that does not end in a negation,
    [cond_normalize_expr] stores the truth table and leaves the policy, the
    states of its booleans included, as it was. *)
Lemma cond_normalize_ok p cn qs x (val : Z → Z) :
  let n := (listed_bools (cd_expr cn)).1 in
  let used := take (Z.to_nat n) (listed_bools (cd_expr cn)).2 in
  last (cd_expr cn) = Some x → cx_expr_type x ≠ COND_NOT → n <= COND_MAX_BOOLS →
  Forall2 (λ b q, bool_ptr p b = Ret q) used qs → NoDup qs →
  Forall (λ q, is_Some (at_index (bool_mem p) q)) qs →
  (∀ k, 0 <= k < 2 ^ n → cond_evaluate_expr (under p qs k) (cd_expr cn) = Ret (val k) ∧ val k ≠ -1) →
  ∃ cn', cond_normalize_expr p cn = Ret (0, p, cn') ∧ cd_expr cn' = cd_expr cn ∧ nbools cn' = n ∧
    true_list cn' = true_list cn ∧ false_list cn' = false_list cn ∧
    ∀ k, 0 <= k < 2 ^ n → Z.testbit (expr_pre_comp cn') k = negb (val k =? 0).
Proof.
  intros n used Hlast Hnot Hn Hptr Hnd Hobj Hval.
  destruct (listed_bools_range (cd_expr cn) 0 (replicate 5 0) ltac:(lia) eq_refl) as [Hn0 _].
  fold (listed_bools (cd_expr cn)) in Hn0. fold n in Hn0.
  assert (Hp2 : 1 <= 2 ^ n <= 32).
  { unfold COND_MAX_BOOLS in Hn. split; [apply (Z.pow_le_mono_r 2 0 n); lia|].
    change 32 with (2 ^ 5). apply Z.pow_le_mono_r; lia. }
  unfold cond_normalize_expr, strip_not. cbn [cd_expr]. rewrite Hlast.
  destruct (Z.eqb_spec (cx_expr_type x) COND_NOT) as [|_]; [done|]. cbn [mbind outcome_bind mret outcome_ret].
  cbn [cd_expr bool_ids cur_state true_list false_list avtrue_list avfalse_list cd_flags]. fold (listed_bools (cd_expr cn)). subst used n.
  destruct (listed_bools (cd_expr cn)) as [n ids]. cbn [fst snd] in *.
  destruct (Z.leb_spec n COND_MAX_BOOLS) as [_|]; [|lia].
  rewrite (save_eq p _ qs Hptr Hobj). cbn [mbind outcome_bind].
  destruct (precompute_eq p (take (Z.to_nat n) ids) qs Hptr Hnd Hobj (cd_expr cn) val (Z.to_nat (2 ^ n))
    (states_of (bool_mem p) qs) 0 0) as (bits&Hb&Hbits).
  - intros k Hk. apply Hval. lia.
  - lia.
  - lia.
  - unfold states_of. apply length_map.
  - rewrite put_states_same, set_bool_mem_id in Hb by done. rewrite Hb. cbn [mbind outcome_bind].
    destruct (Z.to_nat (2 ^ n)) as [|m] eqn:Em; [lia|]. cbn [negb Z.eqb].
    rewrite (restore_under p _ qs Hptr Hnd Hobj). cbn [mbind outcome_bind]. eexists. split; [done|].
    cbn [cd_expr nbools true_list false_list expr_pre_comp]. split_and!; [done..|].
    intros k Hk. rewrite Hbits by lia. rewrite Z.bits_0.
    destruct (Z.leb_spec 0 k), (Z.ltb_spec k (0 + Z.of_nat (S m))); lia || done.
Qed.

(** Whether an expression has a value does not depend on the values of the booleans. *)
Lemma eval_defined p q : (∀ b v, bool_state p b = Ret v → ∃ v', bool_state q b = Ret v') → ∀ e s t v,
  length t = length s → cond_eval_loop p s e = Ret v → ∃ v', cond_eval_loop q t e = Ret v'.
Proof.
  intros Hb e. induction e as [|x e IH]; intros s t v Hl H; [by eexists|]. cbn [cond_eval_loop] in *. apply ret_bind_inv in H as (r&Hr&H).
  unfold cond_step in *. rewrite Hl. destruct (cx_expr_type x =? COND_BOOL).
  { destruct (_ =? COND_EXPR_MAXDEPTH); [by eexists|]. apply ret_bind_inv in Hr as (u&Hu&Hr). destruct (Hb _ _ Hu) as [u' ->].
    cbn [mbind outcome_bind]. injection Hr as <-. eapply IH; [|exact H]. cbn. lia. }
  destruct (cx_expr_type x =? COND_NOT).
  { destruct s as [|y s], t as [|z t]; try done; [by eexists|]. injection Hr as <-. cbn in Hl. eapply IH; [|exact H]. cbn. lia. }
  destruct (cond_binop _) as [f|]; [|by eexists].
  destruct s as [|y [|y' s]], t as [|z [|z' t]]; try done; [by eexists..|]. injection Hr as <-. cbn in Hl. eapply IH; [|exact H]. cbn. lia.
Qed.

Lemma eval_same p q : (∀ b, bool_state q b = bool_state p b) → ∀ e s, cond_eval_loop q s e = cond_eval_loop p s e.
Proof.
  intros Hb e. induction e as [|x e IH]; intros s; [done|]. cbn [cond_eval_loop]. unfold cond_step. rewrite Hb.
  destruct (cx_expr_type x =? COND_BOOL); [|destruct (cx_expr_type x =? COND_NOT)].
  - destruct (_ =? COND_EXPR_MAXDEPTH); [done|]. destruct (bool_state p _); [|done..]. cbn [mbind outcome_bind]. apply IH.
  - destruct s; [done|apply IH].
  - destruct (cond_binop _), s as [|? [|? ?]]; try done. apply IH.
Qed.
