(* ===== verification/Services.v ===== *)
(** * The security server (libsepol/src/services.c)

    The evaluation of constraints, the computation of access vectors, the
    validation of transitions and the computation of the context of a new
    object.

    The file builds, next to the value of a constraint, a text that explains it
    ([get_class_info], [cat_expr_buf], [get_name_list], [msgcat] and the
    RPN-to-infix conversion).  That text is not modelled, except for the read of
    [p_class_val_to_name] it starts with; memory is taken to be available for
    it. *)

From S2P Require Import Prelude Ebitmap Hashtab Avtab Context Policydb Mls Cond.

Definition SEPOL_COMPUTEAV_TE : Z := 0x1.
Definition SEPOL_COMPUTEAV_CONS : Z := 0x2.
Definition SEPOL_COMPUTEAV_RBAC : Z := 0x4.
Definition SEPOL_COMPUTEAV_BOUNDS : Z := 0x8.
Definition PROCESS__TRANSITION : Z := 0x00000002.
Definition PROCESS__DYNTRANSITION : Z := 0x00800000.
Definition EACCES : Z := 13.
Definition latest_granting : Z := 0.

(** ** Constraints

    [Next s]: go on with the stack [s] (top first); [Out]: [goto out] with
    [rc] = 0. *)

Inductive step_result := Next (s : list bool) | Out.

Definition push (b : bool) (s : list bool) : step_result := Next (b :: s).

(** [if (sp == (CEXPR_MAXDEPTH - 1)) goto out;] *)
Definition stack_full (s : list bool) : bool := Z.of_nat (length s) =? CEXPR_MAXDEPTH.

(** The role object [role_val_to_struct[val - 1]]; it is dereferenced only by
    the role operators. *)
Definition role_struct (p : policydb) (val : Z) : outcome (option role_datum) :=
  val_to_struct (role_val_to_struct p) (role_mem p) (val - 1).

(** [val1] and [val2] compared by CEXPR_EQ and CEXPR_NEQ. *)
Definition eval_eq (o val1 val2 : Z) (s : list bool) : step_result :=
  if o =? CEXPR_EQ then push (val1 =? val2) s
  else if o =? CEXPR_NEQ then push (negb (val1 =? val2)) s
  else Out.

Definition eval_role_attr (p : policydb) (o val1 val2 : Z) (s : list bool) : outcome step_result :=
  r1 ← role_struct p val1;
  r2 ← role_struct p val2;
  if o =? CEXPR_DOM then r1 ← deref r1; mret (push (ebitmap_get_bit (dominates r1) (val2 - 1)) s)
  else if o =? CEXPR_DOMBY then r2 ← deref r2; mret (push (ebitmap_get_bit (dominates r2) (val1 - 1)) s)
  else if o =? CEXPR_INCOMP then
    r1 ← deref r1;
    if ebitmap_get_bit (dominates r1) (val2 - 1) then mret (push false s)
    else r2 ← deref r2; mret (push (negb (ebitmap_get_bit (dominates r2) (val1 - 1))) s)
  else mret (eval_eq o val1 val2 s).

(** The label [mls_ops]. *)
Definition mls_ops (o : Z) (l1 l2 : mls_level) (s : list bool) : step_result :=
  if o =? CEXPR_EQ then push (mls_level_eq l1 l2) s
  else if o =? CEXPR_NEQ then push (negb (mls_level_eq l1 l2)) s
  else if o =? CEXPR_DOM then push (mls_level_dom l1 l2) s
  else if o =? CEXPR_DOMBY then push (mls_level_dom l2 l1) s
  else if o =? CEXPR_INCOMP then push (mls_level_incomp l2 l1) s
  else Out.

(** The two levels an MLS attribute compares. *)
Definition mls_operands (a : Z) (scontext tcontext : context_struct) : option (mls_level * mls_level) :=
  let l1 := level0 (range scontext) in
  let h1 := level1 (range scontext) in
  let l2 := level0 (range tcontext) in
  let h2 := level1 (range tcontext) in
  if a =? CEXPR_L1L2 then Some (l1, l2)
  else if a =? CEXPR_L1H2 then Some (l1, h2)
  else if a =? CEXPR_H1L2 then Some (h1, l2)
  else if a =? CEXPR_H1H2 then Some (h1, h2)
  else if a =? CEXPR_L1H1 then Some (l1, h1)
  else if a =? CEXPR_L2H2 then Some (l2, h2)
  else None.

Definition eval_attr (p : policydb) (scontext tcontext : context_struct) (e : constraint_expr)
    (s : list bool) : outcome step_result :=
  if stack_full s then mret Out
  else if attr e =? CEXPR_USER then mret (eval_eq (op e) (user scontext) (user tcontext) s)
  else if attr e =? CEXPR_TYPE then mret (eval_eq (op e) (type scontext) (type tcontext) s)
  else if attr e =? CEXPR_ROLE then eval_role_attr p (op e) (role scontext) (role tcontext) s
  else
    match mls_operands (attr e) scontext tcontext with
    | Some (l1, l2) => mret (mls_ops (op e) l1 l2 s)
    | None => mret Out
    end.

(** The context and the value CEXPR_NAMES looks up. *)
Definition names_context (a : Z) (scontext tcontext : context_struct) (xcontext : option context_struct)
    : option context_struct :=
  if has_bits a CEXPR_TARGET then Some tcontext
  else if has_bits a CEXPR_XTARGET then xcontext
  else Some scontext.

Definition names_value (a : Z) (c : context_struct) : option Z :=
  if has_bits a CEXPR_USER then Some (user c)
  else if has_bits a CEXPR_ROLE then Some (role c)
  else if has_bits a CEXPR_TYPE then Some (type c)
  else None.

Definition eval_names (scontext tcontext : context_struct) (xcontext : option context_struct)
    (e : constraint_expr) (s : list bool) : step_result :=
  if stack_full s then Out
  else
    match names_context (attr e) scontext tcontext xcontext with
    | None => Out
    | Some c =>
        match names_value (attr e) c with
        | None => Out
        | Some val1 =>
            if op e =? CEXPR_EQ then push (ebitmap_get_bit (names e) (u32 (val1 - 1))) s
            else if op e =? CEXPR_NEQ then push (negb (ebitmap_get_bit (names e) (u32 (val1 - 1)))) s
            else Out
        end
    end.

(** One expression; an operator without its operands reads before the array [s]. *)
Definition eval_expr_step (p : policydb) (scontext tcontext : context_struct)
    (xcontext : option context_struct) (e : constraint_expr) (s : list bool) : outcome step_result :=
  if expr_type e =? CEXPR_NOT then
    match s with x :: s' => mret (Next (negb x :: s')) | [] => Undef end
  else if expr_type e =? CEXPR_AND then
    match s with y :: x :: s' => mret (Next (x && y :: s')) | _ => Undef end
  else if expr_type e =? CEXPR_OR then
    match s with y :: x :: s' => mret (Next (x || y :: s')) | _ => Undef end
  else if expr_type e =? CEXPR_ATTR then eval_attr p scontext tcontext e s
  else if expr_type e =? CEXPR_NAMES then mret (eval_names scontext tcontext xcontext e s)
  else mret Out.

(** The loop over the expressions; the value is [s[0]], the bottom of the
    stack, which is not initialised when no expression was pushed. *)
Fixpoint eval_exprs (p : policydb) (scontext tcontext : context_struct)
    (xcontext : option context_struct) (l : list constraint_expr) (s : list bool) : outcome bool :=
  match l with
  | [] => deref (last s)
  | e :: l' =>
      r ← eval_expr_step p scontext tcontext xcontext e s;
      match r with
      | Next s => eval_exprs p scontext tcontext xcontext l' s
      | Out => mret false
      end
  end.

Definition constraint_expr_eval_reason (p : policydb) (scontext tcontext : context_struct)
    (xcontext : option context_struct) (tclass : Z) (c : constraint_node) : outcome bool :=
  _ ← val_to_name p SYM_CLASSES (tclass - 1);        (* get_class_info *)
  eval_exprs p scontext tcontext xcontext (expr c) [].

(** ** Access vectors *)

(** [class_val_to_struct[tclass - 1]]. *)
Definition class_struct (p : policydb) (tclass : Z) : outcome class_datum :=
  cl ← val_to_struct (class_val_to_struct p) (class_mem p) (tclass - 1); deref cl.

Definition type_struct (p : policydb) (t : Z) : outcome type_datum :=
  d ← val_to_struct (type_val_to_struct p) (type_mem p) (t - 1); deref d.

(** The attributes of a type. *)
Definition attrs_of (p : policydb) (t : Z) : outcome ebitmap :=
  e ← deref (at_index (type_attr_map p) (t - 1)); deref e.

(** The rules of [te_avtab] for one pair of attributes. *)
Definition te_av_step (avd : av_decision) (n : avtab_node) : av_decision :=
  let d := data (datum n) in
  if specified (key n) =? AVTAB_ALLOWED
  then AVD (Z.lor (allowed avd) d) (decided avd) (auditallow avd) (auditdeny avd) (seqno avd)
  else if specified (key n) =? AVTAB_AUDITALLOW
  then AVD (allowed avd) (decided avd) (Z.lor (auditallow avd) d) (auditdeny avd) (seqno avd)
  else if specified (key n) =? AVTAB_AUDITDENY
  then AVD (allowed avd) (decided avd) (auditallow avd) (Z.land (auditdeny avd) d) (seqno avd)
  else avd.

(** The body of the two attribute loops at the bits [i] and [j]; the key's
    fields are [uint16_t]. *)
Definition te_pair (p : policydb) (tclass : Z) (avd : av_decision) (ij : Z * Z) : av_decision :=
  let avkey := AK (u16 (ij.1 + 1)) (u16 (ij.2 + 1)) tclass AVTAB_AV in
  let avd := fold_left te_av_step (avtab_search_all (te_avtab p) avkey) avd in
  cond_compute_av (te_cond_avtab p) avkey avd.

(** The pairs the two nested loops visit, in order. *)
Definition attr_pairs (sattr tattr : ebitmap) : list (Z * Z) :=
  i ← ebitmap_set_bits sattr; j ← ebitmap_set_bits tattr; [(i, j)].

Definition set_allowed (v : Z) (avd : av_decision) : av_decision :=
  AVD v (decided avd) (auditallow avd) (auditdeny avd) (seqno avd).

(** The loop over the constraints of the class. *)
Definition constraint_step (p : policydb) (scontext tcontext : context_struct) (tclass : Z)
    (avd : av_decision) (c : constraint_node) : outcome av_decision :=
  if has_bits (cn_permissions c) (allowed avd) then
    ok ← constraint_expr_eval_reason p scontext tcontext None tclass c;
    mret (if ok : bool then avd else set_allowed (Z.land (allowed avd) (not32 (cn_permissions c))) avd)
  else mret avd.

(** [if (requested & ~avd->allowed) { *reason |= bit; requested &= avd->allowed; }] *)
Definition note_denied (bit : Z) (avd : av_decision) (rr : Z * option Z) : Z * option Z :=
  let '(requested, reason) := rr in
  if has_bits requested (not32 (allowed avd))
  then (Z.land requested (allowed avd), (λ r, Z.lor r bit) <$> reason)
  else rr.

Definition process_perms : Z := Z.lor PROCESS__TRANSITION PROCESS__DYNTRANSITION.

(** The role check of process transitions. *)
Definition role_check (p : policydb) (scontext tcontext : context_struct) (tclass : Z)
    (avd : av_decision) : av_decision :=
  if (tclass =? SECCLASS_PROCESS) && has_bits (allowed avd) process_perms
     && negb (role scontext =? role tcontext)
  then
    if existsb (λ ra, (role scontext =? ra_role ra) && (role tcontext =? ra_new_role ra)) (role_allow p)
    then avd
    else set_allowed (Z.land (allowed avd) (not32 process_perms)) avd
  else avd.

Definition with_type (c : context_struct) (t : Z) : context_struct := CTX (user c) (role c) t (range c).

Definition zero_avd : av_decision := AVD 0 0 0 0 0.

(** [type_attribute_bounds_av] and [context_struct_compute_av] call each other
    along the chain of bounds; [fuel] bounds the length of the chain (a chain
    that does not end overflows the C stack).  [reason] is NULL in the nested
    calls: storing through it is undefined.  The results are the status, the
    decision and [*reason]. *)
Fixpoint context_struct_compute_av (fuel : nat) (p : policydb) (scontext tcontext : context_struct)
    (tclass requested : Z) (avd : av_decision) (reason : option Z)
    : outcome (Z * av_decision * option Z) :=
  match fuel with
  | O => Undef
  | S fuel' =>
      if (tclass =? 0) || (nprim (p_classes p) <? tclass) then mret (- EINVAL, avd, reason)
      else
        tclass_datum ← class_struct p tclass;
        let avd := AVD 0 0xffffffff 0 0xffffffff latest_granting in
        let reason := (λ _, 0) <$> reason in
        sattr ← attrs_of p (type scontext);
        tattr ← attrs_of p (type tcontext);
        let avd := fold_left (te_pair p tclass) (attr_pairs sattr tattr) avd in
        let rr := note_denied SEPOL_COMPUTEAV_TE avd (requested, reason) in
        avd ← ofold (constraint_step p scontext tcontext tclass) (constraints tclass_datum) avd;
        let rr := note_denied SEPOL_COMPUTEAV_CONS avd rr in
        let avd := role_check p scontext tcontext tclass avd in
        let '(requested, reason) := note_denied SEPOL_COMPUTEAV_RBAC avd rr in
        (* type_attribute_bounds_av *)
        source ← type_struct p (type scontext);
        if bounds source =? 0 then mret (0, avd, reason)
        else
          target ← type_struct p (type tcontext);
          let tcontextp := if bounds target =? 0 then tcontext else with_type tcontext (bounds target) in
          '(_, lo_avd, _) ← context_struct_compute_av fuel' p (with_type scontext (bounds source))
                              tcontextp tclass requested zero_avd None;
          let masked := Z.land (not32 (allowed lo_avd)) (allowed avd) in
          if masked =? 0 then mret (0, avd, reason)
          else
            let avd := set_allowed (Z.land (allowed avd) (not32 masked)) avd in
            reason ← deref reason;
            mret (0, avd, Some (Z.lor reason SEPOL_COMPUTEAV_BOUNDS))
  end.

(** ** Transitions *)

(** The contexts are those [sepol_sidtab_search] finds for the three SIDs. *)
Fixpoint validate_constraints (p : policydb) (ocontext ncontext tcontext : context_struct)
    (l : list constraint_node) : outcome Z :=
  match l with
  | [] => mret 0
  | c :: l' =>
      ok ← constraint_expr_eval_reason p ocontext ncontext (Some tcontext) 0 c;
      if negb ok then mret (- EPERM) else validate_constraints p ocontext ncontext tcontext l'
  end.

Definition sepol_validate_transition (p : policydb) (ocontext ncontext tcontext : option context_struct)
    (tclass : Z) : outcome Z :=
  if (tclass =? 0) || (nprim (p_classes p) <? tclass) then mret (- EINVAL)
  else
    cl ← val_to_struct (class_val_to_struct p) (class_mem p) (tclass - 1);
    match ocontext, ncontext, tcontext with
    | Some o, Some n, Some t => tclass_datum ← deref cl; validate_constraints p o n t (validatetrans tclass_datum)
    | _, _, _ => mret (- EINVAL)
    end.

(** [sepol_validate_transition_reason_buffer]: the same loop with the class. *)
Fixpoint validate_constraints_reason (p : policydb) (ocontext ncontext tcontext : context_struct)
    (tclass : Z) (l : list constraint_node) : outcome Z :=
  match l with
  | [] => mret 0
  | c :: l' =>
      ok ← constraint_expr_eval_reason p ocontext ncontext (Some tcontext) tclass c;
      if negb ok then mret (- EPERM) else validate_constraints_reason p ocontext ncontext tcontext tclass l'
  end.

Definition sepol_validate_transition_reason_buffer (p : policydb)
    (ocontext ncontext tcontext : option context_struct) (tclass : Z) : outcome Z :=
  if (tclass =? 0) || (nprim (p_classes p) <? tclass) then mret (- EINVAL)
  else
    cl ← val_to_struct (class_val_to_struct p) (class_mem p) (tclass - 1);
    match ocontext, ncontext, tcontext with
    | Some o, Some n, Some t => tclass_datum ← deref cl; validate_constraints_reason p o n t tclass (validatetrans tclass_datum)
    | _, _, _ => mret (- EINVAL)
    end.

(** ** Names of classes and permissions *)

(** [*tclass] is the second result. *)
Definition sepol_string_to_security_class (p : policydb) (class_name : string) : outcome (Z * option Z) :=
  match hashtab_search (table (p_classes p)) class_name with
  | None => mret (STATUS_ERR, None)
  | Some q => cl ← deref (at_index (class_mem p) q); mret (STATUS_SUCCESS, Some (c_value cl))
  end.

Definition perm_bit (d : perm_datum) : Z := u32 (Z.shiftl 1 (pd_value d - 1)).

Definition sepol_string_to_av_perm (p : policydb) (tclass : Z) (perm_name : string) : outcome (Z * option Z) :=
  if (tclass =? 0) || (nprim (p_classes p) <? tclass) then mret (- EINVAL, None)
  else
    tclass_datum ← class_struct p tclass;
    match hashtab_search (table (permissions tclass_datum)) perm_name with
    | Some perm_datum => mret (STATUS_SUCCESS, Some (perm_bit perm_datum))
    | None =>
        match comdatum tclass_datum with
        | None => mret (STATUS_ERR, None)
        | Some com =>
            match hashtab_search (table (cm_permissions com)) perm_name with
            | Some perm_datum => mret (STATUS_SUCCESS, Some (perm_bit perm_datum))
            | None => mret (STATUS_ERR, None)
            end
        end
    end.

(** ** The context of a new object

    [sepol_compute_sid] up to the validity check; [sepol_sidtab_context_to_sid]
    then assigns a SID to the context.  An unknown SID jumps to [out], where
    [context_destroy] frees the context that was never initialised. *)

(** The default user, role and type. *)
Definition default_context (scontext tcontext : context_struct) (tclass spec : Z) : context_struct :=
  let usr := if (spec =? AVTAB_TRANSITION) || (spec =? AVTAB_CHANGE) then user scontext
             else if spec =? AVTAB_MEMBER then user tcontext else 0 in
  if tclass =? SECCLASS_PROCESS
  then CTX usr (role scontext) (type scontext) mls_range_init
  else CTX usr OBJECT_R_VAL (type tcontext) mls_range_init.

(** The type rule that applies: a permanent one, or an enabled conditional one. *)
Definition type_rule (p : policydb) (avkey : avtab_key) : option avtab_node :=
  match avtab_search (te_avtab p) avkey with
  | Some n => Some n
  | None => find (λ n, has_bits (specified (key n)) AVTAB_ENABLED) (avtab_search_all (te_cond_avtab p) avkey)
  end.

Definition role_transition (p : policydb) (scontext tcontext : context_struct) (tclass spec r : Z) : Z :=
  if (tclass =? SECCLASS_PROCESS) && has_bits spec AVTAB_TRANSITION then
    match find (λ rt, (rtr_role rt =? role scontext) && (rtr_type rt =? type tcontext)) (role_tr p) with
    | Some rt => rtr_new_role rt
    | None => r
    end
  else r.

(** The status and the new context. *)
Definition compute_context (p : policydb) (scontext tcontext : context_struct) (tclass spec : Z) (m : mem)
    : outcome (Z * context_struct * mem) :=
  let newcontext := default_context scontext tcontext tclass spec in
  let avkey := AK (u16 (type scontext)) (u16 (type tcontext)) tclass (u16 spec) in
  let newtype := match type_rule p avkey with Some n => data (datum n) | None => type newcontext end in
  let newcontext := CTX (user newcontext) (role_transition p scontext tcontext tclass spec (role newcontext))
                        newtype (range newcontext) in
  '(rc, newcontext, m) ← mls_compute_sid p scontext tcontext tclass spec newcontext m;
  if negb (rc =? 0) then mret (rc, newcontext, m)
  else
    ok ← context_is_valid p newcontext;
    if ok : bool then mret (0, newcontext, m) else mret (- EACCES, newcontext, m).

Definition sepol_compute_sid (p : policydb) (scontext tcontext : option context_struct)
    (tclass spec : Z) (m : mem) : outcome (Z * context_struct * mem) :=
  match scontext, tcontext with
  | Some s, Some t => compute_context p s t tclass spec m
  | _, _ => Undef
  end.

(** ** What an access vector grants

    [te_allows p ts tt c b]: a rule allows permission bit [b] of class [c] to a
    pair of attributes of the types [ts] and [tt]. *)

Definition attr_of (p : policydb) (t i : Z) : Prop :=
  ∃ e, at_index (type_attr_map p) (t - 1) = Some (Some e) ∧ ebitmap_get_bit e i = true.

Definition allow_rule (src tgt c b : Z) (n : avtab_node) : Prop :=
  source_type (key n) = src ∧ target_type (key n) = tgt ∧ target_class (key n) = c ∧
  specified (key n) = AVTAB_ALLOWED ∧ Z.testbit (data (datum n)) b = true.

Definition cond_allow_rule (src tgt c b : Z) (n : avtab_node) : Prop :=
  source_type (key n) = src ∧ target_type (key n) = tgt ∧ target_class (key n) = c ∧
  Z.testbit (specified (key n)) 0 = true ∧ Z.testbit (specified (key n)) 15 = true ∧
  Z.testbit (data (datum n)) b = true.

Definition te_allows (p : policydb) (ts tt c b : Z) : Prop :=
  ∃ i j, attr_of p ts i ∧ attr_of p tt j ∧
    ((∃ n, n ∈ avtab_nodes (te_avtab p) ∧ allow_rule (i + 1) (j + 1) c b n) ∨
     (∃ n, n ∈ avtab_nodes (te_cond_avtab p) ∧ cond_allow_rule (i + 1) (j + 1) c b n)).

(** The constraints that mention the permission hold. *)
Definition constraints_allow (p : policydb) (s t : context_struct) (c b : Z) : Prop :=
  ∃ cl, class_struct p c = Ret cl ∧
    ∀ k, k ∈ constraints cl → Z.testbit (cn_permissions k) b = true →
      constraint_expr_eval_reason p s t None c k = Ret true.

(** A process transition to another role needs a role allow rule. *)
Definition role_allows (p : policydb) (s t : context_struct) (c b : Z) : Prop :=
  c = SECCLASS_PROCESS → Z.testbit process_perms b = true → role s ≠ role t →
  ∃ ra, ra ∈ role_allow p ∧ ra_role ra = role s ∧ ra_new_role ra = role t.

(** The whole decision: rules, constraints, roles and the bounds of the source
    type, whose own permissions limit those of the type. *)
Inductive av_allows (p : policydb) (c b : Z) : context_struct → context_struct → Prop :=
  | av_unbounded s t src :
      te_allows p (type s) (type t) c b → constraints_allow p s t c b → role_allows p s t c b →
      type_struct p (type s) = Ret src → bounds src = 0 → av_allows p c b s t
  | av_bounded s t src tgt :
      te_allows p (type s) (type t) c b → constraints_allow p s t c b → role_allows p s t c b →
      type_struct p (type s) = Ret src → bounds src ≠ 0 → type_struct p (type t) = Ret tgt →
      av_allows p c b (with_type s (bounds src))
        (if bounds tgt =? 0 then t else with_type t (bounds tgt)) →
      av_allows p c b s t.

(** What the rule tables and attribute maps of a loaded policy satisfy: the
    attributes are numbers the 16-bit keys can hold. *)
Definition attrs_ok (p : policydb) : Prop :=
  ∀ t e, at_index (type_attr_map p) (t - 1) = Some (Some e) →
    ebitmap_wf e ∧ ∀ i, ebitmap_get_bit e i = true → i + 1 < 2 ^ 16.

Definition te_wf (p : policydb) : Prop :=
  avtab_wf (te_avtab p) ∧ avtab_wf (te_cond_avtab p) ∧ attrs_ok p.

(** ** The type enforcement loops *)

Definition allow_bit (b : Z) (n : avtab_node) : bool :=
  (specified (key n) =? AVTAB_ALLOWED) && Z.testbit (data (datum n)) b.

Definition cond_allow_bit (b : Z) (n : avtab_node) : bool :=
  (Z.lor AVTAB_ALLOWED AVTAB_ENABLED =? Z.land (specified (key n)) (Z.lor AVTAB_ALLOWED AVTAB_ENABLED))
  && Z.testbit (data (datum n)) b.

Lemma te_av_fold_allowed l avd b :
  Z.testbit (allowed (fold_left te_av_step l avd)) b = Z.testbit (allowed avd) b || existsb (allow_bit b) l.
Proof.
  revert avd. induction l as [|n l IH]; intros avd; simpl; [by rewrite orb_false_r|].
  rewrite IH. unfold te_av_step, allow_bit at 2.
  destruct (specified (key n) =? AVTAB_ALLOWED) eqn:E; cbn [allowed].
  - by rewrite Z.lor_spec, orb_assoc.
  - destruct (specified (key n) =? AVTAB_AUDITALLOW); [done|].
    by destruct (specified (key n) =? AVTAB_AUDITDENY).
Qed.

Lemma cond_av_fold_allowed l avd b :
  Z.testbit (allowed (fold_left cond_av_step l avd)) b =
  Z.testbit (allowed avd) b || existsb (cond_allow_bit b) l.
Proof.
  revert avd. induction l as [|n l IH]; intros avd; simpl; [by rewrite orb_false_r|].
  rewrite IH. unfold cond_av_step, cond_allow_bit at 2. cbn [allowed].
  destruct (Z.lor AVTAB_ALLOWED AVTAB_ENABLED =? _); simpl; [by rewrite Z.lor_spec, orb_assoc|done].
Qed.

(** The key of the pair of attributes [ij]. *)
Definition pair_key (tclass : Z) (ij : Z * Z) : avtab_key := AK (u16 (ij.1 + 1)) (u16 (ij.2 + 1)) tclass AVTAB_AV.

Definition pair_allows (p : policydb) (tclass b : Z) (ij : Z * Z) : bool :=
  existsb (allow_bit b) (avtab_search_all (te_avtab p) (pair_key tclass ij)) ||
  existsb (cond_allow_bit b) (avtab_search_all (te_cond_avtab p) (pair_key tclass ij)).

Lemma te_pairs_allowed p tclass l avd b :
  Z.testbit (allowed (fold_left (te_pair p tclass) l avd)) b =
  Z.testbit (allowed avd) b || existsb (pair_allows p tclass b) l.
Proof.
  revert avd. induction l as [|ij l IH]; intros avd; simpl; [by rewrite orb_false_r|].
  rewrite IH. unfold te_pair, cond_compute_av, pair_allows at 2.
  rewrite cond_av_fold_allowed, te_av_fold_allowed. by rewrite !orb_assoc.
Qed.

Lemma elem_of_attr_pairs e1 e2 ij :
  ebitmap_wf e1 → ebitmap_wf e2 →
  ij ∈ attr_pairs e1 e2 ↔ ebitmap_get_bit e1 ij.1 = true ∧ ebitmap_get_bit e2 ij.2 = true.
Proof.
  intros H1 H2. unfold attr_pairs. rewrite list_elem_of_bind. setoid_rewrite list_elem_of_bind.
  split.
  - intros (i&(j&Hij&Hj)&Hi). apply list_elem_of_singleton in Hij as ->. simpl.
    by rewrite <- !elem_of_set_bits.
  - destruct ij as [i j]. rewrite <- !elem_of_set_bits by done. simpl. intros [Hi Hj].
    exists i. split; [|done]. exists j. split; [|done]. by apply list_elem_of_singleton.
Qed.

Lemma has_bits_testbit a k s : 0 <= k → Z.testbit a k = true → Z.testbit s k = true → has_bits a s = true.
Proof.
  intros Hk Ha Hs. unfold has_bits. apply negb_true_iff, Z.eqb_neq. intros E.
  apply (f_equal (λ z, Z.testbit z k)) in E. by rewrite Z.land_spec, Ha, Hs, Z.bits_0 in E.
Qed.

(** The rules the search finds for a pair of attributes are those of the table. *)
Lemma search_pair h tclass i j (f : avtab_node → bool) :
  avtab_wf h → 0 <= tclass < 2 ^ 16 → 0 <= i + 1 < 2 ^ 16 → 0 <= j + 1 < 2 ^ 16 →
  (∀ n, f n = true → has_bits (not_enabled AVTAB_AV) (specified (key n)) = true) →
  existsb f (avtab_search_all h (pair_key tclass (i, j))) = true ↔
  ∃ n, n ∈ avtab_nodes h ∧ source_type (key n) = i + 1 ∧ target_type (key n) = j + 1 ∧
       target_class (key n) = tclass ∧ f n = true.
Proof.
  intros Hw Hc Hi Hj Hf. unfold pair_key. cbn [fst snd]. rewrite !u16_small by done.
  rewrite avtab_search_all_correct by done. rewrite existsb_exists.
  setoid_rewrite <- list_elem_of_In. setoid_rewrite list_elem_of_filter.
  unfold key_matches, same_types. cbn [source_type target_type target_class specified].
  split.
  - intros (n&[Hm Hn]&Hfn). exists n. rewrite !andb_true_iff, !Z.eqb_eq in Hm.
    destruct Hm as [((?&?)&?) _]. done.
  - intros (n&Hn&E1&E2&E3&Hfn). exists n. split; [|done]. split; [|done].
    rewrite E1, E2, E3, !Z.eqb_refl. simpl. by apply Hf.
Qed.

Lemma allow_bit_spec b n :
  allow_bit b n = true ↔ specified (key n) = AVTAB_ALLOWED ∧ Z.testbit (data (datum n)) b = true.
Proof. unfold allow_bit. by rewrite andb_true_iff, Z.eqb_eq. Qed.

Lemma cond_allow_bit_spec b n :
  cond_allow_bit b n = true ↔
  Z.testbit (specified (key n)) 0 = true ∧ Z.testbit (specified (key n)) 15 = true ∧
  Z.testbit (data (datum n)) b = true.
Proof.
  unfold cond_allow_bit. rewrite andb_true_iff, Z.eqb_eq. set (s := specified (key n)). split.
  - intros [E Hd]. split; [|split; [|done]].
    + apply (f_equal (λ z, Z.testbit z 0)) in E. rewrite Z.land_spec in E. by apply eq_sym, andb_true_iff in E as [? _].
    + apply (f_equal (λ z, Z.testbit z 15)) in E. rewrite Z.land_spec in E. by apply eq_sym, andb_true_iff in E as [? _].
  - intros (E0&E15&Hd). split; [|done]. apply Z.bits_inj'. intros k Hk. rewrite Z.land_spec.
    change (Z.lor AVTAB_ALLOWED AVTAB_ENABLED) with (Z.lor (Z.shiftl 1 0) (Z.shiftl 1 15)).
    rewrite Z.lor_spec, !testbit_one_shl by lia.
    destruct (Z.eqb_spec 0 k) as [<-|]; [by rewrite E0|].
    destruct (Z.eqb_spec 15 k) as [<-|]; [by rewrite E15|]. by rewrite andb_false_r.
Qed.

(** The loops compute exactly the union of the rules over the attribute pairs. *)
Lemma te_allows_spec p ts tt tclass b sattr tattr :
  te_wf p → 0 <= tclass < 2 ^ 16 →
  at_index (type_attr_map p) (ts - 1) = Some (Some sattr) →
  at_index (type_attr_map p) (tt - 1) = Some (Some tattr) →
  existsb (pair_allows p tclass b) (attr_pairs sattr tattr) = true ↔ te_allows p ts tt tclass b.
Proof.
  intros (Hte&Hcond&Hattr) Hc Hs Ht.
  destruct (Hattr _ _ Hs) as [Hsw Hsb]. destruct (Hattr _ _ Ht) as [Htw Htb].
  rewrite existsb_exists. setoid_rewrite <- list_elem_of_In.
  setoid_rewrite elem_of_attr_pairs; [|done..]. unfold te_allows, attr_of.
  assert (Hpair : ∀ i j, ebitmap_get_bit sattr i = true → ebitmap_get_bit tattr j = true →
    pair_allows p tclass b (i, j) = true ↔
    (∃ n, n ∈ avtab_nodes (te_avtab p) ∧ allow_rule (i + 1) (j + 1) tclass b n) ∨
    (∃ n, n ∈ avtab_nodes (te_cond_avtab p) ∧ cond_allow_rule (i + 1) (j + 1) tclass b n)).
  { intros i j Hi Hj. pose proof (get_bit_range _ _ Hsw Hi). pose proof (get_bit_range _ _ Htw Hj).
    specialize (Hsb i Hi). specialize (Htb j Hj). unfold pair_allows. rewrite orb_true_iff.
    rewrite (search_pair _ _ i j (allow_bit b)), (search_pair _ _ i j (cond_allow_bit b)); try done; try lia.
    - setoid_rewrite allow_bit_spec. setoid_rewrite cond_allow_bit_spec.
      unfold allow_rule, cond_allow_rule. naive_solver.
    - intros n (E&_&_)%cond_allow_bit_spec. by apply (has_bits_testbit _ 0).
    - intros n [E _]%allow_bit_spec. by rewrite E. }
  split.
  - intros ([i j]&[Hi Hj]&Hp). simpl in *. exists i, j.
    split; [by exists sattr|]. split; [by exists tattr|]. by apply Hpair.
  - intros (i&j&(e1&E1&Hi)&(e2&E2&Hj)&Hr). rewrite Hs in E1. rewrite Ht in E2.
    injection E1 as <-. injection E2 as <-. exists (i, j). split; [done|]. by apply Hpair.
Qed.

(** ** The constraint and role checks *)

Lemma constraint_step_allowed p s t c avd k avd' b :
  0 <= b < 32 → constraint_step p s t c avd k = Ret avd' →
  Z.testbit (allowed avd') b = true ↔
  Z.testbit (allowed avd) b = true ∧
  (Z.testbit (cn_permissions k) b = true → constraint_expr_eval_reason p s t None c k = Ret true).
Proof.
  intros Hb. unfold constraint_step.
  destruct (has_bits (cn_permissions k) (allowed avd)) eqn:Hh.
  - intros (ok&Hok&[= <-])%ret_bind_inv. rewrite Hok.
    destruct ok; [naive_solver|]. cbn [allowed set_allowed].
    rewrite Z.land_spec, testbit_not32, andb_true_iff by done.
    destruct (Z.testbit (cn_permissions k) b); naive_solver.
  - intros [= <-]. split; [|by intros [? _]]. intros Ha. split; [done|]. intros Hk.
    by rewrite (has_bits_testbit _ b) in Hh by (done || lia).
Qed.

Lemma constraints_allowed p s t c b : 0 <= b < 32 → ∀ l avd avd',
  ofold (constraint_step p s t c) l avd = Ret avd' →
  Z.testbit (allowed avd') b = true ↔
  Z.testbit (allowed avd) b = true ∧
  (∀ k, k ∈ l → Z.testbit (cn_permissions k) b = true → constraint_expr_eval_reason p s t None c k = Ret true).
Proof.
  intros Hb. induction l as [|k l IH]; intros avd avd' H; simpl in H.
  - injection H as <-. split; [|by intros [? _]]. intros Ha. split; [done|].
    intros k Hk. by apply not_elem_of_nil in Hk.
  - apply ret_bind_inv in H as (avd1&H1&H2). rewrite (IH _ _ H2), (constraint_step_allowed _ _ _ _ _ _ _ b Hb H1).
    setoid_rewrite elem_of_cons. naive_solver.
Qed.

Lemma role_check_allowed p s t c avd b :
  0 <= b < 32 →
  Z.testbit (allowed (role_check p s t c avd)) b = true ↔
  Z.testbit (allowed avd) b = true ∧ role_allows p s t c b.
Proof.
  intros Hb. unfold role_check, role_allows.
  destruct (Z.eqb_spec c SECCLASS_PROCESS) as [Hc|Hc]; cbn [andb]; [|naive_solver].
  destruct (Z.eqb_spec (role s) (role t)) as [Hr|Hr]; rewrite ?andb_true_r, ?andb_false_r; cbn [negb];
    [naive_solver|].
  assert (Hex : existsb (λ ra, (role s =? ra_role ra) && (role t =? ra_new_role ra)) (role_allow p) = true ↔
                ∃ ra, ra ∈ role_allow p ∧ ra_role ra = role s ∧ ra_new_role ra = role t).
  { rewrite existsb_exists. setoid_rewrite <- list_elem_of_In. setoid_rewrite andb_true_iff.
    setoid_rewrite Z.eqb_eq. naive_solver. }
  destruct (has_bits (allowed avd) process_perms) eqn:Hh; cbn [andb].
  - destruct (existsb _ _); cbn [allowed set_allowed]; [naive_solver|].
    rewrite Z.land_spec, testbit_not32, andb_true_iff by done.
    destruct (Z.testbit process_perms b); naive_solver.
  - split; [|naive_solver]. intros Ha. split; [done|]. intros _ Hp _.
    by rewrite (has_bits_testbit _ b) in Hh by (done || lia).
Qed.

(** What one level grants before the bounds: rules, constraints and roles. *)
Definition level_allows (p : policydb) (s t : context_struct) (c b : Z) : Prop :=
  te_allows p (type s) (type t) c b ∧ constraints_allow p s t c b ∧ role_allows p s t c b.

Lemma level_allowed p s t c b cl sattr tattr avd :
  te_wf p → 0 <= c < 2 ^ 16 → 0 <= b < 32 →
  class_struct p c = Ret cl → attrs_of p (type s) = Ret sattr → attrs_of p (type t) = Ret tattr →
  ofold (constraint_step p s t c) (constraints cl)
    (fold_left (te_pair p c) (attr_pairs sattr tattr) (AVD 0 0xffffffff 0 0xffffffff latest_granting)) = Ret avd →
  Z.testbit (allowed (role_check p s t c avd)) b = true ↔ level_allows p s t c b.
Proof.
  intros Hwf Hc Hb Hcl Hs Ht Hav.
  assert (attr_at : ∀ x e, attrs_of p x = Ret e → at_index (type_attr_map p) (x - 1) = Some (Some e)).
  { intros x e. unfold attrs_of. destruct (at_index _ _) as [[?|]|]; try done. by intros [= ->]. }
  rewrite role_check_allowed by done. rewrite (constraints_allowed _ _ _ _ _ Hb _ _ _ Hav).
  rewrite te_pairs_allowed. cbn [allowed]. rewrite Z.bits_0, orb_false_l.
  rewrite (te_allows_spec p (type s) (type t)) by auto.
  unfold level_allows, constraints_allow. rewrite Hcl. naive_solver.
Qed.

(** ** The decision *)

(** The bits a bounded type keeps. *)
Lemma bounds_mask a lo b :
  0 <= b < 32 → 0 <= lo →
  Z.testbit (Z.land a (not32 (Z.land (not32 lo) a))) b = Z.testbit a b && Z.testbit lo b.
Proof.
  intros Hb Hlo. rewrite Z.land_spec, testbit_not32, Z.land_spec, testbit_not32 by done.
  by destruct (Z.testbit a b), (Z.testbit lo b).
Qed.

Lemma masked_zero a lo b :
  0 <= b < 32 → Z.land (not32 lo) a = 0 → Z.testbit a b = true → Z.testbit lo b = true.
Proof.
  intros Hb H Ha. apply (f_equal (λ z, Z.testbit z b)) in H.
  rewrite Z.land_spec, testbit_not32, Ha, Z.bits_0 in H by done. by destruct (Z.testbit lo b).
Qed.

(** The calls of one level: everything up to the bounds. *)
Lemma compute_av_level fuel p s t c req avd0 r0 rc avd r :
  (c =? 0) || (nprim (p_classes p) <? c) = false →
  context_struct_compute_av (S fuel) p s t c req avd0 r0 = Ret (rc, avd, r) →
  ∃ cl sattr tattr lvl src, class_struct p c = Ret cl ∧
    attrs_of p (type s) = Ret sattr ∧ attrs_of p (type t) = Ret tattr ∧
    ofold (constraint_step p s t c) (constraints cl)
      (fold_left (te_pair p c) (attr_pairs sattr tattr) (AVD 0 0xffffffff 0 0xffffffff latest_granting)) = Ret lvl ∧
    type_struct p (type s) = Ret src ∧ rc = 0 ∧
    ((bounds src = 0 ∧ avd = role_check p s t c lvl) ∨
     (bounds src ≠ 0 ∧ ∃ tgt req' rc' lo r', type_struct p (type t) = Ret tgt ∧
        context_struct_compute_av fuel p (with_type s (bounds src))
          (if bounds tgt =? 0 then t else with_type t (bounds tgt)) c req' zero_avd None = Ret (rc', lo, r') ∧
        let a := allowed (role_check p s t c lvl) in
        let masked := Z.land (not32 (allowed lo)) a in
        ((masked = 0 ∧ avd = role_check p s t c lvl) ∨
         (masked ≠ 0 ∧ r0 ≠ None ∧ avd = set_allowed (Z.land a (not32 masked)) (role_check p s t c lvl))))).
Proof.
  intros Hc H. cbn [context_struct_compute_av] in H. rewrite Hc in H.
  apply ret_bind_inv in H as (cl&Hcl&H). apply ret_bind_inv in H as (sattr&Hs&H).
  apply ret_bind_inv in H as (tattr&Ht&H). apply ret_bind_inv in H as (lvl&Hlvl&H).
  destruct (note_denied SEPOL_COMPUTEAV_RBAC _ _) as [req' r1] eqn:En.
  apply ret_bind_inv in H as (src&Hsrc&H).
  exists cl, sattr, tattr, lvl, src. do 5 (split; [done|]).
  destruct (Z.eqb_spec (bounds src) 0) as [Hb|Hb].
  { injection H as <- <- <-. split; [done|]. by left. }
  apply ret_bind_inv in H as (tgt&Htgt&H). apply ret_bind_inv in H as ([[rc' lo] r']&Hlo&H).
  destruct (Z.eqb_spec (Z.land (not32 (allowed lo)) (allowed (role_check p s t c lvl))) 0) as [Hm|Hm].
  - injection H as <- <- <-. split; [done|]. right. split; [done|].
    exists tgt, req', rc', lo, r'. by repeat (split || left).
  - apply ret_bind_inv in H as (r2&Hr2&H). injection H as <- <- <-. split; [done|]. right. split; [done|].
    exists tgt, req', rc', lo, r'. split; [done|]. split; [done|]. right. split; [done|]. split; [|done].
    intros ->. unfold note_denied in En. simpl in En.
    repeat case_match; simplify_eq; by destruct r2.
Qed.

(** The class number is one of the policy's; the access vector key holds 16 bits. *)
Definition class_ok (p : policydb) (c : Z) : Prop := 0 < c <= nprim (p_classes p) ∧ c < 2 ^ 16.

Lemma class_ok_guard p c : class_ok p c → (c =? 0) || (nprim (p_classes p) <? c) = false.
Proof. intros [H _]. apply orb_false_iff. split; zcase; lia. Qed.

Lemma compute_av_allowed p c b : te_wf p → class_ok p c → 0 <= b < 32 →
  ∀ fuel s t req avd0 r0 rc avd r,
  context_struct_compute_av fuel p s t c req avd0 r0 = Ret (rc, avd, r) →
  Z.testbit (allowed avd) b = true ↔ av_allows p c b s t.
Proof.
  intros Hwf Hc Hb. induction fuel as [|fuel IH]; intros s t req avd0 r0 rc avd r H; [done|].
  apply compute_av_level in H as (cl&sattr&tattr&lvl&src&Hcl&Hs&Ht&Hlvl&Hsrc&_&H); [|by apply class_ok_guard].
  pose proof (level_allowed p s t c b cl sattr tattr lvl Hwf ltac:(destruct Hc; lia) Hb Hcl Hs Ht Hlvl) as HL.
  unfold level_allows in HL. destruct H as [[Hb0 ->]|(Hb0&tgt&req'&rc'&lo&r'&Htgt&Hlo&H)].
  - rewrite HL. split.
    + intros (?&?&?). by eapply av_unbounded.
    + inversion 1; subst; auto.
  - specialize (IH _ _ _ _ _ _ _ _ Hlo).
    assert (E : Z.testbit (allowed avd) b = true ↔
                Z.testbit (allowed (role_check p s t c lvl)) b = true ∧ Z.testbit (allowed lo) b = true).
    { destruct H as [[Hm ->]|(Hm&_&->)].
      - split; [|by intros [? _]]. intros Ha. split; [done|]. by eapply masked_zero.
      - cbn [allowed set_allowed]. rewrite Z.land_spec, testbit_not32, Z.land_spec, testbit_not32 by done.
        destruct (Z.testbit (allowed (role_check p s t c lvl)) b), (Z.testbit (allowed lo) b); naive_solver. }
    rewrite E, HL, IH. split.
    + intros [(?&?&?) ?]. by eapply av_bounded.
    + inversion 1; same_ret; [done|]. auto 10.
Qed.

(** *** The decision is total when no bounding type is bounded itself *)

(** What a loaded policy satisfies: types have attributes and objects, the
    constraints of a class are well-formed expressions, and a type that bounds
    another one is a type without bounds. *)
Definition type_ok (p : policydb) (t : Z) : Prop :=
  (∃ e, attrs_of p t = Ret e) ∧ ∃ d, type_struct p t = Ret d.

Definition bounds_ok (p : policydb) : Prop :=
  ∀ t d, type_struct p t = Ret d → bounds d ≠ 0 →
    type_ok p (bounds d) ∧ ∀ d', type_struct p (bounds d) = Ret d' → bounds d' = 0.

(** [R] holds of the contexts in use: the constraints can be evaluated on them. *)
Definition constraints_defined (p : policydb) (c : Z) (R : context_struct → context_struct → Prop) : Prop :=
  ∃ cl, class_struct p c = Ret cl ∧
    ∀ s t k, R s t → k ∈ constraints cl → ∃ ok, constraint_expr_eval_reason p s t None c k = Ret ok.

Lemma constraints_total p s t c l :
  (∀ k, k ∈ l → ∃ ok, constraint_expr_eval_reason p s t None c k = Ret ok) →
  ∀ avd, ∃ avd', ofold (constraint_step p s t c) l avd = Ret avd'.
Proof.
  induction l as [|k l IH]; intros Hl avd; simpl; [by eexists|].
  assert (∃ avd', constraint_step p s t c avd k = Ret avd') as [avd' ->].
  { unfold constraint_step. case_match; [|by eexists].
    destruct (Hl k ltac:(by left)) as [ok ->]. simpl. by eexists. }
  apply IH. intros k' Hk'. apply Hl. by right.
Qed.

Section total.
Context (p : policydb) (c : Z) (R : context_struct → context_struct → Prop).
Hypothesis Hclass : class_ok p c.
Hypothesis Hdef : constraints_defined p c R.

(** Without bounds the first level decides. *)
Lemma compute_av_unbounded fuel s t req avd0 r0 src :
  R s t → type_ok p (type s) → type_ok p (type t) →
  type_struct p (type s) = Ret src → bounds src = 0 →
  ∃ avd r, context_struct_compute_av (S fuel) p s t c req avd0 r0 = Ret (0, avd, r).
Proof.
  intros HR [[se Hse] _] [[tse Htse] _] Hsrc Hb.
  destruct Hdef as (cl&Hcl&Hk). cbn [context_struct_compute_av].
  rewrite class_ok_guard by done. rewrite Hcl. simpl. rewrite Hse. simpl. rewrite Htse. simpl.
  edestruct (constraints_total p s t c (constraints cl)) as [avd Hav]; [by eauto|].
  rewrite Hav. simpl. destruct (note_denied SEPOL_COMPUTEAV_RBAC _ _) as [req' r'].
  rewrite Hsrc. simpl. rewrite Hb. simpl. by eauto.
Qed.

Lemma compute_av_total fuel s t req avd0 r0 :
  (∀ ty ty', R (with_type s ty) (with_type t ty') ∧ R (with_type s ty) t) → R s t →
  bounds_ok p → type_ok p (type s) → type_ok p (type t) →
  ∃ avd r, context_struct_compute_av (S (S fuel)) p s t c req avd0 (Some r0) = Ret (0, avd, r).
Proof.
  intros HRt HR Hbo Hs Ht. pose proof Hs as [[se Hse] [src Hsrc]]. pose proof Ht as [[te Hte] [tgt Htgt]].
  destruct (Z.eq_dec (bounds src) 0) as [Hb|Hb]; [by eapply compute_av_unbounded|].
  destruct (Hbo _ _ Hsrc Hb) as [Hbt Hb0]. pose proof Hbt as [_ [bd Hbd]].
  set (t' := if bounds tgt =? 0 then t else with_type t (bounds tgt)).
  assert (Ht' : type_ok p (type t')).
  { unfold t'. destruct (Z.eqb_spec (bounds tgt) 0) as [|Hne]; [done|]. by destruct (Hbo _ _ Htgt Hne). }
  assert (HR' : R (with_type s (bounds src)) t').
  { unfold t'. destruct (bounds tgt =? 0); [by eapply (HRt _ 0)|by apply HRt]. }
  destruct Hdef as (cl&Hcl&Hk). remember (S fuel) as f. cbn [context_struct_compute_av].
  rewrite class_ok_guard by done. rewrite Hcl. simpl. rewrite Hse. simpl. rewrite Hte. simpl.
  edestruct (constraints_total p s t c (constraints cl)) as [avd Hav]; [by eauto|].
  rewrite Hav. simpl. destruct (note_denied SEPOL_COMPUTEAV_RBAC _ _) as [req' r'] eqn:En.
  rewrite Hsrc. simpl. destruct (Z.eqb_spec (bounds src) 0) as [|_]; [done|]. rewrite Htgt. simpl.
  destruct (compute_av_unbounded fuel (with_type s (bounds src)) t' req' zero_avd None bd HR' Hbt Ht' Hbd (Hb0 _ Hbd))
    as (lo&rr&Hlo). subst f. fold t'. rewrite Hlo. clear Hlo. cbn [mbind outcome_bind].
  destruct (Z.land (not32 (allowed lo)) _ =? 0); [by do 2 eexists|].
  assert (∃ r2, r' = Some r2) as [r2 ->].
  { unfold note_denied in En. simpl in En. repeat case_match; simplify_eq; simpl; by eauto. }
  simpl. by do 2 eexists.
Qed.
End total.

(** *** A bounding type with bounds of its own

    [reason] is NULL in the nested calls: a middle type that exceeds its own
    bounds makes the decision store through it. *)
Lemma compute_av_null_reason p c b : te_wf p → class_ok p c → 0 <= b < 32 →
  ∀ fuel s t req avd0 rc avd r,
  context_struct_compute_av fuel p s t c req avd0 None = Ret (rc, avd, r) →
  level_allows p s t c b → av_allows p c b s t.
Proof.
  intros Hwf Hc Hb fuel s t req avd0 rc avd r H HL.
  rewrite <- (compute_av_allowed p c b Hwf Hc Hb _ _ _ _ _ _ _ _ _ H).
  destruct fuel as [|fuel]; [done|].
  apply compute_av_level in H as (cl&sattr&tattr&lvl&src&Hcl&Hs&Ht&Hlvl&Hsrc&_&H); [|by apply class_ok_guard].
  rewrite <- (level_allowed p s t c b cl sattr tattr lvl) in HL by (destruct Hc; done || lia).
  by destruct H as [[_ ->]|(_&?&?&?&?&?&_&_&[[_ ->]|(_&?&_)])].
Qed.

(** ** Constraint expressions as trees

    A constraint is stored in reverse Polish notation.  On the notation of a
    tree whose evaluation needs at most CEXPR_MAXDEPTH stack cells, the stack
    machine computes the value of the tree. *)

Inductive cexp :=
  | CLeaf (e : constraint_expr)
  | CNot (a : cexp)
  | CAnd (a b : cexp)
  | COr (a b : cexp).

Definition operator (o : Z) : constraint_expr := CE o 0 0 ebitmap_init None.

Fixpoint postfix (a : cexp) : list constraint_expr :=
  match a with
  | CLeaf e => [e]
  | CNot a => postfix a ++ [operator CEXPR_NOT]
  | CAnd a b => postfix a ++ postfix b ++ [operator CEXPR_AND]
  | COr a b => postfix a ++ postfix b ++ [operator CEXPR_OR]
  end.

(** The stack cells the evaluation needs. *)
Fixpoint stack_need (a : cexp) : Z :=
  match a with
  | CLeaf _ => 1
  | CNot a => stack_need a
  | CAnd a b | COr a b => Z.max (stack_need a) (1 + stack_need b)
  end.

Section cexp.
Context (p : policydb) (s t : context_struct) (x : option context_struct).

(** The value a comparison pushes; [None] when it pushes none. *)
Definition leaf_value (e : constraint_expr) : option bool :=
  if (expr_type e =? CEXPR_ATTR) || (expr_type e =? CEXPR_NAMES) then
    match eval_expr_step p s t x e [] with
    | Ret (Next [v]) => Some v
    | _ => None
    end
  else None.

Fixpoint ceval (a : cexp) : option bool :=
  match a with
  | CLeaf e => leaf_value e
  | CNot a => negb <$> ceval a
  | CAnd a b => u ← ceval a; v ← ceval b; Some (u && v)
  | COr a b => u ← ceval a; v ← ceval b; Some (u || v)
  end.

(** A comparison does not look at the stack, except for its height. *)
Definition frame_step (stk : list bool) (r : step_result) : step_result :=
  match r with Next l => Next (l ++ stk) | Out => Out end.

Definition is_leaf (e : constraint_expr) : bool := (expr_type e =? CEXPR_ATTR) || (expr_type e =? CEXPR_NAMES).

Lemma eval_eq_frame o a b stk : eval_eq o a b stk = frame_step stk (eval_eq o a b []).
Proof. unfold eval_eq, push. by repeat case_match. Qed.

Lemma mls_ops_frame o l1 l2 stk : mls_ops o l1 l2 stk = frame_step stk (mls_ops o l1 l2 []).
Proof. unfold mls_ops, push. by repeat case_match. Qed.

Lemma eval_role_attr_frame o a b stk :
  eval_role_attr p o a b stk = r ← eval_role_attr p o a b []; mret (frame_step stk r).
Proof.
  unfold eval_role_attr. destruct (role_struct p a) as [r1| |]; [|done..].
  destruct (role_struct p b) as [r2| |]; [|done..]. cbn [mbind outcome_bind].
  rewrite (eval_eq_frame o a b stk). unfold push.
  destruct (o =? CEXPR_DOM), (o =? CEXPR_DOMBY), (o =? CEXPR_INCOMP), r1, r2; try done.
  all: cbn [mbind outcome_bind deref]; by case_match.
Qed.

Lemma leaf_frame e stk :
  is_leaf e = true → stack_full stk = false →
  eval_expr_step p s t x e stk = r ← eval_expr_step p s t x e []; mret (frame_step stk r).
Proof.
  intros Hl Hf. unfold is_leaf in Hl. unfold eval_expr_step.
  destruct (Z.eqb_spec (expr_type e) CEXPR_NOT) as [E|_]; [by rewrite E in Hl|].
  destruct (Z.eqb_spec (expr_type e) CEXPR_AND) as [E|_]; [by rewrite E in Hl|].
  destruct (Z.eqb_spec (expr_type e) CEXPR_OR) as [E|_]; [by rewrite E in Hl|].
  destruct (expr_type e =? CEXPR_ATTR).
  - unfold eval_attr. rewrite Hf. change (stack_full []) with false.
    rewrite (eval_eq_frame _ (user s) (user t) stk), (eval_eq_frame _ (type s) (type t) stk), eval_role_attr_frame.
    destruct (attr e =? CEXPR_USER), (attr e =? CEXPR_TYPE), (attr e =? CEXPR_ROLE); try done.
    destruct (mls_operands _ _ _) as [[l1 l2]|]; [|done]. by rewrite mls_ops_frame.
  - destruct (expr_type e =? CEXPR_NAMES); [|done]. unfold eval_names. rewrite Hf.
    change (stack_full []) with false. unfold push. by repeat case_match.
Qed.

Lemma leaf_push e v stk :
  leaf_value e = Some v → Z.of_nat (length stk) < CEXPR_MAXDEPTH →
  eval_expr_step p s t x e stk = Ret (Next (v :: stk)).
Proof.
  intros Hv Hl. unfold leaf_value in Hv. fold (is_leaf e) in Hv.
  destruct (is_leaf e) eqn:El; [|done].
  rewrite leaf_frame; [|done|unfold stack_full; zcase; [lia|done]].
  by destruct (eval_expr_step p s t x e []) as [[[|? [|? ?]]|]| |]; simplify_eq.
Qed.

Lemma postfix_eval a v : ceval a = Some v → ∀ stk rest,
  Z.of_nat (length stk) + stack_need a <= CEXPR_MAXDEPTH →
  eval_exprs p s t x (postfix a ++ rest) stk = eval_exprs p s t x rest (v :: stk).
Proof.
  revert v. induction a as [e|a IH|a IHa b IHb|a IHa b IHb]; intros v Hv stk rest Hn; simpl in Hv, Hn.
  - simpl. rewrite (leaf_push e v) by (done || lia). done.
  - apply fmap_Some in Hv as (u&Hu&->). cbn [postfix]. rewrite <- app_assoc, (IH u Hu) by done. done.
  - apply bind_Some in Hv as (u&Hu&Hv). apply bind_Some in Hv as (w&Hw&Hv). injection Hv as <-.
    cbn [postfix]. rewrite <- app_assoc, (IHa u Hu), <- app_assoc, (IHb w Hw) by (simpl; lia). done.
  - apply bind_Some in Hv as (u&Hu&Hv). apply bind_Some in Hv as (w&Hw&Hv). injection Hv as <-.
    cbn [postfix]. rewrite <- app_assoc, (IHa u Hu), <- app_assoc, (IHb w Hw) by (simpl; lia). done.
Qed.

Lemma constraint_eval_tree c k a v cname :
  val_to_name p SYM_CLASSES (c - 1) = Ret cname → expr k = postfix a → ceval a = Some v →
  stack_need a <= CEXPR_MAXDEPTH →
  constraint_expr_eval_reason p s t x c k = Ret v.
Proof.
  intros Hc Hk Hv Hn. unfold constraint_expr_eval_reason. rewrite Hc, Hk. cbn [mbind outcome_bind].
  rewrite <- (app_nil_r (postfix a)), (postfix_eval a v Hv) by done. done.
Qed.
End cexp.

(** A stack that would grow beyond CEXPR_MAXDEPTH makes the constraint false. *)
Lemma stack_overflow p s t x e l stk :
  is_leaf e = true → Z.of_nat (length stk) = CEXPR_MAXDEPTH →
  eval_exprs p s t x (e :: l) stk = Ret false.
Proof.
  intros Hl Hs. assert (Hf : stack_full stk = true) by by apply Z.eqb_eq.
  unfold is_leaf in Hl. simpl. unfold eval_expr_step.
  destruct (Z.eqb_spec (expr_type e) CEXPR_NOT) as [E|_]; [by rewrite E in Hl|].
  destruct (Z.eqb_spec (expr_type e) CEXPR_AND) as [E|_]; [by rewrite E in Hl|].
  destruct (Z.eqb_spec (expr_type e) CEXPR_OR) as [E|_]; [by rewrite E in Hl|].
  unfold eval_attr, eval_names. rewrite Hf.
  destruct (expr_type e =? CEXPR_ATTR); [done|]. by destruct (expr_type e =? CEXPR_NAMES).
Qed.

(** ** Validation of transitions

    [sepol_validate_transition] evaluates the constraints with the class 0, so
    its explanation reads the name before the first class. *)
Lemma val_to_name_before p k : val_to_name p k (0 - 1) = Undef.
Proof. unfold val_to_name. by destruct (at_index (sym_val_to_name p) k). Qed.

Lemma validate_transition_undef p o n t c cl k ks :
  class_ok p c → class_struct p c = Ret cl → validatetrans cl = k :: ks →
  sepol_validate_transition p (Some o) (Some n) (Some t) c = Undef.
Proof.
  intros Hc Hcl Hv. unfold sepol_validate_transition. rewrite class_ok_guard by done.
  unfold class_struct in Hcl. apply ret_bind_inv in Hcl as (r&->&Hr). cbn [mbind outcome_bind].
  rewrite Hr. cbn [mbind outcome_bind]. rewrite Hv. cbn [validate_constraints].
  unfold constraint_expr_eval_reason. by rewrite val_to_name_before.
Qed.

(** The variant with a class accepts exactly the transitions that satisfy every
    [validatetrans] constraint. *)
Lemma validate_constraints_ok p o n t c l :
  validate_constraints_reason p o n t c l = Ret 0 ↔
  Forall (λ k, constraint_expr_eval_reason p o n (Some t) c k = Ret true) l.
Proof.
  induction l as [|k l IH]; [by split|]. cbn [validate_constraints_reason].
  rewrite Forall_cons, <- IH.
  destruct (constraint_expr_eval_reason p o n (Some t) c k) as [[|]| |]; cbn [mbind outcome_bind negb];
    split; try done; naive_solver.
Qed.

Lemma validate_transition_reason_spec p o n t c cl :
  class_ok p c → class_struct p c = Ret cl →
  sepol_validate_transition_reason_buffer p (Some o) (Some n) (Some t) c = Ret 0 ↔
  Forall (λ k, constraint_expr_eval_reason p o n (Some t) c k = Ret true) (validatetrans cl).
Proof.
  intros Hc Hcl. unfold sepol_validate_transition_reason_buffer. rewrite class_ok_guard by done.
  unfold class_struct in Hcl. apply ret_bind_inv in Hcl as (r&->&Hr). cbn [mbind outcome_bind].
  rewrite Hr. cbn [mbind outcome_bind]. apply validate_constraints_ok.
Qed.
