(* ===== verification/ClassFile.v ===== *)
(** * Permissions, classes and constraints in a policy file

    policydb.c: [perm_read], [common_read], [read_cons_helper], [class_read];
    constraint.c: [constraint_expr_init]; write.c: [perm_write], [common_write],
    [write_cons_helper], [class_write].  Besides the round trips: the reader
    accepts only constraints that the security server can evaluate without
    leaving its stack ([valid_eval]). *)

From S2P Require Import Prelude Policyfile Ebitmap EbitmapFile Hashtab SymtabFile Avtab Context Policydb Mls MlsFile Cond Services.

Definition PERM_SYMTAB_SIZE : Z := 32.
Definition POLICYDB_VERSION_VALIDATETRANS : Z := 19.
Definition MOD_POLICYDB_VERSION_VALIDATETRANS : Z := 5.
Definition POLICYDB_VERSION_NEW_OBJECT_DEFAULTS : Z := 27.
Definition MOD_POLICYDB_VERSION_NEW_OBJECT_DEFAULTS : Z := 15.
Definition POLICYDB_VERSION_DEFAULT_TYPE : Z := 28.
Definition MOD_POLICYDB_VERSION_DEFAULT_TYPE : Z := 16.
Definition POLICYDB_VERSION_CONSTRAINT_NAMES : Z := 29.

(** ** Permissions and commons *)

(** The entry [perm_read] inserts. *)
Definition perm_entry : R (option (string * perm_datum)) :=
  _ ← need (-1);
  buf ← next_u32s 2;
  key ← str_read (word buf 0);
  mret (Some (key, PD (word buf 1))).

Definition perm_read (h : hashtab_t string perm_datum) : R (hashtab_t string perm_datum) :=
  on_error (-1) (entry_read perm_entry h).

(** [for (i = 0; i < nel; i++) perm_read(...)] *)
Definition perms_read (nel : Z) (h : hashtab_t string perm_datum) : R (hashtab_t string perm_datum) :=
  table_read perm_entry (Z.to_nat nel) h.

Definition symtab_create {D} (sz : Z) : R (symtab D) :=
  '(rc, s) ← in_mem (λ m, let '(rc, s, m) := symtab_init sz m in ((rc, s), m));
  _ ← guard_or (-1) (rc =? 0);
  must s.

Definition common_entry : R (option (string * common_datum)) :=
  _ ← need (-1);
  buf ← next_u32s 4;
  let len := word buf 0 in
  _ ← guard_or (-1) (negb (zero_or_saturated len));
  perms ← symtab_create PERM_SYMTAB_SIZE;
  key ← key_read len;
  h ← perms_read (word buf 3) (table perms);
  mret (Some (key, CMD (word buf 1) (SYM h (word buf 2)))).

Definition common_read (h : hashtab_t string common_datum) : R (hashtab_t string common_datum) :=
  on_error (-1) (entry_read common_entry h).

Definition perm_write (key : string) (d : perm_datum) : writer :=
  put_u32s [strlen key; pd_value d];;; put_string key.

(** [table->nel] *)
Definition with_nel {D} (s : symtab D) (w : Z → writer) : writer := λ st,
  match deref (table s) with
  | Ret t => w (nel t) st
  | Exit z => Exit z
  | Undef => Undef
  end.

Definition common_write (key : string) (d : common_datum) : writer :=
  with_nel (cm_permissions d) (λ n, put_u32s [strlen key; cm_value d; nprim (cm_permissions d); n]);;;
  put_string key;;;
  hashtab_map (table (cm_permissions d)) perm_write.

(** ** Constraints *)

(** How an expression moves [depth]; [None] is [return -1]. *)
Definition depth_step (allowxtarget : bool) (ty a depth : Z) : option Z :=
  if ty =? CEXPR_NOT then if depth <? 0 then None else Some depth
  else if (ty =? CEXPR_AND) || (ty =? CEXPR_OR) then if depth <? 1 then None else Some (depth - 1)
  else if ty =? CEXPR_ATTR then if depth =? CEXPR_MAXDEPTH - 1 then None else Some (depth + 1)
  else if ty =? CEXPR_NAMES then
    if negb allowxtarget && has_bits a CEXPR_XTARGET then None
    else if depth =? CEXPR_MAXDEPTH - 1 then None else Some (depth + 1)
  else None.

(** Whether the names of an expression come with a type set. *)
Definition has_type_names (p : policydb) : bool :=
  negb (policy_type p =? POLICY_KERN) || (POLICYDB_VERSION_CONSTRAINT_NAMES <=? policyvers p).

Definition empty_type_set : type_set := TS ebitmap_init ebitmap_init 0.

Definition some_or_fail {A} (rc : Z) (o : option A) : R A :=
  match o with Some a => mret a | None => fail rc end.

(** One expression, and the new depth.  Two allocations: the expression and its
    [type_names] ([constraint_expr_init]). *)
Definition read_cons_expr (p : policydb) (allowxtarget : bool) (depth : Z) : R (constraint_expr * Z) :=
  _ ← need (-1);
  _ ← need (-1);
  buf ← next_u32s 3;
  let ty := word buf 0 in
  depth ← some_or_fail (-1) (depth_step allowxtarget ty (word buf 1) depth);
  if ty =? CEXPR_NAMES then
    ns ← ebitmap_read;
    ts ← (if has_type_names p then type_set_read else mret empty_type_set);
    mret (CE ty (word buf 1) (word buf 2) ns (Some ts), depth)
  else mret (CE ty (word buf 1) (word buf 2) ebitmap_init (Some empty_type_set), depth).

Fixpoint read_cons_exprs (p : policydb) (allowxtarget : bool) (n : nat) (depth : Z) : R (list constraint_expr * Z) :=
  match n with
  | O => mret ([], depth)
  | S n' =>
      '(e, depth) ← read_cons_expr p allowxtarget depth;
      '(l, depth) ← read_cons_exprs p allowxtarget n' depth;
      mret (e :: l, depth)
  end.

Definition read_cons_node (p : policydb) (allowxtarget : bool) : R constraint_node :=
  _ ← need (-1);
  buf ← next_u32s 2;
  '(l, depth) ← read_cons_exprs p allowxtarget (Z.to_nat (word buf 1)) (-1);
  _ ← guard_or (-1) (depth =? 0);
  mret (CN (word buf 0) l).

Definition read_cons_helper (p : policydb) (ncons : Z) (allowxtarget : bool) : R (list constraint_node) :=
  on_error (-1) (repeat_read (Z.to_nat ncons) (read_cons_node p allowxtarget)).

(** [e->type_names] is dereferenced when it is written. *)
Definition write_type_names (o : option type_set) : writer := λ s,
  match o with Some ts => type_set_write ts s | None => Undef end.

Definition write_cons_expr (p : policydb) (allowxtarget : bool) (e : constraint_expr) : writer :=
  put_u32s [expr_type e; attr e; op e];;;
  if expr_type e =? CEXPR_NAMES then
    if negb allowxtarget && has_bits (attr e) CEXPR_XTARGET then mret POLICYDB_ERROR
    else
      ebitmap_write (names e);;;
      if has_type_names p then write_type_names (type_names e) else mret POLICYDB_SUCCESS
  else mret POLICYDB_SUCCESS.

Definition write_cons_node (p : policydb) (allowxtarget : bool) (c : constraint_node) : writer :=
  put_u32s [cn_permissions c; Z.of_nat (length (expr c))];;;
  write_all (write_cons_expr p allowxtarget) (expr c).

Definition write_cons_helper (p : policydb) (l : list constraint_node) (allowxtarget : bool) : writer :=
  write_all (write_cons_node p allowxtarget) l.

(** ** Classes *)

(** The common a class inherits from. *)
Definition read_comkey (p : policydb) (len2 : Z) : R (option string * option common_datum) :=
  if len2 =? 0 then mret (None, None)
  else
    k ← key_read len2;
    d ← some_or_fail (-1) (hashtab_search (table (p_commons p)) k);
    mret (Some k, Some d).

Definition read_validatetrans (p : policydb) : R (list constraint_node) :=
  if kern_or_base p POLICYDB_VERSION_VALIDATETRANS MOD_POLICYDB_VERSION_VALIDATETRANS then
    buf ← next_u32s 1; read_cons_helper p (word buf 0) true
  else mret [].

Definition has_defaults (p : policydb) : bool :=
  kern_or_base p POLICYDB_VERSION_NEW_OBJECT_DEFAULTS MOD_POLICYDB_VERSION_NEW_OBJECT_DEFAULTS.
Definition has_default_type (p : policydb) : bool :=
  kern_or_base p POLICYDB_VERSION_DEFAULT_TYPE MOD_POLICYDB_VERSION_DEFAULT_TYPE.

Definition class_entry (p : policydb) : R (option (string * class_datum)) :=
  _ ← need (-1);
  buf ← next_u32s 6;
  let len := word buf 0 in
  _ ← guard_or (-1) (negb (zero_or_saturated len));
  let len2 := word buf 1 in
  _ ← guard_or (-1) (negb (is_saturated len2));
  perms ← symtab_create PERM_SYMTAB_SIZE;
  key ← key_read len;
  '(ck, cd) ← read_comkey p len2;
  h ← perms_read (word buf 4) (table perms);
  cons ← read_cons_helper p (word buf 5) false;
  vt ← read_validatetrans p;
  d1 ← (if has_defaults p then next_u32s 3 else mret [0; 0; 0]);
  d2 ← (if has_default_type p then next_u32s 1 else mret [0]);
  mret (Some (key, CLD (word buf 2) ck cd (SYM h (word buf 3)) cons vt
                       (word d1 0) (word d1 1) (word d2 0) (word d1 2))).

Definition put_comkey (o : option string) : writer :=
  match o with Some k => put_string k | None => mret POLICYDB_SUCCESS end.

Definition nel_or_0 {D} (s : symtab D) : Z := match table s with Some t => nel t | None => 0 end.

Definition class_write (p : policydb) (key : string) (d : class_datum) : writer :=
  put_u32s [strlen key; match comkey d with Some k => strlen k | None => 0 end; c_value d;
            nprim (permissions d); nel_or_0 (permissions d); Z.of_nat (length (constraints d))];;;
  put_string key;;;
  put_comkey (comkey d);;;
  hashtab_map (table (permissions d)) perm_write;;;
  write_cons_helper p (constraints d) false;;;
  (if kern_or_base p POLICYDB_VERSION_VALIDATETRANS MOD_POLICYDB_VERSION_VALIDATETRANS then
     put_u32s [Z.of_nat (length (validatetrans d))];;; write_cons_helper p (validatetrans d) true
   else mret POLICYDB_SUCCESS);;;
  (if has_defaults p then put_u32s [default_user d; default_role d; default_range d] else mret POLICYDB_SUCCESS);;;
  (if has_default_type p then put_u32s [default_type d] else mret POLICYDB_SUCCESS).

(** ** Formats *)

Definition perm_bytes (key : string) (d : perm_datum) : list Z :=
  u32s [strlen key; pd_value d] ++ string_bytes key.

Definition common_bytes (key : string) (d : common_datum) : list Z :=
  u32s [strlen key; cm_value d; nprim (cm_permissions d); nel_or_0 (cm_permissions d)] ++
  string_bytes key ++ table_bytes perm_bytes (table (cm_permissions d)).

Definition cons_expr_bytes (p : policydb) (e : constraint_expr) : list Z :=
  u32s [expr_type e; attr e; op e] ++
  if expr_type e =? CEXPR_NAMES then
    ebitmap_bytes (names e) ++
    if has_type_names p then type_set_bytes (default empty_type_set (type_names e)) else []
  else [].

Definition cons_node_bytes (p : policydb) (c : constraint_node) : list Z :=
  u32s [cn_permissions c; Z.of_nat (length (expr c))] ++ (expr c ≫= cons_expr_bytes p).

Definition class_bytes (p : policydb) (key : string) (d : class_datum) : list Z :=
  u32s [strlen key; match comkey d with Some k => strlen k | None => 0 end; c_value d;
        nprim (permissions d); nel_or_0 (permissions d); Z.of_nat (length (constraints d))] ++
  string_bytes key ++
  (match comkey d with Some k => string_bytes k | None => [] end) ++
  table_bytes perm_bytes (table (permissions d)) ++
  (constraints d ≫= cons_node_bytes p) ++
  (if kern_or_base p POLICYDB_VERSION_VALIDATETRANS MOD_POLICYDB_VERSION_VALIDATETRANS then
     u32s [Z.of_nat (length (validatetrans d))] ++ (validatetrans d ≫= cons_node_bytes p) else []) ++
  (if has_defaults p then u32s [default_user d; default_role d; default_range d] else []) ++
  (if has_default_type p then u32s [default_type d] else []).

(** *** What a file can hold *)

(** A key that is read back: not empty. *)
Definition symbol_ok (k : string) : Prop := name_ok k ∧ k ≠ EmptyString.

Definition perm_ok (k : string) (d : perm_datum) : Prop := symbol_ok k ∧ u32_ok (pd_value d).

(** A symbol table of [sz] chains whose symbols satisfy [P]. *)
Record symtab_ok {D} (sz : Z) (P : string → D → Prop) (s : symtab D) : Prop := {
  so_wf : hashtab_wf (table s);
  so_some : is_Some (table s);
  so_size : table_size (table s) = sz;
  so_nprim : u32_ok (nprim s);
  so_length : Z.of_nat (length (table_entries (table s))) < 2 ^ 32;
  so_all : all_entries P (table s)
}.

Definition common_ok (k : string) (d : common_datum) : Prop :=
  symbol_ok k ∧ u32_ok (cm_value d) ∧ symtab_ok PERM_SYMTAB_SIZE perm_ok (cm_permissions d).

(** The depth after a list of expressions. *)
Fixpoint depth_run (allowxtarget : bool) (l : list constraint_expr) (depth : Z) : option Z :=
  match l with
  | [] => Some depth
  | e :: l' =>
      match depth_step allowxtarget (expr_type e) (attr e) depth with
      | Some depth => depth_run allowxtarget l' depth
      | None => None
      end
  end.

(** The expressions of a node leave one value on the stack. *)
Definition balanced (allowxtarget : bool) (c : constraint_node) : Prop :=
  depth_run allowxtarget (expr c) (-1) = Some 0.

Definition cons_expr_ok (p : policydb) (e : constraint_expr) : Prop :=
  u32_ok (expr_type e) ∧ u32_ok (attr e) ∧ u32_ok (op e) ∧
  (expr_type e = CEXPR_NAMES → ebitmap_wf (names e) ∧
     (has_type_names p = true → ∃ ts, type_names e = Some ts ∧ type_set_ok ts)).

Definition cons_node_ok (p : policydb) (allowxtarget : bool) (c : constraint_node) : Prop :=
  u32_ok (cn_permissions c) ∧ Z.of_nat (length (expr c)) < 2 ^ 32 ∧
  Forall (cons_expr_ok p) (expr c) ∧ balanced allowxtarget c.

Definition cons_list_ok (p : policydb) (allowxtarget : bool) (l : list constraint_node) : Prop :=
  Z.of_nat (length l) < 2 ^ 32 ∧ Forall (cons_node_ok p allowxtarget) l.

(** What a version of the format keeps of an expression, a node, a class. *)
Definition stored_expr (p : policydb) (e : constraint_expr) : constraint_expr :=
  let ns := expr_type e =? CEXPR_NAMES in
  CE (expr_type e) (attr e) (op e) (if ns then names e else ebitmap_init)
     (Some (if ns && has_type_names p then default empty_type_set (type_names e) else empty_type_set)).

Definition stored_node (p : policydb) (c : constraint_node) : constraint_node :=
  CN (cn_permissions c) (stored_expr p <$> expr c).

Definition stored_class (p : policydb) (d : class_datum) : class_datum :=
  CLD (c_value d) (comkey d) (comkey d ≫= hashtab_search (table (p_commons p))) (permissions d)
      (stored_node p <$> constraints d)
      (if kern_or_base p POLICYDB_VERSION_VALIDATETRANS MOD_POLICYDB_VERSION_VALIDATETRANS
       then stored_node p <$> validatetrans d else [])
      (if has_defaults p then default_user d else 0)
      (if has_defaults p then default_role d else 0)
      (if has_default_type p then default_type d else 0)
      (if has_defaults p then default_range d else 0).

Record class_ok (p : policydb) (k : string) (d : class_datum) : Prop := {
  co_key : symbol_ok k;
  co_com : ∀ ck, comkey d = Some ck → symbol_ok ck ∧ is_Some (hashtab_search (table (p_commons p)) ck);
  co_value : u32_ok (c_value d);
  co_perms : symtab_ok PERM_SYMTAB_SIZE perm_ok (permissions d);
  co_cons : cons_list_ok p false (constraints d);
  co_vt : kern_or_base p POLICYDB_VERSION_VALIDATETRANS MOD_POLICYDB_VERSION_VALIDATETRANS = true →
          cons_list_ok p true (validatetrans d);
  co_defaults : Forall u32_ok [default_user d; default_role d; default_range d; default_type d]
}.

(** ** Emission *)

Lemma symbol_short k : symbol_ok k → strlen k < 2 ^ 32.
Proof. intros [[_ H] _]. lia. Qed.

Lemma emits_perm c k d : perm_ok k d → emits c (perm_write k d) (perm_bytes k d).
Proof. intros [Hk _]. apply emits_then; [by apply emits_u32s|]. by apply emits_string, symbol_short. Qed.

Lemma emits_perms c s : symtab_ok PERM_SYMTAB_SIZE perm_ok s →
  emits c (hashtab_map (table s) perm_write) (table_bytes perm_bytes (table s)).
Proof. intros Hs. apply emits_table; [apply Hs|]. intros k d Hd. by apply emits_perm, (so_all _ _ _ Hs). Qed.

Lemma emits_common c k d : common_ok k d → emits c (common_write k d) (common_bytes k d).
Proof.
  intros (Hk&Hv&Hs). apply emits_then.
  - pose proof (so_some _ _ _ Hs) as [t Et]. pose proof (emits_u32s c [strlen k; cm_value d; nprim (cm_permissions d); nel t]) as E.
    unfold with_nel, nel_or_0. rewrite Et. by apply E.
  - apply emits_then; [by apply emits_string, symbol_short|by apply emits_perms].
Qed.

Lemma emits_if c (b : bool) w bs : (b = true → emits c w bs) →
  emits c (if b then w else mret POLICYDB_SUCCESS) (if b then bs else []).
Proof. destruct b; [auto|intros _; apply emits_nil]. Qed.

Lemma depth_names_xtarget ax a depth d : depth_step ax CEXPR_NAMES a depth = Some d → negb ax && has_bits a CEXPR_XTARGET = false.
Proof. unfold depth_step. cbn. by destruct (negb ax && has_bits a CEXPR_XTARGET). Qed.

Lemma emits_cons_expr c p ax e :
  cons_expr_ok p e → (expr_type e = CEXPR_NAMES → negb ax && has_bits (attr e) CEXPR_XTARGET = false) →
  emits c (write_cons_expr p ax e) (cons_expr_bytes p e).
Proof.
  intros (_&_&_&Hn) Hx. apply emits_then; [by apply emits_u32s|].
  destruct (Z.eqb_spec (expr_type e) CEXPR_NAMES) as [E|E]; [|apply emits_nil].
  rewrite (Hx E). destruct (Hn E) as [_ Ht]. apply emits_then; [apply emits_ebitmap|].
  apply emits_if. intros Hh. destruct (Ht Hh) as (ts&->&_). apply emits_type_set.
Qed.

Lemma depth_run_cons ax e l depth d :
  depth_run ax (e :: l) depth = Some d →
  ∃ depth', depth_step ax (expr_type e) (attr e) depth = Some depth' ∧ depth_run ax l depth' = Some d.
Proof. cbn [depth_run]. destruct (depth_step _ _ _ _) as [x|]; [by exists x|done]. Qed.

Lemma emits_cons_node c p ax n : cons_node_ok p ax n → emits c (write_cons_node p ax n) (cons_node_bytes p n).
Proof.
  intros (_&_&He&Hb). apply emits_then; [by apply emits_u32s|]. unfold balanced in Hb.
  revert Hb. generalize (-1). induction He as [|e l He Hl IH]; intros depth Hb; [apply emits_nil|].
  apply depth_run_cons in Hb as (depth'&Hd&Hb). rewrite bind_cons. apply emits_then; [|by eapply IH].
  apply emits_cons_expr; [done|]. intros E. rewrite E in Hd. by eapply depth_names_xtarget.
Qed.

Lemma emits_cons c p ax l : cons_list_ok p ax l → emits c (write_cons_helper p l ax) (l ≫= cons_node_bytes p).
Proof.
  intros [_ Hl]. apply emits_all. eapply Forall_impl; [exact Hl|]. intros n Hn. by apply emits_cons_node.
Qed.

Lemma emits_class c p k d : class_ok p k d → emits c (class_write p k d) (class_bytes p k d).
Proof.
  intros H. apply emits_then; [by apply emits_u32s|].
  apply emits_then; [by apply emits_string, symbol_short, H|].
  apply emits_then.
  { pose proof (co_com _ _ _ H) as Hc. unfold put_comkey. destruct (comkey d) as [ck|]; [|apply emits_nil].
    destruct (Hc ck eq_refl) as [Hck _]. by apply emits_string, symbol_short. }
  apply emits_then; [apply emits_perms, H|]. apply emits_then; [apply emits_cons, H|].
  apply emits_then.
  { apply emits_if. intros E. apply emits_then; [by apply emits_u32s|]. by apply emits_cons, (co_vt _ _ _ H). }
  apply emits_then; apply emits_if; intros _; by apply emits_u32s.
Qed.

(** ** What is written is read back *)

(** An empty table of [sz] chains. *)
Definition empty_table {K D} (sz : Z) : hashtab_t K D := Some (HT (replicate (Z.to_nat sz) []) sz 0).

Lemma empty_table_wf {K D} `{HashKeyLaws K} `{Countable K} sz : 0 < sz →
  hashtab_wf (empty_table (K := K) (D := D) sz) ∧ to_map (empty_table (K := K) (D := D) sz) = ∅.
Proof.
  intros Hs. pose proof (hashtab_create_correct (K := K) (D := D) sz [] Hs) as Hc. cbn in Hc.
  destruct Hc as (?&?&_). done.
Qed.

Section parse.
Context (c : bool).

Lemma parses_symtab_create {D} sz : parses c (symtab_create (D := D) sz) [] (SYM (empty_table sz) 0).
Proof.
  eapply parses_bind_nil with (a := (0, Some (SYM (empty_table sz) 0))).
  - apply parses_in_mem. intros m Hm. unfold symtab_init, hashtab_create.
    destruct (malloc_plenty m Hm) as (m1&->&Hm1). cbn [negb].
    destruct (malloc_plenty m1 Hm1) as (m2&->&Hm2). exists m2. done.
  - apply parses_guard_bind; [done|]. intros rest out m Hm. by exists m.
Qed.

Lemma symbol_len_ok k : symbol_ok k → u32_ok (strlen k).
Proof. intros [[_ H] _]. pose proof (strlen_nonneg k). red. lia. Qed.

Lemma symbol_len_guard k : symbol_ok k → negb (zero_or_saturated (strlen k)) = true.
Proof.
  intros [[_ H] Hk]. unfold zero_or_saturated, is_saturated. destruct k; [done|].
  unfold strlen in *. cbn [String.length] in *. zcase; lia.
Qed.

Lemma symbol_len_pos k : symbol_ok k → (strlen k =? 0) = false.
Proof. intros [_ Hk]. destruct k; [done|]. unfold strlen. cbn [String.length]. zcase; lia. Qed.

Lemma parses_symbol k : symbol_ok k → parses c (key_read (strlen k)) (string_bytes k) k.
Proof. intros [Hk _]. by apply parses_key_read. Qed.

Lemma parses_perm k d : perm_ok k d → parses c perm_entry (perm_bytes k d) (Some (k, d)).
Proof.
  destruct d as [v]. intros [Hk Hv]. unfold perm_entry, perm_bytes. apply parses_need_bind.
  eapply parses_bind; [apply parses_u32s; [done|in_range; [by apply symbol_len_ok|apply Hv]]|].
  cbn [pd_value]. change (word [strlen k; v] 0) with (strlen k). change (word [strlen k; v] 1) with v.
  eapply parses_map; [|done]. apply parses_str_read; [apply Hk|done|apply Hk].
Qed.

Lemma nel_entries {D} sz (P : string → D → Prop) s : symtab_ok sz P s →
  nel_or_0 s = Z.of_nat (length (table_entries (table s))).
Proof.
  intros Hs. destruct (so_some _ _ _ Hs) as [t Et]. pose proof (so_wf _ _ _ Hs) as Hw.
  pose proof (so_length _ _ _ Hs) as Hl. unfold nel_or_0. rewrite Et in *. destruct Hw as [_ ->].
  cbn in Hl. by rewrite u32_small by lia.
Qed.

Lemma nel_range {D} sz (P : string → D → Prop) s : symtab_ok sz P s → u32_ok (nel_or_0 s).
Proof. intros Hs. rewrite (nel_entries _ _ _ Hs). pose proof (so_length _ _ _ Hs). red. lia. Qed.

Lemma parses_perms s : symtab_ok PERM_SYMTAB_SIZE perm_ok s →
  parses c (perms_read (nel_or_0 s) (empty_table PERM_SYMTAB_SIZE)) (table_bytes perm_bytes (table s)) (table s).
Proof.
  intros Hs. unfold perms_read. rewrite (nel_entries _ _ _ Hs), Nat2Z.id.
  destruct (empty_table_wf (K := string) (D := perm_datum) PERM_SYMTAB_SIZE ltac:(done)) as [Hw Em].
  apply parses_table; [apply Hs|apply Hs|done|done|done|symmetry; apply Hs|].
  intros k d Hd. split; [done|]. by apply parses_perm, (so_all _ _ _ Hs).
Qed.

Lemma parses_common k d : common_ok k d → parses c common_entry (common_bytes k d) (Some (k, d)).
Proof.
  destruct d as [v s]. intros (Hk&Hv&Hs). cbn [cm_value cm_permissions] in *.
  unfold common_entry, common_bytes. cbn [cm_value cm_permissions]. apply parses_need_bind.
  pose proof (nel_range _ _ _ Hs). pose proof (so_nprim _ _ _ Hs). pose proof (symbol_len_ok k Hk).
  set (l := [strlen k; v; nprim s; nel_or_0 s]).
  eapply parses_bind; [by apply parses_u32s; [|in_range]|].
  change (word l 0) with (strlen k). change (word l 1) with v. change (word l 2) with (nprim s).
  change (word l 3) with (nel_or_0 s).
  apply parses_guard_bind; [by apply symbol_len_guard|].
  eapply parses_bind_nil; [apply parses_symtab_create|]. cbn [table].
  eapply parses_bind; [by apply parses_symbol|]. eapply parses_map; [by apply parses_perms|]. by destruct s.
Qed.

Lemma parses_cons_expr p ax e depth depth' :
  cons_expr_ok p e → depth_step ax (expr_type e) (attr e) depth = Some depth' →
  parses c (read_cons_expr p ax depth) (cons_expr_bytes p e) (stored_expr p e, depth').
Proof.
  destruct e as [ty a o ns tn]. intros (Hty&Ha&Ho&Hn) Hd. cbn [expr_type attr op names type_names] in *.
  unfold read_cons_expr, cons_expr_bytes, stored_expr. cbn [expr_type attr op names type_names].
  do 2 apply parses_need_bind.
  eapply parses_bind; [by apply parses_u32s; [|in_range]|].
  change (word [ty; a; o] 0) with ty. change (word [ty; a; o] 1) with a. change (word [ty; a; o] 2) with o.
  eapply parses_bind_nil with (a := depth'). { rewrite Hd. apply parses_ret. }
  destruct (Z.eqb_spec ty CEXPR_NAMES) as [E|E]; cbn [andb]; [|apply parses_ret].
  destruct (Hn E) as [Hns Ht]. eapply parses_bind; [by apply parses_ebitmap|].
  eapply parses_map; [|done]. destruct (has_type_names p); [|apply parses_ret].
  destruct (Ht eq_refl) as (ts&->&Hts). by apply parses_type_set.
Qed.

Lemma parses_cons_node p ax n :
  cons_node_ok p ax n → parses c (read_cons_node p ax) (cons_node_bytes p n) (stored_node p n).
Proof.
  destruct n as [pm l]. intros (Hpm&Hl&He&Hb). unfold balanced in Hb. cbn [cn_permissions expr] in *.
  unfold read_cons_node, cons_node_bytes, stored_node. cbn [cn_permissions expr]. apply parses_need_bind.
  eapply parses_bind; [by apply parses_u32s; [|in_range]|].
  change (word [pm; _] 0) with pm. change (word [pm; Z.of_nat (length l)] 1) with (Z.of_nat (length l)).
  rewrite Nat2Z.id.
  eapply parses_bind_r with (a := (stored_expr p <$> l, 0)); [|by apply parses_guard_bind, parses_ret].
  revert Hb. generalize (-1). clear Hl. induction He as [|e l He Hl IH]; intros depth Hb.
  - injection Hb as ->. apply parses_ret.
  - apply depth_run_cons in Hb as (depth'&Hd&Hb). rewrite bind_cons. cbn [length read_cons_exprs].
    eapply parses_bind; [by apply parses_cons_expr|].
    eapply parses_bind_r; [by apply IH|apply parses_ret].
Qed.

Lemma parses_cons p ax l : cons_list_ok p ax l →
  parses c (read_cons_helper p (Z.of_nat (length l)) ax) (l ≫= cons_node_bytes p) (stored_node p <$> l).
Proof.
  intros [_ Hl]. apply parses_on_error. rewrite Nat2Z.id.
  induction Hl as [|n l Hn Hl IH]; [apply parses_ret|]. rewrite bind_cons. cbn [length repeat_read].
  eapply parses_bind; [by apply parses_cons_node|]. by eapply parses_map.
Qed.

(** The optional words of a class. *)
Lemma parses_words_if (b : bool) n l l0 : Z.of_nat (length l) = n → Forall u32_ok l →
  parses c (if b then next_u32s n else mret l0) (if b then u32s l else []) (if b then l else l0).
Proof. intros Hn Hl. destruct b; [by apply parses_u32s|apply parses_ret]. Qed.

Lemma parses_comkey p o :
  (∀ ck, o = Some ck → symbol_ok ck ∧ is_Some (hashtab_search (table (p_commons p)) ck)) →
  parses c (read_comkey p (match o with Some k => strlen k | None => 0 end))
    (match o with Some k => string_bytes k | None => [] end)
    (o, o ≫= hashtab_search (table (p_commons p))).
Proof.
  intros Ho. unfold read_comkey. destruct o as [ck|]; [|apply parses_ret].
  destruct (Ho ck eq_refl) as [Hck [d Hd]]. rewrite symbol_len_pos by done.
  eapply parses_bind_r; [by apply parses_symbol|].
  cbn [mbind option_bind]. rewrite Hd. eapply parses_bind_nil; apply parses_ret.
Qed.

Lemma parses_validatetrans p l :
  (kern_or_base p POLICYDB_VERSION_VALIDATETRANS MOD_POLICYDB_VERSION_VALIDATETRANS = true → cons_list_ok p true l) →
  parses c (read_validatetrans p)
    (if kern_or_base p POLICYDB_VERSION_VALIDATETRANS MOD_POLICYDB_VERSION_VALIDATETRANS then
       u32s [Z.of_nat (length l)] ++ (l ≫= cons_node_bytes p) else [])
    (if kern_or_base p POLICYDB_VERSION_VALIDATETRANS MOD_POLICYDB_VERSION_VALIDATETRANS
     then stored_node p <$> l else []).
Proof.
  intros Hl. unfold read_validatetrans. destruct (kern_or_base _ _ _); [|apply parses_ret].
  destruct (Hl eq_refl) as [Hlen _].
  eapply parses_bind; [by apply parses_u32s; [|in_range]|].
  change (word [Z.of_nat (length l)] 0) with (Z.of_nat (length l)). by apply parses_cons, Hl.
Qed.

Lemma parses_class p k d : class_ok p k d →
  parses c (class_entry p) (class_bytes p k d) (Some (k, stored_class p d)).
Proof.
  intros H. pose proof (co_key _ _ _ H) as Hk. pose proof (co_perms _ _ _ H) as Hs.
  unfold class_entry, class_bytes. apply parses_need_bind.
  set (l := [strlen k; _; _; _; _; _]).
  assert (Hl : Forall u32_ok l).
  { pose proof (symbol_len_ok k Hk). pose proof (co_value _ _ _ H). pose proof (nel_range _ _ _ Hs).
    pose proof (so_nprim _ _ _ Hs). destruct (co_cons _ _ _ H) as [Hc _].
    assert (u32_ok (match comkey d with Some ck => strlen ck | None => 0 end)).
    { pose proof (co_com _ _ _ H) as Hck. destruct (comkey d) as [ck|]; [|done].
      destruct (Hck ck eq_refl) as [Hck' _]. by apply symbol_len_ok. }
    unfold l. in_range; done. }
  eapply parses_bind; [by apply parses_u32s|].
  change (word l 0) with (strlen k). change (word l 2) with (c_value d). change (word l 3) with (nprim (permissions d)).
  change (word l 4) with (nel_or_0 (permissions d)). change (word l 5) with (Z.of_nat (length (constraints d))).
  change (word l 1) with (match comkey d with Some ck => strlen ck | None => 0 end).
  apply parses_guard_bind; [by apply symbol_len_guard|].
  apply parses_guard_bind.
  { pose proof (co_com _ _ _ H) as Hck. destruct (comkey d) as [ck|]; [|done].
    destruct (Hck ck eq_refl) as [Hck' _]. apply symbol_len_guard in Hck'.
    unfold zero_or_saturated in Hck'. by destruct (strlen ck =? 0), (is_saturated (strlen ck)). }
  eapply parses_bind_nil; [apply parses_symtab_create|]. cbn [table].
  eapply parses_bind; [by apply parses_symbol|].
  eapply parses_bind; [apply parses_comkey; apply H|].
  eapply parses_bind; [by apply parses_perms|].
  eapply parses_bind; [apply parses_cons; apply H|].
  eapply parses_bind; [apply parses_validatetrans; apply H|].
  pose proof (co_defaults _ _ _ H) as Hd. rewrite !Forall_cons in Hd. destruct Hd as (?&?&?&?&_).
  eapply parses_bind; [apply parses_words_if; [done|by in_range]|].
  eapply parses_map; [apply parses_words_if; [done|by in_range]|].
  unfold stored_class. destruct (has_defaults p), (has_default_type p), (permissions d); done.
Qed.
End parse.

(** ** Arbitrary bytes *)

Lemma sound_perm_entry :
  sound perm_entry (λ e, match e with Some (k, d) => key_ok k ∧ u32_ok (pd_value d) | None => True end).
Proof.
  apply sound_need_bind, (sound_u32s_bind 2). intros l _ Hl.
  eapply sound_map; [apply sound_str_read|]; [by apply word_ok|]. intros k _. split; [done|by apply word_ok].
Qed.

(** A permission table that was read. *)
Definition perms_sound (h : hashtab_t string perm_datum) : Prop :=
  hashtab_wf h ∧ all_entries (λ _ d, u32_ok (pd_value d)) h.

Lemma sound_symtab_create {D} sz : 0 < sz →
  sound (symtab_create (D := D) sz) (λ s, hashtab_wf (table s) ∧ to_map (table s) = ∅ ∧ nprim s = 0).
Proof.
  intros Hsz. eapply (sound_bind _ _ (λ r : Z * option (symtab D), r.1 = 0 → ∃ s, r.2 = Some s ∧
    hashtab_wf (table s) ∧ to_map (table s) = ∅ ∧ nprim s = 0)).
  - apply sound_in_mem. intros m. unfold symtab_init.
    pose proof (hashtab_create_correct (K := string) (D := D) sz m Hsz) as Hc.
    destruct (hashtab_create sz m) as [[t|] m']; cbn; [|done]. destruct Hc as (?&?&_). intros _. by eexists.
  - intros [rc o] Hr. apply sound_guard_bind. intros ->%Z.eqb_eq.
    destruct (Hr eq_refl) as (s&E&Hs). cbn in E. subst o. apply sound_must. by exists s.
Qed.

Lemma sound_perms n (h : hashtab_t string perm_datum) : hashtab_wf h → to_map h = ∅ →
  sound (perms_read n h) perms_sound.
Proof.
  intros Hw Em. apply sound_table; [apply sound_perm_entry|done|]. unfold all_entries. rewrite Em. apply map_Forall_empty.
Qed.

Lemma sound_some {A} rc (o : option A) (Q : A → Prop) : (∀ a, o = Some a → Q a) → sound (some_or_fail rc o) Q.
Proof. intros H. destruct o as [a|]; [apply sound_ret; by apply H|apply sound_fail]. Qed.

Lemma sound_common_entry :
  sound common_entry (λ e, match e with
    | Some (k, d) => key_ok k ∧ u32_ok (cm_value d) ∧ perms_sound (table (cm_permissions d)) | None => True end).
Proof.
  apply sound_need_bind, (sound_u32s_bind 4). intros l _ Hl. apply sound_guard_bind. intros _.
  eapply sound_bind; [by apply sound_symtab_create|]. intros s (Hw&Em&_).
  eapply sound_bind; [apply sound_key_read|]; [by apply word_ok|]. intros k _.
  eapply sound_map; [by apply sound_perms|]. intros h Hh. split; [done|]. split; [by apply word_ok|done].
Qed.

Lemma sound_cons_expr p ax depth :
  sound (read_cons_expr p ax depth)
    (λ r, cons_expr_ok p r.1 ∧ depth_step ax (expr_type r.1) (attr r.1) depth = Some r.2).
Proof.
  unfold read_cons_expr. do 2 apply sound_need_bind. apply (sound_u32s_bind 3). intros l _ Hl.
  eapply sound_bind; [by apply (sound_some _ _ (λ d, depth_step ax (word l 0) (word l 1) depth = Some d))|].
  intros d Hd. pose proof (word_ok l 0 Hl). pose proof (word_ok l 1 Hl). pose proof (word_ok l 2 Hl).
  destruct (Z.eqb_spec (word l 0) CEXPR_NAMES) as [E|E].
  - eapply sound_bind; [apply sound_ebitmap|]. intros ns Hns.
    eapply (sound_bind _ _ (λ ts, has_type_names p = true → type_set_ok ts)).
    { destruct (has_type_names p); [|by apply sound_ret]. by eapply sound_mono; [apply sound_type_set|]. }
    intros ts Hts. apply sound_ret. split; [|done]. split; [done|]. split; [done|]. split; [done|].
    intros _. split; [done|]. intros Hh. exists ts. by split; [|apply Hts].
  - apply sound_ret. by split.
Qed.

Lemma sound_cons_exprs p ax n : ∀ depth,
  sound (read_cons_exprs p ax n depth)
    (λ r, length r.1 = n ∧ Forall (cons_expr_ok p) r.1 ∧ depth_run ax r.1 depth = Some r.2).
Proof.
  induction n as [|n IH]; intros depth; [by apply sound_ret|]. cbn [read_cons_exprs].
  eapply sound_bind; [apply sound_cons_expr|]. intros [e d] [He Hd].
  eapply sound_bind; [apply IH|]. intros [l d'] (El&Hl&Hr). apply sound_ret. cbn [fst snd length depth_run] in *.
  split; [lia|]. split; [by constructor|]. by rewrite Hd.
Qed.

Lemma sound_cons_node p ax : sound (read_cons_node p ax) (cons_node_ok p ax).
Proof.
  apply sound_need_bind, (sound_u32s_bind 2). intros l _ Hl.
  eapply sound_bind; [apply sound_cons_exprs|]. intros [es d] (El&Hes&Hd). cbn [fst snd] in *.
  apply sound_guard_bind. intros ->%Z.eqb_eq. apply sound_ret. split; [by apply word_ok|].
  split; [|done]. cbn [expr]. rewrite El. pose proof (word_ok l 1 Hl) as Hw. red in Hw. lia.
Qed.

Lemma sound_cons p n ax : 0 <= n < 2 ^ 32 → sound (read_cons_helper p n ax) (cons_list_ok p ax).
Proof.
  intros Hn. apply sound_on_error. eapply sound_mono; [apply sound_repeat, sound_cons_node|].
  intros l [El Hl]. split; [lia|done].
Qed.

(** A class that was read. *)
Record class_sound (p : policydb) (d : class_datum) : Prop := {
  cs_value : u32_ok (c_value d);
  cs_com : comdatum d = comkey d ≫= hashtab_search (table (p_commons p));
  cs_perms : perms_sound (table (permissions d));
  cs_cons : cons_list_ok p false (constraints d);
  cs_vt : cons_list_ok p true (validatetrans d)
}.

Lemma sound_comkey p n : 0 <= n →
  sound (read_comkey p n) (λ r, r.2 = r.1 ≫= hashtab_search (table (p_commons p))).
Proof.
  intros Hn. unfold read_comkey. destruct (n =? 0); [by apply sound_ret|].
  eapply sound_bind; [by apply sound_key_read|]. intros k _.
  eapply sound_map; [by apply (sound_some _ _ (λ d, hashtab_search (table (p_commons p)) k = Some d))|]. done.
Qed.

Lemma sound_words_if (b : bool) n l0 : 0 <= n → Forall u32_ok l0 →
  sound (if b then next_u32s n else mret l0) (λ l, Forall u32_ok l).
Proof.
  intros Hn Hl. destruct b; [|by apply sound_ret]. eapply sound_mono; [by apply sound_u32s|]. by intros l [_ ?].
Qed.

Lemma sound_class_entry p :
  sound (class_entry p) (λ e, match e with Some (k, d) => key_ok k ∧ class_sound p d | None => True end).
Proof.
  apply sound_need_bind, (sound_u32s_bind 6). intros l _ Hl. do 2 (apply sound_guard_bind; intros _).
  eapply sound_bind; [by apply sound_symtab_create|]. intros s (Hw&Em&_).
  eapply sound_bind; [apply sound_key_read|]; [by apply word_ok|]. intros k _.
  eapply sound_bind; [apply sound_comkey; by apply word_ok|]. intros [ck cd] Hc.
  eapply sound_bind; [by apply sound_perms|]. intros h Hh.
  eapply sound_bind; [apply sound_cons; by apply word_ok|]. intros cons Hcons.
  eapply (sound_bind _ _ (cons_list_ok p true)).
  { unfold read_validatetrans. destruct (kern_or_base _ _ _); [|by apply sound_ret].
    apply (sound_u32s_bind 1). intros l' _ Hl'. apply sound_cons. by apply word_ok. }
  intros vt Hvt. eapply sound_bind; [apply sound_words_if; [done|in_range]|]. intros d1 _.
  eapply sound_map; [apply sound_words_if; [done|in_range]|]. intros d2 _. split; [done|].
  split; [by apply word_ok|done..].
Qed.

(** ** Every constraint that is read can be evaluated *)

Section eval.
Context (p : policydb) (s t : context_struct) (x : option context_struct).
Hypothesis Hs : ∃ r, role_struct p (role s) = Ret (Some r).
Hypothesis Ht : ∃ r, role_struct p (role t) = Ret (Some r).

(** The stack after a step has the height the reader counted. *)
Definition step_height (depth : Z) (r : outcome step_result) : Prop :=
  match r with
  | Ret (Next stk) => Z.of_nat (length stk) = depth + 1
  | Ret Out => True
  | _ => False
  end.

Lemma eval_eq_height o a b stk : step_height (Z.of_nat (length stk)) (Ret (eval_eq o a b stk)).
Proof. unfold eval_eq, push. repeat case_match; cbn [step_height length]; lia || done. Qed.

Lemma eval_role_attr_height o stk :
  step_height (Z.of_nat (length stk)) (eval_role_attr p o (role s) (role t) stk).
Proof.
  destruct Hs as [r1 E1], Ht as [r2 E2]. unfold eval_role_attr. rewrite E1, E2. cbn [mbind outcome_bind deref].
  unfold push. repeat case_match; first [apply eval_eq_height|cbn [step_height mret outcome_ret length]; lia].
Qed.

Lemma mls_ops_height o l1 l2 stk : step_height (Z.of_nat (length stk)) (Ret (mls_ops o l1 l2 stk)).
Proof. unfold mls_ops, push. repeat case_match; cbn [step_height length]; lia || done. Qed.

Lemma eval_step_height ax e stk depth depth' :
  depth = Z.of_nat (length stk) - 1 → depth_step ax (expr_type e) (attr e) depth = Some depth' →
  step_height depth' (eval_expr_step p s t x e stk).
Proof.
  intros -> Hd. unfold depth_step in Hd. unfold eval_expr_step.
  assert (Hfull : (Z.of_nat (length stk) - 1 =? CEXPR_MAXDEPTH - 1) = stack_full stk).
  { unfold stack_full. zcase; lia || done. }
  rewrite Hfull in Hd.
  destruct (Z.eqb_spec (expr_type e) CEXPR_NOT).
  { destruct (Z.ltb_spec (Z.of_nat (length stk) - 1) 0); [done|]. injection Hd as <-.
    destruct stk as [|b stk]; [cbn [length] in *; lia|]. cbn [step_height mret outcome_ret length]. lia. }
  assert (Hbin : ∀ f : bool → bool → bool,
    (if Z.of_nat (length stk) - 1 <? 1 then None else Some (Z.of_nat (length stk) - 1 - 1)) = Some depth' →
    step_height depth' match stk with y :: z :: s' => mret (Next (f z y :: s')) | _ => Undef end).
  { intros f Hf. destruct (Z.ltb_spec (Z.of_nat (length stk) - 1) 1); [done|]. injection Hf as <-.
    destruct stk as [|b [|b' stk]]; [cbn [length] in *; lia..|]. cbn [step_height mret outcome_ret length]. lia. }
  destruct (Z.eqb_spec (expr_type e) CEXPR_AND); cbn [orb] in Hd; [by apply (Hbin andb)|].
  destruct (Z.eqb_spec (expr_type e) CEXPR_OR); [by apply (Hbin orb)|].
  destruct (Z.eqb_spec (expr_type e) CEXPR_ATTR).
  { destruct (stack_full stk) eqn:Ef; [done|]. injection Hd as <-. unfold eval_attr. rewrite Ef.
    replace (Z.of_nat (length stk) - 1 + 1) with (Z.of_nat (length stk)) by lia.
    repeat case_match; first [done|apply eval_eq_height|apply eval_role_attr_height|apply mls_ops_height]. }
  destruct (Z.eqb_spec (expr_type e) CEXPR_NAMES); [|done].
  destruct (negb ax && has_bits (attr e) CEXPR_XTARGET); [done|].
  destruct (stack_full stk) eqn:Ef; [done|]. injection Hd as <-. unfold eval_names, push. rewrite Ef.
  repeat case_match; cbn [step_height mret outcome_ret length]; try done; lia.
Qed.

Lemma balanced_eval ax l : ∀ stk, depth_run ax l (Z.of_nat (length stk) - 1) = Some 0 →
  ∃ ok, eval_exprs p s t x l stk = Ret ok.
Proof.
  induction l as [|e l IH]; intros stk Hd.
  - cbn in *. injection Hd as Hd. destruct stk as [|b [|]]; cbn [length] in Hd; try lia. by exists b.
  - apply depth_run_cons in Hd as (depth'&Hd&Hr). cbn [eval_exprs].
    pose proof (eval_step_height ax e stk _ depth' eq_refl Hd) as Hh.
    destruct (eval_expr_step p s t x e stk) as [[stk'|]| |]; try done; cbn [mbind outcome_bind].
    + apply IH. rewrite <- Hr. cbn in Hh. f_equal. lia.
    + by exists false.
Qed.

Lemma valid_eval ax k cl cname :
  balanced ax k → val_to_name p SYM_CLASSES (cl - 1) = Ret cname →
  ∃ ok, constraint_expr_eval_reason p s t x cl k = Ret ok.
Proof.
  intros Hb Hc. unfold constraint_expr_eval_reason. rewrite Hc. by apply (balanced_eval ax (expr k) []).
Qed.
End eval.
