(* ===== verification/SymbolFile.v ===== *)
(** * Roles, types, users, levels, categories and booleans in a policy file

    policydb.c: [role_read], [type_read], [user_read], [sens_read], [cat_read];
    conditional.c: [cond_read_bool]; write.c: [role_write] .. [cat_write],
    [cond_write_bool].  What a version of the format keeps of a symbol is
    written out ([stored_role], ...), and shown to be what is read back. *)

From S2P Require Import Prelude Policyfile Ebitmap EbitmapFile Hashtab SymtabFile Avtab Context Policydb Mls MlsFile Cond Services ClassFile.

Definition POLICYDB_VERSION_BOUNDARY : Z := 24.
Definition MOD_POLICYDB_VERSION_MLS_USERS : Z := 6.
Definition MOD_POLICYDB_VERSION_PERMISSIVE : Z := 8.
Definition MOD_POLICYDB_VERSION_BOUNDARY : Z := 9.
Definition MOD_POLICYDB_VERSION_BOUNDARY_ALIAS : Z := 10.
Definition MOD_POLICYDB_VERSION_ROLEATTRIB : Z := 13.
Definition MOD_POLICYDB_VERSION_TUNABLE_SEP : Z := 14.
Definition TYPEDATUM_PROPERTY_PRIMARY : Z := 1.
Definition TYPEDATUM_PROPERTY_ATTRIBUTE : Z := 2.
Definition TYPEDATUM_PROPERTY_ALIAS : Z := 4.
Definition TYPEDATUM_PROPERTY_PERMISSIVE : Z := 8.
Definition TYPE_FLAGS_PERMISSIVE : Z := 1.

Definition is_kern (p : policydb) : bool := policy_type p =? POLICY_KERN.

(** [p->policy_type != POLICY_KERN && p->policyvers >= v] *)
Definition module_from (p : policydb) (v : Z) : bool := negb (is_kern p) && (v <=? policyvers p).

Definition policydb_has_boundary_feature (p : policydb) : bool :=
  (is_kern p && (POLICYDB_VERSION_BOUNDARY <=? policyvers p)) ||
  (negb (is_kern p) && (MOD_POLICYDB_VERSION_BOUNDARY <=? policyvers p)).

Definition no_type_set : type_set := empty_type_set.

(** ** Roles *)

(** The number of words before the name, and the bounds among them. *)
Definition head_words (p : policydb) : Z := if policydb_has_boundary_feature p then 3 else 2.
Definition head_bounds (p : policydb) (buf : list Z) : Z := if policydb_has_boundary_feature p then word buf 2 else 0.

(** [object_r] is not inserted: [roles_init] has created it. *)
Definition role_entry (p : policydb) : R (option (string * role_datum)) :=
  _ ← need (-1);
  buf ← next_u32s (head_words p);
  let len := word buf 0 in
  _ ← guard_or (-1) (negb (zero_or_saturated len));
  key ← key_read len;
  dom ← ebitmap_read;
  ts ← (if is_kern p then t ← ebitmap_read; mret (TS t ebitmap_init 0) else type_set_read);
  '(fl, rs) ← (if module_from p MOD_POLICYDB_VERSION_ROLEATTRIB
               then b ← next_u32s 1; r ← ebitmap_read; mret (word b 0, r) else mret (0, ebitmap_init));
  if String.eqb key "object_r" then
    _ ← guard_or (-1) (word buf 1 =? OBJECT_R_VAL); mret None
  else mret (Some (key, RD (word buf 1) dom ts ebitmap_init (head_bounds p buf) fl rs)).

Definition put_head (p : policydb) (key : string) (value bnds : Z) : writer :=
  put_u32s ([strlen key; value] ++ if policydb_has_boundary_feature p then [bnds] else []);;; put_string key.

Definition skip_role (p : policydb) (d : role_datum) : bool :=
  (r_flavor d =? ROLE_ATTRIB) &&
  (is_kern p || (negb (is_kern p) && (policyvers p <? MOD_POLICYDB_VERSION_ROLEATTRIB))).

Definition role_write (p : policydb) (key : string) (d : role_datum) : writer :=
  if skip_role p d then mret POLICYDB_SUCCESS
  else
    put_head p key (r_value d) (r_bounds d);;;
    ebitmap_write (dominates d);;;
    (if is_kern p then
       ebitmap_write (if r_value d =? OBJECT_R_VAL then ebitmap_init else types (r_types d))
     else type_set_write (r_types d));;;
    (if module_from p MOD_POLICYDB_VERSION_ROLEATTRIB then put_u32s [r_flavor d];;; ebitmap_write (r_roles d)
     else mret POLICYDB_SUCCESS).

(** ** Types *)

Definition type_words (p : policydb) : Z :=
  if policydb_has_boundary_feature p then
    if module_from p MOD_POLICYDB_VERSION_BOUNDARY_ALIAS then 5 else 4
  else if is_kern p then 3
  else if MOD_POLICYDB_VERSION_PERMISSIVE <=? policyvers p then 5 else 4.

(** The properties word, for kernel policies and modules. *)
Definition type_of_properties (p : policydb) (value prim props bnds : Z) : type_datum :=
  TD value prim
     (if has_bits props TYPEDATUM_PROPERTY_ALIAS && negb (is_kern p) then TYPE_ALIAS
      else if has_bits props TYPEDATUM_PROPERTY_ATTRIBUTE then TYPE_ATTRIB else 0)
     ebitmap_init
     (if has_bits props TYPEDATUM_PROPERTY_PERMISSIVE && negb (is_kern p) then TYPE_FLAGS_PERMISSIVE else 0)
     bnds.

Definition type_of_words (p : policydb) (buf : list Z) : type_datum :=
  if policydb_has_boundary_feature p then
    if module_from p MOD_POLICYDB_VERSION_BOUNDARY_ALIAS then
      type_of_properties p (word buf 1) (word buf 2) (word buf 3) (word buf 4)
    else
      type_of_properties p (word buf 1) (if has_bits (word buf 2) TYPEDATUM_PROPERTY_PRIMARY then 1 else 0)
        (word buf 2) (word buf 3)
  else
    TD (word buf 1) (word buf 2) (if is_kern p then 0 else word buf 3) ebitmap_init
       (if module_from p MOD_POLICYDB_VERSION_PERMISSIVE then word buf 4 else 0) 0.

Definition set_t_types (e : ebitmap) (d : type_datum) : type_datum :=
  TD (t_value d) (primary d) (flavor d) e (t_flags d) (bounds d).

Definition type_entry (p : policydb) : R (option (string * type_datum)) :=
  _ ← need (-1);
  buf ← next_u32s (type_words p);
  let len := word buf 0 in
  _ ← guard_or (-1) (negb (zero_or_saturated len));
  e ← (if is_kern p then mret ebitmap_init else ebitmap_read);
  key ← key_read len;
  mret (Some (key, set_t_types e (type_of_words p buf))).

Definition bit_if (b : bool) (x : Z) : Z := if b then x else 0.

Definition type_properties (p : policydb) (d : type_datum) : Z :=
  Z.lor (Z.lor (bit_if (negb (primary d =? 0)) TYPEDATUM_PROPERTY_PRIMARY)
    (if flavor d =? TYPE_ATTRIB then TYPEDATUM_PROPERTY_ATTRIBUTE
     else bit_if ((flavor d =? TYPE_ALIAS) && negb (is_kern p)) TYPEDATUM_PROPERTY_ALIAS))
    (bit_if (has_bits (t_flags d) TYPE_FLAGS_PERMISSIVE && negb (is_kern p)) TYPEDATUM_PROPERTY_PERMISSIVE).

Definition words_of_type (p : policydb) (key : string) (d : type_datum) : list Z :=
  [strlen key; t_value d] ++
  if policydb_has_boundary_feature p then
    (if module_from p MOD_POLICYDB_VERSION_BOUNDARY_ALIAS then [primary d] else []) ++
    [type_properties p d; bounds d]
  else
    [primary d] ++
    (if is_kern p then [] else [flavor d] ++ if MOD_POLICYDB_VERSION_PERMISSIVE <=? policyvers p then [t_flags d] else []).

Definition skip_type (p : policydb) (d : type_datum) : bool :=
  is_kern p && (policyvers p <? POLICYDB_VERSION_BOUNDARY) && (flavor d =? TYPE_ATTRIB).

Definition type_write (p : policydb) (key : string) (d : type_datum) : writer :=
  if skip_type p d then mret POLICYDB_SUCCESS
  else
    put_u32s (words_of_type p key d);;;
    (if is_kern p then mret POLICYDB_SUCCESS else ebitmap_write (t_types d));;;
    put_string key.

(** ** Users *)

(** The two layouts of a user's MLS fields. *)
Definition user_has_ranges (p : policydb) : bool :=
  (is_kern p && (POLICYDB_VERSION_MLS <=? policyvers p)) ||
  (((policy_type p =? POLICY_MOD) || (policy_type p =? POLICY_BASE)) &&
   (MOD_POLICYDB_VERSION_MLS <=? policyvers p) && (policyvers p <? MOD_POLICYDB_VERSION_MLS_USERS)).

Definition user_has_semantic (p : policydb) : bool :=
  ((policy_type p =? POLICY_MOD) || (policy_type p =? POLICY_BASE)) && (MOD_POLICYDB_VERSION_MLS_USERS <=? policyvers p).

Definition no_semantic_level : mls_semantic_level := SL 0 [].
Definition no_semantic_range : mls_semantic_range := SR no_semantic_level no_semantic_level.

(** The expanded range and level, and the semantic ones. *)
Definition read_user_mls (p : policydb)
    : R (mls_range * mls_level * mls_semantic_range * mls_semantic_level) :=
  if user_has_ranges p then
    r ← mls_read_range_helper;
    l ← mls_read_level;
    if is_kern p then mret (r, l, no_semantic_range, no_semantic_level)
    else
      sr ← in_mem (mls_range_to_semantic r);
      sr ← some_or_fail (-1) sr;
      sl ← in_mem (mls_level_to_semantic l);
      sl ← some_or_fail (-1) sl;
      mret (r, l, sr, sl)
  else if user_has_semantic p then
    sr ← mls_read_semantic_range_helper;
    sl ← mls_read_semantic_level_helper;
    mret (mls_range_init, mls_level_init, sr, sl)
  else mret (mls_range_init, mls_level_init, no_semantic_range, no_semantic_level).

Definition user_entry (p : policydb) : R (option (string * user_datum)) :=
  _ ← need (-1);
  buf ← next_u32s (head_words p);
  let len := word buf 0 in
  _ ← guard_or (-1) (negb (zero_or_saturated len));
  key ← key_read len;
  rs ← (if is_kern p then r ← ebitmap_read; mret (RS r 0) else role_set_read);
  '(r, l, sr, sl) ← read_user_mls p;
  mret (Some (key, UD (word buf 1) rs sr sl ebitmap_init r l (head_bounds p buf))).

Definition user_write (p : policydb) (key : string) (d : user_datum) : writer :=
  put_head p key (u_value d) (u_bounds d);;;
  (if is_kern p then ebitmap_write (rs_roles (u_roles d)) else role_set_write (u_roles d));;;
  (if user_has_ranges p then mls_write_range_helper (exp_range d);;; mls_write_level (exp_dfltlevel d)
   else if user_has_semantic p then
     mls_write_semantic_range_helper (u_range d);;; mls_write_semantic_level_helper (dfltlevel d)
   else mret POLICYDB_SUCCESS).

(** ** Sensitivities, categories, booleans *)

Definition sens_entry : R (option (string * level_datum)) :=
  _ ← need (-1);
  buf ← next_u32s 2;
  let len := word buf 0 in
  _ ← guard_or (-1) (negb (zero_or_saturated len));
  key ← key_read len;
  _ ← need (-1);
  l ← mls_read_level;
  mret (Some (key, LD (Some l) (word buf 1) 0)).

(** [levdatum->level] is dereferenced. *)
Definition sens_write (key : string) (d : level_datum) : writer :=
  put_u32s [strlen key; l_isalias d];;;
  put_string key;;;
  (λ s, match level d with Some l => mls_write_level l s | None => Undef end).

Definition cat_entry : R (option (string * cat_datum)) :=
  _ ← need (-1);
  buf ← next_u32s 3;
  let len := word buf 0 in
  _ ← guard_or (-1) (negb (zero_or_saturated len));
  key ← key_read len;
  mret (Some (key, CTD (word buf 1) (word buf 2))).

Definition cat_write (key : string) (d : cat_datum) : writer :=
  put_u32s [strlen key; ct_value d; ct_isalias d];;; put_string key.

Definition bool_isvalid (state : Z) : bool := (state =? 0) || (state =? 1).

Definition bool_entry (p : policydb) : R (option (string * cond_bool_datum)) :=
  _ ← need (-1);
  buf ← next_u32s 3;
  _ ← guard_or (-1) (bool_isvalid (word buf 1));
  key ← str_read (word buf 2);
  b ← (if module_from p MOD_POLICYDB_VERSION_TUNABLE_SEP then next_u32s 1 else mret [0]);
  mret (Some (key, BD (word buf 0) (word buf 1) (word b 0))).

Definition cond_write_bool (p : policydb) (key : string) (d : cond_bool_datum) : writer :=
  put_u32s [b_value d; b_state d; strlen key];;;
  put_string key;;;
  (if module_from p MOD_POLICYDB_VERSION_TUNABLE_SEP then put_u32s [b_flags d] else mret POLICYDB_SUCCESS).

(** [read_f]: each entry is inserted in the symbol table. *)
Definition role_read (p : policydb) (h : hashtab_t string role_datum) := on_error (-1) (entry_read (role_entry p) h).
Definition type_read (p : policydb) (h : hashtab_t string type_datum) := on_error (-1) (entry_read (type_entry p) h).
Definition user_read (p : policydb) (h : hashtab_t string user_datum) := on_error (-1) (entry_read (user_entry p) h).
Definition sens_read (h : hashtab_t string level_datum) := on_error (-1) (entry_read sens_entry h).
Definition cat_read (h : hashtab_t string cat_datum) := on_error (-1) (entry_read cat_entry h).
Definition cond_read_bool (p : policydb) (h : hashtab_t string cond_bool_datum) := on_error (-1) (entry_read (bool_entry p) h).
Definition class_read (p : policydb) (h : hashtab_t string class_datum) := on_error (-1) (entry_read (class_entry p) h).

(** ** Formats *)

Definition opt_bytes (b : bool) (bs : list Z) : list Z := if b then bs else [].

Definition head_bytes (p : policydb) (key : string) (value bnds : Z) : list Z :=
  u32s ([strlen key; value] ++ opt_bytes (policydb_has_boundary_feature p) [bnds]) ++ string_bytes key.

Definition role_bytes (p : policydb) (key : string) (d : role_datum) : list Z :=
  head_bytes p key (r_value d) (r_bounds d) ++
  ebitmap_bytes (dominates d) ++
  (if is_kern p then ebitmap_bytes (if r_value d =? OBJECT_R_VAL then ebitmap_init else types (r_types d))
   else type_set_bytes (r_types d)) ++
  opt_bytes (module_from p MOD_POLICYDB_VERSION_ROLEATTRIB) (u32s [r_flavor d] ++ ebitmap_bytes (r_roles d)).

Definition type_bytes (p : policydb) (key : string) (d : type_datum) : list Z :=
  u32s (words_of_type p key d) ++ (if is_kern p then [] else ebitmap_bytes (t_types d)) ++ string_bytes key.

Definition user_bytes (p : policydb) (key : string) (d : user_datum) : list Z :=
  head_bytes p key (u_value d) (u_bounds d) ++
  (if is_kern p then ebitmap_bytes (rs_roles (u_roles d)) else role_set_bytes (u_roles d)) ++
  (if user_has_ranges p then range_bytes (exp_range d) ++ level_bytes (exp_dfltlevel d)
   else if user_has_semantic p then semantic_range_bytes (u_range d) ++ semantic_level_bytes (dfltlevel d)
   else []).

Definition sens_bytes (key : string) (d : level_datum) : list Z :=
  u32s [strlen key; l_isalias d] ++ string_bytes key ++ level_bytes (default mls_level_init (level d)).

Definition cat_bytes (key : string) (d : cat_datum) : list Z :=
  u32s [strlen key; ct_value d; ct_isalias d] ++ string_bytes key.

Definition bool_bytes (p : policydb) (key : string) (d : cond_bool_datum) : list Z :=
  u32s [b_value d; b_state d; strlen key] ++ string_bytes key ++
  opt_bytes (module_from p MOD_POLICYDB_VERSION_TUNABLE_SEP) (u32s [b_flags d]).

(** *** What a file can hold *)

Record role_ok (p : policydb) (k : string) (d : role_datum) : Prop := {
  ro_key : symbol_ok k;
  ro_words : Forall u32_ok [r_value d; r_bounds d; r_flavor d];
  ro_dom : ebitmap_wf (dominates d);
  ro_types : type_set_ok (r_types d);
  ro_roles : ebitmap_wf (r_roles d);
  ro_object : k = "object_r"%string → r_value d = OBJECT_R_VAL;
  ro_written : skip_role p d = false
}.

Record type_ok (p : policydb) (k : string) (d : type_datum) : Prop := {
  to_key : symbol_ok k;
  to_words : Forall u32_ok [t_value d; primary d; flavor d; t_flags d; bounds d];
  to_types : ebitmap_wf (t_types d);
  to_written : skip_type p d = false
}.

Record user_ok (p : policydb) (k : string) (d : user_datum) : Prop := {
  uo_key : symbol_ok k;
  uo_words : Forall u32_ok [u_value d; u_bounds d];
  uo_roles : role_set_ok (u_roles d);
  uo_range : range_ok (exp_range d);
  uo_level : level_ok (exp_dfltlevel d);
  uo_semantic : semantic_level_ok (sr_level0 (u_range d)) ∧ semantic_level_ok (sr_level1 (u_range d)) ∧
                semantic_level_ok (dfltlevel d);
  uo_version : is_kern p = true ∨ user_has_ranges p = false
}.

Definition sens_ok (k : string) (d : level_datum) : Prop :=
  symbol_ok k ∧ u32_ok (l_isalias d) ∧ ∃ l, level d = Some l ∧ level_ok l.

Definition cat_ok (k : string) (d : cat_datum) : Prop := symbol_ok k ∧ u32_ok (ct_value d) ∧ u32_ok (ct_isalias d).

Definition bool_ok (k : string) (d : cond_bool_datum) : Prop :=
  symbol_ok k ∧ u32_ok (b_value d) ∧ bool_isvalid (b_state d) = true ∧ u32_ok (b_flags d).

(** *** What the formats keep *)

Definition stored_bounds (p : policydb) (b : Z) : Z := if policydb_has_boundary_feature p then b else 0.

Definition stored_role (p : policydb) (d : role_datum) : role_datum :=
  let ra := module_from p MOD_POLICYDB_VERSION_ROLEATTRIB in
  RD (r_value d) (dominates d)
     (if is_kern p then TS (if r_value d =? OBJECT_R_VAL then ebitmap_init else types (r_types d)) ebitmap_init 0
      else r_types d)
     ebitmap_init (stored_bounds p (r_bounds d)) (if ra then r_flavor d else 0) (if ra then r_roles d else ebitmap_init).

Definition stored_type (p : policydb) (d : type_datum) : type_datum :=
  let types' := if is_kern p then ebitmap_init else t_types d in
  if policydb_has_boundary_feature p then
    TD (t_value d)
       (if module_from p MOD_POLICYDB_VERSION_BOUNDARY_ALIAS then primary d else Z.b2z (negb (primary d =? 0)))
       (if flavor d =? TYPE_ATTRIB then TYPE_ATTRIB
        else if (flavor d =? TYPE_ALIAS) && negb (is_kern p) then TYPE_ALIAS else 0)
       types' (if has_bits (t_flags d) TYPE_FLAGS_PERMISSIVE && negb (is_kern p) then TYPE_FLAGS_PERMISSIVE else 0)
       (bounds d)
  else
    TD (t_value d) (primary d) (if is_kern p then 0 else flavor d) types'
       (if module_from p MOD_POLICYDB_VERSION_PERMISSIVE then t_flags d else 0) 0.

Definition stored_user (p : policydb) (d : user_datum) : user_datum :=
  UD (u_value d) (if is_kern p then RS (rs_roles (u_roles d)) 0 else u_roles d)
     (if user_has_ranges p then no_semantic_range
      else if user_has_semantic p then SR (reversed (sr_level0 (u_range d))) (reversed (sr_level1 (u_range d)))
      else no_semantic_range)
     (if user_has_ranges p then no_semantic_level
      else if user_has_semantic p then reversed (dfltlevel d) else no_semantic_level)
     ebitmap_init
     (if user_has_ranges p then exp_range d else mls_range_init)
     (if user_has_ranges p then exp_dfltlevel d else mls_level_init)
     (stored_bounds p (u_bounds d)).

Definition stored_level (d : level_datum) : level_datum := LD (level d) (l_isalias d) 0.

Definition stored_bool (p : policydb) (d : cond_bool_datum) : cond_bool_datum :=
  BD (b_value d) (b_state d) (if module_from p MOD_POLICYDB_VERSION_TUNABLE_SEP then b_flags d else 0).

(** ** Emission *)

Lemma emits_head c p k v b : symbol_ok k → emits c (put_head p k v b) (head_bytes p k v b).
Proof.
  intros Hk. unfold put_head, head_bytes. apply emits_then.
  - apply emits_u32s. unfold opt_bytes. by destruct (policydb_has_boundary_feature p).
  - by apply emits_string, symbol_short.
Qed.

Lemma emits_opt c (b : bool) w bs : (b = true → emits c w bs) →
  emits c (if b then w else mret POLICYDB_SUCCESS) (opt_bytes b bs).
Proof. apply emits_if. Qed.

Lemma emits_case c (b : bool) w1 w2 bs1 bs2 : emits c w1 bs1 → emits c w2 bs2 →
  emits c (if b then w1 else w2) (if b then bs1 else bs2).
Proof. by destruct b. Qed.

Lemma emits_role c p k d : symbol_ok k → skip_role p d = false → emits c (role_write p k d) (role_bytes p k d).
Proof.
  intros Hk Hs. unfold role_write. rewrite Hs.
  apply emits_then; [by apply emits_head|]. apply emits_then; [apply emits_ebitmap|].
  apply emits_then; [apply emits_case; [apply emits_ebitmap|apply emits_type_set]|].
  apply emits_opt. intros _. apply emits_then; [by apply emits_u32s|apply emits_ebitmap].
Qed.

Lemma words_of_type_short p k d : Z.of_nat (length (words_of_type p k d)) < 2 ^ 30.
Proof.
  unfold words_of_type. destruct (policydb_has_boundary_feature p), (module_from p MOD_POLICYDB_VERSION_BOUNDARY_ALIAS), (is_kern p),
    (MOD_POLICYDB_VERSION_PERMISSIVE <=? policyvers p); done.
Qed.

Lemma emits_type c p k d : symbol_ok k → skip_type p d = false → emits c (type_write p k d) (type_bytes p k d).
Proof.
  intros Hk Hs. unfold type_write. rewrite Hs. apply emits_then; [apply emits_u32s, words_of_type_short|].
  apply emits_then; [apply emits_case; [apply emits_nil|apply emits_ebitmap]|by apply emits_string, symbol_short].
Qed.

Lemma emits_user c p k d : symbol_ok k → emits c (user_write p k d) (user_bytes p k d).
Proof.
  intros Hk. apply emits_then; [by apply emits_head|].
  apply emits_then; [apply emits_case; [apply emits_ebitmap|apply emits_role_set]|].
  apply emits_case; [apply emits_then; [apply emits_range|apply emits_level]|].
  apply emits_case; [apply emits_then; [apply emits_semantic_range|apply emits_semantic_level]|apply emits_nil].
Qed.

Lemma emits_sens c k d : sens_ok k d → emits c (sens_write k d) (sens_bytes k d).
Proof.
  intros (Hk&_&l&El&_). unfold sens_write, sens_bytes. rewrite El.
  apply emits_then; [by apply emits_u32s|]. apply emits_then; [by apply emits_string, symbol_short|apply emits_level].
Qed.

Lemma emits_cat c k d : symbol_ok k → emits c (cat_write k d) (cat_bytes k d).
Proof. intros Hk. apply emits_then; [by apply emits_u32s|]. by apply emits_string, symbol_short. Qed.

Lemma emits_bool c p k d : symbol_ok k → emits c (cond_write_bool p k d) (bool_bytes p k d).
Proof.
  intros Hk. apply emits_then; [by apply emits_u32s|]. apply emits_then; [by apply emits_string, symbol_short|].
  apply emits_opt. intros _. by apply emits_u32s.
Qed.

(** ** What is written is read back *)

Section parse.
Context (c : bool).

(** The words before the name, then whatever the entry's reader makes of them. *)
Lemma parses_head {B} p k v b (f : list Z → R B) bs y :
  symbol_ok k → u32_ok v → u32_ok b →
  (∀ buf, word buf 0 = strlen k → word buf 1 = v → head_bounds p buf = stored_bounds p b →
     parses c (f buf) (string_bytes k ++ bs) y) →
  parses c (buf ← next_u32s (head_words p); _ ← guard_or (-1) (negb (zero_or_saturated (word buf 0))); f buf)
    (head_bytes p k v b ++ bs) y.
Proof.
  intros Hk Hv Hb Hf. unfold head_bytes. rewrite <- app_assoc.
  pose proof (symbol_len_ok k Hk) as Hlen.
  set (l := [strlen k; v] ++ opt_bytes (policydb_has_boundary_feature p) [b]).
  assert (Hl : Z.of_nat (length l) = head_words p ∧ Forall u32_ok l ∧ head_bounds p l = stored_bounds p b ∧
               word l 0 = strlen k ∧ word l 1 = v).
  { unfold l, head_words, head_bounds, stored_bounds, opt_bytes.
    destruct (policydb_has_boundary_feature p); split_and!; try done; by in_range. }
  destruct Hl as (H1&H2&H3&H4&H5).
  eapply parses_bind; [by apply parses_u32s|].
  apply parses_guard_bind; [rewrite H4; by apply symbol_len_guard|]. by apply Hf.
Qed.

Lemma parses_case {A} (b : bool) (r1 r2 : R A) bs1 bs2 a1 a2 :
  (b = true → parses c r1 bs1 a1) → (b = false → parses c r2 bs2 a2) →
  parses c (if b then r1 else r2) (if b then bs1 else bs2) (if b then a1 else a2).
Proof. destruct b; auto. Qed.

(** [object_r] is read and dropped. *)
Definition role_result (p : policydb) (k : string) (d : role_datum) : option (string * role_datum) :=
  if String.eqb k "object_r" then None else Some (k, stored_role p d).

Lemma parses_role p k d : role_ok p k d → parses c (role_entry p) (role_bytes p k d) (role_result p k d).
Proof.
  intros H. pose proof (ro_words _ _ _ H) as Hw. rewrite !Forall_cons in Hw. destruct Hw as (Hv&Hb&Hf&_).
  unfold role_entry, role_bytes. apply parses_need_bind.
  apply parses_head; [apply H|done..|]. intros buf Ek Ev Eb. rewrite Ek, Ev, Eb.
  eapply parses_bind; [apply parses_symbol; apply H|].
  eapply parses_bind; [apply parses_ebitmap; apply H|].
  pose proof (ro_types _ _ _ H) as Hts.
  eapply parses_bind with (a := r_types (stored_role p d)).
  { cbn [r_types stored_role]. apply parses_case; intros _; [|by apply parses_type_set].
    eapply parses_map; [apply parses_ebitmap|done]. destruct (r_value d =? OBJECT_R_VAL); [done|apply Hts]. }
  eapply parses_bind_r with (a := (r_flavor (stored_role p d), r_roles (stored_role p d))).
  { cbn [r_flavor r_roles stored_role]. unfold opt_bytes.
    destruct (module_from p MOD_POLICYDB_VERSION_ROLEATTRIB); [|apply parses_ret].
    eapply parses_bind; [apply parses_u32s; [done|by in_range]|].
    eapply parses_map; [apply parses_ebitmap; apply H|done]. }
  unfold role_result. destruct (String.eqb_spec k "object_r") as [E|E]; [|apply parses_ret].
  rewrite (ro_object _ _ _ H E). apply parses_guard_bind; [done|apply parses_ret].
Qed.

Lemma bits_of_properties p d :
  let props := type_properties p d in
  has_bits props TYPEDATUM_PROPERTY_PRIMARY = negb (primary d =? 0) ∧
  has_bits props TYPEDATUM_PROPERTY_ATTRIBUTE = (flavor d =? TYPE_ATTRIB) ∧
  has_bits props TYPEDATUM_PROPERTY_ALIAS = ((flavor d =? TYPE_ALIAS) && negb (is_kern p)) ∧
  has_bits props TYPEDATUM_PROPERTY_PERMISSIVE = (has_bits (t_flags d) TYPE_FLAGS_PERMISSIVE && negb (is_kern p)) ∧
  u32_ok props.
Proof.
  unfold type_properties, bit_if. cbn zeta.
  destruct (primary d =? 0), (has_bits (t_flags d) TYPE_FLAGS_PERMISSIVE), (is_kern p),
    (Z.eqb_spec (flavor d) TYPE_ATTRIB) as [E1|E1], (Z.eqb_spec (flavor d) TYPE_ALIAS) as [E2|E2];
    try (by vm_compute); by rewrite E1 in E2.
Qed.

Lemma type_of_words_of_type p k d :
  skip_type p d = false →
  type_of_words p (words_of_type p k d) = set_t_types ebitmap_init (stored_type p d).
Proof.
  intros Hs. unfold type_of_words, words_of_type, stored_type, type_of_properties, set_t_types.
  destruct (bits_of_properties p d) as (Hp&Ha&Hl&Hm&_). cbn zeta.
  destruct (policydb_has_boundary_feature p).
  - set (props := type_properties p d) in *. clearbody props.
    assert (Hfl : (if has_bits props TYPEDATUM_PROPERTY_ALIAS && negb (is_kern p) then TYPE_ALIAS
                   else if has_bits props TYPEDATUM_PROPERTY_ATTRIBUTE then TYPE_ATTRIB else 0) =
                  (if flavor d =? TYPE_ATTRIB then TYPE_ATTRIB
                   else if (flavor d =? TYPE_ALIAS) && negb (is_kern p) then TYPE_ALIAS else 0)).
    { rewrite Ha, Hl. destruct (Z.eqb_spec (flavor d) TYPE_ATTRIB) as [->|]; [done|].
      by destruct (flavor d =? TYPE_ALIAS), (is_kern p). }
    assert (Hfg : has_bits props TYPEDATUM_PROPERTY_PERMISSIVE && negb (is_kern p) =
                  has_bits (t_flags d) TYPE_FLAGS_PERMISSIVE && negb (is_kern p)).
    { rewrite Hm. by destruct (has_bits (t_flags d) TYPE_FLAGS_PERMISSIVE), (is_kern p). }
    destruct (module_from p MOD_POLICYDB_VERSION_BOUNDARY_ALIAS); cbn [app].
    + change (word _ 3) with props. by rewrite Hfl, Hfg.
    + change (word [strlen k; t_value d; props; bounds d] 2) with props. rewrite Hfl, Hfg, Hp.
      by destruct (primary d =? 0).
  - unfold module_from. destruct (is_kern p); [done|].
    destruct (MOD_POLICYDB_VERSION_PERMISSIVE <=? policyvers p); done.
Qed.

Lemma words_of_type_ok p k d : type_ok p k d →
  Z.of_nat (length (words_of_type p k d)) = type_words p ∧ Forall u32_ok (words_of_type p k d) ∧
  word (words_of_type p k d) 0 = strlen k.
Proof.
  intros H. pose proof (to_words _ _ _ H) as Hw. rewrite !Forall_cons in Hw. destruct Hw as (?&?&?&?&?&_).
  pose proof (symbol_len_ok k (to_key _ _ _ H)). destruct (bits_of_properties p d) as (_&_&_&_&?).
  unfold words_of_type, type_words. destruct (policydb_has_boundary_feature p).
  - destruct (module_from p MOD_POLICYDB_VERSION_BOUNDARY_ALIAS); cbn [app]; split_and!; try done; by in_range.
  - destruct (is_kern p); [cbn [app]; split_and!; try done; by in_range|].
    destruct (MOD_POLICYDB_VERSION_PERMISSIVE <=? policyvers p); cbn [app]; split_and!; try done; by in_range.
Qed.

Lemma parses_type p k d : type_ok p k d →
  parses c (type_entry p) (type_bytes p k d) (Some (k, stored_type p d)).
Proof.
  intros H. pose proof (to_key _ _ _ H) as Hk. destruct (words_of_type_ok p k d H) as (Hlen&Hw&Hl).
  unfold type_entry, type_bytes. apply parses_need_bind.
  eapply parses_bind; [by apply parses_u32s|]. rewrite Hl.
  apply parses_guard_bind; [by apply symbol_len_guard|].
  eapply parses_bind with (a := if is_kern p then ebitmap_init else t_types d).
  { destruct (is_kern p); [apply parses_ret|]. apply parses_ebitmap. apply H. }
  eapply parses_map; [by apply parses_symbol|]. rewrite type_of_words_of_type by apply H.
  unfold set_t_types, stored_type. by destruct (policydb_has_boundary_feature p).
Qed.

Lemma parses_user p k d : user_ok p k d →
  parses c (user_entry p) (user_bytes p k d) (Some (k, stored_user p d)).
Proof.
  intros H. pose proof (uo_words _ _ _ H) as Hw. rewrite !Forall_cons in Hw. destruct Hw as (Hv&Hb&_).
  destruct (uo_semantic _ _ _ H) as (Hs0&Hs1&Hsl). pose proof (uo_roles _ _ _ H) as Hr.
  unfold user_entry, user_bytes. apply parses_need_bind.
  apply parses_head; [apply H|done..|]. intros buf Ek Ev Eb. rewrite Ek, Ev, Eb.
  eapply parses_bind; [apply parses_symbol; apply H|].
  eapply parses_bind with (a := u_roles (stored_user p d)).
  { cbn [u_roles stored_user]. apply parses_case; intros _; [|by apply parses_role_set].
    eapply parses_map; [apply parses_ebitmap; apply Hr|done]. }
  eapply parses_bind_r with (a := (exp_range (stored_user p d), exp_dfltlevel (stored_user p d),
                                   u_range (stored_user p d), dfltlevel (stored_user p d))); [|apply parses_ret].
  unfold read_user_mls. cbn [exp_range exp_dfltlevel u_range dfltlevel stored_user].
  pose proof (uo_version _ _ _ H) as Hver. destruct (user_has_ranges p).
  - eapply parses_bind; [apply parses_range; apply H|].
    eapply parses_bind_r; [apply parses_level; apply H|].
    destruct Hver as [-> |?]; [apply parses_ret|done].
  - destruct (user_has_semantic p); [|apply parses_ret].
    eapply parses_bind; [by apply parses_semantic_range|].
    eapply parses_bind_r; [by apply parses_semantic_level|apply parses_ret].
Qed.

Lemma parses_sens k d : sens_ok k d → parses c sens_entry (sens_bytes k d) (Some (k, stored_level d)).
Proof.
  intros (Hk&Ha&l&El&Hl). unfold sens_entry, sens_bytes, stored_level. rewrite El. apply parses_need_bind.
  pose proof (symbol_len_ok k Hk).
  eapply parses_bind; [apply parses_u32s; [done|by in_range]|].
  change (word [strlen k; l_isalias d] 0) with (strlen k).
  apply parses_guard_bind; [by apply symbol_len_guard|].
  eapply parses_bind; [by apply parses_symbol|]. apply parses_need_bind.
  eapply parses_map; [by apply parses_level|done].
Qed.

Lemma parses_cat k d : cat_ok k d → parses c cat_entry (cat_bytes k d) (Some (k, d)).
Proof.
  destruct d as [v a]. intros (Hk&Hv&Ha). cbn [ct_value ct_isalias] in *. unfold cat_entry, cat_bytes. apply parses_need_bind.
  pose proof (symbol_len_ok k Hk). cbn [ct_value ct_isalias].
  eapply parses_bind; [apply parses_u32s; [done|by in_range]|].
  change (word [strlen k; v; a] 0) with (strlen k).
  apply parses_guard_bind; [by apply symbol_len_guard|].
  eapply parses_map; [by apply parses_symbol|done].
Qed.

Lemma parses_bool p k d : bool_ok k d → parses c (bool_entry p) (bool_bytes p k d) (Some (k, stored_bool p d)).
Proof.
  destruct d as [v st fl]. intros (Hk&Hv&Hs&Hf). cbn [b_value b_state b_flags] in *.
  unfold bool_entry, bool_bytes, stored_bool. cbn [b_value b_state b_flags]. apply parses_need_bind.
  pose proof (symbol_len_ok k Hk).
  assert (u32_ok st). { unfold bool_isvalid in Hs. red. lia. }
  eapply parses_bind; [apply parses_u32s; [done|by in_range]|].
  change (word [v; st; strlen k] 1) with st. change (word [v; st; strlen k] 2) with (strlen k).
  change (word [v; st; strlen k] 0) with v.
  apply parses_guard_bind; [done|].
  eapply parses_bind; [apply parses_str_read; [apply Hk|done|apply Hk]|].
  eapply parses_map; [by apply parses_words_if; [|in_range]|].
  by destruct (module_from p MOD_POLICYDB_VERSION_TUNABLE_SEP).
Qed.
End parse.

(** ** Arbitrary bytes *)

(** The entries of a table, each with the property [P]. *)
Definition entry_sound {D} (P : D → Prop) (e : option (string * D)) : Prop :=
  match e with Some (k, d) => key_ok k ∧ P d | None => True end.

Definition role_sound (p : policydb) (d : role_datum) : Prop :=
  u32_ok (r_value d) ∧ ebitmap_wf (dominates d) ∧ ebitmap_wf (types (r_types d)) ∧ ebitmap_wf (r_roles d) ∧
  r_cache d = ebitmap_init ∧ (is_kern p = true → r_types d = TS (types (r_types d)) ebitmap_init 0).

Definition type_sound (d : type_datum) : Prop :=
  Forall u32_ok [t_value d; primary d; flavor d; t_flags d; bounds d] ∧ ebitmap_wf (t_types d).

Definition user_sound (p : policydb) (d : user_datum) : Prop :=
  u32_ok (u_value d) ∧ ebitmap_wf (rs_roles (u_roles d)) ∧ range_ok (exp_range d) ∧ level_ok (exp_dfltlevel d) ∧
  (is_kern p = true → rs_flags (u_roles d) = 0).

Lemma range_init_ok : range_ok mls_range_init.
Proof. split; (split; [done|apply ebitmap_wf_init]). Qed.

Lemma sound_role_entry p : sound (role_entry p) (entry_sound (role_sound p)).
Proof.
  apply sound_need_bind. eapply sound_bind; [apply sound_u32s; unfold head_words; by destruct (policydb_has_boundary_feature p)|].
  intros buf [_ Hb]. apply sound_guard_bind. intros _.
  eapply sound_bind; [apply sound_key_read; by apply word_ok|]. intros k _.
  eapply sound_bind; [apply sound_ebitmap|]. intros dom Hdom.
  eapply (sound_bind _ _ (λ ts, ebitmap_wf (types ts) ∧ (is_kern p = true → ts = TS (types ts) ebitmap_init 0))).
  { destruct (is_kern p); [by eapply sound_map; [apply sound_ebitmap|]|].
    eapply sound_mono; [apply sound_type_set|]. by intros ts [? _]. }
  intros ts [Hts Hplain]. eapply (sound_bind _ _ (λ r, ebitmap_wf r.2)).
  { destruct (module_from p _); [|apply sound_ret, ebitmap_wf_init].
    apply (sound_u32s_bind 1). intros l _ _. by eapply sound_map; [apply sound_ebitmap|]. }
  intros [fl rs] Hrs. destruct (String.eqb k "object_r").
  - apply sound_guard_bind. intros _. by apply sound_ret.
  - apply sound_ret. split; [done|]. split; [by apply word_ok|]. done.
Qed.

Lemma type_of_words_sound p buf : Forall u32_ok buf → Forall u32_ok
  [t_value (type_of_words p buf); primary (type_of_words p buf); flavor (type_of_words p buf);
   t_flags (type_of_words p buf); bounds (type_of_words p buf)].
Proof.
  intros Hb. assert (∀ i, u32_ok (word buf i)) as Hw by (intros; by apply word_ok).
  unfold type_of_words, type_of_properties.
  destruct (policydb_has_boundary_feature p); [destruct (module_from p MOD_POLICYDB_VERSION_BOUNDARY_ALIAS)|];
    cbn [t_value primary flavor t_flags bounds];
    repeat (apply Forall_cons; split); try apply Hw; try apply Forall_nil_2; by repeat case_match.
Qed.

Lemma sound_type_entry p : sound (type_entry p) (entry_sound type_sound).
Proof.
  apply sound_need_bind. eapply sound_bind; [apply sound_u32s; unfold type_words; by repeat case_match|].
  intros buf [_ Hb]. apply sound_guard_bind. intros _.
  eapply (sound_bind _ _ ebitmap_wf); [destruct (is_kern p); [apply sound_ret, ebitmap_wf_init|apply sound_ebitmap]|].
  intros e He. eapply sound_map; [apply sound_key_read; by apply word_ok|]. intros k _. split; [done|].
  split; [|done]. by apply type_of_words_sound.
Qed.

Lemma sound_user_mls p :
  sound (read_user_mls p) (λ r, range_ok r.1.1.1 ∧ level_ok r.1.1.2).
Proof.
  assert (Hi : range_ok mls_range_init ∧ level_ok mls_level_init) by (split; [apply range_init_ok|apply range_init_ok]).
  unfold read_user_mls. destruct (user_has_ranges p).
  - eapply sound_bind; [apply sound_range|]. intros r Hr. eapply sound_bind; [apply sound_level|]. intros l Hl.
    destruct (is_kern p); [by apply sound_ret|].
    eapply (sound_bind _ _ (λ _, True)); [by apply sound_in_mem|]. intros sr _.
    eapply (sound_bind _ _ (λ _, True)); [by apply sound_some|]. intros sr' _.
    eapply (sound_bind _ _ (λ _, True)); [by apply sound_in_mem|]. intros sl _.
    eapply (sound_bind _ _ (λ _, True)); [by apply sound_some|]. intros sl' _. by apply sound_ret.
  - destruct (user_has_semantic p); [|by apply sound_ret].
    eapply sound_bind; [apply sound_semantic_range|]. intros sr _.
    by eapply sound_map; [apply sound_semantic_level|].
Qed.

Lemma sound_user_entry p : sound (user_entry p) (entry_sound (user_sound p)).
Proof.
  apply sound_need_bind. eapply sound_bind; [apply sound_u32s; unfold head_words; by destruct (policydb_has_boundary_feature p)|].
  intros buf [_ Hb]. apply sound_guard_bind. intros _.
  eapply sound_bind; [apply sound_key_read; by apply word_ok|]. intros k _.
  eapply (sound_bind _ _ (λ rs, ebitmap_wf (rs_roles rs) ∧ (is_kern p = true → rs_flags rs = 0))).
  { destruct (is_kern p); [by eapply sound_map; [apply sound_ebitmap|]|].
    eapply sound_mono; [apply sound_role_set|]. by intros rs [? _]. }
  intros rs [Hrs Hplain]. eapply sound_bind; [apply sound_user_mls|]. intros [[[r l] sr] sl] [Hr Hl]. apply sound_ret.
  split; [done|]. split; [by apply word_ok|done].
Qed.

Definition level_sound (d : level_datum) : Prop := ∃ l, level d = Some l ∧ level_ok l.

Lemma sound_sens_entry : sound sens_entry (entry_sound level_sound).
Proof.
  apply sound_need_bind, (sound_u32s_bind 2). intros buf _ Hb. apply sound_guard_bind. intros _.
  eapply sound_bind; [apply sound_key_read; by apply word_ok|]. intros k _. apply sound_need_bind.
  eapply sound_map; [apply sound_level|]. intros l Hl. split; [done|]. by exists l.
Qed.

Lemma sound_cat_entry : sound cat_entry (entry_sound (λ d, u32_ok (ct_value d))).
Proof.
  apply sound_need_bind, (sound_u32s_bind 3). intros buf _ Hb. apply sound_guard_bind. intros _.
  eapply sound_map; [apply sound_key_read; by apply word_ok|]. intros k _. split; [done|by apply word_ok].
Qed.

Definition bool_sound (d : cond_bool_datum) : Prop := u32_ok (b_value d) ∧ bool_isvalid (b_state d) = true.

Lemma sound_bool_entry p : sound (bool_entry p) (entry_sound bool_sound).
Proof.
  apply sound_need_bind, (sound_u32s_bind 3). intros buf _ Hb. apply sound_guard_bind. intros Hs.
  eapply sound_bind; [apply sound_str_read; by apply word_ok|]. intros k _.
  eapply sound_map; [apply sound_words_if; [done|in_range]|]. intros l _. split; [done|]. split; [by apply word_ok|done].
Qed.
