(* ===== verification/PtrTable.v ===== *)
(** * Tables of pointers in a policy file

    The symbol tables of a policy and its file name transitions map keys to
    pointers.  They are read entry by entry as the tables of SymtabFile.v, with
    one object allocated per entry.  A table of pointers and the objects they
    refer to stand for a table of values ([points]); reading and writing the one
    is shown to be reading and writing the other, so the round trips of
    SymtabFile.v carry over. *)

From S2P Require Import Prelude Policyfile Hashtab SymtabFile Policydb.

(** ** Readers that agree

    [follows Q r1 r2]: when [r2] returns a value, so does [r1], from the same
    bytes, and [Q] relates the values.  [agrees]: the errors are the same too. *)

Definition follows {A B} (Q : A → B → Prop) (r1 : R A) (r2 : R B) : Prop :=
  ∀ s, match r2 s with
       | Ret (inr b, s') => ∃ a, r1 s = Ret (inr a, s') ∧ Q a b
       | _ => True
       end.

Definition agrees {A B} (Q : A → B → Prop) (r1 : R A) (r2 : R B) : Prop :=
  follows Q r1 r2 ∧
  ∀ s, match r2 s with
       | Ret (inr _, _) => True
       | Ret (inl e, s') => r1 s = Ret (inl e, s')
       | Exit z => r1 s = Exit z
       | Undef => r1 s = Undef
       end.

Lemma follows_ret {A B} (Q : A → B → Prop) a b : Q a b → follows Q (mret a) (mret b).
Proof. intros HQ s. by exists a. Qed.

Lemma follows_refl {A} (r : R A) : follows eq r r.
Proof. intros s. destruct (r s) as [[[e|a] s']| |]; [done| |done|done]. by exists a. Qed.

Lemma follows_bind {A A' B B'} (P : A → A' → Prop) (Q : B → B' → Prop) r1 r2 f1 f2 :
  follows P r1 r2 → (∀ a a', P a a' → follows Q (f1 a) (f2 a')) → follows Q (r1 ≫= f1) (r2 ≫= f2).
Proof.
  intros H1 H2 s. specialize (H1 s). unfold mbind, R_bind.
  destruct (r2 s) as [[[e|a'] s']| |]; try done. destruct H1 as (a&->&HP). apply (H2 _ _ HP).
Qed.

Lemma agrees_ret {A B} (Q : A → B → Prop) a b : Q a b → agrees Q (mret a) (mret b).
Proof. intros HQ. split; [by apply follows_ret|done]. Qed.

Lemma agrees_refl {A} (r : R A) : agrees eq r r.
Proof. split; [apply follows_refl|]. intros s. by destruct (r s) as [[[]]| |]. Qed.

Lemma agrees_bind {A A' B B'} (P : A → A' → Prop) (Q : B → B' → Prop) r1 r2 f1 f2 :
  agrees P r1 r2 → (∀ a a', P a a' → agrees Q (f1 a) (f2 a')) → agrees Q (r1 ≫= f1) (r2 ≫= f2).
Proof.
  intros [H1 E1] H2. split; [eapply follows_bind; [done|]; intros a a' HP; apply (H2 _ _ HP)|].
  intros s. specialize (H1 s). specialize (E1 s). unfold mbind, R_bind.
  destruct (r2 s) as [[[e|a'] s']| |]; try by rewrite E1.
  destruct H1 as (a&->&HP). apply (proj2 (H2 _ _ HP) s').
Qed.

Lemma agrees_on_error {A B} (Q : A → B → Prop) rc r1 r2 : agrees Q r1 r2 → agrees Q (on_error rc r1) (on_error rc r2).
Proof.
  intros [H E]. split; intros s; specialize (H s); specialize (E s); unfold on_error;
    destruct (r2 s) as [[[e|b] s']| |]; try done; try by rewrite E.
  destruct H as (a&->&HQ). by exists a.
Qed.

Lemma parses_follows {A B} c (Q : A → B → Prop) (P : B → Prop) (r1 : R A) (r2 : R B) bs :
  follows Q r1 r2 → parses_to c r2 bs P → parses_to c r1 bs (λ a, ∃ b, P b ∧ Q a b).
Proof.
  intros Hf H2 rest out m Hm. destruct (H2 rest out m Hm) as (b&m'&Hm'&HP&E).
  specialize (Hf (FS (image (bs ++ rest) out) c m)). rewrite E in Hf. destruct Hf as (a&Ea&HQ).
  exists a, m'. split_and!; [done| |done]. by exists b.
Qed.

Lemma sound_agrees {A B} (Q : A → B → Prop) (P : B → Prop) (r1 : R A) (r2 : R B) :
  agrees Q r1 r2 → sound r2 P → sound r1 (λ a, ∃ b, P b ∧ Q a b).
Proof.
  intros [Hf He] Hs s Hok. specialize (Hs s Hok). specialize (Hf s). specialize (He s).
  destruct (r2 s) as [[[e|b] s']| |]; try done; [by rewrite He|].
  destruct Hf as (a&->&HQ). destruct Hs as [HP Hs]. split; [by exists b|done].
Qed.

(** ** Tables of pointers *)

Lemma at_index_app_l {A} (l l' : list A) i a : at_index l i = Some a → at_index (l ++ l') i = Some a.
Proof. unfold at_index. destruct (i <? 0); [done|]. apply lookup_app_l_Some. Qed.

Lemma at_index_last {A} (l : list A) a : at_index (l ++ [a]) (Z.of_nat (length l)) = Some a.
Proof.
  unfold at_index. destruct (Z.ltb_spec (Z.of_nat (length l)) 0); [lia|]. rewrite Nat2Z.id. by apply list_lookup_middle.
Qed.

Lemma Forall2_join {A B} (P : A → B → Prop) ls ks : Forall2 (Forall2 P) ls ks → Forall2 P (mjoin ls) (mjoin ks).
Proof. induction 1; [constructor|]. by apply Forall2_app. Qed.

Section ptr_table.
Context {K D : Type} `{HL : HashKeyLaws K} `{Countable K}.
Implicit Types (k : K) (d : D) (a : ptr) (h : hashtab_t K ptr) (hv : hashtab_t K D) (l : list D).

(** A new object, entered under [k]; [dup] is what happens when the key is in
    the table already. *)
Definition ptr_insert (dup : K → D → R ()) (t : hashtab_t K ptr * list D) k d : R (hashtab_t K ptr * list D) :=
  '(rc, h') ← in_mem (λ m, let '(rc, h', m) := hashtab_insert t.1 k (Z.of_nat (length t.2)) m in ((rc, h'), m));
  if rc =? SEPOL_OK then mret (h', t.2 ++ [d])
  else if rc =? SEPOL_EEXIST then _ ← dup k d; mret t
  else fail (-1).

(** [None] is an entry that is read and dropped. *)
Definition ptr_entry (dup : K → D → R ()) (r : R (option (K * D))) (t : hashtab_t K ptr * list D)
    : R (hashtab_t K ptr * list D) :=
  e ← r;
  match e with Some (k, d) => ptr_insert dup t k d | None => mret t end.

(** [for (i = 0; i < n; i++)] over the entries. *)
Fixpoint ptr_read (dup : K → D → R ()) (r : R (option (K * D))) (n : nat) (t : hashtab_t K ptr * list D)
    : R (hashtab_t K ptr * list D) :=
  match n with
  | O => mret t
  | S n' =>
      t ← ptr_entry dup r t;
      ptr_read dup r n' t
  end.

(** [*datum] in the callback of [hashtab_map]. *)
Definition at_ptr {S} l (w : K → D → M S Z) (k : K) (a : ptr) : M S Z := λ s,
  match at_index l a with Some d => w k d s | None => Undef end.

(** *** The table of values a table of pointers stands for *)

Definition entry_points l (x : K * ptr) (y : K * D) : Prop := x.1 = y.1 ∧ at_index l x.2 = Some y.2.

Definition table_points l (t : hashtab_val K ptr) (tv : hashtab_val K D) : Prop :=
  Forall2 (Forall2 (entry_points l)) (htable t) (htable tv) ∧ size t = size tv ∧ nel t = nel tv.

Definition points l h hv : Prop :=
  match h, hv with
  | Some t, Some tv => table_points l t tv
  | None, None => True
  | _, _ => False
  end.

Lemma points_mono l l' h hv :
  (∀ a d, at_index l a = Some d → at_index l' a = Some d) → points l h hv → points l' h hv.
Proof.
  intros Hl. destruct h as [t|], hv as [tv|]; [|done..]. intros (Ht&?&?). split; [|done].
  eapply Forall2_impl; [exact Ht|]. intros c cv Hc. eapply Forall2_impl; [exact Hc|]. intros x y [? ?]. split; auto.
Qed.

Lemma points_app l l' h hv : points l h hv → points (l ++ l') h hv.
Proof. apply points_mono. intros a d. apply at_index_app_l. Qed.

Lemma walk_points l k c cv : Forall2 (entry_points l) c cv →
  Forall2 (entry_points l) (walk k c).1 (walk k cv).1 ∧ Forall2 (entry_points l) (walk k c).2 (walk k cv).2.
Proof.
  induction 1 as [|x y c cv [E Ea] Hc IH]; [done|]. cbn [walk]. rewrite E. destruct (0 <? keycmp k y.1).
  - destruct (walk k c) as [b r], (walk k cv) as [bv rv]. cbn in *. split; [|apply IH]. constructor; [done|apply IH].
  - cbn. split; [constructor|]. constructor; done.
Qed.

Lemma chain_points l t tv i : table_points l t tv → Forall2 (entry_points l) (chain t i) (chain tv i).
Proof.
  intros (Ht&_&_). unfold chain, at_index. destruct (i <? 0); [constructor|].
  destruct (htable t !! Z.to_nat i) as [c|] eqn:E.
  - destruct (Forall2_lookup_l _ _ _ _ _ Ht E) as (cv&->&Hc). done.
  - destruct (htable tv !! Z.to_nat i) as [cv|] eqn:Ev; [|constructor].
    destruct (Forall2_lookup_r _ _ _ _ _ Ht Ev) as (c&E'&_). congruence.
Qed.

Lemma at_key_points l k c cv : Forall2 (entry_points l) c cv → at_key k c = at_key k cv.
Proof. destruct 1 as [|x y c cv [E _] _]; [done|]. cbn. by rewrite E. Qed.

Lemma set_index_points l (b : list (list (K * ptr))) (bv : list (list (K * D))) i c cv :
  Forall2 (Forall2 (entry_points l)) b bv → Forall2 (entry_points l) c cv →
  Forall2 (Forall2 (entry_points l)) (set_index b i c) (set_index bv i cv).
Proof. intros Hb Hc. by apply Forall2_insert. Qed.

(** An insertion in the one table is the insertion in the other. *)
Lemma points_insert l h hv k a d m :
  points l h hv → at_index l a = Some d →
  let '(rc, h', m') := hashtab_insert h k a m in
  let '(rcv, hv', mv') := hashtab_insert hv k d m in
  rc = rcv ∧ m' = mv' ∧ points l h' hv'.
Proof.
  intros Hp Ha. destruct h as [t|], hv as [tv|]; [|done..]. cbn [hashtab_insert].
  pose proof Hp as (Ht&Es&En). rewrite Es. set (i := hash_value (size tv) k).
  pose proof (chain_points l t tv i Hp) as Hc. destruct (walk_points l k _ _ Hc) as [Hb Hr].
  destruct (walk k (chain t i)) as [b r], (walk k (chain tv i)) as [bv rv]. cbn [fst snd] in *.
  rewrite (at_key_points l k r rv Hr). destruct (at_key k rv); [done|].
  destruct (malloc m) as [[] m']; cbn [negb]; [|done]. split_and!; [done..|]. split; [|cbn; by rewrite En].
  cbn [htable]. unfold set_chain. apply set_index_points; [done|]. apply Forall2_app; [done|]. by constructor.
Qed.

Lemma points_search l h hv k : points l h hv →
  (∀ d, hashtab_search hv k = Some d ↔ ∃ a, hashtab_search h k = Some a ∧ at_index l a = Some d) ∧
  (hashtab_search hv k = None ↔ hashtab_search h k = None).
Proof.
  intros Hp. destruct h as [t|], hv as [tv|]; try done;
    [|split; [|done]; intros d; split; [done|by intros (?&?&?)]].
  cbn [hashtab_search]. pose proof Hp as (_&Es&_). rewrite Es.
  destruct (walk_points l k _ _ (chain_points l t tv (hash_value (size tv) k) Hp)) as [_ Hr].
  destruct Hr as [|x y c cv [E Ea] _]; [split; [|done]; intros d; split; [done|by intros (?&?&?)]|].
  rewrite E. destruct (keycmp k y.1 =? 0); cbn [negb].
  - split; [|done]. intros d. split; [intros [= <-]; eauto|]. intros (a&[= <-]&Ha). congruence.
  - split; [|done]. intros d. split; [done|by intros (?&?&?)].
Qed.

Lemma points_map {S} l h hv (w : K → D → M S Z) s : points l h hv →
  hashtab_map h (at_ptr l w) s = hashtab_map hv w s.
Proof.
  destruct h as [t|], hv as [tv|]; [|done..]. intros (Ht&Es&_). cbn [hashtab_map]. rewrite Es.
  assert (Hc : ∀ c cv, Forall2 (entry_points l) c cv → ∀ (s : S), map_chain (at_ptr l w) c s = map_chain w cv s).
  { induction 1 as [|x y c cv [E Ea] Hc IH]; [done|]. intros s'. cbn [map_chain]. unfold mbind, M_bind, at_ptr at 1.
    rewrite E, Ea. destruct (w y.1 y.2 s') as [[rc s'']| |]; [|done..]. destruct (rc =? 0); cbn; [apply IH|done]. }
  assert (Hb : Forall2 (Forall2 (entry_points l)) (take (Z.to_nat (size tv)) (htable t)) (take (Z.to_nat (size tv)) (htable tv)))
    by by apply Forall2_take.
  revert s. induction Hb as [|c cv b bv Hcc Hb IH]; [done|]. intros s. cbn [map_buckets]. unfold mbind, M_bind.
  rewrite (Hc _ _ Hcc). destruct (map_chain w cv s) as [[rc s']| |]; [|done..].
  destruct (rc =? 0); cbn; [apply IH|done].
Qed.

Lemma points_nel l h hv : points l h hv → (nel <$> h) = (nel <$> hv).
Proof. destruct h, hv; [|done..]. intros (_&_&?). by f_equal/=. Qed.

Lemma points_entries l h hv : points l h hv → Forall2 (entry_points l) (table_entries h) (table_entries hv).
Proof. destruct h, hv; try done. intros (Ht&_&_). by apply Forall2_join. Qed.

Lemma points_wf l h hv : points l h hv → hashtab_wf hv → hashtab_wf h.
Proof.
  destruct h as [t|], hv as [tv|]; [|done..]. intros Hp [(Hs&Hlen&Hb) Hn]. pose proof Hp as (Ht&Es&En).
  assert (Hsort : ∀ c cv, Forall2 (entry_points l) c cv → chain_ok cv → chain_ok c).
  { induction 1 as [|x y c cv [E _] Hc IH]; [split; constructor|]. intros [S O].
    apply StronglySorted_cons in S as [F S]. apply Forall_cons in O as [O1 O]. destruct (IH (conj S O)) as [S' O'].
    split; [|constructor; [by rewrite E|done]]. constructor; [done|]. 
    apply Forall_forall. intros z Hz. apply list_elem_of_lookup in Hz as [i Hi].
    destruct (Forall2_lookup_l _ _ _ _ _ Hc Hi) as (z'&Hi'&Ez&_). rewrite E, Ez.
    rewrite Forall_lookup in F. by apply (F i z'). }
  split.
  - split; [by rewrite Es|]. split; [rewrite Es; by rewrite (Forall2_length _ _ _ Ht)|].
    intros i c Hi. destruct (Forall2_lookup_l _ _ _ _ _ Ht Hi) as (cv&Hi'&Hc).
    destruct (Hb i cv Hi') as [C F]. split; [by eapply Hsort|].
    apply Forall_forall. intros z Hz. apply list_elem_of_lookup in Hz as [j Hj].
    destruct (Forall2_lookup_l _ _ _ _ _ Hc Hj) as (z'&Hj'&Ez&_). rewrite Es, Ez.
    rewrite Forall_lookup in F. by apply (F j z').
  - rewrite En, Hn. f_equal. f_equal. symmetry. apply (Forall2_length (entry_points l)).
    by apply Forall2_join.
Qed.

(** *** Reading *)

Definition dup_fails : K → D → R () := λ _ _, fail (-1).

(** What a read of a table of pointers makes of the table of values. *)
Definition reads_as (t : hashtab_t K ptr * list D) hv : Prop := points t.2 t.1 hv.

Lemma ptr_insert_follows dup t hv k d :
  reads_as t hv → follows reads_as (ptr_insert dup t k d) (table_insert hv k d).
Proof.
  destruct t as [h l]. intros Hp s. unfold ptr_insert, table_insert, in_mem, mbind, R_bind. cbn [fst snd].
  pose proof (points_insert (l ++ [d]) h hv k (Z.of_nat (length l)) d (fmem s)
    (points_app _ _ _ _ Hp) (at_index_last _ _)) as Hi.
  destruct (hashtab_insert h k _ _) as [[rc h'] m'], (hashtab_insert hv k d (fmem s)) as [[rcv hv'] mv'].
  destruct Hi as (->&->&Hi). cbn. change SEPOL_OK with 0. destruct (rcv =? 0); cbn; [|done].
  by exists (h', l ++ [d]).
Qed.

Lemma insert_status hv k d m : let '(rc, hv', _) := hashtab_insert hv k d m in
  rc = SEPOL_OK ∨ (rc ≠ 0 ∧ hv' = hv).
Proof.
  destruct hv as [t|]; cbn [hashtab_insert]; [|by right].
  destruct (walk k _) as [b r]. destruct (at_key k r); [by right|].
  destruct (malloc m) as [[] m']; cbn; [by left|by right].
Qed.

Lemma ptr_insert_agrees t hv k d :
  reads_as t hv → agrees reads_as (ptr_insert dup_fails t k d) (table_insert hv k d).
Proof.
  intros Hp. split; [by apply ptr_insert_follows|]. destruct t as [h l]. intros s.
  unfold ptr_insert, table_insert, in_mem, mbind, R_bind. cbn [fst snd].
  pose proof (points_insert (l ++ [d]) h hv k (Z.of_nat (length l)) d (fmem s)
    (points_app _ _ _ _ Hp) (at_index_last _ _)) as Hi.
  destruct (hashtab_insert h k _ _) as [[rc h'] m'], (hashtab_insert hv k d (fmem s)) as [[rcv hv'] mv'].
  destruct Hi as (->&->&Hi). cbn. change SEPOL_OK with 0. destruct (rcv =? 0); cbn; [done|].
  by destruct (rcv =? SEPOL_EEXIST).
Qed.

Lemma ptr_entry_follows dup r t hv :
  reads_as t hv → follows reads_as (ptr_entry dup r t) (entry_read r hv).
Proof.
  intros Hp. eapply follows_bind; [apply follows_refl|]. intros e _ <-.
  destruct e as [[k d]|]; [by apply ptr_insert_follows|by apply follows_ret].
Qed.

Lemma ptr_read_follows dup r n : ∀ t hv,
  reads_as t hv → follows reads_as (ptr_read dup r n t) (table_read r n hv).
Proof.
  induction n as [|n IH]; intros t hv Hp; [by apply follows_ret|].
  eapply follows_bind; [by apply ptr_entry_follows|]. apply IH.
Qed.

Lemma ptr_read_agrees r n : ∀ t hv,
  reads_as t hv → agrees reads_as (ptr_read dup_fails r n t) (table_read r n hv).
Proof.
  induction n as [|n IH]; intros t hv Hp; [by apply agrees_ret|].
  eapply agrees_bind; [|apply IH]. eapply agrees_bind; [apply agrees_refl|]. intros e _ <-.
  destruct e as [[k d]|]; [by apply ptr_insert_agrees|by apply agrees_ret].
Qed.
End ptr_table.
