(* ===== verification/Sepolicy.v ===== *)
(** * Live patching of a policy (magiskpolicy/sepolicy.c)

    The operations on the loaded policy: access rules, extended permission
    rules, type transitions, new domains, attributes and permissive domains.
    Every function returns 0 or 1, as in the C file; [cmalloc] ends the process
    when memory runs out.  Reading and writing policy files is not modelled
    here. *)

From S2P Require Import Prelude Ebitmap Hashtab Avtab Context Policydb Expand.

(** ** Helpers *)

Definition cmalloc : M st () :=
  ok ← alloc;
  if ok : bool then mret () else lift (Exit 1).

Definition find_type (name : string) : M st (option ptr) :=
  tab ← get_p p_types; mret (hashtab_search (table tab) name).

Definition find_class (name : string) : M st (option ptr) :=
  tab ← get_p p_classes; mret (hashtab_search (table tab) name).

(** [hashtab_for_each]: the datums in the order of the traversal. *)
Definition datums {D} (h : hashtab_t string D) : list D :=
  match h with
  | None => []
  | Some t => (mjoin (take (Z.to_nat (size t)) (htable t))).*2
  end.

(** The loop [hashtab_for_each(...) ret |= body] *)
Fixpoint or_loop {A} (body : A → M st Z) (l : list A) (ret : Z) : M st Z :=
  match l with
  | [] => mret ret
  | a :: l' => r ← body a; or_loop body l' (Z.lor ret r)
  end.

Definition for_each_type (body : ptr → M st Z) : M st Z :=
  tab ← get_p p_types; _ ← ref (table tab); or_loop body (datums (table tab)) 0.

Definition for_each_class (body : ptr → M st Z) : M st Z :=
  tab ← get_p p_classes; _ ← ref (table tab); or_loop body (datums (table tab)) 0.

(** [ebitmap_set_bit(&arr[i], bit, v)] *)
Definition map_set_bit (arr : policydb → list (option ebitmap))
    (set : list (option ebitmap) → policydb → policydb) (i bit : Z) (v : bool) : M st Z :=
  x ← elem arr i;
  e ← ref x;
  '(rc, e) ← set_bit e bit v;
  _ ← write arr set i (Some e);
  mret rc.

(** ** Attributes *)

Definition get_attr (type : string) (value : Z) : M st Z :=
  q ← find_type type;
  match q with
  | None => mret 1
  | Some q =>
      attr ← load type_mem q;
      if negb (flavor attr =? TYPE_ATTRIB) then mret 1
      else
        x ← elem attr_type_map (t_value attr - 1);
        e ← ref x;
        mret (if ebitmap_get_bit e (value - 1) then 1 else 0)
  end.

Definition get_attr_id (type : string) : M st Z :=
  q ← find_type type;
  match q with
  | None => mret 1
  | Some q =>
      attr ← load type_mem q;
      if negb (flavor attr =? TYPE_ATTRIB) then mret 1 else mret (t_value attr)
  end.

Definition set_attr (type : string) (value : Z) : M st Z :=
  q ← find_type type;
  match q with
  | None => mret 1
  | Some q =>
      attr ← load type_mem q;
      if negb (flavor attr =? TYPE_ATTRIB) then mret 1
      else
        rc ← map_set_bit type_attr_map set_type_attr_map (value - 1) (t_value attr - 1) true;
        if negb (rc =? 0) then mret 1
        else
          rc ← map_set_bit attr_type_map set_attr_type_map (t_value attr - 1) (value - 1) true;
          if negb (rc =? 0) then mret 1 else mret 0
  end.

(** ** Access rules *)

(** The key of a rule: its fields are [uint16_t]. *)
Definition rule_key (s t c effect : Z) : avtab_key := AK (u16 s) (u16 t) (u16 c) (u16 effect).

(** The new value of [av->data]; a shift by a number outside 0..31 is
    undefined. *)
Definition new_data (d p : Z) (not : bool) : outcome Z :=
  if p <? 0 then Ret (if not then 0 else 0xffffffff)
  else if (p =? 0) || (32 <? p) then Undef
  else
    let bit := u32 (Z.shiftl 1 (p - 1)) in
    Ret (if not then Z.land d (not32 bit) else Z.lor d bit).

(** Inserts a rule that is not in the table yet. *)
Definition insert_rule (k : avtab_key) (d : avtab_datum) : M st Z :=
  tab ← get_p te_avtab;
  '(rc, tab) ← with_mem (λ m, let '(rc, tab, m) := avtab_insert tab k d m in ((rc, tab), m));
  _ ← upd (set_te_avtab tab);
  mret (if negb (rc =? 0) then 1 else 0).

Definition __add_rule (s t c p effect : Z) (not : bool) : M st Z :=
  let key := rule_key s t c effect in
  tab ← get_p te_avtab;
  match avtab_search tab key with
  | Some av =>
      d ← lift (new_data (data (datum av)) p not);
      _ ← upd (set_te_avtab (avtab_set_datum tab (naddr av) (AD d (xperms (datum av)))));
      mret 0
  | None =>
      _ ← cmalloc;
      d ← lift (new_data 0 p not);
      insert_rule key (AD d None)
  end.

(** [perm ? perm->s.value : -1] *)
Definition perm_value (perm : option perm_datum) : Z :=
  match perm with Some d => pd_value d | None => -1 end.

(** [add_rule_auto] calls itself with one NULL argument less each time: the
    three levels are the class, the target and the source. *)
Definition add_rule_auto_cls (src tgt : ptr) (cls : option ptr) (perm : option perm_datum)
    (effect : Z) (not : bool) : M st Z :=
  match cls with
  | None =>
      for_each_class (λ cls,
        s ← load type_mem src; t ← load type_mem tgt; c ← load class_mem cls;
        __add_rule (t_value s) (t_value t) (c_value c) (-1) effect not)
  | Some cls =>
      s ← load type_mem src; t ← load type_mem tgt; c ← load class_mem cls;
      __add_rule (t_value s) (t_value t) (c_value c) (perm_value perm) effect not
  end.

Definition add_rule_auto_tgt (src : ptr) (tgt cls : option ptr) (perm : option perm_datum)
    (effect : Z) (not : bool) : M st Z :=
  match tgt with
  | None => for_each_type (λ tgt, add_rule_auto_cls src tgt cls perm effect not)
  | Some tgt => add_rule_auto_cls src tgt cls perm effect not
  end.

Definition add_rule_auto (src tgt cls : option ptr) (perm : option perm_datum)
    (effect : Z) (not : bool) : M st Z :=
  match src with
  | None => for_each_type (λ src, add_rule_auto_tgt src tgt cls perm effect not)
  | Some src => add_rule_auto_tgt src tgt cls perm effect not
  end.

(** ** Extended permission rules *)

Definition ioctl_driver (x : Z) : Z := Z.land (Z.shiftr x 8) 0xFF.
Definition ioctl_func (x : Z) : Z := Z.land x 0xFF.

(** The macros [xperm_set] and [xperm_clear]. *)
Definition xperm_set (x : Z) (p : list Z) : list Z :=
  let w := Z.shiftr x 5 in
  set_index p w (Z.lor (default 0 (at_index p w)) (u32 (Z.shiftl 1 (Z.land x 0x1f)))).
Definition xperm_clear (x : Z) (p : list Z) : list Z :=
  let w := Z.shiftr x 5 in
  set_index p w (Z.land (default 0 (at_index p w)) (not32 (u32 (Z.shiftl 1 (Z.land x 0x1f))))).
Definition xperm_test (x : Z) (p : list Z) : bool :=
  Z.testbit (default 0 (at_index p (Z.shiftr x 5))) (Z.land x 0x1f).

(** [for (i = lo; i <= hi; ++i)] *)
Definition xperm_range (lo hi : Z) (not : bool) (p : list Z) : list Z :=
  fold_left (λ p i, if not then xperm_clear i p else xperm_set i p) (seqZ lo (hi - lo + 1)) p.

Definition update_xperms (low high : Z) (not : bool) (x : avtab_extended_perms) : avtab_extended_perms :=
  XP (xp_specified x) (driver x)
     (if xp_specified x =? AVTAB_XPERMS_IOCTLDRIVER
      then xperm_range (ioctl_driver low) (ioctl_driver high) not (perms x)
      else xperm_range (ioctl_func low) (ioctl_func high) not (perms x)).

Definition new_xperms (low high : Z) : avtab_extended_perms :=
  if negb (ioctl_driver low =? ioctl_driver high)
  then XP AVTAB_XPERMS_IOCTLDRIVER 0 (replicate 8 0)
  else XP AVTAB_XPERMS_IOCTLFUNCTION (ioctl_driver low) (replicate 8 0).

Definition __add_xperm_rule (s t c low high effect : Z) (not : bool) : M st Z :=
  let key := rule_key s t c effect in
  tab ← get_p te_avtab;
  match avtab_search tab key with
  | Some av =>
      x ← ref (xperms (datum av));
      _ ← upd (set_te_avtab (avtab_set_datum tab (naddr av)
                 (AD (data (datum av)) (Some (update_xperms low high not x)))));
      mret 0
  | None =>
      _ ← cmalloc;
      _ ← cmalloc;
      insert_rule key (AD 0 (Some (update_xperms low high not (new_xperms low high))))
  end.

Definition add_xperm_rule_auto_cls (src tgt : ptr) (cls : option ptr) (low high effect : Z)
    (not : bool) : M st Z :=
  match cls with
  | None =>
      for_each_class (λ cls,
        s ← load type_mem src; t ← load type_mem tgt; c ← load class_mem cls;
        __add_xperm_rule (t_value s) (t_value t) (c_value c) low high effect not)
  | Some cls =>
      s ← load type_mem src; t ← load type_mem tgt; c ← load class_mem cls;
      __add_xperm_rule (t_value s) (t_value t) (c_value c) low high effect not
  end.

Definition add_xperm_rule_auto_tgt (src : ptr) (tgt cls : option ptr) (low high effect : Z)
    (not : bool) : M st Z :=
  match tgt with
  | None => for_each_type (λ tgt, add_xperm_rule_auto_cls src tgt cls low high effect not)
  | Some tgt => add_xperm_rule_auto_cls src tgt cls low high effect not
  end.

Definition add_xperm_rule_auto (src tgt cls : option ptr) (low high effect : Z) (not : bool) : M st Z :=
  match src with
  | None => for_each_type (λ src, add_xperm_rule_auto_tgt src tgt cls low high effect not)
  | Some src => add_xperm_rule_auto_tgt src tgt cls low high effect not
  end.

(** ** Domains *)

Definition set_role_types (ts : type_set) (d : role_datum) : role_datum :=
  RD (r_value d) (dominates d) ts (r_cache d) (r_bounds d) (r_flavor d) (r_roles d).

(** The loop body of [create_domain]; the results of the three calls are
    ignored. *)
Definition add_to_role (value i : Z) : M st () :=
  x ← elem role_val_to_struct i;
  q ← ref x;
  r ← load role_mem q;
  '(_, neg) ← set_bit (negset (r_types r)) (value - 1) false;
  '(_, tys) ← set_bit (types (r_types r)) (value - 1) true;
  let ts := TS tys neg (ts_flags (r_types r)) in
  '(_, c) ← type_set_expand ts false;
  write role_mem set_role_mem q (set_r_cache c (set_role_types ts r)).

Fixpoint add_to_roles (value : Z) (l : list Z) : M st () :=
  match l with
  | [] => mret ()
  | i :: l' => _ ← add_to_role value i; add_to_roles value l'
  end.

(** [realloc(arr, sizeof(ebitmap_t) * n)]: the new elements are not initialised. *)
Definition realloc_maps (arr : policydb → list (option ebitmap))
    (set : list (option ebitmap) → policydb → policydb) (n : Z) : M st () :=
  ok ← alloc;
  l ← get_p arr;
  upd (set (if ok : bool
            then take (Z.to_nat n) l ++ replicate (Z.to_nat n - length l) None
            else [])).

(** [ebitmap_set_bit(&policydb->global->branch_list->declared.scope[SYM_TYPES], bit, 1)] *)
Definition declare_type (bit : Z) : M st Z :=
  blocks ← get_p global;
  match blocks with
  | BLK (DECL id scopes :: decls) :: rest =>
      e ← ref (at_index scopes SYM_TYPES);
      '(rc, e) ← set_bit e bit true;
      _ ← upd (set_global (BLK (DECL id (set_index scopes SYM_TYPES e) :: decls) :: rest));
      mret rc
  | _ => lift Undef
  end.

(** Runs [c2] when [c1] returned 0, and returns 1 otherwise. *)
Definition or_fail (c1 c2 : M st Z) : M st Z :=
  rc ← c1; if negb (rc =? 0) then mret 1 else c2.

(** The last part of [create_domain], after the maps have been set up. *)
Definition finish_domain (d : string) (value : Z) : M st Z :=
  src ← find_type d;
  match src with
  | None => mret 1
  | Some _ =>
      or_fail policydb_index_decls (or_fail policydb_index_classes (or_fail policydb_index_others (
        nr ← get_p (λ p, nprim (p_roles p));
        _ ← add_to_roles value (upto nr);
        set_attr "domain" value)))
  end.

Definition create_domain (name : option string) : M st Z :=
  d ← ref name;
  src ← find_type d;
  match src with
  | Some _ => mret 0
  | None =>
      ok ← alloc;                                        (* malloc, not checked *)
      if negb ok then lift Undef
      else
        q ← new type_mem set_type_mem (TD 0 1 TYPE_TYPE ebitmap_init 0 0);
        ok ← alloc;                                      (* strdup, not checked *)
        if negb ok then lift Undef
        else
          '(_, v) ← symtab_insert SYM_TYPES d q SCOPE_DECL 1 true;
          let value := default 0 v in
          _ ← write type_mem set_type_mem q (TD value 1 TYPE_TYPE ebitmap_init 0 0);
          rc ← declare_type (u32 (value - 1));
          if negb (rc =? 0) then mret 1
          else
            np ← get_p (λ p, nprim (p_types p));
            _ ← realloc_maps type_attr_map set_type_attr_map np;
            _ ← realloc_maps attr_type_map set_attr_type_map np;
            _ ← write type_attr_map set_type_attr_map (value - 1) (Some ebitmap_init);
            _ ← write attr_type_map set_attr_type_map (value - 1) (Some ebitmap_init);
            _ ← map_set_bit type_attr_map set_type_attr_map (value - 1) (value - 1) true;
            finish_domain d value
  end.

(** [ebitmap_set_bit(&policydb->permissive_map, type->s.value, state)] *)
Definition set_permissive (q : ptr) (state : bool) : M st Z :=
  t ← load type_mem q;
  e ← get_p permissive_map;
  '(rc, e) ← set_bit e (t_value t) state;
  _ ← upd (set_permissive_map e);
  mret rc.

Fixpoint set_permissive_all (l : list ptr) (state : bool) : M st Z :=
  match l with
  | [] => mret 0
  | q :: l' => rc ← set_permissive q state; if negb (rc =? 0) then mret 1 else set_permissive_all l' state
  end.

Definition set_domain_state (s : option string) (state : bool) : M st Z :=
  match s with
  | None =>
      tab ← get_p p_types; _ ← ref (table tab); set_permissive_all (datums (table tab)) state
  | Some s =>
      q ← find_type s;
      match q with
      | None => mret 1
      | Some q => rc ← set_permissive q state; mret (if negb (rc =? 0) then 1 else 0)
      end
  end.

(** ** Transitions *)

(** Looks up the four names: 1 when one does not exist. *)
Definition with_names (s t c d : string) (k : ptr → ptr → ptr → ptr → M st Z) : M st Z :=
  src ← find_type s;
  match src with None => mret 1 | Some src =>
    tgt ← find_type t;
    match tgt with None => mret 1 | Some tgt =>
      cls ← find_class c;
      match cls with None => mret 1 | Some cls =>
        def ← find_type d;
        match def with None => mret 1 | Some def => k src tgt cls def end
      end
    end
  end.

Definition add_transition (s t c d : string) : M st Z :=
  with_names s t c d (λ src tgt cls def,
    src ← load type_mem src; tgt ← load type_mem tgt; cls ← load class_mem cls; def ← load type_mem def;
    let key := rule_key (t_value src) (t_value tgt) (c_value cls) AVTAB_TRANSITION in
    tab ← get_p te_avtab;
    match avtab_search tab key with
    | Some av =>
        _ ← upd (set_te_avtab (avtab_set_datum tab (naddr av) (AD (t_value def) (xperms (datum av)))));
        mret 0
    | None => _ ← cmalloc; insert_rule key (AD (t_value def) None)
    end).

(** The bytes of a [uint32_t] in memory. *)
Definition le32_bytes (z : Z) : list Z :=
  [u8 z; u8 (Z.shiftr z 8); u8 (Z.shiftr z 16); u8 (Z.shiftr z 24)].

(** The C string that starts at an object: its bytes up to the first zero;
    [None] when there is none in the bytes given. *)
Fixpoint bytes_string (l : list Z) : option string :=
  match l with
  | [] => None
  | b :: l' => if b =? 0 then Some EmptyString else String (ascii_of_N (Z.to_N b)) <$> bytes_string l'
  end.

(** [(hashtab_key_t) &trans_key] read as a string. *)
Definition key_as_string (k : filename_trans) : option string :=
  bytes_string (le32_bytes (ft_stype k) ++ le32_bytes (ft_ttype k) ++ le32_bytes (ft_tclass k)).

(** [hashtab_insert(policydb->filename_trans, &trans_key, trans_datum)]: the key
    lives in the caller's frame, so an inserted key dangles once the function
    returns; comparing with such a key is undefined. *)
Definition insert_filename_trans (k : filename_trans) (q : ptr) : M st () :=
  h ← get_p filename_trans_tab;
  dead ← get_p dangling;
  let walked := match h with Some t => chain t (hash_value (size t) k) | None => [] end in
  if existsb (λ e, bool_decide (e.1 ∈ dead)) walked then lift Undef
  else
    '(rc, h) ← with_mem (λ m, let '(rc, h, m) := hashtab_insert h k q m in ((rc, h), m));
    _ ← upd (set_filename_trans_tab h);
    if rc =? SEPOL_OK then upd (set_dangling (k :: dead)) else mret ().

Definition add_file_transition (s t c d filename : string) : M st Z :=
  with_names s t c d (λ src tgt cls def,
    src ← load type_mem src; tgt ← load type_mem tgt; cls ← load class_mem cls;
    let trans_key := FT (t_value src) (t_value tgt) (c_value cls) filename in
    (* the table of types is searched, with the structure as a name *)
    name ← ref (key_as_string trans_key);
    found ← find_type name;
    match found with
    | Some q =>
        (* the first word of a type is its value *)
        ty ← load type_mem q;
        def ← load type_mem def;
        _ ← write type_mem set_type_mem q (TD (t_value def) (primary ty) (flavor ty) (t_types ty) (t_flags ty) (bounds ty));
        mret 0
    | None =>
        _ ← cmalloc;
        q ← new ftrans_mem set_ftrans_mem (FTD 0);
        _ ← insert_filename_trans trans_key q;
        def ← load type_mem def;
        _ ← write ftrans_mem set_ftrans_mem q (FTD (t_value def));
        mret 0
    end).

(** ** Attributes and constraints *)

(** The loop over the expressions of a constraint; [bit] is [domain->s.value-1]. *)
Fixpoint update_exprs (typeId bit : Z) (l : list constraint_expr) : M st (list constraint_expr) :=
  match l with
  | [] => mret []
  | e :: l' =>
      e ← (if expr_type e =? CEXPR_NAMES then
             ts ← ref (type_names e);
             if ebitmap_get_bit (types ts) (u32 (typeId - 1)) then
               '(_, n) ← set_bit (names e) bit true;
               mret (CE (expr_type e) (attr e) (op e) n (type_names e))
             else mret e
           else mret e);
      l' ← update_exprs typeId bit l';
      mret (e :: l')
  end.

Fixpoint update_constraints (typeId bit : Z) (l : list constraint_node) : M st (list constraint_node) :=
  match l with
  | [] => mret []
  | n :: l' =>
      x ← update_exprs typeId bit (expr n);
      l' ← update_constraints typeId bit l';
      mret (CN (cn_permissions n) x :: l')
  end.

Definition set_constraints (c : list constraint_node) (d : class_datum) : class_datum :=
  CLD (c_value d) (comkey d) (comdatum d) (permissions d) c (validatetrans d)
      (default_user d) (default_role d) (default_type d) (default_range d).

Fixpoint update_classes (typeId bit : Z) (l : list Z) : M st () :=
  match l with
  | [] => mret ()
  | i :: l' =>
      x ← elem class_val_to_struct i;
      q ← ref x;
      cl ← load class_mem q;
      c ← update_constraints typeId bit (constraints cl);
      _ ← write class_mem set_class_mem q (set_constraints c cl);
      update_classes typeId bit l'
  end.

(** A NULL name is read as a string by [hashtab_search]. *)
Definition add_typeattribute (domainS attr : option string) : M st Z :=
  name ← ref domainS;
  q ← find_type name;
  match q with
  | None => mret 1
  | Some q =>
      domain ← load type_mem q;
      attr ← ref attr;
      _ ← set_attr attr (t_value domain);                (* the result is ignored *)
      typeId ← get_attr_id attr;
      nc ← get_p (λ p, nprim (p_classes p));
      _ ← update_classes typeId (u32 (t_value domain - 1)) (upto nc);
      mret 0
  end.

(** ** The rules by name; NULL names are [None] *)

(** [if (s) { src = hashtab_search(...); if (src == NULL) return 1; }] *)
Definition opt_name (find : string → M st (option ptr)) (s : option string)
    (k : option ptr → M st Z) : M st Z :=
  match s with
  | None => k None
  | Some s => q ← find s; match q with None => mret 1 | Some q => k (Some q) end
  end.

(** The permission of a class, its own or the one of its common. *)
Definition find_perm (cl : class_datum) (p : string) : option perm_datum :=
  match hashtab_search (table (permissions cl)) p with
  | Some d => Some d
  | None =>
      match comdatum cl with
      | Some com => hashtab_search (table (cm_permissions com)) p
      | None => None
      end
  end.

Definition add_rule (s t c p : option string) (effect : Z) (not : bool) : M st Z :=
  opt_name find_type s (λ src,
  opt_name find_type t (λ tgt,
  opt_name find_class c (λ cls,
    match p with
    | None => add_rule_auto src tgt cls None effect not
    | Some p =>
        match cls with
        | None => mret 1
        | Some q =>
            cl ← load class_mem q;
            match find_perm cl p with
            | None => mret 1
            | Some perm => add_rule_auto src tgt cls (Some perm) effect not
            end
        end
    end))).

(** [sscanf] with %hx: blanks, a sign, an optional 0x and hexadecimal digits;
    the C library reads an [uintmax_t] and stores its low 16 bits. *)
Definition is_space (c : ascii) : bool := let b := byte_of c in (b =? 32) || ((9 <=? b) && (b <=? 13)).

Definition hex_digit (c : ascii) : option Z :=
  let b := byte_of c in
  if (48 <=? b) && (b <=? 57) then Some (b - 48)
  else if (97 <=? b) && (b <=? 102) then Some (b - 87)
  else if (65 <=? b) && (b <=? 70) then Some (b - 55)
  else None.

Fixpoint skip_spaces (s : string) : string :=
  match s with
  | String c s' => if is_space c then skip_spaces s' else s
  | EmptyString => s
  end.

(** The digits read, whether there was one, and the rest. *)
Fixpoint hex_digits (s : string) (acc : Z) (any : bool) : Z * bool * string :=
  match s with
  | String c s' =>
      match hex_digit c with
      | Some v => hex_digits s' (Z.min (acc * 16 + v) (2 ^ 64 - 1)) true
      | None => (acc, any, s)
      end
  | EmptyString => (acc, any, s)
  end.

Definition skip_0x (s : string) : string :=
  match s with
  | String "0" (String x (String c s')) =>
      if (Ascii.eqb x "x" || Ascii.eqb x "X") && bool_decide (is_Some (hex_digit c))
      then String c s' else s
  | _ => s
  end.

Definition scan_hx (s : string) : option (Z * string) :=
  let s := skip_spaces s in
  let '(neg, s) := match s with
                   | String "-" s' => (true, s')
                   | String "+" s' => (false, s')
                   | _ => (false, s)
                   end in
  let '(v, any, rest) := hex_digits (skip_0x s) 0 false in
  if any : bool then Some (u16 (if neg : bool then - v else v), rest) else None.

(** [low] and [high]; an unset variable is undefined behaviour. *)
Definition scan_range (range : string) : outcome (Z * Z) :=
  if existsb (Ascii.eqb "-") (list_ascii_of_string range) then
    match scan_hx range with
    | Some (low, String "-" rest) =>
        match scan_hx rest with Some (high, _) => Ret (low, high) | None => Undef end
    | _ => Undef
    end
  else
    match scan_hx range with Some (low, _) => Ret (low, low) | None => Undef end.

Definition add_xperm_rule (s t c range : option string) (effect : Z) (not : bool) : M st Z :=
  opt_name find_type s (λ src,
  opt_name find_type t (λ tgt,
  opt_name find_class c (λ cls,
    '(low, high) ← lift (match range with Some r => scan_range r | None => Ret (0, 0xFFFF) end);
    add_xperm_rule_auto src tgt cls low high effect not))).
