(* ===== verification/Rules.v ===== *)
(** * The built-in rules (magiskpolicy/api.c, magiskpolicy/rules.c)

    The public operations by name ([ALL] is NULL, [None] here) and the fixed
    lists of statements the program applies to a policy.  The results of the
    statements are ignored, as in the C file. *)

From S2P Require Import Prelude Ebitmap Hashtab Avtab Context Policydb Expand Sepolicy.

(** ** api.c *)

Definition sepol_allow (s t c p : option string) : M st Z := add_rule s t c p AVTAB_ALLOWED false.
Definition sepol_deny (s t c p : option string) : M st Z := add_rule s t c p AVTAB_ALLOWED true.
Definition sepol_auditallow (s t c p : option string) : M st Z := add_rule s t c p AVTAB_AUDITALLOW false.
Definition sepol_auditdeny (s t c p : option string) : M st Z := add_rule s t c p AVTAB_AUDITDENY false.

Definition sepol_typetrans (s t c d : string) (o : option string) : M st Z :=
  match o with
  | None => add_transition s t c d
  | Some o => add_file_transition s t c d o
  end.

Definition sepol_allowxperm (s t c range : option string) : M st Z :=
  add_xperm_rule s t c range AVTAB_XPERMS_ALLOWED false.
Definition sepol_auditallowxperm (s t c range : option string) : M st Z :=
  add_xperm_rule s t c range AVTAB_XPERMS_AUDITALLOW false.
Definition sepol_dontauditxperm (s t c range : option string) : M st Z :=
  add_xperm_rule s t c range AVTAB_XPERMS_DONTAUDIT false.

Definition sepol_permissive (s : option string) : M st Z := set_domain_state s true.
Definition sepol_enforce (s : option string) : M st Z := set_domain_state s false.
Definition sepol_create (s : option string) : M st Z := create_domain s.
Definition sepol_attradd (s a : option string) : M st Z := add_typeattribute s a.

Definition sepol_exists (source : string) : M st bool :=
  q ← find_type source; mret (bool_decide (is_Some q)).

(** ** rules.c *)

Definition POLICYDB_VERSION_XPERMS_IOCTL : Z := 30.

Definition ALL : option string := None.

(** Runs statements for their effect. *)
Fixpoint run (l : list (M st Z)) : M st () :=
  match l with
  | [] => mret ()
  | c :: l' => _ ← c; run l'
  end.

(** [if (sepol_exists(name)) stmts] *)
Definition if_exists (name : string) (stmts : list (M st Z)) : M st Z :=
  b ← sepol_exists name;
  if b : bool then _ ← run stmts; mret 0 else mret 0.

Definition unless_exists (name : string) (stmts : list (M st Z)) : M st Z :=
  b ← sepol_exists name;
  if b : bool then mret 0 else _ ← run stmts; mret 0.

(** A call of a function that returns nothing. *)
Definition call (c : M st ()) : M st Z := _ ← c; mret 0.

Definition samsung : M st () := run [
  sepol_deny (Some "init") (Some "kernel") (Some "security") (Some "load_policy");
  sepol_deny (Some "policyloader_app") (Some "security_spota_file") (Some "dir") (Some "read");
  sepol_deny (Some "policyloader_app") (Some "security_spota_file") (Some "dir") (Some "write");
  sepol_deny (Some "policyloader_app") (Some "security_spota_file") (Some "file") (Some "read");
  sepol_deny (Some "policyloader_app") (Some "security_spota_file") (Some "file") (Some "write");
  sepol_deny (Some "system_server") (Some "security_spota_file") (Some "dir") (Some "read");
  sepol_deny (Some "system_server") (Some "security_spota_file") (Some "dir") (Some "write");
  sepol_deny (Some "system_server") (Some "security_spota_file") (Some "file") (Some "read");
  sepol_deny (Some "system_server") (Some "security_spota_file") (Some "file") (Some "write");
  sepol_deny (Some "system_app") (Some "security_spota_file") (Some "dir") (Some "read");
  sepol_deny (Some "system_app") (Some "security_spota_file") (Some "dir") (Some "write");
  sepol_deny (Some "system_app") (Some "security_spota_file") (Some "file") (Some "read");
  sepol_deny (Some "system_app") (Some "security_spota_file") (Some "file") (Some "write");
  sepol_deny (Some "installd") (Some "security_spota_file") (Some "dir") (Some "read");
  sepol_deny (Some "installd") (Some "security_spota_file") (Some "dir") (Some "write");
  sepol_deny (Some "installd") (Some "security_spota_file") (Some "file") (Some "read");
  sepol_deny (Some "installd") (Some "security_spota_file") (Some "file") (Some "write");
  sepol_deny (Some "init") (Some "security_spota_file") (Some "dir") (Some "read");
  sepol_deny (Some "init") (Some "security_spota_file") (Some "dir") (Some "write");
  sepol_deny (Some "init") (Some "security_spota_file") (Some "file") (Some "read");
  sepol_deny (Some "init") (Some "security_spota_file") (Some "file") (Some "write");
  sepol_deny (Some "ueventd") (Some "security_spota_file") (Some "dir") (Some "read");
  sepol_deny (Some "ueventd") (Some "security_spota_file") (Some "dir") (Some "write");
  sepol_deny (Some "ueventd") (Some "security_spota_file") (Some "file") (Some "read");
  sepol_deny (Some "ueventd") (Some "security_spota_file") (Some "file") (Some "write");
  sepol_deny (Some "runas") (Some "security_spota_file") (Some "dir") (Some "read");
  sepol_deny (Some "runas") (Some "security_spota_file") (Some "dir") (Some "write");
  sepol_deny (Some "runas") (Some "security_spota_file") (Some "file") (Some "read");
  sepol_deny (Some "runas") (Some "security_spota_file") (Some "file") (Some "write");
  sepol_deny (Some "drsd") (Some "security_spota_file") (Some "dir") (Some "read");
  sepol_deny (Some "drsd") (Some "security_spota_file") (Some "dir") (Some "write");
  sepol_deny (Some "drsd") (Some "security_spota_file") (Some "file") (Some "read");
  sepol_deny (Some "drsd") (Some "security_spota_file") (Some "file") (Some "write");
  sepol_deny (Some "debuggerd") (Some "security_spota_file") (Some "dir") (Some "read");
  sepol_deny (Some "debuggerd") (Some "security_spota_file") (Some "dir") (Some "write");
  sepol_deny (Some "debuggerd") (Some "security_spota_file") (Some "file") (Some "read");
  sepol_deny (Some "debuggerd") (Some "security_spota_file") (Some "file") (Some "write");
  sepol_deny (Some "vold") (Some "security_spota_file") (Some "dir") (Some "read");
  sepol_deny (Some "vold") (Some "security_spota_file") (Some "dir") (Some "write");
  sepol_deny (Some "vold") (Some "security_spota_file") (Some "file") (Some "read");
  sepol_deny (Some "vold") (Some "security_spota_file") (Some "file") (Some "write");
  sepol_deny (Some "zygote") (Some "security_spota_file") (Some "dir") (Some "read");
  sepol_deny (Some "zygote") (Some "security_spota_file") (Some "dir") (Some "write");
  sepol_deny (Some "zygote") (Some "security_spota_file") (Some "file") (Some "read");
  sepol_deny (Some "zygote") (Some "security_spota_file") (Some "file") (Some "write");
  sepol_deny (Some "auditd") (Some "security_spota_file") (Some "dir") (Some "read");
  sepol_deny (Some "auditd") (Some "security_spota_file") (Some "dir") (Some "write");
  sepol_deny (Some "auditd") (Some "security_spota_file") (Some "file") (Some "read");
  sepol_deny (Some "auditd") (Some "security_spota_file") (Some "file") (Some "write");
  sepol_deny (Some "servicemanager") (Some "security_spota_file") (Some "dir") (Some "read");
  sepol_deny (Some "servicemanager") (Some "security_spota_file") (Some "dir") (Some "write");
  sepol_deny (Some "servicemanager") (Some "security_spota_file") (Some "file") (Some "read");
  sepol_deny (Some "servicemanager") (Some "security_spota_file") (Some "file") (Some "write");
  sepol_deny (Some "itsonbs") (Some "security_spota_file") (Some "dir") (Some "read");
  sepol_deny (Some "itsonbs") (Some "security_spota_file") (Some "dir") (Some "write");
  sepol_deny (Some "itsonbs") (Some "security_spota_file") (Some "file") (Some "read");
  sepol_deny (Some "itsonbs") (Some "security_spota_file") (Some "file") (Some "write");
  sepol_deny (Some "commonplatformappdomain") (Some "security_spota_file") (Some "dir") (Some "read");
  sepol_deny (Some "commonplatformappdomain") (Some "security_spota_file") (Some "dir") (Some "write");
  sepol_deny (Some "commonplatformappdomain") (Some "security_spota_file") (Some "file") (Some "read");
  sepol_deny (Some "commonplatformappdomain") (Some "security_spota_file") (Some "file") (Some "write")].

Definition allowSuClient (target : string) : M st () := run [
  sepol_allow (Some target) (Some "rootfs") (Some "file") ALL;
  sepol_allow (Some target) (Some "rootfs") (Some "lnk_file") ALL;
  sepol_allow (Some target) (Some "su") (Some "unix_stream_socket") (Some "connectto");
  sepol_allow (Some target) (Some "su") (Some "unix_stream_socket") (Some "getopt");
  sepol_allow (Some target) (Some "su_device") (Some "dir") (Some "search");
  sepol_allow (Some target) (Some "su_device") (Some "dir") (Some "read");
  sepol_allow (Some target) (Some "su_device") (Some "sock_file") (Some "read");
  sepol_allow (Some target) (Some "su_device") (Some "sock_file") (Some "write");
  sepol_allow (Some target) (Some "devpts") (Some "chr_file") (Some "ioctl");
  sepol_allow (Some "su") (Some target) (Some "fd") (Some "use");
  sepol_allow (Some "su") (Some target) (Some "fifo_file") ALL].

Definition suRights : M st () := run [
  sepol_allow (Some "servicemanager") (Some "su") (Some "dir") (Some "search");
  sepol_allow (Some "servicemanager") (Some "su") (Some "dir") (Some "read");
  sepol_allow (Some "servicemanager") (Some "su") (Some "file") (Some "open");
  sepol_allow (Some "servicemanager") (Some "su") (Some "file") (Some "read");
  sepol_allow (Some "servicemanager") (Some "su") (Some "process") (Some "getattr");
  sepol_allow (Some "servicemanager") (Some "su") (Some "binder") (Some "transfer");
  sepol_allow (Some "system_server") (Some "su") (Some "binder") (Some "call");
  sepol_allow (Some "system_server") (Some "su") (Some "fd") (Some "use");
  sepol_allow (Some "su") (Some "servicemanager") (Some "dir") (Some "search");
  sepol_allow (Some "su") (Some "servicemanager") (Some "dir") (Some "read");
  sepol_allow (Some "su") (Some "servicemanager") (Some "file") (Some "open");
  sepol_allow (Some "su") (Some "servicemanager") (Some "file") (Some "read");
  sepol_allow (Some "su") (Some "servicemanager") (Some "process") (Some "getattr");
  sepol_allow (Some "su") (Some "servicemanager") (Some "binder") (Some "transfer");
  sepol_allow (Some "su") (Some "servicemanager") (Some "binder") (Some "call");
  sepol_allow (Some "su") (Some "system_server") (Some "binder") (Some "transfer");
  sepol_allow (Some "su") (Some "system_server") (Some "binder") (Some "call")].

Definition otherToSU : M st () := run [
  (* allowLog *)
  sepol_allow (Some "logd") (Some "su") (Some "dir") (Some "search");
  sepol_allow (Some "logd") (Some "su") (Some "file") (Some "read");
  sepol_allow (Some "logd") (Some "su") (Some "file") (Some "open");
  sepol_allow (Some "logd") (Some "su") (Some "file") (Some "getattr");
  (* suBackL0 *)
  sepol_allow (Some "system_server") (Some "su") (Some "binder") (Some "call");
  sepol_allow (Some "system_server") (Some "su") (Some "binder") (Some "transfer");
  (* ES Explorer opens a sokcet *)
  sepol_allow (Some "untrusted_app") (Some "su") (Some "unix_stream_socket") (Some "ioctl");
  sepol_allow (Some "untrusted_app") (Some "su") (Some "unix_stream_socket") (Some "read");
  sepol_allow (Some "untrusted_app") (Some "su") (Some "unix_stream_socket") (Some "getattr");
  sepol_allow (Some "untrusted_app") (Some "su") (Some "unix_stream_socket") (Some "write");
  sepol_allow (Some "untrusted_app") (Some "su") (Some "unix_stream_socket") (Some "setattr");
  sepol_allow (Some "untrusted_app") (Some "su") (Some "unix_stream_socket") (Some "lock");
  sepol_allow (Some "untrusted_app") (Some "su") (Some "unix_stream_socket") (Some "append");
  sepol_allow (Some "untrusted_app") (Some "su") (Some "unix_stream_socket") (Some "bind");
  sepol_allow (Some "untrusted_app") (Some "su") (Some "unix_stream_socket") (Some "connect");
  sepol_allow (Some "untrusted_app") (Some "su") (Some "unix_stream_socket") (Some "getopt");
  sepol_allow (Some "untrusted_app") (Some "su") (Some "unix_stream_socket") (Some "setopt");
  sepol_allow (Some "untrusted_app") (Some "su") (Some "unix_stream_socket") (Some "shutdown");
  sepol_allow (Some "untrusted_app") (Some "su") (Some "unix_stream_socket") (Some "connectto");
  (* Any domain is allowed to send su "sigchld" *)
  sepol_allow ALL (Some "su") (Some "process") (Some "sigchld");
  (* uNetworkL0 *)
  sepol_attradd (Some "su") (Some "netdomain");
  sepol_attradd (Some "su") (Some "bluetoothdomain");
  (* suBackL6 *)
  sepol_allow (Some "surfaceflinger") (Some "app_data_file") (Some "dir") ALL;
  sepol_allow (Some "surfaceflinger") (Some "app_data_file") (Some "file") ALL;
  sepol_allow (Some "surfaceflinger") (Some "app_data_file") (Some "lnk_file") ALL;
  sepol_attradd (Some "surfaceflinger") (Some "mlstrustedsubject");
  (* suMiscL6 *)
  if_exists "audioserver" [sepol_allow (Some "audioserver") (Some "audioserver") (Some "process") (Some "execmem")];
  (* Liveboot *)
  sepol_allow (Some "surfaceflinger") (Some "su") (Some "process") (Some "ptrace");
  sepol_allow (Some "surfaceflinger") (Some "su") (Some "binder") (Some "transfer");
  sepol_allow (Some "surfaceflinger") (Some "su") (Some "binder") (Some "call");
  sepol_allow (Some "surfaceflinger") (Some "su") (Some "fd") (Some "use");
  sepol_allow (Some "debuggerd") (Some "su") (Some "process") (Some "ptrace")].

Definition sepol_min_rules : M st () := run [
  unless_exists "su" [sepol_create (Some "su")];
  unless_exists "su_device" [sepol_create (Some "su_device")];
  sepol_permissive (Some "su");
  sepol_permissive (Some "init");
  sepol_attradd (Some "su") (Some "mlstrustedsubject");
  sepol_attradd (Some "su_device") (Some "mlstrustedobject");
  (* Let init run stuffs in su context *)
  sepol_allow (Some "kernel") (Some "su") (Some "fd") (Some "use");
  sepol_allow (Some "init") (Some "su") (Some "process") ALL;
  sepol_allow (Some "init") (Some "system_file") (Some "dir") ALL;
  sepol_allow (Some "init") (Some "system_file") (Some "lnk_file") ALL;
  sepol_allow (Some "init") (Some "system_file") (Some "file") ALL;
  (* Samsung specific *)
  (* Prevent system from loading policy *)
  if_exists "knox_system_app" [call samsung];
  (* Shell, prop management, simple su rights, logs *)
  sepol_allow (Some "su") (Some "property_socket") (Some "sock_file") (Some "write");
  sepol_allow (Some "su") (Some "properties_device") (Some "file") (Some "write");
  if_exists "default_prop" [
    sepol_allow (Some "su") (Some "default_prop") (Some "property_service") (Some "set");
    sepol_allow (Some "su") (Some "default_prop") (Some "file") (Some "write")];
  if_exists "properties_serial" [sepol_allow (Some "su") (Some "properties_serial") (Some "file") (Some "write")];
  sepol_allow (Some "su") (Some "init") (Some "unix_stream_socket") (Some "connectto");
  sepol_allow (Some "su") (Some "rootfs") (Some "file") (Some "entrypoint");
  sepol_allow (Some "su") (Some "rootfs") (Some "file") (Some "getattr");
  sepol_allow (Some "su") (Some "rootfs") (Some "file") (Some "read");
  sepol_allow (Some "su") (Some "rootfs") (Some "filesystem") (Some "remount");
  sepol_allow (Some "su") (Some "devpts") (Some "chr_file") ALL;
  sepol_allow (Some "su") (Some "untrusted_app_devpts") (Some "chr_file") ALL;
  sepol_allow (Some "su") (Some "su_device") (Some "dir") ALL;
  sepol_allow (Some "su") (Some "su_device") (Some "sock_file") ALL;
  sepol_allow (Some "su") (Some "zygote_exec") (Some "file") ALL;
  sepol_allow (Some "su") (Some "zygote_exec") (Some "lnk_file") ALL;
  sepol_allow (Some "su") (Some "app_data_file") (Some "dir") ALL;
  sepol_allow (Some "su") (Some "app_data_file") (Some "file") ALL;
  sepol_allow (Some "su") (Some "shell_exec") (Some "file") ALL;
  sepol_allow (Some "su") (Some "su") (Some "unix_dgram_socket") ALL;
  sepol_allow (Some "su") (Some "su") (Some "unix_stream_socket") ALL;
  sepol_allow (Some "su") (Some "su") (Some "process") ALL;
  sepol_allow (Some "su") (Some "su") (Some "capability") ALL;
  sepol_allow (Some "su") (Some "su") (Some "file") ALL;
  sepol_allow (Some "su") (Some "su") (Some "fifo_file") ALL;
  sepol_allow (Some "su") (Some "su") (Some "lnk_file") ALL;
  sepol_allow (Some "su") (Some "su") (Some "dir") ALL;
  if_exists "toolbox_exec" [sepol_allow (Some "su") (Some "toolbox_exec") (Some "file") ALL];
  if_exists "logdr_socket" [sepol_allow (Some "su") (Some "logdr_socket") (Some "sock_file") (Some "write")];
  if_exists "logd" [sepol_allow (Some "su") (Some "logd") (Some "unix_stream_socket") (Some "connectto")];
  sepol_allow (Some "su_device") (Some "tmpfs") (Some "filesystem") (Some "associate");
  (* For sepolicy live patching *)
  sepol_allow (Some "su") (Some "kernel") (Some "security") (Some "read_policy");
  sepol_allow (Some "su") (Some "kernel") (Some "security") (Some "load_policy");
  sepol_allow (Some "su") (Some "selinuxfs") (Some "file") (Some "read");
  sepol_allow (Some "su") (Some "selinuxfs") (Some "file") (Some "open");
  sepol_allow (Some "su") (Some "selinuxfs") (Some "file") (Some "write");
  (* For mounting loop devices and mirrors *)
  sepol_allow (Some "su") (Some "kernel") (Some "process") (Some "setsched");
  sepol_allow (Some "su") (Some "labeledfs") (Some "filesystem") (Some "mount");
  sepol_allow (Some "su") (Some "labeledfs") (Some "filesystem") (Some "unmount");
  sepol_allow (Some "kernel") (Some "system_data_file") (Some "file") (Some "read");
  (* For changing attributes *)
  sepol_allow (Some "rootfs") (Some "tmpfs") (Some "filesystem") (Some "associate");
  (* Xposed *)
  sepol_allow (Some "untrusted_app") (Some "untrusted_app") (Some "capability") (Some "setgid");
  sepol_allow (Some "system_server") (Some "dex2oat_exec") (Some "file") ALL;
  (* xperms *)
  (v ← get_p policyvers;
   if POLICYDB_VERSION_XPERMS_IOCTL <=? v then sepol_allowxperm (Some "domain") (Some "devpts") (Some "chr_file") (Some "0x5400-0x54FF") else mret 0)].

Definition sepol_med_rules : M st () := run [
  call sepol_min_rules;
  (* Allow su to do anything to any files/dir/links *)
  sepol_allow (Some "su") ALL (Some "file") ALL;
  sepol_allow (Some "su") ALL (Some "dir") ALL;
  sepol_allow (Some "su") ALL (Some "lnk_file") ALL;
  sepol_allow (Some "su") ALL (Some "blk_file") ALL;
  (* Allow these client to access su *)
  call (allowSuClient "shell");
  call (allowSuClient "untrusted_app");
  call (allowSuClient "system_app");
  call (allowSuClient "platform_app");
  if_exists "priv_app" [call (allowSuClient "priv_app")];
  if_exists "ssd_tool" [call (allowSuClient "ssd_tool")];
  if_exists "untrusted_app_25" [call (allowSuClient "untrusted_app_25")];
  call suRights;
  call otherToSU].

Definition sepol_full_rules : M st () := run [
  (* Patch su to everything *)
  sepol_allow (Some "su") ALL ALL ALL].

