(* ===== verification/Magiskpolicy.v ===== *)
(** * The policy statement language (magiskpolicy/magiskpolicy.c)

    The parser of policy statements and the part of the main function that
    handles the arguments and runs the statements.  Opening and writing the
    policy file is not modelled. *)

From S2P Require Import Prelude Ebitmap Hashtab Avtab Context Policydb Expand Sepolicy Rules.

(** ** [strtok_r] *)

Definition one_of (delims : string) (c : ascii) : bool := existsb (Ascii.eqb c) (list_ascii_of_string delims).

Fixpoint skip_delims (delims s : string) : string :=
  match s with
  | String c s' => if one_of delims c then skip_delims delims s' else s
  | EmptyString => EmptyString
  end.

(** One call: the token and what [saveptr] points to; [None] is NULL. *)
Definition strtok (delims s : string) : option (string * string) :=
  match skip_delims delims s with
  | EmptyString => None
  | s' => let '(tok, r) := span_until (one_of delims) s' in Some (tok, (take_delim r).2)
  end.

(** The tokens of a string: successive calls with the same delimiters. *)
Fixpoint tokens_fuel (fuel : nat) (delims s : string) : list string :=
  match fuel with
  | O => []
  | S fuel' =>
      match strtok delims s with
      | None => []
      | Some (tok, s') => tok :: tokens_fuel fuel' delims s'
      end
  end.

Definition tokens (delims s : string) : list string := tokens_fuel (S (String.length s)) delims s.

(** ** The token machine of the patterns 1, 2 and 5

    The three functions share the handling of brackets; they differ in the
    states where a bracket is an error ([no_bracket]) and in the number of
    states.  [vecs] lists the elements pushed, each with the state it was pushed
    in: the vector of a state, or the variable it assigns, are its elements. *)

Record machine := MC { mstate : Z; in_bracket : bool; vecs : list (Z * option string) }.

Definition machine_init : machine := MC 0 false [].

(** [tok[strlen(tok) - 1] == '}'] *)
Fixpoint last_char (s : string) : option ascii :=
  match s with
  | EmptyString => None
  | String c EmptyString => Some c
  | String _ s' => last_char s'
  end.

Definition ends_with_brace (s : string) : bool :=
  match last_char s with Some c => Ascii.eqb c "}" | None => false end.

(** [tok[strlen(tok) - 1] = '\0'] *)
Fixpoint drop_last (s : string) : string :=
  match s with
  | EmptyString => EmptyString
  | String _ EmptyString => EmptyString
  | String c s' => String c (drop_last s')
  end.

(** [if (!in_bracket) ++state;] *)
Definition advance (mc : machine) : machine :=
  if in_bracket mc then mc else MC (mstate mc + 1) (in_bracket mc) (vecs mc).

(** [if (tok[0] == '*') tok = ALL;] *)
Definition star (tok : string) : option string :=
  match tok with String "*" _ => ALL | _ => Some tok end.

(** One turn of the while loop and those that [continue] with a shorter token;
    [None] is [return 1]. *)
Fixpoint machine_token (fuel : nat) (no_bracket : Z → bool) (nstates : Z) (tok : string) (mc : machine)
    : option machine :=
  match fuel with
  | O => None
  | S fuel' =>
      match tok with
      | String "{" rest =>
          if in_bracket mc || no_bracket (mstate mc) then None
          else
            let mc := MC (mstate mc) true (vecs mc) in
            match rest with
            | EmptyString => Some (advance mc)
            | _ => machine_token fuel' no_bracket nstates rest mc
            end
      | _ =>
          if ends_with_brace tok then
            if negb (in_bracket mc) || no_bracket (mstate mc) then None
            else
              let mc := MC (mstate mc) false (vecs mc) in
              match drop_last tok with
              | EmptyString => Some (advance mc)
              | rest => machine_token fuel' no_bracket nstates rest mc
              end
          else if nstates <=? mstate mc then None
          else Some (advance (MC (mstate mc) (in_bracket mc) (vecs mc ++ [(mstate mc, star tok)])))
      end
  end.

Fixpoint machine_run (no_bracket : Z → bool) (nstates : Z) (toks : list string) (mc : machine)
    : option machine :=
  match toks with
  | [] => Some mc
  | tok :: toks' =>
      match machine_token (S (String.length tok)) no_bracket nstates tok mc with
      | None => None
      | Some mc => machine_run no_bracket nstates toks' mc
      end
  end.

(** The vector filled in state [k], and the variable last assigned there. *)
Definition vec (k : Z) (mc : machine) : list (option string) :=
  map snd (filter (λ p, p.1 = k) (vecs mc)).

Definition var (k : Z) (mc : machine) : option string := default None (last (vec k mc)).

(** ** The five patterns: the result is the syntax error flag *)

(** Runs a list of calls whose results are only printed. *)
Definition run_all (l : list (M st Z)) : M st Z := _ ← run l; mret 0.

(** Pattern 1: action { source } { target } class { permission } *)
Definition parse_1 (statement : string) : option machine :=
  machine_run (λ s, s =? 2) 4 (tokens " " statement) machine_init.

Definition action_1 (action : Z) : option string → option string → option string → option string → M st Z :=
  if action =? 0 then sepol_allow
  else if action =? 1 then sepol_deny
  else if action =? 2 then sepol_auditallow
  else sepol_auditdeny.

Definition parse_pattern_1 (action : Z) (statement : string) : M st Z :=
  match parse_1 statement with
  | None => mret 1
  | Some mc =>
      if negb (mstate mc =? 4) then mret 1
      else run_all (i ← vec 0 mc; j ← vec 1 mc; k ← vec 3 mc; [action_1 action i j (var 2 mc) k])
  end.

(** Pattern 2: action { class } { attribute } *)
Definition parse_2 (statement : string) : option machine :=
  machine_run (λ _, false) 2 (tokens " " statement) machine_init.

Definition parse_pattern_2 (statement : string) : M st Z :=
  match parse_2 statement with
  | None => mret 1
  | Some mc =>
      if negb (mstate mc =? 2) then mret 1
      else run_all (i ← vec 0 mc; j ← vec 1 mc; [sepol_attradd i j])
  end.

(** Pattern 3: action { type } *)
Definition action_3 (action : Z) : option string → M st Z :=
  if action =? 0 then sepol_create else if action =? 1 then sepol_permissive else sepol_enforce.

Definition parse_pattern_3 (action : Z) (statement : string) : M st Z :=
  run_all (map (λ tok, action_3 action (star tok)) (tokens " {}" statement)).

(** Pattern 4: action source target class default (filename) *)
Definition parse_pattern_4 (statement : string) : M st Z :=
  match tokens " " statement with
  | [s; t; c; d] => _ ← sepol_typetrans s t c d None; mret 0
  | [s; t; c; d; filename] => _ ← sepol_typetrans s t c d (Some filename); mret 0
  | _ => mret 1
  end.

(** Pattern 5: action { source } { target } { class } ioctl range *)
Definition parse_5 (statement : string) : option machine :=
  machine_run (λ s, (s =? 3) || (s =? 4)) 5 (tokens " " statement) machine_init.

Definition action_5 (action : Z) : option string → option string → option string → option string → M st Z :=
  if action =? 0 then sepol_allowxperm
  else if action =? 1 then sepol_auditallowxperm
  else sepol_dontauditxperm.

Definition parse_pattern_5 (action : Z) (statement : string) : M st Z :=
  match parse_5 statement with
  | None => mret 1
  | Some mc =>
      if negb (mstate mc =? 5) then mret 1
      else run_all (i ← vec 0 mc; j ← vec 1 mc; k ← vec 2 mc; [action_5 action i j k (var 4 mc)])
  end.

(** ** The main function *)

(** Options given on the command line; [None] is a call of [usage], which exits. *)
Record options := OPT {
  live : bool; minimal : bool; infile : option string; outfile : option string; rules : list string
}.

Definition is_option (arg : string) : bool :=
  match arg with String "-" (String "-" _) => true | _ => false end.

Fixpoint parse_args (argv : list string) (o : options) : option options :=
  match argv with
  | [] => Some o
  | arg :: argv' =>
      if is_option arg then
        if streq arg "--live" then parse_args argv' (OPT true (minimal o) (infile o) (outfile o) (rules o))
        else if streq arg "--minimal" then parse_args argv' (OPT (live o) true (infile o) (outfile o) (rules o))
        else if streq arg "--load" then
          match argv' with
          | [] => None
          | f :: argv'' => parse_args argv'' (OPT (live o) (minimal o) (Some f) (outfile o) (rules o))
          end
        else if streq arg "--save" then
          match argv' with
          | [] => None
          | f :: argv'' => parse_args argv'' (OPT (live o) (minimal o) (infile o) (Some f) (rules o))
          end
        else None
      else parse_args argv' (OPT (live o) (minimal o) (infile o) (outfile o) (rules o ++ [arg]))
  end.

(** The arguments after [argv[0]]; without any, [usage] is called too. *)
Definition command_line (argv : list string) : option options :=
  match argv with [] => None | _ => parse_args argv (OPT false false None None []) end.

(** [rules.data[i] + strlen(tok) + 1] after [strtok_r] has cut the first token:
    the offset counts from the start of the argument, so blanks in front of the
    token shift it; with no delimiter after the token it is past the end. *)
Definition statement_of (rule : string) : option (string * outcome string) :=
  let '(blanks, s) := span_until (λ c, negb (Ascii.eqb c " ")) rule in
  match strtok " " s with
  | None => None
  | Some (tok, _) =>
      let '(_, r) := span_until (one_of " ") s in
      Some (tok,
        match blanks, r with
        | EmptyString, EmptyString => Undef
        | EmptyString, String _ rest => Ret rest
        | _, _ =>
            let cut := (blanks +:+ tok)%string in
            Ret (String.substring (S (String.length tok)) (String.length cut) cut)
        end)
  end.

(** One iteration of the loop over the rules: the syntax error flag.  A rule
    that is empty or blank passes NULL to [strcmp]. *)
Definition run_rule (rule : string) : M st Z :=
  match statement_of rule with
  | None => lift Undef
  | Some (tok, args) =>
      let run (f : string → M st Z) : M st Z := a ← lift args; f a in
      if streq tok "allow" then run (parse_pattern_1 0)
      else if streq tok "deny" then run (parse_pattern_1 1)
      else if streq tok "auditallow" then run (parse_pattern_1 2)
      else if streq tok "auditdeny" then run (parse_pattern_1 3)
      else if streq tok "attradd" then run parse_pattern_2
      else if streq tok "create" then run (parse_pattern_3 0)
      else if streq tok "permissive" then run (parse_pattern_3 1)
      else if streq tok "enforce" then run (parse_pattern_3 2)
      else if streq tok "typetrans" then run parse_pattern_4
      else if streq tok "allowxperm" then run (parse_pattern_5 0)
      else if streq tok "auditallowxperm" then run (parse_pattern_5 1)
      else if streq tok "dontauditxperm" then run (parse_pattern_5 2)
      else mret 1
  end.

(** The loop: [syntax_err]. *)
Fixpoint run_rules (l : list string) (syntax_err : bool) : M st bool :=
  match l with
  | [] => mret syntax_err
  | r :: l' => rc ← run_rule r; run_rules l' (syntax_err || negb (rc =? 0))
  end.

(** The changes [magiskpolicy_main] makes to the loaded policy. *)
Definition patch_policy (o : options) : M st bool :=
  _ ← (if minimal o then sepol_min_rules else mret ());
  run_rules (rules o) false.

(** Where the policy is read from and where it is written to. *)
Definition SELINUX_POLICY : string := "/sys/fs/selinux/policy".
Definition SELINUX_LOAD : string := "/sys/fs/selinux/load".

Definition load_from (o : options) : string := default SELINUX_POLICY (infile o).
Definition dump_to (o : options) : option string := if live o then Some SELINUX_LOAD else outfile o.

(** * The grammar *)

(** ** Tokens *)

(** A word of the language: it is not empty, has no blank, does not start with
    an opening bracket and does not end with a closing one. *)
Definition plain (s : string) : bool := forallb (λ c, negb (one_of " " c)) (list_ascii_of_string s).

Definition token_ok (s : string) : bool := negb (bool_decide (s = EmptyString)) && plain s.

Definition word_ok (s : string) : bool :=
  token_ok s && match s with String "{" _ => false | _ => true end && negb (ends_with_brace s).

Lemma string_app_cons c s1 s2 : (String c s1 +:+ s2)%string = String c (s1 +:+ s2)%string.
Proof. done. Qed.

Lemma span_until_plain s rest :
  plain s = true → (match rest with EmptyString => True | String c _ => one_of " " c = true end) →
  span_until (one_of " ") (s +:+ rest)%string = (s, rest).
Proof.
  intros Hs Hr. induction s as [|c s IH]; [|rewrite string_app_cons; simpl].
  - change (EmptyString +:+ rest)%string with rest. destruct rest as [|c rest]; [done|]. simpl. by rewrite Hr.
  - unfold plain in Hs. simpl in Hs. apply andb_true_iff in Hs as [Hc Hs].
    apply negb_true_iff in Hc. rewrite Hc. by rewrite (IH Hs).
Qed.

Lemma string_app_nil_r (s : string) : (s +:+ EmptyString)%string = s.
Proof. induction s as [|c s IH]; [done|]. by rewrite string_app_cons, IH. Qed.

Lemma string_length_app (s1 s2 : string) :
  String.length (s1 +:+ s2)%string = (String.length s1 + String.length s2)%nat.
Proof. induction s1 as [|c s IH]; [done|]. rewrite string_app_cons. simpl. by rewrite IH. Qed.

Lemma strtok_span delims s :
  skip_delims delims s = s → s ≠ EmptyString →
  strtok delims s = Some ((span_until (one_of delims) s).1, (take_delim (span_until (one_of delims) s).2).2).
Proof. intros H Hne. unfold strtok. rewrite H. destruct s; [done|]. by destruct (span_until _ _). Qed.

Lemma strtok_token w rest :
  token_ok w = true → (match rest with EmptyString => True | String c _ => one_of " " c = true end) →
  strtok " " (w +:+ rest)%string = Some (w, (take_delim rest).2).
Proof.
  intros Hw Hr. apply andb_true_iff in Hw as [Hn Hp].
  rewrite strtok_span; [by rewrite span_until_plain| |].
  - destruct w as [|c w]; [done|]. unfold plain in Hp. simpl in Hp. apply andb_true_iff in Hp as [Hc _].
    apply negb_true_iff in Hc. rewrite string_app_cons. simpl. by rewrite Hc.
  - by destruct w.
Qed.

Lemma concat_cons w ws : ws ≠ [] → String.concat " " (w :: ws) = (w +:+ " " +:+ String.concat " " ws)%string.
Proof. by destruct ws. Qed.

(** The tokens of words separated by single blanks are the words. *)
Lemma tokens_concat ws : Forall (λ w, token_ok w = true) ws → tokens " " (String.concat " " ws) = ws.
Proof.
  intros H. unfold tokens.
  enough (∀ fuel, (String.length (String.concat " " ws) < fuel)%nat → tokens_fuel fuel " " (String.concat " " ws) = ws)
    as E by (apply E; lia).
  induction H as [|w ws Hw Hws IH]; intros fuel Hf; destruct fuel as [|fuel]; try lia; [done|].
  destruct (decide (ws = [])) as [->|Hne].
  - cbn [tokens_fuel String.concat]. rewrite <- (string_app_nil_r w) at 1.
    rewrite strtok_token by done. cbn [take_delim snd]. by destruct fuel.
  - rewrite concat_cons in Hf |- * by done. cbn [tokens_fuel]. rewrite strtok_token by done.
    change (" " +:+ String.concat " " ws)%string with (String " " (String.concat " " ws)) in *.
    cbn [take_delim snd]. f_equal.
    apply IH. rewrite !string_length_app in Hf. simpl in Hf. lia.
Qed.

(** ** Arguments: a word, or a collection in brackets *)

Inductive argument := One (w : string) | Many (ws : list string).

Definition arg_tokens (a : argument) : list string :=
  match a with One w => [w] | Many ws => "{"%string :: ws ++ ["}"%string] end.

Definition arg_words (a : argument) : list string :=
  match a with One w => [w] | Many ws => ws end.

Definition arg_ok (a : argument) : Prop := Forall (λ w, word_ok w = true) (arg_words a).

(** A word outside brackets, or in them. *)
Lemma machine_word fuel nb n w mc :
  word_ok w = true → mstate mc < n →
  machine_token (S fuel) nb n w mc =
  Some (advance (MC (mstate mc) (in_bracket mc) (vecs mc ++ [(mstate mc, star w)]))).
Proof.
  intros Hw Hn. unfold word_ok in Hw. apply andb_true_iff in Hw as [Hw He]. apply andb_true_iff in Hw as [_ Hb].
  apply negb_true_iff in He. cbn [machine_token]. rewrite He.
  destruct (Z.leb_spec n (mstate mc)); [lia|].
  destruct w as [|[[] [] [] [] [] [] [] []] w]; done.
Qed.

Lemma machine_words nb n ws rest k vs :
  Forall (λ w, word_ok w = true) ws → k < n →
  machine_run nb n (ws ++ rest) (MC k true vs) =
  machine_run nb n rest (MC k true (vs ++ map (λ w, (k, star w)) ws)).
Proof.
  intros Hws Hk. revert vs. induction Hws as [|w ws Hw Hws IH]; intros vs; [by rewrite app_nil_r|].
  cbn [app machine_run]. rewrite machine_word by done. cbn [advance mstate in_bracket vecs]. rewrite IH.
  by rewrite <- app_assoc.
Qed.

(** An argument fills the vector of its state. *)
Lemma machine_arg nb n a rest k vs :
  arg_ok a → k < n → (∀ ws, a = Many ws → nb k = false) →
  machine_run nb n (arg_tokens a ++ rest) (MC k false vs) =
  machine_run nb n rest (MC (k + 1) false (vs ++ map (λ w, (k, star w)) (arg_words a))).
Proof.
  intros Ha Hk Hnb. unfold arg_ok in Ha. destruct a as [w|ws]; cbn [arg_words arg_tokens] in *.
  - apply Forall_cons in Ha as [Hw _]. cbn [app machine_run]. by rewrite machine_word.
  - specialize (Hnb ws eq_refl). rewrite <- app_comm_cons, <- app_assoc.
    cbn [machine_run machine_token String.length mstate in_bracket vecs]. rewrite Hnb. cbn [orb advance in_bracket].
    rewrite machine_words by done. cbn [app machine_run].
    cbn [machine_token String.length mstate in_bracket vecs ends_with_brace last_char]. 
    rewrite Hnb. done.
Qed.

(** ** The patterns parse what the grammar prints *)

(** The text of a list of tokens. *)
Definition print (toks : list string) : string := String.concat " " toks.

Lemma word_token w : word_ok w = true → token_ok w = true.
Proof. unfold word_ok. by intros [[? _]%andb_true_iff _]%andb_true_iff. Qed.

Lemma arg_tokens_ok a : arg_ok a → Forall (λ w, token_ok w = true) (arg_tokens a).
Proof.
  unfold arg_ok. destruct a as [w|ws]; cbn [arg_words arg_tokens]; intros H.
  - eapply Forall_impl; [exact H|]. apply word_token.
  - constructor; [done|]. apply Forall_app. split; [|by repeat constructor].
    eapply Forall_impl; [exact H|]. apply word_token.
Qed.

Definition tokens_1 (s t : argument) (c : string) (p : argument) : list string :=
  arg_tokens s ++ arg_tokens t ++ [c] ++ arg_tokens p.

Lemma tokens_1_ok s t c p :
  arg_ok s → arg_ok t → word_ok c = true → arg_ok p → Forall (λ w, token_ok w = true) (tokens_1 s t c p).
Proof.
  intros Hs Ht Hc Hp. unfold tokens_1. rewrite !Forall_app.
  split_and!; try by apply arg_tokens_ok. constructor; [by apply word_token|done].
Qed.

Definition tagged (k : Z) (a : argument) : list (Z * option string) := map (λ w, (k, star w)) (arg_words a).

Lemma run_tokens_1 s t c p rest :
  arg_ok s → arg_ok t → word_ok c = true → arg_ok p →
  machine_run (λ s, s =? 2) 4 (tokens_1 s t c p ++ rest) machine_init =
  machine_run (λ s, s =? 2) 4 rest (MC 4 false (tagged 0 s ++ tagged 1 t ++ [(2, star c)] ++ tagged 3 p)).
Proof.
  intros Hs Ht Hc Hp. unfold tokens_1. rewrite <- !app_assoc. unfold machine_init.
  rewrite machine_arg by done. rewrite machine_arg by done. cbn [app].
  cbn [machine_run]. rewrite machine_word by done. cbn [advance in_bracket mstate vecs].
  rewrite machine_arg by done. f_equal. f_equal. unfold tagged. by rewrite <- !app_assoc.
Qed.

Lemma vec_tagged k j a vs1 vs2 m b :
  vec k (MC m b (vs1 ++ tagged j a ++ vs2)) =
  vec k (MC m b vs1) ++ (if bool_decide (j = k) then map star (arg_words a) else []) ++ vec k (MC m b vs2).
Proof.
  unfold vec, tagged. cbn [vecs]. rewrite !filter_app, !map_app. f_equal. f_equal.
  induction (arg_words a) as [|w ws IH]; [by case_bool_decide|]. cbn [map]. rewrite filter_cons. cbn [fst].
  case_bool_decide as E; [rewrite decide_True by done; cbn [map snd]; by rewrite IH|by rewrite decide_False].
Qed.

(** The pushes of a statement of pattern 1, by state. *)
Lemma parse_1_print s t c p :
  arg_ok s → arg_ok t → word_ok c = true → arg_ok p →
  ∃ mc, parse_1 (print (tokens_1 s t c p)) = Some mc ∧ mstate mc = 4 ∧
    vec 0 mc = map star (arg_words s) ∧ vec 1 mc = map star (arg_words t) ∧ var 2 mc = star c ∧
    vec 3 mc = map star (arg_words p).
Proof.
  intros Hs Ht Hc Hp. unfold parse_1, print. rewrite tokens_concat by by apply tokens_1_ok.
  rewrite <- (app_nil_r (tokens_1 s t c p)), run_tokens_1 by done. cbn [machine_run].
  set (mc := MC 4 false _). exists mc. split; [done|]. split; [done|].
  assert (Hv : ∀ k, vec k mc =
    (if bool_decide (0 = k) then map star (arg_words s) else []) ++
    (if bool_decide (1 = k) then map star (arg_words t) else []) ++
    (if bool_decide (2 = k) then [star c] else []) ++
    (if bool_decide (3 = k) then map star (arg_words p) else [])).
  { intros k. unfold mc. rewrite <- (app_nil_l (tagged 0 s ++ _)), vec_tagged.
    rewrite <- (app_nil_l (tagged 1 t ++ _)), vec_tagged.
    change [(2, star c)] with (tagged 2 (One c)). rewrite <- (app_nil_l (tagged 2 (One c) ++ _)), vec_tagged.
    rewrite <- (app_nil_r (tagged 3 p)), <- (app_nil_l (tagged 3 p ++ [])), vec_tagged. cbn [arg_words map].
    unfold vec at 1 2 3 4 5. cbn [vecs filter list_filter map app]. by rewrite app_nil_r. }
  unfold var. rewrite !Hv. simpl. rewrite !app_nil_r. done.
Qed.

(** The calls a statement of pattern 1 makes, in order: the product of the
    collections. *)
Definition calls_1 (action : Z) (s t : argument) (c : string) (p : argument) : list (M st Z) :=
  i ← map star (arg_words s); j ← map star (arg_words t); k ← map star (arg_words p);
  [action_1 action i j (star c) k].

Lemma parse_pattern_1_print action s t c p :
  arg_ok s → arg_ok t → word_ok c = true → arg_ok p →
  parse_pattern_1 action (print (tokens_1 s t c p)) = run_all (calls_1 action s t c p).
Proof.
  intros Hs Ht Hc Hp. destruct (parse_1_print s t c p) as (mc&Hmc&Hst&H0&H1&H2&H3); [done..|].
  unfold parse_pattern_1. rewrite Hmc, Hst, H0, H1, H2, H3. done.
Qed.

(** A last lone bracket is not noticed. *)
Lemma trailing_bracket action s t c p :
  arg_ok s → arg_ok t → word_ok c = true → arg_ok p →
  parse_pattern_1 action (print (tokens_1 s t c p ++ ["{"%string])) = run_all (calls_1 action s t c p).
Proof.
  intros Hs Ht Hc Hp. destruct (parse_1_print s t c p) as (mc&Hmc&_&H0&H1&H2&H3); [done..|].
  unfold parse_1, print in Hmc. rewrite tokens_concat in Hmc by by apply tokens_1_ok.
  rewrite <- (app_nil_r (tokens_1 s t c p)), run_tokens_1 in Hmc by done. injection Hmc as <-.
  unfold parse_pattern_1, parse_1, print. rewrite tokens_concat.
  - rewrite run_tokens_1 by done. cbn [machine_run machine_token String.length mstate in_bracket vecs advance orb].
    change (4 =? 2) with false. cbn iota.
    set (vs := tagged 0 s ++ _) in *. cbn [mstate]. change (4 =? 4) with true. cbn [negb].
    unfold calls_1. rewrite <- H0, <- H1, <- H2, <- H3. done.
  - apply Forall_app. split; [by apply tokens_1_ok|by repeat constructor].
Qed.

(** Pattern 5: three collections, a word that is ignored, and the range. *)
Definition tokens_5 (s t c : argument) (ioctl range : string) : list string :=
  arg_tokens s ++ arg_tokens t ++ arg_tokens c ++ [ioctl; range].

Definition calls_5 (action : Z) (s t c : argument) (range : string) : list (M st Z) :=
  i ← map star (arg_words s); j ← map star (arg_words t); k ← map star (arg_words c);
  [action_5 action i j k (star range)].

Lemma tokens_5_ok s t c w r :
  arg_ok s → arg_ok t → arg_ok c → word_ok w = true → word_ok r = true →
  Forall (λ w, token_ok w = true) (tokens_5 s t c w r).
Proof.
  intros Hs Ht Hc Hw Hr. unfold tokens_5. rewrite !Forall_app.
  split_and!; try by apply arg_tokens_ok. repeat constructor; by apply word_token.
Qed.

Lemma parse_pattern_5_print action s t c w r :
  arg_ok s → arg_ok t → arg_ok c → word_ok w = true → word_ok r = true →
  parse_pattern_5 action (print (tokens_5 s t c w r)) = run_all (calls_5 action s t c r).
Proof.
  intros Hs Ht Hc Hw Hr. unfold parse_pattern_5, parse_5, print. rewrite tokens_concat by by apply tokens_5_ok.
  unfold tokens_5, machine_init. rewrite !machine_arg by done.
  cbn [machine_run]. rewrite machine_word by done. cbn [advance in_bracket mstate vecs].
  rewrite machine_word by done. cbn [advance in_bracket mstate vecs].
  change (0 + 1 + 1 + 1 + 1 + 1) with 5. change (0 + 1 + 1 + 1 + 1) with 4. change (0 + 1 + 1 + 1) with 3.
  change (0 + 1 + 1) with 2. change (0 + 1) with 1.
  set (mc := MC _ false _). change (mstate mc =? 5) with true. cbn [negb].
  assert (Hv : ∀ k, vec k mc =
    (if bool_decide (0 = k) then map star (arg_words s) else []) ++
    (if bool_decide (1 = k) then map star (arg_words t) else []) ++
    (if bool_decide (2 = k) then map star (arg_words c) else []) ++
    (if bool_decide (3 = k) then [star w] else []) ++
    (if bool_decide (4 = k) then [star r] else [])).
  { intros k. unfold mc. rewrite <- !app_assoc. cbn [app].
    fold (tagged 0 s) (tagged 1 t) (tagged 2 c).
    change [(3, star w); (4, star r)] with (tagged 3 (One w) ++ tagged 4 (One r) ++ []).
    rewrite <- (app_nil_l (tagged 0 s ++ _)), vec_tagged. rewrite <- (app_nil_l (tagged 1 t ++ _)), vec_tagged.
    rewrite <- (app_nil_l (tagged 2 c ++ _)), vec_tagged. rewrite <- (app_nil_l (tagged 3 (One w) ++ _)), vec_tagged.
    rewrite <- (app_nil_l (tagged 4 (One r) ++ _)), vec_tagged.
    unfold vec. cbn [vecs filter list_filter map app arg_words]. by rewrite app_nil_r. }
  unfold var, calls_5. rewrite !Hv. simpl. by rewrite !app_nil_r.
Qed.

(** ** Whole statements *)

(** An action word, a blank and the arguments: the arguments are what follows
    the blank. *)
Lemma statement_of_action tok args :
  token_ok tok = true → statement_of (tok +:+ " " +:+ args)%string = Some (tok, Ret args).
Proof.
  intros Ht. unfold statement_of. pose proof Ht as [Hn Hp]%andb_true_iff.
  assert (Hs : span_until (λ c, negb (Ascii.eqb c " ")) (tok +:+ " " +:+ args)%string =
               (EmptyString, (tok +:+ " " +:+ args)%string)).
  { destruct tok as [|c tok]; [done|]. unfold plain in Hp. simpl in Hp. apply andb_true_iff in Hp as [Hc _].
    rewrite string_app_cons. simpl. unfold one_of in Hc. simpl in Hc. rewrite orb_false_r in Hc.
    by rewrite Hc. }
  rewrite Hs, strtok_token by done. by rewrite span_until_plain by done.
Qed.

(** Any other action is a syntax error and changes nothing. *)
Lemma run_rule_unknown tok args :
  token_ok tok = true →
  tok ∉ ["allow"; "deny"; "auditallow"; "auditdeny"; "attradd"; "create"; "permissive"; "enforce"; "typetrans";
         "allowxperm"; "auditallowxperm"; "dontauditxperm"]%string →
  run_rule (tok +:+ " " +:+ args)%string = mret 1.
Proof.
  intros Ht Hin. unfold run_rule. rewrite statement_of_action by done.
  repeat match goal with
  | |- context [streq tok ?s] =>
      let E := fresh in destruct (streq tok s) eqn:E;
      [apply streq_spec in E; subst tok; exfalso; apply Hin; by set_solver|clear E]
  end. done.
Qed.
