(* ===== verification/RuleEdit.v ===== *)
(** * Correctness of the edits of access rules (magiskpolicy/sepolicy.c)

    What [add_rule] and [add_xperm_rule] do to the rule table: the rule of
    every selected key is updated, every other rule is left alone, the
    invariants of the table are kept and no step is undefined.  The last part
    connects the edits to the decisions of the security server. *)

From S2P Require Import Prelude Ebitmap Hashtab Avtab Context Policydb Mls Cond Services Sepolicy.

(** ** The table of rules as a partial function *)

#[export] Instance avtab_key_eq_dec : EqDecision avtab_key.
Proof. solve_decision. Defined.

(** The datum of the first rule with the key. *)
Definition rule_datum (h : avtab) (k : avtab_key) : option avtab_datum :=
  datum <$> find (λ n, bool_decide (key n = k)) (avtab_nodes h).

(** The rule kinds a permanent rule has: one bit, and not the enabled bit. *)
Definition rule_kinds : list Z := (λ j, 2 ^ Z.of_nat j) <$> seq 0 15.

Definition node_ok (n : avtab_node) : Prop :=
  specified (key n) ∈ rule_kinds ∧
  (has_bits (specified (key n)) AVTAB_XPERMS = true → is_Some (xperms (datum n))).

Definition rules_ok (h : avtab) : Prop :=
  is_Some (av_htable h) ∧ avtab_wf h ∧ avtab_unique h ∧ ∀ n, n ∈ avtab_nodes h → node_ok n.

Lemma kinds_disjoint a b : a ∈ rule_kinds → b ∈ rule_kinds → has_bits (not_enabled a) b = bool_decide (a = b).
Proof.
  intros Ha Hb.
  assert (Forall (λ a, Forall (λ b, has_bits (not_enabled a) b = bool_decide (a = b)) rule_kinds) rule_kinds) as H.
  { apply Forall_forall. intros x Hx. apply Forall_forall. intros y Hy.
    repeat (apply elem_of_cons in Hx as [->|Hx]; [repeat (apply elem_of_cons in Hy as [->|Hy]; [vm_compute; reflexivity|]);
      by apply not_elem_of_nil in Hy|]). by apply not_elem_of_nil in Hx. }
  rewrite Forall_forall in H. specialize (H a Ha). rewrite Forall_forall in H. by apply H.
Qed.

(** A rule of one kind matches exactly the rules with its key. *)
Lemma key_matches_eq k k' :
  specified k ∈ rule_kinds → specified k' ∈ rule_kinds →
  key_matches k (not_enabled (specified k)) k' = bool_decide (k = k').
Proof.
  intros Hk Hk'. unfold key_matches. rewrite kinds_disjoint by done.
  apply eq_bool_prop_intro. rewrite andb_True, !bool_decide_spec, Is_true_true. split.
  - intros [(?&?&?)%same_types_eq ?]. destruct k, k'; simpl in *; congruence.
  - intros ->. split; [apply same_types_refl|done].
Qed.

Lemma find_elem {A} (f : A → bool) l a : find f l = Some a → a ∈ l ∧ f a = true.
Proof. intros H. apply find_some in H. by rewrite <- list_elem_of_In in H. Qed.

Lemma find_app' {A} (f : A → bool) l1 l2 :
  find f (l1 ++ l2) = match find f l1 with Some a => Some a | None => find f l2 end.
Proof. induction l1 as [|a l1 IH]; [done|]. simpl. by destruct (f a). Qed.

Lemma find_filter {A} (f : A → bool) (P : A → Prop) `{∀ a, Decision (P a)} l :
  (∀ a, a ∈ l → f a = true ↔ P a) → find f l = head (filter P l).
Proof.
  induction l as [|a l IH]; intros Hl; [done|]. simpl. rewrite filter_cons.
  destruct (f a) eqn:E; [rewrite decide_True; [done|]|rewrite decide_False].
  - apply Hl; [by left|done].
  - apply IH. intros x Hx. apply Hl. by right.
  - intros HP. apply (Hl a) in HP; [by rewrite E in HP|by left].
Qed.

(** [avtab_search] reads this function. *)
Lemma search_rule_datum h k :
  rules_ok h → avkey_ok k → specified k ∈ rule_kinds →
  match avtab_search h k with
  | Some n => n ∈ avtab_nodes h ∧ key n = k ∧
      find (λ n, bool_decide (key n = k)) (avtab_nodes h) = Some n
  | None => rule_datum h k = None
  end.
Proof.
  intros (_&Hw&_&Hok) Hk Hs.
  assert (Hall : avtab_search h k = find (λ n, bool_decide (key n = k)) (avtab_nodes h)).
  { transitivity (head (avtab_search_all h k)).
    - unfold avtab_search, avtab_search_all, avtab_search_node. destruct (av_htable h) as [b|]; [|done].
      destruct (avtab_walk _ _ _) as [[? r] f]. by destruct f, r.
    - rewrite avtab_search_all_correct by done. symmetry. apply find_filter.
      intros n Hn. rewrite key_matches_eq by (done || by apply Hok).
      rewrite !bool_decide_eq_true. by split. }
  pose proof Hall as Hfind. unfold rule_datum. rewrite <- Hall.
  destruct (avtab_search h k) as [n|]; [|done]. symmetry in Hfind.
  destruct (find_elem _ _ _ Hfind) as [Hn Hb%bool_decide_eq_true]. done.
Qed.

(** ** Edits

    [edits ks f h h']: the rules of the keys [ks] are updated by [f], the
    others are unchanged. *)

Definition edits (ks : list avtab_key) (f : option avtab_datum → avtab_datum) (h h' : avtab) : Prop :=
  ∀ k, rule_datum h' k = if bool_decide (k ∈ ks) then Some (f (rule_datum h k)) else rule_datum h k.

(** Updating twice is updating once. *)
Definition idempotent (f : option avtab_datum → avtab_datum) : Prop := ∀ o, f (Some (f o)) = f o.

Lemma edits_nil f h : edits [] f h h.
Proof. intros k. by rewrite bool_decide_false by apply not_elem_of_nil. Qed.

Lemma edits_app f ks1 ks2 h1 h2 h3 :
  idempotent f → edits ks1 f h1 h2 → edits ks2 f h2 h3 → edits (ks1 ++ ks2) f h1 h3.
Proof.
  intros Hf H1 H2 k. rewrite (H2 k), (H1 k).
  destruct (bool_decide_reflect (k ∈ ks1)) as [E1|E1], (bool_decide_reflect (k ∈ ks2)) as [E2|E2].
  - rewrite bool_decide_true by (apply elem_of_app; by left). by rewrite Hf.
  - by rewrite bool_decide_true by (apply elem_of_app; by left).
  - by rewrite bool_decide_true by (apply elem_of_app; by right).
  - by rewrite bool_decide_false by (rewrite elem_of_app; tauto).
Qed.

Lemma edits_equiv f ks1 ks2 h h' : (∀ k, k ∈ ks1 ↔ k ∈ ks2) → edits ks1 f h h' → edits ks2 f h h'.
Proof. intros E H k. rewrite (H k). by rewrite (bool_decide_ext _ _ (E k)). Qed.

(** The key of the rule is one that [avtab_insert] can hold. *)
Lemma rule_key_ok s t c e : avkey_ok (rule_key s t c e).
Proof. unfold avkey_ok, rule_key; cbn [source_type target_type target_class]. auto with zint. Qed.

Lemma kind_u16 e : e ∈ rule_kinds → u16 e = e.
Proof.
  intros He. apply u16_small. unfold rule_kinds in He. apply list_elem_of_fmap in He as (j&->&Hj).
  apply elem_of_seq in Hj. split; [lia|]. apply Z.pow_lt_mono_r; lia.
Qed.

(** A store through the datum pointer that the search returned. *)
Lemma store_edits h k n d f :
  rules_ok h → avkey_ok k → specified k ∈ rule_kinds →
  avtab_search h k = Some n → d = f (Some (datum n)) →
  (has_bits (specified k) AVTAB_XPERMS = true → is_Some (xperms d)) →
  let h' := avtab_set_datum h (naddr n) d in rules_ok h' ∧ edits [k] f h h'.
Proof.
  intros Hok Hk Hs Hn -> Hx. pose proof (search_rule_datum h k Hok Hk Hs) as Hsr. rewrite Hn in Hsr.
  destruct Hsr as (Hin&Hkn&Hfind). destruct Hok as (Ha&Hw&Hu&Hall). split.
  - split; [by apply avtab_set_datum_htable|]. split; [by apply avtab_set_datum_wf|].
    split; [by apply avtab_set_datum_unique|]. intros x [->|[Hx' _]]%elem_of_set_datum; [|by apply Hall|done|done].
    unfold node_ok, set_datum; cbn [key datum]. rewrite Hkn. by split.
  - intros k'. unfold rule_datum, avtab_set_datum. rewrite avtab_store_nodes.
    set (st := store_node (naddr n) (set_datum (f (Some (datum n))))).
    assert (Hf : find (λ n, bool_decide (key n = k')) (st <$> avtab_nodes h) =
                 st <$> find (λ n, bool_decide (key n = k')) (avtab_nodes h)).
    { generalize (avtab_nodes h) as l. induction l as [|x l IH]; [done|]. simpl.
      assert (key (st x) = key x) as -> by apply store_node_key. by destruct (bool_decide _). }
    rewrite Hf. destruct (bool_decide_reflect (k' ∈ [k])) as [->%list_elem_of_singleton|Hne].
    + rewrite Hfind. simpl. unfold st, store_node. by rewrite Z.eqb_refl.
    + destruct (find (λ n, bool_decide (key n = k')) (avtab_nodes h)) as [x|] eqn:Ex; [|done]. simpl. f_equal.
      apply find_elem in Ex as [Hxin Hxk%bool_decide_eq_true]. unfold st, store_node.
      destruct (Z.eqb_spec (naddr x) (naddr n)) as [E|]; [|done].
      apply (naddr_inj h) in E; [|done..]. subst x. destruct Hne. apply list_elem_of_singleton. congruence.
Qed.

(** Inserting a rule whose key is not in the table. *)
Lemma insert_edits h k d f m :
  rules_ok h → avkey_ok k → specified k ∈ rule_kinds → avtab_search h k = None →
  new_datum k d = f None →
  let '(rc, h', m') := avtab_insert h k d m in
  rules_ok h' ∧ (plenty m → plenty m' ∧ rc = 0) ∧ (rc = 0 → edits [k] f h h').
Proof.
  intros Hok Hk Hs Hn Hd. pose proof (search_rule_datum h k Hok Hk Hs) as Hsr. rewrite Hn in Hsr.
  pose proof Hok as (Ha&Hw&Hu&Hall).
  pose proof (avtab_insert_correct h k d m Hw Hk) as Hi. pose proof (avtab_insert_split h k d m) as Hsp.
  pose proof (avtab_insert_unique h k d m Hw Hk Hu) as Hu'.
  destruct (avtab_insert h k d m) as [[rc h'] m']. cbn [fst snd] in Hu'.
  destruct Hi as [Hp [(->&Hw'&Ha'&_&Hperm&_)|[(->&->&E)|(->&->&E)]]].
  - split.
    { split; [done|]. split; [done|]. split; [done|]. intros n. rewrite Hperm.
      intros [->|Hin]%elem_of_cons; [|by apply Hall]. split; [done|]. cbn [key datum].
      unfold new_datum. intros Hx. rewrite Hx. simpl. eauto. }
    split; [by intros P; split; [apply Hp|]|]. intros _ k'.
    destruct (Hsp h' m' Hw Hk eq_refl) as (l1&l2&E1&E2). unfold rule_datum in *. rewrite E2, E1 in *.
    rewrite !find_app' in *. cbn [find]. cbn [key].
    destruct (bool_decide_reflect (k' ∈ [k])) as [->%list_elem_of_singleton|Hne].
    + destruct (find _ l1); [done|]. rewrite bool_decide_true by done. simpl. simpl in Hsr.
      destruct (find _ l2); [done|]. simpl. by rewrite Hd.
    + destruct (find _ l1); [done|]. rewrite bool_decide_false; [done|]. intros ->. destruct Hne. by apply list_elem_of_singleton.
  - destruct E as [? E]. by rewrite Hn in E.
  - split; [done|]. split; [|done]. intros P. rewrite E in Ha by done. by destruct Ha.
Qed.

(** ** Code that only edits the rule table *)

(** From the policy [p] with any rule table in order, the code returns 0 or 1
    (it exits with 1, or returns 1, only when memory runs out), changes only the
    rule table, keeps it in order, and has updated the rules of the keys [ks]
    when it returns 0. *)
Definition edit_post (p : policydb) (ks : list avtab_key) (f : option avtab_datum → avtab_datum)
    (tab : avtab) (m : mem) (rc : Z) (s' : st) : Prop :=
  ∃ tab', s'.1 = set_te_avtab tab' p ∧ rules_ok tab' ∧ 0 <= rc <= 1 ∧
    (plenty m → plenty s'.2 ∧ rc = 0) ∧ (rc = 0 → edits ks f tab tab').

Definition out_of_memory (m : mem) (z : Z) : Prop := z = 1 ∧ ¬ plenty m.

Definition step_ok (c : M st Z) (p : policydb) (ks : list avtab_key)
    (f : option avtab_datum → avtab_datum) : Prop :=
  ∀ tab m, rules_ok tab → wp c (edit_post p ks f tab m) (out_of_memory m) (set_te_avtab tab p, m).

Lemma step_ok_equiv c p ks1 ks2 f : (∀ k, k ∈ ks1 ↔ k ∈ ks2) → step_ok c p ks1 f → step_ok c p ks2 f.
Proof.
  intros E H tab m Ht. eapply wp_mono; [|by apply H]. simpl. intros rc s' (tab'&?&?&?&?&He).
  exists tab'. split_and!; try done; try lia. intros Hrc. eapply edits_equiv; [exact E|by apply He].
Qed.

Lemma lor_zero_one a b : 0 <= a <= 1 → 0 <= b <= 1 → 0 <= Z.lor a b <= 1 ∧ (Z.lor a b = 0 → a = 0 ∧ b = 0).
Proof.
  intros Ha Hb. assert (a = 0 ∨ a = 1) as [->| ->] by lia; assert (b = 0 ∨ b = 1) as [->| ->] by lia;
    (split; [by vm_compute|]; intros E; by vm_compute in E).
Qed.

(** The loop over a table: every element's keys are updated. *)
Lemma or_loop_ok {A} (body : A → M st Z) p (ks : A → list avtab_key) f l :
  idempotent f → (∀ a, a ∈ l → step_ok (body a) p (ks a) f) →
  ∀ tab m ret, rules_ok tab → 0 <= ret <= 1 →
    wp (or_loop body l ret)
      (λ rc s', ∃ tab', s'.1 = set_te_avtab tab' p ∧ rules_ok tab' ∧ 0 <= rc <= 1 ∧
         (plenty m → plenty s'.2 ∧ rc = ret) ∧ (rc = 0 → ret = 0 ∧ edits (l ≫= ks) f tab tab'))
      (λ z, z = 1 ∧ ¬ plenty m) (set_te_avtab tab p, m).
Proof.
  intros Hf. induction l as [|a l IH]; intros Hl tab m ret Ht Hret; cbn [or_loop].
  { apply wp_ret. exists tab. split_and!; try done; lia. }
  apply wp_bind. eapply wp_mono; [|apply Hl; [by left|done]]. simpl.
  intros rc [p1 m1]. unfold edit_post; cbn [fst snd]. intros (tab1&->&Ht1&Hrc&Hp1&He1).
  destruct (lor_zero_one ret rc Hret Hrc) as [Hor Hor0].
  assert (IHl : ∀ a, a ∈ l → step_ok (body a) p (ks a) f) by (intros x Hx; apply Hl; by right).
  specialize (IH IHl tab1 m1 (Z.lor ret rc) Ht1 Hor). unfold wp in *.
  destruct (or_loop body l (Z.lor ret rc) (set_te_avtab tab1 p, m1)) as [[rc' s']|z|]; [| |done].
  - destruct IH as (tab'&?&?&?&Hp&He). exists tab'. split_and!; try done; try lia.
    + intros P. destruct (Hp1 P) as [P1 ->]. destruct (Hp P1) as [? E].
      by rewrite Z.lor_0_r in E.
    + intros Hr. destruct (He Hr) as [E He']. destruct (Hor0 E) as [-> ->].
      split; [done|]. simpl. eapply edits_app; [done|by apply He1|done].
  - destruct IH as [-> Hn]. split; [done|]. intros P. apply Hn. by apply Hp1.
Qed.

(** The datum [__add_rule] stores, for the new value [g] of the permissions. *)
Definition add_datum (g : Z → Z) (o : option avtab_datum) : avtab_datum :=
  match o with
  | Some d => AD (g (data d)) (xperms d)
  | None => AD (g 0) None
  end.

Lemma add_datum_idempotent g : (∀ x, g (g x) = g x) → idempotent (add_datum g).
Proof. intros Hg [d|]; simpl; by rewrite Hg. Qed.

(** A permission number: none (every permission), or one of 32. *)
Definition perm_ok (v : Z) : Prop := v < 0 ∨ 1 <= v <= 32.

(** The new value of the permissions, as a function of the old one. *)
Definition perm_update (v : Z) (not : bool) (d : Z) : Z :=
  if v <? 0 then (if not then 0 else 0xffffffff)
  else if not then Z.land d (not32 (2 ^ (v - 1))) else Z.lor d (2 ^ (v - 1)).

Lemma new_data_ok d v not : perm_ok v → new_data d v not = Ret (perm_update v not d).
Proof.
  intros Hv. unfold new_data, perm_update, perm_ok in *. destruct (Z.ltb_spec v 0); [done|].
  destruct (Z.eqb_spec v 0); [lia|]. destruct (Z.ltb_spec 32 v); [lia|]. cbn [orb].
  rewrite Z.shiftl_1_l, u32_small; [done|]. split; [apply Z.pow_nonneg; lia|apply Z.pow_lt_mono_r; lia].
Qed.

Lemma perm_update_idem v not x : perm_update v not (perm_update v not x) = perm_update v not x.
Proof.
  unfold perm_update. destruct (v <? 0); [done|]. destruct not.
  - by rewrite <- Z.land_assoc, Z.land_diag.
  - by rewrite <- Z.lor_assoc, Z.lor_diag.
Qed.

Definition access_kind (e : Z) : Prop := e ∈ rule_kinds ∧ has_bits e AVTAB_XPERMS = false.

(** The two last calls of an insertion: [cmalloc], and the insertion itself. *)
Lemma wp_cmalloc (Q : () → st → Prop) m0 p m :
  (plenty m0 → plenty m) → (∀ m', (plenty m0 → plenty m') → Q () (p, m')) →
  wp cmalloc Q (out_of_memory m0) (p, m).
Proof.
  intros Hm HQ. unfold cmalloc. apply wp_bind. unfold alloc, with_mem, wp at 1. cbn [snd].
  pose proof (malloc_plenty m) as Hp. destruct (malloc m) as [[|] m1].
  - apply wp_ret, HQ. intros P. by destruct (Hp (Hm P)) as (?&[= <-]&?).
  - cbn. split; [done|]. intros P. by destruct (Hp (Hm P)) as (?&[=]&_).
Qed.

Lemma wp_insert_rule p tab m0 m k d f :
  rules_ok tab → avkey_ok k → specified k ∈ rule_kinds → avtab_search tab k = None →
  new_datum k d = f None → (plenty m0 → plenty m) →
  wp (insert_rule k d) (edit_post p [k] f tab m0) (out_of_memory m0) (set_te_avtab tab p, m).
Proof.
  intros Ht Hk Hs Es Hd Hm. unfold insert_rule. apply wp_bind, wp_gets. cbn [te_avtab set_te_avtab fst].
  apply wp_bind. unfold with_mem, wp at 1. cbn [snd].
  pose proof (insert_edits tab k d f m Ht Hk Hs Es Hd) as Hi.
  destruct (avtab_insert tab k d m) as [[rc h'] m']. apply wp_bind, wp_modify, wp_ret. cbn [fst snd].
  destruct Hi as (Hok&Hpl&Hed). eexists. split; [done|]. split_and!; [done|by destruct (rc =? 0)..| |].
  - intros P. by destruct (Hpl (Hm P)) as [? ->].
  - destruct (Z.eqb_spec rc 0); [auto|done].
Qed.

(** The other case: a store through the datum pointer. *)
Lemma wp_store_rule p tab m k n d f :
  rules_ok tab → avkey_ok k → specified k ∈ rule_kinds → avtab_search tab k = Some n →
  d = f (Some (datum n)) → (has_bits (specified k) AVTAB_XPERMS = true → is_Some (xperms d)) →
  wp (_ ← upd (set_te_avtab (avtab_set_datum tab (naddr n) d)); mret 0)
    (edit_post p [k] f tab m) (out_of_memory m) (set_te_avtab tab p, m).
Proof.
  intros Ht Hk Hs Es Hd Hx. apply wp_bind, wp_modify, wp_ret. cbn [fst snd].
  destruct (store_edits tab k n d f Ht Hk Hs Es Hd Hx) as [Hok Hed]. eexists. split; [done|]. by split_and!.
Qed.

Lemma add_rule_ok p s t c v e not :
  perm_ok v → access_kind e →
  step_ok (__add_rule s t c v e not) p [rule_key s t c e] (add_datum (perm_update v not)).
Proof.
  intros Hv [He Hx] tab m Ht. pose proof (rule_key_ok s t c e) as Hk.
  assert (Hs : specified (rule_key s t c e) = e) by by apply kind_u16. unfold __add_rule.
  apply wp_bind, wp_gets. cbn [te_avtab set_te_avtab fst].
  destruct (avtab_search tab (rule_key s t c e)) as [av|] eqn:Es.
  - rewrite new_data_ok by done. apply wp_bind. unfold wp at 1. cbn [lift].
    apply wp_store_rule; rewrite ?Hs; try done. by rewrite Hx.
  - apply wp_bind. apply wp_cmalloc; [done|]. intros m1 Hm1. rewrite new_data_ok by done.
    apply wp_bind. unfold wp at 1. cbn [lift].
    apply wp_insert_rule; rewrite ?Hs; try done. unfold new_datum. by rewrite Hs, Hx.
Qed.

(** ** The loops over types and classes *)

(** The symbol tables of a loaded policy: they exist, and their pointers are
    objects. *)
Record syms_ok (p : policydb) : Prop := {
  types_table : is_Some (table (p_types p));
  types_ptr q : q ∈ datums (table (p_types p)) → is_Some (at_index (type_mem p) q);
  classes_table : is_Some (table (p_classes p));
  classes_ptr q : q ∈ datums (table (p_classes p)) → is_Some (at_index (class_mem p) q)
}.

(** A NULL argument stands for every type, or every class. *)
Definition sel_types (p : policydb) (o : option ptr) : list ptr :=
  match o with Some q => [q] | None => datums (table (p_types p)) end.
Definition sel_classes (p : policydb) (o : option ptr) : list ptr :=
  match o with Some q => [q] | None => datums (table (p_classes p)) end.

Definition type_value (p : policydb) (q : ptr) : Z := default 0 (t_value <$> at_index (type_mem p) q).
Definition class_value (p : policydb) (q : ptr) : Z := default 0 (c_value <$> at_index (class_mem p) q).

(** The keys of the rules a command selects. *)
Definition rule_keys (p : policydb) (src tgt cls : option ptr) (e : Z) : list avtab_key :=
  s ← sel_types p src; t ← sel_types p tgt; c ← sel_classes p cls;
  [rule_key (type_value p s) (type_value p t) (class_value p c) e].

Lemma wp_load {A} (store : policydb → list A) q (Q : A → st → Prop) E s a :
  at_index (store s.1) q = Some a → Q a s → wp (load store q) Q E s.
Proof. intros Ha HQ. unfold load. apply wp_bind, wp_gets, wp_lift_deref. eauto. Qed.

(** A loop over the types (or the classes) of the policy. *)
Lemma for_each_ok (tab : policydb → symtab ptr) (body : ptr → M st Z) p ks f :
  (∀ t, tab (set_te_avtab t p) = tab p) → is_Some (table (tab p)) → idempotent f →
  (∀ q, q ∈ datums (table (tab p)) → step_ok (body q) p (ks q) f) →
  step_ok (h ← get_p tab; _ ← ref (table h); or_loop body (datums (table h)) 0) p
    (datums (table (tab p)) ≫= ks) f.
Proof.
  intros Htab [h Hh] Hf Hb t m Ht. apply wp_bind, wp_gets. cbn [fst]. rewrite Htab. apply wp_bind, wp_lift_deref.
  exists h. split; [done|]. eapply wp_mono; [|by apply (or_loop_ok body p ks f)]. simpl.
  intros rc s' (tab'&?&?&?&?&He). exists tab'. split_and!; try done; try lia. intros Hr. by apply He.
Qed.

(** The pointers a command was given. *)
Definition ptrs_ok (p : policydb) (src tgt cls : option ptr) : Prop :=
  (∀ q, q ∈ sel_types p src → is_Some (at_index (type_mem p) q)) ∧
  (∀ q, q ∈ sel_types p tgt → is_Some (at_index (type_mem p) q)) ∧
  (∀ q, q ∈ sel_classes p cls → is_Some (at_index (class_mem p) q)).

Section loops.
Context (p : policydb) (f : option avtab_datum → avtab_datum) (e : Z).
Hypothesis Hsyms : syms_ok p.
Hypothesis Hf : idempotent f.

(** Loads the three objects and runs the step on their values. *)
Lemma load_values_ok (c : Z → Z → Z → M st Z) s t q :
  is_Some (at_index (type_mem p) s) → is_Some (at_index (type_mem p) t) → is_Some (at_index (class_mem p) q) →
  (∀ x y z, step_ok (c x y z) p [rule_key x y z e] f) →
  step_ok (a ← load type_mem s; b ← load type_mem t; d ← load class_mem q; c (t_value a) (t_value b) (c_value d))
    p [rule_key (type_value p s) (type_value p t) (class_value p q) e] f.
Proof.
  intros [a Ha] [b Hb] [d Hd] Hc tab m Ht. unfold type_value, class_value. rewrite Ha, Hb, Hd. simpl.
  eapply wp_bind, wp_load; [exact Ha|]. eapply wp_bind, wp_load; [exact Hb|].
  eapply wp_bind, wp_load; [exact Hd|]. by apply Hc.
Qed.

(** The three levels of [add_rule_auto] and [add_xperm_rule_auto]: [one] is the
    step for a class given, [each] for every class. *)
Context (one each : Z → Z → Z → M st Z).

Definition body (c : Z → Z → Z → M st Z) (s t q : ptr) : M st Z :=
  a ← load type_mem s; b ← load type_mem t; d ← load class_mem q; c (t_value a) (t_value b) (c_value d).

Definition auto_cls (s t : ptr) (cls : option ptr) : M st Z :=
  match cls with
  | None => for_each_class (body each s t)
  | Some q => body one s t q
  end.
Definition auto_tgt (s : ptr) (tgt cls : option ptr) : M st Z :=
  match tgt with
  | None => for_each_type (λ t, auto_cls s t cls)
  | Some t => auto_cls s t cls
  end.
Definition auto (src tgt cls : option ptr) : M st Z :=
  match src with
  | None => for_each_type (λ s, auto_tgt s tgt cls)
  | Some s => auto_tgt s tgt cls
  end.

Lemma auto_ok src tgt cls :
  (∀ x y z, step_ok (match cls with Some _ => one x y z | None => each x y z end) p [rule_key x y z e] f) →
  ptrs_ok p src tgt cls → step_ok (auto src tgt cls) p (rule_keys p src tgt cls e) f.
Proof.
  intros Hstep (Hs&Ht&Hc).
  assert (Hcls : ∀ s t, is_Some (at_index (type_mem p) s) → is_Some (at_index (type_mem p) t) →
    step_ok (auto_cls s t cls) p
      (c ← sel_classes p cls; [rule_key (type_value p s) (type_value p t) (class_value p c) e]) f).
  { intros s t Hs' Ht'. unfold auto_cls. destruct cls as [q|]; simpl.
    - apply load_values_ok; try done. apply Hc. by left.
    - apply for_each_ok; [done|apply Hsyms|done|]. intros q Hq. apply load_values_ok; auto. }
  assert (Htgt : ∀ s, is_Some (at_index (type_mem p) s) → step_ok (auto_tgt s tgt cls) p
      (t ← sel_types p tgt; c ← sel_classes p cls; [rule_key (type_value p s) (type_value p t) (class_value p c) e]) f).
  { intros s Hs'. unfold auto_tgt. destruct tgt as [t|]; simpl.
    - rewrite app_nil_r. apply Hcls; [done|]. apply Ht. by left.
    - apply for_each_ok; [done|apply Hsyms|done|]. intros t Hq. apply Hcls; auto. }
  unfold auto, rule_keys. destruct src as [s|]; simpl.
  - rewrite app_nil_r. apply Htgt. apply Hs. by left.
  - apply for_each_ok; [done|apply Hsyms|done|]. intros s Hq. apply Htgt; auto.
Qed.
End loops.

(** ** [add_rule] *)

(** The permission number a command gives to [__add_rule]. *)
Definition rule_perm (cls : option ptr) (perm : option perm_datum) : Z :=
  match cls with Some _ => perm_value perm | None => -1 end.

Lemma add_rule_auto_ok p src tgt cls perm e not :
  syms_ok p → ptrs_ok p src tgt cls → access_kind e → perm_ok (rule_perm cls perm) →
  step_ok (add_rule_auto src tgt cls perm e not) p (rule_keys p src tgt cls e)
    (add_datum (perm_update (rule_perm cls perm) not)).
Proof.
  intros Hs Hp He Hv.
  change (add_rule_auto src tgt cls perm e not) with
    (auto (λ x y z, __add_rule x y z (perm_value perm) e not) (λ x y z, __add_rule x y z (-1) e not) src tgt cls).
  assert (Hi : idempotent (add_datum (perm_update (rule_perm cls perm) not))).
  { apply add_datum_idempotent. intros x. apply perm_update_idem. }
  apply auto_ok; [done..| |done]. intros x y z. destruct cls; by apply add_rule_ok.
Qed.

(** The object a name denotes; no name denotes NULL. *)
Definition resolve (h : hashtab_t string ptr) (o : option string) : option (option ptr) :=
  match o with None => Some None | Some n => Some <$> hashtab_search h n end.

Definition resolve_perm (p : policydb) (cls : option ptr) (o : option string) : option (option perm_datum) :=
  match o with
  | None => Some None
  | Some n => q ← cls; cl ← at_index (class_mem p) q; Some <$> find_perm cl n
  end.

(** What a command denotes: its objects, or [None] when a name is unknown. *)
Definition rule_target (p : policydb) (s t c perm : option string)
    : option (option ptr * option ptr * option ptr * option perm_datum) :=
  src ← resolve (table (p_types p)) s;
  tgt ← resolve (table (p_types p)) t;
  cls ← resolve (table (p_classes p)) c;
  pd ← resolve_perm p cls perm;
  Some (src, tgt, cls, pd).

(** The permissions of the classes are numbered 1 to 32. *)
Definition perms_ok (p : policydb) : Prop :=
  ∀ q cl n d, at_index (class_mem p) q = Some cl → find_perm cl n = Some d → 1 <= pd_value d <= 32.

Lemma search_datums (h : hashtab_t string ptr) n q :
  is_Some h → hashtab_wf h → hashtab_search h n = Some q → q ∈ datums h.
Proof.
  intros [t ->] Hw Hs. rewrite hashtab_search_correct in Hs by done.
  destruct Hw as [Hw _]. pose proof Hw as (_&Hl&_). apply to_map_Some in Hs; [|done].
  apply elem_of_entries in Hs; [|done]. unfold datums. rewrite take_ge by lia.
  apply list_elem_of_fmap. exists (n, q). done.
Qed.

(** A name that is looked up first. *)
Lemma opt_name_eq (tab : policydb → symtab ptr) o k s :
  opt_name (λ n, tb ← get_p tab; mret (hashtab_search (table tb) n)) o k s =
  match resolve (table (tab s.1)) o with None => Ret (1, s) | Some q => k q s end.
Proof.
  destruct o as [n|]; [|done]. simpl. unfold mbind, M_bind, get_p, gets.
  by destruct (hashtab_search (table (tab s.1)) n).
Qed.

(** [add_rule] is [add_rule_auto] on the objects named, and 1 with nothing
    changed when a name is unknown. *)
Lemma add_rule_eq s t c perm e not p m :
  syms_ok p → hashtab_wf (table (p_classes p)) →
  add_rule s t c perm e not (p, m) =
  match rule_target p s t c perm with
  | None => Ret (1, (p, m))
  | Some (src, tgt, cls, pd) => add_rule_auto src tgt cls pd e not (p, m)
  end.
Proof.
  intros Hs Hw. unfold add_rule, rule_target.
  rewrite (opt_name_eq p_types s). cbn [fst]. destruct (resolve (table (p_types p)) s) as [src|]; [|done].
  rewrite (opt_name_eq p_types t). cbn [fst]. destruct (resolve (table (p_types p)) t) as [tgt|]; [|done].
  rewrite (opt_name_eq p_classes c). cbn [fst].
  destruct (resolve (table (p_classes p)) c) as [cls|] eqn:Ec; [|done].
  destruct perm as [n|]; [|done]. cbn [mbind option_bind resolve_perm].
  destruct cls as [q|]; [|done].
  assert (Hq : is_Some (at_index (class_mem p) q)).
  { destruct c as [c|]; [|done]. cbn [resolve] in Ec. apply fmap_Some in Ec as (q'&Hq'&[= ->]).
    apply (classes_ptr p Hs). eapply search_datums; [by apply Hs|done..]. }
  destruct Hq as [cl Hcl]. unfold load, mbind, M_bind, get_p, gets, lift. cbn [fst].
  rewrite Hcl. cbn [deref option_bind]. rewrite Hcl. simpl. by destruct (find_perm cl n).
Qed.

Lemma rule_target_ok p s t c perm src tgt cls pd :
  syms_ok p → hashtab_wf (table (p_types p)) → hashtab_wf (table (p_classes p)) → perms_ok p →
  rule_target p s t c perm = Some (src, tgt, cls, pd) →
  ptrs_ok p src tgt cls ∧ perm_ok (rule_perm cls pd).
Proof.
  intros Hs Hwt Hwc Hp H. unfold rule_target in H.
  apply bind_Some in H as (src'&Esrc&H). apply bind_Some in H as (tgt'&Etgt&H).
  apply bind_Some in H as (cls'&Ecls&H). apply bind_Some in H as (pd'&Epd&H). injection H as <- <- <- <-.
  assert (Hsel : ∀ (h : hashtab_t string ptr) o q0, is_Some h → hashtab_wf h → resolve h o = Some (Some q0) → q0 ∈ datums h).
  { intros h [n|] q0 Hh Hw E; [|done]. cbn [resolve] in E. apply fmap_Some in E as (q'&Hq'&[= ->]).
    by eapply search_datums. }
  split.
  - split_and!; intros q Hq.
    + apply (types_ptr p Hs). destruct src' as [q0|]; [|done]. apply list_elem_of_singleton in Hq as ->.
      eapply Hsel; [apply Hs|done..].
    + apply (types_ptr p Hs). destruct tgt' as [q0|]; [|done]. apply list_elem_of_singleton in Hq as ->.
      eapply Hsel; [apply Hs|done..].
    + apply (classes_ptr p Hs). destruct cls' as [q0|]; [|done]. apply list_elem_of_singleton in Hq as ->.
      eapply Hsel; [apply Hs|done..].
  - unfold perm_ok, rule_perm. destruct cls' as [q|]; [|by left]. destruct pd' as [d|]; [|by left]. right.
    destruct perm as [n|]; [|done]. cbn [resolve_perm mbind option_bind] in Epd.
    apply bind_Some in Epd as (cl&Hcl&Epd). apply fmap_Some in Epd as (d'&Hd&[= <-]). by eapply Hp.
Qed.

(** What a loaded policy satisfies for the edits to be defined. *)
Record policy_ok (p : policydb) : Prop := {
  ok_syms : syms_ok p;
  ok_types : hashtab_wf (table (p_types p));
  ok_classes : hashtab_wf (table (p_classes p));
  ok_perms : perms_ok p;
  ok_rules : rules_ok (te_avtab p)
}.

Lemma policy_ok_edit p tab : policy_ok p → rules_ok tab → policy_ok (set_te_avtab tab p).
Proof. intros [[] ? ? ? ?] Ht. by repeat (split; try done). Qed.

Lemma set_te_avtab_id p : set_te_avtab (te_avtab p) p = p.
Proof. by destruct p. Qed.

(** A step, with memory available, as an equation. *)
Lemma step_ok_plenty c p ks f m :
  step_ok c p ks f → rules_ok (te_avtab p) → plenty m →
  ∃ tab' m', c (p, m) = Ret (0, (set_te_avtab tab' p, m')) ∧ plenty m' ∧ rules_ok tab' ∧
             edits ks f (te_avtab p) tab'.
Proof.
  intros Hc Hr Hm. specialize (Hc (te_avtab p) m Hr). rewrite set_te_avtab_id in Hc. unfold wp in Hc.
  destruct (c (p, m)) as [[rc [p' m']]|z|]; [|by destruct Hc as [_ []]|done].
  destruct Hc as (tab'&E&Hr'&_&Hp&He). destruct (Hp Hm) as [Hm' ->]. cbn [fst snd] in *. subst p'.
  exists tab', m'. auto.
Qed.

Lemma add_rule_correct p m s t c perm e not :
  policy_ok p → access_kind e → plenty m →
  match rule_target p s t c perm with
  | None => add_rule s t c perm e not (p, m) = Ret (1, (p, m))
  | Some (src, tgt, cls, pd) =>
      ∃ tab' m', add_rule s t c perm e not (p, m) = Ret (0, (set_te_avtab tab' p, m')) ∧ plenty m' ∧
        rules_ok tab' ∧
        edits (rule_keys p src tgt cls e) (add_datum (perm_update (rule_perm cls pd) not)) (te_avtab p) tab'
  end.
Proof.
  intros [Hs Ht Hc Hp Hr] He Hm. rewrite add_rule_eq by done.
  destruct (rule_target p s t c perm) as [[[[src tgt] cls] pd]|] eqn:E; [|done].
  apply rule_target_ok in E as [Hptr Hperm]; [|done..].
  apply step_ok_plenty; [|done|done]. by apply add_rule_auto_ok.
Qed.

(** ** Type transitions *)

(** The last part of [add_transition]. *)
Lemma transition_ok p a b c v :
  step_ok (
    tab ← get_p te_avtab;
    match avtab_search tab (rule_key a b c AVTAB_TRANSITION) with
    | Some av =>
        _ ← upd (set_te_avtab (avtab_set_datum tab (naddr av) (AD v (xperms (datum av)))));
        mret 0
    | None => _ ← cmalloc; insert_rule (rule_key a b c AVTAB_TRANSITION) (AD v None)
    end) p [rule_key a b c AVTAB_TRANSITION] (add_datum (λ _, v)).
Proof.
  intros tab m Ht. pose proof (rule_key_ok a b c AVTAB_TRANSITION) as Hk.
  assert (Hs : specified (rule_key a b c AVTAB_TRANSITION) ∈ rule_kinds) by by repeat constructor.
  apply wp_bind, wp_gets. cbn [te_avtab set_te_avtab fst].
  destruct (avtab_search tab _) as [av|] eqn:Es.
  - by apply wp_store_rule.
  - apply wp_bind. apply wp_cmalloc; [done|]. intros m1 Hm1. by apply wp_insert_rule.
Qed.

(** The four names of a transition. *)
Definition transition_target (p : policydb) (s t c d : string) : option (ptr * ptr * ptr * ptr) :=
  src ← hashtab_search (table (p_types p)) s;
  tgt ← hashtab_search (table (p_types p)) t;
  cls ← hashtab_search (table (p_classes p)) c;
  def ← hashtab_search (table (p_types p)) d;
  Some (src, tgt, cls, def).

Lemma with_names_eq s t c d k p m :
  with_names s t c d k (p, m) =
  match transition_target p s t c d with
  | None => Ret (1, (p, m))
  | Some (src, tgt, cls, def) => k src tgt cls def (p, m)
  end.
Proof.
  unfold with_names, transition_target, find_type, find_class, mbind, M_bind, get_p, gets. cbn [fst].
  destruct (hashtab_search (table (p_types p)) s) as [src|]; [|done].
  simpl. destruct (hashtab_search (table (p_types p)) t) as [tgt|]; [|done].
  simpl. destruct (hashtab_search (table (p_classes p)) c) as [cls|]; [|done].
  simpl. by destruct (hashtab_search (table (p_types p)) d) as [def|].
Qed.

Lemma add_transition_correct p m s t c d :
  policy_ok p → plenty m →
  match transition_target p s t c d with
  | None => add_transition s t c d (p, m) = Ret (1, (p, m))
  | Some (src, tgt, cls, def) =>
      ∃ tab' m', add_transition s t c d (p, m) = Ret (0, (set_te_avtab tab' p, m')) ∧ plenty m' ∧
        rules_ok tab' ∧
        edits [rule_key (type_value p src) (type_value p tgt) (class_value p cls) AVTAB_TRANSITION]
          (add_datum (λ _, type_value p def)) (te_avtab p) tab'
  end.
Proof.
  intros [Hs Ht Hc _ Hr] Hm. unfold add_transition. rewrite with_names_eq.
  destruct (transition_target p s t c d) as [[[[src tgt] cls] def]|] eqn:E; [|done].
  unfold transition_target in E.
  apply bind_Some in E as (src'&Es&E). apply bind_Some in E as (tgt'&Et&E).
  apply bind_Some in E as (cls'&Ec&E). apply bind_Some in E as (def'&Ed&E). injection E as <- <- <- <-.
  pose proof (search_datums _ _ _ (types_table p Hs) Ht Es) as Ds%(types_ptr p Hs).
  pose proof (search_datums _ _ _ (types_table p Hs) Ht Et) as Dt%(types_ptr p Hs).
  pose proof (search_datums _ _ _ (classes_table p Hs) Hc Ec) as Dc%(classes_ptr p Hs).
  pose proof (search_datums _ _ _ (types_table p Hs) Ht Ed) as Dd%(types_ptr p Hs).
  apply step_ok_plenty; [|done|done]. clear -Ds Dt Dc Dd.
  destruct Ds as [a Ha], Dt as [b Hb], Dc as [q Hq], Dd as [e He].
  unfold type_value, class_value. rewrite Ha, Hb, Hq, He. intros tab m Htab. simpl.
  eapply wp_bind, wp_load; [exact Ha|]. eapply wp_bind, wp_load; [exact Hb|].
  eapply wp_bind, wp_load; [exact Hq|]. eapply wp_bind, wp_load; [exact He|].
  by apply transition_ok.
Qed.

(** ** Extended permissions *)

(** The bit [k] of the word [w] of the permissions. *)
Definition word_bit (p : list Z) (w k : Z) : bool := Z.testbit (default 0 (at_index p w)) k.

(** The bits of the word [w] that setting (or clearing) the permission [x]
    changes. *)
Definition hits (n : Z) (not : bool) (w k x : Z) : bool :=
  (Z.shiftr x 5 =? w) && (w <? n) && ((Z.land x 0x1f =? k) || (not && (32 <=? k))).

Lemma shl_bit x : 0 <= x → 0 <= Z.land x 0x1f < 32.
Proof. intros Hx. change 0x1f with (Z.ones 5). rewrite Z.land_ones by lia. apply Z.mod_pos_bound. lia. Qed.

Lemma word_bit_step (not : bool) x p w k :
  0 <= x → 0 <= k →
  word_bit (if not then xperm_clear x p else xperm_set x p) w k =
  if hits (Z.of_nat (length p)) not w k x then negb not else word_bit p w k.
Proof.
  intros Hx Hk. pose proof (shl_bit x Hx) as Hb. unfold word_bit, hits.
  assert (Hw : 0 <= Z.shiftr x 5) by (apply Z.shiftr_nonneg; lia).
  assert (Hbit : u32 (Z.shiftl 1 (Z.land x 0x1f)) = Z.shiftl 1 (Z.land x 0x1f)).
  { apply u32_small. rewrite Z.shiftl_1_l. split; [apply Z.pow_nonneg; lia|apply Z.pow_lt_mono_r; lia]. }
  destruct (Z.eqb_spec (Z.shiftr x 5) w) as [<-|Hne]; cbn [andb].
  2: { unfold xperm_clear, xperm_set. destruct not; by rewrite at_set_index_ne. }
  destruct (Z.ltb_spec (Z.shiftr x 5) (Z.of_nat (length p))) as [Hl|Hl]; cbn [andb].
  - unfold xperm_clear, xperm_set. destruct not; rewrite at_set_index_eq by lia; cbn [from_option id].
    + rewrite Z.land_spec, Hbit. unfold not32. rewrite testbit_u32, Z.lnot_spec, testbit_one_shl by lia.
      rewrite Z.ltb_antisym. destruct (Z.land x 31 =? k), (32 <=? k); simpl; by rewrite ?andb_true_r, ?andb_false_r.
    + rewrite Z.lor_spec, Hbit, testbit_one_shl by lia. rewrite andb_false_l, orb_false_r.
      destruct (Z.land x 31 =? k); by rewrite ?orb_true_r, ?orb_false_r.
  - unfold xperm_clear, xperm_set, set_index.
    destruct not; by rewrite list_insert_ge by lia.
Qed.

Lemma length_xperm_range lo hi not p : length (xperm_range lo hi not p) = length p.
Proof.
  unfold xperm_range. generalize (seqZ lo (hi - lo + 1)) as l. intros l. revert p.
  induction l as [|x l IH]; intros p; [done|]. simpl. rewrite IH.
  destruct not; unfold xperm_clear, xperm_set, set_index; apply length_insert.
Qed.

Lemma word_bit_range lo hi not p w k :
  0 <= lo → 0 <= k →
  word_bit (xperm_range lo hi not p) w k =
  if existsb (hits (Z.of_nat (length p)) not w k) (seqZ lo (hi - lo + 1)) then negb not else word_bit p w k.
Proof.
  intros Hlo Hk. unfold xperm_range.
  assert (Hpos : ∀ x, x ∈ seqZ lo (hi - lo + 1) → 0 <= x) by (intros x Hx%elem_of_seqZ; lia).
  revert p Hpos. generalize (seqZ lo (hi - lo + 1)) as l.
  induction l as [|x l IH]; intros p Hpos; [done|]. cbn [fold_left existsb].
  rewrite IH by (intros y Hy; apply Hpos; by right).
  assert (Hlen : length (if not then xperm_clear x p else xperm_set x p) = length p).
  { destruct not; unfold xperm_clear, xperm_set, set_index; apply length_insert. }
  rewrite Hlen. rewrite word_bit_step by (done || apply Hpos; by left).
  destruct (hits _ not w k x); simpl; by destruct (existsb _ l).
Qed.

Lemma word_bit_ext p1 p2 :
  length p1 = length p2 → (∀ w k, 0 <= k → word_bit p1 w k = word_bit p2 w k) → p1 = p2.
Proof.
  intros Hl H. apply list_eq_same_length with (length p1); [done..|]. intros i x y Hi Hx Hy.
  apply Z.bits_inj'. intros k Hk. specialize (H (Z.of_nat i) k Hk). unfold word_bit, at_index in H.
  destruct (Z.ltb_spec (Z.of_nat i) 0); [lia|]. rewrite Nat2Z.id, Hx, Hy in H. done.
Qed.

Lemma xperm_range_idem lo hi not p :
  0 <= lo → xperm_range lo hi not (xperm_range lo hi not p) = xperm_range lo hi not p.
Proof.
  intros Hlo. apply word_bit_ext; [by rewrite !length_xperm_range|]. intros w k Hk.
  rewrite !word_bit_range by done. rewrite length_xperm_range. by destruct (existsb _ _).
Qed.

(** The permissions a range sets: those between its ends. *)
Lemma xperm_range_correct lo hi not p i :
  0 <= lo → hi < 256 → 0 <= i < 256 → length p = 8%nat →
  xperm_test i (xperm_range lo hi not p) = if (lo <=? i) && (i <=? hi) then negb not else xperm_test i p.
Proof.
  intros Hlo Hhi Hi Hl. unfold xperm_test. fold (word_bit p (Z.shiftr i 5) (Z.land i 31)).
  fold (word_bit (xperm_range lo hi not p) (Z.shiftr i 5) (Z.land i 31)).
  pose proof (shl_bit i ltac:(lia)) as Hb. rewrite word_bit_range by lia. rewrite Hl.
  assert (Hex : existsb (hits (Z.of_nat 8) not (Z.shiftr i 5) (Z.land i 31)) (seqZ lo (hi - lo + 1)) =
                (lo <=? i) && (i <=? hi)); [|by rewrite Hex].
  assert (Hdec : ∀ x, 0 <= x < 256 → x = Z.shiftr x 5 * 32 + Z.land x 31 ∧ Z.shiftr x 5 < 8).
  { intros x Hx. change 31 with (Z.ones 5). rewrite Z.land_ones, Z.shiftr_div_pow2 by lia.
    split; [rewrite Z.mul_comm; by apply Z.div_mod|apply Z.div_lt_upper_bound; lia]. }
  apply eq_bool_prop_intro. rewrite !Is_true_true, existsb_exists, andb_true_iff, !Z.leb_le.
  setoid_rewrite <- list_elem_of_In. setoid_rewrite elem_of_seqZ. unfold hits.
  setoid_rewrite andb_true_iff. setoid_rewrite andb_true_iff.
  setoid_rewrite orb_true_iff. setoid_rewrite andb_true_iff.
  setoid_rewrite Z.eqb_eq. setoid_rewrite Z.ltb_lt. setoid_rewrite Z.leb_le. split.
  - intros (x&Hx&[E1 _]&[E2|[_ ?]]); [|lia]. destruct (Hdec x ltac:(lia)), (Hdec i Hi). lia.
  - intros Hr. exists i. destruct (Hdec i Hi). split_and!; lia.
Qed.

(** The datum [__add_xperm_rule] stores. *)
Definition xdatum (low high : Z) (not : bool) (o : option avtab_datum) : avtab_datum :=
  match o with
  | Some d => AD (data d) (update_xperms low high not <$> xperms d)
  | None => AD 0 (Some (update_xperms low high not (new_xperms low high)))
  end.

Lemma ioctl_range x : 0 <= ioctl_driver x < 256 ∧ 0 <= ioctl_func x < 256.
Proof.
  unfold ioctl_driver, ioctl_func. change 0xFF with (Z.ones 8). rewrite !Z.land_ones by lia.
  split; apply Z.mod_pos_bound; lia.
Qed.

Lemma update_xperms_idem low high not x :
  update_xperms low high not (update_xperms low high not x) = update_xperms low high not x.
Proof.
  pose proof (ioctl_range low). unfold update_xperms. cbn [xp_specified driver perms].
  destruct (xp_specified x =? AVTAB_XPERMS_IOCTLDRIVER) eqn:E; by rewrite xperm_range_idem by lia.
Qed.

Lemma xdatum_idempotent low high not : idempotent (xdatum low high not).
Proof.
  intros [d|]; simpl.
  - f_equal. destruct (xperms d); [|done]. simpl. by rewrite update_xperms_idem.
  - by rewrite update_xperms_idem.
Qed.

Definition xperm_kind (e : Z) : Prop := e ∈ rule_kinds ∧ has_bits e AVTAB_XPERMS = true.

Lemma add_xperm_rule_ok p s t c low high e not :
  xperm_kind e →
  step_ok (__add_xperm_rule s t c low high e not) p [rule_key s t c e] (xdatum low high not).
Proof.
  intros [He Hx] tab m Ht. pose proof (rule_key_ok s t c e) as Hk.
  assert (Hs : specified (rule_key s t c e) = e) by by apply kind_u16. unfold __add_xperm_rule.
  apply wp_bind, wp_gets. cbn [te_avtab set_te_avtab fst].
  destruct (avtab_search tab (rule_key s t c e)) as [av|] eqn:Es.
  - pose proof (search_rule_datum tab _ Ht Hk ltac:(by rewrite Hs)) as Hsr. rewrite Es in Hsr.
    destruct Hsr as (Hin&Hkn&_). apply Ht in Hin as [_ Hxp]. rewrite Hkn, Hs in Hxp.
    destruct (Hxp Hx) as [x Hxx]. apply wp_bind, wp_lift_deref. exists x. split; [done|].
    apply wp_store_rule; rewrite ?Hs; try done. unfold xdatum. by rewrite Hxx.
  - apply wp_bind. apply wp_cmalloc; [done|]. intros m1 Hm1.
    apply wp_bind. apply wp_cmalloc; [done|]. intros m2 Hm2.
    apply wp_insert_rule; rewrite ?Hs; try done. unfold new_datum. by rewrite Hs, Hx.
Qed.

Lemma add_xperm_rule_auto_ok p src tgt cls low high e not :
  syms_ok p → ptrs_ok p src tgt cls → xperm_kind e →
  step_ok (add_xperm_rule_auto src tgt cls low high e not) p (rule_keys p src tgt cls e) (xdatum low high not).
Proof.
  intros Hs Hp He.
  change (add_xperm_rule_auto src tgt cls low high e not) with
    (auto (λ x y z, __add_xperm_rule x y z low high e not) (λ x y z, __add_xperm_rule x y z low high e not) src tgt cls).
  apply auto_ok; [done|apply xdatum_idempotent| |done].
  intros x y z. destruct cls; by apply add_xperm_rule_ok.
Qed.

(** The objects and the range a command names; the range of a NULL argument is
    every code. *)
Definition xperm_range_of (range : option string) : outcome (Z * Z) :=
  match range with Some r => scan_range r | None => Ret (0, 0xFFFF) end.

Lemma add_xperm_rule_eq s t c range low high e not p m :
  xperm_range_of range = Ret (low, high) →
  add_xperm_rule s t c range e not (p, m) =
  match rule_target p s t c None with
  | None => Ret (1, (p, m))
  | Some (src, tgt, cls, _) => add_xperm_rule_auto src tgt cls low high e not (p, m)
  end.
Proof.
  intros Hr. unfold add_xperm_rule, rule_target.
  rewrite (opt_name_eq p_types s). cbn [fst]. destruct (resolve (table (p_types p)) s) as [src|]; [|done].
  rewrite (opt_name_eq p_types t). cbn [fst]. destruct (resolve (table (p_types p)) t) as [tgt|]; [|done].
  rewrite (opt_name_eq p_classes c). cbn [fst]. destruct (resolve (table (p_classes p)) c) as [cls|]; [|done].
  unfold xperm_range_of in Hr. rewrite Hr. done.
Qed.

Lemma add_xperm_rule_correct p m s t c range low high e not :
  policy_ok p → xperm_kind e → plenty m → xperm_range_of range = Ret (low, high) →
  match rule_target p s t c None with
  | None => add_xperm_rule s t c range e not (p, m) = Ret (1, (p, m))
  | Some (src, tgt, cls, _) =>
      ∃ tab' m', add_xperm_rule s t c range e not (p, m) = Ret (0, (set_te_avtab tab' p, m')) ∧ plenty m' ∧
        rules_ok tab' ∧ edits (rule_keys p src tgt cls e) (xdatum low high not) (te_avtab p) tab'
  end.
Proof.
  intros [Hs Ht Hc Hp Hr] He Hm Hrange. rewrite (add_xperm_rule_eq _ _ _ _ low high) by done.
  destruct (rule_target p s t c None) as [[[[src tgt] cls] pd]|] eqn:E; [|done].
  apply rule_target_ok in E as [Hptr _]; [|done..].
  apply step_ok_plenty; [|done|done]. by apply add_xperm_rule_auto_ok.
Qed.

(** ** The edits and the decisions of the security server *)

(** A permanent allow rule for a permission. *)
Lemma rule_allows h s t c b d :
  rule_datum h (rule_key s t c AVTAB_ALLOWED) = Some d → Z.testbit (data d) b = true →
  0 <= s < 2 ^ 16 → 0 <= t < 2 ^ 16 → 0 <= c < 2 ^ 16 →
  ∃ n, n ∈ avtab_nodes h ∧ allow_rule s t c b n.
Proof.
  intros Hd Hb Hs Ht Hc. unfold rule_datum in Hd. apply fmap_Some in Hd as (n&Hn&->).
  apply find_elem in Hn as [Hin Hk%bool_decide_eq_true]. exists n. split; [done|].
  unfold allow_rule. rewrite Hk. unfold rule_key; cbn [source_type target_type target_class specified].
  by rewrite !u16_small by done.
Qed.

(** The rules of a key that is unique: at most one. *)
Lemma rule_unique h n1 n2 :
  rules_ok h → n1 ∈ avtab_nodes h → n2 ∈ avtab_nodes h → key n1 = key n2 →
  has_bits (specified (key n1)) AVTAB_XPERMS = false → n1 = n2.
Proof.
  intros (_&_&Hu&Hok) H1 H2 E Hx. apply Hu; [done|done|]. unfold conflict. rewrite <- E, Hx.
  rewrite same_types_refl, kinds_disjoint by (by apply Hok). by rewrite bool_decide_true.
Qed.

Lemma rule_datum_unique h n :
  rules_ok h → n ∈ avtab_nodes h → has_bits (specified (key n)) AVTAB_XPERMS = false →
  rule_datum h (key n) = Some (datum n).
Proof.
  intros Hok Hn Hx. unfold rule_datum.
  destruct (find (λ n0, bool_decide (key n0 = key n)) (avtab_nodes h)) as [n'|] eqn:E.
  - apply find_elem in E as [Hin Hk%bool_decide_eq_true]. simpl. f_equal. f_equal.
    apply (rule_unique h); [done..|by rewrite Hk].
  - exfalso. rewrite list_elem_of_In in Hn. apply (find_none _ _ E) in Hn. by rewrite bool_decide_true in Hn.
Qed.

Lemma testbit_perm_update v b : 1 <= v <= 32 → b = v - 1 → ∀ d, Z.testbit (perm_update v false d) b = true.
Proof.
  intros Hv -> d. unfold perm_update. destruct (Z.ltb_spec v 0); [lia|].
  rewrite Z.lor_spec, Z.pow2_bits_true by lia. by rewrite orb_true_r.
Qed.

Lemma testbit_perm_clear v b : 1 <= v <= 32 → b = v - 1 → ∀ d, Z.testbit (perm_update v true d) b = false.
Proof.
  intros Hv -> d. unfold perm_update. destruct (Z.ltb_spec v 0); [lia|].
  rewrite Z.land_spec, testbit_not32, Z.pow2_bits_true by lia. by rewrite andb_false_r.
Qed.

Lemma rule_target_perm p s t c perm src tgt cls pd :
  perms_ok p → rule_target p s t c perm = Some (src, tgt, cls, Some pd) → 1 <= pd_value pd <= 32.
Proof.
  intros Hp H. unfold rule_target in H.
  apply bind_Some in H as (?&_&H). apply bind_Some in H as (?&_&H).
  apply bind_Some in H as (cls'&_&H). apply bind_Some in H as (pd'&Epd&H). injection H as <- <- <- ->.
  destruct perm as [n|]; [|done]. cbn [resolve_perm] in Epd.
  apply bind_Some in Epd as (q&->&Epd). apply bind_Some in Epd as (cl&Hcl&Epd).
  apply fmap_Some in Epd as (d&Hd&[= ->]). by eapply Hp.
Qed.

(** After an allow command the rules of the policy allow the permission to
    every type that the attributes of the source and target types name. *)
Lemma allow_te_allows p m s t c perm src tgt cls pd ts tt b :
  policy_ok p → plenty m →
  rule_target p (Some s) (Some t) (Some c) (Some perm) = Some (Some src, Some tgt, Some cls, Some pd) →
  b = pd_value pd - 1 →
  0 <= type_value p src < 2 ^ 16 → 0 <= type_value p tgt < 2 ^ 16 → 0 <= class_value p cls < 2 ^ 16 →
  attr_of p ts (type_value p src - 1) → attr_of p tt (type_value p tgt - 1) →
  ∃ p' m', add_rule (Some s) (Some t) (Some c) (Some perm) AVTAB_ALLOWED false (p, m) = Ret (0, (p', m')) ∧
    policy_ok p' ∧ te_allows p' ts tt (class_value p cls) b.
Proof.
  intros Hok Hm Htg Hb Hs Ht Hc Has Hat.
  pose proof (rule_target_perm _ _ _ _ _ _ _ _ _ (ok_perms p Hok) Htg) as Hpd.
  pose proof (add_rule_correct p m (Some s) (Some t) (Some c) (Some perm) AVTAB_ALLOWED false Hok) as H.
  rewrite Htg in H. destruct H as (tab'&m'&E&_&Hr&He); [by split; [repeat constructor|]|done|].
  exists (set_te_avtab tab' p), m'. split; [done|]. split; [by apply policy_ok_edit|].
  exists (type_value p src - 1), (type_value p tgt - 1). split; [done|]. split; [done|]. left.
  cbn [te_avtab set_te_avtab]. rewrite !Z.sub_add.
  apply (rule_allows _ _ _ _ b (add_datum (perm_update (pd_value pd) false)
    (rule_datum (te_avtab p) (rule_key (type_value p src) (type_value p tgt) (class_value p cls) AVTAB_ALLOWED))));
    [|by destruct (rule_datum _ _); apply testbit_perm_update|done..].
  rewrite (He _), bool_decide_true; [done|]. by left.
Qed.

(** After a deny command no rule of exactly those types allows it. *)
Lemma deny_no_rule p m s t c perm src tgt cls pd b :
  policy_ok p → plenty m →
  rule_target p (Some s) (Some t) (Some c) (Some perm) = Some (Some src, Some tgt, Some cls, Some pd) →
  b = pd_value pd - 1 →
  ∃ p' m', add_rule (Some s) (Some t) (Some c) (Some perm) AVTAB_ALLOWED true (p, m) = Ret (0, (p', m')) ∧
    policy_ok p' ∧
    ∀ n, n ∈ avtab_nodes (te_avtab p') →
      ¬ allow_rule (u16 (type_value p src)) (u16 (type_value p tgt)) (u16 (class_value p cls)) b n.
Proof.
  intros Hok Hm Htg Hb. pose proof (rule_target_perm _ _ _ _ _ _ _ _ _ (ok_perms p Hok) Htg) as Hpd.
  pose proof (add_rule_correct p m (Some s) (Some t) (Some c) (Some perm) AVTAB_ALLOWED true Hok) as H.
  rewrite Htg in H. destruct H as (tab'&m'&E&_&Hr&He); [by split; [repeat constructor|]|done|].
  exists (set_te_avtab tab' p), m'. split; [done|]. split; [by apply policy_ok_edit|].
  intros n Hn (E1&E2&E3&E4&Hbit). cbn [te_avtab set_te_avtab] in Hn.
  assert (Hk : key n = rule_key (type_value p src) (type_value p tgt) (class_value p cls) AVTAB_ALLOWED).
  { destruct (key n). unfold rule_key. cbn in *. subst. done. }
  pose proof (rule_datum_unique _ _ Hr Hn ltac:(by rewrite E4)) as Hd. rewrite Hk, (He _), bool_decide_true in Hd by by left.
  injection Hd as Hd. rewrite <- Hd in Hbit.
  destruct (rule_datum (te_avtab p) _); cbn [add_datum data] in Hbit;
    by rewrite (testbit_perm_clear _ b) in Hbit.
Qed.

(** ** What an extended permission rule grants *)

(** The ioctl codes (16 bits: the driver and the function) a datum grants. *)
Definition xperm_grants (x : avtab_extended_perms) (code : Z) : bool :=
  if xp_specified x =? AVTAB_XPERMS_IOCTLDRIVER then xperm_test (ioctl_driver code) (perms x)
  else (ioctl_driver code =? driver x) && xperm_test (ioctl_func code) (perms x).

(** The first rule with the key grants the code. *)
Definition granted (h : avtab) (k : avtab_key) (code : Z) : bool :=
  match rule_datum h k with
  | Some d => match xperms d with Some x => xperm_grants x code | None => false end
  | None => false
  end.

Lemma xperm_test_zero i : 0 <= i < 256 → xperm_test i (replicate 8 0) = false.
Proof.
  intros Hi. unfold xperm_test. assert (default 0 (at_index (replicate 8 0) (Z.shiftr i 5)) = 0) as ->; [|apply Z.bits_0].
  unfold at_index. destruct (Z.shiftr i 5 <? 0); [done|].
  destruct (replicate 8 0 !! Z.to_nat (Z.shiftr i 5)) as [z|] eqn:E; [|done].
  by apply lookup_replicate in E as [-> _].
Qed.

(** A 16-bit code is its driver and its function. *)
Lemma ioctl_split x : 0 <= x < 2 ^ 16 → x = ioctl_driver x * 256 + ioctl_func x.
Proof.
  intros Hx. unfold ioctl_driver, ioctl_func. change 0xFF with (Z.ones 8).
  rewrite !Z.land_ones, Z.shiftr_div_pow2 by lia.
  rewrite (Z.mod_small (x / 2 ^ 8)) by (split; [apply Z.div_pos; lia|apply Z.div_lt_upper_bound; lia]).
  rewrite Z.mul_comm. by apply Z.div_mod.
Qed.

(** A new rule grants exactly the range when it is within one driver, and every
    function of the drivers of the range otherwise. *)
Lemma new_xperm_grants low high code :
  0 <= low < 2 ^ 16 → 0 <= high < 2 ^ 16 → 0 <= code < 2 ^ 16 →
  xperm_grants (update_xperms low high false (new_xperms low high)) code =
  if ioctl_driver low =? ioctl_driver high then (low <=? code) && (code <=? high)
  else (ioctl_driver low <=? ioctl_driver code) && (ioctl_driver code <=? ioctl_driver high).
Proof.
  intros Hl Hh Hc. pose proof (ioctl_range low). pose proof (ioctl_range high). pose proof (ioctl_range code).
  pose proof (ioctl_split low Hl). pose proof (ioctl_split high Hh). pose proof (ioctl_split code Hc).
  unfold new_xperms. destruct (Z.eqb_spec (ioctl_driver low) (ioctl_driver high)) as [E|E]; cbn [negb];
    unfold update_xperms, xperm_grants; cbn [xp_specified driver perms].
  - change (AVTAB_XPERMS_IOCTLFUNCTION =? AVTAB_XPERMS_IOCTLDRIVER) with false. cbn iota.
    rewrite xperm_range_correct, xperm_test_zero by (done || lia).
    destruct (Z.eqb_spec (ioctl_driver code) (ioctl_driver low)); zcase; simpl; try done; lia.
  - change (AVTAB_XPERMS_IOCTLDRIVER =? AVTAB_XPERMS_IOCTLDRIVER) with true. cbn iota.
    rewrite xperm_range_correct, xperm_test_zero by (done || lia). by destruct (_ && _).
Qed.

(** An existing rule keeps its driver: a range of another driver is granted
    there, and not where it was asked for. *)
Lemma other_driver_grants x low high f :
  xp_specified x = AVTAB_XPERMS_IOCTLFUNCTION → length (perms x) = 8%nat →
  ioctl_driver low = ioctl_driver high → driver x ≠ ioctl_driver low → 0 <= driver x < 256 →
  ioctl_func low <= f <= ioctl_func high →
  xperm_grants (update_xperms low high false x) (driver x * 256 + f) = true ∧
  xperm_grants (update_xperms low high false x) (ioctl_driver low * 256 + f) = false.
Proof.
  intros Hs Hl Hd Hne Hdr Hf. pose proof (ioctl_range low). pose proof (ioctl_range high).
  assert (Hdec : ∀ d, 0 <= d < 256 → ioctl_driver (d * 256 + f) = d ∧ ioctl_func (d * 256 + f) = f).
  { intros d Hdd. unfold ioctl_driver, ioctl_func. change 0xFF with (Z.ones 8).
    rewrite !Z.land_ones, Z.shiftr_div_pow2 by lia. split; zmod. }
  unfold update_xperms, xperm_grants. cbn [xp_specified driver perms]. rewrite Hs.
  change (AVTAB_XPERMS_IOCTLFUNCTION =? AVTAB_XPERMS_IOCTLDRIVER) with false. cbn iota.
  destruct (Hdec (driver x) Hdr) as [-> ->]. destruct (Hdec (ioctl_driver low) ltac:(lia)) as [-> ->].
  rewrite xperm_range_correct by (done || lia). split.
  - rewrite Z.eqb_refl. destruct (Z.leb_spec (ioctl_func low) f), (Z.leb_spec f (ioctl_func high)); try lia. done.
  - by destruct (Z.eqb_spec (ioctl_driver low) (driver x)); [congruence|].
Qed.
