(* ===== verification/ExpandAv.v ===== *)
(** * Expansion of attributes in rules (expand.c: [expand_avtab], [expand_cond_av_list])

    The old binary formats know no attributes: a rule between attributes is
    replaced by the rules between their types.  The theorem: the expanded table
    grants a pair of types exactly what the rules of the attributes they belong
    to grant. *)

From S2P Require Import Prelude Ebitmap Hashtab Avtab Context Policydb Mls Cond Services Sepolicy RuleEdit.

Definition MAX_AVTAB_SIZE : Z := Z.shiftl MAX_AVTAB_HASH_BUCKETS 1.

(** The table that is filled, and the allocations. *)
Definition xst : Type := avtab * mem.

Definition datum_of (o : option avtab_extended_perms) : M xst avtab_extended_perms := lift (deref o).

(** The loop over the rules of a key: the first with the same specifier and driver. *)
Fixpoint find_xperms (l : list avtab_node) (x : avtab_extended_perms) : outcome (option avtab_node) :=
  match l with
  | [] => Ret None
  | n :: l' =>
      nx ← deref (xperms (datum n));
      if (xp_specified nx =? xp_specified x) && (driver nx =? driver x) then Ret (Some n)
      else find_xperms l' x
  end.

Definition insert_nonunique (k : avtab_key) (d : avtab_datum) : M xst (option avtab_node) := λ s,
  let '(r, h, m) := avtab_insert_nonunique s.1 k d s.2 in Ret (r, (h, m)).

Definition store_datum (n : avtab_node) (d : avtab_datum) : M xst () := λ s,
  Ret ((), (avtab_set_datum s.1 (naddr n) d, s.2)).

(** The [switch]: how the datum of a rule changes when the rule is met again;
    [None] is the type conflict. *)
Definition merge_data (spec : Z) (x y : Z) : option Z :=
  if (spec =? AVTAB_ALLOWED) || (spec =? AVTAB_AUDITALLOW) then Some (Z.lor x y)
  else if spec =? AVTAB_AUDITDENY then Some (Z.land x y)
  else None.

Definition is_xperms_kind (spec : Z) : bool :=
  (spec =? AVTAB_XPERMS_ALLOWED) || (spec =? AVTAB_XPERMS_AUDITALLOW) || (spec =? AVTAB_XPERMS_DONTAUDIT).

Definition same_enabled (k1 k2 : avtab_key) : bool :=
  Z.land (specified k1) AVTAB_ENABLED =? Z.land (specified k2) AVTAB_ENABLED.

Definition without_enabled (spec : Z) : Z := Z.land spec (not32 AVTAB_ENABLED).

Definition merge_rule (k : avtab_key) (d : avtab_datum) (n : avtab_node) : M xst Z :=
  let spec := without_enabled (specified k) in
  match merge_data spec (data (datum n)) (data d) with
  | Some z => _ ← store_datum n (AD z (xperms (datum n))); mret 0
  | None =>
      if is_xperms_kind spec then
        nx ← datum_of (xperms (datum n));
        x ← datum_of (xperms d);
        _ ← store_datum n (AD (data (datum n))
              (Some (XP (xp_specified nx) (driver nx) (zip_with Z.lor (perms nx) (perms x)))));
        mret 0
      else mret (-1)
  end.

Definition expand_avtab_insert (k : avtab_key) (d : avtab_datum) : M xst Z :=
  node ←
    (if has_bits (specified k) AVTAB_XPERMS then
       all ← gets (λ s, avtab_search_all s.1 k);
       match all with
       | [] => mret None
       | _ => x ← datum_of (xperms d); lift (find_xperms all x)
       end
     else gets (λ s, head (avtab_search_node s.1 k)));
  match node with
  | Some n =>
      if same_enabled k (key n) then merge_rule k d n
      else r ← insert_nonunique k d; mret (match r with Some _ => 0 | None => -1 end)
  | None => r ← insert_nonunique k d; mret (match r with Some _ => 0 | None => -1 end)
  end.

(** [type && type->flavor != TYPE_ATTRIB] *)
Definition is_type (p : policydb) (t : Z) : outcome bool :=
  o ← deref (at_index (type_val_to_struct p) (t - 1));
  match o with
  | None => Ret false
  | Some q => d ← deref (at_index (type_mem p) q); Ret (negb (flavor d =? TYPE_ATTRIB))
  end.

(** The loop over a bitmap of [attr_type_map]: the values [j + 1] it visits. *)
Definition attr_members (p : policydb) (t : Z) : outcome (list Z) :=
  o ← deref (at_index (attr_type_map p) (t - 1));
  e ← deref o;
  Ret ((λ j, u16 (j + 1)) <$> ebitmap_set_bits e).

(** The loops end at the first error; their status is -1. *)
Fixpoint insert_keys (insert : avtab_key → avtab_datum → M xst Z) (ks : list avtab_key) (d : avtab_datum) : M xst Z :=
  match ks with
  | [] => mret 0
  | k :: ks' =>
      rc ← insert k d;
      if negb (rc =? 0) then mret (-1) else insert_keys insert ks' d
  end.

(** The keys that stand for a rule: [newkey] for each pair of types. *)
Definition pair_keys (k : avtab_key) (ss ts : list Z) : list avtab_key :=
  flat_map (λ x, map (λ y, AK x y (target_class k) (specified k)) ts) ss.

(** Called when the source or the target is an attribute. *)
Definition expand_keys (p : policydb) (k : avtab_key) (s t : bool) : outcome (list avtab_key) :=
  if s then
    ts ← attr_members p (target_type k);
    Ret (pair_keys k [source_type k] ts)
  else if t then
    ss ← attr_members p (source_type k);
    Ret (pair_keys k ss [target_type k])
  else
    ss ← attr_members p (source_type k);
    if (length ss =? 0)%nat then Ret [] else ts ← attr_members p (target_type k); Ret (pair_keys k ss ts).

Definition expand_avtab_node (p : policydb) (k : avtab_key) (d : avtab_datum) : M xst Z :=
  s ← lift (is_type p (source_type k));
  t ← lift (is_type p (target_type k));
  if s && t then expand_avtab_insert k d
  else ks ← lift (expand_keys p k s t); insert_keys expand_avtab_insert ks d.

(** [avtab_map(a, expand_avtab_node, &data)] *)
Fixpoint expand_nodes (p : policydb) (l : list avtab_node) : M xst Z :=
  match l with
  | [] => mret 0
  | n :: l' =>
      rc ← expand_avtab_node p (key n) (datum n);
      if negb (rc =? 0) then mret rc else expand_nodes p l'
  end.

Definition expand_avtab (p : policydb) (a : avtab) : M xst Z :=
  rc ← (λ s, let '(rc, h, m) := avtab_alloc s.1 MAX_AVTAB_SIZE s.2 in Ret (rc, (h, m)));
  if negb (rc =? 0) then mret (-1) else expand_nodes p (avtab_nodes a).

(** ** Inserting one rule *)

Definition av_kinds : list Z := [AVTAB_ALLOWED; AVTAB_AUDITALLOW; AVTAB_AUDITDENY].

Definition merge_op (spec : Z) : Z → Z → Z := if spec =? AVTAB_AUDITDENY then Z.land else Z.lor.

(** A rule met for the first time is copied, later ones are merged into it. *)
Definition merge (spec : Z) (d : avtab_datum) (o : option avtab_datum) : avtab_datum :=
  match o with
  | None => d
  | Some d0 => AD (merge_op spec (data d0) (data d)) (xperms d0)
  end.

Lemma av_kind_facts spec : spec ∈ av_kinds →
  spec ∈ rule_kinds ∧ has_bits spec AVTAB_XPERMS = false ∧
  ∀ x y, merge_data (without_enabled spec) x y = Some (merge_op spec x y).
Proof.
  unfold av_kinds. intros Hs. repeat (apply elem_of_cons in Hs as [->|Hs]; [split; [apply (bool_decide_unpack _); by vm_compute|done]|]).
  by apply not_elem_of_nil in Hs.
Qed.

Lemma merge_idempotent spec d : idempotent (merge spec d).
Proof.
  intros o. unfold merge, merge_op. destruct d as [x xo]; destruct o as [[y yo]|]; cbn [data xperms];
  destruct (spec =? AVTAB_AUDITDENY); f_equal; apply Z.bits_inj'; intros n _;
  rewrite ?Z.land_spec, ?Z.lor_spec; by destruct (Z.testbit _ _); try destruct (Z.testbit _ _).
Qed.

Lemma search_node_head h k : head (avtab_search_node h k) = avtab_search h k.
Proof.
  unfold avtab_search_node, avtab_search. destruct (av_htable h); [|done].
  destruct (avtab_walk _ _ _) as [[? r] []]; done.
Qed.

(** A rule that is not there is inserted the same way by both functions. *)
Lemma nonunique_insert h k d m :
  avtab_search h k = None → avtab_wf h → avkey_ok k →
  let '(rc, h1, m1) := avtab_insert h k d m in
  let '(r, h2, m2) := avtab_insert_nonunique h k d m in
  h1 = h2 ∧ m1 = m2 ∧ (rc = 0 ↔ is_Some r).
Proof.
  intros Hs Hw Hk. unfold avtab_search, avtab_insert, avtab_insert_nonunique in *.
  destruct (av_htable h) as [b|] eqn:Hb; [|split_and!; [done..|split; [done|by intros []]]].
  destruct (av_chain_lookup h b k Hw Hb) as [_ Hc].
  destruct (avtab_walk _ _ _) as [[bf r] f] eqn:E.
  destruct (avtab_walk_spec _ _ _ _ _ _ _ _ Hc Hk E) as (_&_&Hr&_). destruct f.
  { destruct Hr as (c&next&->&_). done. }
  cbn [andb]. destruct (avtab_insert_node _ _ _ _ _ _ _ _) as [[[n|] h'] m']; split_and!; done.
Qed.

(** The outcome of inserting [d] for the keys [ks]. *)
Definition insert_post (ks : list avtab_key) (f : option avtab_datum → avtab_datum) (h : avtab) (m : mem)
    (rc : Z) (s : xst) : Prop :=
  rules_ok s.1 ∧ (plenty m → rc = 0 ∧ plenty s.2) ∧ (rc = 0 → edits ks f h s.1).

Lemma new_datum_plain k d : has_bits (specified k) AVTAB_XPERMS = false → new_datum k d = d.
Proof. unfold new_datum. by intros ->. Qed.

Lemma expand_insert_wp k d h m :
  rules_ok h → avkey_ok k → specified k ∈ av_kinds →
  wp (expand_avtab_insert k d) (insert_post [k] (merge (specified k) d) h m) (λ _, False) (h, m).
Proof.
  intros Hok Hk Hs. destruct (av_kind_facts _ Hs) as (Hrk&Hx&Hm).
  pose proof Hok as (_&Hw&_&_).
  unfold expand_avtab_insert. rewrite Hx. apply wp_bind, wp_gets. cbn [fst]. rewrite search_node_head.
  pose proof (search_rule_datum h k Hok Hk Hrk) as Hsr.
  destruct (avtab_search h k) as [n|] eqn:E.
  - destruct Hsr as (Hn&Hkn&Hf). unfold same_enabled. rewrite Hkn, Z.eqb_refl.
    unfold merge_rule. rewrite Hm. apply wp_bind. cbn.
    destruct (store_edits h k n (AD (merge_op (specified k) (data (datum n)) (data d)) (xperms (datum n)))
                (merge (specified k) d)) as [H1 H2]; [done..|by rewrite Hx|].
    by split_and!.
  - pose proof (insert_edits h k d (merge (specified k) d) m Hok Hk Hrk E (new_datum_plain k d Hx)) as Hi.
    pose proof (nonunique_insert h k d m E Hw Hk) as Hnu.
    apply wp_bind. unfold insert_nonunique, wp. cbn [fst snd].
    destruct (avtab_insert h k d m) as [[rc h1] m1], (avtab_insert_nonunique h k d m) as [[r h2] m2].
    destruct Hnu as (->&->&Hrc), Hi as (H1&H2&H3). cbn. split; [done|].
    destruct r as [r|]; split.
    + intros P. by destruct (H2 P).
    + intros _. by apply H3, Hrc.
    + intros P. destruct (H2 P) as [_ Hz]. apply Hrc in Hz. by destruct Hz.
    + done.
Qed.

Lemma insert_keys_wp ks d spec h m :
  rules_ok h → spec ∈ av_kinds → Forall (λ k, avkey_ok k ∧ specified k = spec) ks →
  wp (insert_keys expand_avtab_insert ks d) (insert_post ks (merge spec d) h m) (λ _, False) (h, m).
Proof.
  intros Hok Hs Hks. revert h m Hok. induction Hks as [|k ks [Hk Ek] Hks IH]; intros h m Hok.
  { split; [done|]. split; [done|]. intros _. apply edits_nil. }
  cbn [insert_keys]. apply wp_bind. eapply wp_mono; [|apply expand_insert_wp; [done..|by rewrite Ek]].
  intros rc [h1 m1] (Hok1&Hp&He). cbn [fst snd] in *. rewrite Ek in He.
  destruct (Z.eqb_spec rc 0) as [->|Hne]; cbn [negb].
  - eapply wp_mono; [|by apply IH]. intros rc [h2 m2] (Hok2&Hp2&He2). split; [done|]. split.
    + intros P. destruct (Hp P) as [_ P1]. by apply Hp2.
    + intros Hrc. apply (edits_app _ [k] ks h h1); [apply merge_idempotent|by apply He|by apply He2].
  - split; [done|]. split; [|done]. intros P. by destruct (Hp P).
Qed.

(** ** The whole table *)

(** The types a type or attribute of a rule stands for. *)
Definition members (p : policydb) (t : Z) : outcome (list Z) :=
  b ← is_type p t; if (b : bool) then Ret [t] else attr_members p t.

Definition type_list (p : policydb) (t : Z) : list Z := match members p t with Ret l => l | _ => [] end.

(** The keys of the rules that stand for a rule. *)
Definition rule_keys (p : policydb) (n : avtab_node) : list avtab_key :=
  pair_keys (key n) (type_list p (source_type (key n))) (type_list p (target_type (key n))).

(** A rule that [expand_avtab] handles: an access vector, and types the policy knows. *)
Definition expandable (p : policydb) (n : avtab_node) : Prop :=
  avkey_ok (key n) ∧ specified (key n) ∈ av_kinds ∧
  (∃ ss, members p (source_type (key n)) = Ret ss) ∧ (∃ ts, members p (target_type (key n)) = Ret ts).

Lemma elem_of_pair_keys k ss ts k' :
  k' ∈ pair_keys k ss ts ↔
  source_type k' ∈ ss ∧ target_type k' ∈ ts ∧ target_class k' = target_class k ∧ specified k' = specified k.
Proof.
  unfold pair_keys. rewrite list_elem_of_In, in_flat_map. split.
  - intros (x&Hx&Hk). apply in_map_iff in Hk as (y&<-&Hy). by rewrite !list_elem_of_In.
  - intros (H1&H2&E1&E2). exists (source_type k'). split; [by apply list_elem_of_In|].
    apply in_map_iff. exists (target_type k'). rewrite <- E1, <- E2. destruct k'.
    split; [done|by apply list_elem_of_In].
Qed.

Lemma members_u16 p t l : 0 <= t < 2 ^ 16 → members p t = Ret l → Forall (λ x, 0 <= x < 2 ^ 16) l.
Proof.
  unfold members. intros Ht H. apply ret_bind_inv in H as ([]&_&H).
  - injection H as <-. by constructor.
  - unfold attr_members in H. apply ret_bind_inv in H as (o&_&H). apply ret_bind_inv in H as (e&_&H).
    injection H as <-. apply Forall_fmap, Forall_true. intros j. apply u16_range.
Qed.

Lemma pair_keys_ok k ss ts : avkey_ok k →
  Forall (λ x, 0 <= x < 2 ^ 16) ss → Forall (λ x, 0 <= x < 2 ^ 16) ts →
  Forall (λ k', avkey_ok k' ∧ specified k' = specified k) (pair_keys k ss ts).
Proof.
  intros (_&_&Hc) Hss Hts. rewrite Forall_forall in Hss. rewrite Forall_forall in Hts. apply Forall_forall. intros k' (H1&H2&E1&E2)%elem_of_pair_keys.
  split; [|done]. unfold avkey_ok. rewrite E1. split; [by apply Hss|]. split; [by apply Hts|done].
Qed.

Lemma expand_node_wp p n h m :
  rules_ok h → expandable p n →
  wp (expand_avtab_node p (key n) (datum n))
     (insert_post (rule_keys p n) (merge (specified (key n)) (datum n)) h m) (λ _, False) (h, m).
Proof.
  intros Hok (Hk&Hs&(ss&Ess)&(ts&Ets)).
  pose proof (members_u16 _ _ _ (proj1 Hk) Ess) as Hss.
  pose proof (members_u16 _ _ _ (proj1 (proj2 Hk)) Ets) as Hts.
  pose proof (pair_keys_ok _ _ _ Hk Hss Hts) as Hks.
  unfold rule_keys, type_list. rewrite Ess, Ets.
  unfold members in Ess, Ets. apply ret_bind_inv in Ess as (b1&E1&Ess), Ets as (b2&E2&Ets).
  unfold expand_avtab_node. rewrite E1, E2. apply wp_bind. cbn [lift wp]. apply wp_bind. cbn [lift wp].
  destruct b1, b2; cbn [andb].
  - injection Ess as <-. injection Ets as <-.
    assert (pair_keys (key n) [source_type (key n)] [target_type (key n)] = [key n]) as ->
      by (by destruct n as [? [] ? ?]).
    by apply expand_insert_wp.
  - unfold expand_keys. rewrite Ets. injection Ess as <-. apply wp_bind. by apply insert_keys_wp.
  - unfold expand_keys. rewrite Ess. injection Ets as <-. apply wp_bind. by apply insert_keys_wp.
  - unfold expand_keys. rewrite Ess. apply wp_bind. cbn [mbind outcome_bind].
    destruct (Nat.eqb_spec (length ss) 0) as [E|E].
    + apply length_zero_iff_nil in E as ->. apply wp_ret. split; [done|]. split; [done|]. intros _. apply edits_nil.
    + rewrite Ets. by apply insert_keys_wp.
Qed.

(** The datum of a key once the rules [l] have been expanded into it. *)
Fixpoint expanded (p : policydb) (l : list avtab_node) (k : avtab_key) (o : option avtab_datum) : option avtab_datum :=
  match l with
  | [] => o
  | n :: l' =>
      expanded p l' k (if bool_decide (k ∈ rule_keys p n) then Some (merge (specified (key n)) (datum n) o) else o)
  end.

Lemma expand_nodes_wp p l h m :
  rules_ok h → Forall (expandable p) l →
  wp (expand_nodes p l)
     (λ rc s', rules_ok s'.1 ∧ (plenty m → rc = 0 ∧ plenty s'.2) ∧
        (rc = 0 → ∀ k, rule_datum s'.1 k = expanded p l k (rule_datum h k))) (λ _, False) (h, m).
Proof.
  intros Hok Hl. revert h m Hok. induction Hl as [|n l Hn Hl IH]; intros h m Hok; [done|].
  cbn [expand_nodes]. apply wp_bind. eapply wp_mono; [|by apply expand_node_wp].
  intros rc [h1 m1] (Hok1&Hp&He). cbn [fst snd] in *.
  destruct (Z.eqb_spec rc 0) as [->|Hne]; cbn [negb].
  - eapply wp_mono; [|by apply IH]. intros rc [h2 m2] (Hok2&Hp2&He2). split; [done|]. split.
    + intros P. destruct (Hp P) as [_ P1]. by apply Hp2.
    + intros Hrc k. rewrite (He2 Hrc k). cbn [expanded]. by rewrite (He eq_refl k).
  - split; [done|]. split; [|done]. intros P. by destruct (Hp P).
Qed.

(** The expanded table, as a function of the rules. *)
Lemma expand_avtab_wp p a expa m :
  Forall (expandable p) (avtab_nodes a) → av_htable expa = None →
  wp (expand_avtab p a)
     (λ rc s', (plenty m → rc = 0 ∧ plenty s'.2) ∧
        (rc = 0 → rules_ok s'.1 ∧ ∀ k, rule_datum s'.1 k = expanded p (avtab_nodes a) k None))
     (λ _, False) (expa, m).
Proof.
  intros Ha Hx. unfold expand_avtab. apply wp_bind. unfold wp at 1. cbn [fst snd].
  pose proof (avtab_alloc_correct expa MAX_AVTAB_SIZE m ltac:(done) Hx) as Hal.
  destruct (avtab_alloc expa MAX_AVTAB_SIZE m) as [[rc h] m']. destruct Hal as [Hp Hal].
  destruct (Z.eqb_spec rc 0) as [->|Hne]; cbn [negb].
  - destruct Hal as [(_&Hw&Hn&_&Hb)|[? _]]; [|done]. destruct (Hb ltac:(done)) as [_ Hb'].
    assert (rules_ok h) as Hok.
    { split; [done|]. split; [done|]. unfold avtab_unique. rewrite Hn.
      split; [intros n1 n2 H|intros n1 H]; by apply not_elem_of_nil in H. }
    eapply wp_mono; [|by apply expand_nodes_wp]. intros rc [h2 m2] (Hok2&Hp2&He2). split.
    + intros P. destruct (Hp P) as [P1 _]. by apply Hp2.
    + intros Hrc. split; [done|]. intros k. rewrite (He2 Hrc). unfold rule_datum. by rewrite Hn.
  - split; [|done]. intros P. by destruct (Hp P).
Qed.

(** ** What a pair of types is granted *)

Lemma expanded_bit p l k o b :
  specified k = AVTAB_ALLOWED ∨ specified k = AVTAB_AUDITALLOW → 0 <= b →
  (∃ d, expanded p l k o = Some d ∧ Z.testbit (data d) b = true) ↔
  (∃ d, o = Some d ∧ Z.testbit (data d) b = true) ∨
  (∃ n, n ∈ l ∧ k ∈ rule_keys p n ∧ Z.testbit (data (datum n)) b = true).
Proof.
  intros Hs Hb. revert o. induction l as [|n l IH]; intros o; cbn [expanded].
  { split; [by left|]. intros [H|(n&H&_)]; [done|by apply not_elem_of_nil in H]. }
  rewrite IH. setoid_rewrite elem_of_cons. destruct (bool_decide_reflect (k ∈ rule_keys p n)) as [Hk|Hk].
  - assert (merge_op (specified (key n)) = Z.lor) as Hop.
    { apply elem_of_pair_keys in Hk as (_&_&_&<-). by destruct Hs as [->| ->]. }
    assert ((∃ d, Some (merge (specified (key n)) (datum n) o) = Some d ∧ Z.testbit (data d) b = true) ↔
            (∃ d, o = Some d ∧ Z.testbit (data d) b = true) ∨ Z.testbit (data (datum n)) b = true) as ->.
    { unfold merge. rewrite Hop. destruct o as [d0|].
      - split.
        + intros (d&[= <-]&H). cbn [data] in H. rewrite Z.lor_spec in H. apply orb_true_iff in H as [H|H]; eauto.
        + intros H. eexists. split; [done|]. cbn [data]. rewrite Z.lor_spec.
          destruct H as [(d&[= <-]&->)| ->]; [done|apply orb_true_r].
      - split; [intros (d&[= <-]&H); by right|]. intros [(?&[=]&_)|H]; eauto. }
    naive_solver.
  - naive_solver.
Qed.
