(* ===== verification/AvtabFile.v ===== *)
(** * Rules in a policy file (avtab.c: [avtab_read_item], [avtab_read];
      write.c: [avtab_write_item], [avtab_write]; android_m_compat.c)

    Two formats: before POLICYDB_VERSION_AVTAB the rules of a key are merged
    into one entry, since then each rule is an entry.  Policies written by
    Android M encode extended permissions differently; the first such entry
    read switches [avtab_android_m_compat] on. *)

From S2P Require Import Prelude Policyfile Ebitmap Hashtab Avtab Context Policydb Cond ExpandAv.

Definition POLICYDB_VERSION_AVTAB : Z := 20.
Definition POLICYDB_VERSION_XPERMS_IOCTL : Z := 30.
Definition SEPOL_TARGET_SELINUX : Z := 0.

(** ** android_m_compat.h, android_m_compat.c *)

Definition AVTAB_OPTYPE_ALLOWED : Z := 0x1000.
Definition AVTAB_OPTYPE_AUDITALLOW : Z := 0x2000.
Definition AVTAB_OPTYPE_DONTAUDIT : Z := 0x4000.
Definition AVTAB_OPTYPE : Z := Z.lor (Z.lor AVTAB_OPTYPE_ALLOWED AVTAB_OPTYPE_AUDITALLOW) AVTAB_OPTYPE_DONTAUDIT.
Definition AVTAB_XPERMS_OPTYPE : Z := 4.
Definition avtab_xperms_to_optype (x : Z) : Z := Z.shiftl x AVTAB_XPERMS_OPTYPE.
Definition avtab_optype_to_xperms (x : Z) : Z := Z.shiftr x AVTAB_XPERMS_OPTYPE.

Definition avtab_android_m_compat_set : R () := λ s, Ret (inr (), FS (file s) true (fmem s)).
Definition get_compat : R bool := λ s, Ret (inr (compat s), s).

(** ** Reading *)

Definition spec_order : list Z :=
  [AVTAB_ALLOWED; AVTAB_AUDITDENY; AVTAB_AUDITALLOW; AVTAB_TRANSITION; AVTAB_CHANGE; AVTAB_MEMBER;
   AVTAB_XPERMS_ALLOWED; AVTAB_XPERMS_AUDITALLOW; AVTAB_XPERMS_DONTAUDIT].

(** [set]: how many of the specifiers the key has. *)
Definition count_specs (spec : Z) : Z :=
  Z.of_nat (length (filter (λ x, has_bits spec x = true) spec_order)).

Section read_item.
Context {S : Type}.
(** The callback on the caller's state; an error status is not 0. *)
Context (insertf : avtab_key → avtab_datum → S → R S).

(** The old format: one datum for each specifier.  The words read from the file
    are [buf32]; the array has eight elements, and those after the words are
    not initialised. *)
Fixpoint insert_specs (specs : list Z) (buf32 : list Z) (items : Z) (s t c val enabled : Z) (a : S)
    : R (S * Z) :=
  match specs with
  | [] => mret (a, items)
  | x :: specs' =>
      if has_bits val x then
        d ← must (at_index buf32 items);
        a ← insertf (AK s t c (Z.lor x enabled)) (AD d None) a;
        insert_specs specs' buf32 (items + 1) s t c val enabled a
      else insert_specs specs' buf32 items s t c val enabled a
  end.

Definition avtab_read_old_item (a : S) : R S :=
  buf ← next_u32s 1;
  let items2 := word buf 0 in
  _ ← guard_or (-1) ((5 <=? items2) && (items2 <=? 8));
  buf32 ← next_u32s items2;
  let s := word buf32 0 in
  _ ← guard_or (-1) (u16 s =? s);
  let t := word buf32 1 in
  _ ← guard_or (-1) (u16 t =? t);
  let c := word buf32 2 in
  _ ← guard_or (-1) (u16 c =? c);
  let val := word buf32 3 in
  let enabled := if has_bits val AVTAB_ENABLED_OLD then AVTAB_ENABLED else 0 in
  _ ← guard_or (-1) (has_bits val (Z.lor AVTAB_AV AVTAB_TYPE));
  _ ← guard_or (-1) (negb (has_bits val AVTAB_AV && has_bits val AVTAB_TYPE));
  '(a, items) ← insert_specs spec_order buf32 4 s t c val enabled a;
  _ ← guard_or (-1) (items =? items2);
  mret a.

(** The extended permissions of an entry; [optype] is [android_m_compat_optype]. *)
Definition read_xperms (vers : Z) (optype : bool) : R avtab_extended_perms :=
  sp ← next_u8;
  cm ← get_compat;
  '(sp, dr) ←
    (if cm || (negb (sp =? AVTAB_XPERMS_IOCTLFUNCTION) && negb (sp =? AVTAB_XPERMS_IOCTLDRIVER)
               && (vers =? POLICYDB_VERSION_XPERMS_IOCTL))
     then
       _ ← avtab_android_m_compat_set;
       mret (if optype then AVTAB_XPERMS_IOCTLDRIVER else AVTAB_XPERMS_IOCTLFUNCTION, sp)
     else dr ← next_u8; mret (sp, dr));
  ps ← next_u32s 8;
  mret (XP sp dr ps).

Definition avtab_read_new_item (vers : Z) (a : S) : R S :=
  buf16 ← next_u16s 4;
  let spec := word buf16 3 in
  let optype := has_bits spec AVTAB_OPTYPE && (vers =? POLICYDB_VERSION_XPERMS_IOCTL) in
  let spec := if optype then avtab_optype_to_xperms spec else spec in
  let k := AK (word buf16 0) (word buf16 1) (word buf16 2) spec in
  _ ← (if optype then avtab_android_m_compat_set else mret ());
  _ ← guard_or (-1) (count_specs spec =? 1);
  _ ← guard_or (-1) (negb ((vers <? POLICYDB_VERSION_XPERMS_IOCTL) && has_bits spec AVTAB_XPERMS));
  if has_bits spec AVTAB_XPERMS then
    x ← read_xperms vers optype;
    insertf k (AD 0 (Some x)) a
  else
    buf32 ← next_u32s 1;
    insertf k (AD (word buf32 0) None) a.

Definition avtab_read_item (vers : Z) (a : S) : R S :=
  if vers <? POLICYDB_VERSION_AVTAB then avtab_read_old_item a else avtab_read_new_item vers a.

(** [for (i = 0; i < n; i++) avtab_read_item(...)] *)
Fixpoint avtab_read_items (n : nat) (vers : Z) (a : S) : R S :=
  match n with
  | O => mret a
  | Datatypes.S n' => a ← avtab_read_item vers a; avtab_read_items n' vers a
  end.
End read_item.

Definition avtab_insertf (k : avtab_key) (d : avtab_datum) (a : avtab) : R avtab := λ s,
  let '(rc, a', m) := avtab_insert a k d (fmem s) in
  Ret (if rc =? 0 then inr a' else inl rc, FS (file s) (compat s) m).

(** The table is destroyed on an error. *)
Definition avtab_read (vers : Z) (a : avtab) : R avtab :=
  on_error (-1)
    (buf ← next_u32s 1;
     let nel := word buf 0 in
     _ ← guard_or (-1) (negb (nel =? 0));
     '(rc, a) ← in_mem (λ m, let '(rc, a', m) := avtab_alloc a nel m in ((rc, a'), m));
     _ ← guard_or (-1) (rc =? 0);
     avtab_read_items avtab_insertf (Z.to_nat nel) vers a).

(** ** Writing *)

Definition oldvers (p : policydb) : bool :=
  (policy_type p =? POLICY_KERN) && (policyvers p <? POLICYDB_VERSION_AVTAB).

(** [key.specified] in the file; [cm] is [avtab_android_m_compat]. *)
Definition file_spec (cm : bool) (n : avtab_node) : outcome Z :=
  let spec := specified (key n) in
  if cm && has_bits spec AVTAB_XPERMS then
    xp ← deref (xperms (datum n));
    Ret (if xp_specified xp =? AVTAB_XPERMS_IOCTLDRIVER then u16 (avtab_xperms_to_optype spec) else spec)
  else Ret spec.

Definition write_xperms (cm : bool) (xp : avtab_extended_perms) : writer :=
  (if cm then mret POLICYDB_SUCCESS else put_u8 (xp_specified xp));;;
  put_u8 (driver xp);;;
  put_u32s (perms xp).

(** [avtab_write_item] in the new format. *)
Definition avtab_write_new_item (p : policydb) (n : avtab_node) : writer := λ s,
  let x := has_bits (specified (key n)) AVTAB_XPERMS in
  match file_spec (compat s) n with
  | Ret spec =>
      (put_u16s [source_type (key n); target_type (key n); target_class (key n); spec];;;
       if (policyvers p <? POLICYDB_VERSION_XPERMS_IOCTL) && x then mret POLICYDB_ERROR
       else if negb (target_platform p =? SEPOL_TARGET_SELINUX) && x then mret POLICYDB_ERROR
       else if x then xp ← lift (deref (xperms (datum n))); write_xperms (compat s) xp
       else put_u32s [data (datum n)]) s
  | Exit z => Exit z
  | Undef => Undef
  end.

(** [avtab_write] in the new format: the buckets in order. *)
Definition avtab_write_new (p : policydb) (a : avtab) : writer :=
  put_u32s [av_nel a];;;
  write_all (avtab_write_new_item p) (avtab_nodes a).

(** *** The old format

    The rules of a key are merged into one entry; [merged] marks the nodes an
    earlier entry covers.  [chain] is the chain from the node [cur] on. *)

Definition is_merged (a : avtab) (n : avtab_node) : bool :=
  match node_at a (naddr n) with Some x => negb (merged x =? 0) | None => false end.

Definition mark_merged (a : avtab) (n : avtab_node) : avtab :=
  avtab_store a (naddr n) (λ x, AN (naddr x) (key x) (datum x) 1 (parse_context x)).

Definition avtab_reset_merged (a : avtab) : avtab :=
  AVT (map (map (λ x, AN (naddr x) (key x) (datum x) 0 (parse_context x))) <$> av_htable a) (av_nel a) (nslot a) (mask a) (fresh a).

(** The rules [avtab_search_node_next] finds from [chain] on. *)
Definition next_rules (chain : list avtab_node) (lookup : Z) : list avtab_node :=
  let nd := avtab_search_node_next chain lookup in
  search_next_loop (length nd) lookup nd.

Definition old_val (spec : Z) : Z :=
  if has_bits spec AVTAB_ENABLED then Z.lor (without_enabled spec) AVTAB_ENABLED_OLD else without_enabled spec.

(** [spec_order] of write.c. *)
Definition write_spec_order : list Z :=
  [AVTAB_ALLOWED; AVTAB_AUDITDENY; AVTAB_AUDITALLOW; AVTAB_TRANSITION; AVTAB_CHANGE; AVTAB_MEMBER].

(** The loop over [spec_order]: the words of the entry, the table with its
    nodes marked, and [*nel]; [None] is a missing node. *)
Fixpoint old_words (specs : list Z) (chain : list avtab_node) (cur : avtab_node) (val : Z) (a : avtab) (nel : Z)
    : option (list Z * avtab * Z) :=
  match specs with
  | [] => Some ([], a, nel)
  | x :: specs' =>
      if has_bits val x then
        let here := has_bits (specified (key cur)) x in
        let nd := if here then Some cur else head (avtab_search_node_next chain x) in
        let nel := if here then nel else u32 (nel - 1) in
        match nd with
        | None => None
        | Some n =>
            match old_words specs' chain cur val (mark_merged a n) nel with
            | Some (l, a, nel) => Some (data (datum n) :: l, a, nel)
            | None => None
            end
        end
      else old_words specs' chain cur val a nel
  end.

(** [avtab_write_item] in the old format.  The words are computed by
    [old_words]; [set] counts the rules the entry has to cover. *)
Definition avtab_old_entry (a : avtab) (chain : list avtab_node) (cur : avtab_node) (merge : bool) (nel : Z)
    : option (list Z * avtab * Z) :=
  let k := key cur in
  let val := old_val (specified k) in
  let lookup := if has_bits val AVTAB_AV then AVTAB_AV else AVTAB_TYPE in
  if merge && negb (has_bits val AVTAB_AV) && negb (has_bits val AVTAB_TYPE) then None
  else
    let others := if merge then next_rules chain lookup else [] in
    let val := fold_left (λ v n, Z.lor v (old_val (specified (key n)))) others val in
    let set := 1 + Z.of_nat (length others) in
    if negb (has_bits val (Z.lor AVTAB_AV AVTAB_TYPE)) then None
    else if has_bits val AVTAB_AV && has_bits val AVTAB_TYPE then None
    else
      match (if merge then old_words write_spec_order chain cur val a nel
             else Some ([data (datum cur)], mark_merged a cur, nel)) with
      | None => None
      | Some (l, a, nel) =>
          if negb (Z.of_nat (length l) =? set) then None
          else Some ([source_type k; target_type k; target_class k; val] ++ l, a, nel)
      end.

(** The results are the status, the table with its marks and [*nel]. *)
Definition avtab_write_old_item (a : avtab) (chain : list avtab_node) (cur : avtab_node) (merge commit : bool) (nel : Z)
    : M fs (Z * avtab * Z) :=
  if merge && is_merged a cur then mret (POLICYDB_SUCCESS, a, nel)
  else
    match avtab_old_entry a chain cur merge nel with
    | None => mret (POLICYDB_ERROR, a, nel)
    | Some (l, a, nel) =>
        if commit then
          rc ← put_u32s (Z.of_nat (length l) :: l);
          mret (rc, a, nel)
        else mret (POLICYDB_SUCCESS, a, nel)
    end.

(** The nodes of a chain, each with the chain from it on. *)
Fixpoint suffixes (l : list avtab_node) : list (list avtab_node * avtab_node) :=
  match l with
  | [] => []
  | n :: l' => (l, n) :: suffixes l'
  end.

Definition table_suffixes (a : avtab) : list (list avtab_node * avtab_node) :=
  flat_map suffixes (default [] (av_htable a)).

Fixpoint write_old_items (l : list (list avtab_node * avtab_node)) (commit : bool) (a : avtab) (nel : Z)
    : M fs (Z * avtab * Z) :=
  match l with
  | [] => mret (0, a, nel)
  | (chain, cur) :: l' =>
      r ← avtab_write_old_item a chain cur true commit nel;
      let '(rc, a, nel) := r : Z * avtab * Z in
      if negb (rc =? 0) then mret (-1, a, nel) else write_old_items l' commit a nel
  end.

(** [expand_avtab] into a new table. *)
Definition expand_new (p : policydb) (a : avtab) : M fs (Z * avtab) := λ s,
  match expand_avtab p a (AVT None 0 0 0 0, fmem s) with
  | Ret (rc, (h, m)) => Ret ((rc, h), FS (file s) (compat s) m)
  | Exit z => Exit z
  | Undef => Undef
  end.

Definition avtab_write_old (p : policydb) (a : avtab) : M fs Z :=
  r ← expand_new p a;
  let '(rc, expa) := r : Z * avtab in
  if negb (rc =? 0) then mret (-1)
  else
    let expa := avtab_reset_merged expa in
    r ← write_old_items (table_suffixes expa) false expa (av_nel expa);
    let '(rc, expa, nel) := r : Z * avtab * Z in
    if negb (rc =? 0) then mret (-1)
    else
      rc ← put_u32s [nel];
      if negb (rc =? 0) then mret (-1)
      else
        let expa := avtab_reset_merged expa in
        r ← write_old_items (table_suffixes expa) true expa nel;
        mret (r : Z * avtab * Z).1.1.

Definition avtab_write (p : policydb) (a : avtab) : writer :=
  if oldvers p then avtab_write_old p a else avtab_write_new p a.

(** ** The format *)

(** A rule of the table: its key and datum. *)
Definition rule_of (n : avtab_node) : avtab_key * avtab_datum := (key n, datum n).

(** The kinds of rules a table can hold: one specifier, in a conditional table
    perhaps enabled. *)
Definition stored_specs : list Z := spec_order ++ (Z.lor AVTAB_ENABLED <$> spec_order).

(** A rule that the format of version [vers] can hold; [cm] is the
    compatibility mode, which has no bit left for AVTAB_ENABLED. *)
Record storable (cm : bool) (vers : Z) (n : avtab_node) : Prop := {
  st_key : avkey_ok (key n);
  st_spec : specified (key n) ∈ stored_specs;
  st_datum :
    match xperms (datum n) with
    | None => has_bits (specified (key n)) AVTAB_XPERMS = false ∧ u32_ok (data (datum n))
    | Some xp =>
        has_bits (specified (key n)) AVTAB_XPERMS = true ∧ data (datum n) = 0 ∧
        POLICYDB_VERSION_XPERMS_IOCTL <= vers ∧
        byte_ok (xp_specified xp) ∧ byte_ok (driver xp) ∧ length (perms xp) = 8%nat ∧ Forall u32_ok (perms xp) ∧
        (cm = true ∨ vers = POLICYDB_VERSION_XPERMS_IOCTL →
         xp_specified xp = AVTAB_XPERMS_IOCTLFUNCTION ∨ xp_specified xp = AVTAB_XPERMS_IOCTLDRIVER) ∧
        (cm = true → vers = POLICYDB_VERSION_XPERMS_IOCTL ∧ specified (key n) ∈ spec_order)
    end
}.

Definition spec_in_file (cm : bool) (n : avtab_node) : Z :=
  match xperms (datum n) with
  | Some xp => if cm && (xp_specified xp =? AVTAB_XPERMS_IOCTLDRIVER)
               then u16 (avtab_xperms_to_optype (specified (key n))) else specified (key n)
  | None => specified (key n)
  end.

Definition avtab_node_bytes (cm : bool) (n : avtab_node) : list Z :=
  u16s [source_type (key n); target_type (key n); target_class (key n); spec_in_file cm n] ++
  match xperms (datum n) with
  | Some xp => (if cm then [] else le_bytes 1 (xp_specified xp)) ++ le_bytes 1 (driver xp) ++ u32s (perms xp)
  | None => u32s [data (datum n)]
  end.

Definition avtab_bytes (cm : bool) (a : avtab) : list Z :=
  u32s [av_nel a] ++ (avtab_nodes a ≫= avtab_node_bytes cm).

Lemma emits_avtab_node cm p n :
  storable cm (policyvers p) n → target_platform p = SEPOL_TARGET_SELINUX →
  emits cm (avtab_write_new_item p n) (avtab_node_bytes cm n).
Proof.
  intros [Hk Hs Hd] Ht.
  assert (E : emits cm
    (put_u16s [source_type (key n); target_type (key n); target_class (key n); spec_in_file cm n];;;
     match xperms (datum n) with Some xp => write_xperms cm xp | None => put_u32s [data (datum n)] end)
    (avtab_node_bytes cm n)).
  { apply emits_then; [by apply emits_u16s|]. destruct (xperms (datum n)) as [xp|]; [|by apply emits_u32s].
    destruct Hd as (_&_&_&_&_&Hl&_). unfold write_xperms.
    apply emits_then; [destruct cm; [apply emits_nil|apply emits_u8]|].
    apply emits_then; [apply emits_u8|]. apply emits_u32s. lia. }
  assert (∀ s, compat s = cm → avtab_write_new_item p n s =
    (put_u16s [source_type (key n); target_type (key n); target_class (key n); spec_in_file cm n];;;
     match xperms (datum n) with Some xp => write_xperms cm xp | None => put_u32s [data (datum n)] end) s) as E2.
  { intros s Hc. unfold avtab_write_new_item, file_spec, spec_in_file. rewrite Hc, Ht.
    destruct (xperms (datum n)) as [xp|].
    - destruct Hd as (->&_&Hv&_). rewrite andb_true_r. destruct (Z.ltb_spec (policyvers p) POLICYDB_VERSION_XPERMS_IOCTL); [lia|].
      by destruct cm.
    - destruct Hd as [-> _]. by rewrite !andb_false_r. }
  destruct E as [E1 E3]. split; intros; rewrite E2 by done; auto.
Qed.

Lemma emits_avtab cm p a :
  Forall (storable cm (policyvers p)) (avtab_nodes a) → target_platform p = SEPOL_TARGET_SELINUX →
  emits cm (avtab_write_new p a) (avtab_bytes cm a).
Proof.
  intros Ha Ht. apply emits_then; [by apply emits_u32s|]. apply emits_all.
  eapply Forall_impl; [exact Ha|]. intros n Hn. by apply emits_avtab_node.
Qed.

(** ** Reading one rule *)

Lemma stored_spec_facts x :
  x ∈ stored_specs → u16_ok x ∧ count_specs x = 1 ∧ has_bits x AVTAB_OPTYPE = false.
Proof.
  intros Hx. unfold stored_specs, spec_order in Hx. cbn [fmap list_fmap app] in Hx.
  repeat (apply elem_of_cons in Hx as [->|Hx]; [by vm_compute|]). by apply not_elem_of_nil in Hx.
Qed.

(** The encoding of Android M is undone. *)
Lemma optype_round_trip x :
  x ∈ spec_order → has_bits x AVTAB_XPERMS = true →
  has_bits (u16 (avtab_xperms_to_optype x)) AVTAB_OPTYPE = true ∧
  avtab_optype_to_xperms (u16 (avtab_xperms_to_optype x)) = x.
Proof.
  intros Hx. repeat (apply elem_of_cons in Hx as [->|Hx]; [by vm_compute|]). by apply not_elem_of_nil in Hx.
Qed.

Lemma parses_xperms cm vers optype xp :
  byte_ok (xp_specified xp) → byte_ok (driver xp) → length (perms xp) = 8%nat → Forall u32_ok (perms xp) →
  (cm = true ∨ vers = POLICYDB_VERSION_XPERMS_IOCTL →
   xp_specified xp = AVTAB_XPERMS_IOCTLFUNCTION ∨ xp_specified xp = AVTAB_XPERMS_IOCTLDRIVER) →
  (cm = true → optype = (xp_specified xp =? AVTAB_XPERMS_IOCTLDRIVER)) →
  parses cm (read_xperms vers optype)
    ((if cm then [] else le_bytes 1 (xp_specified xp)) ++ le_bytes 1 (driver xp) ++ u32s (perms xp)) xp.
Proof.
  intros Hs Hd Hl Hp Hx Ho. destruct xp as [sp dr ps]. cbn [xp_specified driver perms] in *.
  unfold read_xperms. destruct cm; cbn [app].
  - eapply parses_bind; [by apply parses_u8|].
    eapply parses_bind_nil with (a := true); [intros rest out m Hm; by exists m|]. cbn [orb].
    eapply parses_bind_nil with (a := (sp, dr)).
    { eapply parses_bind_nil with (a := ()); [intros rest out m Hm; by exists m|].
      rewrite Ho by done. destruct (Hx (or_introl eq_refl)) as [->| ->]; apply parses_ret. }
    eapply parses_map; [apply parses_u32s; [lia|done]|done].
  - eapply parses_bind; [by apply parses_u8|].
    eapply parses_bind_nil with (a := false); [intros rest out m Hm; by exists m|]. cbn [orb].
    assert (negb (sp =? AVTAB_XPERMS_IOCTLFUNCTION) && negb (sp =? AVTAB_XPERMS_IOCTLDRIVER)
            && (vers =? POLICYDB_VERSION_XPERMS_IOCTL) = false) as ->.
    { destruct (Z.eqb_spec vers POLICYDB_VERSION_XPERMS_IOCTL) as [E|]; [|apply andb_false_r].
      by destruct (Hx (or_intror E)) as [->| ->]. }
    eapply parses_bind; [eapply parses_map with (b := (sp, dr)); [by apply parses_u8|done]|]. cbn.
    eapply parses_map; [apply parses_u32s; [lia|done]|done].
Qed.

Section parse_item.
Context {S : Type} (insertf : avtab_key → avtab_datum → S → R S).

Lemma parses_avtab_node cm vers n a Q :
  POLICYDB_VERSION_AVTAB <= vers → storable cm vers n →
  parses_to cm (insertf (key n) (datum n) a) [] Q →
  parses_to cm (avtab_read_item insertf vers a) (avtab_node_bytes cm n) Q.
Proof.
  intros Hv [Hk Hs Hd] Hi. destruct n as [na [s t c sp] [d x] mg]. cbn [key datum xperms data] in *.
  destruct (stored_spec_facts _ Hs) as (Hsp&Hc&Hno). cbn [specified] in *.
  destruct Hk as (Hk1&Hk2&Hk3). cbn [source_type target_type target_class] in *.
  unfold avtab_read_item. destruct (Z.ltb_spec vers POLICYDB_VERSION_AVTAB); [lia|].
  unfold avtab_read_new_item, avtab_node_bytes, spec_in_file. cbn [key datum xperms data source_type target_type target_class specified].
  destruct x as [xp|].
  - destruct Hd as (Hx&->&Hvx&Hb1&Hb2&Hl&Hps&Hkind&Hcm).
    set (drv := cm && (xp_specified xp =? AVTAB_XPERMS_IOCTLDRIVER)).
    set (fsp := if drv then u16 (avtab_xperms_to_optype sp) else sp).
    assert (has_bits fsp AVTAB_OPTYPE && (vers =? POLICYDB_VERSION_XPERMS_IOCTL) = drv ∧
            (if drv then avtab_optype_to_xperms fsp else fsp) = sp ∧ u16_ok fsp) as (E1&E2&E3).
    { unfold fsp, drv. destruct cm; cbn [andb]; [|by rewrite Hno].
      destruct (xp_specified xp =? AVTAB_XPERMS_IOCTLDRIVER); [|by rewrite Hno].
      destruct (Hcm eq_refl) as [-> Hin]. destruct (optype_round_trip sp Hin Hx) as [-> ->].
      split_and!; [done..|]. apply u16_range. }
    eapply parses_then; [apply parses_u16s; [done|in_range; apply E3]|].
    change (word _ 3) with fsp. change (word [s; t; c; fsp] 0) with s. change (word _ 1) with t. change (word _ 2) with c.
    rewrite E1, E2. eapply (parses_then _ _ _ []).
    { destruct drv eqn:Ed; [|apply parses_ret]. unfold drv in Ed. apply andb_true_iff in Ed as [-> _].
      intros rest out m Hm. by exists m. }
    apply parses_guard_then; [by rewrite Hc|].
    apply parses_guard_then. { destruct (Z.ltb_spec vers POLICYDB_VERSION_XPERMS_IOCTL); [lia|done]. }
    rewrite Hx.
    eapply parses_last; [|exact Hi]. apply parses_xperms; [done..|].
    intros ->. done.
  - destruct Hd as [Hx Hd].
    eapply parses_then; [apply parses_u16s; [done|in_range; apply Hsp]|].
    change (word _ 3) with sp. change (word [s; t; c; sp] 0) with s. change (word _ 1) with t. change (word _ 2) with c.
    rewrite Hno. cbn [andb]. eapply (parses_then _ _ _ []); [apply parses_ret|].
    apply parses_guard_then; [by rewrite Hc|].
    apply parses_guard_then; [by rewrite Hx, andb_false_r|].
    rewrite Hx.
    apply (parses_last _ _ _ (u32s [d]) [d]); [apply parses_u32s; [done|in_range; apply Hd]|exact Hi].
Qed.
End parse_item.

(** ** Inserting what was read *)

(** A rule that no other conflicts with is inserted. *)
Lemma avtab_insert_ok h k d m :
  avtab_wf h → avkey_ok k → is_Some (av_htable h) → plenty m →
  (has_bits (specified k) AVTAB_XPERMS = true ∨ avtab_search h k = None) →
  ∃ h' m', avtab_insert h k d m = (0, h', m') ∧ plenty m' ∧ avtab_wf h' ∧ is_Some (av_htable h') ∧
    avtab_nodes h' ≡ₚ AN (fresh h) k (new_datum k d) 0 0 :: avtab_nodes h.
Proof.
  intros Hw Hk Hb Hm Hx. pose proof (avtab_insert_correct h k d m Hw Hk) as Hi.
  assert (has_bits (specified k) AVTAB_XPERMS = true → (avtab_insert h k d m).1.1 ≠ SEPOL_EEXIST) as Hne.
  { intros E. unfold avtab_insert. destruct (av_htable h) as [b|]; [|done].
    destruct (avtab_walk _ _ _) as [[bf r] f].
    rewrite has_bits_land_not_enabled, E. cbn [negb]. rewrite andb_false_r.
    by destruct (avtab_insert_node _ _ _ _ _ _ _ _) as [[[?|] ?] ?]. }
  destruct (avtab_insert h k d m) as [[rc h'] m']. destruct Hi as [Hp [H|[(->&_&Hs)|(_&_&Hn)]]].
  - destruct H as (->&?&?&_&?&_). exists h', m'. auto.
  - destruct Hx as [Hx|Hx]; [by apply Hne in Hx|]. rewrite Hx in Hs. by destruct Hs.
  - rewrite Hn in Hb by done. by destruct Hb.
Qed.

(** Two rules that [avtab_insert] does not accept together. *)
Definition clash (n1 n2 : avtab_node) : Prop :=
  has_bits (specified (key n1)) AVTAB_XPERMS = false ∧
  key_matches (key n1) (not_enabled (specified (key n1))) (key n2) = true.

Lemma stored_match_xperms x y :
  x ∈ stored_specs → y ∈ stored_specs → has_bits (not_enabled x) y = true →
  has_bits x AVTAB_XPERMS = has_bits y AVTAB_XPERMS.
Proof.
  assert (forallb (λ x, forallb (λ y, negb (has_bits (not_enabled x) y) ||
            eqb (has_bits x AVTAB_XPERMS) (has_bits y AVTAB_XPERMS)) stored_specs) stored_specs = true) as H
    by by vm_compute.
  rewrite forallb_forall in H. intros Hx Hy Hm. apply list_elem_of_In in Hx, Hy.
  specialize (H x Hx). rewrite forallb_forall in H. specialize (H y Hy). rewrite Hm in H. by apply eqb_prop.
Qed.

Lemma clash_conflict cm vers n1 n2 :
  storable cm vers n1 → storable cm vers n2 → clash n1 n2 → conflict n1 n2 = true.
Proof.
  intros [_ H1 _] [_ H2 _] [Hx Hm]. unfold key_matches in Hm. apply andb_true_iff in Hm as [Ht Hm].
  unfold conflict. rewrite Ht, Hm, Hx. rewrite <- (stored_match_xperms (specified (key n1))) by done. by rewrite Hx.
Qed.

Lemma storable_new_datum cm vers n : storable cm vers n → new_datum (key n) (datum n) = datum n.
Proof.
  intros [_ _ Hd]. unfold new_datum. destruct (datum n) as [d [xp|]]; cbn [xperms data] in *.
  - by destruct Hd as (->&_).
  - by destruct Hd as (->&_).
Qed.

Lemma clash_key n1 n2 k1 k2 : key n1 = key k1 → key n2 = key k2 → clash n1 n2 ↔ clash k1 k2.
Proof. unfold clash. by intros -> ->. Qed.

Definition read_post (h : avtab) (l : list avtab_node) (h' : avtab) : Prop :=
  avtab_wf h' ∧ rule_of <$> avtab_nodes h' ≡ₚ rule_of <$> (l ++ avtab_nodes h).

Lemma parses_avtab_insert cm vers n h :
  storable cm vers n → avtab_wf h → is_Some (av_htable h) → Forall (λ x, ¬ clash n x) (avtab_nodes h) →
  parses_to cm (avtab_insertf (key n) (datum n) h) []
    (λ h', avtab_wf h' ∧ is_Some (av_htable h') ∧
           avtab_nodes h' ≡ₚ AN (fresh h) (key n) (datum n) 0 0 :: avtab_nodes h).
Proof.
  intros Hn Hw Hb Hc rest out m Hm. pose proof (st_key _ _ _ Hn) as Hk.
  destruct (avtab_insert_ok h (key n) (datum n) m) as (h'&m'&E&Hm'&Hw'&Hb'&Hp); [done..| |].
  { destruct (has_bits (specified (key n)) AVTAB_XPERMS) eqn:Hx; [by left|right].
    pose proof (avtab_search_correct h (key n) Hw Hk) as Hs.
    destruct (avtab_search h (key n)) as [x|]; [|done]. destruct Hs as [Hin Hmt].
    rewrite Forall_forall in Hc. by destruct (Hc x Hin). }
  exists h', m'. split; [done|]. rewrite (storable_new_datum _ _ _ Hn) in Hp. split; [done|].
  unfold avtab_insertf. cbn [fmem]. by rewrite E.
Qed.

Lemma parses_items cm vers l : POLICYDB_VERSION_AVTAB <= vers → ∀ h,
  avtab_wf h → is_Some (av_htable h) → Forall (storable cm vers) l →
  StronglySorted (λ x y, ¬ clash y x) l →
  Forall (λ n, Forall (λ x, ¬ clash n x) (avtab_nodes h)) l →
  parses_to cm (avtab_read_items avtab_insertf (length l) vers h) (l ≫= avtab_node_bytes cm) (read_post h l).
Proof.
  intros Hv. induction l as [|n l IH]; intros h Hw Hb Hl Hs Hc; [by apply parses_to_ret|].
  apply Forall_cons in Hl as [Hn Hl], Hc as [Hc1 Hc]. apply StronglySorted_cons in Hs as [Hs1 Hs].
  rewrite bind_cons. eapply parses_to_bind.
  { apply parses_avtab_node; [done..|]. by eapply parses_avtab_insert. }
  intros h1 (Hw1&Hb1&Hp). intros rest out m Hm.
  destruct (IH h1 Hw1 Hb1 Hl Hs) with rest out m as (h'&m'&Hm'&[Hw' Hp']&E); [|done|].
  { rewrite Forall_forall in Hc, Hs1 |- *. intros x Hx. rewrite Hp. constructor; [|by apply Hc].
    rewrite (clash_key x _ x n) by done. by apply Hs1. }
  exists h', m'. split; [done|]. split; [|done]. split; [done|].
  rewrite Hp', !fmap_app, Hp. cbn [fmap list_fmap app]. rewrite <- Permutation_middle. done.
Qed.

(** ** The table *)

Lemma nodes_no_clash cm vers h :
  avtab_wf h → avtab_unique h → Forall (storable cm vers) (avtab_nodes h) →
  StronglySorted (λ x y, ¬ clash y x) (avtab_nodes h).
Proof.
  intros (_&Hnd&_) Hu Hs. unfold avtab_unique in Hu. revert Hnd Hu Hs.
  generalize (avtab_nodes h). intros l Hnd Hu Hs. induction Hs as [|n l Hn Hl IH]; [constructor|].
  cbn [fmap list_fmap] in Hnd. apply NoDup_cons in Hnd as [Hni Hnd]. apply StronglySorted_cons. split.
  - apply Forall_forall. intros x Hx Hcl. rewrite Forall_forall in Hl.
    apply (clash_conflict cm vers) in Hcl; [|by apply Hl|done].
    apply Hu in Hcl; [subst x|by apply list_elem_of_further|by apply list_elem_of_here].
    apply Hni. by apply list_elem_of_fmap_2.
  - apply IH; [done|]. intros n1 n2 H1 H2. apply Hu; by apply list_elem_of_further.
Qed.

(** Reading what was written gives a table with the same rules. *)
Lemma parses_avtab cm vers h a :
  POLICYDB_VERSION_AVTAB <= vers → avtab_wf h → avtab_unique h → Forall (storable cm vers) (avtab_nodes h) →
  avtab_nodes h ≠ [] → Z.of_nat (length (avtab_nodes h)) < 2 ^ 32 → av_htable a = None →
  parses_to cm (avtab_read vers a) (avtab_bytes cm h)
    (λ h', avtab_wf h' ∧ rule_of <$> avtab_nodes h' ≡ₚ rule_of <$> avtab_nodes h).
Proof.
  intros Hv Hw Hu Hs Hne Hlen Ha. unfold avtab_read, avtab_bytes.
  assert (av_nel h = Z.of_nat (length (avtab_nodes h))) as Enel.
  { destruct Hw as (_&_&_&->). by rewrite u32_small by lia. }
  assert (0 < av_nel h) as Hpos.
  { rewrite Enel. destruct (avtab_nodes h); [done|]. cbn [length]. lia. }
  set (r := (λ h', avtab_wf h' ∧ rule_of <$> avtab_nodes h' ≡ₚ rule_of <$> avtab_nodes h)).
  match goal with |- parses_to _ (on_error _ ?rd) ?bs _ => assert (parses_to cm rd bs r) as Hr end.
  { eapply parses_then; [apply parses_u32s; [done|in_range]|]. change (word [av_nel h] 0) with (av_nel h).
    apply parses_guard_then. { apply negb_true_iff, Z.eqb_neq. lia. }
    eapply (parses_to_bind _ _ _ [] _ (λ ra, ra.1 = 0 ∧ avtab_wf ra.2 ∧ is_Some (av_htable ra.2) ∧ avtab_nodes ra.2 = [])).
    { intros rest out m Hm. pose proof (avtab_alloc_correct a (av_nel h) m ltac:(lia) Ha) as Hal.
      unfold in_mem. cbn [fmem]. destruct (avtab_alloc a (av_nel h) m) as [[rc h1] m1].
      destruct Hal as [Hpl Hal]. destruct (Hpl Hm) as [Hm1 ->].
      destruct Hal as [(_&Hw1&Hn1&_&Hb)|[? _]]; [|done]. exists (0, h1), m1. split_and!; try done.
      cbn [snd]. by apply Hb. }
    intros [rc h1] (E&Hw1&Hb1&Hn1). cbn [fst snd] in *. subst rc.
    apply parses_guard_then; [done|]. rewrite Enel, Nat2Z.id. intros rest out m Hm.
    destruct (parses_items cm vers (avtab_nodes h) Hv h1 Hw1 Hb1 Hs) with rest out m as (h'&m'&?&[Hw' Hp]&E);
      [by eapply nodes_no_clash|rewrite Hn1; by apply Forall_true|done|].
    exists h', m'. rewrite Hn1, app_nil_r in Hp. done. }
  intros rest out m Hm. destruct (Hr rest out m Hm) as (h'&m'&?&?&E). exists h', m'.
  unfold on_error. by rewrite E.
Qed.

(** ** Arbitrary bytes *)

Lemma sound_read_xperms vers optype : sound (read_xperms vers optype) (λ _, True).
Proof.
  eapply sound_bind; [apply sound_u8|]. intros sp _.
  eapply (sound_bind _ _ (λ _, True)); [by intros s Hs|]. intros cm _.
  eapply (sound_bind _ _ (λ _, True)).
  - destruct (cm || _); [by intros s Hs|]. by eapply sound_map; [apply sound_u8|].
  - intros [sp' dr] _. by eapply sound_map; [by apply sound_u32s|].
Qed.

Lemma sound_read_new_item {S} (insertf : avtab_key → avtab_datum → S → R S) (P : S → Prop) vers a :
  (∀ k d, avkey_ok k → count_specs (specified k) = 1 → sound (insertf k d a) P) →
  sound (avtab_read_new_item insertf vers a) P.
Proof.
  intros Hi. eapply sound_bind; [by apply sound_u16s|]. intros buf [El Hb].
  destruct buf as [|s [|t [|c [|sp [|]]]]]; try (cbn in El; lia). rewrite !Forall_cons in Hb.
  destruct Hb as (Hs&Ht&Hc&Hsp&_).
  change (word [s; t; c; sp] 3) with sp. change (word [s; t; c; sp] 0) with s.
  change (word [s; t; c; sp] 1) with t. change (word [s; t; c; sp] 2) with c. cbv zeta.
  set (optype := has_bits sp _ && _). set (spec := if optype then _ else sp). clearbody optype spec.
  eapply (sound_bind _ _ (λ _, True)). { by destruct optype; intros st Hst. } intros _ _.
  apply sound_guard_bind. intros Hcnt%Z.eqb_eq. apply sound_guard_bind. intros _.
  destruct (has_bits spec AVTAB_XPERMS).
  - eapply sound_bind; [apply sound_read_xperms|]. intros x _. by apply Hi.
  - eapply sound_bind; [by apply sound_u32s|]. intros x _. by apply Hi.
Qed.

Lemma sound_avtab_insertf k d h :
  avkey_ok k → avtab_wf h ∧ avtab_unique h →
  sound (avtab_insertf k d h) (λ h', avtab_wf h' ∧ avtab_unique h').
Proof.
  intros Hk [Hw Hu] s Hs. unfold avtab_insertf. pose proof (avtab_insert_correct h k d (fmem s) Hw Hk) as Hi.
  pose proof (avtab_insert_unique h k d (fmem s) Hw Hk Hu) as Hu'.
  destruct (avtab_insert h k d (fmem s)) as [[rc h'] m']. cbn [fst snd] in Hu'.
  destruct Hi as [_ [(->&Hw'&_)|[(->&->&_)|(->&->&_)]]]; done.
Qed.

(** Whatever bytes are read as a table, the result is a well-formed table. *)
Lemma sound_avtab_read vers a :
  POLICYDB_VERSION_AVTAB <= vers → av_htable a = None →
  sound (avtab_read vers a) (λ h, avtab_wf h ∧ avtab_unique h).
Proof.
  intros Hv Ha. apply sound_on_error.
  eapply sound_bind; [by apply sound_u32s|]. intros buf [El Hb].
  destruct buf as [|nel [|]]; try (cbn in El; lia). apply Forall_inv in Hb. change (word [nel] 0) with nel.
  apply sound_guard_bind. intros Hnz.
  eapply (sound_bind _ _ (λ ra, ra.1 = 0 → avtab_wf ra.2 ∧ avtab_nodes ra.2 = [])).
  { apply sound_in_mem. intros m. pose proof (avtab_alloc_correct a nel m Hb Ha) as Hal.
    destruct (avtab_alloc a nel m) as [[rc h] m']. cbn. intros ->. by destruct Hal as [_ [(_&?&?&_)|[? _]]]. }
  intros [rc h] Hrc. apply sound_guard_bind. intros ->%Z.eqb_eq. destruct (Hrc eq_refl) as [Hw Hn].
  cbn [snd] in *. assert (Hu : avtab_unique h).
  { intros n1 n2. rewrite Hn. by intros ?%not_elem_of_nil. }
  clear Hrc Hn. revert h Hw Hu. induction (Z.to_nat nel) as [|n IH]; intros h Hw Hu; [by apply sound_ret|].
  cbn [avtab_read_items]. eapply sound_bind.
  - unfold avtab_read_item. destruct (Z.ltb_spec vers POLICYDB_VERSION_AVTAB); [lia|].
    apply sound_read_new_item. intros k d Hk _. by apply sound_avtab_insertf.
  - intros h' [Hw' Hu']. by apply IH.
Qed.
