(* ===== verification/TransFile.v ===== *)
(** * Transitions in a policy file

    policydb.c: [role_trans_read], [role_allow_read], [filename_trans_read],
    [range_read] (the branch of a kernel policy); write.c: [role_trans_write],
    [role_allow_write], [filename_trans_write], [range_write].  Formats without
    a class keep the transitions of processes only. *)

From S2P Require Import Prelude Policyfile Ebitmap EbitmapFile Hashtab SymtabFile PtrTable Avtab Context Policydb Mls MlsFile ClassFile SymbolFile.

Definition POLICYDB_VERSION_RANGETRANS : Z := 21.
Definition POLICYDB_VERSION_FILENAME_TRANS : Z := 25.
Definition POLICYDB_VERSION_ROLETRANS : Z := 26.

(** ** Role transitions and role allow rules *)

Definition new_roletr (p : policydb) : bool := is_kern p && (POLICYDB_VERSION_ROLETRANS <=? policyvers p).

Definition role_trans_entry (p : policydb) : R role_trans :=
  _ ← need (-1);
  buf ← next_u32s 3;
  c ← (if new_roletr p then next_u32s 1 else mret [SECCLASS_PROCESS]);
  mret (RTR (word buf 0) (word buf 1) (word c 0) (word buf 2)).

(** The list [p->role_tr]. *)
Definition role_trans_read (p : policydb) : R (list role_trans) :=
  buf ← next_u32s 1; repeat_read (Z.to_nat (word buf 0)) (role_trans_entry p).

Definition role_allow_read : R (list role_allow_t) :=
  buf ← next_u32s 1;
  repeat_read (Z.to_nat (word buf 0)) (_ ← need (-1); buf ← next_u32s 2; mret (RA (word buf 0) (word buf 1))).

(** [new_roletr || tr->tclass == SECCLASS_PROCESS] *)
Definition role_trans_kept (p : policydb) (tr : role_trans) : bool := new_roletr p || (rtr_tclass tr =? SECCLASS_PROCESS).

Definition role_trans_count (p : policydb) : Z := Z.of_nat (length (List.filter (role_trans_kept p) (role_tr p))).

Definition role_trans_write_one (p : policydb) (tr : role_trans) : writer :=
  if negb (new_roletr p) && negb (rtr_tclass tr =? SECCLASS_PROCESS) then mret POLICYDB_SUCCESS
  else
    put_u32s [rtr_role tr; rtr_type tr; rtr_new_role tr];;;
    if new_roletr p then put_u32s [rtr_tclass tr] else mret POLICYDB_SUCCESS.

Definition role_trans_write (p : policydb) : writer :=
  put_u32s [role_trans_count p];;; write_all (role_trans_write_one p) (role_tr p).

Definition role_allow_write (r : list role_allow_t) : writer :=
  put_u32s [Z.of_nat (length r)];;; write_all (λ ra, put_u32s [ra_role ra; ra_new_role ra]) r.

(** ** File name transitions *)

Definition filename_trans_entry : R (option (filename_trans * filename_trans_datum)) :=
  _ ← need (-1);
  _ ← need (-1);
  buf ← next_u32s 1;
  let len := word buf 0 in
  _ ← guard_or (-1) (negb (zero_or_saturated len));
  name ← key_read len;
  buf ← next_u32s 4;
  mret (Some (FT (word buf 0) (word buf 1) (word buf 2) name, FTD (word buf 3))).

(** The arguments of the warning about a duplicate: four array elements. *)
Definition duplicate_warning (p : policydb) (ft : filename_trans) (d : filename_trans_datum) : R () :=
  let name sym v : R () := λ s, match val_to_name p sym (u32 (v - 1)) with
                                | Ret _ => Ret (inr (), s)
                                | Exit z => Exit z
                                | Undef => Undef
                                end in
  _ ← name SYM_TYPES (ft_stype ft);
  _ ← name SYM_TYPES (ft_ttype ft);
  _ ← name SYM_CLASSES (ft_tclass ft);
  name SYM_TYPES (otype d).

(** A duplicate is reported and ignored. *)
Definition filename_trans_read (p : policydb) : R policydb :=
  on_error (-1)
    (buf ← next_u32s 1;
     t ← ptr_read (duplicate_warning p) filename_trans_entry (Z.to_nat (word buf 0)) (filename_trans_tab p, ftrans_mem p);
     mret (set_ftrans_mem t.2 (set_filename_trans_tab t.1 p))).

Definition filename_write_helper (ft : filename_trans) (d : filename_trans_datum) : writer :=
  put_u32s [strlen (ft_name ft)];;;
  put_string (ft_name ft);;;
  put_u32s [ft_stype ft; ft_ttype ft; ft_tclass ft; otype d].

(** [p->filename_trans->nel] *)
Definition put_nel {K D} (h : hashtab_t K D) : writer := λ s,
  match h with Some t => put_u32s [nel t] s | None => Undef end.

Definition filename_trans_write (p : policydb) : writer :=
  if policyvers p <? POLICYDB_VERSION_FILENAME_TRANS then mret POLICYDB_SUCCESS
  else
    put_nel (filename_trans_tab p);;;
    hashtab_map (filename_trans_tab p) (at_ptr (ftrans_mem p) filename_write_helper).

(** ** Range transitions *)

Definition new_rangetr (p : policydb) : bool := is_kern p && (POLICYDB_VERSION_RANGETRANS <=? policyvers p).

Definition range_entry (p : policydb) : R (option (range_trans * mls_range)) :=
  _ ← need (-1);
  buf ← next_u32s 2;
  c ← (if new_rangetr p then next_u32s 1 else mret [SECCLASS_PROCESS]);
  _ ← need (-1);
  r ← mls_read_range_helper;
  mret (Some (RT (word buf 0) (word buf 1) (word c 0), r)).

(** The table [p->range_tr] of a kernel policy. *)
Definition range_read (p : policydb) : R (hashtab_t range_trans mls_range) :=
  on_error (-1) (buf ← next_u32s 1; table_read (range_entry p) (Z.to_nat (word buf 0)) (range_tr p)).

Definition range_kept (p : policydb) (rt : range_trans) : bool :=
  new_rangetr p || (rt_target_class rt =? SECCLASS_PROCESS).

(** The state is [args->nel]. *)
Definition rangetrans_count (p : policydb) (rt : range_trans) (r : mls_range) : M Z Z := λ n,
  Ret (0, if range_kept p rt then u32 (n + 1) else n).

Definition range_write_helper (p : policydb) (rt : range_trans) (r : mls_range) : writer :=
  if negb (new_rangetr p) && negb (rt_target_class rt =? SECCLASS_PROCESS) then mret POLICYDB_SUCCESS
  else
    put_u32s [rt_source_type rt; rt_target_type rt];;;
    (if new_rangetr p then put_u32s [rt_target_class rt] else mret POLICYDB_SUCCESS);;;
    mls_write_range_helper r.

Definition range_write (p : policydb) : writer := λ s,
  match hashtab_map (range_tr p) (rangetrans_count p) 0 with
  | Ret (rc, n) =>
      if rc =? 0 then (put_u32s [n];;; hashtab_map (range_tr p) (range_write_helper p)) s else Ret (rc, s)
  | Exit z => Exit z
  | Undef => Undef
  end.

(** ** Formats *)

Definition role_trans_bytes (p : policydb) (tr : role_trans) : list Z :=
  u32s [rtr_role tr; rtr_type tr; rtr_new_role tr] ++ opt_bytes (new_roletr p) (u32s [rtr_tclass tr]).

Definition stored_role_tr (p : policydb) : list role_trans := List.filter (role_trans_kept p) (role_tr p).

Definition role_tr_bytes (p : policydb) : list Z :=
  u32s [role_trans_count p] ++ (stored_role_tr p ≫= role_trans_bytes p).

Definition role_allow_bytes (r : list role_allow_t) : list Z :=
  u32s [Z.of_nat (length r)] ++ (r ≫= λ ra, u32s [ra_role ra; ra_new_role ra]).

Definition filename_bytes (ft : filename_trans) (d : filename_trans_datum) : list Z :=
  u32s [strlen (ft_name ft)] ++ string_bytes (ft_name ft) ++ u32s [ft_stype ft; ft_ttype ft; ft_tclass ft; otype d].

Definition filename_trans_bytes (hv : hashtab_t filename_trans filename_trans_datum) : list Z :=
  u32s [Z.of_nat (length (table_entries hv))] ++ table_bytes filename_bytes hv.

Definition range_trans_bytes (p : policydb) (rt : range_trans) (r : mls_range) : list Z :=
  u32s [rt_source_type rt; rt_target_type rt] ++ opt_bytes (new_rangetr p) (u32s [rt_target_class rt]) ++ range_bytes r.

(** The transitions the format keeps. *)
Definition ranges_kept (p : policydb) : list (range_trans * mls_range) :=
  List.filter (λ e, range_kept p e.1) (table_entries (range_tr p)).

Definition range_tr_bytes (p : policydb) : list Z :=
  u32s [Z.of_nat (length (ranges_kept p))] ++
  table_bytes (λ rt r, opt_bytes (range_kept p rt) (range_trans_bytes p rt r)) (range_tr p).

Definition role_trans_ok (tr : role_trans) : Prop :=
  Forall u32_ok [rtr_role tr; rtr_type tr; rtr_tclass tr; rtr_new_role tr].
Definition role_allow_ok (ra : role_allow_t) : Prop := Forall u32_ok [ra_role ra; ra_new_role ra].

(** The values of the keys are below 2^31: the comparison functions subtract
    them as [int]. *)
Definition filename_ok (ft : filename_trans) (d : filename_trans_datum) : Prop :=
  filename_trans_ok ft ∧ symbol_ok (ft_name ft) ∧ u32_ok (otype d).
Definition range_entry_ok (rt : range_trans) (r : mls_range) : Prop := range_trans_ok rt ∧ range_ok r.

(** ** Emission *)

Lemma emits_role_tr c p : emits c (role_trans_write p) (role_tr_bytes p).
Proof.
  apply emits_then; [by apply emits_u32s|]. unfold stored_role_tr.
  induction (role_tr p) as [|tr l IH]; [apply emits_nil|]. cbn [write_all List.filter].
  unfold role_trans_write_one at 1, role_trans_kept at 1.
  destruct (new_roletr p || (rtr_tclass tr =? SECCLASS_PROCESS)) eqn:E; rewrite <- negb_orb, E; cbn [negb].
  - rewrite bind_cons. apply emits_then; [|done]. apply emits_then; [by apply emits_u32s|].
    apply emits_opt. intros _. by apply emits_u32s.
  - by apply (emits_then _ _ _ [] _ (emits_nil c)).
Qed.

Lemma emits_role_allow c r : emits c (role_allow_write r) (role_allow_bytes r).
Proof.
  apply emits_then; [by apply emits_u32s|]. apply emits_all, Forall_true. intros ra. by apply emits_u32s.
Qed.

Lemma emits_filename c ft d : symbol_ok (ft_name ft) → emits c (filename_write_helper ft d) (filename_bytes ft d).
Proof.
  intros Hk. apply emits_then; [by apply emits_u32s|].
  apply emits_then; [by apply emits_string, symbol_short|by apply emits_u32s].
Qed.

(** The number of entries of a table. *)
Lemma emits_nel c {K D} `{HashKeyLaws K, Countable K} (h : hashtab_t K D) :
  hashtab_wf h → is_Some h → emits c (put_nel h) (u32s [Z.of_nat (length (table_entries h))]).
Proof.
  destruct h as [t|]; [|by intros _ []]. intros [_ En] _.
  cbn [table_entries]. rewrite <- u32s_wrap, <- En. by apply emits_u32s.
Qed.

Lemma emits_filename_trans c p hv :
  (POLICYDB_VERSION_FILENAME_TRANS <= policyvers p) →
  points (ftrans_mem p) (filename_trans_tab p) hv → hashtab_wf hv → is_Some hv →
  all_entries (λ ft d, symbol_ok (ft_name ft)) hv →
  emits c (filename_trans_write p) (filename_trans_bytes hv).
Proof.
  intros Hv Hp Hw Hs Ha. unfold filename_trans_write. destruct (Z.ltb_spec (policyvers p) POLICYDB_VERSION_FILENAME_TRANS); [lia|].
  apply emits_then.
  - pose proof (points_nel _ _ _ Hp) as En. pose proof (emits_nel c hv Hw Hs) as He.
    destruct (filename_trans_tab p), hv as [t|]; try by destruct Hs. injection En as En. unfold put_nel in *. by rewrite En.
  - eapply emits_ext.
    + intros s. by apply points_map.
    + apply emits_table; [done|]. intros ft d Hd. apply emits_filename. by apply Ha in Hd.
Qed.

(** The count of the transitions that are written. *)
Lemma rangetrans_count_ok p : hashtab_wf (range_tr p) →
  ∃ n, hashtab_map (range_tr p) (rangetrans_count p) 0 = Ret (0, n) ∧
       u32s [n] = u32s [Z.of_nat (length (ranges_kept p))].
Proof.
  intros Hw. unfold rangetrans_count. eexists. split; [by apply (map_counts (λ rt _, range_kept p rt) 1)|].
  unfold ranges_kept. destruct (Nat.eqb_spec (length (List.filter (λ e, range_kept p e.1) (table_entries (range_tr p)))) 0) as [E|E].
  - by rewrite E.
  - rewrite u32s_wrap. f_equal. f_equal. lia.
Qed.

Lemma emits_range_tr c p : hashtab_wf (range_tr p) → emits c (range_write p) (range_tr_bytes p).
Proof.
  intros Hw. destruct (rangetrans_count_ok p Hw) as (n&E&En). eapply emits_ext.
  { intros s. unfold range_write. rewrite E. cbn [Z.eqb]. reflexivity. }
  unfold range_tr_bytes. rewrite <- En. apply emits_then; [by apply emits_u32s|].
  apply emits_table; [done|]. intros rt r _. unfold range_write_helper. rewrite <- negb_orb. fold (range_kept p rt).
  destruct (range_kept p rt); cbn [negb opt_bytes]; [|apply emits_nil].
  apply emits_then; [by apply emits_u32s|]. apply emits_then; [|apply emits_range].
  apply emits_opt. intros _. by apply emits_u32s.
Qed.

(** ** What is written is read back *)

Section parse.
Context (c : bool).

(** The class a format without classes stands for. *)
Lemma parses_class_word (b : bool) cl : u32_ok cl → (b = false → cl = SECCLASS_PROCESS) →
  parses c (if b then next_u32s 1 else mret [SECCLASS_PROCESS]) (opt_bytes b (u32s [cl])) [cl].
Proof.
  intros Hcl Hb. destruct b; [apply parses_u32s; [done|by in_range]|]. rewrite Hb by done. apply parses_ret.
Qed.

Lemma parses_count {B} n (f : list Z → R B) bs y :
  u32_ok n → (∀ buf, word buf 0 = n → parses c (f buf) bs y) → parses c (next_u32s 1 ≫= f) (u32s [n] ++ bs) y.
Proof. intros Hn Hf. eapply parses_bind; [apply parses_u32s; [done|by in_range]|]. by apply Hf. Qed.

Lemma parses_to_count {B} n (f : list Z → R B) bs Q :
  u32_ok n → (∀ buf, word buf 0 = n → parses_to c (f buf) bs Q) → parses_to c (next_u32s 1 ≫= f) (u32s [n] ++ bs) Q.
Proof. intros Hn Hf. eapply parses_then; [apply parses_u32s; [done|by in_range]|]. by apply Hf. Qed.

Lemma parses_role_tr p :
  Forall role_trans_ok (role_tr p) → u32_ok (role_trans_count p) →
  parses c (role_trans_read p) (role_tr_bytes p) (stored_role_tr p).
Proof.
  intros Hl Hn. apply parses_count; [done|]. intros buf ->. unfold role_trans_count. rewrite Nat2Z.id.
  apply parses_repeat; [done|]. apply Forall_forall. intros tr [Hin Hk]%elem_of_bfilter.
  rewrite Forall_forall in Hl. pose proof (Hl _ Hin) as Ht. unfold role_trans_ok in Ht. rewrite !Forall_cons in Ht.
  destruct tr as [r t cl nr]. cbn [rtr_role rtr_type rtr_tclass rtr_new_role] in *. destruct Ht as (Hr&Ht&Hc&Hnr&_).
  apply parses_need_bind. eapply parses_bind; [apply parses_u32s; [done|by in_range]|].
  eapply parses_map; [apply (parses_class_word _ cl Hc)|done].
  intros E. unfold role_trans_kept in Hk. rewrite E in Hk. cbn in Hk. lia.
Qed.

Lemma parses_role_allow r : Forall role_allow_ok r → Z.of_nat (length r) < 2 ^ 32 →
  parses c role_allow_read (role_allow_bytes r) r.
Proof.
  intros Hl Hn. apply parses_count; [red; lia|]. intros buf ->. rewrite Nat2Z.id.
  apply parses_repeat; [done|]. apply Forall_forall. intros [a b] Hin. rewrite Forall_forall in Hl.
  pose proof (Hl _ Hin) as Ht. unfold role_allow_ok in Ht. rewrite !Forall_cons in Ht. destruct Ht as (Ha&Hb&_).
  apply parses_need_bind. eapply parses_map; [apply parses_u32s; [done|by in_range]|done].
Qed.

Lemma parses_filename ft d : filename_ok ft d →
  parses c filename_trans_entry (filename_bytes ft d) (Some (ft, d)).
Proof.
  destruct ft as [s t cl n], d as [o]. intros ((H1&H2&H3)&Hk&Ho). unfold small_key in *.
  cbn [ft_stype ft_ttype ft_tclass ft_name otype] in *.
  do 2 apply parses_need_bind. apply parses_count; [by apply symbol_len_ok|]. intros buf ->.
  apply parses_guard_bind; [by apply symbol_len_guard|]. eapply parses_bind; [by apply parses_symbol|].
  eapply parses_map; [apply parses_u32s; [done|in_range; cbn; first [lia|exact Ho]]|done].
Qed.

(** The file name transitions of a policy, as a table of values. *)
Definition filename_values (p : policydb) (hv : hashtab_t filename_trans filename_trans_datum) : Prop :=
  points (ftrans_mem p) (filename_trans_tab p) hv.

(** Reading into an empty table of the same size gives the same table. *)
Lemma parses_filename_trans p hv h0 :
  hashtab_wf hv → is_Some hv → Z.of_nat (length (table_entries hv)) < 2 ^ 32 → all_entries filename_ok hv →
  filename_values p h0 → hashtab_wf h0 → is_Some h0 → to_map h0 = ∅ → table_size h0 = table_size hv →
  parses_to c (filename_trans_read p) (filename_trans_bytes hv)
    (λ p', filename_values p' hv ∧ ∃ l h, p' = set_ftrans_mem l (set_filename_trans_tab h p)).
Proof.
  intros Hw Hs Hlen Ha Hp Hw0 Hs0 Em Ez. apply parses_to_on_error, parses_to_count; [red; lia|]. intros buf ->.
  rewrite Nat2Z.id, <- (app_nil_r (table_bytes filename_bytes hv)).
  eapply parses_to_bind.
  - eapply (parses_follows _ _ (eq hv)); [by apply (ptr_read_follows _ _ _ (filename_trans_tab p, ftrans_mem p) h0)|].
    eapply parses_to_of; [|reflexivity]. apply parses_table; try done.
    intros ft d Hd. specialize (Ha ft d Hd). split; [apply Ha|by apply parses_filename].
  - intros [h l] (hv'&<-&Hr). apply parses_to_ret. cbn [fst snd]. split; [done|]. by exists l, h.
Qed.

Lemma parses_range_entry p rt r : range_entry_ok rt r → range_kept p rt = true →
  parses c (range_entry p) (range_trans_bytes p rt r) (Some (rt, r)).
Proof.
  destruct rt as [s t cl]. intros ((H1&H2&H3)&Hr) Hk. unfold small_key in *. unfold range_trans_bytes.
  cbn [rt_source_type rt_target_type rt_target_class] in *.
  apply parses_need_bind. eapply parses_bind; [apply parses_u32s; [done|by in_range]|].
  eapply parses_bind.
  { apply (parses_class_word (new_rangetr p) cl); [red; lia|]. intros E. unfold range_kept in Hk. rewrite E in Hk. cbn in Hk. lia. }
  apply parses_need_bind. eapply parses_map; [by apply parses_range|done].
Qed.

(** The range transitions the format keeps are added to the table. *)
Lemma parses_range_tr p p0 :
  policy_type p0 = policy_type p → policyvers p0 = policyvers p → hashtab_wf (range_tr p) → is_Some (range_tr p) →
  Z.of_nat (length (ranges_kept p)) < 2 ^ 32 → all_entries range_entry_ok (range_tr p) →
  hashtab_wf (range_tr p0) → is_Some (range_tr p0) → to_map (range_tr p0) = ∅ →
  parses_to c (range_read p0) (range_tr_bytes p)
    (λ h', hashtab_wf h' ∧ is_Some h' ∧ table_size h' = table_size (range_tr p0) ∧
           to_map h' = stored_map (λ rt _, range_kept p rt) (λ _ r, Some r) (to_map (range_tr p))).
Proof.
  intros Et Ev Hw Hs Hlen Ha Hw0 Hs0 Em.
  apply parses_to_on_error, parses_to_count; [red; lia|]. intros buf ->. rewrite Nat2Z.id.
  eapply parses_to_mono; [eapply (parses_kept c _ (range_trans_bytes p) (λ rt _, range_kept p rt) (λ _ r, Some r)); try done|].
  2: { cbn. intros h' (?&?&?&E). by rewrite Em, (right_id_L ∅ (∪)) in E. }
  intros rt r Hr Hk. split; [|intros _; split; [|by rewrite Em]]; specialize (Ha _ _ Hr).
  - replace (range_entry p0) with (range_entry p); [by apply parses_range_entry|].
    unfold range_entry, new_rangetr, is_kern. by rewrite Et, Ev.
  - apply Ha.
Qed.
End parse.

(** ** Arbitrary bytes

    The keys of range transitions may be any 32-bit values, for which the
    comparison is no order: the table that is read need not be well formed, but
    reading always returns. *)

Lemma sound_role_tr p : sound (role_trans_read p) (Forall role_trans_ok).
Proof.
  apply (sound_u32s_bind 1). intros buf _ _. eapply sound_mono; [eapply sound_repeat|by intros ? [_ ?]]. apply sound_need_bind, (sound_u32s_bind 3).
  intros l _ Hl. eapply (sound_bind _ _ (Forall u32_ok)).
  { destruct (new_roletr p); [|by apply sound_ret; in_range]. eapply sound_mono; [by apply sound_u32s|]. by intros ? [_ ?]. }
  intros l' Hl'. apply sound_ret. repeat apply Forall_cons_2; by apply word_ok || apply Forall_nil_2.
Qed.

Lemma sound_role_allow : sound role_allow_read (Forall role_allow_ok).
Proof.
  apply (sound_u32s_bind 1). intros buf _ _. eapply sound_mono; [eapply sound_repeat|by intros ? [_ ?]]. apply sound_need_bind, (sound_u32s_bind 2).
  intros l _ Hl. apply sound_ret. repeat apply Forall_cons_2; by apply word_ok || apply Forall_nil_2.
Qed.

(** Insertion never leaves the defined behaviour, whatever the keys. *)
Lemma sound_table_any {K D} `{HashKey K} (r : R (option (K * D))) n (h : hashtab_t K D) :
  sound r (λ _, True) → sound (table_read r n h) (λ _, True).
Proof.
  intros Hr. revert h. induction n as [|n IH]; intros h; [by apply sound_ret|]. cbn [table_read].
  eapply (sound_bind _ _ (λ _, True)); [|intros h' _; apply IH].
  eapply sound_bind; [exact Hr|]. intros [[k d]|] _; [|by apply sound_ret].
  eapply (sound_bind _ _ (λ _, True)); [by apply sound_in_mem|]. intros [rc h'] _.
  apply sound_guard_bind. intros _. by apply sound_ret.
Qed.

Lemma sound_range_tr p : sound (range_read p) (λ _, True).
Proof.
  apply sound_on_error, (sound_u32s_bind 1). intros buf _ _. apply sound_table_any.
  apply sound_need_bind, (sound_u32s_bind 2). intros l _ _.
  eapply (sound_bind _ _ (λ _, True)).
  { destruct (new_rangetr p); [|by apply sound_ret]. eapply sound_mono; [by apply sound_u32s|done]. }
  intros l' _. apply sound_need_bind. by eapply sound_map; [apply sound_range|].
Qed.
