(* ===== verification/CondFile.v ===== *)
(** * Conditionals in a policy file

    conditional.c: [cond_insertf], [cond_read_av_list], [cond_read_node],
    [cond_read_list] (for kernel policies); write.c: [cond_write_av_list],
    [cond_write_node], [cond_write_list]; expand.c: [expand_cond_av_list].
    The rules of a conditional are stored with it, and [te_cond_avtab] is
    rebuilt while they are read. *)

From S2P Require Import Prelude Policyfile Ebitmap Hashtab Avtab Context Policydb Mls MlsFile Cond Services ClassFile SymbolFile Sepolicy RuleEdit ExpandAv AvtabFile TransFile.

(** ** Reading *)

Definition set_parse_context (v : Z) (n : avtab_node) : avtab_node :=
  AN (naddr n) (key n) (datum n) (merged n) v.

(** The tests on a type rule: whether it conflicts with a rule outside of the
    conditional.  [other] is the list of the true branch while the false branch
    is read (NULL and the empty list are the same). *)
Definition cond_conflict (te ctab : avtab) (other : list Z) (k : avtab_key) : bool :=
  if has_bits (specified k) AVTAB_TYPE then
    if bool_decide (is_Some (avtab_search te k)) then true
    else
      match other with
      | [] => bool_decide (is_Some (avtab_search ctab k))
      | _ =>
          match avtab_search_node ctab k with
          | [] => false
          | n :: rest =>
              if bool_decide (avtab_search_node_next (n :: rest) (specified k) ≠ []) then true
              else negb (existsb (Z.eqb (naddr n)) other)
          end
      end
  else false.

(** The state is [p->te_cond_avtab] and the list from [data->head] to
    [data->tail]; [te] is [p->te_avtab]. *)
Definition cond_insertf (te : avtab) (other : list Z) (k : avtab_key) (d : avtab_datum) (a : avtab * list Z)
    : R (avtab * list Z) :=
  let '(ctab, head) := a in
  _ ← guard_or (-1) (negb (cond_conflict te ctab other k));
  '(node, ctab) ← in_mem (λ m, let '(r, h, m) := avtab_insert_nonunique ctab k d m in ((r, h), m));
  n ← some_or_fail (-1) node;
  let ctab := avtab_store ctab (naddr n) (set_parse_context 1) in
  _ ← need (-1);
  mret (ctab, head ++ [naddr n]).

Definition cond_read_av_list (te : avtab) (vers : Z) (ctab : avtab) (other : list Z) : R (avtab * list Z) :=
  buf ← next_u32s 1;
  avtab_read_items (cond_insertf te other) (Z.to_nat (word buf 0)) vers (ctab, []).

Definition expr_isvalid (p : policydb) (e : cond_expr) : bool :=
  (0 <? cx_expr_type e) && (cx_expr_type e <=? COND_LAST) && (cx_bool e <=? nprim (p_bools p)).

Definition cond_expr_read (p : policydb) : R cond_expr :=
  buf ← next_u32s 2;
  _ ← need (-1);
  let e := CX (word buf 0) (word buf 1) in
  _ ← guard_or (-1) (expr_isvalid p e);
  mret e.

(** [len] is an [int]: a negative number of expressions is none. *)
Definition cond_read_node (p : policydb) (ctab : avtab) : R (cond_node * avtab) :=
  on_error (-1)
    (st ← next_u32s 1;
     len ← next_u32s 1;
     l ← repeat_read (Z.to_nat (s32 (word len 0))) (cond_expr_read p);
     '(ctab, tl) ← cond_read_av_list (te_avtab p) (policyvers p) ctab [];
     '(ctab, fl) ← cond_read_av_list (te_avtab p) (policyvers p) ctab tl;
     mret (CD (s32 (word st 0)) l tl fl 0 0 0 (replicate 5 0) 0 0, ctab)).

Fixpoint cond_read_nodes (p : policydb) (n : nat) (ctab : avtab) : R (list cond_node * avtab) :=
  match n with
  | O => mret ([], ctab)
  | S n' =>
      _ ← need (-1);
      '(node, ctab) ← cond_read_node p ctab;
      '(l, ctab) ← cond_read_nodes p n' ctab;
      mret (node :: l, ctab)
  end.

(** The list [p->cond_list] and the table [p->te_cond_avtab]. *)
Definition cond_read_list (p : policydb) : R (list cond_node * avtab) :=
  buf ← next_u32s 1;
  '(rc, ctab) ← in_mem (λ m, let '(rc, a, m) := avtab_alloc (te_cond_avtab p) (av_nel (te_avtab p)) m in ((rc, a), m));
  _ ← guard_or (-1) (rc =? 0);
  cond_read_nodes p (Z.to_nat (s32 (word buf 0))) ctab.

(** ** Expansion for the old formats *)

(** The new list, the table that is filled, the allocations. *)
Definition cxst : Type := list Z * avtab * mem.

Definition expand_cond_insert (k : avtab_key) (d : avtab_datum) : M cxst Z := λ s,
  let '(l, h, m) := s in
  let insert :=
    let '(r, h, m) := avtab_insert_nonunique h k d m in
    match r with
    | None => Ret (-1, (l, h, m))
    | Some n =>
        let h := avtab_store h (naddr n) (set_parse_context 1) in
        let '(ok, m) := malloc m in
        if ok : bool then Ret (0, (naddr n :: l, h, m)) else Ret (-1, (l, h, m))
    end in
  match avtab_search_node h k with
  | n :: _ =>
      if same_enabled k (key n) then
        match merge_data (without_enabled (specified k)) (data (datum n)) (data d) with
        | Some z => Ret (0, (l, avtab_set_datum h (naddr n) (AD z (xperms (datum n))), m))
        | None => Ret (-1, s)
        end
      else insert
  | [] => insert
  end.

Fixpoint insert_cond_keys (ks : list avtab_key) (d : avtab_datum) : M cxst Z :=
  match ks with
  | [] => mret 0
  | k :: ks' =>
      rc ← expand_cond_insert k d;
      if negb (rc =? 0) then mret (-1) else insert_cond_keys ks' d
  end.

Definition expand_cond_av_node (p : policydb) (k : avtab_key) (d : avtab_datum) : M cxst Z :=
  s ← lift (is_type p (source_type k));
  t ← lift (is_type p (target_type k));
  if s && t then expand_cond_insert k d
  else ks ← lift (expand_keys p k s t); insert_cond_keys ks d.

(** [l] are the addresses of nodes of [t]. *)
Fixpoint expand_cond_nodes (p : policydb) (t : avtab) (l : list Z) : M cxst Z :=
  match l with
  | [] => mret 0
  | a :: l' =>
      n ← lift (deref (node_at t a));
      rc ← expand_cond_av_node p (key n) (datum n);
      if negb (rc =? 0) then mret rc else expand_cond_nodes p t l'
  end.

Definition expand_cond_av_list (p : policydb) (t : avtab) (l : list Z) : M cxst Z := λ s,
  let '(_, h, m) := s in
  let '(rc, h, m) := avtab_alloc h MAX_AVTAB_SIZE m in
  if negb (rc =? 0) then Ret (-1, (s.1.1, h, m)) else expand_cond_nodes p t l ([], h, m).

(** ** Writing *)

(** The nodes of a list. *)
Fixpoint nodes_of (t : avtab) (l : list Z) : outcome (list avtab_node) :=
  match l with
  | [] => Ret []
  | a :: l' => n ← deref (node_at t a); ns ← nodes_of t l'; Ret (n :: ns)
  end.

(** [avtab_write_item(p, node, fp, 0, 1, NULL)] *)
Definition cond_write_item (p : policydb) (t : avtab) (n : avtab_node) : writer :=
  if oldvers p then
    r ← avtab_write_old_item t [] n false true 0;
    mret (r : Z * avtab * Z).1.1
  else avtab_write_new_item p n.

(** The list [l] of nodes of [t], without those the compiler has not marked. *)
Definition write_av_nodes (p : policydb) (t : avtab) (l : list Z) : writer := λ s,
  match nodes_of t l with
  | Ret ns =>
      let ns := List.filter (λ n, negb (parse_context n =? 0)) ns in
      (put_u32s [Z.of_nat (length ns)];;; write_all (cond_write_item p t) ns) s
  | Exit z => Exit z
  | Undef => Undef
  end.

Definition cond_write_av_list (p : policydb) (l : list Z) : writer := λ s,
  if oldvers p then
    match expand_cond_av_list p (te_cond_avtab p) l ([], AVT None 0 0 0 0, fmem s) with
    | Ret (rc, (l', h, m)) =>
        let s := FS (file s) (compat s) m in
        if negb (rc =? 0) then Ret (-1, s) else write_av_nodes p h l' s
    | Exit z => Exit z
    | Undef => Undef
    end
  else write_av_nodes p (te_cond_avtab p) l s.

Definition cond_write_node (p : policydb) (n : cond_node) : writer :=
  put_u32s [cur_state n];;;
  put_u32s [Z.of_nat (length (cd_expr n))];;;
  write_all (λ e, put_u32s [cx_expr_type e; cx_bool e]) (cd_expr n);;;
  cond_write_av_list p (true_list n);;;
  cond_write_av_list p (false_list n).

Definition cond_write_list (p : policydb) (l : list cond_node) : writer :=
  put_u32s [Z.of_nat (length l)];;; write_all (cond_write_node p) l.

(** ** Arbitrary bytes

    Whatever the file holds, the table is well formed, the lists refer to its
    rules, and a type rule conflicts with no rule of [te_avtab] and with no rule
    of a conditional but one of the other branch of its own. *)

Definition type_rule (n : avtab_node) : bool := has_bits (specified (key n)) AVTAB_TYPE.

(** [n1] and [n2] are in the two branches of one conditional. *)
Definition opposite (branches : list (list Z * list Z)) (n1 n2 : avtab_node) : Prop :=
  ∃ b, b ∈ branches ∧ ((naddr n1 ∈ b.1 ∧ naddr n2 ∈ b.2) ∨ (naddr n2 ∈ b.1 ∧ naddr n1 ∈ b.2)).

(** Every rule is in one list, once. *)
Definition br_addresses (branches : list (list Z * list Z)) : list Z := branches ≫= λ b, b.1 ++ b.2.

Record branches_ok (te t : avtab) (branches : list (list Z * list Z)) : Prop := {
  br_wf : avtab_wf t;
  br_nodes : ∀ b a, b ∈ branches → a ∈ b.1 ++ b.2 → ∃ n, n ∈ avtab_nodes t ∧ naddr n = a ∧ parse_context n = 1;
  br_nodup : NoDup (br_addresses branches);
  br_te : ∀ n, n ∈ avtab_nodes t → type_rule n = true → avtab_search te (key n) = None;
  br_type : ∀ n1 n2, n1 ∈ avtab_nodes t → n2 ∈ avtab_nodes t → type_rule n1 = true → type_rule n2 = true →
            conflict n1 n2 = true → n1 = n2 ∨ opposite branches n1 n2
}.

Lemma opposite_sym br n1 n2 : opposite br n1 n2 → opposite br n2 n1.
Proof. intros (b&Hb&H). exists b. tauto. Qed.

(** What [cond_conflict] has excluded. *)
Lemma no_conflict te t other k n0 :
  avtab_wf t → avkey_ok k → cond_conflict te t other k = false → has_bits (specified k) AVTAB_TYPE = true → key n0 = k →
  avtab_search te k = None ∧
  ∀ n, n ∈ avtab_nodes t → conflict n0 n = true → naddr n ∈ other.
Proof.
  intros Hw Hk Hc Ht En. unfold cond_conflict in Hc. rewrite Ht in Hc.
  destruct (avtab_search te k) eqn:Ete; [by rewrite bool_decide_true in Hc|]. rewrite bool_decide_false in Hc by by intros [].
  split; [done|]. intros n Hn Hcf. unfold conflict in Hcf. rewrite En in Hcf.
  assert (Hm : key_matches k (not_enabled (specified k)) (key n) = true).
  { unfold key_matches. by destruct (same_types k (key n)), (has_bits (not_enabled (specified k)) (specified (key n))). }
  pose proof (avtab_search_all_correct t k Hw Hk) as Hall.
  assert (Hin : n ∈ avtab_search_all t k) by (rewrite Hall; by apply list_elem_of_filter).
  destruct other as [|a other].
  - pose proof (avtab_search_correct t k Hw Hk) as Hs. destruct (avtab_search t k); [by rewrite bool_decide_true in Hc|].
    specialize (Hs n Hn). congruence.
  - unfold avtab_search_all in Hin. destruct (avtab_search_node t k) as [|n1 rest]; [by apply not_elem_of_nil in Hin|].
    destruct (bool_decide_reflect (avtab_search_node_next (n1 :: rest) (specified k) ≠ [])) as [|Hnx]; [done|].
    cbn [length search_next_loop] in Hin. apply elem_of_cons in Hin as [->|Hin].
    + apply negb_false_iff, existsb_exists in Hc as (x&Hx&->%Z.eqb_eq). by apply list_elem_of_In.
    + destruct (avtab_search_node_next (n1 :: rest) (specified k)); [by destruct (length rest); apply not_elem_of_nil in Hin|]. by destruct Hnx.
Qed.

(** The branches with the lists of the conditional being read. *)
Definition insert_ok (te : avtab) (br : list (list Z * list Z)) (other : option (list Z)) (a : avtab * list Z) : Prop :=
  branches_ok te a.1 (match other with None => (a.2, []) | Some tl => (tl, a.2) end :: br).

Lemma insert_branches te br other t l k d t' :
  let n := set_parse_context 1 (AN (fresh t) k d 0 0) in
  insert_ok te br other (t, l) → avtab_wf t' → avtab_nodes t' ≡ₚ n :: avtab_nodes t →
  (has_bits (specified k) AVTAB_TYPE = true →
     avtab_search te k = None ∧ ∀ x, x ∈ avtab_nodes t → conflict n x = true → naddr x ∈ default [] other) →
  insert_ok te br other (t', l ++ [fresh t]).
Proof.
  intros n [Hw Hnodes Hnd Hte Hty] Hw' Hp Hc. cbn [fst snd] in *. unfold insert_ok. cbn [fst snd].
  set (cur := match other with None => (l, []) | Some tl => (tl, l) end) in *.
  set (cur' := match other with None => (l ++ [fresh t], []) | Some tl => (tl, l ++ [fresh t]) end).
  assert (Hsub : (∀ a, a ∈ cur.1 → a ∈ cur'.1) ∧ (∀ a, a ∈ cur.2 → a ∈ cur'.2)).
  { unfold cur, cur'. destruct other; cbn [fst snd]; split; intros a Ha; try done; apply elem_of_app; by left. }
  destruct Hsub as [Hs1 Hs2].
  assert (Hopp : ∀ x y, opposite (cur :: br) x y → opposite (cur' :: br) x y).
  { intros x y (b&Hb&Hxy). apply elem_of_cons in Hb as [->|Hb].
    - exists cur'. split; [by left|]. destruct Hxy as [[? ?]|[? ?]]; [left|right]; auto.
    - exists b. split; [by right|done]. }
  assert (Hnew : has_bits (specified k) AVTAB_TYPE = true → ∀ x, x ∈ avtab_nodes t → conflict n x = true → opposite (cur' :: br) n x).
  { intros Ht x Hx Hcf. destruct (Hc Ht) as [_ Ho]. specialize (Ho x Hx Hcf). unfold cur'.
    destruct other as [tl|]; [|by apply not_elem_of_nil in Ho]. exists (tl, l ++ [fresh t]). split; [by left|]. right.
    split; [done|]. cbn. apply elem_of_app. right. by left. }
  split; [done|..].
  - intros b a Hb Ha. setoid_rewrite Hp. apply elem_of_cons in Hb as [->|Hb].
    + assert (a ∈ cur.1 ++ cur.2 ∨ a = fresh t) as [Ha'| ->].
      { revert Ha. unfold cur, cur'. destruct other; cbn [fst snd]; rewrite ?app_nil_r, !elem_of_app, ?list_elem_of_singleton; tauto. }
      * destruct (Hnodes cur a) as (x&Hx&?); [by left|done|]. exists x. split; [by right|done].
      * exists n. split; [by left|done].
    + destruct (Hnodes b a) as (x&Hx&?); [by right|done|]. exists x. split; [by right|done].
  - assert (Hf : fresh t ∉ br_addresses (cur :: br)).
    { intros (b&Ha&Hb)%list_elem_of_bind. destruct (Hnodes b (fresh t)) as (x&Hx&Ex&_); [done|done|].
      destruct Hw as (_&_&Hfr&_). rewrite Forall_forall in Hfr. specialize (Hfr x Hx). lia. }
    assert (br_addresses (cur' :: br) ≡ₚ fresh t :: br_addresses (cur :: br)) as ->; [|by constructor].
    unfold br_addresses, cur, cur'. rewrite !bind_cons. destruct other; cbn [fst snd]; rewrite ?app_nil_r; solve_Permutation.
  - intros x. rewrite Hp, elem_of_cons. intros [->|Hx] Ht; [by apply Hc|by apply Hte].
  - intros x y. rewrite Hp, !elem_of_cons. intros [->|Hx] [->|Hy] Tx Ty Hcf; [by left|right|right|].
    + by apply Hnew.
    + apply opposite_sym, Hnew; [done..|]. by rewrite conflict_sym.
    + destruct (Hty x y) as [?|?]; auto.
Qed.

Lemma sound_cond_insertf te br other k d a :
  avkey_ok k → insert_ok te br other a →
  sound (cond_insertf te (default [] other) k d a) (insert_ok te br other).
Proof.
  destruct a as [t l]. intros Hk Hok. unfold cond_insertf. apply sound_guard_bind. intros Hc%negb_true_iff.
  pose proof Hok as [Hw _ _ _ _]. cbn [fst snd] in *.
  eapply (sound_bind _ _ (λ r, match r.1 with
    | Some n => n = AN (fresh t) k (new_datum k d) 0 0 ∧ avtab_wf r.2 ∧ avtab_nodes r.2 ≡ₚ n :: avtab_nodes t
    | None => True end)).
  { apply sound_in_mem. intros m. pose proof (avtab_insert_nonunique_correct t k d m Hw Hk) as Hi.
    destruct (avtab_insert_nonunique t k d m) as [[[n|] h] m']; [|done]. by destruct Hi as [_ ?]. }
  intros [[n|] h] Hn; cbn [fst snd] in Hn; [|apply sound_fail].
  destruct Hn as (->&Hw'&Hp). cbn [some_or_fail]. 
  apply (sound_bind _ _ (λ n, n = AN (fresh t) k (new_datum k d) 0 0)); [by apply sound_ret|]. intros _ ->.
  apply sound_need_bind, sound_ret. cbn [naddr]. unfold insert_ok. cbn [fst snd].
  set (n0 := AN (fresh t) k (new_datum k d) 0 0) in *.
  pose proof (store_fresh_nodes t h (set_parse_context 1) n0 Hw eq_refl Hp) as Hp'.
  apply (insert_branches te br other t l k (new_datum k d)); [done|apply avtab_store_wf; [done|exact Hw']|exact Hp'|].
  intros Ht. by eapply no_conflict.
Qed.

(** Reading a list of rules; below version 20 the old format. *)
Lemma sound_read_items {S} (insertf : avtab_key → avtab_datum → S → R S) (P : S → Prop) vers n a :
  POLICYDB_VERSION_AVTAB <= vers → (∀ k d a, avkey_ok k → P a → sound (insertf k d a) P) → P a →
  sound (avtab_read_items insertf n vers a) P.
Proof.
  intros Hv Hi. revert a. induction n as [|n IH]; intros a Ha; [by apply sound_ret|]. cbn [avtab_read_items].
  eapply sound_bind; [|intros a' Ha'; by apply IH].
  unfold avtab_read_item. destruct (Z.ltb_spec vers POLICYDB_VERSION_AVTAB); [lia|].
  apply sound_read_new_item. intros k d Hk _. by apply Hi.
Qed.

Lemma branches_ok_perm te t br br' : br ≡ₚ br' → branches_ok te t br → branches_ok te t br'.
Proof.
  intros Hp [Hw Hn Hnd Hte Hty]. split; [done|..|done|].
  - intros b a Hb. apply Hn. by rewrite Hp.
  - unfold br_addresses. by rewrite <- Hp.
  - intros x y Hx Hy Tx Ty Hc. destruct (Hty x y Hx Hy Tx Ty Hc) as [?|(b&Hb&?)]; [by left|right].
    exists b. by rewrite <- Hp.
Qed.

Lemma branches_ok_empty te t br : branches_ok te t br → branches_ok te t (([], []) :: br).
Proof.
  intros [Hw Hn Hnd Hte Hty]. split; [done|..|done|].
  - intros b a [->|Hb]%elem_of_cons Ha; [by apply not_elem_of_nil in Ha|by apply (Hn b)].
  - done.
  - intros x y Hx Hy Tx Ty Hc. destruct (Hty x y Hx Hy Tx Ty Hc) as [?|(b&Hb&?)]; [by left|right].
    exists b. split; [by right|done].
Qed.

Definition conds_ok (p : policydb) (l : list cond_node) (t : avtab) : Prop :=
  branches_ok (te_avtab p) t ((λ n, (true_list n, false_list n)) <$> l) ∧
  Forall (λ n, Forall (λ e, expr_isvalid p e = true) (cd_expr n)) l.

Lemma sound_cond_node p t br :
  POLICYDB_VERSION_AVTAB <= policyvers p → branches_ok (te_avtab p) t br →
  sound (cond_read_node p t) (λ r,
    branches_ok (te_avtab p) r.2 ((true_list r.1, false_list r.1) :: br) ∧
    Forall (λ e, expr_isvalid p e = true) (cd_expr r.1)).
Proof.
  intros Hv Hb. apply sound_on_error, (sound_u32s_bind 1). intros st _ _. apply (sound_u32s_bind 1). intros len _ _.
  eapply (sound_bind _ _ (Forall (λ e, expr_isvalid p e = true))).
  { eapply sound_mono; [eapply sound_repeat|by intros ? [_ ?]]. apply (sound_u32s_bind 2). intros buf _ _.
    apply sound_need_bind, sound_guard_bind. intros He. by apply sound_ret. }
  intros es Hes.
  eapply (sound_bind _ _ (insert_ok (te_avtab p) br None)).
  { apply (sound_u32s_bind 1). intros buf _ _. apply sound_read_items; [done| |].
    - intros k d a Hk Ha. by apply (sound_cond_insertf _ br None).
    - by apply branches_ok_empty. }
  intros [t1 tl] H1.
  eapply (sound_bind _ _ (insert_ok (te_avtab p) br (Some tl))).
  { apply (sound_u32s_bind 1). intros buf _ _. apply sound_read_items; [done| |exact H1].
    intros k d a Hk Ha. by apply (sound_cond_insertf _ br (Some tl)). }
  intros [t2 fl] H2. by apply sound_ret.
Qed.

Lemma sound_cond_nodes p n : POLICYDB_VERSION_AVTAB <= policyvers p → ∀ t br,
  branches_ok (te_avtab p) t br →
  sound (cond_read_nodes p n t) (λ r,
    branches_ok (te_avtab p) r.2 (((λ n, (true_list n, false_list n)) <$> r.1) ++ br) ∧
    Forall (λ n, Forall (λ e, expr_isvalid p e = true) (cd_expr n)) r.1).
Proof.
  intros Hv. induction n as [|n IH]; intros t br Hb; [by apply sound_ret|]. cbn [cond_read_nodes].
  apply sound_need_bind. eapply sound_bind; [by apply sound_cond_node|]. intros [nd t1] [H1 He].
  eapply sound_bind; [by eapply IH|]. intros [l t2] [H2 Hl]. apply sound_ret. cbn [fst snd] in *. split; [|by constructor].
  eapply branches_ok_perm; [|exact H2]. cbn [fmap list_fmap app]. by rewrite <- Permutation_middle.
Qed.

(** The conditionals of any file. *)
Lemma sound_cond_list p :
  POLICYDB_VERSION_AVTAB <= policyvers p → 0 <= av_nel (te_avtab p) < 2 ^ 32 → av_htable (te_cond_avtab p) = None →
  sound (cond_read_list p) (λ r, conds_ok p r.1 r.2).
Proof.
  intros Hv Hn Ha. apply (sound_u32s_bind 1). intros buf _ _.
  eapply (sound_bind _ _ (λ r, r.1 = 0 → avtab_wf r.2 ∧ avtab_nodes r.2 = [])).
  { apply sound_in_mem. intros m. pose proof (avtab_alloc_correct (te_cond_avtab p) _ m Hn Ha) as Hal.
    destruct (avtab_alloc _ _ m) as [[rc h] m']. cbn. intros ->. by destruct Hal as [_ [(_&?&?&_)|[? _]]]. }
  intros [rc t] Hrc. apply sound_guard_bind. intros ->%Z.eqb_eq. destruct (Hrc eq_refl) as [Hw En]. cbn [snd] in *.
  eapply sound_mono; [apply (sound_cond_nodes p _ Hv t [])|].
  - split; [done|..]; rewrite ?En.
    + by intros ? ? ?%not_elem_of_nil.
    + constructor.
    + by intros ? ?%not_elem_of_nil.
    + by intros ? ? ?%not_elem_of_nil.
  - intros [l t'] [H1 H2]. rewrite app_nil_r in H1. done.
Qed.

(** With every conditional in its state, at most one type rule applies to a key. *)
Lemma enabled_type_rules p l t n1 n2 :
  conds_ok p l t → Forall (consistent t) l → n1 ∈ avtab_nodes t → n2 ∈ avtab_nodes t →
  type_rule n1 = true → type_rule n2 = true → conflict n1 n2 = true →
  enabled t (naddr n1) = true → enabled t (naddr n2) = true → n1 = n2.
Proof.
  intros [[Hw Hn _ Hte Hty] _] Hc H1 H2 T1 T2 Hcf E1 E2.
  destruct (Hty n1 n2 H1 H2 T1 T2 Hcf) as [?|(b&Hb&Hx)]; [done|exfalso].
  apply list_elem_of_fmap in Hb as (c&->&Hcl). rewrite Forall_forall in Hc. destruct (Hc c Hcl) as [Ct Cf]. cbn [fst snd] in Hx.
  destruct Hx as [[Ha1 Ha2]|[Ha1 Ha2]]; specialize (Ct _ Ha1); specialize (Cf _ Ha2); rewrite ?E1, ?E2 in Ct; rewrite ?E1, ?E2 in Cf; lia.
Qed.

(** ** Formats *)

Definition av_list_bytes (cm : bool) (ns : list avtab_node) : list Z :=
  u32s [Z.of_nat (length ns)] ++ (ns ≫= avtab_node_bytes cm).

(** The nodes of a list whose addresses are all in the table. *)
Definition list_nodes (t : avtab) (l : list Z) : list avtab_node := omap (node_at t) l.

Definition cond_node_bytes (cm : bool) (t : avtab) (n : cond_node) : list Z :=
  u32s [cur_state n] ++ u32s [Z.of_nat (length (cd_expr n))] ++
  (cd_expr n ≫= λ e, u32s [cx_expr_type e; cx_bool e]) ++
  av_list_bytes cm (list_nodes t (true_list n)) ++ av_list_bytes cm (list_nodes t (false_list n)).

Definition cond_list_bytes (cm : bool) (t : avtab) (l : list cond_node) : list Z :=
  u32s [Z.of_nat (length l)] ++ (l ≫= cond_node_bytes cm t).

(** The addresses of marked rules that the format can hold. *)
Definition av_list_ok (cm : bool) (vers : Z) (t : avtab) (l : list Z) : Prop :=
  Forall (λ a, ∃ n, node_at t a = Some n ∧ parse_context n = 1 ∧ storable cm vers n) l.

Record cond_node_ok (cm : bool) (p : policydb) (t : avtab) (n : cond_node) : Prop := {
  cn_state : - 2 ^ 31 <= cur_state n < 2 ^ 31;
  cn_expr : Z.of_nat (length (cd_expr n)) < 2 ^ 31;
  cn_words : Forall (λ e, u32_ok (cx_expr_type e) ∧ u32_ok (cx_bool e) ∧ expr_isvalid p e = true) (cd_expr n);
  cn_true : av_list_ok cm (policyvers p) t (true_list n);
  cn_false : av_list_ok cm (policyvers p) t (false_list n);
  cn_short : Z.of_nat (length (addresses n)) < 2 ^ 32;
  cn_rest : n = CD (cur_state n) (cd_expr n) (true_list n) (false_list n) 0 0 0 (replicate 5 0) 0 0
}.

(** ** Emission *)

Lemma nodes_of_list cm vers t l : av_list_ok cm vers t l →
  nodes_of t l = Ret (list_nodes t l) ∧ length (list_nodes t l) = length l ∧
  List.filter (λ n, negb (parse_context n =? 0)) (list_nodes t l) = list_nodes t l ∧
  Forall (storable cm vers) (list_nodes t l).
Proof.
  induction 1 as [|a l (n&En&Hc&Hs) Hl (E1&E2&E3&E4)]; [done|]. unfold list_nodes in *. cbn [omap list_omap nodes_of]. rewrite En. cbn [deref mbind outcome_bind List.filter]. rewrite E1, Hc.
  cbn [mbind outcome_bind Z.eqb negb length]. rewrite E3. split_and!; [done|lia|done|by constructor].
Qed.

Lemma emits_av_list cm p l :
  oldvers p = false → target_platform p = SEPOL_TARGET_SELINUX → av_list_ok cm (policyvers p) (te_cond_avtab p) l →
  emits cm (cond_write_av_list p l) (av_list_bytes cm (list_nodes (te_cond_avtab p) l)).
Proof.
  intros Hv Ht Hl. destruct (nodes_of_list _ _ _ _ Hl) as (E1&E2&E3&E4). eapply emits_ext.
  { intros s. unfold cond_write_av_list, write_av_nodes. rewrite Hv, E1, E3. reflexivity. }
  apply emits_then; [by apply emits_u32s|]. apply emits_all. eapply Forall_impl; [exact E4|]. intros n Hn.
  unfold cond_write_item. rewrite Hv. by apply emits_avtab_node.
Qed.

Lemma emits_cond_list cm p :
  oldvers p = false → target_platform p = SEPOL_TARGET_SELINUX →
  Forall (cond_node_ok cm p (te_cond_avtab p)) (cond_list p) →
  emits cm (cond_write_list p (cond_list p)) (cond_list_bytes cm (te_cond_avtab p) (cond_list p)).
Proof.
  intros Hv Ht Hl. apply emits_then; [by apply emits_u32s|]. apply emits_all. eapply Forall_impl; [exact Hl|]. intros n Hn.
  unfold cond_write_node, cond_node_bytes. do 2 (apply emits_then; [by apply emits_u32s|]).
  apply emits_then; [apply emits_all, Forall_true; intros e; by apply emits_u32s|].
  apply emits_then; apply emits_av_list; try done; apply Hn.
Qed.

(** ** What is written is read back

    The rules of the conditionals are inserted in the order of the file; [image]
    is the node that stands for the [i]-th. *)

Definition copy_at (base : Z) (i : nat) (n : avtab_node) : avtab_node := AN (base + Z.of_nat i) (key n) (datum n) 0 1.

Record rebuilt (t' : avtab) (base : Z) (all : list avtab_node) : Prop := {
  rb_wf : avtab_wf t';
  rb_table : is_Some (av_htable t');
  rb_fresh : fresh t' = base + Z.of_nat (length all);
  rb_nodes : avtab_nodes t' ≡ₚ imap (copy_at base) all
}.

(** The addresses of the copies from the [i]-th on. *)
Definition copies (base : Z) (i n : nat) : list Z := (λ j, base + Z.of_nat j) <$> seq i n.

(** Type rules of one key: a match of a type rule is a type rule, and two
    matches of it conflict. *)
Lemma stored_type_facts x y z :
  x ∈ stored_specs → y ∈ stored_specs → z ∈ stored_specs → has_bits x AVTAB_TYPE = true →
  has_bits (not_enabled x) y = true →
  has_bits y AVTAB_TYPE = true ∧ has_bits x AVTAB_XPERMS = false ∧ has_bits y AVTAB_XPERMS = false ∧
  (has_bits (not_enabled x) z = true → has_bits (not_enabled y) z = true).
Proof.
  assert (forallb (λ x, forallb (λ y, forallb (λ z,
    negb (has_bits x AVTAB_TYPE && has_bits (not_enabled x) y) ||
    (has_bits y AVTAB_TYPE && negb (has_bits x AVTAB_XPERMS) && negb (has_bits y AVTAB_XPERMS) &&
     (negb (has_bits (not_enabled x) z) || has_bits (not_enabled y) z)))
    stored_specs) stored_specs) stored_specs = true) as H by by vm_compute.
  rewrite forallb_forall in H. intros Hx Hy Hz Tx Hm. apply list_elem_of_In in Hx, Hy, Hz.
  specialize (H x Hx). rewrite forallb_forall in H. specialize (H y Hy). rewrite forallb_forall in H. specialize (H z Hz).
  rewrite Tx, Hm in H. cbn [andb negb orb] in H.
  destruct (has_bits y AVTAB_TYPE), (has_bits x AVTAB_XPERMS), (has_bits y AVTAB_XPERMS); try done.
  split_and!; try done. intros E. by rewrite E in H.
Qed.

(** Where a rule of the branches is. *)
Lemma branch_inj br b b' x :
  NoDup (br_addresses br) → b ∈ br → b' ∈ br → x ∈ b.1 ++ b.2 → x ∈ b'.1 ++ b'.2 → b = b'.
Proof.
  unfold br_addresses. induction br as [|c br IH]; [by intros _ ?%not_elem_of_nil|]. rewrite bind_cons.
  intros (_&Hd&Hnd)%NoDup_app Hb Hb' Hx Hx'.
  assert (Hin : ∀ b0, b0 ∈ br → x ∈ b0.1 ++ b0.2 → x ∈ br ≫= λ b, b.1 ++ b.2) by (intros; apply list_elem_of_bind; eauto).
  apply elem_of_cons in Hb as [->|Hb], Hb' as [->|Hb']; [done| | |by apply IH].
  - destruct (Hd x Hx). by apply (Hin b').
  - destruct (Hd x Hx'). by apply (Hin b).
Qed.

Lemma avtab_walk_app k spec l : let '(b, r, _) := avtab_walk k spec l in l = b ++ r.
Proof.
  induction l as [|n l IH]; [done|]. cbn [avtab_walk]. destruct (key_matches _ _ _); [done|].
  destruct (key_before _ _); [done|]. destruct (avtab_walk k spec l) as [[b r] f]. by rewrite IH.
Qed.

(** When every match of a key is the same node, the search finds it and no other. *)
Lemma search_single t k n :
  avtab_wf t → avkey_ok k →
  (∀ x, x ∈ avtab_nodes t → key_matches k (not_enabled (specified k)) (key x) = true → x = n) →
  match avtab_search_node t k with
  | [] => True
  | x :: rest => x = n ∧ avtab_search_node_next (x :: rest) (specified k) = []
  end.
Proof.
  intros Hw Hk Hn. pose proof (avtab_search_all_correct t k Hw Hk) as Hall. unfold avtab_search_all in Hall.
  destruct (avtab_search_node t k) as [|x rest]; [done|]. cbn [length search_next_loop] in Hall.
  assert (Hin : ∀ y, y ∈ x :: search_next_loop (length rest) (specified k) (avtab_search_node_next (x :: rest) (specified k)) → y = n).
  { intros y. rewrite Hall, list_elem_of_filter. intros [? ?]. by apply Hn. }
  split; [by apply Hin; left|]. destruct (avtab_search_node_next (x :: rest) (specified k)) as [|y r] eqn:E; [done|exfalso].
  assert (Hnd : NoDup (x :: search_next_loop (length rest) (specified k) (y :: r))).
  { rewrite Hall. apply NoDup_filter. destruct Hw as (_&Hnd&_). by apply NoDup_fmap_1 in Hnd. }
  assert (Hrest : (0 < length rest)%nat).
  { unfold avtab_search_node_next in E. pose proof (avtab_walk_app (key x) (not_enabled (specified k)) rest) as Hw'.
    destruct (avtab_walk _ _ rest) as [[b r'] f]. destruct f; [|done]. subst. rewrite length_app. cbn [length]. lia. }
  destruct (length rest); [lia|]. cbn [search_next_loop] in *.
  rewrite (Hin x), (Hin y) in Hnd; [|by right; left|by left]. apply NoDup_cons in Hnd as [Hnd _]. apply Hnd. by left.
Qed.

(** The rules of the original table that come before [n] in the file. *)
Definition listed (t : avtab) (all : list avtab_node) : Prop :=
  NoDup (naddr <$> all) ∧ ∀ x, x ∈ all → x ∈ avtab_nodes t ∧ specified (key x) ∈ stored_specs.

Lemma rebuilt_elem t' base all x : rebuilt t' base all → x ∈ avtab_nodes t' → ∃ i n, all !! i = Some n ∧ x = copy_at base i n.
Proof. intros [_ _ _ Hp]. rewrite Hp, elem_of_lookup_imap. intros (i&n&E&Hn). eauto. Qed.

Lemma match_conflict n x :
  type_rule n = true → specified (key n) ∈ stored_specs → specified (key x) ∈ stored_specs →
  key_matches (key n) (not_enabled (specified (key n))) (key x) = true → conflict n x = true ∧ type_rule x = true.
Proof.
  intros Tn Hn Hx Hm. unfold key_matches in Hm. apply andb_true_iff in Hm as [H1 H2].
  destruct (stored_type_facts _ _ _ Hn Hx Hx Tn H2) as (Tx&E1&E2&_). unfold conflict, type_rule. by rewrite H1, H2, E1, E2, Tx.
Qed.

Lemma match_match n x y :
  type_rule n = true → specified (key n) ∈ stored_specs → specified (key x) ∈ stored_specs → specified (key y) ∈ stored_specs →
  key_matches (key n) (not_enabled (specified (key n))) (key x) = true →
  key_matches (key n) (not_enabled (specified (key n))) (key y) = true → conflict x y = true.
Proof.
  intros Tn Hn Hx Hy Hmx Hmy. unfold key_matches in Hmx, Hmy. apply andb_true_iff in Hmx as [H1 H2], Hmy as [H3 H4].
  destruct (stored_type_facts _ _ _ Hn Hx Hy Tn H2) as (_&_&E2&E). 
  destruct (stored_type_facts _ _ _ Hn Hy Hy Tn H4) as (_&_&E4&_).
  unfold conflict. rewrite E2, E4, (E H4). cbn [negb]. rewrite !andb_true_r.
  pose proof (same_types_eq _ _ H1) as (A1&A2&A3). pose proof (same_types_eq _ _ H3) as (B1&B2&B3).
  unfold same_types. by rewrite <- A1, <- A2, <- A3, <- B1, <- B2, <- B3, !Z.eqb_refl.
Qed.

Section no_conflict.
Context (te te' t t' : avtab) (br1 br2 : list (list Z * list Z)) (tl fl : list Z).
Context (base : Z) (all : list avtab_node) (n : avtab_node).
Hypothesis (Hbr : branches_ok te t (br1 ++ (tl, fl) :: br2)).
Hypothesis (Hwe : avtab_wf te) (Hwe' : avtab_wf te').
Hypothesis (Hte : rule_of <$> avtab_nodes te' ≡ₚ rule_of <$> avtab_nodes te).
Hypothesis (Hall : listed t all) (Hrb : rebuilt t' base all).
Hypothesis (Hn : n ∈ avtab_nodes t) (Hs : specified (key n) ∈ stored_specs) (Hk : avkey_ok (key n)).

Lemma outside_table : type_rule n = true → avtab_search te' (key n) = None.
Proof.
  intros Tn. pose proof (br_te _ _ _ Hbr n Hn Tn) as E. pose proof (avtab_search_correct te (key n) Hwe Hk) as H1.
  pose proof (avtab_search_correct te' (key n) Hwe' Hk) as H2. rewrite E in H1.
  destruct (avtab_search te' (key n)) as [x|]; [exfalso|done]. destruct H2 as [Hx Hm].
  assert (Hr : rule_of x ∈ rule_of <$> avtab_nodes te) by (rewrite <- Hte; by apply list_elem_of_fmap_2).
  apply list_elem_of_fmap in Hr as (y&Ey&Hy). specialize (H1 y Hy). injection Ey as Ek _. by rewrite <- Ek, Hm in H1.
Qed.

(** A copy that matches [n] is the copy of a rule of the other branch. *)
Lemma copy_match x i m :
  type_rule n = true → naddr n ∈ tl ++ fl → naddr n ∉ naddr <$> all → all !! i = Some m → x = copy_at base i m →
  key_matches (key n) (not_enabled (specified (key n))) (key x) = true →
  type_rule m = true ∧ conflict n m = true ∧
  ((naddr n ∈ tl ∧ naddr m ∈ fl) ∨ (naddr m ∈ tl ∧ naddr n ∈ fl)).
Proof.
  intros Tn Ha Hno Hi -> Hm. cbn [copy_at key] in Hm. destruct Hall as [_ Hl].
  pose proof (list_elem_of_lookup_2 _ _ _ Hi) as Him. destruct (Hl m Him) as [Hmt Hms].
  destruct (match_conflict n m Tn Hs Hms Hm) as [Hc Tm]. split_and!; [done..|].
  destruct (br_type _ _ _ Hbr n m Hn Hmt Tn Tm Hc) as [->|(b&Hb&Hx)].
  { destruct Hno. by apply list_elem_of_fmap_2. }
  assert (b = (tl, fl)) as ->; [|exact Hx].
  eapply (branch_inj _ _ _ (naddr n) (br_nodup _ _ _ Hbr) Hb); [apply elem_of_app; right; by left| |done].
  apply elem_of_app. tauto.
Qed.

Lemma branch_nodup : NoDup (tl ++ fl).
Proof.
  pose proof (br_nodup _ _ _ Hbr) as Hnd. unfold br_addresses in Hnd. rewrite bind_app, bind_cons in Hnd.
  apply NoDup_app in Hnd as (_&_&Hnd). by apply NoDup_app in Hnd as (Hnd&_).
Qed.

(** Reading the true branch: no rule of the false branch has been read. *)
Lemma true_no_conflict :
  naddr n ∈ tl → naddr n ∉ naddr <$> all → (∀ m, m ∈ all → naddr m ∉ fl) → cond_conflict te' t' [] (key n) = false.
Proof.
  intros Ha Hno Hfl. unfold cond_conflict. destruct (has_bits (specified (key n)) AVTAB_TYPE) eqn:Tn; [|done].
  rewrite outside_table, bool_decide_false by first [done|by intros []].
  pose proof (avtab_search_correct t' (key n) (rb_wf _ _ _ Hrb) Hk) as Hsr.
  destruct (avtab_search t' (key n)) as [x|]; [exfalso|done]. destruct Hsr as [Hx Hm].
  destruct (rebuilt_elem _ _ _ _ Hrb Hx) as (i&m&Hi&Ex).
  destruct (copy_match x i m) as (Tm&Hc&[[_ Hmf]|[Hmt Hnf]]); try done.
  - apply elem_of_app. by left.
  - apply (Hfl m); [by eapply list_elem_of_lookup_2|done].
  - pose proof branch_nodup as (_&Hd&_)%NoDup_app. by apply (Hd (naddr n)).
Qed.

(** Reading the false branch: the rules of the true branch are at [other]. *)
Lemma false_no_conflict (other : list Z) :
  naddr n ∈ fl → naddr n ∉ naddr <$> all → (other = [] → tl = []) →
  (∀ i m, all !! i = Some m → naddr m ∈ tl → base + Z.of_nat i ∈ other) → cond_conflict te' t' other (key n) = false.
Proof.
  intros Ha Hno Hnil Hot. unfold cond_conflict. destruct (has_bits (specified (key n)) AVTAB_TYPE) eqn:Tn; [|done].
  rewrite outside_table, bool_decide_false by first [done|by intros []].
  assert (Hmt : ∀ x, x ∈ avtab_nodes t' → key_matches (key n) (not_enabled (specified (key n))) (key x) = true →
            ∃ i m, all !! i = Some m ∧ x = copy_at base i m ∧ naddr m ∈ tl ∧ type_rule m = true).
  { intros x Hx Hm. destruct (rebuilt_elem _ _ _ _ Hrb Hx) as (i&m&Hi&Ex). exists i, m. split; [done|]. split; [done|].
    destruct (copy_match x i m) as (Tm&_&[[Hnt _]|[? _]]); try done; [apply elem_of_app; by right|].
    pose proof branch_nodup as (_&Hd&_)%NoDup_app. by destruct (Hd (naddr n)). }
  pose proof (avtab_search_correct t' (key n) (rb_wf _ _ _ Hrb) Hk) as Hsr.
  destruct other as [|o other].
  { destruct (avtab_search t' (key n)) as [x|]; [exfalso|done]. destruct Hsr as [Hx Hm].
    destruct (Hmt x Hx Hm) as (i&m&_&_&Htl&_). rewrite Hnil in Htl by done. by apply not_elem_of_nil in Htl. }
  pose proof (search_node_head t' (key n)) as Hh. 
  destruct (avtab_search_node t' (key n)) as [|x rest] eqn:En; [done|]. cbn [head] in Hh. rewrite <- Hh in Hsr.
  destruct Hsr as [Hx Hm]. destruct (Hmt x Hx Hm) as (i&m&Hi&Ex&Htl&Tm).
  assert (Hone : ∀ y, y ∈ avtab_nodes t' → key_matches (key n) (not_enabled (specified (key n))) (key y) = true → y = x).
  { intros y Hy Hmy. destruct (Hmt y Hy Hmy) as (j&m'&Hj&Ey&Htl'&Tm'). subst x y. cbn [copy_at key] in Hm, Hmy.
    destruct Hall as [Hnd Hl]. pose proof (list_elem_of_lookup_2 _ _ _ Hi) as Him. pose proof (list_elem_of_lookup_2 _ _ _ Hj) as Hjm.
    destruct (Hl m Him) as [Hmi Hms], (Hl m' Hjm) as [Hmi' Hms'].
    pose proof (match_match n m' m Tn Hs Hms' Hms Hmy Hm) as Hc.
    assert (m' = m) as ->.
    { destruct (br_type _ _ _ Hbr m' m Hmi' Hmi Tm' Tm Hc) as [?|(b&Hb&Hop)]; [done|exfalso].
      assert (b = (tl, fl)) as ->.
      { eapply (branch_inj _ _ _ (naddr m) (br_nodup _ _ _ Hbr) Hb); [apply elem_of_app; right; by left| |].
        - apply elem_of_app. tauto.
        - apply elem_of_app. by left. }
      pose proof branch_nodup as (_&Hd&_)%NoDup_app. cbn [fst snd] in Hop.
      destruct Hop as [[_ Hf]|[_ Hf]]; [by apply (Hd (naddr m))|by apply (Hd (naddr m'))]. }
    assert (i = j) as ->; [|done]. eapply (NoDup_lookup _ i j (naddr m) Hnd); by rewrite list_lookup_fmap, ?Hi, ?Hj. }
  pose proof (search_single t' (key n) x (rb_wf _ _ _ Hrb) Hk Hone) as Hss. rewrite En in Hss. destruct Hss as [_ ->].
  rewrite bool_decide_false by (intros H; by apply H). apply negb_false_iff, existsb_exists. exists (naddr x). split; [|apply Z.eqb_refl].
  apply list_elem_of_In. subst x. by apply (Hot i m).
Qed.
End no_conflict.

(** *** Reading the rules of a branch *)

Lemma insert_nonunique_fresh h k d m n :
  (avtab_insert_nonunique h k d m).1.1 = Some n → fresh (avtab_insert_nonunique h k d m).1.2 = fresh h + 1.
Proof.
  unfold avtab_insert_nonunique. destruct (av_htable h) as [b|]; [|done].
  destruct (avtab_walk _ _ _) as [[bf r] f]. unfold avtab_insert_node. destruct (malloc m) as [[] m1]; [|done]. cbn [negb].
  destruct (has_bits (specified k) AVTAB_XPERMS); [|done]. by destruct (malloc m1) as [[] m2].
Qed.

Section parse.
Context (cm : bool) (vers : Z) (Hv : POLICYDB_VERSION_AVTAB <= vers).

Lemma parses_cond_insert te' other n t' base all head :
  storable cm vers n → rebuilt t' base all → cond_conflict te' t' other (key n) = false →
  parses_to cm (cond_insertf te' other (key n) (datum n) (t', head)) []
    (λ r, rebuilt r.1 base (all ++ [n]) ∧ r.2 = head ++ [base + Z.of_nat (length all)]).
Proof.
  intros Hs [Hw Hb Hf Hp] Hc. unfold cond_insertf. apply parses_guard_then; [by rewrite Hc|].
  pose proof (st_key _ _ _ Hs) as Hk.
  eapply (parses_to_bind _ _ _ [] [] (λ r, r.1 = Some (AN (fresh t') (key n) (datum n) 0 0) ∧ avtab_wf r.2 ∧ fresh r.2 = fresh t' + 1 ∧
    avtab_nodes r.2 ≡ₚ AN (fresh t') (key n) (datum n) 0 0 :: avtab_nodes t')).
  - intros rest out m Hm. unfold in_mem. cbn [fmem].
    pose proof (avtab_insert_nonunique_correct t' (key n) (datum n) m Hw Hk) as Hi.
    pose proof (insert_nonunique_fresh t' (key n) (datum n) m) as Hfr. revert Hi Hfr.
    destruct (avtab_insert_nonunique t' (key n) (datum n) m) as [[r h] m']. cbn [fst snd]. intros [Hpl Hi] Hfr.
    exists (r, h), m'. split; [by apply Hpl|]. split; [|done]. cbn [fst snd].
    destruct r as [x|]; [|destruct Hi as [_ Hi]; rewrite (Hi Hm) in Hb; by destruct Hb].
    destruct Hi as (->&Hw'&Hp'). rewrite (storable_new_datum _ _ _ Hs) in *. split_and!; try done. by apply (Hfr _ eq_refl).
  - intros [o h] (Eo&Hw'&Hf'&Hp'). cbn [fst snd] in *. subst o. cbn [some_or_fail].
    eapply (parses_then _ _ _ []); [apply parses_ret|]. eapply (parses_then _ _ _ []); [apply parses_need|].
    apply parses_to_ret. cbn [fst snd naddr]. rewrite Hf. split; [|done].
    pose proof (store_fresh_nodes t' h (set_parse_context 1) (AN (fresh t') (key n) (datum n) 0 0) Hw eq_refl Hp') as Hp2. rewrite Hf in Hp2.
    split.
    + by apply avtab_store_wf.
    + destruct (av_htable (avtab_store h (base + Z.of_nat (length all)) (set_parse_context 1))) eqn:E; [by eexists|].
      exfalso. unfold avtab_nodes at 1 in Hp2. rewrite E in Hp2. by apply Permutation_nil_cons in Hp2.
    + cbn [avtab_store fresh]. rewrite Hf', Hf, length_app. cbn [length]. lia.
    + rewrite Hp2, Hp, imap_app. cbn [imap]. rewrite <- Permutation_cons_append. unfold copy_at, compose. cbn [set_parse_context naddr key datum merged].
      by rewrite Nat.add_0_r.
Qed.


(** The rules of a list; the [i]-th of the file gets the address [base + i]. *)
Lemma parses_av_items te' other base l : ∀ all t' head,
  rebuilt t' base all → Forall (storable cm vers) l →
  (∀ l1 n l2 t1, l = l1 ++ n :: l2 → rebuilt t1 base (all ++ l1) → cond_conflict te' t1 other (key n) = false) →
  parses_to cm (avtab_read_items (cond_insertf te' other) (length l) vers (t', head)) (l ≫= avtab_node_bytes cm)
    (λ r, rebuilt r.1 base (all ++ l) ∧ r.2 = head ++ copies base (length all) (length l)).
Proof.
  induction l as [|n l IH]; intros all t' head Hr Hs Hc.
  { apply parses_to_ret. cbn. by rewrite !app_nil_r. }
  apply Forall_cons in Hs as [Hn Hs]. rewrite bind_cons. eapply parses_to_bind.
  { apply parses_avtab_node; [done..|]. apply (parses_cond_insert te' other n t' base all head Hn Hr).
    apply (Hc [] n l); [done|by rewrite app_nil_r]. }
  intros [t1 h1] [Hr1 Eh]. cbn [fst snd] in *. subst h1. eapply parses_to_mono.
  { apply (IH (all ++ [n]) t1); [done..|]. intros l1 n' l2 t2 -> Hr2. apply (Hc (n :: l1) n' l2); [done|].
    by rewrite <- app_assoc in Hr2. }
  cbn [fst snd]. intros [t2 h2]. cbn [fst snd]. rewrite <- !app_assoc, length_app. intros [H1 ->]. split; [done|].
  unfold copies. cbn [length seq fmap list_fmap]. by rewrite Nat.add_1_r.
Qed.

Lemma parses_av_list te' other base l all t' :
  rebuilt t' base all → Forall (storable cm vers) l → Z.of_nat (length l) < 2 ^ 32 →
  (∀ l1 n l2 t1, l = l1 ++ n :: l2 → rebuilt t1 base (all ++ l1) → cond_conflict te' t1 other (key n) = false) →
  parses_to cm (cond_read_av_list te' vers t' other) (av_list_bytes cm l)
    (λ r, rebuilt r.1 base (all ++ l) ∧ r.2 = copies base (length all) (length l)).
Proof.
  intros Hr Hs Hn Hc. apply parses_to_count; [red; lia|]. intros buf ->. rewrite Nat2Z.id.
  by apply (parses_av_items te' other base l all t' []).
Qed.
End parse.

(** A conditional and its copy: the same state, expression and rules. *)
Definition list_rules (t : avtab) (l : list Z) : list (avtab_key * avtab_datum) := rule_of <$> list_nodes t l.

Definition same_cond (t t' : avtab) (n n' : cond_node) : Prop :=
  cur_state n' = cur_state n ∧ cd_expr n' = cd_expr n ∧
  list_rules t' (true_list n') = list_rules t (true_list n) ∧
  list_rules t' (false_list n') = list_rules t (false_list n).

(** All the rules of the conditionals, in the order of the file. *)
Definition cond_nodes (t : avtab) (l : list cond_node) : list avtab_node :=
  l ≫= λ n, list_nodes t (true_list n) ++ list_nodes t (false_list n).

(** The copy of a conditional whose rules start at the [i]-th of the file. *)
Definition copy_cond (base : Z) (t : avtab) (i : nat) (n : cond_node) : cond_node :=
  let nt := length (list_nodes t (true_list n)) in
  CD (cur_state n) (cd_expr n) (copies base i nt) (copies base (i + nt) (length (list_nodes t (false_list n))))
     0 0 0 (replicate 5 0) 0 0.

Section read_back.
Context (cm : bool) (p p0 : policydb).
Let te := te_avtab p.
Let t := te_cond_avtab p.
Let vers := policyvers p0.
Hypothesis (Hv : POLICYDB_VERSION_AVTAB <= vers).
Hypothesis (Hwe : avtab_wf te) (Hwe' : avtab_wf (te_avtab p0)).
Hypothesis (Hte : rule_of <$> avtab_nodes (te_avtab p0) ≡ₚ rule_of <$> avtab_nodes te).
Hypothesis (Hok : branches_ok te t ((λ n, (true_list n, false_list n)) <$> cond_list p)).

Lemma list_nodes_naddr l : av_list_ok cm vers t l → naddr <$> list_nodes t l = l.
Proof.
  induction 1 as [|a l (n&En&_) Hl IH]; [done|]. unfold list_nodes in *. cbn [omap list_omap]. rewrite En.
  cbn [fmap list_fmap]. by rewrite IH, (node_at_naddr _ _ _ En).
Qed.

Lemma node_at_in tb a n : node_at tb a = Some n → n ∈ avtab_nodes tb.
Proof. intros [H _]%find_some. by apply list_elem_of_In. Qed.

Lemma list_nodes_elem l n : n ∈ list_nodes t l → n ∈ avtab_nodes t ∧ naddr n ∈ l.
Proof. intros (a&Ha&En)%list_elem_of_omap. split; [by eapply node_at_in|]. by rewrite (node_at_naddr _ _ _ En). Qed.

Lemma cond_nodes_naddr cl : Forall (cond_node_ok cm p0 t) cl →
  naddr <$> cond_nodes t cl = br_addresses ((λ n, (true_list n, false_list n)) <$> cl).
Proof.
  induction 1 as [|c cl Hc Hcl IH]; [done|]. unfold cond_nodes, br_addresses in *. cbn [fmap list_fmap]. rewrite !bind_cons, fmap_app, IH.
  cbn [fst snd]. by rewrite fmap_app, !list_nodes_naddr by apply Hc.
Qed.

Lemma cond_nodes_listed cl : (∀ c, c ∈ cl → c ∈ cond_list p) → NoDup (br_addresses ((λ n, (true_list n, false_list n)) <$> cl)) →
  Forall (cond_node_ok cm p0 t) cl → listed t (cond_nodes t cl).
Proof.
  intros Hsub Hnd Hcl. split; [by rewrite cond_nodes_naddr|]. intros x (c&Hx&Hc)%list_elem_of_bind.
  rewrite Forall_forall in Hcl. specialize (Hcl c Hc).
  assert (Hl : ∀ l, av_list_ok cm vers t l → x ∈ list_nodes t l → x ∈ avtab_nodes t ∧ specified (key x) ∈ stored_specs).
  { intros l Hl Hxl. destruct (nodes_of_list _ _ _ _ Hl) as (_&_&_&Hs). rewrite Forall_forall in Hs.
    split; [by eapply list_nodes_elem|apply (st_spec _ _ _ (Hs x Hxl))]. }
  apply elem_of_app in Hx as [Hx|Hx]; eapply Hl; eauto; apply Hcl.
Qed.
Hypothesis (Hcl : Forall (cond_node_ok cm p0 t) (cond_list p)).

Lemma all_listed : listed t (cond_nodes t (cond_list p)).
Proof. apply cond_nodes_listed; [done| |done]. apply (br_nodup _ _ _ Hok). Qed.

(** The rules of the file around one of them. *)
Lemma listed_split a n b : cond_nodes t (cond_list p) = a ++ n :: b →
  listed t a ∧ (naddr n ∉ naddr <$> a) ∧ n ∈ avtab_nodes t ∧ specified (key n) ∈ stored_specs ∧
  ∀ x, x ∈ a → ∀ y, y ∈ n :: b → naddr x ≠ naddr y.
Proof.
  intros E. destruct all_listed as [Hnd Hl]. rewrite E in Hnd, Hl. rewrite fmap_app in Hnd. apply NoDup_app in Hnd as (H1&H2&H3).
  assert (Hd : ∀ x, x ∈ a → ∀ y, y ∈ n :: b → naddr x ≠ naddr y).
  { intros x Hx y Hy Exy. apply (H2 (naddr x)); [by apply list_elem_of_fmap_2|rewrite Exy]. by apply list_elem_of_fmap_2. }
  split_and!; try done.
  - split; [done|]. intros x Hx. apply Hl, elem_of_app. by left.
  - intros (x&Ex&Hx)%list_elem_of_fmap. apply (Hd x Hx n); [by left|done].
  - apply Hl, elem_of_app. right. by left.
  - apply (Hl n), elem_of_app. right. by left.
Qed.

Section node.
Context (base : Z) (cl1 cl2 : list cond_node) (c : cond_node) (t' : avtab).
Hypothesis (Hsplit : cond_list p = cl1 ++ c :: cl2).
Let T := list_nodes t (true_list c).
Let F := list_nodes t (false_list c).
Let before := cond_nodes t cl1.

Lemma node_ok : cond_node_ok cm p0 t c.
Proof. rewrite Hsplit in Hcl. apply Forall_app in Hcl as [_ H]. by apply Forall_cons in H as [? _]. Qed.

Lemma nodes_split : cond_nodes t (cond_list p) = before ++ (T ++ F) ++ cond_nodes t cl2.
Proof. unfold cond_nodes. rewrite Hsplit, bind_app, bind_cons. done. Qed.

Lemma branches_split : branches_ok te t
  (((λ n, (true_list n, false_list n)) <$> cl1) ++ (true_list c, false_list c) :: ((λ n, (true_list n, false_list n)) <$> cl2)).
Proof. pose proof Hok as H. by rewrite Hsplit, fmap_app in H. Qed.

Lemma true_rules_fit l1 n l2 t1 :
  T = l1 ++ n :: l2 → rebuilt t1 base (before ++ l1) → cond_conflict (te_avtab p0) t1 [] (key n) = false.
Proof.
  intros E Hr. destruct (nodes_of_list _ _ _ _ (cn_true _ _ _ _ node_ok)) as (_&_&_&Hst). fold T in Hst. rewrite E in Hst.
  apply Forall_app in Hst as [_ [Hst _]%Forall_cons].
  destruct (listed_split (before ++ l1) n (l2 ++ F ++ cond_nodes t cl2)) as (Hl&Hno&Hn&Hsp&Hd).
  { rewrite nodes_split, E. by rewrite <- !app_assoc. }
  eapply (true_no_conflict te _ t t1 _ _ _ _ base (before ++ l1) n branches_split); try done; [by apply (st_key _ _ _ Hst)|..].
  - apply list_nodes_elem. fold T. rewrite E. apply elem_of_app. right. by left.
  - intros m Hm. rewrite <- (list_nodes_naddr _ (cn_false _ _ _ _ node_ok)). intros (y&Ey&Hy)%list_elem_of_fmap.
    apply (Hd m Hm y); [|done]. right. apply elem_of_app. right. apply elem_of_app. by left.
Qed.

Lemma false_rules_fit l1 n l2 t1 :
  F = l1 ++ n :: l2 → rebuilt t1 base ((before ++ T) ++ l1) →
  cond_conflict (te_avtab p0) t1 (copies base (length before) (length T)) (key n) = false.
Proof.
  intros E Hr. destruct (nodes_of_list _ _ _ _ (cn_false _ _ _ _ node_ok)) as (_&_&_&Hst). fold F in Hst. rewrite E in Hst.
  apply Forall_app in Hst as [_ [Hst _]%Forall_cons].
  destruct (listed_split ((before ++ T) ++ l1) n (l2 ++ cond_nodes t cl2)) as (Hl&Hno&Hn&Hsp&Hd).
  { rewrite nodes_split, E. by rewrite <- !app_assoc. }
  pose proof (list_nodes_naddr _ (cn_true _ _ _ _ node_ok)) as Ht. fold T in Ht.
  eapply (false_no_conflict te _ t t1 _ _ _ _ base ((before ++ T) ++ l1) n branches_split); try done; [by apply (st_key _ _ _ Hst)|..].
  - apply list_nodes_elem. fold F. rewrite E. apply elem_of_app. right. by left.
  - intros Hc. rewrite <- Ht. unfold copies in Hc. apply fmap_nil_inv in Hc. destruct T; [done|]. by cbn in Hc.
  - intros i m Hi Hm. rewrite <- Ht in Hm. apply list_elem_of_lookup in Hm as (j&Hj).
    assert (Ei : i = (length before + j)%nat).
    { destruct Hl as [Hnd _]. eapply (NoDup_lookup _ i _ (naddr m) Hnd); [by rewrite list_lookup_fmap, Hi|].
      assert ((j < length T)%nat) by (apply lookup_lt_Some in Hj; by rewrite length_fmap in Hj).
      rewrite list_lookup_fmap in Hj |- *. rewrite lookup_app_l by (rewrite length_app; lia). rewrite lookup_app_r by lia.
      by replace (length before + j - length before)%nat with j by lia. }
    apply lookup_lt_Some in Hj. rewrite length_fmap in Hj. apply list_elem_of_fmap. exists i. split; [done|]. apply elem_of_seq. lia.
Qed.

Lemma parses_cond_node : rebuilt t' base before →
  parses_to cm (cond_read_node p0 t') (cond_node_bytes cm t c)
    (λ r, r.1 = copy_cond base t (length before) c ∧ rebuilt r.2 base (cond_nodes t (cl1 ++ [c]))).
Proof.
  intros Hr. pose proof node_ok as [Hst Hex Hw Ht Hf Hsh _].
  destruct (nodes_of_list _ _ _ _ Ht) as (_&HlT&_&HsT). destruct (nodes_of_list _ _ _ _ Hf) as (_&HlF&_&HsF).
  unfold addresses in Hsh. rewrite length_app in Hsh. fold T in HlT, HsT. fold F in HlF, HsF.
  unfold cond_read_node, cond_node_bytes. apply parses_to_on_error.
  rewrite <- u32s_wrap. eapply parses_then; [apply parses_u32s; [done|constructor; [|done]; apply u32_range]|].
  eapply parses_then; [apply parses_u32s; [done|constructor; [|done]; red; lia]|].
  eapply parses_then.
  { apply parses_repeat; [|eapply Forall_impl; [exact Hw|]].
    - change (word _ 0) with (Z.of_nat (length (cd_expr c))). rewrite s32_small by lia. lia.
    - intros [et eb] (H1&H2&H3). cbn [cx_expr_type cx_bool] in *. unfold cond_expr_read.
      eapply parses_bind_r; [apply parses_u32s; [done|constructor; [done|constructor; done]]|]. apply parses_need_bind.
      apply parses_guard_bind; [exact H3|]. apply parses_ret. }
  eapply parses_to_bind.
  { apply (parses_av_list cm vers Hv _ [] base T before t' Hr HsT); [lia|]. exact true_rules_fit. }
  intros [t1 tl] [Hr1 Etl]. cbn [fst snd] in *. subst tl.
  rewrite <- (app_nil_r (av_list_bytes cm (list_nodes t (false_list c)))). eapply parses_to_bind.
  { apply (parses_av_list cm vers Hv _ _ base F (before ++ T) t1 Hr1 HsF); [lia|]. exact false_rules_fit. }
  intros [t2 fl] [Hr2 Efl]. cbn [fst snd] in *. subst fl. apply parses_to_ret. cbn [fst snd]. split.
  - unfold copy_cond. fold T F. rewrite length_app. change (word _ 0) with (u32 (cur_state c)). by rewrite s32_u32.
  - unfold cond_nodes. rewrite bind_app, bind_singleton, app_assoc. exact Hr2.
Qed.
End node.

Lemma parses_cond_nodes base cl2 : ∀ cl1 t',
  cond_list p = cl1 ++ cl2 → rebuilt t' base (cond_nodes t cl1) →
  parses_to cm (cond_read_nodes p0 (length cl2) t') (cl2 ≫= cond_node_bytes cm t)
    (λ r, rebuilt r.2 base (cond_nodes t (cond_list p)) ∧ length r.1 = length cl2 ∧
          ∀ i c, cl2 !! i = Some c → r.1 !! i = Some (copy_cond base t (length (cond_nodes t (cl1 ++ take i cl2))) c)).
Proof.
  induction cl2 as [|c cl2 IH]; intros cl1 t' E Hr.
  { apply parses_to_ret. rewrite E, app_nil_r. by split_and!. }
  cbn [length cond_read_nodes]. rewrite bind_cons.
  rewrite <- (app_nil_l (_ ++ _)). eapply parses_then; [apply parses_need|].
  eapply parses_to_bind; [by apply (parses_cond_node base cl1 cl2 c)|]. intros [nd t1] [En Hr1]. cbn [fst snd] in *.
  rewrite <- (app_nil_r (cl2 ≫= _)). eapply parses_to_bind; [apply (IH (cl1 ++ [c]) t1)|].
  - by rewrite <- app_assoc.
  - exact Hr1.
  - intros [l t2] (Hr2&Hl&Hi). apply parses_to_ret. cbn [fst snd] in *. split; [done|]. cbn [length]. split; [lia|].
    intros [|i] c' Hc.
    + cbn in *. injection Hc as <-. by rewrite app_nil_r, En.
    + rewrite lookup_cons_ne_0 in Hc |- * by done. cbn [pred] in *. rewrite (Hi i c' Hc). by rewrite <- app_assoc.
Qed.

Lemma node_at_some tb n : avtab_wf tb → n ∈ avtab_nodes tb → node_at tb (naddr n) = Some n.
Proof.
  intros (_&Hnd&_) Hn. unfold node_at. destruct (find _ (avtab_nodes tb)) as [x|] eqn:E.
  - apply find_some in E as [Hx%list_elem_of_In Ex%Z.eqb_eq]. f_equal.
    apply list_elem_of_lookup in Hn as (i&Hi), Hx as (j&Hj).
    assert (i = j) as <-; [|congruence].
    apply (NoDup_lookup _ i j (naddr n) Hnd); rewrite list_lookup_fmap, ?Hi, ?Hj; cbn; by rewrite ?Ex.
  - apply list_elem_of_In in Hn. pose proof (find_none _ _ E n Hn) as Hf. cbn in Hf. by rewrite Z.eqb_refl in Hf.
Qed.

(** What the copies are. *)
Lemma rebuilt_node t' base all i n : rebuilt t' base all → all !! i = Some n → node_at t' (base + Z.of_nat i) = Some (copy_at base i n).
Proof.
  intros [Hw _ _ Hp] Hi. apply (node_at_some t' (copy_at base i n)); [done|].
  rewrite Hp. apply elem_of_lookup_imap. eauto.
Qed.

Lemma rebuilt_rules t' base a l b : rebuilt t' base (a ++ l ++ b) →
  list_rules t' (copies base (length a) (length l)) = rule_of <$> l.
Proof.
  unfold list_rules, list_nodes, copies. revert a. induction l as [|n l IH]; intros a Hr; [done|].
  cbn [length seq fmap list_fmap omap list_omap].
  rewrite (rebuilt_node _ _ _ (length a) n Hr) by (rewrite lookup_app_r, Nat.sub_diag by lia; done).
  cbn [fmap list_fmap]. f_equal. rewrite <- (IH (a ++ [n])) by (by rewrite <- app_assoc).
  by rewrite length_app, Nat.add_1_r.
Qed.

(** The list of conditionals of a file that was written: the same states,
    expressions and rules. *)
Lemma parses_cond_list :
  Z.of_nat (length (cond_list p)) < 2 ^ 31 → av_htable (te_cond_avtab p0) = None → 0 < av_nel (te_avtab p0) < 2 ^ 32 →
  parses_to cm (cond_read_list p0) (cond_list_bytes cm t (cond_list p))
    (λ r, Forall2 (same_cond t r.2) (cond_list p) r.1 ∧ avtab_wf r.2).
Proof.
  intros Hn Ha Hnel. unfold cond_read_list, cond_list_bytes.
  eapply parses_then; [apply parses_u32s; [done|constructor; [|done]; red; lia]|]. rewrite <- (app_nil_l (_ ≫= _)).
  eapply (parses_to_bind _ _ _ _ _ (λ r, r.1 = 0 ∧ avtab_wf r.2 ∧ is_Some (av_htable r.2) ∧ avtab_nodes r.2 = [])).
  { intros rest out m Hm. unfold in_mem. cbn [fmem].
    pose proof (avtab_alloc_correct (te_cond_avtab p0) (av_nel (te_avtab p0)) m) as Hal. revert Hal.
    destruct (avtab_alloc _ _ m) as [[rc h] m']. intros Hal. destruct Hal as [Hm' Hal]; [lia|done|].
    destruct (Hm' Hm) as [Hp Hrc]. exists (rc, h), m'. split; [done|]. split; [|done]. cbn [fst snd].
    destruct Hal as [(_&Hw&En&_&Hb)|[? _]]; [|lia]. destruct Hb as [_ Hb]; [lia|]. done. }
  intros [rc t0] (Hrc&Hw&Hb&En). cbn [fst] in Hrc. subst rc. apply parses_guard_then; [done|]. cbn [snd] in *.
  change (word _ 0) with (Z.of_nat (length (cond_list p))). rewrite s32_small, Nat2Z.id by lia.
  eapply parses_to_mono; [apply (parses_cond_nodes (fresh t0) (cond_list p) []); [done|]|].
  { split; [done..| |]; cbn; [lia|by rewrite En]. }
  intros [l t'] (Hr&Hl&Hi). cbn [fst snd] in *. split; [|apply Hr].
  apply Forall2_same_length_lookup. split; [done|]. intros i c c' Hc Hc'. cbn [app] in Hi. rewrite (Hi i c Hc) in Hc'. injection Hc' as <-.
  unfold same_cond, copy_cond. cbn [cur_state cd_expr true_list false_list]. split_and!; [done..| |].
  - set (T := list_nodes t (true_list c)). set (a := cond_nodes t (take i (cond_list p))).
    apply (rebuilt_rules t' (fresh t0) a T (list_nodes t (false_list c) ++ cond_nodes t (drop (S i) (cond_list p)))).
    rewrite <- (take_drop_middle _ _ _ Hc) in Hr. unfold cond_nodes in Hr. rewrite bind_app, bind_cons in Hr. by rewrite <- !app_assoc in Hr.
  - set (T := list_nodes t (true_list c)). set (a := cond_nodes t (take i (cond_list p))). rewrite <- length_app.
    apply (rebuilt_rules t' (fresh t0) (a ++ T) (list_nodes t (false_list c)) (cond_nodes t (drop (S i) (cond_list p)))).
    rewrite <- (take_drop_middle _ _ _ Hc) in Hr. unfold cond_nodes in Hr. rewrite bind_app, bind_cons in Hr. by rewrite <- !app_assoc in Hr |- *.
Qed.
End read_back.
