(* ===== verification/LabelFile.v ===== *)
(** * Labelling rules in a policy file

    policydb.c: [ocontext_read_selinux], [ocontext_read_xen], [ocontext_read],
    [genfs_read]; write.c: [ocontext_write_*], [genfs_write].  The file systems
    of the genfs section are kept sorted by name and the paths of each by
    decreasing length, whatever order the file has: a search takes the longest
    prefix. *)

From S2P Require Import Prelude Policyfile Ebitmap EbitmapFile Hashtab SymtabFile PtrTable Avtab Context Policydb Mls MlsFile ClassFile SymbolFile AvtabFile TransFile.

Definition OCON_ISID : Z := 0.
Definition OCON_FS : Z := 1.
Definition OCON_PORT : Z := 2.
Definition OCON_NETIF : Z := 3.
Definition OCON_NODE : Z := 4.
Definition OCON_FSUSE : Z := 5.
Definition OCON_NODE6 : Z := 6.
Definition OCON_IBPKEY : Z := 7.
Definition OCON_IBENDPORT : Z := 8.
Definition OCON_NUM : Z := 9.
Definition OCON_XEN_ISID : Z := 0.
Definition OCON_XEN_PIRQ : Z := 1.
Definition OCON_XEN_IOPORT : Z := 2.
Definition OCON_XEN_IOMEM : Z := 3.
Definition OCON_XEN_PCIDEVICE : Z := 4.
Definition OCON_XEN_DEVICETREE : Z := 5.
Definition SEPOL_TARGET_XEN : Z := 1.
Definition IB_DEVICE_NAME_MAX : Z := 64.
Definition POLICYDB_VERSION_XEN_DEVICETREE : Z := 30.

(** A zeroed [context_struct_t]. *)
Definition zero_context : context_struct := CTX 0 0 0 mls_range_init.

(** ** Reading the object contexts *)

(** What an entry labels, its [v] and its SID. *)
Definition label : Type := ocontext_key * Z * Z.

Definition label_of (c : ocontext) : label := (oc_u c, oc_v c, oc_sid0 c).

(** The part of an entry of kind [i] before its contexts. *)
Definition label_read_selinux (i : Z) : R label :=
  if i =? OCON_ISID then
    buf ← next_u32s 1;
    mret (OC_none, 0, word buf 0)
  else if (i =? OCON_FS) || (i =? OCON_NETIF) then
    buf ← next_u32s 1;
    let len := word buf 0 in
    _ ← guard_or (-1) (negb (zero_or_saturated len || (63 <? len)));
    name ← key_read len;
    mret (OC_name name, 0, 0)
  else if i =? OCON_IBPKEY then
    buf ← next_u32s 4;
    _ ← guard_or (-1) (negb ((0xffff <? word buf 2) || (0xffff <? word buf 3)));
    mret (OC_ibpkey (word buf 0 + 2 ^ 32 * word buf 1) (u16 (word buf 2)) (u16 (word buf 3)), 0, 0)
  else if i =? OCON_IBENDPORT then
    buf ← next_u32s 2;
    let len := word buf 0 in
    _ ← guard_or (-1) (negb ((len =? 0) || (IB_DEVICE_NAME_MAX - 1 <? len)));
    name ← key_read len;
    mret (OC_ibendport name (u8 (word buf 1)), 0, 0)
  else if i =? OCON_PORT then
    buf ← next_u32s 3;
    mret (OC_port (u8 (word buf 0)) (u16 (word buf 1)) (u16 (word buf 2)), 0, 0)
  else if i =? OCON_NODE then
    buf ← next_u32s 2;
    mret (OC_node (word buf 0) (word buf 1), 0, 0)
  else if i =? OCON_FSUSE then
    buf ← next_u32s 2;
    let len := word buf 1 in
    _ ← guard_or (-1) (negb (zero_or_saturated len));
    name ← key_read len;
    mret (OC_name name, word buf 0, 0)
  else if i =? OCON_NODE6 then
    buf ← next_u32s 8;
    mret (OC_node6 (take 4 buf) (drop 4 buf), 0, 0)
  else fail (-1).

(** Two contexts: file systems and network interfaces. *)
Definition two_contexts (i : Z) : bool := (i =? OCON_FS) || (i =? OCON_NETIF).

Definition ocontext_entry_selinux (p : policydb) (i : Z) : R ocontext :=
  _ ← need (-1);
  '(u, v, sid) ← label_read_selinux i;
  c0 ← context_read_and_validate p;
  c1 ← (if two_contexts i then context_read_and_validate p else mret zero_context);
  mret (OC u v c0 c1 sid 0).

Definition label_read_xen (p : policydb) (i : Z) : R label :=
  if i =? OCON_XEN_ISID then
    buf ← next_u32s 1;
    mret (OC_none, 0, word buf 0)
  else if i =? OCON_XEN_PIRQ then
    buf ← next_u32s 1;
    mret (OC_pirq (u16 (word buf 0)), 0, 0)
  else if i =? OCON_XEN_IOPORT then
    buf ← next_u32s 2;
    mret (OC_ioport (word buf 0) (word buf 1), 0, 0)
  else if i =? OCON_XEN_IOMEM then
    if POLICYDB_VERSION_XEN_DEVICETREE <=? policyvers p then
      b64 ← entry 16;
      mret (OC_iomem (le_value (take 8 b64)) (le_value (drop 8 b64)), 0, 0)
    else
      buf ← next_u32s 2;
      mret (OC_iomem (word buf 0) (word buf 1), 0, 0)
  else if i =? OCON_XEN_PCIDEVICE then
    buf ← next_u32s 1;
    mret (OC_device (word buf 0), 0, 0)
  else if i =? OCON_XEN_DEVICETREE then
    buf ← next_u32s 1;
    let len := word buf 0 in
    _ ← guard_or (-1) (negb (zero_or_saturated len));
    name ← key_read len;
    mret (OC_name name, 0, 0)
  else fail (-1).

Definition ocontext_entry_xen (p : policydb) (i : Z) : R ocontext :=
  _ ← need (-1);
  '(u, v, sid) ← label_read_xen p i;
  c0 ← context_read_and_validate p;
  mret (OC u v c0 zero_context sid 0).

(** The lists of the kinds [i], [i + 1], ...: [n] of them. *)
Fixpoint read_kinds (r : Z → R ocontext) (i : Z) (n : nat) : R (list (list ocontext)) :=
  match n with
  | O => mret []
  | S n' =>
      buf ← next_u32s 1;
      l ← repeat_read (Z.to_nat (word buf 0)) (r i);
      ls ← read_kinds r (i + 1) n';
      mret (l :: ls)
  end.

(** [p->ocontexts[i]] is set when the list has an entry. *)
Fixpoint put_kinds (ls old : list (list ocontext)) : list (list ocontext) :=
  match ls, old with
  | l :: ls', o :: old' => (match l with [] => o | _ => l end) :: put_kinds ls' old'
  | _, _ => old
  end.

(** [ocon_num] is the field of the compatibility record. *)
Definition ocontext_read (ocon_num : Z) (p : policydb) : R policydb :=
  let read r := ls ← read_kinds r 0 (Z.to_nat ocon_num); mret (set_ocontexts (put_kinds ls (ocontexts p)) p) in
  if target_platform p =? SEPOL_TARGET_SELINUX then read (ocontext_entry_selinux p)
  else if target_platform p =? SEPOL_TARGET_XEN then read (ocontext_entry_xen p)
  else fail (-1).

(** ** Reading the genfs section *)

(** The place of a file system in the sorted list: the entries before it and
    after it; [None] is a duplicate. *)
Fixpoint genfs_place (name : string) (l : list genfs_t) : option (list genfs_t * list genfs_t) :=
  match l with
  | [] => Some ([], [])
  | g :: l' =>
      if strcmp name (fstype g) =? 0 then None
      else if strcmp name (fstype g) <? 0 then Some ([], l)
      else '(b, a) ← genfs_place name l'; Some (g :: b, a)
  end.

(** [c->u.name] of an entry with a path. *)
Definition oc_path (c : ocontext) : string := match oc_u c with OC_name s => s | _ => EmptyString end.

Definition same_path (newc c : ocontext) : bool :=
  streq (oc_path newc) (oc_path c) && ((oc_v c =? 0) || (oc_v newc =? 0) || (oc_v newc =? oc_v c)).

(** The list with [newc] in its place; [None] is a duplicate. *)
Fixpoint genfs_insert (newc : ocontext) (l : list ocontext) : option (list ocontext) :=
  match l with
  | [] => Some [newc]
  | c :: l' =>
      if same_path newc c then None
      else if strlen (oc_path c) <? strlen (oc_path newc) then Some (newc :: l)
      else cons c <$> genfs_insert newc l'
  end.

Definition genfs_entry (p : policydb) (head : list ocontext) : R (list ocontext) :=
  _ ← need (-1);
  buf ← next_u32s 1;
  let len := word buf 0 in
  _ ← guard_or (-1) (negb (zero_or_saturated len));
  name ← key_read len;
  buf ← next_u32s 1;
  c ← context_read_and_validate p;
  some_or_fail (-1) (genfs_insert (OC (OC_name name) (word buf 0) c zero_context 0 0) head).

Fixpoint genfs_entries (p : policydb) (n : nat) (head : list ocontext) : R (list ocontext) :=
  match n with
  | O => mret head
  | S n' => head ← genfs_entry p head; genfs_entries p n' head
  end.

Definition genfs_read_one (p : policydb) (l : list genfs_t) : R (list genfs_t) :=
  buf ← next_u32s 1;
  let len := word buf 0 in
  _ ← guard_or (-1) (negb (zero_or_saturated len));
  _ ← need (-1);
  name ← key_read len;
  '(before, after) ← some_or_fail (-1) (genfs_place name l);
  buf ← next_u32s 1;
  head ← genfs_entries p (Z.to_nat (word buf 0)) [];
  mret (before ++ GF name head :: after).

Fixpoint genfs_read_all (p : policydb) (n : nat) (l : list genfs_t) : R (list genfs_t) :=
  match n with
  | O => mret l
  | S n' => l ← genfs_read_one p l; genfs_read_all p n' l
  end.

(** The list [p->genfs]. *)
Definition genfs_read (p : policydb) : R (list genfs_t) :=
  on_error (-1) (buf ← next_u32s 1; genfs_read_all p (Z.to_nat (word buf 0)) (genfs p)).

(** ** Writing

    An entry whose union holds another variant than its kind uses is undefined
    behaviour. *)

Definition w_undef : writer := λ _, Undef.

Definition label_write_selinux (i : Z) (x : label) : writer :=
  let '(u, v, sid) := x in
  if i =? OCON_ISID then put_u32s [sid]
  else if (i =? OCON_FS) || (i =? OCON_NETIF) then
    match u with OC_name s => put_u32s [strlen s];;; put_string s | _ => w_undef end
  else if i =? OCON_IBPKEY then
    match u with OC_ibpkey sp lo hi => put_u32s [u32 sp; Z.shiftr sp 32; lo; hi] | _ => w_undef end
  else if i =? OCON_IBENDPORT then
    match u with OC_ibendport s pt => put_u32s [strlen s; pt];;; put_string s | _ => w_undef end
  else if i =? OCON_PORT then
    match u with OC_port pr lo hi => put_u32s [pr; lo; hi] | _ => w_undef end
  else if i =? OCON_NODE then
    match u with OC_node a m => put_u32s [a; m] | _ => w_undef end
  else if i =? OCON_FSUSE then
    match u with OC_name s => put_u32s [v; strlen s];;; put_string s | _ => w_undef end
  else
    match u with OC_node6 a m => put_u32s (a ++ m) | _ => w_undef end.

(** Kinds after the last write nothing. *)
Definition ocontext_write_entry_selinux (p : policydb) (i : Z) (c : ocontext) : writer :=
  if OCON_NUM <=? i then mret POLICYDB_SUCCESS
  else
    label_write_selinux i (label_of c);;;
    context_write p (oc_context0 c);;;
    if two_contexts i then context_write p (oc_context1 c) else mret POLICYDB_SUCCESS.

Definition label_write_xen (p : policydb) (i : Z) (x : label) : writer :=
  let '(u, v, sid) := x in
  if i =? OCON_XEN_ISID then put_u32s [sid]
  else if i =? OCON_XEN_PIRQ then
    match u with OC_pirq n => put_u32s [n] | _ => w_undef end
  else if i =? OCON_XEN_IOPORT then
    match u with OC_ioport lo hi => put_u32s [lo; hi] | _ => w_undef end
  else if i =? OCON_XEN_IOMEM then
    match u with
    | OC_iomem lo hi =>
        if POLICYDB_VERSION_XEN_DEVICETREE <=? policyvers p then put 8 2 (le_bytes 8 lo ++ le_bytes 8 hi)
        else if 0xFFFFFFFF <? hi then mret POLICYDB_ERROR
        else put_u32s [lo; hi]
    | _ => w_undef
    end
  else if i =? OCON_XEN_PCIDEVICE then
    match u with OC_device n => put_u32s [n] | _ => w_undef end
  else
    match u with OC_name s => put_u32s [strlen s];;; put_string s | _ => w_undef end.

Definition ocontext_write_entry_xen (p : policydb) (i : Z) (c : ocontext) : writer :=
  if OCON_XEN_DEVICETREE <? i then mret POLICYDB_SUCCESS
  else label_write_xen p i (label_of c);;; context_write p (oc_context0 c).

Fixpoint write_kinds (w : Z → ocontext → writer) (i : Z) (n : nat) (ls : list (list ocontext)) : writer :=
  match n, ls with
  | O, _ => mret POLICYDB_SUCCESS
  | S n', l :: ls' =>
      (put_u32s [Z.of_nat (length l)];;; write_all (w i) l);;; write_kinds w (i + 1) n' ls'
  | S _, [] => w_undef
  end.

Definition ocontext_write (ocon_num : Z) (p : policydb) : writer :=
  if target_platform p =? SEPOL_TARGET_SELINUX then
    write_kinds (ocontext_write_entry_selinux p) 0 (Z.to_nat ocon_num) (ocontexts p)
  else if target_platform p =? SEPOL_TARGET_XEN then
    write_kinds (ocontext_write_entry_xen p) 0 (Z.to_nat ocon_num) (ocontexts p)
  else mret POLICYDB_ERROR.

Definition genfs_write_entry (p : policydb) (c : ocontext) : writer :=
  match oc_u c with
  | OC_name s => put_u32s [strlen s];;; put_string s;;; put_u32s [oc_v c];;; context_write p (oc_context0 c)
  | _ => w_undef
  end.

Definition genfs_write_one (p : policydb) (g : genfs_t) : writer :=
  put_u32s [strlen (fstype g)];;;
  put_string (fstype g);;;
  put_u32s [Z.of_nat (length (gf_head g))];;;
  write_all (genfs_write_entry p) (gf_head g).

Definition genfs_write (p : policydb) : writer :=
  put_u32s [Z.of_nat (length (genfs p))];;; write_all (genfs_write_one p) (genfs p).

(** ** Formats *)

Definition label_bytes_selinux (i : Z) (x : label) : list Z :=
  let '(u, v, sid) := x in
  match u with
  | OC_none => u32s [sid]
  | OC_name s => (if i =? OCON_FSUSE then u32s [v; strlen s] else u32s [strlen s]) ++ string_bytes s
  | OC_ibpkey sp lo hi => u32s [u32 sp; Z.shiftr sp 32; lo; hi]
  | OC_ibendport s pt => u32s [strlen s; pt] ++ string_bytes s
  | OC_port pr lo hi => u32s [pr; lo; hi]
  | OC_node a m => u32s [a; m]
  | OC_node6 a m => u32s (a ++ m)
  | _ => []
  end.

Definition ocontext_bytes_selinux (p : policydb) (i : Z) (c : ocontext) : list Z :=
  label_bytes_selinux i (label_of c) ++ context_bytes p (oc_context0 c) ++
  opt_bytes (two_contexts i) (context_bytes p (oc_context1 c)).

Fixpoint kinds_bytes (enc : Z → ocontext → list Z) (i : Z) (n : nat) (ls : list (list ocontext)) : list Z :=
  match n, ls with
  | S n', l :: ls' => (u32s [Z.of_nat (length l)] ++ (l ≫= enc i)) ++ kinds_bytes enc (i + 1) n' ls'
  | _, _ => []
  end.

Definition genfs_entry_bytes (p : policydb) (c : ocontext) : list Z :=
  u32s [strlen (oc_path c)] ++ string_bytes (oc_path c) ++ u32s [oc_v c] ++ context_bytes p (oc_context0 c).

Definition genfs_one_bytes (p : policydb) (g : genfs_t) : list Z :=
  u32s [strlen (fstype g)] ++ string_bytes (fstype g) ++
  u32s [Z.of_nat (length (gf_head g))] ++ (gf_head g ≫= genfs_entry_bytes p).

Definition genfs_bytes (p : policydb) (l : list genfs_t) : list Z :=
  u32s [Z.of_nat (length l)] ++ (l ≫= genfs_one_bytes p).

(** What a kind can hold. *)
Definition label_ok_selinux (i : Z) (x : label) : Prop :=
  let '(u, v, sid) := x in
  match u with
  | OC_none => i = OCON_ISID ∧ v = 0 ∧ u32_ok sid
  | OC_name s =>
      ((i = OCON_FS ∨ i = OCON_NETIF) ∧ symbol_ok s ∧ strlen s <= 63 ∧ v = 0 ∧ sid = 0) ∨
      (i = OCON_FSUSE ∧ symbol_ok s ∧ u32_ok v ∧ sid = 0)
  | OC_ibpkey sp lo hi => i = OCON_IBPKEY ∧ u64_ok sp ∧ u16_ok lo ∧ u16_ok hi ∧ v = 0 ∧ sid = 0
  | OC_ibendport s pt => i = OCON_IBENDPORT ∧ symbol_ok s ∧ strlen s <= 63 ∧ byte_ok pt ∧ v = 0 ∧ sid = 0
  | OC_port pr lo hi => i = OCON_PORT ∧ byte_ok pr ∧ u16_ok lo ∧ u16_ok hi ∧ v = 0 ∧ sid = 0
  | OC_node a m => i = OCON_NODE ∧ u32_ok a ∧ u32_ok m ∧ v = 0 ∧ sid = 0
  | OC_node6 a m => i = OCON_NODE6 ∧ length a = 4%nat ∧ length m = 4%nat ∧ Forall u32_ok (a ++ m) ∧ v = 0 ∧ sid = 0
  | _ => False
  end.

(** A context that is written and read back. *)
Definition context_storable (p : policydb) (c : context_struct) : Prop :=
  context_ok c ∧ context_is_valid p c = Ret true ∧
  (kern_or_base p POLICYDB_VERSION_MLS MOD_POLICYDB_VERSION_MLS = false → range c = mls_range_init).

Definition ocontext_ok_selinux (p : policydb) (i : Z) (c : ocontext) : Prop :=
  label_ok_selinux i (label_of c) ∧ context_storable p (oc_context0 c) ∧
  (if two_contexts i then context_storable p (oc_context1 c) else oc_context1 c = zero_context) ∧ oc_sid1 c = 0.

(** The lists of the kinds [i], [i + 1], ... *)
Definition kinds_ok (P : Z → ocontext → Prop) (i : Z) (ls : list (list ocontext)) : Prop :=
  ∀ j l, ls !! j = Some l → Z.of_nat (length l) < 2 ^ 32 ∧ Forall (P (i + Z.of_nat j)) l.

Definition genfs_entry_ok (p : policydb) (c : ocontext) : Prop :=
  oc_u c = OC_name (oc_path c) ∧ symbol_ok (oc_path c) ∧ u32_ok (oc_v c) ∧ context_storable p (oc_context0 c) ∧
  oc_context1 c = zero_context ∧ oc_sid0 c = 0 ∧ oc_sid1 c = 0.

(** The paths of a file system: the longer ones first, none twice. *)
Definition paths_sorted (l : list ocontext) : Prop :=
  StronglySorted (λ c c', strlen (oc_path c') <= strlen (oc_path c) ∧ same_path c' c = false) l.

(** The file systems by name. *)
Definition genfs_sorted (l : list genfs_t) : Prop := StronglySorted (λ g g', 0 < strcmp (fstype g') (fstype g)) l.

Definition genfs_one_ok (p : policydb) (g : genfs_t) : Prop :=
  symbol_ok (fstype g) ∧ Z.of_nat (length (gf_head g)) < 2 ^ 32 ∧ Forall (genfs_entry_ok p) (gf_head g) ∧ paths_sorted (gf_head g).

Definition genfs_ok (p : policydb) (l : list genfs_t) : Prop :=
  Z.of_nat (length l) < 2 ^ 32 ∧ Forall (genfs_one_ok p) l ∧ genfs_sorted l.

(** ** Emission *)

Lemma emits_name c s : symbol_ok s → emits c (put_u32s [strlen s];;; put_string s) (u32s [strlen s] ++ string_bytes s).
Proof. intros Hs. apply emits_then; [by apply emits_u32s|by apply emits_string, symbol_short]. Qed.

Lemma emits_label_selinux c i x : label_ok_selinux i x → emits c (label_write_selinux i x) (label_bytes_selinux i x).
Proof.
  destruct x as [[u v] sid]. unfold label_ok_selinux.
  destruct u as [|s|pr lo hi|a m|a m|sp lo hi|s pt|n|lo hi|lo hi|n]; try done.
  - intros (->&_&_). by apply (emits_u32s c [sid]).
  - intros [([->| ->]&Hs&_)|(->&Hs&_)]; [by apply (emits_name c s)|by apply (emits_name c s)|].
    apply (emits_then c (put_u32s [v; strlen s]) (put_string s)); [by apply emits_u32s|by apply emits_string, symbol_short].
  - intros (->&_). by apply (emits_u32s c [pr; lo; hi]).
  - intros (->&_). by apply (emits_u32s c [a; m]).
  - intros (->&Ha&Hm&_). apply (emits_u32s c (a ++ m)). by rewrite length_app, Ha, Hm.
  - intros (->&_). by apply (emits_u32s c [u32 sp; Z.shiftr sp 32; lo; hi]).
  - intros (->&Hs&_). apply (emits_then c (put_u32s [strlen s; pt]) (put_string s)); [by apply emits_u32s|by apply emits_string, symbol_short].
Qed.

Lemma label_kind i x : label_ok_selinux i x → (OCON_NUM <=? i) = false.
Proof.
  destruct x as [[[]]]; cbn; try done; try (by intros (->&_)).
  by intros [([->| ->]&_)|(->&_)].
Qed.

Lemma emits_ocontext_selinux c p i x : label_ok_selinux i (label_of x) →
  emits c (ocontext_write_entry_selinux p i x) (ocontext_bytes_selinux p i x).
Proof.
  intros Hx. unfold ocontext_write_entry_selinux. rewrite (label_kind _ _ Hx).
  apply emits_then; [by apply emits_label_selinux|]. apply emits_then; [apply emits_context|].
  apply emits_opt. intros _. apply emits_context.
Qed.

Lemma kinds_ok_cons P i l ls : kinds_ok P i (l :: ls) →
  Z.of_nat (length l) < 2 ^ 32 ∧ Forall (P i) l ∧ kinds_ok P (i + 1) ls.
Proof.
  intros H. destruct (H 0%nat l eq_refl) as [Hn Hl]. rewrite Z.add_0_r in Hl. split_and!; [done..|].
  intros j l' Hj. replace (i + 1 + Z.of_nat j) with (i + Z.of_nat (S j)) by lia. by apply (H (S j)).
Qed.

Lemma emits_kinds c (w : Z → ocontext → writer) enc P n : (∀ i x, P i x → emits c (w i x) (enc i x)) →
  ∀ i ls, (n <= length ls)%nat → kinds_ok P i ls → emits c (write_kinds w i n ls) (kinds_bytes enc i n ls).
Proof.
  intros HP. induction n as [|n IH]; intros i ls Hn Hls; [apply emits_nil|].
  destruct ls as [|l ls]; [cbn in Hn; lia|]. apply kinds_ok_cons in Hls as (_&Hl&Hls).
  apply emits_then; [|apply IH; [cbn in Hn; lia|done]]. apply emits_then; [by apply emits_u32s|].
  apply emits_all. eapply Forall_impl; [exact Hl|]. apply HP.
Qed.

Lemma emits_ocontexts c p n :
  target_platform p = SEPOL_TARGET_SELINUX → 0 <= n <= Z.of_nat (length (ocontexts p)) →
  kinds_ok (ocontext_ok_selinux p) 0 (ocontexts p) →
  emits c (ocontext_write n p) (kinds_bytes (ocontext_bytes_selinux p) 0 (Z.to_nat n) (ocontexts p)).
Proof.
  intros Ht Hn Hk. unfold ocontext_write. rewrite Ht. cbn [Z.eqb SEPOL_TARGET_SELINUX].
  eapply emits_kinds; [|lia|done]. intros i x (Hx&_). by apply emits_ocontext_selinux.
Qed.

Lemma emits_genfs c p : genfs_ok p (genfs p) → emits c (genfs_write p) (genfs_bytes p (genfs p)).
Proof.
  intros (_&Hl&_). apply emits_then; [by apply emits_u32s|]. apply emits_all. eapply Forall_impl; [exact Hl|].
  intros g (Hs&_&Hh&_). apply emits_then; [by apply emits_u32s|].
  apply emits_then; [by apply emits_string, symbol_short|]. apply emits_then; [by apply emits_u32s|].
  apply emits_all. eapply Forall_impl; [exact Hh|]. intros x (Eu&Hp&_). unfold genfs_write_entry. rewrite Eu.
  apply emits_then; [by apply emits_u32s|]. apply emits_then; [by apply emits_string, symbol_short|].
  apply emits_then; [by apply emits_u32s|apply emits_context].
Qed.

(** ** What is written is read back *)

Section parse.
Context (c : bool).

Lemma parses_name {B} (g : Z → bool) s (f : string → R B) bs y :
  symbol_ok s → g (strlen s) = true → parses c (f s) bs y →
  parses c (buf ← next_u32s 1; let len := word buf 0 in _ ← guard_or (-1) (g len); name ← key_read len; f name)
    ((u32s [strlen s] ++ string_bytes s) ++ bs) y.
Proof.
  intros Hs Hg Hf. rewrite <- app_assoc. apply parses_count; [by apply symbol_len_ok|]. intros buf ->. cbn zeta.
  apply parses_guard_bind; [done|]. by eapply parses_bind; [apply parses_symbol|].
Qed.

(** Decides the tests of the kind. *)
Ltac pick_kind :=
  repeat match goal with
  | |- context [if ?b then _ else _] =>
      let v := eval vm_compute in b in first [constr_eq v true | constr_eq v false]; change b with v; cbv iota
  end.

Lemma parses_label_selinux i x : label_ok_selinux i x → parses c (label_read_selinux i) (label_bytes_selinux i x) x.
Proof.
  destruct x as [[u v] sid]. unfold label_ok_selinux, label_bytes_selinux.
  destruct u as [|s|pr lo hi|a m|a m|sp lo hi|s pt|n|lo hi|lo hi|n]; try done.
  - intros (->&->&Hs). unfold label_read_selinux. pick_kind.
    eapply parses_map; [apply parses_u32s; [done|by in_range]|done].
  - intros [(Hi&Hs&Hl&->&->)|(->&Hs&Hv&->)].
    + assert (parses c (label_read_selinux i) ((u32s [strlen s] ++ string_bytes s) ++ []) (OC_name s, 0, 0)) as H.
      { destruct Hi as [-> | ->]; unfold label_read_selinux; pick_kind;
          apply (parses_name (λ len, negb (zero_or_saturated len || (63 <? len)))); [done| |apply parses_ret|done| |apply parses_ret];
          pose proof (symbol_len_guard s Hs) as E; rewrite negb_orb, E; cbn; lia. }
      rewrite app_nil_r in H. by destruct Hi as [-> | ->].
    + unfold label_read_selinux. pick_kind. pose proof (symbol_len_ok s Hs).
      eapply parses_bind; [apply parses_u32s; [done|by in_range]|].
      change (word [v; strlen s] 1) with (strlen s). change (word [v; strlen s] 0) with v. cbn zeta.
      apply parses_guard_bind; [by apply symbol_len_guard|]. by eapply parses_map; [apply parses_symbol|].
  - intros (->&Hp&Hl&Hh&->&->). unfold label_read_selinux. pick_kind. red in Hp. red in Hl. red in Hh.
    eapply parses_map; [apply parses_u32s; [done|in_range]|].
    cbn. by rewrite u8_small, !u16_small.
  - intros (->&Ha&Hm&->&->). unfold label_read_selinux. pick_kind.
    eapply parses_map; [apply parses_u32s; [done|by in_range]|done].
  - intros (->&Ha&Hm&Hf&->&->). unfold label_read_selinux. pick_kind.
    eapply parses_map; [apply parses_u32s; [by rewrite length_app, Ha, Hm|done]|]. 
    by rewrite take_app_length', drop_app_length'.
  - intros (->&Hs&Hl&Hh&->&->). unfold label_read_selinux. pick_kind. red in Hl. red in Hh. red in Hs.
    eapply parses_bind_r; [apply parses_u32s; [done|in_range]|].
    + apply u32_range.
    + rewrite Z.shiftr_div_pow2 by lia. split; [apply Z.div_pos; lia|apply Z.div_lt_upper_bound; lia].
    + change (word [u32 sp; _; lo; hi] 2) with lo. change (word [u32 sp; _; lo; hi] 3) with hi.
      apply parses_guard_bind; [zcase; cbn; lia|].
      change (word [u32 sp; Z.shiftr sp 32; lo; hi] 0) with (u32 sp). change (word [u32 sp; Z.shiftr sp 32; lo; hi] 1) with (Z.shiftr sp 32).
      rewrite !u16_small by done. replace (u32 sp + 2 ^ 32 * Z.shiftr sp 32) with sp; [apply parses_ret|].
      rewrite Z.shiftr_div_pow2 by lia. unfold u32. pose proof (Z.div_mod sp (2 ^ 32)). lia.
  - intros (->&Hs&Hl&Hp&->&->). unfold label_read_selinux. pick_kind. pose proof (symbol_len_ok s Hs). red in Hp.
    eapply parses_bind; [apply parses_u32s; [done|in_range; done]|].
    change (word [strlen s; pt] 0) with (strlen s). change (word [strlen s; pt] 1) with pt. cbn zeta.
    apply parses_guard_bind; [rewrite symbol_len_pos by done; cbn [orb]; unfold IB_DEVICE_NAME_MAX; lia|].
    eapply parses_map; [by apply parses_symbol|]. by rewrite u8_small.
Qed.

Lemma parses_stored_context p x : context_storable p x → parses c (context_read_and_validate p) (context_bytes p x) x.
Proof. intros (?&?&?). by apply parses_context. Qed.

Lemma parses_ocontext_selinux p i x : ocontext_ok_selinux p i x →
  parses c (ocontext_entry_selinux p i) (ocontext_bytes_selinux p i x) x.
Proof.
  destruct x as [u v c0 c1 sid s1]. intros (Hl&H0&H1&Hs). cbn [oc_context0 oc_context1 oc_sid1] in *.
  apply parses_need_bind. eapply parses_bind; [by apply parses_label_selinux|]. cbn [label_of oc_u oc_v oc_sid0].
  eapply parses_bind; [by apply parses_stored_context|]. subst s1. cbn [oc_context1].
  eapply parses_map; [|done]. destruct (two_contexts i); [by apply parses_stored_context|].
  rewrite H1. apply parses_ret.
Qed.

Lemma parses_kinds r enc P n : (∀ i x, P i x → parses c (r i) (enc i x) x) →
  ∀ i ls, (n <= length ls)%nat → kinds_ok P i ls → parses c (read_kinds r i n) (kinds_bytes enc i n ls) (take n ls).
Proof.
  intros HP. induction n as [|n IH]; intros i ls Hn Hls; [apply parses_ret|].
  destruct ls as [|l ls]; [cbn in Hn; lia|]. apply kinds_ok_cons in Hls as (Hlen&Hl&Hls).
  cbn [kinds_bytes read_kinds take]. rewrite <- app_assoc. apply parses_count; [red; lia|]. intros buf ->. rewrite Nat2Z.id.
  eapply parses_bind.
  - apply parses_repeat; [done|]. eapply Forall_impl; [exact Hl|]. apply HP.
  - eapply parses_map; [apply IH; [cbn in Hn; lia|done]|done].
Qed.

(** Into empty lists, what is read is what was written. *)
Lemma put_kinds_empty ls k : (length ls <= k)%nat → put_kinds ls (replicate k []) = ls ++ replicate (k - length ls) [].
Proof.
  revert k. induction ls as [|l ls IH]; intros k Hk; [cbn; f_equal; lia|].
  destruct k as [|k]; cbn [length] in Hk; [lia|]. cbn [replicate put_kinds app]. rewrite IH by lia.
  by destruct l.
Qed.

Lemma parses_ocontexts p p0 n :
  target_platform p0 = SEPOL_TARGET_SELINUX → ocontexts p0 = replicate (Z.to_nat OCON_NUM) [] →
  0 <= n <= OCON_NUM → length (ocontexts p) = Z.to_nat OCON_NUM →
  drop (Z.to_nat n) (ocontexts p) = replicate (Z.to_nat (OCON_NUM - n)) [] →
  kinds_ok (ocontext_ok_selinux p0) 0 (ocontexts p) →
  parses c (ocontext_read n p0) (kinds_bytes (ocontext_bytes_selinux p0) 0 (Z.to_nat n) (ocontexts p))
    (set_ocontexts (ocontexts p) p0).
Proof.
  intros Ht He Hn Hlen Hd Hk. unfold ocontext_read. rewrite Ht. cbn [Z.eqb SEPOL_TARGET_SELINUX].
  eapply parses_map; [eapply parses_kinds; [apply parses_ocontext_selinux| |done]; rewrite Hlen; lia|].
  rewrite He, put_kinds_empty; rewrite length_take, Hlen; [|lia]. f_equal.
  replace (Z.to_nat OCON_NUM - Z.to_nat n `min` Z.to_nat OCON_NUM)%nat with (Z.to_nat (OCON_NUM - n)) by lia.
  by rewrite <- Hd, take_drop.
Qed.

(** *** Genfs *)

Lemma genfs_insert_last x l :
  Forall (λ y, strlen (oc_path x) <= strlen (oc_path y) ∧ same_path x y = false) l → genfs_insert x l = Some (l ++ [x]).
Proof.
  induction 1 as [|y l [Hy Hs] Hl IH]; [done|]. cbn [genfs_insert]. rewrite Hs.
  destruct (Z.ltb_spec (strlen (oc_path y)) (strlen (oc_path x))); [lia|]. by rewrite IH.
Qed.

Lemma genfs_place_last name l :
  Forall (λ g, 0 < strcmp name (fstype g)) l → genfs_place name l = Some (l, []).
Proof.
  induction 1 as [|g l Hg Hl IH]; [done|]. cbn [genfs_place].
  destruct (Z.eqb_spec (strcmp name (fstype g)) 0); [lia|]. destruct (Z.ltb_spec (strcmp name (fstype g)) 0); [lia|].
  by rewrite IH.
Qed.

Lemma parses_genfs_entry p x l : genfs_entry_ok p x → genfs_insert x l = Some (l ++ [x]) →
  parses c (genfs_entry p l) (genfs_entry_bytes p x) (l ++ [x]).
Proof.
  destruct x as [u v c0 c1 sid s1]. intros (Eu&Hp&Hv&Hc&E1&E2&E3) Hi.
  cbn [oc_u oc_v oc_context0 oc_context1 oc_sid0 oc_sid1] in *. subst c1 sid s1.
  destruct u as [|s| | | | | | | | |]; try done. unfold oc_path in Hp. cbn [oc_u] in Hp. 
  apply parses_need_bind. unfold genfs_entry_bytes, oc_path. cbn [oc_u oc_v oc_context0].
  apply parses_count; [by apply symbol_len_ok|]. intros buf ->. cbn zeta.
  apply parses_guard_bind; [by apply symbol_len_guard|]. eapply parses_bind; [by apply parses_symbol|].
  apply parses_count; [done|]. intros buf' ->. rewrite <- (app_nil_r (context_bytes p c0)).
  eapply parses_bind; [by apply parses_stored_context|]. rewrite Hi. apply parses_ret.
Qed.

Lemma parses_genfs_entries p l : ∀ dn,
  Forall (genfs_entry_ok p) l → paths_sorted (dn ++ l) →
  parses c (genfs_entries p (length l) dn) (l ≫= genfs_entry_bytes p) (dn ++ l).
Proof.
  induction l as [|x l IH]; intros dn Hl Hs; [rewrite app_nil_r; apply parses_ret|].
  apply Forall_cons in Hl as [Hx Hl]. rewrite bind_cons. cbn [length genfs_entries].
  assert (Hi : genfs_insert x dn = Some (dn ++ [x])).
  { apply genfs_insert_last, Forall_forall. intros y Hy. by apply (StronglySorted_app_1_elem_of _ _ _ _ _ Hs Hy), list_elem_of_here. }
  rewrite (cons_middle x dn l) in *. rewrite (app_assoc dn [x] l) in *.
  eapply parses_bind; [by apply parses_genfs_entry|by apply IH].
Qed.

Lemma parses_genfs_one p g l : genfs_one_ok p g → Forall (λ g', 0 < strcmp (fstype g) (fstype g')) l →
  parses c (genfs_read_one p l) (genfs_one_bytes p g) (l ++ [g]).
Proof.
  destruct g as [name head]. intros (Hs&Hlen&Hh&Hp) Hl. cbn [fstype gf_head] in *.
  unfold genfs_one_bytes. cbn [fstype gf_head]. apply parses_count; [by apply symbol_len_ok|]. intros buf ->. cbn zeta.
  apply parses_guard_bind; [by apply symbol_len_guard|]. apply parses_need_bind.
  eapply parses_bind; [by apply parses_symbol|]. rewrite genfs_place_last by done.
  eapply parses_bind_nil; [apply parses_ret|]. cbn beta iota.
  apply parses_count; [red; lia|]. intros buf' ->. rewrite Nat2Z.id.
  eapply parses_map; [by apply (parses_genfs_entries p head [])|done].
Qed.

(** The section is read back as it was. *)
Lemma parses_genfs p p0 : genfs p0 = [] → genfs_ok p0 (genfs p) →
  parses c (genfs_read p0) (genfs_bytes p0 (genfs p)) (genfs p).
Proof.
  intros E (Hn&Hl&Hs). apply parses_on_error, parses_count; [red; lia|]. intros buf ->. rewrite Nat2Z.id, E.
  assert (Hgen : ∀ l dn, Forall (genfs_one_ok p0) l → genfs_sorted (dn ++ l) →
    parses c (genfs_read_all p0 (length l) dn) (l ≫= genfs_one_bytes p0) (dn ++ l)).
  { clear. induction l as [|g l IH]; intros dn Hl Hs; [rewrite app_nil_r; apply parses_ret|].
    apply Forall_cons in Hl as [Hg Hl]. rewrite bind_cons. cbn [length genfs_read_all].
    assert (Hd : Forall (λ g', 0 < strcmp (fstype g) (fstype g')) dn).
    { apply Forall_forall. intros y Hy. by apply (StronglySorted_app_1_elem_of _ _ _ _ _ Hs Hy), list_elem_of_here. }
    rewrite (cons_middle g dn l) in *. rewrite (app_assoc dn [g] l) in *.
    eapply parses_bind; [by apply parses_genfs_one|by apply IH]. }
  by apply (Hgen (genfs p) []).
Qed.
End parse.

(** ** Arbitrary bytes

    On an indexed policy reading always returns, the contexts that are accepted
    are valid, and the genfs section is sorted. *)

Section sound.
Context (p : policydb) (Hix : indexed p).

Definition context_good (x : context_struct) : Prop := context_ok x ∧ context_is_valid p x = Ret true.

Lemma sound_any_u32s n : 0 <= n → sound (next_u32s n) (λ _, True).
Proof. intros Hn. eapply sound_mono; [by apply sound_u32s|done]. Qed.

(** The parts of a label. *)
Lemma sound_name {B} n i (g : list Z → bool) (f : list Z → string → R B) Q :
  (∀ buf s, sound (f buf s) Q) →
  sound (buf ← next_u32s (Z.of_nat n); let len := word buf i in _ ← guard_or (-1) (g buf); name ← key_read len; f buf name) Q.
Proof.
  intros Hf. apply (sound_u32s_bind n). intros buf _ Hb. cbn zeta. apply sound_guard_bind. intros _.
  eapply sound_bind; [apply sound_key_read; by apply word_ok|]. intros s _. apply Hf.
Qed.

(** The variant of the union that a kind uses on SELinux. *)
Definition kind_key (i : Z) (u : ocontext_key) : Prop :=
  match u with
  | OC_none => i = OCON_ISID
  | OC_name _ => i = OCON_FS ∨ i = OCON_NETIF ∨ i = OCON_FSUSE
  | OC_port _ _ _ => i = OCON_PORT
  | OC_node _ _ => i = OCON_NODE
  | OC_node6 _ _ => i = OCON_NODE6
  | OC_ibpkey _ _ _ => i = OCON_IBPKEY
  | OC_ibendport _ _ => i = OCON_IBENDPORT
  | _ => False
  end.

(** Only initial SIDs come with a SID. *)
Definition label_fits (i : Z) (x : label) : Prop := kind_key i x.1.1 ∧ (i ≠ OCON_ISID → x.2 = 0).

Lemma sound_label_selinux i : sound (label_read_selinux i) (label_fits i).
Proof.
  unfold label_read_selinux.
  destruct (Z.eqb_spec i OCON_ISID) as [->|]; [|destruct (Z.eqb_spec i OCON_FS), (Z.eqb_spec i OCON_NETIF); cbn [orb];
    [..|destruct (Z.eqb_spec i OCON_IBPKEY); [|destruct (Z.eqb_spec i OCON_IBENDPORT); [|destruct (Z.eqb_spec i OCON_PORT);
     [|destruct (Z.eqb_spec i OCON_NODE); [|destruct (Z.eqb_spec i OCON_FSUSE); [|destruct (Z.eqb_spec i OCON_NODE6); [|by apply sound_fail]]]]]]]].
  all: try by (eapply sound_map; [by apply sound_any_u32s|]; intros; split; [|by intros ?]; cbn; auto).
  all: try by (apply (sound_name 1 0 (λ buf, negb (zero_or_saturated (word buf 0) || (63 <? word buf 0))) (λ _ name, mret (OC_name name, 0, 0)));
    intros; apply sound_ret; split; cbn; auto).
  - eapply sound_bind; [by apply sound_any_u32s|]. intros buf _. apply sound_guard_bind. intros _. by apply sound_ret.
  - apply (sound_name 2 0 (λ buf, negb ((word buf 0 =? 0) || (IB_DEVICE_NAME_MAX - 1 <? word buf 0)))
      (λ buf name, mret (OC_ibendport name (u8 (word buf 1)), 0, 0))). intros. by apply sound_ret.
  - apply (sound_name 2 1 (λ buf, negb (zero_or_saturated (word buf 1))) (λ buf name, mret (OC_name name, word buf 0, 0))).
    intros. apply sound_ret. split; cbn; auto.
Qed.

Lemma sound_ocontext_selinux i : sound (ocontext_entry_selinux p i)
  (λ x, context_good (oc_context0 x) ∧ (two_contexts i = true → context_good (oc_context1 x)) ∧
        label_fits i (label_of x) ∧ oc_sid1 x = 0).
Proof.
  apply sound_need_bind. eapply sound_bind; [apply sound_label_selinux|]. intros [[u v] sid] Hfit.
  eapply sound_bind; [by apply sound_context|]. intros c0 H0.
  eapply (sound_bind _ _ (λ c1, two_contexts i = true → context_good c1)).
  - destruct (two_contexts i); [|by apply sound_ret]. eapply sound_mono; [by apply sound_context|done].
  - intros c1 H1. by apply sound_ret.
Qed.

Lemma sound_label_xen i : sound (label_read_xen p i) (λ x, i ≠ OCON_XEN_ISID → x.2 = 0).
Proof.
  unfold label_read_xen. destruct (Z.eqb_spec i OCON_XEN_ISID) as [->|Hne].
  { by eapply sound_map; [by apply sound_any_u32s|]. }
  repeat match goal with |- sound (if ?b then _ else _) _ => destruct b end; try by apply sound_fail.
  all: try by (eapply sound_map; [by apply sound_any_u32s|]).
  - by eapply sound_map; [by apply sound_entry|].
  - apply (sound_name 1 0 (λ buf, negb (zero_or_saturated (word buf 0))) (λ _ name, mret (OC_name name, 0, 0))).
    intros. by apply sound_ret.
Qed.

Lemma sound_ocontext_xen i : sound (ocontext_entry_xen p i)
  (λ x, context_good (oc_context0 x) ∧ (i ≠ OCON_XEN_ISID → oc_sid0 x = 0) ∧ oc_sid1 x = 0).
Proof.
  apply sound_need_bind. eapply sound_bind; [apply sound_label_xen|]. intros [[u v] sid] Hsid.
  eapply sound_map; [by apply sound_context|]. done.
Qed.

Lemma sound_kinds r P n : (∀ i, sound (r i) (P i)) → ∀ i,
  sound (read_kinds r i n) (λ ls, ∀ j l, ls !! j = Some l → Forall (P (i + Z.of_nat j)) l).
Proof.
  intros Hr. induction n as [|n IH]; intros i; [by apply sound_ret|]. cbn [read_kinds].
  apply (sound_u32s_bind 1). intros buf _ _. eapply sound_bind; [by eapply sound_repeat|]. intros l [_ Hl].
  eapply sound_map; [apply IH|]. intros ls Hls j l' Hj. destruct j as [|j].
  - injection Hj as <-. by rewrite Z.add_0_r.
  - replace (i + Z.of_nat (S j)) with (i + 1 + Z.of_nat j) by lia. by apply Hls.
Qed.

(** The contexts of the labels are valid, SIDs have not been assigned. *)
Definition label_good (i : Z) (x : ocontext) : Prop :=
  context_good (oc_context0 x) ∧
  (target_platform p = SEPOL_TARGET_SELINUX →
    (two_contexts i = true → context_good (oc_context1 x)) ∧ kind_key i (oc_u x)) ∧
  (i ≠ OCON_ISID → oc_sid0 x = 0) ∧ oc_sid1 x = 0.
Definition ocontexts_good (ls : list (list ocontext)) : Prop :=
  length ls = Z.to_nat OCON_NUM ∧ ∀ i l, ls !! i = Some l → Forall (label_good (Z.of_nat i)) l.

Lemma put_kinds_length ls old : length (put_kinds ls old) = length old.
Proof. revert old. induction ls as [|l ls IH]; intros [|o old]; cbn [put_kinds length]; [done..|]. by rewrite IH. Qed.

Lemma put_kinds_lookup ls old i l : put_kinds ls old !! i = Some l → ls !! i = Some l ∨ old !! i = Some l.
Proof.
  revert old i. induction ls as [|l0 ls IH]; intros old i; [by right|]. destruct old as [|o old]; [done|]. cbn [put_kinds].
  destruct i as [|i]; [|exact (IH old i)]. cbn. intros [= <-]. destruct l0; [by right|by left].
Qed.

(** The same policy but for its object contexts. *)
Lemma sound_ocontexts n : ocontexts_good (ocontexts p) →
  sound (ocontext_read n p) (λ p', ∃ ls, p' = set_ocontexts ls p ∧ ocontexts_good ls).
Proof.
  intros Hold. unfold ocontext_read.
  assert (Hput : ∀ ls, (∀ i l, ls !! i = Some l → Forall (label_good (Z.of_nat i)) l) → ocontexts_good (put_kinds ls (ocontexts p))).
  { intros ls Hls. split; [by rewrite put_kinds_length; apply Hold|].
    intros i l [H|H]%put_kinds_lookup; [by apply Hls|by apply Hold]. }
  assert (Hmap : ∀ r, (∀ i, sound (r i) (label_good i)) →
    sound (ls ← read_kinds r 0 (Z.to_nat n); mret (set_ocontexts (put_kinds ls (ocontexts p)) p))
      (λ p', ∃ ls, p' = set_ocontexts ls p ∧ ocontexts_good ls)).
  { intros r Hr. eapply sound_map; [by eapply sound_kinds|]. intros ls Hls. eexists. split; [reflexivity|]. apply Hput.
    intros i l Hl. apply (Hls i l Hl). }
  destruct (Z.eqb_spec (target_platform p) SEPOL_TARGET_SELINUX) as [E|E];
    [|destruct (Z.eqb_spec (target_platform p) SEPOL_TARGET_XEN) as [E'|E']; [|apply sound_fail]]; apply Hmap; intros i.
  - eapply sound_mono; [apply sound_ocontext_selinux|]. intros x (?&?&[Hk Hs]&?). by split_and!; [|intros _; split| |].
  - eapply sound_mono; [apply sound_ocontext_xen|]. intros x (?&?&?). by split_and!; [|rewrite E'| |].
Qed.

(** Insertion keeps the order. *)
Lemma genfs_insert_perm x l l' : genfs_insert x l = Some l' → l' ≡ₚ x :: l.
Proof.
  revert l'. induction l as [|y l IH]; intros l'; cbn [genfs_insert]; [by intros [= <-]|].
  destruct (same_path x y); [done|]. destruct (_ <? _); [by intros [= <-]|].
  destruct (genfs_insert x l) as [l1|] eqn:E; [|done]. intros [= <-]. rewrite (IH l1) by done. by rewrite Permutation_swap.
Qed.

Lemma genfs_insert_sorted x l l' : genfs_insert x l = Some l' → paths_sorted l → paths_sorted l'.
Proof.
  unfold paths_sorted. revert l'. induction l as [|y l IH]; intros l'; cbn [genfs_insert].
  { intros [= <-] _. by repeat constructor. }
  destruct (same_path x y) eqn:Es; [done|]. intros Hi Hs. pose proof Hs as [Hf Hl]%StronglySorted_cons.
  destruct (Z.ltb_spec (strlen (oc_path y)) (strlen (oc_path x))) as [Hlt|Hge].
  - injection Hi as <-. apply StronglySorted_cons. split; [|done]. rewrite Forall_forall in Hf. apply Forall_forall.
    intros z Hz. assert (strlen (oc_path z) <= strlen (oc_path y)) by (apply elem_of_cons in Hz as [->|Hz]; [lia|by apply Hf]).
    split; [lia|]. unfold same_path. destruct (streq (oc_path z) (oc_path x)) eqn:E; [|done].
    apply streq_spec in E. rewrite E in *. lia.
  - destruct (genfs_insert x l) as [l1|] eqn:E; [|done]. injection Hi as <-.
    apply StronglySorted_cons. split; [|by apply IH]. rewrite (genfs_insert_perm _ _ _ E). by constructor.
Qed.

Lemma genfs_place_spec name l b a : genfs_place name l = Some (b, a) →
  l = b ++ a ∧ Forall (λ g, 0 < strcmp name (fstype g)) b ∧ match a with g :: _ => strcmp name (fstype g) < 0 | [] => True end.
Proof.
  revert b. induction l as [|g l IH]; intros b; cbn [genfs_place]; [by intros [= <- <-]|].
  destruct (Z.eqb_spec (strcmp name (fstype g)) 0); [done|].
  destruct (Z.ltb_spec (strcmp name (fstype g)) 0); [by intros [= <- <-]|].
  destruct (genfs_place name l) as [[b' a']|] eqn:E; [|done]. cbn. intros [= <- <-].
  destruct (IH b' eq_refl) as (->&Hb&Ha). split_and!; [done| |done]. constructor; [lia|done].
Qed.

Lemma genfs_place_sorted name head l b a :
  genfs_place name l = Some (b, a) → genfs_sorted l → genfs_sorted (b ++ GF name head :: a).
Proof.
  intros (->&Hb&Ha)%genfs_place_spec [Hx [Hsb Hsa]]%StronglySorted_app. unfold genfs_sorted.
  apply StronglySorted_app. split_and!; [|done|].
  - intros g g' Hg Hg'. rewrite Forall_forall in Hb. apply elem_of_cons in Hg' as [->|Hg']; [by apply Hb|by apply Hx].
  - apply StronglySorted_cons. split; [|done]. cbn [fstype]. destruct a as [|g a]; [constructor|].
    assert (0 < strcmp (fstype g) name) by (rewrite strcmp_opp; lia).
    apply StronglySorted_cons in Hsa as [Hf _]. constructor; [done|]. eapply Forall_impl; [exact Hf|].
    intros g' Hg'. cbn beta in Hg'. by apply (strcmp_gt_trans _ (fstype g)). 
Qed.

Definition path_good (x : ocontext) : Prop :=
  context_good (oc_context0 x) ∧ oc_u x = OC_name (oc_path x) ∧ oc_sid0 x = 0 ∧ oc_sid1 x = 0.

Definition genfs_good (l : list genfs_t) : Prop :=
  genfs_sorted l ∧ Forall (λ g, paths_sorted (gf_head g) ∧ Forall path_good (gf_head g)) l.

Lemma sound_genfs_entries n : ∀ l, paths_sorted l → Forall path_good l →
  sound (genfs_entries p n l) (λ l', paths_sorted l' ∧ Forall path_good l').
Proof.
  induction n as [|n IH]; intros l Hl Hc; [by apply sound_ret|]. cbn [genfs_entries].
  eapply (sound_bind _ _ (λ l', paths_sorted l' ∧ Forall path_good l')); [|intros l' []; by apply IH].
  apply sound_need_bind, (sound_u32s_bind 1). intros buf _ Hb. apply sound_guard_bind. intros _.
  eapply sound_bind; [apply sound_key_read; by apply word_ok|]. intros name _.
  apply (sound_u32s_bind 1). intros buf' _ _. eapply sound_bind; [by apply sound_context|]. intros x Hx.
  destruct (genfs_insert _ l) as [l'|] eqn:E; [|apply sound_fail]. apply sound_ret.
  split; [by eapply genfs_insert_sorted|]. rewrite (genfs_insert_perm _ _ _ E). by constructor.
Qed.

Lemma sound_genfs_one l : genfs_good l → sound (genfs_read_one p l) genfs_good.
Proof.
  intros [Hs Hl]. apply (sound_u32s_bind 1). intros buf _ Hb. apply sound_guard_bind. intros _. apply sound_need_bind.
  eapply sound_bind; [apply sound_key_read; by apply word_ok|]. intros name _.
  destruct (genfs_place name l) as [[b a]|] eqn:E; [|apply sound_fail].
  apply (sound_bind _ _ (λ r, r = (b, a))); [by apply sound_ret|]. intros _ ->.
  apply (sound_u32s_bind 1). intros buf' _ _.
  eapply sound_map; [apply sound_genfs_entries; [apply SSorted_nil|apply Forall_nil_2]|].
  intros head [Hh Hc]. split; [by eapply genfs_place_sorted|].
  apply genfs_place_spec in E as (->&_). apply Forall_app in Hl as [H1 H2]. apply Forall_app. split; [done|].
  by constructor.
Qed.

Lemma sound_genfs : genfs_good (genfs p) → sound (genfs_read p) genfs_good.
Proof.
  intros Hg. apply sound_on_error, (sound_u32s_bind 1). intros buf _ _. revert Hg.
  generalize (genfs p). generalize (Z.to_nat (word buf 0)). induction n as [|n IH]; intros l Hl; [by apply sound_ret|].
  cbn [genfs_read_all]. eapply sound_bind; [by apply sound_genfs_one|]. apply IH.
Qed.
End sound.
