(* ===== verification/Indexes.v ===== *)
(** * The indexes of a policy (libsepol/src/policydb.c)

    What [policydb_index_classes] and [policydb_index_others] compute: the
    arrays by value are the inverses of the symbol tables, or the values of a
    table are out of range or taken twice; and the caches hold the expansion of
    the sets they stand for. *)

From S2P Require Import Prelude Ebitmap Hashtab SymtabFile Avtab Context Policydb Expand.

(** ** Code that can run out of memory

    [behaves c s Q]: with memory available [c] returns and memory is still
    available; when it returns, [Q] holds of the result. *)

Definition behaves {A} (c : M st A) (s : st) (Q : A → st → Prop) : Prop :=
  match c s with
  | Ret (a, s') => (plenty s.2 → plenty s'.2) ∧ Q a s'
  | _ => ¬ plenty s.2
  end.

Lemma behaves_ret {A} (a : A) s (Q : A → st → Prop) : Q a s → behaves (mret a) s Q.
Proof. done. Qed.

Lemma behaves_bind {A B} (c : M st A) (f : A → M st B) s (P : A → st → Prop) Q :
  behaves c s P → (∀ a s', P a s' → (plenty s.2 → plenty s'.2) → behaves (f a) s' Q) → behaves (c ≫= f) s Q.
Proof.
  unfold behaves, mbind, M_bind. destruct (c s) as [[a s']| |]; [|done..]. intros [Hm Hp] Hf.
  specialize (Hf a s' Hp Hm). destruct (f a s') as [[b s'']| |]; [|by intros ?%Hm..].
  destruct Hf as [Hm' HQ]. split; [auto|done].
Qed.

Lemma behaves_mono {A} (c : M st A) s (P Q : A → st → Prop) : behaves c s P → (∀ a s', P a s' → (plenty s.2 → plenty s'.2) → Q a s') → behaves c s Q.
Proof. unfold behaves. destruct (c s) as [[a s']| |]; [|done..]. intros [? ?] HPQ. split; auto. Qed.

Lemma behaves_step {A B} (c : M st A) (f : A → M st B) s a s' Q :
  c s = Ret (a, s') → s'.2 = s.2 → behaves (f a) s' Q → behaves (c ≫= f) s Q.
Proof. intros E Em. unfold behaves, mbind, M_bind. by rewrite E, Em. Qed.

Lemma behaves_get {A B} (g : policydb → A) (f : A → M st B) s Q :
  behaves (f (g s.1)) s Q → behaves (get_p g ≫= f) s Q.
Proof. by apply behaves_step. Qed.

Lemma behaves_hashtab_map {D} (fn : string → D → M st Z) h s Q :
  hashtab_wf h → behaves (map_chain fn (table_entries h)) s Q → behaves (hashtab_map h fn) s Q.
Proof. intros Hw. unfold behaves. by rewrite hashtab_map_entries. Qed.

Lemma behaves_alloc s : behaves alloc s (λ b s', s'.1 = s.1 ∧ (b = false → ¬ plenty s.2)).
Proof.
  unfold behaves, alloc, with_mem. pose proof (malloc_plenty s.2) as Hp. destruct (malloc s.2) as [b m]. cbn.
  split; [by intros (m'&[= _ ->]&?)%Hp|]. split; [done|]. by intros -> (m'&?&_)%Hp.
Qed.

(** ** Claiming the slots of an array

    The names and the array of a kind are filled together: a slot holds the name
    and the symbol of one value. *)

Section claims.
Context {A : Type} (val : A → option Z).
Implicit Types (x : string * A) (l : list (string * A)) (slots : list (option (string * A))).

Definition claim x slots : option (list (option (string * A))) :=
  match val x.2 with
  | None => Some slots
  | Some v =>
      if (v =? 0) || (Z.of_nat (length slots) <? v) then None
      else match at_index slots (v - 1) with Some None => Some (set_index slots (v - 1) (Some x)) | _ => None end
  end.

Fixpoint claims l slots : option (list (option (string * A))) :=
  match l with
  | [] => Some slots
  | x :: l' => slots ← claim x slots; claims l' slots
  end.

(** The slots are the inverse of the values. *)
Definition slots_of l slots : Prop :=
  ∀ i x, at_index slots i = Some (Some x) ↔ x ∈ l ∧ val x.2 = Some (i + 1) ∧ 0 <= i.

(** The values in range and none taken twice. *)
Definition values_ok (n : Z) l : Prop :=
  Forall (λ x, ∀ v, val x.2 = Some v → 0 < v <= n) l ∧ NoDup (omap (val ∘ snd) l).

(** The values are unsigned. *)
Definition unsigned l : Prop := Forall (λ x, ∀ v, val x.2 = Some v → 0 <= v) l.

Lemma claim_length x slots slots' : claim x slots = Some slots' → length slots' = length slots.
Proof.
  unfold claim. destruct (val x.2) as [v|]; [|by intros [= ->]]. destruct (_ || _); [done|].
  destruct (at_index slots (v - 1)) as [[?|]|]; try done. intros [= <-]. apply length_set_index.
Qed.

Lemma claim_slots l0 x slots slots' : (∀ v, val x.2 = Some v → 0 <= v) → slots_of l0 slots → claim x slots = Some slots' → slots_of (l0 ++ [x]) slots'.
Proof.
  intros Hval Hs. unfold claim. destruct (val x.2) as [v|] eqn:Ev.
  - destruct (_ || _) eqn:Eb; [done|]. apply orb_false_iff in Eb as [E1%Z.eqb_neq E2%Z.ltb_ge].
    specialize (Hval _ eq_refl). destruct (at_index slots (v - 1)) as [[y|]|] eqn:Ea; try done. intros [= <-] i y.
    destruct (Z.eq_dec i (v - 1)) as [->|Hi].
    + rewrite at_set_index_eq by lia. rewrite elem_of_app, list_elem_of_singleton. split.
      * intros [= <-]. replace (v - 1 + 1) with v by lia. split; [by right|]. split; [done|lia].
      * intros ([Hy| ->]&Ey&_); [|done]. destruct (Hs (v - 1) y) as [_ Hs']. rewrite Hs' in Ea; [done|]. split; [done|]. split; [done|lia].
    + rewrite at_set_index_ne by lia. rewrite (Hs i y), elem_of_app, list_elem_of_singleton. split.
      * intros (?&?&?). split; [by left|done].
      * intros ([Hy| ->]&Ey&?); [done|]. rewrite Ev in Ey. injection Ey as Ey. lia.
  - intros [= <-] i y. rewrite (Hs i y), elem_of_app, list_elem_of_singleton. split.
    + intros (?&?&?). split; [by left|done].
    + intros ([Hy| ->]&Ey&?); [done|congruence].
Qed.

Lemma claims_slots l : unsigned l → ∀ l0 slots slots', slots_of l0 slots → claims l slots = Some slots' →
  slots_of (l0 ++ l) slots' ∧ length slots' = length slots.
Proof.
  induction 1 as [|x l Hx Hl IH]; intros l0 slots slots' Hs; [intros [= <-]; by rewrite app_nil_r|].
  cbn [claims]. intros (s1&E1&E2)%bind_Some. destruct (IH (l0 ++ [x]) s1 slots') as [H1 H2]; [by eapply claim_slots|done|].
  rewrite <- app_assoc in H1. split; [done|]. by rewrite H2, (claim_length _ _ _ E1).
Qed.

Lemma slots_of_empty n : slots_of [] (replicate n None).
Proof.
  intros i x. split; [|by intros (?%elem_of_nil&_)]. intros H. apply at_index_elem in H.
  apply elem_of_replicate_inv in H. done.
Qed.

(** Claims succeed exactly on good values. *)
Lemma claims_values l : unsigned l → ∀ l0 slots, slots_of l0 slots → values_ok (Z.of_nat (length slots)) l0 →
  is_Some (claims l slots) ↔ values_ok (Z.of_nat (length slots)) (l0 ++ l).
Proof.
  induction 1 as [|x l Hx Hl IH]; intros l0 slots Hs H0.
  { rewrite app_nil_r. split; [done|]. intros _. by eexists. }
  cbn [claims]. destruct (claim x slots) as [s1|] eqn:E1; cbn.
  - specialize (IH (l0 ++ [x]) s1 (claim_slots _ _ _ _ Hx Hs E1)). rewrite (claim_length _ _ _ E1), <- app_assoc in IH. apply IH.
    revert E1. unfold claim. destruct (val x.2) as [v|] eqn:Ev.
    + destruct (_ || _) eqn:Eb; [done|]. apply orb_false_iff in Eb as [Eb1%Z.eqb_neq Eb2%Z.ltb_ge].
      specialize (Hx _ eq_refl). destruct (at_index slots (v - 1)) as [[y|]|] eqn:Ea; try done. intros _.
      destruct H0 as [Hr Hn]. split.
      * apply Forall_app. split; [done|]. constructor; [|done]. intros v'. rewrite Ev. intros [= <-]. lia.
      * rewrite omap_app. cbn [omap list_omap compose]. cbn. rewrite Ev. apply NoDup_app. split; [done|].
        split; [|by constructor; [apply not_elem_of_nil|constructor]]. intros w (y&Hy&Eyw)%list_elem_of_omap ->%list_elem_of_singleton.
        destruct (Hs (v - 1) y) as [_ Hs']. rewrite Hs' in Ea; [done|]. split; [done|]. cbn in Eyw. rewrite Eyw.
        split; [f_equal; lia|lia].
    + intros _. destruct H0 as [Hr Hn]. split.
      * apply Forall_app. split; [done|]. constructor; [|done]. intros v'. by rewrite Ev.
      * rewrite omap_app. cbn. rewrite Ev. by rewrite app_nil_r.
  - split; [by intros [??]|]. intros [Hr Hn]. exfalso. revert E1. unfold claim. destruct (val x.2) as [v|] eqn:Ev; [|done].
    apply Forall_app in Hr as [_ Hr]. apply Forall_cons in Hr as [Hr _]. specialize (Hr _ Ev).
    destruct (_ || _) eqn:Eb; [apply orb_true_iff in Eb as [Eb%Z.eqb_eq|Eb%Z.ltb_lt]; lia|].
    destruct (at_index_in slots (v - 1)) as [[y|] Ea]; [lia| |by rewrite Ea]. rewrite Ea. intros _.
    apply Hs in Ea as (Hy&Ey&_). rewrite omap_app in Hn. apply NoDup_app in Hn as (_&Hd&_).
    apply (Hd v).
    + apply list_elem_of_omap. exists y. split; [done|]. cbn. rewrite Ey. f_equal. lia.
    + cbn. rewrite Ev. by left.
Qed.

(** From empty arrays. *)
Lemma claims_fresh n l : unsigned l →
  match claims l (replicate n None) with
  | Some slots => length slots = n ∧ slots_of l slots ∧ values_ok (Z.of_nat n) l
  | None => ¬ values_ok (Z.of_nat n) l
  end.
Proof.
  intros Hl. pose proof (claims_values l Hl [] (replicate n None) (slots_of_empty n)) as Hv. rewrite length_replicate in Hv. cbn [app] in Hv.
  assert (values_ok (Z.of_nat n) []) as H0 by (split; constructor). specialize (Hv H0).
  destruct (claims l _) as [slots|] eqn:E.
  - destruct (claims_slots l Hl [] _ _ (slots_of_empty n) E) as [Hs Hls]. rewrite length_replicate in Hls.
    split_and!; [done..|]. apply Hv. by eexists.
  - intros H%Hv. by destruct H.
Qed.
End claims.

(** ** The index functions *)

Definition names {A} (slots : list (option (string * A))) : list (option string) :=
  map (option_map fst) slots.
Definition datums_of {A} (slots : list (option (string * A))) : list (option A) :=
  map (option_map snd) slots.

Definition put_names {A} (sym : Z) (slots : list (option (string * A))) (p : policydb) : policydb :=
  set_sym_val_to_name (set_index (sym_val_to_name p) sym (names slots)) p.

Lemma names_at {A} (slots : list (option (string * A))) i :
  at_index (names slots) i = option_map (option_map fst) (at_index slots i).
Proof. unfold names, at_index. destruct (i <? 0); [done|]. apply (list_lookup_fmap (option_map _)). Qed.

Lemma datums_at {A} (slots : list (option (string * A))) i :
  at_index (datums_of slots) i = option_map (option_map snd) (at_index slots i).
Proof. unfold datums_of, at_index. destruct (i <? 0); [done|]. apply (list_lookup_fmap (option_map _)). Qed.

Lemma names_set {A} (slots : list (option (string * A))) i x :
  set_index (names slots) i (Some x.1) = names (set_index slots i (Some x)).
Proof. unfold names, set_index. by rewrite (list_fmap_insert (option_map fst)). Qed.

Lemma datums_set {A} (slots : list (option (string * A))) i x :
  set_index (datums_of slots) i (Some x.2) = datums_of (set_index slots i (Some x)).
Proof. unfold datums_of, set_index. by rewrite (list_fmap_insert (option_map snd)). Qed.

Lemma set_index_twice {A} (l : list A) i a b : set_index (set_index l i a) i b = set_index l i b.
Proof. apply list_insert_insert_eq. Qed.

Lemma put_names_twice {A B} sym (s1 : list (option (string * A))) (s2 : list (option (string * B))) p :
  put_names sym s2 (put_names sym s1 p) = put_names sym s2 p.
Proof.
  unfold put_names.
  change (sym_val_to_name (set_sym_val_to_name ?b p)) with b. rewrite set_index_twice. done.
Qed.

(** [claim_name] on the names of [slots]. *)
Lemma claim_name_run {A} (val : A → option Z) sym (slots : list (option (string * A))) x v p m :
  is_Some (at_index (sym_val_to_name p) sym) → 0 <= sym → val x.2 = Some v → 0 <= v →
  claim_name sym v (Z.of_nat (length slots)) x.1 (put_names sym slots p, m) =
    match claim val x slots with
    | Some slots' => Ret (0, (put_names sym slots' p, m))
    | None => Ret (- EINVAL, (put_names sym slots p, m))
    end.
Proof.
  intros [arr Ha] Hsym Ev Hv. unfold claim_name, claim. rewrite Ev.
  destruct ((v =? 0) || _) eqn:Eb; [done|]. apply orb_false_iff in Eb as [E1%Z.eqb_neq E2%Z.ltb_ge].
  assert (Hn : ∀ A (sl : list (option (string * A))), at_index (sym_val_to_name (put_names sym sl p)) sym = Some (names sl)).
  { intros B sl. unfold put_names. cbn. apply at_set_index_eq. apply at_index_Some in Ha. lia. }
  rewrite (bind_ret _ _ _ (option_map fst (default None (at_index slots (v - 1)))) (put_names sym slots p, m)).
  2:{ unfold name_at. rewrite (bind_ret _ _ _ _ _ (elem_eq sym_val_to_name sym (put_names sym slots p, m) _ (Hn _ slots))).
      unfold lift. rewrite names_at. destruct (at_index_in slots (v - 1)) as [o Eo]; [lia|]. by rewrite Eo. }
  destruct (at_index_in slots (v - 1)) as [[y|] Eo]; [lia|by rewrite Eo|]. rewrite Eo. unfold id. cbn [default option_map from_option].
  rewrite (bind_ret _ _ _ () (put_names sym (set_index slots (v - 1) (Some x)) p, m)); [done|].
  unfold write_name. rewrite (bind_ret _ _ _ _ _ (elem_eq sym_val_to_name sym (put_names sym slots p, m) _ (Hn _ slots))).
  rewrite (bind_ret _ _ _ (None : option string) (put_names sym slots p, m)).
  2:{ unfold lift. rewrite names_at, Eo. done. }
  rewrite write_eq by by eexists. f_equal. f_equal. f_equal. unfold put_names at 2.
  rewrite (names_set slots). unfold put_names.
  change (sym_val_to_name (set_sym_val_to_name ?b p)) with b. rewrite set_index_twice. done.
Qed.

(** A kind whose symbols are reached through pointers: the value of an object
    ([None]: it is not indexed), the array and its setter. *)
Record kind (A : Type) := KIND {
  k_store : policydb → list A;
  k_value : A → option Z;
  k_tab : policydb → symtab ptr;
  k_sym : Z;
  k_arr : policydb → list (option ptr);
  k_set : list (option ptr) → policydb → policydb
}.
Arguments KIND {A}.
Arguments k_store {A}.
Arguments k_value {A}.
Arguments k_tab {A}.
Arguments k_sym {A}.
Arguments k_arr {A}.
Arguments k_set {A}.

(** The setters do not interfere. *)
Record kind_laws {A} (k : kind A) : Prop := {
  kl_store a b p : k_store k (k_set k a (set_sym_val_to_name b p)) = k_store k p;
  kl_tab a b p : k_tab k (k_set k a (set_sym_val_to_name b p)) = k_tab k p;
  kl_names a p : sym_val_to_name (k_set k a p) = sym_val_to_name p;
  kl_arr a p : k_arr k (k_set k a p) = a;
  kl_keep b p : k_arr k (set_sym_val_to_name b p) = k_arr k p;
  kl_comm a b p : set_sym_val_to_name b (k_set k a p) = k_set k a (set_sym_val_to_name b p);
  kl_twice a b p : k_set k a (k_set k b p) = k_set k a p;
  kl_sym : 0 <= k_sym k
}.

(** [class_index], [role_index], ... *)
Definition index_fn {A} (k : kind A) (key : string) (q : ptr) : M st Z :=
  d ← load (k_store k) q;
  match k_value k d with
  | Some v =>
      n ← get_p (λ p, nprim (k_tab k p));
      rc ← claim_name (k_sym k) v n key;
      if negb (rc =? 0) then mret rc
      else _ ← write (k_arr k) (k_set k) (v - 1) (Some q); mret 0
  | None => mret 0
  end.

(** The value of the object at [q]. *)
Definition value_at {A} (k : kind A) (p : policydb) (q : ptr) : option Z := at_index (k_store k p) q ≫= k_value k.

Definition values_pos {A} (k : kind A) (p : policydb) : Prop := ∀ q v, value_at k p q = Some v → 0 <= v.

Lemma values_unsigned {A} (k : kind A) p l : values_pos k p → unsigned (value_at k p) l.
Proof. intros H. apply Forall_true. intros x v. apply H. Qed.

Definition put_slots {A} (k : kind A) (slots : list (option (string * ptr))) (p : policydb) : policydb :=
  k_set k (datums_of slots) (put_names (k_sym k) slots p).

Section index_fn.
Context {A} (k : kind A) (HK : kind_laws k).

Lemma put_slots_store slots p : k_store k (put_slots k slots p) = k_store k p.
Proof. apply HK. Qed.
Lemma put_slots_tab slots p : k_tab k (put_slots k slots p) = k_tab k p.
Proof. apply HK. Qed.
Lemma put_slots_arr slots p : k_arr k (put_slots k slots p) = datums_of slots.
Proof. apply HK. Qed.

Lemma index_fn_run slots (x : string * ptr) p m :
  values_pos k p → is_Some (at_index (sym_val_to_name p) (k_sym k)) → is_Some (at_index (k_store k p) x.2) →
  nprim (k_tab k p) = Z.of_nat (length slots) →
  index_fn k x.1 x.2 (put_slots k slots p, m) =
    match claim (value_at k p) x slots with
    | Some slots' => Ret (0, (put_slots k slots' p, m))
    | None => Ret (- EINVAL, (put_slots k slots p, m))
    end.
Proof.
  intros Hpos Hn [d Hd] Hlen. unfold index_fn.
  rewrite (bind_ret _ _ _ d (put_slots k slots p, m)) by (apply load_eq; cbn; by rewrite put_slots_store).
  assert (Ex : value_at k p x.2 = k_value k d) by (unfold value_at; by rewrite Hd).
  unfold claim. rewrite Ex. destruct (k_value k d) as [v|]; [|done].
  rewrite (bind_ret _ _ _ (Z.of_nat (length slots)) (put_slots k slots p, m)).
  2:{ unfold get_p, gets. cbn [fst]. by rewrite put_slots_tab, Hlen. }
  assert (Epn : put_slots k slots p = put_names (k_sym k) slots (k_set k (datums_of slots) p)).
  { unfold put_slots, put_names. by rewrite (kl_comm _ HK), (kl_names _ HK). }
  pose proof (claim_name_run (value_at k p) (k_sym k) slots x v (k_set k (datums_of slots) p) m) as Hc.
  rewrite <- Epn in Hc. unfold mbind at 1, M_bind. rewrite Hc; clear Hc.
  - unfold claim. rewrite Ex.
    destruct ((v =? 0) || _) eqn:Eb; [done|]. apply orb_false_iff in Eb as [E1%Z.eqb_neq E2%Z.ltb_ge].
    pose proof (Hpos _ _ Ex). destruct (at_index_in slots (v - 1)) as [[y|] Eo]; [lia|by rewrite Eo|]. rewrite Eo.
    cbn [Z.eqb negb]. set (p1 := put_names _ _ _).
    assert (Ea : k_arr k p1 = datums_of slots) by (unfold p1, put_names; by rewrite (kl_keep _ HK), (kl_arr _ HK)).
    rewrite (bind_ret _ _ _ () (k_set k (set_index (k_arr k p1) (v - 1) (Some x.2)) p1, m)).
    2:{ apply write_eq. rewrite Ea, datums_at, Eo. by eexists. }
    rewrite Ea, datums_set. f_equal. f_equal. f_equal. unfold p1, put_slots, put_names.
    by rewrite (kl_names _ HK), (kl_comm _ HK), (kl_twice _ HK).
  - by rewrite (kl_names _ HK).
  - apply HK.
  - exact Ex.
  - by apply Hpos in Ex.
Qed.

(** The callback on all the entries. *)
Lemma index_map_run (l : list (string * ptr)) p m : ∀ slots,
  values_pos k p → is_Some (at_index (sym_val_to_name p) (k_sym k)) → Forall (λ x, is_Some (at_index (k_store k p) x.2)) l →
  nprim (k_tab k p) = Z.of_nat (length slots) →
  match claims (value_at k p) l slots with
  | Some slots' => map_chain (index_fn k) l (put_slots k slots p, m) = Ret (0, (put_slots k slots' p, m))
  | None => ∃ p', map_chain (index_fn k) l (put_slots k slots p, m) = Ret (- EINVAL, (p', m))
  end.
Proof.
  induction l as [|x l IH]; intros slots Hpos Hn Hl Hlen; [done|]. apply Forall_cons in Hl as [Hx Hl].
  pose proof (index_fn_run slots x p m Hpos Hn Hx Hlen) as E. destruct x as [key q]. cbn [fst snd] in E. cbn [map_chain claims].
  destruct (claim (value_at k p) (key, q) slots) as [s1|] eqn:E1; cbn [mbind option_bind]; rewrite (bind_ret _ _ _ _ _ E).
  - cbn [Z.eqb negb]. apply IH; [done..|]. by rewrite (claim_length _ _ _ _ E1).
  - by eexists.
Qed.
End index_fn.

(** A kind whose symbols are in the table itself. *)
Section name_fn.
Context {A} (sym : Z) (n : Z) (value : A → option Z) (fn : string → A → M st Z).
Hypothesis (Hsym : 0 <= sym).

(** [fn] is [claim_name] for the symbols that have a value. *)
Definition claims_name (l : list (string * A)) (p : policydb) : Prop :=
  Forall (λ x, ∀ (slots : list (option (string * A))) m,
    fn x.1 x.2 (put_names sym slots p, m) =
      match value x.2 with
      | Some v => claim_name sym v n x.1 (put_names sym slots p, m)
      | None => Ret (0, (put_names sym slots p, m))
      end) l.

Lemma name_map_run l p m : ∀ slots,
  is_Some (at_index (sym_val_to_name p) sym) → claims_name l p → unsigned value l → n = Z.of_nat (length slots) →
  match claims value l slots with
  | Some slots' => map_chain fn l (put_names sym slots p, m) = Ret (0, (put_names sym slots' p, m))
  | None => ∃ p', map_chain fn l (put_names sym slots p, m) = Ret (- EINVAL, (p', m))
  end.
Proof.
  induction l as [|x l IH]; intros slots Hn Hl Hu Hlen; [done|]. apply Forall_cons in Hl as [Hx Hl]. apply Forall_cons in Hu as [Hux Hu].
  assert (E : fn x.1 x.2 (put_names sym slots p, m) =
    match claim value x slots with
    | Some slots' => Ret (0, (put_names sym slots' p, m))
    | None => Ret (- EINVAL, (put_names sym slots p, m))
    end).
  { rewrite Hx, Hlen. destruct (value x.2) as [v|] eqn:Ev; [|unfold claim; by rewrite Ev].
    apply claim_name_run; eauto. }
  destruct x as [key d]. cbn [fst snd] in E. cbn [map_chain claims].
  destruct (claim value (key, d) slots) as [s1|] eqn:E1; cbn [mbind option_bind]; rewrite (bind_ret _ _ _ _ _ E).
  - cbn [Z.eqb negb]. apply IH; [done..|]. by rewrite (claim_length _ _ _ _ E1).
  - by eexists.
Qed.
End name_fn.

(** ** Fresh arrays *)

Lemma behaves_calloc {A} n s : behaves (calloc_ptrs (A := A) n) s
  (λ a s', s'.1 = s.1 ∧ (a = Some (replicate (Z.to_nat n) None) ∨ (a = None ∧ ¬ plenty s.2))).
Proof.
  eapply behaves_bind; [apply behaves_alloc|]. intros b s' [E Hb] _. apply behaves_ret. split; [done|].
  destruct b; [by left|right; auto].
Qed.

Lemma names_replicate {A} n : names (A := A) (replicate n None) = replicate n None.
Proof. unfold names. by rewrite fmap_replicate. Qed.

Lemma datums_replicate {A} n : datums_of (A := A) (replicate n None) = replicate n None.
Proof. unfold datums_of. by rewrite fmap_replicate. Qed.

Lemma behaves_new_names {A} sym n p m : is_Some (at_index (sym_val_to_name p) sym) →
  behaves (new_names sym n) (p, m)
    (λ ok s', (ok = true ∧ s'.1 = put_names sym (replicate (Z.to_nat n) (None : option (string * A))) p) ∨
              (ok = false ∧ ¬ plenty m)).
Proof.
  intros Hn. unfold new_names. eapply behaves_bind; [apply behaves_calloc|]. intros a [p' m'] [E Ha] _. cbn [fst snd] in *. subst p'.
  eapply behaves_step; [by apply write_eq|done|]. apply behaves_ret. cbn [fst].
  destruct Ha as [->|[-> ?]]; [left|by right]. split; [by rewrite bool_decide_true by by eexists|].
  unfold put_names. by rewrite names_replicate.
Qed.

Lemma behaves_new_structs set n p m :
  behaves (new_structs set n) (p, m)
    (λ ok s', (ok = true ∧ s'.1 = set (replicate (Z.to_nat n) None) p) ∨ (ok = false ∧ ¬ plenty m ∧ s'.1 = set [] p)).
Proof.
  unfold new_structs. eapply behaves_bind; [apply behaves_calloc|]. intros a [p' m'] [E Ha] _. cbn [fst snd] in *. subst p'.
  eapply behaves_step; [done|done|]. apply behaves_ret. cbn [fst snd].
  destruct Ha as [->|[-> ?]]; [left|right; done]. split; [by rewrite bool_decide_true by by eexists|done].
Qed.

(** ** Indexing one kind *)

(** The slots a table fills; an empty table of values is not indexed. *)
Definition filled {A} (val : A → option Z) (n : Z) (l : list (string * A)) (slots : list (option (string * A))) : Prop :=
  Z.of_nat (length slots) = n ∧ (n ≠ 0 → slots_of val l slots).

(** The status, and why it is an error. *)
Definition indexed_or {A} (val : A → option Z) (n : Z) (l : list (string * A)) (mem_left : Prop) (rc : Z) (good : Prop) : Prop :=
  (rc = 0 ∧ good ∧ (n ≠ 0 → values_ok val n l)) ∨ (rc ≠ 0 ∧ (¬ mem_left ∨ (n ≠ 0 ∧ ¬ values_ok val n l))).

(** The callback on a table, from empty arrays. *)
Lemma behaves_fill_kind {A} (k : kind A) p m :
  kind_laws k → values_pos k p → hashtab_wf (table (k_tab k p)) → 0 <= nprim (k_tab k p) →
  is_Some (at_index (sym_val_to_name p) (k_sym k)) →
  Forall (λ x, is_Some (at_index (k_store k p) x.2)) (table_entries (table (k_tab k p))) →
  behaves (hashtab_map (table (k_tab k p)) (index_fn k)) (put_slots k (replicate (Z.to_nat (nprim (k_tab k p))) None) p, m)
    (λ rc s',
      (rc = 0 ∧ (∃ slots, s'.1 = put_slots k slots p ∧ filled (value_at k p) (nprim (k_tab k p)) (table_entries (table (k_tab k p))) slots) ∧
       values_ok (value_at k p) (nprim (k_tab k p)) (table_entries (table (k_tab k p)))) ∨
      (rc ≠ 0 ∧ ¬ values_ok (value_at k p) (nprim (k_tab k p)) (table_entries (table (k_tab k p))))).
Proof.
  intros HK Hpos Hw Hn0 Hn Hl. apply behaves_hashtab_map; [done|]. set (n := nprim (k_tab k p)) in *.
  assert (Hlen : n = Z.of_nat (length (replicate (Z.to_nat n) (None : option (string * ptr))))) by (rewrite length_replicate; lia).
  pose proof (index_map_run k HK _ p m (replicate (Z.to_nat n) None) Hpos Hn Hl Hlen) as Hrun.
  pose proof (claims_fresh (value_at k p) (Z.to_nat n) (table_entries (table (k_tab k p))) (values_unsigned k p _ Hpos)) as Hc.
  rewrite Z2Nat.id in Hc by lia. unfold behaves.
  destruct (claims _ _ _) as [slots|].
  - rewrite Hrun. split; [done|]. destruct Hc as (Hsl&Hs&Hv). left. split; [done|]. split; [|done].
    exists slots. split; [done|]. split; [lia|done].
  - destruct Hrun as [p' ->]. split; [done|]. by right.
Qed.

Lemma behaves_index_kind {A} (k : kind A) p m :
  kind_laws k → values_pos k p → hashtab_wf (table (k_tab k p)) → 0 <= nprim (k_tab k p) →
  is_Some (at_index (sym_val_to_name p) (k_sym k)) → k_set k (k_arr k p) p = p →
  Forall (λ x, is_Some (at_index (k_store k p) x.2)) (table_entries (table (k_tab k p))) →
  k_arr k p = replicate (Z.to_nat (nprim (k_tab k p))) None →
  behaves (index_symtab (k_sym k) (k_tab k) (index_fn k)) (p, m)
    (λ rc s', indexed_or (value_at k p) (nprim (k_tab k p)) (table_entries (table (k_tab k p))) (plenty m) rc
       (∃ slots, s'.1 = put_slots k slots p ∧ filled (value_at k p) (nprim (k_tab k p)) (table_entries (table (k_tab k p))) slots)).
Proof.
  intros HK Hpos Hw Hn0 Hn Hsame Hl Ha. unfold index_symtab. apply behaves_get. cbn [fst].
  eapply behaves_step; [by apply write_eq|done|]. 
  set (n := nprim (k_tab k p)) in *. set (p1 := set_sym_val_to_name _ p).
  assert (Hset : ∀ (slots : list (option (string * ptr))), datums_of slots = k_arr k p → put_slots k slots p = put_names (k_sym k) slots p).
  { intros slots E. unfold put_slots. rewrite E. unfold put_names. rewrite <- (kl_comm _ HK). by rewrite Hsame. }
  destruct (Z.eqb_spec n 0) as [E0|E0]; cbn [negb].
  { apply behaves_ret. left. split; [done|]. split; [|by rewrite E0]. exists []. split; [|split; [by rewrite E0|by rewrite E0]].
    rewrite Hset; [done|]. by rewrite Ha, E0. }
  eapply behaves_bind.
  { apply (behaves_new_names (A := ptr)). unfold p1. cbn. rewrite at_set_index_eq; [by eexists|]. destruct Hn as [? Hn].
    by apply at_index_Some in Hn. }
  intros ok [p2 m2] Hok Hm. cbn [fst snd] in Hok.
  destruct Hok as [[-> ->]|[-> Hnm]]; cbn [negb]; [|apply behaves_ret; right; split; [done|by left]].
  assert (Ep : put_names (k_sym k) (replicate (Z.to_nat n) (None : option (string * ptr))) p1 =
               put_slots k (replicate (Z.to_nat n) None) p).
  { rewrite Hset by by rewrite datums_replicate. unfold p1. apply (put_names_twice _ ([] : list (option (string * ptr)))). }
  rewrite Ep. eapply behaves_bind; [by apply behaves_fill_kind|]. intros rc s3 [(->&H&Hv)|[Hrc Hv]] Hm3; apply behaves_ret.
  - by left.
  - right. apply Z.eqb_neq in Hrc as ->. split; [done|]. by right.
Qed.

Lemma behaves_fill_names {A} (sym : Z) (t : symtab A) (value : A → option Z) fn p m :
  0 <= sym → unsigned value (table_entries (table t)) → hashtab_wf (table t) → 0 <= nprim t →
  is_Some (at_index (sym_val_to_name p) sym) → claims_name sym (nprim t) value fn (table_entries (table t)) p →
  behaves (hashtab_map (table t) fn) (put_names sym (replicate (Z.to_nat (nprim t)) (None : option (string * A))) p, m)
    (λ rc s',
      (rc = 0 ∧ (∃ slots, s'.1 = put_names sym slots p ∧ filled value (nprim t) (table_entries (table t)) slots) ∧
       values_ok value (nprim t) (table_entries (table t))) ∨
      (rc ≠ 0 ∧ ¬ values_ok value (nprim t) (table_entries (table t)))).
Proof.
  intros Hsym Hval Hw Hn0 Hn Hl. apply behaves_hashtab_map; [done|]. set (n := nprim t) in *.
  assert (Hlen : n = Z.of_nat (length (replicate (Z.to_nat n) (None : option (string * A))))) by (rewrite length_replicate; lia).
  pose proof (name_map_run sym n value fn Hsym _ p m (replicate (Z.to_nat n) None) Hn Hl Hval Hlen) as Hrun.
  pose proof (claims_fresh value (Z.to_nat n) (table_entries (table t)) Hval) as Hc.
  rewrite Z2Nat.id in Hc by lia. unfold behaves.
  destruct (claims _ _ _) as [slots|].
  - rewrite Hrun. split; [done|]. destruct Hc as (Hsl&Hs&Hv). left. split; [done|]. split; [|done].
    exists slots. split; [done|]. split; [lia|done].
  - destruct Hrun as [p' ->]. split; [done|]. by right.
Qed.

Lemma behaves_index_names {A} (sym : Z) (tab : policydb → symtab A) (value : A → option Z) fn p m :
  0 <= sym → unsigned value (table_entries (table (tab p))) →
  hashtab_wf (table (tab p)) → 0 <= nprim (tab p) → is_Some (at_index (sym_val_to_name p) sym) →
  claims_name sym (nprim (tab p)) value fn (table_entries (table (tab p))) p →
  behaves (index_symtab sym tab fn) (p, m)
    (λ rc s', indexed_or value (nprim (tab p)) (table_entries (table (tab p))) (plenty m) rc
       (∃ slots, s'.1 = put_names sym slots p ∧ filled value (nprim (tab p)) (table_entries (table (tab p))) slots)).
Proof.
  intros Hsym Hval Hw Hn0 Hn Hl. unfold index_symtab. apply behaves_get. cbn [fst].
  eapply behaves_step; [by apply write_eq|done|].
  set (n := nprim (tab p)) in *. set (p1 := set_sym_val_to_name _ p).
  destruct (Z.eqb_spec n 0) as [E0|E0]; cbn [negb].
  { apply behaves_ret. left. split; [done|]. split; [|by rewrite E0]. exists []. by split; [|split; rewrite E0]. }
  eapply behaves_bind.
  { apply (behaves_new_names (A := A)). unfold p1. cbn. rewrite at_set_index_eq; [by eexists|]. destruct Hn as [? Hn].
    by apply at_index_Some in Hn. }
  intros ok [p2 m2] Hok Hm. cbn [fst snd] in Hok.
  destruct Hok as [[-> ->]|[-> Hnm]]; cbn [negb]; [|apply behaves_ret; right; split; [done|by left]].
  assert (Ep : put_names sym (replicate (Z.to_nat n) (None : option (string * A))) p1 =
               put_names sym (replicate (Z.to_nat n) (None : option (string * A))) p).
  { unfold p1. apply (put_names_twice _ ([] : list (option (string * A)))). }
  rewrite Ep. eapply behaves_bind; [by apply (behaves_fill_names sym (tab p) value)|].
  intros rc s3 [(->&H&Hv)|[Hrc Hv]] Hm3; apply behaves_ret.
  - by left.
  - right. apply Z.eqb_neq in Hrc as ->. split; [done|]. by right.
Qed.

(** ** Loops and bitmaps *)

Lemma behaves_loop {A B R} (body : A → B → M st (R + B)) (l : list A) (I : list A → B → st → Prop) (F : R → st → Prop) :
  (∀ pre a post b s, l = pre ++ a :: post → I pre b s →
     behaves (body a b) s (λ r s', match r with inl x => F x s' | inr b' => I (pre ++ [a]) b' s' end)) →
  ∀ b s, I [] b s → behaves (loop body l b) s (λ r s', match r with inl x => F x s' | inr b' => I l b' s' end).
Proof.
  intros Hstep.
  assert (H : ∀ post pre b s, l = pre ++ post → I pre b s →
     behaves (loop body post b) s (λ r s', match r with inl x => F x s' | inr b' => I l b' s' end)).
  { induction post as [|a post IH]; intros pre b s El Hi.
    - apply behaves_ret. by rewrite El, app_nil_r.
    - cbn [loop]. eapply behaves_bind; [by apply (Hstep pre a post)|]. intros [x|b'] s' Hr Hm; [by apply behaves_ret|].
      apply (IH (pre ++ [a])); [|done]. by rewrite <- app_assoc. }
  intros b s Hi. by apply (H l []).
Qed.

Lemma set_bit_index_ok e i : ebitmap_wf e → i ∈ ebitmap_set_bits e → bit_ok i.
Proof.
  intros He Hi%elem_of_set_bits; [|done]. apply get_bit_range in Hi; [|done].
  pose proof (ebitmap_length_bound e He). unfold bit_ok. lia.
Qed.

Lemma behaves_set_bit e bit s : ebitmap_wf e → bit_ok bit →
  behaves (set_bit e bit true) s (λ r s', s'.1 = s.1 ∧
    ((r.1 = 0 ∧ ebitmap_wf r.2 ∧ ∀ j, ebitmap_get_bit r.2 j = true ↔ j = bit ∨ ebitmap_get_bit e j = true) ∨
     (r.1 ≠ 0 ∧ ¬ plenty s.2))).
Proof.
  intros He Hb. unfold behaves, set_bit, with_mem.
  pose proof (ebitmap_set_bit_correct e bit true s.2 He ltac:(unfold bit_ok in Hb; lia)) as Hc.
  destruct (ebitmap_set_bit e bit true s.2) as [[rc e'] m']. destruct Hc as [Hp Hc]. cbn [fst snd].
  split; [intros H; by apply Hp|]. split; [done|]. destruct Hc as [(->&_&Hw&Hg)|[(_&_&?)|(->&_&_)]]; [left|done|right].
  - split; [done|]. split; [done|]. intros j. rewrite Hg. destruct (Z.eqb_spec j bit); intuition congruence.
  - split; [done|]. intros H. destruct (Hp H) as [_ Hrc]. by specialize (Hrc Hb).
Qed.

Lemma behaves_union d e s : ebitmap_wf d → ebitmap_wf e →
  behaves (union d e) s (λ r s', s'.1 = s.1 ∧
    ((r.1 = 0 ∧ ebitmap_wf r.2 ∧ ∀ j, ebitmap_get_bit r.2 j = true ↔ ebitmap_get_bit d j = true ∨ ebitmap_get_bit e j = true) ∨
     (r.1 ≠ 0 ∧ ¬ plenty s.2))).
Proof.
  intros Hd He. unfold behaves, union, with_mem. pose proof (ebitmap_union_correct d e s.2 Hd He) as Hc.
  destruct (ebitmap_union d e s.2) as [[rc e'] m']. destruct Hc as [Hp Hc]. cbn [fst snd].
  split; [intros H; by apply Hp|]. split; [done|]. destruct Hc as [(->&Hw&Hg)|(->&_)]; [left|right].
  - split; [done|]. split; [done|]. intros j. rewrite Hg. apply orb_true_iff.
  - split; [done|]. intros H. by destruct (Hp H).
Qed.

Lemma behaves_cpy e s :
  behaves (cpy e) s (λ r s', s'.1 = s.1 ∧ ((r.1 = 0 ∧ r.2 = e) ∨ (r.1 ≠ 0 ∧ ¬ plenty s.2))).
Proof.
  unfold behaves, cpy, with_mem. pose proof (ebitmap_cpy_correct e s.2) as [Hp Hc].
  destruct (ebitmap_cpy e s.2) as [[rc e'] m']. cbn [fst snd] in *. split; [done|]. split; [done|].
  destruct Hc as [[= -> ->]|[? [= -> ->]]]; [by left|by right].
Qed.

Lemma behaves_copy_step i t s : ebitmap_wf t → bit_ok i →
  behaves (expand_copy_step ebitmap_init i t) s (λ r s', s'.1 = s.1 ∧
    match r with
    | inl _ => ¬ plenty s.2
    | inr t' => ebitmap_wf t' ∧ ∀ j, ebitmap_get_bit t' j = true ↔ ebitmap_get_bit t j = true ∨ j = i
    end).
Proof.
  intros Ht Hi. unfold expand_copy_step. rewrite get_bit_init.
  eapply behaves_bind; [by apply behaves_set_bit|]. intros [rc e'] s' [E1 Hr] Hm. cbn [fst snd] in Hr. apply behaves_ret.
  split; [done|]. destruct Hr as [(->&Hw&Hg)|[Hrc Hnm]]; [|by apply Z.eqb_neq in Hrc as ->]. cbn [Z.eqb negb].
  split; [done|]. intros j. rewrite Hg. tauto.
Qed.

(** Copying the bits of [e] one by one, as [type_set_expand] and
    [role_set_expand] do. *)
Lemma behaves_bits_copied (step : Z → ebitmap → M st (ebitmap + ebitmap)) e s :
  ebitmap_wf e →
  (∀ i t s, ebitmap_wf t → bit_ok i → behaves (step i t) s (λ r s', s'.1 = s.1 ∧
    match r with
    | inl _ => ¬ plenty s.2
    | inr t' => ebitmap_wf t' ∧ ∀ j, ebitmap_get_bit t' j = true ↔ ebitmap_get_bit t j = true ∨ j = i
    end)) →
  behaves (loop step (ebitmap_set_bits e) ebitmap_init) s (λ r s', s'.1 = s.1 ∧
    match r with inl _ => ¬ plenty s.2 | inr t => t = e end).
Proof.
  intros He Hstep. eapply behaves_mono.
  { apply (behaves_loop _ (ebitmap_set_bits e)
      (λ pre t s', s'.1 = s.1 ∧ (plenty s.2 → plenty s'.2) ∧ ebitmap_wf t ∧ ∀ j, ebitmap_get_bit t j = true ↔ j ∈ pre)
      (λ _ s', s'.1 = s.1 ∧ ¬ plenty s.2)).
    - intros pre a post t s' El (E'&Hm'&Hw&Hg). assert (Ha : a ∈ ebitmap_set_bits e) by (rewrite El; apply elem_of_app; right; by left).
      eapply behaves_mono; [apply Hstep; [done|exact (set_bit_index_ok e a He Ha)]|].
      intros [x|t'] s'' [E'' H] Hm''; [split; [congruence|auto]|].
      destruct H as [Hw' Hg']. split; [congruence|]. split; [auto|]. split; [done|]. intros j.
      rewrite Hg', Hg, elem_of_app, list_elem_of_singleton. done.
    - split; [done|]. split; [done|]. split; [apply ebitmap_wf_init|]. intros j. rewrite get_bit_init. split; [done|by intros ?%elem_of_nil]. }
  intros [x|t] s' H _; [done|]. destruct H as (E'&_&Hw&Hg). split; [done|].
  apply ebitmap_ext; [done..|]. intros j. specialize (Hg j). rewrite elem_of_set_bits in Hg by done.
  destruct (ebitmap_get_bit t j), (ebitmap_get_bit e j); intuition congruence.
Qed.

(** ** Expansion of type sets and role sets

    The sets of a kernel policy: no exclusions, no flags. *)

(** Type [i] of a set contributes type [j]: itself, or one of its types. *)
Definition contributes (p : policydb) (i j : Z) : Prop :=
  ∃ q d, at_index (type_val_to_struct p) i = Some (Some q) ∧ at_index (type_mem p) q = Some d ∧
         if flavor d =? TYPE_ATTRIB then ebitmap_get_bit (t_types d) j = true else j = i.

Definition type_known (p : policydb) (i : Z) : Prop :=
  i < nprim (p_types p) ∧ ∃ q, at_index (type_val_to_struct p) i = Some (Some q).

Definition expansion (p : policydb) (ty e : ebitmap) : Prop :=
  ebitmap_wf e ∧ ∀ j, ebitmap_get_bit e j = true ↔ ∃ i, ebitmap_get_bit ty i = true ∧ contributes p i j.

(** The arrays of types are as long as they should be, and their pointers valid. *)
Record types_indexed (p : policydb) : Prop := {
  ti_length : Z.of_nat (length (type_val_to_struct p)) = nprim (p_types p);
  ti_object i q : at_index (type_val_to_struct p) i = Some (Some q) → is_Some (at_index (type_mem p) q);
  ti_types q d : at_index (type_mem p) q = Some d → ebitmap_wf (t_types d)
}.

Section expand.
Context (p : policydb) (Hix : types_indexed p).

Lemma behaves_types_step i tys s : s.1 = p → ebitmap_wf tys → bit_ok i →
  behaves (expand_types_step true i tys) s (λ r s', s'.1 = p ∧
    match r with
    | inl _ => ¬ plenty s.2 ∨ ¬ type_known p i
    | inr tys' => ebitmap_wf tys' ∧ type_known p i ∧
        ∀ j, ebitmap_get_bit tys' j = true ↔ ebitmap_get_bit tys j = true ∨ contributes p i j
    end).
Proof.
  intros Es Ht Hi. unfold expand_types_step. apply behaves_get. rewrite Es.
  destruct (Z.leb_spec (nprim (p_types p)) i) as [Hn|Hn].
  { apply behaves_ret. split; [done|]. right. intros [? _]. lia. }
  destruct (at_index_in (type_val_to_struct p) i) as [o Eo]; [rewrite (ti_length _ Hix); unfold bit_ok in Hi; lia|].
  eapply behaves_step; [apply elem_eq; rewrite Es; exact Eo|done|].
  destruct o as [q|]; [|apply behaves_ret; split; [done|right; intros (_&q&Eq); congruence]].
  destruct (ti_object _ Hix _ _ Eo) as [d Ed]. eapply behaves_step; [apply load_eq; rewrite Es; exact Ed|done|].
  assert (Hkn : type_known p i) by (split; [done|by exists q]).
  assert (Hco : ∀ j, contributes p i j ↔ if flavor d =? TYPE_ATTRIB then ebitmap_get_bit (t_types d) j = true else j = i).
  { intros j. split; [|intros H; exists q, d; done]. intros (q'&d'&E1&E2&H). rewrite Eo in E1. injection E1 as <-.
    rewrite Ed in E2. by injection E2 as <-. }
  destruct (flavor d =? TYPE_ATTRIB) eqn:Ef; cbn [andb orb].
  - eapply behaves_bind; [apply behaves_union; [done|by eapply (ti_types _ Hix)]|].
    intros [rc e'] s' [E1 Hr] Hm. cbn [fst snd] in Hr. apply behaves_ret. split; [congruence|].
    destruct Hr as [(->&Hw&Hg)|[Hrc Hnm]]; [|by apply Z.eqb_neq in Hrc as ->; left]. cbn [Z.eqb negb].
    split; [done|]. split; [done|]. intros j. by rewrite Hg, Hco.
  - eapply behaves_bind; [by apply behaves_set_bit|].
    intros [rc e'] s' [E1 Hr] Hm. cbn [fst snd] in Hr. apply behaves_ret. split; [congruence|].
    destruct Hr as [(->&Hw&Hg)|[Hrc Hnm]]; [|by apply Z.eqb_neq in Hrc as ->; left]. cbn [Z.eqb negb].
    split; [done|]. split; [done|]. intros j. rewrite Hg, Hco. tauto.
Qed.

(** [type_set_expand] on the types of a role. *)
Lemma behaves_type_set_expand ty s : s.1 = p → ebitmap_wf ty →
  behaves (type_set_expand (TS ty ebitmap_init 0) true) s (λ r s', s'.1 = p ∧
    ((r.1 = 0 ∧ expansion p ty r.2 ∧ ∀ i, ebitmap_get_bit ty i = true → type_known p i) ∨
     (r.1 ≠ 0 ∧ (¬ plenty s.2 ∨ ∃ i, ebitmap_get_bit ty i = true ∧ ¬ type_known p i)))).
Proof.
  intros Es Ht. unfold type_set_expand. cbn [types negset ts_flags orb].
  eapply behaves_bind.
  { apply (behaves_loop _ (ebitmap_set_bits ty)
      (λ pre tys s', s'.1 = p ∧ (plenty s.2 → plenty s'.2) ∧ ebitmap_wf tys ∧ Forall (type_known p) pre ∧
         ∀ j, ebitmap_get_bit tys j = true ↔ ∃ i, i ∈ pre ∧ contributes p i j)
      (λ _ s', s'.1 = p ∧ (¬ plenty s.2 ∨ ∃ i, ebitmap_get_bit ty i = true ∧ ¬ type_known p i))).
    - intros pre a post tys s' El (E'&Hm'&Hw&Hk&Hg). assert (Ha : a ∈ ebitmap_set_bits ty) by (rewrite El; apply elem_of_app; right; by left).
      eapply behaves_mono; [apply behaves_types_step; [done|done|exact (set_bit_index_ok ty a Ht Ha)]|]. 
      intros [x|tys'] s'' [E'' H] Hm''.
      + split; [done|]. destruct H as [H|H]; [left; auto|right]. exists a. split; [by apply (elem_of_set_bits ty a Ht)|done].
      + destruct H as (Hw'&Hka&Hg'). split; [done|]. split; [auto|]. split; [done|].
        split; [apply Forall_app; split; [done|by constructor]|]. intros j. rewrite Hg', Hg. setoid_rewrite elem_of_app.
        setoid_rewrite list_elem_of_singleton. split; [intros [(i&?&?)|?]; [exists i; auto|exists a; auto]|].
        intros (i&[?| ->]&?); [left; by exists i|by right].
    - split; [done|]. split; [done|]. split; [apply ebitmap_wf_init|]. split; [constructor|]. intros j.
      rewrite get_bit_init. split; [done|]. by intros (i&?%elem_of_nil&_). }
  intros [x|tys] s1 H Hm1; [destruct H as [E1 H]; apply behaves_ret; split; [done|]; right; by split|].
  destruct H as (E1&Hm1'&Hw&Hk&Hg).
  eapply behaves_step; [reflexivity|done|]. apply behaves_get. cbn [has_bits Z.land Z.eqb negb].
  change (has_bits 0 TYPE_STAR) with false. change (has_bits 0 TYPE_COMP) with false. cbn iota.
  eapply behaves_bind; [apply behaves_bits_copied; [done|apply behaves_copy_step]|]. intros [x|t] s2 [E2 H] Hm2; apply behaves_ret; (split; [congruence|]).
  - right. split; [done|]. left. auto.
  - left. split; [done|]. subst t. cbn [fst snd]. split.
    + split; [done|]. intros j. rewrite Hg. by setoid_rewrite elem_of_set_bits.
    + rewrite Forall_forall in Hk. intros i Hi. apply Hk. by apply elem_of_set_bits.
Qed.
End expand.

(** ** The caches *)

Lemma behaves_map_chain {K D} (fn : K → D → M st Z) (l : list (K * D)) (I : list (K * D) → st → Prop) (F : st → Prop) :
  (∀ pre x post s, l = pre ++ x :: post → I pre s →
     behaves (fn x.1 x.2) s (λ rc s', (rc = 0 ∧ I (pre ++ [x]) s') ∨ (rc ≠ 0 ∧ F s'))) →
  ∀ s, I [] s → behaves (map_chain fn l) s (λ rc s', (rc = 0 ∧ I l s') ∨ (rc ≠ 0 ∧ F s')).
Proof.
  intros Hstep.
  assert (H : ∀ post pre s, l = pre ++ post → I pre s →
     behaves (map_chain fn post) s (λ rc s', (rc = 0 ∧ I l s') ∨ (rc ≠ 0 ∧ F s'))).
  { induction post as [|x post IH]; intros pre s El Hi.
    - apply behaves_ret. left. by rewrite El, app_nil_r.
    - destruct x as [key d]. cbn [map_chain]. eapply behaves_bind; [by apply (Hstep pre (key, d) post)|].
      intros rc s' [[-> Hr]|[Hrc Hr]] _.
      + apply (IH (pre ++ [(key, d)])); [|done]. by rewrite <- app_assoc.
      + pose proof Hrc as Hrc'. apply Z.eqb_neq in Hrc' as ->. apply behaves_ret. right. by split. }
  intros s Hi. by apply (H l []).
Qed.

(** The sets of a role of a kernel policy. *)
Definition role_plain (d : role_datum) : Prop := r_types d = TS (types (r_types d)) ebitmap_init 0 ∧ ebitmap_wf (types (r_types d)).

Definition role_types_known (p : policydb) (d : role_datum) : Prop :=
  ∀ i, ebitmap_get_bit (types (r_types d)) i = true → type_known p i.

(** The role objects with the caches of those in [qs] computed. *)
Definition roles_cached (p : policydb) (qs : list ptr) (rm : list role_datum) : Prop :=
  length rm = length (role_mem p) ∧
  ∀ q d, at_index (role_mem p) q = Some d → ∃ c, at_index rm q = Some (set_r_cache c d) ∧
    (if bool_decide (q ∈ qs) then expansion p (types (r_types d)) c ∧ role_types_known p d else c = r_cache d).

Lemma set_role_mem_same p : set_role_mem (role_mem p) p = p.
Proof. by destruct p. Qed.

Lemma at_index_set {A} (l : list A) i j (a : A) : is_Some (at_index l i) →
  at_index (set_index l i a) j = if bool_decide (i = j) then Some a else at_index l j.
Proof.
  intros [x Hx]. apply at_index_Some in Hx. case_bool_decide as E; [subst; by apply at_set_index_eq|].
  apply at_set_index_ne; [lia|done].
Qed.

Lemma behaves_role_cache p x qs rm s :
  types_indexed p → roles_cached p qs rm → s.1 = set_role_mem rm p →
  (∃ d, at_index (role_mem p) x.2 = Some d ∧ role_plain d) →
  behaves (policydb_role_cache x.1 x.2) s (λ rc s',
    (rc = 0 ∧ ∃ rm', s'.1 = set_role_mem rm' p ∧ roles_cached p (qs ++ [x.2]) rm') ∨
    (rc ≠ 0 ∧ (¬ plenty s.2 ∨ ∃ d, at_index (role_mem p) x.2 = Some d ∧ ¬ role_types_known p d))).
Proof.
  intros Hix [Hlen Hrm] Es (d&Ed&[Ety Hty]). destruct (Hrm _ _ Ed) as (c0&Ec&Hc0).
  unfold policydb_role_cache. eapply behaves_step; [apply load_eq; rewrite Es; exact Ec|done|].
  eapply behaves_bind.
  { cbn [set_r_cache r_types]. rewrite Ety. apply (behaves_type_set_expand (set_role_mem rm p)); [|done|done].
    destruct Hix as [H1 H2 H3]. by split. }
  intros [rc c] [p1 m1] [E1 H] Hm1. cbn [fst snd] in *. subst p1.
  eapply behaves_step; [apply write_eq; cbn; by eexists|done|].
  apply behaves_ret. cbn [fst snd] in *. destruct H as [(->&Hexp&Hk)|[Hrc H]].
  - left. split; [done|]. eexists. split; [reflexivity|]. cbn [set_role_mem role_mem].
    split; [by rewrite length_set_index|]. intros q d' Hq. rewrite at_index_set by by eexists.
    destruct (bool_decide_reflect (x.2 = q)) as [Eq|Eq].
    + subst q. rewrite Ed in Hq. injection Hq as <-. exists c. split; [done|].
      rewrite bool_decide_true by (apply elem_of_app; right; by left). split; [exact Hexp|exact Hk].
    + destruct (Hrm _ _ Hq) as (c'&Ec'&Hc'). exists c'. split; [done|].
      assert (bool_decide (q ∈ qs ++ [x.2]) = bool_decide (q ∈ qs)) as ->; [|done].
      apply bool_decide_ext. rewrite elem_of_app, list_elem_of_singleton. intuition congruence.
  - right. apply Z.eqb_neq in Hrc as ->. split; [done|]. destruct H as [H|(i&Hi&Hn)]; [by left|right].
    exists d. split; [done|]. intros H. apply Hn. by apply H.
Qed.

(** The role cache of a policy. *)
Lemma behaves_role_caches p m :
  types_indexed p → hashtab_wf (table (p_roles p)) →
  Forall (λ x, ∃ d, at_index (role_mem p) x.2 = Some d ∧ role_plain d) (table_entries (table (p_roles p))) →
  behaves (hashtab_map (table (p_roles p)) policydb_role_cache) (p, m) (λ rc s',
    (rc = 0 ∧ ∃ rm, s'.1 = set_role_mem rm p ∧ roles_cached p (snd <$> table_entries (table (p_roles p))) rm) ∨
    (rc ≠ 0 ∧ (¬ plenty m ∨ ∃ x d, x ∈ table_entries (table (p_roles p)) ∧ at_index (role_mem p) x.2 = Some d ∧
                 ¬ role_types_known p d))).
Proof.
  intros Hix Hw Hl. apply behaves_hashtab_map; [done|].
  set (l := table_entries (table (p_roles p))) in *.
  eapply behaves_mono.
  { apply (behaves_map_chain _ l
      (λ pre s', (plenty m → plenty s'.2) ∧ ∃ rm, s'.1 = set_role_mem rm p ∧ roles_cached p (snd <$> pre) rm)
      (λ _, ¬ plenty m ∨ ∃ x d, x ∈ l ∧ at_index (role_mem p) x.2 = Some d ∧ ¬ role_types_known p d)).
    - intros pre x post s El (Hm&rm&Es&Hc). rewrite Forall_forall in Hl.
      assert (Hx : x ∈ l) by (rewrite El; apply elem_of_app; right; by left).
      eapply behaves_mono; [by apply (behaves_role_cache p x (snd <$> pre) rm); auto|].
      intros rc s' [[-> (rm'&Es'&Hc')]|[Hrc H]] Hm'; [left|right].
      + split; [done|]. split; [auto|]. exists rm'. split; [done|]. by rewrite fmap_app.
      + split; [done|]. destruct H as [H|(d&Hd&Hn)]; [left; auto|right; by exists x, d].
    - split; [done|]. exists (role_mem p). split; [by rewrite set_role_mem_same|]. split; [done|]. intros q d Hq.
      exists (r_cache d). split; [rewrite Hq; by destruct d|]. rewrite bool_decide_false by apply not_elem_of_nil. done. }
  intros rc s' [[-> (_&H)]|H] _; [by left|by right].
Qed.

(** The roles of a user of a kernel policy. *)
Definition user_plain (d : user_datum) : Prop := rs_flags (u_roles d) = 0 ∧ ebitmap_wf (rs_roles (u_roles d)).

Lemma behaves_role_copy_step i t s : ebitmap_wf t → bit_ok i →
  behaves (role_copy_step i t) s (λ r s', s'.1 = s.1 ∧
    match r with
    | inl _ => ¬ plenty s.2
    | inr t' => ebitmap_wf t' ∧ ∀ j, ebitmap_get_bit t' j = true ↔ ebitmap_get_bit t j = true ∨ j = i
    end).
Proof.
  intros Ht Hi. eapply behaves_bind; [by apply behaves_set_bit|].
  intros [rc e'] s' [E1 Hr] Hm. cbn [fst snd] in Hr. apply behaves_ret.
  split; [done|]. destruct Hr as [(->&Hw&Hg)|[Hrc Hnm]]; [|by apply Z.eqb_neq in Hrc as ->]. cbn [Z.eqb negb].
  split; [done|]. intros j. rewrite Hg. tauto.
Qed.

Lemma behaves_role_set_expand r s : ebitmap_wf r →
  behaves (role_set_expand (RS r 0)) s (λ x s', s'.1 = s.1 ∧ ((x.1 = 0 ∧ x.2 = r) ∨ (x.1 ≠ 0 ∧ ¬ plenty s.2))).
Proof.
  intros Hr. unfold role_set_expand. cbn [rs_flags rs_roles].
  change (has_bits 0 ROLE_STAR) with false. change (has_bits 0 ROLE_COMP) with false. cbn iota.
  eapply behaves_bind; [apply behaves_cpy|]. intros [rc c] s1 [E1 [[Erc Ec]|[Hrc Hnm]]] Hm1; cbn [fst snd] in *.
  2:{ pose proof Hrc as Hrc'. apply Z.eqb_neq in Hrc' as ->. apply behaves_ret. split; [done|]. by right. }
  subst rc c. cbn [Z.eqb negb]. eapply behaves_bind; [apply behaves_bits_copied; [done|apply behaves_role_copy_step]|].
  intros [x|t] s2 [E2 H] Hm2; apply behaves_ret; (split; [congruence|]).
  - right. split; [done|auto].
  - by left.
Qed.

Definition set_u_cache (c : ebitmap) (d : user_datum) : user_datum :=
  UD (u_value d) (u_roles d) (u_range d) (dfltlevel d) c (exp_range d) (exp_dfltlevel d) (u_bounds d).

(** The user objects with the caches of those in [qs] computed. *)
Definition users_cached (p : policydb) (qs : list ptr) (um : list user_datum) : Prop :=
  length um = length (user_mem p) ∧
  ∀ q d, at_index (user_mem p) q = Some d →
    at_index um q = Some (set_u_cache (if bool_decide (q ∈ qs) then rs_roles (u_roles d) else u_cache d) d).

Lemma set_user_mem_same p : set_user_mem (user_mem p) p = p.
Proof. by destruct p. Qed.

Lemma bool_decide_snoc {A} `{EqDecision A} (x y : A) l : x ≠ y → bool_decide (x ∈ l ++ [y]) = bool_decide (x ∈ l).
Proof. intros H. apply bool_decide_ext. rewrite elem_of_app, list_elem_of_singleton. intuition congruence. Qed.

Lemma behaves_user_cache p x qs um s :
  policy_type p = POLICY_KERN → users_cached p qs um → s.1 = set_user_mem um p →
  (∃ d, at_index (user_mem p) x.2 = Some d ∧ user_plain d) →
  behaves (policydb_user_cache x.1 x.2) s (λ rc s',
    (rc = 0 ∧ ∃ um', s'.1 = set_user_mem um' p ∧ users_cached p (qs ++ [x.2]) um') ∨ (rc ≠ 0 ∧ ¬ plenty s.2)).
Proof.
  intros Hk [Hlen Hum] Es (d&Ed&[Efl Hr]). pose proof (Hum _ _ Ed) as Ec.
  unfold policydb_user_cache. eapply behaves_step; [apply load_eq; rewrite Es; exact Ec|done|].
  cbn [set_u_cache u_roles u_value u_range dfltlevel exp_range exp_dfltlevel u_bounds].
  assert (Ers : u_roles d = RS (rs_roles (u_roles d)) 0) by (destruct (u_roles d); cbn in *; by subst).
  eapply behaves_bind; [rewrite Ers; by apply behaves_role_set_expand|].
  intros [rc c] [p1 m1] [E1 H] Hm1. cbn [fst snd] in *. rewrite Es in E1. subst p1.
  eapply behaves_step; [apply write_eq; cbn; by eexists|done|]. cbn [fst snd].
  destruct H as [[-> Ec']|[Hrc H]].
  - cbn [Z.eqb negb]. apply behaves_get. cbn [fst set_user_mem policy_type]. rewrite Hk. cbn [Z.eqb POLICY_KERN negb andb].
    apply behaves_ret. left. split; [done|]. eexists. split; [reflexivity|]. cbn [set_user_mem user_mem].
    split; [by rewrite length_set_index|]. intros q d' Hq. rewrite at_index_set by by eexists.
    destruct (bool_decide_reflect (x.2 = q)) as [Eq|Eq].
    + subst q. rewrite Ed in Hq. injection Hq as <-. rewrite bool_decide_true by (apply elem_of_app; right; by left).
      unfold set_u_cache. cbn. by rewrite Ec'.
    + rewrite bool_decide_snoc by congruence. by apply Hum.
  - apply Z.eqb_neq in Hrc as ->. apply behaves_ret. right. by split.
Qed.

Lemma behaves_user_caches p m :
  policy_type p = POLICY_KERN → hashtab_wf (table (p_users p)) →
  Forall (λ x, ∃ d, at_index (user_mem p) x.2 = Some d ∧ user_plain d) (table_entries (table (p_users p))) →
  behaves (hashtab_map (table (p_users p)) policydb_user_cache) (p, m) (λ rc s',
    (rc = 0 ∧ ∃ um, s'.1 = set_user_mem um p ∧ users_cached p (snd <$> table_entries (table (p_users p))) um) ∨
    (rc ≠ 0 ∧ ¬ plenty m)).
Proof.
  intros Hk Hw Hl. apply behaves_hashtab_map; [done|].
  set (l := table_entries (table (p_users p))) in *. eapply behaves_mono.
  { apply (behaves_map_chain _ l
      (λ pre s', (plenty m → plenty s'.2) ∧ ∃ um, s'.1 = set_user_mem um p ∧ users_cached p (snd <$> pre) um) (λ _, ¬ plenty m)).
    - intros pre x post s El (Hm&um&Es&Hc). rewrite Forall_forall in Hl.
      assert (Hx : x ∈ l) by (rewrite El; apply elem_of_app; right; by left).
      eapply behaves_mono; [by apply (behaves_user_cache p x (snd <$> pre) um); auto|].
      intros rc s' [[-> (um'&Es'&Hc')]|[Hrc H]] Hm'; [left|right; auto].
      split; [done|]. split; [auto|]. exists um'. split; [done|]. by rewrite fmap_app.
    - split; [done|]. exists (user_mem p). split; [by rewrite set_user_mem_same|]. split; [done|]. intros q d Hq.
      rewrite bool_decide_false by apply not_elem_of_nil. rewrite Hq. by destruct d. }
  intros rc s' [[-> (_&H)]|H] _; [by left|by right].
Qed.
