(* ===== verification/Reindex.v ===== *)
(** * Indexing a policy (libsepol/src/policydb.c)

    [policydb_index_decls], [policydb_index_classes] and
    [policydb_index_others] on a kernel policy: with memory available they
    succeed exactly when the values of every symbol table are in range and
    distinct and the roles have declared types; and what they leave. *)

From S2P Require Import Prelude Ebitmap Hashtab SymtabFile Avtab Context Policydb Expand Indexes.

Definition class_kind : kind class_datum :=
  KIND class_mem (λ d, Some (c_value d)) p_classes SYM_CLASSES class_val_to_struct set_class_val_to_struct.
Definition role_kind : kind role_datum :=
  KIND role_mem (λ d, Some (r_value d)) p_roles SYM_ROLES role_val_to_struct set_role_val_to_struct.
(** Aliases are not indexed. *)
Definition type_kind : kind type_datum :=
  KIND type_mem (λ d, if negb (primary d =? 0) then Some (t_value d) else None) p_types SYM_TYPES
    type_val_to_struct set_type_val_to_struct.
Definition user_kind : kind user_datum :=
  KIND user_mem (λ d, Some (u_value d)) p_users SYM_USERS user_val_to_struct set_user_val_to_struct.
Definition bool_kind : kind cond_bool_datum :=
  KIND bool_mem (λ d, Some (b_value d)) p_bools SYM_BOOLS bool_val_to_struct set_bool_val_to_struct.

Lemma class_laws : kind_laws class_kind. Proof. by split. Qed.
Lemma role_laws : kind_laws role_kind. Proof. by split. Qed.
Lemma type_laws : kind_laws type_kind. Proof. by split. Qed.
Lemma user_laws : kind_laws user_kind. Proof. by split. Qed.
Lemma bool_laws : kind_laws bool_kind. Proof. by split. Qed.

(** The values of the symbols that are in their tables. *)
Definition common_value (d : common_datum) : option Z := Some (cm_value d).
Definition level_value (d : level_datum) : option Z :=
  if l_isalias d =? 0 then Some (match level d with Some l => sens l | None => 0 end) else None.
Definition cat_value (d : cat_datum) : option Z := if ct_isalias d =? 0 then Some (ct_value d) else None.

Lemma type_index_fn key q s : type_index key q s = index_fn type_kind key q s.
Proof.
  unfold type_index, index_fn, mbind, M_bind. cbn [k_store type_kind]. destruct (load type_mem q s) as [[d s']| |]; [|done..].
  cbn [k_value type_kind]. by destruct (primary d =? 0).
Qed.

Lemma map_chain_ext {S K D} (f g : K → D → M S Z) l : (∀ k d s, f k d s = g k d s) → ∀ s, map_chain f l s = map_chain g l s.
Proof.
  intros E. induction l as [|[k d] l IH]; intros s; [done|]. cbn [map_chain]. unfold mbind, M_bind. cbn [fst snd]. rewrite E.
  destruct (g k d s) as [[rc s']| |]; [|done..]. destruct (negb (rc =? 0)); [done|apply IH].
Qed.

Lemma hashtab_map_ext {S D} (f g : string → D → M S Z) h s :
  hashtab_wf h → (∀ k d s, f k d s = g k d s) → hashtab_map h f s = hashtab_map h g s.
Proof. intros Hw E. rewrite !hashtab_map_entries by done. by apply map_chain_ext. Qed.

(** ** A policy before its indexes are built *)

Definition entries_of (t : symtab ptr) : list (string * ptr) := table_entries (table t).

Definition in_store {A} (store : list A) (P : A → Prop) (t : symtab ptr) : Prop :=
  Forall (λ x, ∃ d, at_index store x.2 = Some d ∧ P d) (entries_of t).

Record tables_loaded (p : policydb) : Prop := {
  tl_kern : policy_type p = POLICY_KERN;
  tl_names : Z.of_nat (length (sym_val_to_name p)) = SYM_NUM;
  tl_decls : decls_of (global p) = [(0, 0, 1)];
  tl_commons : hashtab_wf (table (p_commons p)) ∧ 0 <= nprim (p_commons p);
  tl_classes : hashtab_wf (table (p_classes p)) ∧ 0 <= nprim (p_classes p);
  tl_roles : hashtab_wf (table (p_roles p)) ∧ 0 <= nprim (p_roles p);
  tl_types : hashtab_wf (table (p_types p)) ∧ 0 <= nprim (p_types p);
  tl_users : hashtab_wf (table (p_users p)) ∧ 0 <= nprim (p_users p);
  tl_bools : hashtab_wf (table (p_bools p)) ∧ 0 <= nprim (p_bools p);
  tl_levels : hashtab_wf (table (p_levels p)) ∧ 0 <= nprim (p_levels p);
  tl_cats : hashtab_wf (table (p_cats p)) ∧ 0 <= nprim (p_cats p);
  tl_common : Forall (λ x, 0 <= cm_value x.2) (table_entries (table (p_commons p)));
  tl_class : in_store (class_mem p) (λ _, True) (p_classes p);
  tl_role : in_store (role_mem p) role_plain (p_roles p);
  tl_type : in_store (type_mem p) (λ _, True) (p_types p);
  tl_user : in_store (user_mem p) user_plain (p_users p);
  tl_bool : in_store (bool_mem p) (λ _, True) (p_bools p);
  tl_level : Forall (λ x, ∃ l, level x.2 = Some l ∧ 0 <= sens l) (table_entries (table (p_levels p)));
  tl_cat : Forall (λ x, 0 <= ct_value x.2) (table_entries (table (p_cats p)));
  tl_cpos : Forall (λ d, 0 <= c_value d) (class_mem p);
  tl_rpos : Forall (λ d, 0 <= r_value d) (role_mem p);
  tl_tpos : Forall (λ d, 0 <= t_value d ∧ ebitmap_wf (t_types d)) (type_mem p);
  tl_upos : Forall (λ d, 0 <= u_value d) (user_mem p);
  tl_bpos : Forall (λ d, 0 <= b_value d) (bool_mem p)
}.

(** ** The three functions *)

(** The branch of a failed allocation. *)
Ltac no_memory :=
  apply behaves_ret; right; split; [done|left; intros ?;
    match goal with Hn : ¬ plenty _ |- _ => apply Hn; auto end].

Lemma behaves_index_decls p m : decls_of (global p) = [(0, 0, 1)] →
  behaves policydb_index_decls (p, m) (λ rc s',
    (rc = 0 ∧ s'.1 = set_decl_val_to_struct [Some (0, 0)] p) ∨ (rc ≠ 0 ∧ ¬ plenty m)).
Proof.
  intros Hd. unfold policydb_index_decls. apply behaves_get. cbn [fst]. rewrite Hd.
  eapply behaves_bind; [apply behaves_alloc|]. intros ok [p1 m1] [E Hok] _. cbn [fst snd] in *. subst p1.
  eapply behaves_step; [reflexivity|done|]. destruct ok; cbn [negb].
  - unfold behaves. cbn. split; [done|by left].
  - apply behaves_ret. right. split; [done|auto].
Qed.

Lemma names_some p sym : Z.of_nat (length (sym_val_to_name p)) = SYM_NUM → 0 <= sym < SYM_NUM →
  is_Some (at_index (sym_val_to_name p) sym).
Proof. intros H Hs. destruct (at_index_in (sym_val_to_name p) sym) as [a Ea]; [lia|]. by eexists. Qed.

Lemma put_names_length {A} sym (slots : list (option (string * A))) p :
  length (sym_val_to_name (put_names sym slots p)) = length (sym_val_to_name p).
Proof. apply length_set_index. Qed.

(** What is needed of one kind, stable under changes of other fields. *)
Record kind_ready {A} (k : kind A) (p : policydb) : Prop := {
  kr_pos : values_pos k p;
  kr_wf : hashtab_wf (table (k_tab k p));
  kr_np : 0 <= nprim (k_tab k p);
  kr_objects : Forall (λ x, is_Some (at_index (k_store k p) x.2)) (table_entries (table (k_tab k p)))
}.

Lemma kind_ready_ext {A} (k : kind A) p q :
  kind_ready k p → k_store k q = k_store k p → k_tab k q = k_tab k p → kind_ready k q.
Proof. intros [R1 R2 R3 R4] Es Et. split; unfold values_pos, value_at in *; by rewrite ?Es, ?Et. Qed.

Lemma kind_is_ready {A} (k : kind A) (P Q : A → Prop) p :
  Forall Q (k_store k p) → (∀ d v, Q d → k_value k d = Some v → 0 <= v) →
  hashtab_wf (table (k_tab k p)) ∧ 0 <= nprim (k_tab k p) → in_store (k_store k p) P (k_tab k p) → kind_ready k p.
Proof.
  intros HQ Hv [Hw Hn] Hs. split; [|done..|].
  - intros q v. unfold value_at. destruct (at_index (k_store k p) q) as [d|] eqn:E; [|done]. apply Hv.
    rewrite Forall_forall in HQ. apply HQ. by eapply at_index_elem.
  - eapply Forall_impl; [exact Hs|]. intros x (d&Hd&_). by eexists.
Qed.

Definition values_good {A} (k : kind A) (p : policydb) : Prop :=
  values_ok (value_at k p) (nprim (k_tab k p)) (table_entries (table (k_tab k p))).
Definition slots_good {A} (k : kind A) (p : policydb) (slots : list (option (string * ptr))) : Prop :=
  filled (value_at k p) (nprim (k_tab k p)) (table_entries (table (k_tab k p))) slots ∧ (nprim (k_tab k p) ≠ 0 → values_good k p).
Definition names_good {A} (value : A → option Z) (t : symtab A) (slots : list (option (string * A))) : Prop :=
  filled value (nprim t) (table_entries (table t)) slots ∧ (nprim t ≠ 0 → values_ok value (nprim t) (table_entries (table t))).

Lemma put_slots_replicate {A} (k : kind A) : kind_laws k → ∀ n p,
  put_names (k_sym k) (replicate n (None : option (string * ptr))) (k_set k (replicate n None) p) = put_slots k (replicate n None) p.
Proof.
  intros HK n p. unfold put_slots, put_names. rewrite datums_replicate, (kl_names _ HK), (kl_comm _ HK). done.
Qed.

Section classes.
Context (p : policydb) (m : mem) (H : tables_loaded p).

Lemma classes_ready : kind_ready class_kind p.
Proof.
  apply (kind_is_ready _ (λ _, True) (λ d, 0 <= c_value d)); [apply (tl_cpos _ H)| |apply (tl_classes _ H)|apply (tl_class _ H)].
  intros d v Hd [= <-]. done.
Qed.

Lemma commons_named q : claims_name SYM_COMMONS (nprim (p_commons q)) common_value common_index
  (table_entries (table (p_commons q))) q.
Proof. apply Forall_true. intros x sl m2. done. Qed.

(** The commons are named, the classes indexed. *)
Lemma behaves_index_classes :
  behaves policydb_index_classes (p, m) (λ rc s',
    (rc = 0 ∧ ∃ sc sk, s'.1 = put_slots class_kind sk (put_names SYM_COMMONS sc p) ∧
       names_good common_value (p_commons p) sc ∧ slots_good class_kind p sk) ∨
    (rc ≠ 0 ∧ (¬ plenty m ∨
       ¬ (values_ok common_value (nprim (p_commons p)) (table_entries (table (p_commons p))) ∧ values_good class_kind p)))).
Proof.
  pose proof (tl_names _ H) as Hn. unfold policydb_index_classes. apply behaves_get. cbn [fst].
  eapply behaves_bind; [by apply (behaves_new_names (A := common_datum)), names_some|].
  intros ok [p1 m1] [[-> E]|[-> Hnm]] Hm1; cbn [negb fst snd] in *; [subst p1|no_memory].
  apply behaves_get. eapply behaves_bind.
  { apply (behaves_fill_names SYM_COMMONS (p_commons p) common_value common_index p m1); [done| |apply (tl_commons _ H)..|by apply names_some|apply commons_named].
    eapply Forall_impl; [apply (tl_common _ H)|]. intros x Hx v [= <-]. done. }
  intros rc [p2 m2] [(->&(sc&E&Hf)&Hv)|[Hrc Hv]] Hm2; cbn [fst snd] in *.
  2:{ apply Z.eqb_neq in Hrc as ->. apply behaves_ret. right. split; [done|]. right. by intros [? _]. }
  subst p2. cbn [Z.eqb negb]. apply behaves_get. cbn [fst].
  eapply behaves_bind; [apply behaves_new_structs|].
  intros ok [p3 m3] [[-> E]|[-> [Hnm _]]] Hm3; cbn [negb fst snd] in *; [subst p3|no_memory].
  eapply behaves_bind; [apply (behaves_new_names (A := ptr)); apply names_some; [|done]; rewrite <- Hn; f_equal; apply (put_names_length SYM_COMMONS)|].
  intros ok [p4 m4] [[-> E]|[-> Hnm]] Hm4; cbn [negb fst snd] in *; [subst p4|no_memory].
  apply behaves_get. cbn [fst]. set (p2 := put_names SYM_COMMONS sc p).
  rewrite (put_slots_replicate class_kind class_laws _ p2 : put_names SYM_CLASSES _ (set_class_val_to_struct _ p2) = _).
  destruct classes_ready as [R1 R2 R3 R4]. eapply behaves_bind.
  { apply (behaves_fill_kind class_kind p2 m4 class_laws R1 R2 R3); [|exact R4].
    apply names_some; [|done]. rewrite <- Hn. f_equal. apply (put_names_length SYM_COMMONS). }
  intros rc [p5 m5] [(->&(sk&E&Hfk)&Hvk)|[Hrc Hvk]] Hm5; cbn [fst snd] in *; apply behaves_ret.
  - left. split; [done|]. exists sc, sk. split; [done|]. split; split; done.
  - right. apply Z.eqb_neq in Hrc as ->. split; [done|]. right. by intros [_ ?].
Qed.
End classes.

(** *** One kind after the other *)

Lemma index_symtab_ext {D} sym (tab : policydb → symtab D) f g s :
  hashtab_wf (table (tab s.1)) → (∀ k d s, f k d s = g k d s) → index_symtab sym tab f s = index_symtab sym tab g s.
Proof.
  intros Hw E. unfold index_symtab, get_p, gets, mbind, M_bind.
  destruct (write _ _ _ _ s) as [[x s1]| |]; [|done..]. destruct (negb (nprim (tab s.1) =? 0)); [|done].
  destruct (new_names _ _ s1) as [[ok s2]| |]; [|done..]. destruct (negb ok); [done|].
  by rewrite (hashtab_map_ext f g).
Qed.

Definition kind_result {A} (k : kind A) (p : policydb) (m : mem) (rc : Z) (s' : st) : Prop :=
  (rc = 0 ∧ ∃ slots, s'.1 = put_slots k slots p ∧ slots_good k p slots) ∨ (rc ≠ 0 ∧ (¬ plenty m ∨ ¬ values_good k p)).

Lemma behaves_symtab_kind {A} (k : kind A) f p m :
  kind_laws k → kind_ready k p → (∀ key q s, f key q s = index_fn k key q s) →
  is_Some (at_index (sym_val_to_name p) (k_sym k)) → k_set k (k_arr k p) p = p →
  k_arr k p = replicate (Z.to_nat (nprim (k_tab k p))) None →
  behaves (index_symtab (k_sym k) (k_tab k) f) (p, m) (kind_result k p m).
Proof.
  intros HK [R1 R2 R3 R4] Ef Hn Hsame Ha. unfold behaves. rewrite (index_symtab_ext _ _ f (index_fn k)) by done.
  fold (behaves (index_symtab (k_sym k) (k_tab k) (index_fn k)) (p, m) (kind_result k p m)).
  eapply behaves_mono; [by apply behaves_index_kind|]. intros rc s' [(->&(slots&E&Hf)&Hv)|[Hrc Hv]] _.
  - left. split; [done|]. by exists slots.
  - right. split; [done|]. destruct Hv as [?|[_ ?]]; [by left|by right].
Qed.

Definition names_result {A} (sym : Z) (t : symtab A) (value : A → option Z) (p : policydb) (m : mem) (rc : Z) (s' : st) : Prop :=
  (rc = 0 ∧ ∃ slots, s'.1 = put_names sym slots p ∧ names_good value t slots) ∨
  (rc ≠ 0 ∧ (¬ plenty m ∨ ¬ values_ok value (nprim t) (table_entries (table t)))).

Lemma behaves_symtab_names {A} (sym : Z) (tab : policydb → symtab A) value fn p m :
  0 <= sym → unsigned value (table_entries (table (tab p))) → hashtab_wf (table (tab p)) ∧ 0 <= nprim (tab p) →
  is_Some (at_index (sym_val_to_name p) sym) → claims_name sym (nprim (tab p)) value fn (table_entries (table (tab p))) p →
  behaves (index_symtab sym tab fn) (p, m) (names_result sym (tab p) value p m).
Proof.
  intros Hs Hu [Hw Hn] Hsome Hc. eapply behaves_mono; [by apply (behaves_index_names sym tab value)|].
  intros rc s' [(->&(slots&E&Hf)&Hv)|[Hrc Hv]] _.
  - left. split; [done|]. by exists slots.
  - right. split; [done|]. destruct Hv as [?|[_ ?]]; [by left|by right].
Qed.

(** [behaves] as long as [G] holds; without it only what is returned counts. *)
Definition behaves_if (G : Prop) {A} (c : M st A) (s : st) (Q : A → st → Prop) : Prop :=
  match c s with
  | Ret (a, s') => (plenty s.2 → plenty s'.2) ∧ Q a s'
  | _ => G → ¬ plenty s.2
  end.

Lemma behaves_if_of G {A} (c : M st A) s Q : behaves c s Q → behaves_if G c s Q.
Proof. unfold behaves, behaves_if. by destruct (c s) as [[? ?]| |]. Qed.

Lemma behaves_if_bind G {A B} (c : M st A) (f : A → M st B) s (P : A → st → Prop) Q :
  behaves_if G c s P → (∀ a s', P a s' → (plenty s.2 → plenty s'.2) → behaves_if G (f a) s' Q) → behaves_if G (c ≫= f) s Q.
Proof.
  unfold behaves_if, mbind, M_bind. destruct (c s) as [[a s']| |]; [|done..]. intros [Hm Hp] Hf.
  specialize (Hf a s' Hp Hm). destruct (f a s') as [[b s'']| |]; [|intros HG ?%Hm; by apply Hf..].
  destruct Hf as [Hm' HQ]. split; [auto|done].
Qed.

Lemma behaves_if_done {A} (c : M st A) s Q : behaves_if (plenty s.2) c s Q → behaves c s Q.
Proof. unfold behaves, behaves_if. destruct (c s) as [[? ?]| |]; [done|intros H H'; by apply H..]. Qed.

Lemma behaves_if_ret G {A} (a : A) s (Q : A → st → Prop) : Q a s → behaves_if G (mret a) s Q.
Proof. done. Qed.

Lemma behaves_if_get G {A B} (g : policydb → A) (f : A → M st B) s Q :
  behaves_if G (f (g s.1)) s Q → behaves_if G (get_p g ≫= f) s Q.
Proof. done. Qed.

Ltac no_memory_if :=
  apply behaves_if_ret; right; split; [done|left; intros ?;
    match goal with Hn : ¬ plenty _ |- _ => apply Hn; auto end].

(** [and_then] with a first step that succeeds or explains its failure. *)
Lemma behaves_and_then G (c1 c2 : M st Z) s (P : st → Prop) (F : Prop) Q :
  behaves_if G c1 s (λ rc s', (rc = 0 ∧ P s') ∨ (rc ≠ 0 ∧ F)) →
  (∀ s', P s' → (plenty s.2 → plenty s'.2) → behaves_if G c2 s' Q) → (∀ rc s', rc ≠ 0 → F → Q rc s') →
  behaves_if G (and_then c1 c2) s Q.
Proof.
  intros H1 H2 HF. eapply behaves_if_bind; [exact H1|]. intros rc s' [[-> HP]|[Hrc HFF]] Hm; [by apply H2|].
  pose proof Hrc as Hrc'. apply Z.eqb_neq in Hrc' as ->. cbn [negb]. split; [done|]. by apply HF.
Qed.

(** The booleans, whose array may be missing when memory has run out
    ([policydb_index_others] does not look at the result of
    [cond_init_bool_indexes]). *)
Definition put_bools (a : list (option ptr)) (b : list (option string)) (p : policydb) : policydb :=
  set_bool_val_to_struct a (set_sym_val_to_name (set_index (sym_val_to_name p) SYM_BOOLS b) p).

(** Steps that only change these two arrays. *)
Definition bools_only {A} (p : policydb) (c : M st A) : Prop :=
  ∀ a b m, match c (put_bools a b p, m) with
    | Ret (_, s') => (plenty m → plenty s'.2) ∧ ∃ a' b', s'.1 = put_bools a' b' p
    | _ => True
    end.

Lemma bools_only_bind {A B} p (c : M st A) (f : A → M st B) : bools_only p c → (∀ x, bools_only p (f x)) → bools_only p (c ≫= f).
Proof.
  intros Hc Hf a b m. specialize (Hc a b m). unfold mbind, M_bind.
  destruct (c _) as [[x [p' m']]| |]; [|done..]. destruct Hc as (Hm&a'&b'&E). cbn in E, Hm. subst p'.
  specialize (Hf x a' b' m'). destruct (f x _) as [[y s']| |]; [|done..]. destruct Hf as [Hm' ?]. auto.
Qed.

(** Steps that leave the policy alone. *)
Definition pure_step {A} (c : M st A) : Prop :=
  ∀ s, match c s with Ret (_, s') => s'.1 = s.1 ∧ (plenty s.2 → plenty s'.2) | _ => True end.

Lemma bools_only_pure {A} p (c : M st A) : pure_step c → bools_only p c.
Proof.
  intros H a b m. specialize (H (put_bools a b p, m)). destruct (c _) as [[x s']| |]; [|done..].
  destruct H as [E Hm]. split; [done|]. eauto.
Qed.
Lemma pure_ret {A} (x : A) : pure_step (mret x). Proof. by intros s. Qed.
Lemma pure_get {A} (g : policydb → A) : pure_step (get_p g). Proof. by intros s. Qed.
Lemma pure_lift {A} (o : outcome A) : pure_step (lift o). Proof. intros s. by destruct o. Qed.
Lemma pure_alloc : pure_step alloc.
Proof. intros s. pose proof (behaves_alloc s) as H. unfold behaves in H. destruct (alloc s) as [[x s']| |]; [|done..]. destruct H as (?&?&?). split; done. Qed.

Ltac bools_step := first
  [ apply bools_only_bind; [|intros ?]
  | apply bools_only_pure; first [apply pure_ret|apply pure_get|apply pure_lift|apply pure_alloc] ].

Lemma bools_only_names p v : bools_only p (write sym_val_to_name set_sym_val_to_name SYM_BOOLS v).
Proof.
  intros a b m. unfold write, get_p, gets, lift, upd, modify, mbind, M_bind. cbn.
  match goal with |- context [deref ?o] => destruct o end; cbn; [|done]. split; [done|]. eexists a, v. unfold put_bools. cbn. by rewrite set_index_twice.
Qed.

Lemma bools_only_array p i v : bools_only p (write bool_val_to_struct set_bool_val_to_struct i v).
Proof.
  intros a b m. unfold write, get_p, gets, lift, upd, modify, mbind, M_bind. cbn.
  match goal with |- context [deref ?o] => destruct o end; cbn; [|done]. split; [done|]. by eexists _, b.
Qed.

Lemma bools_only_index p key q : bools_only p (cond_index_bool key q).
Proof.
  unfold cond_index_bool, load, claim_name, name_at, write_name, elem.
  repeat first [apply bools_only_names | apply bools_only_array | bools_step | case_match].
Qed.

Lemma bools_only_map p l : bools_only p (map_chain cond_index_bool l).
Proof.
  induction l as [|[key q] l IH]; [apply bools_only_pure, pure_ret|]. cbn [map_chain].
  apply bools_only_bind; [apply bools_only_index|]. intros rc. destruct (negb (rc =? 0)); [apply bools_only_pure, pure_ret|done].
Qed.

Lemma bools_only_table p h : bools_only p (hashtab_map h cond_index_bool).
Proof.
  destruct h as [t|]; [|apply bools_only_pure, pure_ret]. intros a b m. cbn [hashtab_map].
  rewrite map_buckets_chain. apply bools_only_map.
Qed.

Lemma put_bools_same p : is_Some (at_index (sym_val_to_name p) SYM_BOOLS) → ∃ b, put_bools (bool_val_to_struct p) b p = p.
Proof.
  intros [b Hb]. exists b. unfold put_bools, set_index. rewrite list_insert_id; [by destruct p|].
  unfold at_index in Hb. done.
Qed.

Lemma bools_only_symtab p : bools_only p (index_symtab SYM_BOOLS p_bools cond_index_bool).
Proof.
  unfold index_symtab, new_names, calloc_ptrs.
  repeat first [apply bools_only_names | apply bools_only_table | bools_step | case_match].
Qed.

(** The index of the booleans when their array may be missing. *)
Lemma behaves_symtab_bools G p m :
  kind_ready bool_kind p → is_Some (at_index (sym_val_to_name p) SYM_BOOLS) →
  (bool_val_to_struct p = replicate (Z.to_nat (nprim (p_bools p))) None ∨ ¬ G) →
  behaves_if G (index_symtab SYM_BOOLS p_bools cond_index_bool) (p, m) (λ rc s',
    (rc = 0 ∧ ∃ a b, s'.1 = put_bools a b p ∧ (G → ∃ slots, a = datums_of slots ∧ b = names slots ∧ slots_good bool_kind p slots)) ∨
    (rc ≠ 0 ∧ (¬ plenty m ∨ ¬ G ∨ ¬ values_good bool_kind p))).
Proof.
  intros Hr Hn [Ha|HG].
  - apply behaves_if_of. eapply behaves_mono.
    { apply (behaves_symtab_kind bool_kind _ p m bool_laws Hr); [done|exact Hn| |exact Ha]. by destruct p. }
    intros rc s' [(->&slots&E&Hg)|[Hrc H]] _; [left|right].
    + split; [done|]. exists (datums_of slots), (names slots). split; [exact E|]. intros _. by exists slots.
    + split; [done|]. destruct H; auto.
  - destruct (put_bools_same p Hn) as [b0 Eb]. pose proof (bools_only_symtab p (bool_val_to_struct p) b0 m) as Hb. rewrite Eb in Hb.
    unfold behaves_if. destruct (index_symtab _ _ _ _) as [[rc s']| |]; [|done..]. destruct Hb as [Hm (a&b&E)]. split; [done|].
    destruct (Z.eq_dec rc 0) as [->|Hrc]; [left|right; auto]. split; [done|]. by exists a, b.
Qed.

(** *** [policydb_index_others] *)

(** The arrays and names of the kinds from the roles on. *)
Definition with_arrays (sr st su : list (option (string * ptr))) (ba : list (option ptr)) (bn : list (option string))
    (sl : list (option (string * level_datum))) (sc : list (option (string * cat_datum))) (p : policydb) : policydb :=
  put_names SYM_CATS sc (put_names SYM_LEVELS sl (put_bools ba bn
    (put_slots user_kind su (put_slots type_kind st (put_slots role_kind sr p))))).

Definition role_types_declared (p : policydb) (d : role_datum) : Prop :=
  ∀ i, ebitmap_get_bit (types (r_types d)) i = true →
       ∃ x, x ∈ entries_of (p_types p) ∧ value_at type_kind p x.2 = Some (i + 1).

(** What is needed for the indexes to be built. *)
Record others_good (p : policydb) : Prop := {
  og_roles : values_good role_kind p;
  og_types : values_good type_kind p;
  og_users : values_good user_kind p;
  og_bools : values_good bool_kind p;
  og_levels : values_ok level_value (nprim (p_levels p)) (table_entries (table (p_levels p)));
  og_cats : values_ok cat_value (nprim (p_cats p)) (table_entries (table (p_cats p)));
  og_declared : in_store (role_mem p) (role_types_declared p) (p_roles p)
}.

(** [q] is [p] with its indexes. *)
Definition others_built (mem_ok : Prop) (p q : policydb) : Prop :=
  ∃ sr st su ba bn sl sc rm um,
    let c := with_arrays sr st su ba bn sl sc p in
    q = set_user_mem um (set_role_mem rm c) ∧
    slots_good role_kind p sr ∧ slots_good type_kind p st ∧ slots_good user_kind p su ∧
    (mem_ok → ∃ sb, ba = datums_of sb ∧ bn = names sb ∧ slots_good bool_kind p sb) ∧
    names_good level_value (p_levels p) sl ∧ names_good cat_value (p_cats p) sc ∧
    types_indexed c ∧ roles_cached c (snd <$> entries_of (p_roles p)) rm ∧
    users_cached c (snd <$> entries_of (p_users p)) um.

Lemma index_kind_stage {A} (k : kind A) f p q m :
  kind_laws k → kind_ready k p → k_store k q = k_store k p → k_tab k q = k_tab k p → (∀ key x s, f key x s = index_fn k key x s) →
  Z.of_nat (length (sym_val_to_name q)) = SYM_NUM → 0 <= k_sym k < SYM_NUM → k_set k (k_arr k q) q = q →
  k_arr k q = replicate (Z.to_nat (nprim (k_tab k q))) None →
  behaves (index_symtab (k_sym k) (k_tab k) f) (q, m) (λ rc s',
    (rc = 0 ∧ ∃ slots, s'.1 = put_slots k slots q ∧ slots_good k p slots ∧ Z.of_nat (length (sym_val_to_name s'.1)) = SYM_NUM) ∨
    (rc ≠ 0 ∧ (¬ plenty m ∨ ¬ values_good k p))).
Proof.
  intros HK Hr Es Et Ef Hn Hs Hsame Ha. eapply behaves_mono.
  { apply (behaves_symtab_kind k f q m HK); [by apply (kind_ready_ext _ p)|done|by apply names_some|done|done]. }
  assert (Ev : values_good k q ↔ values_good k p) by (unfold values_good, value_at; by rewrite Es, Et).
  intros rc [q' m'] [[-> (slots&E&Hg)]|[Hrc HF]] _; cbn [fst] in *.
  - left. split; [done|]. exists slots. split; [done|]. subst q'. split.
    + unfold slots_good, values_good, value_at in *. by rewrite Es, Et in Hg.
    + unfold put_slots. rewrite (kl_names _ HK). by rewrite put_names_length.
  - right. by rewrite Ev in HF.
Qed.

Section others.
Context (p : policydb) (m : mem) (H : tables_loaded p).

Lemma role_ready : kind_ready role_kind p.
Proof.
  apply (kind_is_ready _ role_plain (λ d, 0 <= r_value d)); [apply (tl_rpos _ H)| |apply (tl_roles _ H)|apply (tl_role _ H)].
  intros d v Hd [= <-]. done.
Qed.
Lemma type_ready : kind_ready type_kind p.
Proof.
  apply (kind_is_ready _ (λ _, True) (λ d, 0 <= t_value d ∧ ebitmap_wf (t_types d))); [apply (tl_tpos _ H)| |apply (tl_types _ H)|apply (tl_type _ H)].
  intros d v [Hd _]. cbn. destruct (primary d =? 0); [done|]. by intros [= <-].
Qed.
Lemma user_ready : kind_ready user_kind p.
Proof.
  apply (kind_is_ready _ user_plain (λ d, 0 <= u_value d)); [apply (tl_upos _ H)| |apply (tl_users _ H)|apply (tl_user _ H)].
  intros d v Hd [= <-]. done.
Qed.
Lemma bool_ready : kind_ready bool_kind p.
Proof.
  apply (kind_is_ready _ (λ _, True) (λ d, 0 <= b_value d)); [apply (tl_bpos _ H)| |apply (tl_bools _ H)|apply (tl_bool _ H)].
  intros d v Hd [= <-]. done.
Qed.

Lemma levels_named q : table_entries (table (p_levels q)) = table_entries (table (p_levels p)) →
  claims_name SYM_LEVELS (nprim (p_levels q)) level_value sens_index (table_entries (table (p_levels q))) q.
Proof.
  intros E. unfold claims_name. rewrite E. eapply Forall_impl; [apply (tl_level _ H)|]. intros [k d] (l&El&_) sl m2.
  cbn [fst snd] in *. unfold sens_index, level_value. destruct (l_isalias d =? 0); [|done]. by rewrite El.
Qed.

Lemma levels_unsigned : unsigned level_value (table_entries (table (p_levels p))).
Proof.
  eapply Forall_impl; [apply (tl_level _ H)|]. intros [k d] (l&El&Hl) v. unfold level_value. cbn [snd] in *. rewrite El.
  destruct (l_isalias d =? 0); [|done]. by intros [= <-].
Qed.

Lemma cats_named q : claims_name SYM_CATS (nprim (p_cats q)) cat_value cat_index (table_entries (table (p_cats q))) q.
Proof.
  apply Forall_true. intros [k d] sl m2. cbn [fst snd]. unfold cat_index, cat_value. by destruct (ct_isalias d =? 0).
Qed.

Lemma cats_unsigned : unsigned cat_value (table_entries (table (p_cats p))).
Proof.
  eapply Forall_impl; [apply (tl_cat _ H)|]. intros [k d] Hl v. unfold cat_value. cbn [snd] in *.
  destruct (ct_isalias d =? 0); [|done]. by intros [= <-].
Qed.

(** The array of types after indexing. *)
Lemma arrays_types_indexed sr st su ba bn sl sc :
  slots_good type_kind p st → types_indexed (with_arrays sr st su ba bn sl sc p).
Proof.
  intros [[Hl Hs] _]. split; cbn.
  - unfold datums_of. rewrite length_map. exact Hl.
  - intros i q Hq. rewrite datums_at in Hq. destruct (at_index st i) as [[[k q']|]|] eqn:E; try done. cbn in Hq. injection Hq as ->.
    assert (Hn : nprim (p_types p) ≠ 0) by (apply at_index_Some in E; cbn in Hl; lia).
    destruct (Hs Hn i (k, q)) as [Hin _]. destruct (Hin E) as (Hx&_). cbn in Hx.
    pose proof (tl_type _ H) as Ht. unfold in_store, entries_of in Ht. rewrite Forall_forall in Ht.
    destruct (Ht _ Hx) as (d&Hd&_). by exists d.
  - intros q d Hd. pose proof (tl_tpos _ H) as Ht. rewrite Forall_forall in Ht. apply (Ht d). by eapply at_index_elem.
Qed.

(** A declared type is known. *)
Lemma declared_known sr st su ba bn sl sc d :
  slots_good type_kind p st → values_good type_kind p →
  role_types_declared p d → role_types_known (with_arrays sr st su ba bn sl sc p) d.
Proof.
  intros [[Hl Hs] _] [Hv _] Hd i Hi. destruct (Hd i Hi) as ([k q]&Hx&Ev). cbn [snd] in Ev.
  rewrite Forall_forall in Hv. specialize (Hv _ Hx _ Ev). split; [cbn in *; lia|].
  exists q. cbn. rewrite datums_at. assert (at_index st i = Some (Some (k, q))) as ->; [|done].
  apply Hs; [cbn in *; lia|]. split; [exact Hx|]. split; [done|lia].
Qed.

Lemma names_in {A} sym (sl : list (option (string * A))) q s :
  0 <= s < SYM_NUM → Z.of_nat (length (sym_val_to_name q)) = SYM_NUM → is_Some (at_index (sym_val_to_name (put_names sym sl q)) s).
Proof. intros Hs Hn. apply names_some; [|done]. by rewrite put_names_length. Qed.

(** The caches of the indexed policy. *)
Lemma behaves_caches sr st su ba bn sl sc m' :
  slots_good type_kind p st →
  let c := with_arrays sr st su ba bn sl sc p in
  behaves (rt ← get_p p_roles;
           rc ← hashtab_map (table rt) policydb_role_cache;
           if negb (rc =? 0) then mret (-1)
           else
             ut ← get_p p_users;
             rc ← hashtab_map (table ut) policydb_user_cache;
             mret (if negb (rc =? 0) then -1 else 0)) (c, m') (λ rc s',
    (rc = 0 ∧ ∃ rm um, s'.1 = set_user_mem um (set_role_mem rm c) ∧
       roles_cached c (snd <$> entries_of (p_roles p)) rm ∧ users_cached c (snd <$> entries_of (p_users p)) um) ∨
    (rc ≠ 0 ∧ (¬ plenty m' ∨ ∃ x d, x ∈ entries_of (p_roles p) ∧ at_index (role_mem p) x.2 = Some d ∧ ¬ role_types_known c d))).
Proof.
  intros Hst c. apply behaves_get. eapply behaves_bind.
  { apply (behaves_role_caches c m'); [by apply arrays_types_indexed|apply (tl_roles _ H)|exact (tl_role _ H)]. }
  intros rc [p1 m1] [[-> (rm&E&Hrm)]|[Hrc HF]] Hm1; cbn [fst snd] in *.
  2:{ apply Z.eqb_neq in Hrc as ->. apply behaves_ret. right. split; [done|]. exact HF. }
  subst p1. cbn [Z.eqb negb]. apply behaves_get. eapply behaves_bind.
  { apply (behaves_user_caches (set_role_mem rm c) m1); [exact (tl_kern _ H)|apply (tl_users _ H)|exact (tl_user _ H)]. }
  intros rc [p2 m2] [[-> (um&E&Hum)]|[Hrc HF]] Hm2; cbn [fst snd] in *; apply behaves_ret.
  - left. split; [done|]. exists rm, um. split; [exact E|]. split; [exact Hrm|exact Hum].
  - right. apply Z.eqb_neq in Hrc as ->. split; [done|]. left. auto.
Qed.

Lemma behaves_index_others :
  behaves policydb_index_others (p, m) (λ rc s',
    (rc = 0 ∧ others_built (plenty m) p s'.1) ∨ (rc ≠ 0 ∧ (¬ plenty m ∨ ¬ others_good p))).
Proof.
  pose proof (tl_names _ H) as Hn. apply behaves_if_done. cbn [snd]. unfold policydb_index_others.
  apply behaves_if_get. eapply behaves_if_bind; [apply behaves_if_of, behaves_new_structs|].
  intros ok [p1 m1] [[-> E]|[-> [Hnm _]]] Hm1; cbn [negb fst snd] in *; [subst p1|no_memory_if].
  apply behaves_if_get. eapply behaves_if_bind; [apply behaves_if_of, behaves_new_structs|].
  intros ok [p2 m2] [[-> E]|[-> [Hnm _]]] Hm2; cbn [negb fst snd] in *; [subst p2|no_memory_if].
  apply behaves_if_get. eapply behaves_if_bind; [apply behaves_if_of, behaves_new_structs|].
  intros ok [p3 m3] [[-> E]|[-> [Hnm _]]] Hm3; cbn [negb fst snd] in *; [subst p3|no_memory_if].
  set (p3 := set_type_val_to_struct _ _).
  eapply (behaves_if_bind _ _ _ _ (λ _ s', ∃ ba, s'.1 = set_bool_val_to_struct ba p3 ∧
     (ba = replicate (Z.to_nat (nprim (p_bools p))) None ∨ ¬ plenty m))).
  { apply behaves_if_get. eapply behaves_if_bind; [apply behaves_if_of, behaves_new_structs|].
    intros ok s' [[-> E]|[-> [Hnm E]]] _; (split; [done|]); rewrite E; eexists; (split; [reflexivity|]); [by left|right].
    intros ?; apply Hnm; cbn; auto. }
  intros x [p4' m4] (ba0&E&Hba) Hm4. cbn [fst snd] in *. subst p4'.
  assert (Hm : plenty m → plenty m4) by auto. set (p4 := set_bool_val_to_struct ba0 p3).
  eapply behaves_and_then.
  { apply behaves_if_of, (index_kind_stage role_kind role_index p p4 m4 role_laws role_ready); done. }
  2:{ intros rc s' Hrc [Hf|Hf]; right; (split; [done|]); [left; auto 20|right]. intros G. by apply Hf, (og_roles _ G). }
  intros [p5' m5] (sr&E&Hsr&Hn5) Hm5. cbn [fst snd] in *. subst p5'. set (p5 := put_slots role_kind sr p4) in *.
  eapply behaves_and_then.
  { apply behaves_if_of, (index_kind_stage type_kind type_index p p5 m5 type_laws type_ready); [done|done|apply type_index_fn|done|done|done|done]. }
  2:{ intros rc s' Hrc [Hf|Hf]; right; (split; [done|]); [left; auto 20|right]. intros G. by apply Hf, (og_types _ G). }
  intros [p6' m6] (st0&E&Hst&Hn6) Hm6. cbn [fst snd] in *. subst p6'. set (p6 := put_slots type_kind st0 p5) in *.
  eapply behaves_and_then.
  { apply behaves_if_of, (index_kind_stage user_kind user_index p p6 m6 user_laws user_ready); done. }
  2:{ intros rc s' Hrc [Hf|Hf]; right; (split; [done|]); [left; auto 20|right]. intros G. by apply Hf, (og_users _ G). }
  intros [p7' m7] (su&E&Hsu&Hn7) Hm7. cbn [fst snd] in *. subst p7'. set (p7 := put_slots user_kind su p6) in *.
  eapply behaves_and_then.
  { apply (behaves_symtab_bools (plenty m) p7 m7); [apply (kind_ready_ext _ p); [apply bool_ready|done|done]|by apply names_some|exact Hba]. }
  2:{ intros rc s' Hrc [Hf|[Hf|Hf]]; right; (split; [done|]); [left; auto 20|left; done|right]. intros G. by apply Hf, (og_bools _ G). }
  intros [p8' m8] (ba&bn&E&Hbb) Hm8. cbn [fst snd] in *. subst p8'. set (p8 := put_bools ba bn p7) in *.
  assert (Hn8 : Z.of_nat (length (sym_val_to_name p8)) = SYM_NUM) by (rewrite <- Hn7; f_equal; apply length_set_index).
  eapply behaves_and_then.
  { apply behaves_if_of, (behaves_symtab_names SYM_LEVELS p_levels level_value sens_index p8 m8);
      [done|apply levels_unsigned|apply (tl_levels _ H)|by apply names_some|by apply levels_named]. }
  2:{ intros rc s' Hrc [Hf|Hf]; right; (split; [done|]); [left; auto 20|right]. intros G. by apply Hf, (og_levels _ G). }
  intros [p9' m9] (sl&E&Hsl) Hm9. cbn [fst snd] in *. subst p9'. set (p9 := put_names SYM_LEVELS sl p8) in *.
  assert (Hn9 : Z.of_nat (length (sym_val_to_name p9)) = SYM_NUM) by (rewrite <- Hn8; f_equal; apply length_set_index).
  eapply behaves_and_then.
  { apply behaves_if_of, (behaves_symtab_names SYM_CATS p_cats cat_value cat_index p9 m9);
      [done|apply cats_unsigned|apply (tl_cats _ H)|by apply names_some|apply (cats_named p9)]. }
  2:{ intros rc s' Hrc [Hf|Hf]; right; (split; [done|]); [left; auto 20|right]. intros G. by apply Hf, (og_cats _ G). }
  intros [p10' m10] (sc&E&Hsc) Hm10. cbn [fst snd] in *. subst p10'.
  change (put_names SYM_CATS sc p9) with (with_arrays sr st0 su ba bn sl sc p).
  apply behaves_if_of. eapply behaves_mono; [by apply behaves_caches|]. intros rc [q m11] [[-> (rm&um&E&Hrm&Hum)]|[Hrc Hf]] _; cbn [fst snd] in *.
  - left. split; [done|]. exists sr, st0, su, ba, bn, sl, sc, rm, um. split_and!; try done. by apply arrays_types_indexed.
  - right. split; [done|]. destruct Hf as [Hf|(x0&d&Hx&Hd&Hno)]; [left; auto 20|right; intros G].
    apply Hno, declared_known; [done|apply (og_types _ G)|].
    pose proof (og_declared _ G) as Hin. unfold in_store in Hin. rewrite Forall_forall in Hin.
    destruct (Hin _ Hx) as (d'&Hd'&Hdd). rewrite Hd in Hd'. injection Hd' as ->. exact Hdd.
Qed.
End others.
