(* ===== verification/PolicydbFile.v ===== *)
(** * The binary policy (libsepol/src/policydb.c, write.c, policydb_convert.c)

    [policydb_init], [policydb_read] and [policydb_write] with the table of the
    formats, and [policydb_to_image].  A policy module has a part of its own after
    the symbol tables (rule blocks and scopes); the functions that read and write
    it are arguments. *)

From S2P Require Import Prelude Policyfile Ebitmap EbitmapFile Hashtab SymtabFile Avtab Context Policydb Expand Mls.
From S2P Require Import MlsFile ClassFile SymbolFile PtrTable AvtabFile TransFile CondFile LabelFile.

(** ** The formats *)

Definition POLICYDB_VERSION_BASE : Z := 15.
Definition POLICYDB_VERSION_BOOL : Z := 16.
Definition POLICYDB_VERSION_IPV6 : Z := 17.
Definition POLICYDB_VERSION_NLCLASS : Z := 18.
Definition POLICYDB_VERSION_POLCAP : Z := 22.
Definition POLICYDB_VERSION_PERMISSIVE : Z := 23.
Definition POLICYDB_VERSION_MIN : Z := POLICYDB_VERSION_BASE.
Definition POLICYDB_VERSION_MAX : Z := 31.
Definition MOD_POLICYDB_VERSION_MIN : Z := 4.
Definition MOD_POLICYDB_VERSION_MAX : Z := 19.
Definition MOD_POLICYDB_VERSION_POLCAP : Z := 7.

Definition POLICYDB_MAGIC : Z := 0xf97cff8c.
Definition POLICYDB_MOD_MAGIC : Z := 0xf97cff8d.
Definition POLICYDB_STRING_MAX_LENGTH : Z := 32.
Definition POLICYDB_MOD_STRING : string := "SE Linux Module".
Definition policydb_target_strings : list string := ["SE Linux"; "XenFlask"].

Definition POLICYDB_CONFIG_MLS : Z := 1.
(** DENY_UNKNOWN | REJECT_UNKNOWN | ALLOW_UNKNOWN *)
Definition POLICYDB_CONFIG_UNKNOWN_MASK : Z := 6.
Definition POLICYDB_UNSUPPORTED : Z := -2.

Record policydb_compat_info := CI {
  ci_type : Z; ci_version : Z; sym_num : Z; ocon_num : Z; ci_target_platform : Z
}.

Definition kern_compat (version syms ocons : Z) : policydb_compat_info :=
  CI POLICY_KERN version syms ocons SEPOL_TARGET_SELINUX.

Definition policydb_compat : list policydb_compat_info :=
  [CI POLICY_KERN 24 SYM_NUM (OCON_XEN_PCIDEVICE + 1) SEPOL_TARGET_XEN;
   CI POLICY_KERN 30 SYM_NUM (OCON_XEN_DEVICETREE + 1) SEPOL_TARGET_XEN;
   kern_compat 15 (SYM_NUM - 3) (OCON_FSUSE + 1);
   kern_compat 16 (SYM_NUM - 2) (OCON_FSUSE + 1);
   kern_compat 17 (SYM_NUM - 2) (OCON_NODE6 + 1);
   kern_compat 18 (SYM_NUM - 2) (OCON_NODE6 + 1)] ++
  ((λ v, kern_compat v SYM_NUM (OCON_NODE6 + 1)) <$> seqZ 19 12) ++
  [kern_compat 31 SYM_NUM (OCON_IBENDPORT + 1)] ++
  ((λ v, CI POLICY_BASE v SYM_NUM (OCON_NODE6 + 1) SEPOL_TARGET_SELINUX) <$> seqZ 4 15) ++
  [CI POLICY_BASE 19 SYM_NUM (OCON_IBENDPORT + 1) SEPOL_TARGET_SELINUX] ++
  ((λ v, CI POLICY_MOD v SYM_NUM 0 SEPOL_TARGET_SELINUX) <$> seqZ 4 16).

Definition policydb_lookup_compat (version type target_platform : Z) : option policydb_compat_info :=
  find (λ i, (ci_version i =? version) && (ci_type i =? type) && (ci_target_platform i =? target_platform)) policydb_compat.

(** An argument that is neither platform leaves the policy as it is. *)
Definition policydb_set_target_platform (p : policydb) (platform : Z) : policydb * Z :=
  if platform =? SEPOL_TARGET_SELINUX then (set_target_platform SEPOL_TARGET_SELINUX p, 0)
  else if platform =? SEPOL_TARGET_XEN then (set_target_platform SEPOL_TARGET_XEN p, 0)
  else (p, -1).

(** ** [policydb_init] *)

(** [memset(p, 0, sizeof( *p))] *)
Definition policydb_zero : policydb :=
  let no {D} : symtab D := SYM None 0 in
  let av := AVT None 0 0 0 0 in
  PDB POLICY_KERN 0 no no no no no no no no (replicate 8 []) [] [] [] [] [] [] []
      av [] av [] [] [] None None [] [] ebitmap_init 0 [] [] [] [] [] [] [] []
      None None SEPOL_TARGET_SELINUX 0 (replicate 9 []) [] ebitmap_init 0.

(** Runs an operation on the policy. *)
Definition in_st {A} (f : M st A) (p : policydb) : R (A * policydb) := λ s,
  match f (p, fmem s) with
  | Ret (a, (p, m)) => Ret (inr (a, p), FS (file s) (compat s) m)
  | Exit z => Exit z
  | Undef => Undef
  end.

(** [malloc] or [calloc]; the status on failure. *)
Definition alloc_or (rc : Z) : R () := b ← in_mem malloc; guard_or rc b.

(** The role [object_r]: [calloc], [malloc] of the key, [symtab_insert]. *)
Definition roles_init (p : policydb) : R policydb :=
  _ ← alloc_or (- ENOMEM);
  _ ← alloc_or (- ENOMEM);
  let role := RD 0 ebitmap_init empty_type_set ebitmap_init 0 0 ebitmap_init in
  '((rc, value), p) ← in_st
    (q ← new role_mem set_role_mem role;
     '(rc, value) ← symtab_insert SYM_ROLES "object_r" q
        (if policy_type p =? POLICY_MOD then SCOPE_REQ else SCOPE_DECL) 1 true;
     r ← load role_mem q;
     _ ← write role_mem set_role_mem q
        (RD (default (r_value r) value) (dominates r) (r_types r) (r_cache r) (r_bounds r) (r_flavor r) (r_roles r));
     mret (rc, value)) p;
  _ ← guard_or rc (rc =? 0);
  _ ← guard_or (- EINVAL) (bool_decide (value = Some OBJECT_R_VAL));
  mret p.

Fixpoint scopes_init (sizes : list Z) : R (list (symtab ptr)) :=
  match sizes with
  | [] => mret []
  | n :: sizes' => s ← symtab_create n; l ← scopes_init sizes'; mret (s :: l)
  end.

Definition symtab_sizes : list Z := [2; 32; 16; 512; 128; 16; 16; 16].
(** avrule_block.c: those of a declaration. *)
Definition decl_symtab_sizes : list Z := [2; 4; 8; 32; 16; 4; 2; 2].

(** [avrule_block_create], and [avrule_decl_create(1)] whose symbol tables no
    kernel policy uses. *)
Definition global_block : R (list avrule_block) :=
  _ ← alloc_or 0;
  _ ← alloc_or 0;
  _ ← scopes_init decl_symtab_sizes;
  mret [BLK [DECL 1 (replicate 8 ebitmap_init)]].

(** Every failure leaves the tables freed.  The status is 0 when memory runs out
    in the second part: [rc] still holds the result of the last [symtab_init]. *)
Definition policydb_init : R policydb :=
  commons ← symtab_create 2;
  classes ← symtab_create 32;
  roles ← symtab_create 16;
  types ← symtab_create 512;
  users ← symtab_create 128;
  bools ← symtab_create 16;
  levels ← symtab_create 16;
  cats ← symtab_create 16;
  scopes ← on_error 0 (scopes_init symtab_sizes);
  blocks ← on_error 0 global_block;
  let p := set_p_cats cats (set_p_levels levels (set_p_bools bools (set_p_users users (set_p_types types
             (set_p_roles roles (set_p_classes classes (set_p_commons commons policydb_zero))))))) in
  let p := set_global blocks (set_scope scopes p) in
  let p := set_te_avtab (avtab_init (te_avtab p)) p in
  p ← roles_init p;
  let p := set_te_cond_avtab (avtab_init (te_cond_avtab p)) p in
  ft ← in_mem (hashtab_create 1024);
  _ ← guard_or (- ENOMEM) (bool_decide (is_Some ft));
  rt ← in_mem (hashtab_create 256);
  _ ← guard_or (- ENOMEM) (bool_decide (is_Some rt));
  mret (set_range_tr rt (set_filename_trans_tab ft p)).

(** ** [policydb_read] *)

(** [p->policyvers >= v], with the bound for modules. *)
Definition from_version (p : policydb) (kern module : Z) : bool :=
  if is_kern p then kern <=? policyvers p else module <=? policyvers p.

(** The magic number, the string and the version, then the number of symbol
    tables and of kinds of object contexts. *)
Definition read_target (p : policydb) (s : string) : R policydb :=
  if streq s "SE Linux" then mret (policydb_set_target_platform p SEPOL_TARGET_SELINUX).1
  else if streq s "XenFlask" then mret (policydb_set_target_platform p SEPOL_TARGET_XEN).1
  else fail (-1).

Definition version_ok (type vers : Z) : bool :=
  if type =? POLICY_KERN then (POLICYDB_VERSION_MIN <=? vers) && (vers <=? POLICYDB_VERSION_MAX)
  else (MOD_POLICYDB_VERSION_MIN <=? vers) && (vers <=? MOD_POLICYDB_VERSION_MAX).

Definition read_header (p : policydb) : R (policydb * policydb_compat_info) :=
  buf ← next_u32s 2;
  _ ← guard_or (-1) ((word buf 0 =? POLICYDB_MAGIC) || (word buf 0 =? POLICYDB_MOD_MAGIC));
  let kern := word buf 0 =? POLICYDB_MAGIC in
  let len := word buf 1 in
  _ ← guard_or (-1) (negb ((len =? 0) || (POLICYDB_STRING_MAX_LENGTH <? len)));
  s ← key_read len;
  p ← (if kern : bool then read_target p s
       else _ ← guard_or (-1) (streq s POLICYDB_MOD_STRING); mret p);
  buf ← next_u32s (if kern then 4 else 5);
  let type := if kern then POLICY_KERN else word buf 0 in
  let buf := if kern then buf else drop 1 buf in
  _ ← guard_or (-1) (kern || (type =? POLICY_MOD) || (type =? POLICY_BASE));
  let vers := word buf 0 in
  _ ← guard_or (-1) (version_ok type vers);
  let config := word buf 1 in
  let p := set_handle_unknown (Z.land config POLICYDB_CONFIG_UNKNOWN_MASK)
             (set_mls (Z.b2z (has_bits config POLICYDB_CONFIG_MLS)) (set_policyvers vers (set_policy_type type p))) in
  info ← some_or_fail (-1) (policydb_lookup_compat vers type (target_platform p));
  _ ← guard_or (-1) ((word buf 2 =? sym_num info) && (word buf 3 =? ocon_num info));
  mret (p, info).

(** A module's name and version. *)
Definition read_text : R string :=
  buf ← next_u32s 1;
  _ ← guard_or (-1) (negb (zero_or_saturated (word buf 0)));
  key_read (word buf 0).

Definition read_module_name (p : policydb) : R policydb :=
  if policy_type p =? POLICY_MOD then
    name ← read_text;
    version ← read_text;
    mret (set_p_version (Some version) (set_p_name (Some name) p))
  else mret p.

Definition read_caps (p : policydb) : R policydb :=
  if from_version p POLICYDB_VERSION_POLCAP MOD_POLICYDB_VERSION_POLCAP then
    e ← ebitmap_read; mret (set_policycaps e p)
  else mret p.

Definition read_permissive (p : policydb) : R policydb :=
  if (POLICYDB_VERSION_PERMISSIVE <=? policyvers p) && is_kern p then
    e ← ebitmap_read; mret (set_permissive_map e p)
  else mret p.

(** [read_f]: the entries of symbol table [i]. *)
Definition read_symbols (i : Z) (nprim : Z) (n : nat) (p : policydb) : R policydb :=
  if i =? SYM_COMMONS then
    h ← table_read common_entry n (table (p_commons p)); mret (set_p_commons (SYM h nprim) p)
  else if i =? SYM_CLASSES then
    '(h, l) ← ptr_read dup_fails (class_entry p) n (table (p_classes p), class_mem p);
    mret (set_class_mem l (set_p_classes (SYM h nprim) p))
  else if i =? SYM_ROLES then
    '(h, l) ← ptr_read dup_fails (role_entry p) n (table (p_roles p), role_mem p);
    mret (set_role_mem l (set_p_roles (SYM h nprim) p))
  else if i =? SYM_TYPES then
    '(h, l) ← ptr_read dup_fails (type_entry p) n (table (p_types p), type_mem p);
    mret (set_type_mem l (set_p_types (SYM h nprim) p))
  else if i =? SYM_USERS then
    '(h, l) ← ptr_read dup_fails (user_entry p) n (table (p_users p), user_mem p);
    mret (set_user_mem l (set_p_users (SYM h nprim) p))
  else if i =? SYM_BOOLS then
    '(h, l) ← ptr_read dup_fails (bool_entry p) n (table (p_bools p), bool_mem p);
    mret (set_bool_mem l (set_p_bools (SYM h nprim) p))
  else if i =? SYM_LEVELS then
    h ← table_read sens_entry n (table (p_levels p)); mret (set_p_levels (SYM h nprim) p)
  else
    h ← table_read cat_entry n (table (p_cats p)); mret (set_p_cats (SYM h nprim) p).

Definition read_symtab (i : Z) (p : policydb) : R policydb :=
  buf ← next_u32s 2;
  let nprim := word buf 0 in
  let nel := word buf 1 in
  _ ← guard_or (-1) (negb (negb (nel =? 0) && (nprim =? 0)));
  read_symbols i nprim (Z.to_nat nel) p.

(** [for (i = 0; i < info->sym_num; i++)] *)
Fixpoint read_symtabs (i : Z) (n : nat) (p : policydb) : R policydb :=
  match n with
  | O => mret p
  | S n' => p ← read_symtab i p; read_symtabs (i + 1) n' p
  end.

(** The rules of a kernel policy. *)
Definition read_rules (p : policydb) : R policydb :=
  a ← avtab_read (policyvers p) (te_avtab p);
  let p := set_te_avtab a p in
  p ← (if POLICYDB_VERSION_BOOL <=? policyvers p then
         '(l, a) ← cond_read_list p; mret (set_cond_list l (set_te_cond_avtab a p))
       else mret p);
  tr ← role_trans_read p;
  let p := set_role_tr tr p in
  ra ← role_allow_read;
  let p := set_role_allow ra p in
  if POLICYDB_VERSION_FILENAME_TRANS <=? policyvers p then filename_trans_read p else mret p.

(** The indexes: a status other than 0 is an error. *)
Definition indexing (f : M st Z) (p : policydb) : R policydb :=
  '(rc, p) ← in_st f p; _ ← guard_or (-1) (rc =? 0); mret p.

Definition set_bit_or (e : ebitmap) (bit : Z) : R ebitmap :=
  '(rc, e) ← in_mem (λ m, let '(rc, e, m) := ebitmap_set_bit e bit true m in ((rc, e), m));
  _ ← guard_or (-1) (rc =? 0); mret e.

(** [ebitmap_set_bit(&map[j], bit, 1)] *)
Definition map_set_bit (map : list ebitmap) (j bit : Z) : R (list ebitmap) :=
  e ← must (at_index map j); e ← set_bit_or e bit; mret (set_index map j e).

(** The bits of [type_attr_map[i]]: type [i + 1] belongs to them. *)
Fixpoint read_attr_bits (nprim i : Z) (bits : list Z) (at_map : list ebitmap) : R (list ebitmap) :=
  match bits with
  | [] => mret at_map
  | j :: bits' =>
      if i =? j then read_attr_bits nprim i bits' at_map
      else
        _ ← guard_or (-1) (negb (nprim <=? j));
        at_map ← map_set_bit at_map j i;
        read_attr_bits nprim i bits' at_map
  end.

Definition read_type_map (p : policydb) (i : Z) (at_map : list ebitmap) : R (ebitmap * list ebitmap) :=
  let nprim := nprim (p_types p) in
  '(ta, at_map) ← (if POLICYDB_VERSION_AVTAB <=? policyvers p then
                     ta ← ebitmap_read;
                     at_map ← read_attr_bits nprim i (ebitmap_set_bits ta) at_map;
                     mret (ta, at_map)
                   else mret (ebitmap_init, at_map));
  ta ← set_bit_or ta i;
  q ← must (at_index (type_val_to_struct p) i);
  d ← match q with None => mret None | Some q => d ← must (at_index (type_mem p) q); mret (Some d) end;
  at_map ← match d with
           | Some d => if negb (flavor d =? TYPE_ATTRIB) then map_set_bit at_map i i else mret at_map
           | None => mret at_map
           end;
  mret (ta, at_map).

Fixpoint read_type_maps (p : policydb) (i : Z) (n : nat) (at_map : list ebitmap) : R (list ebitmap * list ebitmap) :=
  match n with
  | O => mret ([], at_map)
  | S n' =>
      '(ta, at_map) ← read_type_map p i at_map;
      '(tas, at_map) ← read_type_maps p (i + 1) n' at_map;
      mret (ta :: tas, at_map)
  end.

(** [sizeof(ebitmap_t)] is 8: beyond 2^29 types the arrays are smaller than the
    loops that fill them. *)
Definition read_attr_maps (p : policydb) : R policydb :=
  let n := nprim (p_types p) in
  a ← in_mem malloc;
  b ← in_mem malloc;
  _ ← guard_or (-1) (a && b);
  _ ← must (if n * 8 <? 2 ^ 32 then Some () else None);
  '(ta, at_map) ← read_type_maps p 0 (Z.to_nat n) (replicate (Z.to_nat n) ebitmap_init);
  mret (set_attr_type_map (Some <$> at_map) (set_type_attr_map (Some <$> ta) p)).

(** [read_module] stands for [avrule_block_read] and [scope_read] on the tables
    of a module, [read_module_ranges] for the ranges of a base module. *)
Section policydb_read.
Context (read_module : policydb_compat_info → policydb → R policydb).
Context (read_module_ranges : policydb → R policydb).

Definition read_ranges (p : policydb) : R policydb :=
  if is_kern p && (POLICYDB_VERSION_MLS <=? policyvers p) then
    h ← range_read p; mret (set_range_tr h p)
  else if (policy_type p =? POLICY_BASE) && (5 <=? policyvers p) && (policyvers p <? 6) then read_module_ranges p
  else mret p.

Definition policydb_read (p : policydb) : R policydb :=
  on_error POLICYDB_ERROR
    ('(p, info) ← read_header p;
     p ← read_module_name p;
     p ← read_caps p;
     p ← read_permissive p;
     p ← read_symtabs 0 (Z.to_nat (sym_num info)) p;
     p ← (if is_kern p then read_rules p else read_module info p);
     p ← indexing policydb_index_decls p;
     p ← indexing policydb_index_classes p;
     p ← indexing policydb_index_others p;
     p ← ocontext_read (ocon_num info) p;
     l ← genfs_read p;
     let p := set_genfs l p in
     p ← read_ranges p;
     if is_kern p then read_attr_maps p else mret p).
End policydb_read.

(** ** [policydb_write] *)

Definition w_fail (rc : Z) : writer := mret rc.

(** [uncount_attr] is [type_attr_uncount] or [role_attr_uncount]: one entry less
    when it is an attribute. *)
Definition uncount_attr {D} (attr : D → bool) (key : string) (d : D) : M Z Z := λ nel,
  Ret (0, if attr d then u32 (nel - 1) else nel).

(** The header of a table, the number of its entries corrected by [count], and
    its entries. *)
Definition put_symtab_with {D} (t : symtab D) (count : string → D → M Z Z) (w : string → D → writer) : writer := λ s,
  match table t with
  | None => Undef
  | Some h =>
      match hashtab_map (table t) count (nel h) with
      | Ret (_, n) => (put_u32s [nprim t; n];;; hashtab_map (table t) w) s
      | Exit z => Exit z
      | Undef => Undef
      end
  end.

Definition put_symtab {D} (attr : D → bool) (t : symtab D) (w : string → D → writer) : writer :=
  put_symtab_with t (uncount_attr attr) w.

(** A table of pointers to [store]. *)
Definition put_ptr_symtab {D} (store : list D) (attr : D → bool) (t : symtab ptr) (w : string → D → writer) : writer :=
  put_symtab_with t (at_ptr store (uncount_attr attr)) (at_ptr store w).

Definition no_uncount {D} (_ : D) : bool := false.
Definition type_attr_uncount (p : policydb) (d : type_datum) : bool :=
  (policyvers p <? POLICYDB_VERSION_BOUNDARY) && is_kern p && (flavor d =? TYPE_ATTRIB).
Definition role_attr_uncount (p : policydb) (d : role_datum) : bool :=
  (is_kern p || (policyvers p <? MOD_POLICYDB_VERSION_ROLEATTRIB)) && (r_flavor d =? ROLE_ATTRIB).

(** [write_f[i]] *)
Definition write_symtab (p : policydb) (i : Z) : writer :=
  if i =? SYM_COMMONS then put_symtab no_uncount (p_commons p) common_write
  else if i =? SYM_CLASSES then put_ptr_symtab (class_mem p) no_uncount (p_classes p) (class_write p)
  else if i =? SYM_ROLES then put_ptr_symtab (role_mem p) (role_attr_uncount p) (p_roles p) (role_write p)
  else if i =? SYM_TYPES then put_ptr_symtab (type_mem p) (type_attr_uncount p) (p_types p) (type_write p)
  else if i =? SYM_USERS then put_ptr_symtab (user_mem p) no_uncount (p_users p) (user_write p)
  else if i =? SYM_BOOLS then put_ptr_symtab (bool_mem p) no_uncount (p_bools p) (cond_write_bool p)
  else if i =? SYM_LEVELS then put_symtab no_uncount (p_levels p) sens_write
  else put_symtab no_uncount (p_cats p) cat_write.

(** [policydb_target_strings[p->target_platform]] *)
Definition target_string (p : policydb) : option string := at_index policydb_target_strings (target_platform p).

Definition write_magic (p : policydb) : writer :=
  if is_kern p then
    λ s, match target_string p with
         | Some t => (put_u32s [POLICYDB_MAGIC; strlen t];;; put_string t) s
         | None => Undef
         end
  else put_u32s [POLICYDB_MOD_MAGIC; strlen POLICYDB_MOD_STRING];;; put_string POLICYDB_MOD_STRING.

Definition config_of (p : policydb) : Z :=
  Z.lor (if mls p =? 0 then 0 else POLICYDB_CONFIG_MLS) (Z.land POLICYDB_CONFIG_UNKNOWN_MASK (handle_unknown p)).

Definition mls_unsupported (p : policydb) : bool :=
  negb (mls p =? 0) && negb (from_version p POLICYDB_VERSION_MLS MOD_POLICYDB_VERSION_MLS).

Definition write_text (o : option string) : writer := λ s,
  match o with Some t => (put_u32s [strlen t];;; put_string t) s | None => Undef end.

Definition write_map (l : list (option ebitmap)) (i : Z) : writer := λ s,
  match at_index l i with Some (Some e) => ebitmap_write e s | _ => Undef end.

Definition when (b : bool) (w : writer) : writer := if b then w else mret POLICYDB_SUCCESS.

(** The rules of a kernel policy. *)
Definition write_rules (p : policydb) : writer :=
  avtab_write p (te_avtab p);;;
  when (POLICYDB_VERSION_BOOL <=? policyvers p) (cond_write_list p (cond_list p));;;
  role_trans_write p;;;
  role_allow_write (role_allow p);;;
  when (POLICYDB_VERSION_FILENAME_TRANS <=? policyvers p) (filename_trans_write p).

Section policydb_write.
Context (write_module : policydb_compat_info → policydb → writer).
Context (write_module_ranges : policydb → writer).

Definition write_ranges (p : policydb) : writer :=
  if is_kern p && (POLICYDB_VERSION_MLS <=? policyvers p) then range_write p
  else if (policy_type p =? POLICY_BASE) && (5 <=? policyvers p) && (policyvers p <? 6) then write_module_ranges p
  else mret POLICYDB_SUCCESS.

Definition write_body (p : policydb) (info : policydb_compat_info) : writer :=
  put_u32s ((if is_kern p then [] else [policy_type p]) ++ [policyvers p; config_of p; sym_num info; ocon_num info]);;;
  when (policy_type p =? POLICY_MOD) (write_text (p_name p);;; write_text (p_version p));;;
  when (from_version p POLICYDB_VERSION_POLCAP MOD_POLICYDB_VERSION_POLCAP) (ebitmap_write (policycaps p));;;
  when ((POLICYDB_VERSION_PERMISSIVE <=? policyvers p) && is_kern p) (ebitmap_write (permissive_map p));;;
  write_all (write_symtab p) (upto (sym_num info));;;
  (if is_kern p then write_rules p else write_module info p);;;
  ocontext_write (ocon_num info) p;;;
  genfs_write p;;;
  write_ranges p;;;
  when (is_kern p && (POLICYDB_VERSION_AVTAB <=? policyvers p))
    (write_all (write_map (type_attr_map p)) (upto (nprim (p_types p)))).

(** The magic number is written before the format is looked up. *)
Definition policydb_write (p : policydb) : writer :=
  if negb (unsupported_format p =? 0) then w_fail POLICYDB_UNSUPPORTED
  else if mls_unsupported p then w_fail POLICYDB_ERROR
  else
    write_magic p;;;
    match policydb_lookup_compat (policyvers p) (policy_type p) (target_platform p) with
    | None => w_fail POLICYDB_ERROR
    | Some info => write_body p info
    end.
End policydb_write.

(** ** Images (policydb_convert.c, magiskpolicy/sepolicy.c) *)

Section image.
Context (read_module : policydb_compat_info → policydb → R policydb) (read_module_ranges : policydb → R policydb).
Context (write_module : policydb_compat_info → policydb → writer) (write_module_ranges : policydb → writer).

Let policydb_read := policydb_read read_module read_module_ranges.
Let policydb_write := policydb_write write_module write_module_ranges.

(** [compat] is [avtab_android_m_compat], [None] a failure. *)
Definition policydb_from_image (data : list Z) (p : policydb) (s : bool * mem) : outcome (option policydb * (bool * mem)) :=
  match policydb_read p (FS (PF PF_USE_MEMORY data (Z.of_nat (length data)) []) s.1 s.2) with
  | Ret (inr p, s) => Ret (Some p, (compat s, fmem s))
  | Ret (inl _, s) => Ret (None, (compat s, fmem s))
  | Exit z => Exit z
  | Undef => Undef
  end.

(** The three passes: the length, the image, and a reading of the image.  The
    result is the image and its length.  A status 0 of [policydb_init] after a
    failure means that freed tables are used. *)
Definition policydb_to_image (p : policydb) (s : bool * mem) : outcome (option (list Z * Z) * (bool * mem)) :=
  '(rc, s) ← policydb_write p (FS (PF PF_LEN [] 0 []) s.1 s.2);
  if negb (rc =? 0) then Ret (None, (compat s, fmem s))
  else
    let len := flen (file s) in
    let '(ok, m) := malloc (fmem s) in
    if negb ok then Ret (None, (compat s, m))
    else
      '(rc, s) ← policydb_write p (FS (PF PF_USE_MEMORY [] len []) (compat s) m);
      if negb (rc =? 0) then Ret (None, (compat s, fmem s))
      else
        let data := fout (file s) in
        match policydb_init (FS (PF PF_USE_MEMORY data len []) (compat s) (fmem s)) with
        | Ret (inr tmp, s) =>
            match policydb_read tmp s with
            | Ret (inr _, s) => Ret (Some (data, len), (compat s, fmem s))
            | Ret (inl _, s) => Ret (None, (compat s, fmem s))
            | Exit z => Exit z
            | Undef => Undef
            end
        | Ret (inl rc, s) => if rc =? 0 then Undef else Ret (None, (compat s, fmem s))
        | Exit z => Exit z
        | Undef => Undef
        end.

(** The policy of [load_policydb], from the bytes of the file. *)
Definition load_policydb (data : list Z) (s : bool * mem) : outcome (option policydb * (bool * mem)) :=
  match policydb_init (FS (PF PF_USE_MEMORY data (Z.of_nat (length data)) []) s.1 s.2) with
  | Ret (inr p, s) => policydb_from_image data p (compat s, fmem s)
  | Ret (inl rc, s) => if rc =? 0 then Undef else Ret (None, (compat s, fmem s))
  | Exit z => Exit z
  | Undef => Undef
  end.
End image.

(** ** Formats *)

Record tables := TABLES {
  v_classes : hashtab_t string class_datum;
  v_roles : hashtab_t string role_datum;
  v_types : hashtab_t string type_datum;
  v_users : hashtab_t string user_datum;
  v_bools : hashtab_t string cond_bool_datum;
  v_filenames : hashtab_t filename_trans filename_trans_datum
}.

(** The tables of pointers of a policy and the values they stand for. *)
Record represents (p : policydb) (v : tables) : Prop := {
  rp_classes : points (class_mem p) (table (p_classes p)) (v_classes v);
  rp_roles : points (role_mem p) (table (p_roles p)) (v_roles v);
  rp_types : points (type_mem p) (table (p_types p)) (v_types v);
  rp_users : points (user_mem p) (table (p_users p)) (v_users v);
  rp_bools : points (bool_mem p) (table (p_bools p)) (v_bools v);
  rp_filenames : points (ftrans_mem p) (filename_trans_tab p) (v_filenames v)
}.

Definition table_part {D} (skip : D → bool) (enc : string → D → list Z) (np : Z) (h : hashtab_t string D) : list Z :=
  u32s [np; Z.of_nat (length (kept_entries (λ _ d, negb (skip d)) h))] ++
  table_bytes (λ k d, if negb (skip d) then enc k d else []) h.

Definition symtab_bytes (p : policydb) (v : tables) (i : Z) : list Z :=
  if i =? SYM_COMMONS then table_part no_uncount common_bytes (nprim (p_commons p)) (table (p_commons p))
  else if i =? SYM_CLASSES then table_part no_uncount (class_bytes p) (nprim (p_classes p)) (v_classes v)
  else if i =? SYM_ROLES then table_part (role_attr_uncount p) (role_bytes p) (nprim (p_roles p)) (v_roles v)
  else if i =? SYM_TYPES then table_part (type_attr_uncount p) (type_bytes p) (nprim (p_types p)) (v_types v)
  else if i =? SYM_USERS then table_part no_uncount (user_bytes p) (nprim (p_users p)) (v_users v)
  else if i =? SYM_BOOLS then table_part no_uncount (bool_bytes p) (nprim (p_bools p)) (v_bools v)
  else if i =? SYM_LEVELS then table_part no_uncount sens_bytes (nprim (p_levels p)) (table (p_levels p))
  else table_part no_uncount cat_bytes (nprim (p_cats p)) (table (p_cats p)).

Definition header_bytes (p : policydb) (info : policydb_compat_info) : list Z :=
  (u32s [POLICYDB_MAGIC; 8] ++ string_bytes "SE Linux") ++
  u32s [policyvers p; config_of p; sym_num info; ocon_num info].

Definition caps_bytes (p : policydb) : list Z :=
  opt_bytes (POLICYDB_VERSION_POLCAP <=? policyvers p) (ebitmap_bytes (policycaps p)) ++
  opt_bytes (POLICYDB_VERSION_PERMISSIVE <=? policyvers p) (ebitmap_bytes (permissive_map p)).

Definition rules_bytes (cm : bool) (p : policydb) (v : tables) : list Z :=
  avtab_bytes cm (te_avtab p) ++ cond_list_bytes cm (te_cond_avtab p) (cond_list p) ++
  role_tr_bytes p ++ role_allow_bytes (role_allow p) ++
  opt_bytes (POLICYDB_VERSION_FILENAME_TRANS <=? policyvers p) (filename_trans_bytes (v_filenames v)).

Definition type_map_bytes (p : policydb) (i : Z) : list Z :=
  match at_index (type_attr_map p) i with Some (Some e) => ebitmap_bytes e | _ => [] end.

(** The file of a kernel policy for SELinux, from version 20 on. *)
Definition policydb_bytes (cm : bool) (p : policydb) (v : tables) (info : policydb_compat_info) : list Z :=
  header_bytes p info ++ caps_bytes p ++ (upto (sym_num info) ≫= symtab_bytes p v) ++ rules_bytes cm p v ++
  kinds_bytes (ocontext_bytes_selinux p) 0 (Z.to_nat (ocon_num info)) (ocontexts p) ++
  genfs_bytes p (genfs p) ++ range_tr_bytes p ++ (upto (nprim (p_types p)) ≫= type_map_bytes p).

(** *** What a file can hold *)

(** An attribute the format leaves out, or an entry it can hold. *)
Definition table_ok {D} (sz : Z) (skip : D → bool) (P : string → D → Prop) (np : Z) (h : hashtab_t string D) : Prop :=
  symtab_ok sz (λ k d, skip d = true ∨ P k d) (SYM h np).

Record symbols_ok (p : policydb) (v : tables) : Prop := {
  sy_commons : table_ok 2 no_uncount common_ok (nprim (p_commons p)) (table (p_commons p));
  sy_classes : table_ok 32 no_uncount (class_ok p) (nprim (p_classes p)) (v_classes v);
  sy_roles : table_ok 16 (role_attr_uncount p) (role_ok p) (nprim (p_roles p)) (v_roles v);
  sy_types : table_ok 512 (type_attr_uncount p) (type_ok p) (nprim (p_types p)) (v_types v);
  sy_users : table_ok 128 no_uncount (user_ok p) (nprim (p_users p)) (v_users v);
  sy_bools : table_ok 16 no_uncount bool_ok (nprim (p_bools p)) (v_bools v);
  sy_levels : table_ok 16 no_uncount sens_ok (nprim (p_levels p)) (table (p_levels p));
  sy_cats : table_ok 16 no_uncount cat_ok (nprim (p_cats p)) (table (p_cats p))
}.

Record header_ok (p : policydb) (info : policydb_compat_info) : Prop := {
  hd_kern : policy_type p = POLICY_KERN;
  hd_target : target_platform p = SEPOL_TARGET_SELINUX;
  hd_vers : POLICYDB_VERSION_AVTAB <= policyvers p;
  hd_info : policydb_lookup_compat (policyvers p) POLICY_KERN SEPOL_TARGET_SELINUX = Some info;
  hd_format : unsupported_format p = 0;
  hd_mls : mls p = 0 ∨ mls p = 1;
  hd_unknown : Z.land POLICYDB_CONFIG_UNKNOWN_MASK (handle_unknown p) = handle_unknown p
}.

Record rules_ok (cm : bool) (p : policydb) (v : tables) : Prop := {
  ru_av : Forall (storable cm (policyvers p)) (avtab_nodes (te_avtab p));
  ru_cond : Forall (cond_node_ok cm p (te_cond_avtab p)) (cond_list p);
  ru_wf : hashtab_wf (v_filenames v);
  ru_some : is_Some (v_filenames v);
  ru_filenames : all_entries filename_ok (v_filenames v)
}.

(** The bitmaps of all types are there. *)
Definition type_maps_ok (p : policydb) : Prop :=
  Z.of_nat (length (type_attr_map p)) = nprim (p_types p) ∧
  Forall (λ o, ∃ e, o = Some e ∧ ebitmap_wf e) (type_attr_map p).

Record labels_ok (p : policydb) : Prop := {
  la_length : length (ocontexts p) = Z.to_nat OCON_NUM;
  la_contexts : kinds_ok (ocontext_ok_selinux p) 0 (ocontexts p);
  la_genfs : genfs_ok p (genfs p);
  la_ranges : hashtab_wf (range_tr p)
}.

(** ** Emission *)

Lemma emits_when c (b : bool) w bs : (b = true → emits c w bs) → emits c (when b w) (opt_bytes b bs).
Proof. intros H. unfold when, opt_bytes. destruct b; [by apply H|apply emits_nil]. Qed.

Lemma u32s_count np n c : u32s [np; u32 (u32 n - c)] = u32s [np; n - c].
Proof.
  unfold u32s. rewrite !bind_cons. f_equal. f_equal.
  change (u32 (u32 n - c)) with ((u32 n - c) mod 2 ^ (8 * Z.of_nat 4)). rewrite le_bytes_mod.
  rewrite <- (le_bytes_mod 4 (u32 n - c)), <- (le_bytes_mod 4 (n - c)). f_equal. unfold u32.
  change (2 ^ (8 * Z.of_nat 4)) with (2 ^ 32). by rewrite Zminus_mod_idemp_l.
Qed.

Lemma filter_split {A} (f : A → bool) l :
  (length (List.filter (λ x, negb (f x)) l) + length (List.filter f l) = length l)%nat.
Proof. induction l as [|x l IH]; [done|]. cbn [List.filter length]. destruct (f x); cbn [negb length]; lia. Qed.

(** The number that is written is that of the entries that are. *)
Lemma uncount_entries {D} (attr : D → bool) h np : hashtab_wf h → is_Some h →
  ∃ n, hashtab_map h (uncount_attr attr) (match h with Some t => nel t | None => 0 end) = Ret (0, n) ∧
       u32s [np; n] = u32s [np; Z.of_nat (length (kept_entries (λ (_ : string) d, negb (attr d)) h))].
Proof.
  intros Hw [t ->]. eexists. split; [exact (map_counts (λ _ d, attr d) (-1) (Some t) _ Hw)|].
  destruct Hw as [_ Hn]. rewrite Hn. unfold kept_entries. cbn [table_entries].
  pose proof (filter_split (λ e : string * D, attr e.2) (entries t)) as Hf.
  destruct (Nat.eqb_spec (length (List.filter (λ e : string * D, attr e.2) (entries t))) 0) as [E|_].
  - transitivity (u32s [np; u32 (u32 (Z.of_nat (length (entries t))) - 0)]).
    + rewrite Z.sub_0_r, (u32_small (u32 _)) by apply u32_range. done.
    + rewrite u32s_count. do 3 f_equal. lia.
  - rewrite (Z.mul_opp_l 1), Z.mul_1_l, Z.add_opp_r, u32s_count. do 3 f_equal. lia.
Qed.

Lemma uncounted_role p d : role_attr_uncount p d = skip_role p d.
Proof. unfold role_attr_uncount, skip_role. by destruct (r_flavor d =? _), (is_kern p), (policyvers p <? _). Qed.

Lemma uncounted_type p d : type_attr_uncount p d = skip_type p d.
Proof. unfold type_attr_uncount, skip_type. by destruct (flavor d =? _), (is_kern p), (policyvers p <? _). Qed.

(** The formats from version 20 on. *)
Lemma new_format vers info :
  policydb_lookup_compat vers POLICY_KERN SEPOL_TARGET_SELINUX = Some info → POLICYDB_VERSION_AVTAB <= vers →
  vers <= POLICYDB_VERSION_MAX ∧ sym_num info = SYM_NUM ∧
  ocon_num info = if vers =? POLICYDB_VERSION_MAX then OCON_NUM else OCON_NODE6 + 1.
Proof.
  intros H Hv. apply find_some in H as [Hin Hc].
  pose (chk i := implb ((ci_type i =? POLICY_KERN) && (ci_target_platform i =? SEPOL_TARGET_SELINUX) &&
                        (POLICYDB_VERSION_AVTAB <=? ci_version i))
    ((ci_version i <=? POLICYDB_VERSION_MAX) && (sym_num i =? SYM_NUM) &&
     (ocon_num i =? if ci_version i =? POLICYDB_VERSION_MAX then OCON_NUM else OCON_NODE6 + 1))).
  assert (Hall : forallb chk policydb_compat = true) by reflexivity.
  rewrite forallb_forall in Hall. specialize (Hall info Hin). unfold chk in Hall.
  apply andb_true_iff in Hc as [Hc Ht]. apply andb_true_iff in Hc as [<-%Z.eqb_eq Hk].
  apply Z.leb_le in Hv. rewrite Hk, Ht, Hv in Hall. cbn [andb implb] in Hall.
  apply andb_true_iff in Hall as [H1 H2%Z.eqb_eq]. apply andb_true_iff in H1 as [H1%Z.leb_le H3%Z.eqb_eq]. done.
Qed.

Section emission.
Context (cm : bool).

Lemma emits_symtab_with {D D'} (t : symtab D) (h : hashtab_t string D') (attr : D' → bool) count w (w' : string → D' → writer) enc sz P :
  (table t = None ↔ h = None) → (nel <$> table t) = (nel <$> h) →
  (∀ n, hashtab_map (table t) count n = hashtab_map h (uncount_attr attr) n) →
  (∀ s, hashtab_map (table t) w s = hashtab_map h w' s) →
  table_ok sz attr P (nprim t) h → (∀ k d, attr d = true → emits cm (w' k d) []) →
  (∀ k d, attr d = false → P k d → emits cm (w' k d) (enc k d)) →
  emits cm (put_symtab_with t count w) (table_part attr enc (nprim t) h).
Proof.
  intros Hs Hn Hc Hw [Hwf [tv Etv] _ _ _ Ha] Hskip Hemit. cbn [table] in *. subst h.
  assert (∃ tt, table t = Some tt) as [tt Et].
  { destruct (table t) as [tt|]; [by exists tt|]. destruct Hs as [Hs _]. discriminate (Hs eq_refl). }
  rewrite Et in Hn, Hc, Hw. injection Hn as En.
  destruct (uncount_entries attr (Some tv) (nprim t) Hwf) as (n&Hcount&Eb); [by eexists|].
  eapply emits_ext.
  { intros s. unfold put_symtab_with. rewrite Et, Hc, En, Hcount. unfold w_then, mbind, M_bind. reflexivity. }
  apply (emits_ext _ _ (put_u32s [nprim t; n];;; hashtab_map (Some tv) w')).
  { intros s. unfold w_then, mbind, M_bind. destruct (put_u32s [nprim t; n] s) as [[rc s']| |]; [|done..].
    destruct (rc =? 0); [apply Hw|done]. }
  apply emits_then; [rewrite <- Eb; by apply emits_u32s|]. apply emits_table; [done|].
  intros k d Hkd. destruct (attr d) eqn:E; cbn [negb]; [by apply Hskip|]. apply Hemit; [done|].
  destruct (Ha k d Hkd) as [?|?]; [congruence|done].
Qed.

Lemma emits_ptr_symtab {D} (store : list D) (t : symtab ptr) (h : hashtab_t string D) attr w enc sz P :
  points store (table t) h → table_ok sz attr P (nprim t) h → (∀ k d, attr d = true → emits cm (w k d) []) →
  (∀ k d, attr d = false → P k d → emits cm (w k d) (enc k d)) →
  emits cm (put_ptr_symtab store attr t w) (table_part attr enc (nprim t) h).
Proof.
  intros Hp. apply emits_symtab_with.
  - destruct (table t), h; done.
  - by eapply points_nel.
  - intros n. by apply points_map.
  - intros s. by apply points_map.
Qed.

Lemma emits_symtab {D} (t : symtab D) attr w enc sz P :
  table_ok sz attr P (nprim t) (table t) → (∀ k d, attr d = true → emits cm (w k d) []) →
  (∀ k d, attr d = false → P k d → emits cm (w k d) (enc k d)) →
  emits cm (put_symtab attr t w) (table_part attr enc (nprim t) (table t)).
Proof. by apply emits_symtab_with. Qed.

Lemma emits_symtabs p v i : represents p v → symbols_ok p v → emits cm (write_symtab p i) (symtab_bytes p v i).
Proof.
  intros [] []. unfold write_symtab, symtab_bytes.
  repeat (apply (emits_case cm (i =? _)); [|]).
  - eapply emits_symtab; [done..|]. intros k d _. apply emits_common.
  - eapply emits_ptr_symtab; [done..|]. intros k d _. apply emits_class.
  - eapply emits_ptr_symtab; [done..| |].
    + intros k d Hd. rewrite uncounted_role in Hd. unfold role_write. rewrite Hd. apply emits_nil.
    + intros k d Hd Hk. apply emits_role; [apply Hk|]. apply Hk.
  - eapply emits_ptr_symtab; [done..| |].
    + intros k d Hd. rewrite uncounted_type in Hd. unfold type_write. rewrite Hd. apply emits_nil.
    + intros k d Hd Hk. apply emits_type; [apply Hk|]. apply Hk.
  - eapply emits_ptr_symtab; [done..|]. intros k d _ Hk. apply emits_user, Hk.
  - eapply emits_ptr_symtab; [done..|]. intros k d _ Hk. apply emits_bool, Hk.
  - eapply emits_symtab; [done..|]. intros k d _. apply emits_sens.
  - eapply emits_symtab; [done..|]. intros k d _ Hk. apply emits_cat, Hk.
Qed.

Lemma header_kern p info : header_ok p info → is_kern p = true.
Proof. intros H. unfold is_kern. by rewrite (hd_kern _ _ H). Qed.

Lemma emits_rules p v info : header_ok p info → represents p v → rules_ok cm p v →
  emits cm (write_rules p) (rules_bytes cm p v).
Proof.
  intros Hh Hr [Hav Hc Hw Hs Hf]. pose proof (hd_vers _ _ Hh) as Hv. pose proof (hd_target _ _ Hh) as Ht.
  assert (Hold : oldvers p = false).
  { unfold oldvers. apply andb_false_iff. right. apply Z.ltb_ge. done. }
  unfold write_rules, rules_bytes, avtab_write. rewrite Hold.
  apply emits_then; [by apply emits_avtab|].
  apply emits_then.
  { unfold when. destruct (Z.leb_spec POLICYDB_VERSION_BOOL (policyvers p)) as [_|Hb].
    - by apply emits_cond_list.
    - unfold POLICYDB_VERSION_BOOL, POLICYDB_VERSION_AVTAB in *. lia. }
  apply emits_then; [apply emits_role_tr|]. apply emits_then; [apply emits_role_allow|].
  apply emits_when. intros Hfv%Z.leb_le. apply emits_filename_trans; try done; [apply Hr|].
  intros k d Hkd. apply (Hf k d Hkd).
Qed.

Lemma emits_type_map p i : type_maps_ok p → 0 <= i < nprim (p_types p) →
  emits cm (write_map (type_attr_map p) i) (type_map_bytes p i).
Proof.
  intros [Hl Hf] Hi. destruct (at_index_in (type_attr_map p) i) as [o Eo]; [lia|].
  rewrite Forall_forall in Hf. destruct (Hf o) as (e&->&_).
  { by eapply at_index_elem. }
  unfold type_map_bytes. rewrite Eo. apply (emits_ext _ _ (ebitmap_write e)); [|apply emits_ebitmap].
  intros s. unfold write_map. by rewrite Eo.
Qed.

Lemma elem_of_upto i n : i ∈ upto n ↔ 0 <= i < n.
Proof. unfold upto. rewrite elem_of_seqZ. lia. Qed.

Section write.
Context (write_module : policydb_compat_info → policydb → writer) (write_module_ranges : policydb → writer).

Lemma emits_body p v info :
  header_ok p info → represents p v → symbols_ok p v → rules_ok cm p v → labels_ok p → type_maps_ok p →
  emits cm (write_body write_module write_module_ranges p info)
    (u32s [policyvers p; config_of p; sym_num info; ocon_num info] ++ caps_bytes p ++
     (upto (sym_num info) ≫= symtab_bytes p v) ++ rules_bytes cm p v ++
     kinds_bytes (ocontext_bytes_selinux p) 0 (Z.to_nat (ocon_num info)) (ocontexts p) ++
     genfs_bytes p (genfs p) ++ range_tr_bytes p ++ (upto (nprim (p_types p)) ≫= type_map_bytes p)).
Proof.
  intros Hh Hr Hs Hru Hl Hm. pose proof (header_kern _ _ Hh) as Hk. pose proof (hd_vers _ _ Hh) as Hv.
  destruct (new_format _ _ (hd_info _ _ Hh) Hv) as (Hmax&Hsn&Hoc).
  unfold write_body, from_version, write_ranges, caps_bytes. rewrite Hk. rewrite (hd_kern _ _ Hh), andb_true_r, !andb_true_l.
  cbn [app Z.eqb POLICY_KERN POLICY_MOD when w_then]. rewrite <- app_assoc.
  apply emits_then; [by apply emits_u32s|]. apply (emits_then _ _ _ []); [apply emits_nil|].
  apply emits_then; [apply emits_when; intros _; apply emits_ebitmap|].
  apply emits_then; [apply emits_when; intros _; apply emits_ebitmap|].
  apply emits_then; [apply emits_all, Forall_true; intros i; by apply emits_symtabs|].
  apply emits_then; [by eapply emits_rules|].
  apply emits_then.
  { apply emits_ocontexts; [apply Hh| |apply Hl]. rewrite Hoc, (la_length _ Hl). by destruct (policyvers p =? _). }
  apply emits_then; [apply emits_genfs, Hl|].
  apply emits_then.
  { destruct (Z.leb_spec POLICYDB_VERSION_MLS (policyvers p)) as [_|Hb]; [apply emits_range_tr, Hl|].
    unfold POLICYDB_VERSION_MLS, POLICYDB_VERSION_AVTAB in *. lia. }
  apply Z.leb_le in Hv. rewrite Hv. cbn [when]. apply emits_all, Forall_forall. intros i Hi%elem_of_upto.
  by apply emits_type_map.
Qed.

Lemma emits_policydb p v info :
  header_ok p info → represents p v → symbols_ok p v → rules_ok cm p v → labels_ok p → type_maps_ok p →
  emits cm (policydb_write write_module write_module_ranges p) (policydb_bytes cm p v info).
Proof.
  intros Hh Hr Hs Hru Hl Hm. pose proof (header_kern _ _ Hh) as Hk. pose proof (hd_vers _ _ Hh) as Hv.
  unfold policydb_write. rewrite (hd_format _ _ Hh). cbn [Z.eqb negb].
  replace (mls_unsupported p) with false.
  2:{ unfold mls_unsupported, from_version. rewrite Hk. symmetry. apply andb_false_iff. right. apply negb_false_iff, Z.leb_le.
      unfold POLICYDB_VERSION_MLS, POLICYDB_VERSION_AVTAB in *. lia. }
  unfold policydb_bytes, header_bytes. rewrite <- (app_assoc (u32s [_; _] ++ _)). apply emits_then.
  - unfold write_magic. rewrite Hk. eapply emits_ext.
    { intros s. unfold target_string. rewrite (hd_target _ _ Hh). reflexivity. }
    apply emits_then; [by apply emits_u32s|by apply emits_string].
  - rewrite (hd_kern _ _ Hh), (hd_target _ _ Hh), (hd_info _ _ Hh). by apply emits_body.
Qed.
End write.
End emission.
