(* ===== verification/PolicydbSound.v ===== *)
(** * What a policy file must be to be accepted

    [policydb_init] and [policydb_read] on arbitrary bytes: every policy they
    return for a kernel format from version 20 on has well-formed rule tables,
    symbol tables whose indexes are their inverses, valid contexts in every
    label, and attribute maps that are the inverse of each other. *)

From S2P Require Import Prelude Policyfile Ebitmap EbitmapFile Hashtab SymtabFile Avtab Context Policydb Expand Mls Cond.
From S2P Require Import MlsFile ClassFile SymbolFile PtrTable AvtabFile TransFile CondFile LabelFile Indexes Reindex PolicydbFile.

(** [accepts r Q]: a value [r] returns satisfies [Q]. *)
Definition accepts {A} (r : R A) (Q : A → Prop) : Prop :=
  ∀ s, file_ok s → match r s with Ret (inr a, s') => Q a ∧ file_ok s' | _ => True end.

Section accepts_rules.

Lemma accepts_of {A} (r : R A) Q : sound r Q → accepts r Q.
Proof. intros H s Hs. specialize (H s Hs). by destruct (r s) as [[[e|a] s']| |]. Qed.

Lemma accepts_ret {A} (a : A) (Q : A → Prop) : Q a → accepts (mret a) Q.
Proof. intros H. by apply accepts_of, sound_ret. Qed.

Lemma accepts_bind {A B} (r : R A) (f : A → R B) P Q :
  accepts r P → (∀ a, P a → accepts (f a) Q) → accepts (r ≫= f) Q.
Proof.
  intros H1 H2 s Hs. specialize (H1 s Hs). unfold mbind, R_bind.
  destruct (r s) as [[[e|a] s']| |]; try done. destruct H1 as [Ha Hs']. by apply H2.
Qed.

Lemma accepts_mono {A} (r : R A) (P Q : A → Prop) : accepts r P → (∀ a, P a → Q a) → accepts r Q.
Proof. intros H1 H2 s Hs. specialize (H1 s Hs). destruct (r s) as [[[e|a] s']| |]; try done. destruct H1. auto. Qed.

Lemma accepts_must {A} (o : option A) : accepts (must o) (λ a, o = Some a).
Proof. intros s Hs. by destruct o. Qed.

Lemma accepts_must_bind {A B} (o : option A) (f : A → R B) Q : (∀ a, o = Some a → accepts (f a) Q) → accepts (must o ≫= f) Q.
Proof. intros H. eapply accepts_bind; [apply accepts_must|done]. Qed.

Lemma accepts_guard_bind {B} rc (b : bool) (f : () → R B) Q : (b = true → accepts (f ()) Q) → accepts (guard_or rc b ≫= f) Q.
Proof. intros H. eapply accepts_bind; [apply accepts_of, sound_guard|]. intros []. apply H. Qed.

Lemma accepts_in_mem {A} (f : mem → A * mem) (Q : A → Prop) : (∀ m, Q (f m).1) → accepts (in_mem f) Q.
Proof. intros H. by apply accepts_of, sound_in_mem. Qed.

Lemma accepts_on_error {A} rc (r : R A) Q : accepts r Q → accepts (on_error rc r) Q.
Proof. intros H s Hs. specialize (H s Hs). unfold on_error. by destruct (r s) as [[[e|a] s']| |]. Qed.

Lemma accepts_in_st {A} (f : M st A) p (Q : A * policydb → Prop) :
  (∀ m, match f (p, m) with Ret (a, (p', _)) => Q (a, p') | _ => True end) → accepts (in_st f p) Q.
Proof. intros H s Hs. specialize (H (fmem s)). unfold in_st. destruct (f _) as [[a [p' m']]| |]; done. Qed.

Lemma accepts_agrees {A B} (Q : A → B → Prop) (P : B → Prop) (r1 : R A) (r2 : R B) :
  agrees Q r1 r2 → sound r2 P → accepts r1 (λ a, ∃ b, P b ∧ Q a b).
Proof. intros. by eapply accepts_of, sound_agrees. Qed.
End accepts_rules.

(** ** [policydb_init] *)

(** The policy it makes. *)
Definition initial_policy : policydb :=
  match policydb_init (FS (PF PF_USE_MEMORY [] 0 []) false []) with
  | Ret (inr p, _) => p
  | _ => policydb_zero
  end.

Lemma accepts_symtab_create {D} sz : accepts (symtab_create (D := D) sz) (λ s, s = SYM (empty_table sz) 0).
Proof.
  intros s Hs. unfold symtab_create, symtab_init, hashtab_create, in_mem, mbind, R_bind.
  destruct (malloc (fmem s)) as [[] m]; cbn; [|done]. destruct (malloc m) as [[] m']; done.
Qed.

Lemma accepts_scopes sizes : accepts (scopes_init sizes) (λ l, l = (λ n, SYM (empty_table n) 0) <$> sizes).
Proof.
  induction sizes as [|n sizes IH]; [by apply accepts_ret|]. cbn [scopes_init].
  eapply accepts_bind; [apply accepts_symtab_create|]. intros s ->. eapply accepts_bind; [done|]. intros l ->. by apply accepts_ret.
Qed.

Lemma accepts_create {K D} `{HashKey K} sz : accepts (in_mem (hashtab_create (K := K) (D := D) sz)) (λ h, is_Some h → h = empty_table sz).
Proof.
  apply accepts_in_mem. intros m. unfold hashtab_create. destruct (malloc m) as [[] m']; cbn; [|by intros [? ?]].
  destruct (malloc m') as [[] m'']; cbn; [done|by intros [? ?]].
Qed.

Lemma accepts_alloc_bind {B} rc (f : () → R B) Q : accepts (f ()) Q → accepts (alloc_or rc ≫= f) Q.
Proof.
  intros H. apply (accepts_bind _ _ (λ _, True)); [|by intros []]. intros s Hs.
  unfold alloc_or, in_mem, mbind, R_bind. by destruct (malloc (fmem s)) as [[] m].
Qed.

(** The policy before the role [object_r] is entered. *)
Definition empty_policy : policydb :=
  let e {D} sz : symtab D := SYM (empty_table sz) 0 in
  let p := set_p_cats (e 16) (set_p_levels (e 16) (set_p_bools (e 16) (set_p_users (e 128) (set_p_types (e 512)
             (set_p_roles (e 16) (set_p_classes (e 32) (set_p_commons (e 2) policydb_zero))))))) in
  set_te_avtab (avtab_init (te_avtab policydb_zero)) (set_global [BLK [DECL 1 (replicate 8 ebitmap_init)]]
    (set_scope ((λ n, SYM (empty_table n) 0) <$> symtab_sizes) p)).

Lemma accepts_roles_init : accepts (roles_init empty_policy) (λ p,
  p = set_filename_trans_tab None (set_range_tr None initial_policy)).
Proof.
  unfold roles_init. do 2 apply accepts_alloc_bind. cbv zeta.
  eapply (accepts_bind _ _ (λ r, r.1.1 = 0 → r.2 = set_filename_trans_tab None (set_range_tr None initial_policy))).
  { apply accepts_in_st. intros m.
    do 8 (destruct m as [|[] m]; [vm_compute; done| |vm_compute; done]). vm_compute. done. }
  intros [[rc v] p] Hp. cbn [fst snd] in *. apply accepts_guard_bind. intros E%Z.eqb_eq. apply accepts_guard_bind. intros _.
  apply accepts_ret. by apply Hp.
Qed.

Lemma accepts_init : accepts policydb_init (λ p, p = initial_policy).
Proof.
  unfold policydb_init.
  do 8 (eapply accepts_bind; [apply accepts_symtab_create|]; intros ? ->).
  eapply accepts_bind; [apply accepts_on_error, accepts_scopes|]. intros ? ->.
  eapply (accepts_bind _ _ (λ b, b = [BLK [DECL 1 (replicate 8 ebitmap_init)]])).
  { apply accepts_on_error. unfold global_block. do 2 apply accepts_alloc_bind.
    eapply accepts_bind; [apply accepts_scopes|]. intros ? _. by apply accepts_ret. }
  intros ? ->. cbv zeta. eapply accepts_bind; [apply accepts_roles_init|]. intros ? ->.
  eapply accepts_bind; [apply accepts_create|]. intros ft Hft. apply accepts_guard_bind. intros Hs%bool_decide_eq_true.
  rewrite (Hft Hs). eapply accepts_bind; [apply accepts_create|]. intros rt Hrt. apply accepts_guard_bind.
  intros Hs'%bool_decide_eq_true. rewrite (Hrt Hs'). apply accepts_ret. vm_compute. done.
Qed.

(** Without a failing allocation it succeeds. *)
Lemma parses_alloc_bind {B} c rc (f : () → R B) bs v : parses c (f ()) bs v → parses c (alloc_or rc ≫= f) bs v.
Proof.
  intros H rest out m Hm. unfold alloc_or, in_mem, mbind, R_bind. cbn. destruct (malloc_plenty m Hm) as (m'&->&Hm'). cbn. by apply H.
Qed.

Lemma parses_scopes c sizes : parses c (scopes_init sizes) [] ((λ n, SYM (empty_table n) 0) <$> sizes).
Proof.
  induction sizes as [|n sizes IH]; [apply parses_ret|]. cbn [scopes_init].
  eapply parses_bind_nil; [apply parses_symtab_create|]. eapply parses_bind_nil; [exact IH|]. apply parses_ret.
Qed.

Lemma parses_create {K D} `{HashKey K} c sz : parses c (in_mem (hashtab_create (K := K) (D := D) sz)) [] (empty_table sz).
Proof.
  apply parses_in_mem. intros m Hm. unfold hashtab_create.
  destruct (malloc_plenty m Hm) as (m1&->&Hm1). cbn [negb]. destruct (malloc_plenty m1 Hm1) as (m2&->&Hm2). by exists m2.
Qed.

Lemma parses_roles_init c : parses c (roles_init empty_policy) [] (set_filename_trans_tab None (set_range_tr None initial_policy)).
Proof.
  unfold roles_init. do 2 apply parses_alloc_bind. cbv zeta. intros rest out m Hm.
  do 5 (destruct m as [|[] m];
    [vm_compute; exists []; split; [constructor|done]|apply Forall_cons in Hm as [_ Hm]|by apply Forall_cons in Hm as [[=] _]]).
  vm_compute. exists m. split; [exact Hm|done].
Qed.

Lemma parses_init c : parses c policydb_init [] initial_policy.
Proof.
  unfold policydb_init.
  do 8 (eapply parses_bind_nil; [apply parses_symtab_create|]).
  eapply parses_bind_nil; [apply parses_on_error, parses_scopes|].
  eapply parses_bind_nil with (a := [BLK [DECL 1 (replicate 8 ebitmap_init)]]).
  { apply parses_on_error. unfold global_block. do 2 apply parses_alloc_bind.
    eapply parses_bind_nil; [apply parses_scopes|apply parses_ret]. }
  cbv zeta. eapply parses_bind_nil; [apply parses_roles_init|].
  eapply parses_bind_nil; [apply parses_create|]. apply parses_guard_bind; [done|].
  eapply parses_bind_nil; [apply parses_create|]. apply parses_guard_bind; [done|].
  match goal with |- parses _ (mret ?p) _ _ => assert (p = initial_policy) as ->; [by vm_compute|apply parses_ret] end.
Qed.

(** ** The symbol tables *)

(** A table of pointers into [l], whose objects satisfy [P]. *)
Definition ptrs_good {D} (P : D → Prop) (h : hashtab_t string ptr) (l : list D) : Prop :=
  hashtab_wf h ∧ (∀ k a, to_map h !! k = Some a → is_Some (at_index l a)) ∧ Forall P l.

Lemma ptrs_good_empty {D} (P : D → Prop) sz : 0 < sz → ptrs_good P (empty_table sz) [].
Proof.
  intros Hsz. destruct (empty_table_wf (K := string) (D := ptr) sz Hsz) as [Hw Em]. split; [done|]. split; [|constructor].
  intros k a. by rewrite Em, lookup_empty.
Qed.

Lemma accepts_ptr_insert {D} (P : D → Prop) t k d :
  key_ok k → P d → ptrs_good P t.1 t.2 → accepts (ptr_insert dup_fails t k d) (λ t', ptrs_good P t'.1 t'.2).
Proof.
  intros Hk Hd (Hw&Hp&Hl). unfold ptr_insert.
  eapply (accepts_bind _ _ (λ r, (r.1 = SEPOL_OK → hashtab_wf r.2 ∧ to_map r.2 = <[k := Z.of_nat (length t.2)]> (to_map t.1)))).
  { apply accepts_in_mem. intros m. pose proof (hashtab_insert_correct t.1 k (Z.of_nat (length t.2)) m Hw Hk) as H.
    destruct (hashtab_insert _ _ _ _) as [[rc h'] m']. cbn. destruct H as (Hw'&_&[(->&_&E)|[(->&_)|(->&_)]]); [|done..]. done. }
  intros [rc h'] Hr. cbn [fst snd] in Hr. destruct (Z.eqb_spec rc SEPOL_OK) as [E|_].
  - destruct (Hr E) as [Hw' Em]. apply accepts_ret. split; [done|]. cbn [fst snd]. split; [|by apply Forall_app_2; [|constructor]].
    intros k' a. rewrite Em, lookup_insert_Some. intros [[<- <-]|[_ Hk']].
    + rewrite at_index_last. by eexists.
    + destruct (Hp _ _ Hk') as [d' Hd']. exists d'. by apply at_index_app_l.
  - destruct (rc =? SEPOL_EEXIST); [|by apply accepts_of, sound_fail].
    apply (accepts_bind _ _ (λ _, False)); [by apply accepts_of, sound_fail|done].
Qed.

Lemma accepts_ptr_read {D} (P : D → Prop) r n : sound r (entry_sound P) → ∀ t,
  ptrs_good P t.1 t.2 → accepts (ptr_read dup_fails r n t) (λ t', ptrs_good P t'.1 t'.2).
Proof.
  intros Hr. induction n as [|n IH]; intros t Ht; [by apply accepts_ret|]. cbn [ptr_read].
  apply (accepts_bind _ _ (λ t', ptrs_good P t'.1 t'.2)); [|intros t' Ht'; by apply IH]. eapply accepts_bind; [by apply accepts_of|].
  intros [[k d]|] He; [|by apply accepts_ret]. destruct He. by apply accepts_ptr_insert.
Qed.

(** What [read_symtab] leaves in each case. *)
Definition values_table {D} (P : D → Prop) (t : symtab D) : Prop :=
  hashtab_wf (table t) ∧ u32_ok (nprim t) ∧ all_entries (λ _ d, P d) (table t).
Definition ptr_table {D} (P : D → Prop) (t : symtab ptr) (l : list D) : Prop :=
  ptrs_good P (table t) l ∧ u32_ok (nprim t).

Lemma accepts_counts {A} (f : list Z → R A) Q :
  (∀ np nel, u32_ok np → u32_ok nel → accepts (f [np; nel]) Q) → accepts (next_u32s 2 ≫= f) Q.
Proof.
  intros H. eapply accepts_bind; [by apply accepts_of, sound_u32s|]. intros buf [El Hb].
  destruct buf as [|np [|nel [|]]]; try (cbn in El; lia). apply H; [by apply Forall_inv in Hb|by apply Forall_inv_tail, Forall_inv in Hb].
Qed.

Lemma accepts_values {D} (P : D → Prop) r n (set : symtab D → policydb → policydb) h np p :
  sound r (entry_sound P) → hashtab_wf h → all_entries (λ _ d, P d) h → u32_ok np →
  accepts (h ← table_read r n h; mret (set (SYM h np) p)) (λ p', ∃ t, p' = set t p ∧ values_table P t).
Proof.
  intros Hr Hw Ha Hn. eapply accepts_bind; [by apply accepts_of, (sound_table r (λ _ d, P d))|].
  intros h' [Hw' Ha']. apply accepts_ret. by eexists.
Qed.

Lemma accepts_ptrs {D} (P : D → Prop) r n (set : symtab ptr → list D → policydb) h l np :
  sound r (entry_sound P) → ptrs_good P h l → u32_ok np →
  accepts ('(h, l) ← ptr_read dup_fails r n (h, l); mret (set (SYM h np) l)) (λ p', ∃ t l, p' = set t l ∧ ptr_table P t l).
Proof.
  intros Hr Ht Hn. eapply accepts_bind; [by apply accepts_ptr_read|]. intros [h' l'] H. apply accepts_ret. by eexists _, _.
Qed.

(** The part of a policy that reading the symbols leaves alone. *)
Record same_rest (p q : policydb) : Prop := {
  sr_type : policy_type q = policy_type p;
  sr_vers : policyvers q = policyvers p;
  sr_te : te_avtab q = te_avtab p;
  sr_cond : te_cond_avtab q = te_cond_avtab p;
  sr_genfs : genfs q = genfs p;
  sr_ocontexts : ocontexts q = ocontexts p;
  sr_global : global q = global p;
  sr_names : sym_val_to_name q = sym_val_to_name p
}.

Definition common_sound (d : common_datum) : Prop := u32_ok (cm_value d) ∧ perms_sound (table (cm_permissions d)).

Record symbols_sound (p : policydb) : Prop := {
  ss_commons : values_table common_sound (p_commons p);
  ss_classes : ptr_table (class_sound p) (p_classes p) (class_mem p);
  ss_roles : ptr_table (role_sound p) (p_roles p) (role_mem p);
  ss_types : ptr_table type_sound (p_types p) (type_mem p);
  ss_users : ptr_table (user_sound p) (p_users p) (user_mem p);
  ss_bools : ptr_table bool_sound (p_bools p) (bool_mem p);
  ss_levels : values_table level_sound (p_levels p);
  ss_cats : values_table (λ d, u32_ok (ct_value d)) (p_cats p)
}.

Lemma class_sound_ext p q d :
  p_commons q = p_commons p → policy_type q = policy_type p → policyvers q = policyvers p → class_sound p d → class_sound q d.
Proof.
  intros Ec Et Ev [Hv Hc Hp Hk Hvt].
  assert (Hext : ∀ ax l, cons_list_ok p ax l → cons_list_ok q ax l).
  { intros ax l. unfold cons_list_ok, cons_node_ok, cons_expr_ok, has_type_names, is_kern, kern_or_base. by rewrite Et, Ev. }
  split; [done|by rewrite Ec|done|by apply Hext..].
Qed.

Lemma ptr_table_mono {D} (P Q : D → Prop) t l : (∀ d, P d → Q d) → ptr_table P t l → ptr_table Q t l.
Proof. intros HPQ [(Hw&Hp&Hl) Hn]. split; [|done]. split; [done|]. split; [done|]. by eapply Forall_impl. Qed.

(** Reading one table. *)
Section read_tables.
Context (p : policydb).

Lemma accepts_symtab {Q : policydb → Prop} i :
  (∀ np n, u32_ok np → accepts (read_symbols i np n p) Q) → accepts (read_symtab i p) Q.
Proof. intros H. apply accepts_counts. intros np nel Hn _. cbv zeta. apply accepts_guard_bind. intros _. by apply H. Qed.

Lemma accepts_commons : values_table common_sound (p_commons p) →
  accepts (read_symtab SYM_COMMONS p) (λ p', ∃ t, p' = set_p_commons t p ∧ values_table common_sound t).
Proof.
  intros (Hw&_&Ha). apply accepts_symtab. intros np n Hn. by apply (accepts_values common_sound _ _ (λ t, set_p_commons t)); [apply sound_common_entry|..].
Qed.

Lemma accepts_classes : ptr_table (class_sound p) (p_classes p) (class_mem p) →
  accepts (read_symtab SYM_CLASSES p) (λ p', ∃ t l, p' = set_class_mem l (set_p_classes t p) ∧ ptr_table (class_sound p) t l).
Proof.
  intros [Ht _]. apply accepts_symtab. intros np n Hn.
  by apply (accepts_ptrs _ _ _ (λ t l, set_class_mem l (set_p_classes t p))); [apply sound_class_entry|..].
Qed.

Lemma accepts_roles : ptr_table (role_sound p) (p_roles p) (role_mem p) →
  accepts (read_symtab SYM_ROLES p) (λ p', ∃ t l, p' = set_role_mem l (set_p_roles t p) ∧ ptr_table (role_sound p) t l).
Proof.
  intros [Ht _]. apply accepts_symtab. intros np n Hn.
  by apply (accepts_ptrs _ _ _ (λ t l, set_role_mem l (set_p_roles t p))); [apply sound_role_entry|..].
Qed.

Lemma accepts_types : ptr_table type_sound (p_types p) (type_mem p) →
  accepts (read_symtab SYM_TYPES p) (λ p', ∃ t l, p' = set_type_mem l (set_p_types t p) ∧ ptr_table type_sound t l).
Proof.
  intros [Ht _]. apply accepts_symtab. intros np n Hn.
  by apply (accepts_ptrs _ _ _ (λ t l, set_type_mem l (set_p_types t p))); [apply sound_type_entry|..].
Qed.

Lemma accepts_users : ptr_table (user_sound p) (p_users p) (user_mem p) →
  accepts (read_symtab SYM_USERS p) (λ p', ∃ t l, p' = set_user_mem l (set_p_users t p) ∧ ptr_table (user_sound p) t l).
Proof.
  intros [Ht _]. apply accepts_symtab. intros np n Hn.
  by apply (accepts_ptrs _ _ _ (λ t l, set_user_mem l (set_p_users t p))); [apply sound_user_entry|..].
Qed.

Lemma accepts_bools : ptr_table bool_sound (p_bools p) (bool_mem p) →
  accepts (read_symtab SYM_BOOLS p) (λ p', ∃ t l, p' = set_bool_mem l (set_p_bools t p) ∧ ptr_table bool_sound t l).
Proof.
  intros [Ht _]. apply accepts_symtab. intros np n Hn.
  by apply (accepts_ptrs _ _ _ (λ t l, set_bool_mem l (set_p_bools t p))); [apply sound_bool_entry|..].
Qed.

Lemma accepts_levels : values_table level_sound (p_levels p) →
  accepts (read_symtab SYM_LEVELS p) (λ p', ∃ t, p' = set_p_levels t p ∧ values_table level_sound t).
Proof.
  intros (Hw&_&Ha). apply accepts_symtab. intros np n Hn. by apply (accepts_values level_sound _ _ (λ t, set_p_levels t)); [apply sound_sens_entry|..].
Qed.

Lemma accepts_cats : values_table (λ d, u32_ok (ct_value d)) (p_cats p) →
  accepts (read_symtab SYM_CATS p) (λ p', ∃ t, p' = set_p_cats t p ∧ values_table (λ d, u32_ok (ct_value d)) t).
Proof.
  intros (Hw&_&Ha). apply accepts_symtab. intros np n Hn.
  by apply (accepts_values (λ d, u32_ok (ct_value d)) _ _ (λ t, set_p_cats t)); [apply sound_cat_entry|..].
Qed.
End read_tables.

(** All eight. *)
Lemma accepts_symbols p : class_mem p = [] → symbols_sound p →
  accepts (read_symtabs 0 8 p) (λ q, symbols_sound q ∧ same_rest p q).
Proof.
  intros Hc0 [S1 S2 S3 S4 S5 S6 S7 S8]. cbn [read_symtabs].
  eapply accepts_bind; [by apply accepts_commons|]. intros p1 (t1&->&T1).
  eapply accepts_bind; [apply accepts_classes|].
  { destruct S2 as [(Hw&Hp&Hl) Hn]. split; [|done]. cbn. split; [done|]. split; [done|]. rewrite Hc0. constructor. }
  intros p2 (t2&l2&->&T2). eapply accepts_bind; [by apply accepts_roles|]. intros p3 (t3&l3&->&T3).
  eapply accepts_bind; [by apply accepts_types|]. intros p4 (t4&l4&->&T4).
  eapply accepts_bind; [by apply accepts_users|]. intros p5 (t5&l5&->&T5).
  eapply accepts_bind; [by apply accepts_bools|]. intros p6 (t6&l6&->&T6).
  eapply accepts_bind; [by apply accepts_levels|]. intros p7 (t7&->&T7).
  eapply accepts_bind; [by apply accepts_cats|]. intros p8 (t8&->&T8).
  apply accepts_ret. split; [|by split]. split; try done.
  eapply ptr_table_mono; [|exact T2]. intros d. by apply class_sound_ext.
Qed.

(** ** The header *)

Definition with_header (type vers mls_bit unknown target : Z) : policydb :=
  set_handle_unknown unknown (set_mls mls_bit (set_policyvers vers (set_policy_type type (set_target_platform target initial_policy)))).

Definition object_r : role_datum := RD 1 ebitmap_init empty_type_set ebitmap_init 0 0 ebitmap_init.
Definition object_r_roles : symtab ptr := SYM (hashtab_insert (empty_table 16) "object_r" 0 []).1.2 1.

Lemma object_r_table (P : role_datum → Prop) : P object_r → ptr_table P object_r_roles [object_r].
Proof.
  intros HP. destruct (empty_table_wf (K := string) (D := ptr) 16) as [Hw Em]; [done|].
  pose proof (hashtab_insert_correct (D := ptr) (empty_table 16) "object_r" 0 [] Hw I) as Hi.
  assert (Hrc : (hashtab_insert (D := ptr) (empty_table 16) "object_r" 0 []).1.1 = SEPOL_OK) by (by vm_compute).
  unfold object_r_roles. revert Hi Hrc. destruct (hashtab_insert _ _ _ _) as [[rc h'] m']. cbn [fst snd].
  intros (Hw'&_&[(_&_&E)|[(->&_)|(->&_)]]) Hrc; [|done..]. split; [|done]. split; [exact Hw'|]. split; [|constructor; [exact HP|constructor]].
  intros k a. change (to_map (table (SYM h' 1))) with (to_map h'). rewrite E, Em. rewrite lookup_insert_Some, lookup_empty.
  intros [[_ <-]|[_ ?]]; [|done]. by exists object_r.
Qed.

Lemma initial_symbols t v ml h g : symbols_sound (with_header t v ml h g).
Proof.
  assert (Hv : ∀ {D} (P : D → Prop) sz, 0 < sz → values_table P (SYM (empty_table sz) 0)).
  { intros D P sz Hz. destruct (empty_table_wf (K := string) (D := D) sz Hz) as [Hw Em]. split; [done|]. split; [done|].
    intros k d. cbn [table]. by rewrite Em, lookup_empty. }
  assert (Hp : ∀ {D} (P : D → Prop) sz, 0 < sz → ptr_table P (SYM (empty_table sz) 0) []).
  { intros D P sz Hz. split; [by apply ptrs_good_empty|done]. }
  assert (E : p_commons initial_policy = SYM (empty_table 2) 0 ∧ p_classes initial_policy = SYM (empty_table 32) 0 ∧
    p_roles initial_policy = object_r_roles ∧ p_types initial_policy = SYM (empty_table 512) 0 ∧
    p_users initial_policy = SYM (empty_table 128) 0 ∧ p_bools initial_policy = SYM (empty_table 16) 0 ∧
    p_levels initial_policy = SYM (empty_table 16) 0 ∧ p_cats initial_policy = SYM (empty_table 16) 0 ∧
    class_mem initial_policy = [] ∧ role_mem initial_policy = [object_r] ∧ type_mem initial_policy = [] ∧
    user_mem initial_policy = [] ∧ bool_mem initial_policy = []) by (by vm_compute).
  unfold with_header. revert E. generalize initial_policy. intros p (E1&E2&E3&E4&E5&E6&E7&E8&E9&E10&E11&E12&E13).
  set (q := set_handle_unknown _ _). split.
  - change (p_commons q) with (p_commons p). rewrite E1. by apply Hv.
  - change (p_classes q) with (p_classes p). change (class_mem q) with (class_mem p). rewrite E2, E9. by apply Hp.
  - change (p_roles q) with (p_roles p). change (role_mem q) with (role_mem p). rewrite E3, E10. apply object_r_table.
    repeat split; try done; apply ebitmap_wf_init.
  - change (p_types q) with (p_types p). change (type_mem q) with (type_mem p). rewrite E4, E11. by apply Hp.
  - change (p_users q) with (p_users p). change (user_mem q) with (user_mem p). rewrite E5, E12. by apply Hp.
  - change (p_bools q) with (p_bools p). change (bool_mem q) with (bool_mem p). rewrite E6, E13. by apply Hp.
  - change (p_levels q) with (p_levels p). rewrite E7. by apply Hv.
  - change (p_cats q) with (p_cats p). rewrite E8. by apply Hv.
Qed.

Lemma accepts_target s : accepts (read_target initial_policy s) (λ p, ∃ g, p = set_target_platform g initial_policy).
Proof.
  unfold read_target, policydb_set_target_platform. destruct (streq s "SE Linux"); [|destruct (streq s "XenFlask"); [|by apply accepts_of, sound_fail]];
    apply accepts_ret; eexists; reflexivity.
Qed.

Lemma same_target p : set_target_platform (target_platform p) p = p.
Proof. by destruct p. Qed.

Definition header_read (r : policydb * policydb_compat_info) : Prop :=
  ∃ t v ml h g, r.1 = with_header t v ml h g ∧ version_ok t v = true ∧ policydb_lookup_compat v t g = Some r.2.

Lemma accepts_some {A B} rc (o : option A) (f : A → R B) Q : (∀ a, o = Some a → accepts (f a) Q) → accepts (some_or_fail rc o ≫= f) Q.
Proof. intros H. eapply accepts_bind; [apply accepts_of, (sound_some rc o (λ a, o = Some a)); done|done]. Qed.

Lemma accepts_header : accepts (read_header initial_policy) header_read.
Proof.
  unfold read_header. eapply accepts_bind; [by apply accepts_of, sound_u32s|]. intros buf [_ Hb]. apply accepts_guard_bind. intros Hm.
  cbv zeta. apply accepts_guard_bind. intros _. eapply accepts_bind; [apply accepts_of, sound_key_read; by apply word_ok|]. intros s _.
  apply (accepts_bind _ _ (λ p, ∃ g, p = set_target_platform g initial_policy)).
  { destruct (word buf 0 =? POLICYDB_MAGIC); [apply accepts_target|]. apply accepts_guard_bind. intros _. apply accepts_ret.
    exists (target_platform initial_policy). by rewrite same_target. }
  intros p [g ->]. eapply accepts_bind; [apply accepts_of, sound_u32s; by destruct (word buf 0 =? POLICYDB_MAGIC)|]. intros buf' _.
  apply accepts_guard_bind. intros _. apply accepts_guard_bind. intros Hv. apply accepts_some. intros info Hi. apply accepts_guard_bind. intros _.
  apply accepts_ret. by eexists _, _, _, _, g.
Qed.

(** ** The rules *)

Lemma symbols_sound_ext p q :
  policy_type q = policy_type p → policyvers q = policyvers p →
  p_commons q = p_commons p → p_classes q = p_classes p → p_roles q = p_roles p → p_types q = p_types p → p_users q = p_users p →
  p_bools q = p_bools p → p_levels q = p_levels p → p_cats q = p_cats p →
  class_mem q = class_mem p → role_mem q = role_mem p → type_mem q = type_mem p → user_mem q = user_mem p → bool_mem q = bool_mem p →
  symbols_sound p → symbols_sound q.
Proof.
  intros Et Ev E1 E2 E3 E4 E5 E6 E7 E8 E9 E10 E11 E12 E13 [S1 S2 S3 S4 S5 S6 S7 S8].
  split; rewrite ?E1, ?E2, ?E3, ?E4, ?E5, ?E6, ?E7, ?E8, ?E9, ?E10, ?E11, ?E12, ?E13; try done.
  - eapply ptr_table_mono; [|exact S2]. intros d. by apply class_sound_ext.
  - eapply ptr_table_mono; [|exact S3]. intros d. unfold role_sound, is_kern. by rewrite Et.
  - eapply ptr_table_mono; [|exact S5]. intros d. unfold user_sound, is_kern. by rewrite Et.
Qed.

Definition no_labels : list (list ocontext) := replicate (Z.to_nat OCON_NUM) [].

(** A kernel policy after its rules were read, before it is indexed. *)
Record loaded (p : policydb) : Prop := {
  ld_symbols : symbols_sound p;
  ld_type : policy_type p = POLICY_KERN;
  ld_vers : POLICYDB_VERSION_AVTAB <= policyvers p;
  ld_te : avtab_wf (te_avtab p) ∧ avtab_unique (te_avtab p);
  ld_conds : conds_ok p (cond_list p) (te_cond_avtab p);
  ld_genfs : genfs p = [];
  ld_ocontexts : ocontexts p = no_labels;
  ld_global : decls_of (global p) = [(0, 0, 1)];
  ld_names : Z.of_nat (length (sym_val_to_name p)) = SYM_NUM
}.

Lemma accepts_ptr_read_any {K D} `{HashKey K} (dup : K → D → R ()) r n :
  sound r (λ _, True) → (∀ k d, accepts (dup k d) (λ _, True)) → ∀ t, accepts (ptr_read dup r n t) (λ _, True).
Proof.
  intros Hr Hd. induction n as [|n IH]; intros t; [by apply accepts_ret|]. cbn [ptr_read].
  apply (accepts_bind _ _ (λ _, True)); [|intros t' _; apply IH]. eapply accepts_bind; [by apply accepts_of|].
  intros [[k d]|] _; [|by apply accepts_ret]. unfold ptr_insert.
  apply (accepts_bind _ _ (λ _, True)); [by apply accepts_in_mem|]. intros [rc h'] _.
  destruct (rc =? SEPOL_OK); [by apply accepts_ret|]. destruct (rc =? SEPOL_EEXIST); [|by apply accepts_of, sound_fail].
  eapply accepts_bind; [apply Hd|]. intros ? _. by apply accepts_ret.
Qed.

Lemma accepts_filename_trans p : accepts (filename_trans_read p) (λ p', ∃ l h, p' = set_ftrans_mem l (set_filename_trans_tab h p)).
Proof.
  apply accepts_on_error. eapply accepts_bind; [by apply accepts_of, sound_u32s|]. intros buf _.
  eapply accepts_bind; [apply accepts_ptr_read_any|].
  - do 2 apply sound_need_bind. apply (sound_u32s_bind 1). intros l _ Hl. cbv zeta. apply sound_guard_bind. intros _.
    eapply sound_bind; [apply sound_key_read; by apply word_ok|]. intros name _. eapply sound_map; [by apply sound_u32s|done].
  - intros ft d. unfold duplicate_warning. cbv zeta.
    assert (Hn : ∀ sym v, accepts (λ s, match val_to_name p sym (u32 (v - 1)) with
        Ret _ => Ret (inr (), s) | Exit z => Exit z | Undef => Undef end) (λ _ : (), True)).
    { intros sym v s Hs. by destruct (val_to_name p sym (u32 (v - 1))). }
    repeat (apply (accepts_bind _ _ (λ _, True)); [apply Hn|intros ? _]). apply Hn.
  - intros t _. apply accepts_ret. by eexists _, _.
Qed.

(** Before the rules. *)
Record to_be_ruled (p : policydb) : Prop := {
  tr_symbols : symbols_sound p;
  tr_type : policy_type p = POLICY_KERN;
  tr_vers : POLICYDB_VERSION_AVTAB <= policyvers p;
  tr_te : av_htable (te_avtab p) = None;
  tr_cond : av_htable (te_cond_avtab p) = None;
  tr_genfs : genfs p = [];
  tr_ocontexts : ocontexts p = no_labels;
  tr_global : decls_of (global p) = [(0, 0, 1)];
  tr_names : Z.of_nat (length (sym_val_to_name p)) = SYM_NUM
}.

Lemma loaded_filenames p fm ft : loaded p → loaded (set_ftrans_mem fm (set_filename_trans_tab ft p)).
Proof. intros [S T V Te Tc Tg To Tb Tn]. split; [by eapply symbols_sound_ext; [..|exact S]|assumption..]. Qed.

Lemma accepts_rules p : to_be_ruled p → accepts (read_rules p) loaded.
Proof.
  intros [S T V Te Tc Tg To Tb Tn]. unfold read_rules.
  eapply accepts_bind; [apply accepts_of, (sound_avtab_read _ _ V Te)|]. intros a [Hw Hu]. cbv zeta.
  apply (accepts_bind _ _ (λ q, ∃ l t, q = set_cond_list l (set_te_cond_avtab t (set_te_avtab a p)) ∧ conds_ok q l t)).
  { change (policyvers (set_te_avtab a p)) with (policyvers p).
    destruct (Z.leb_spec POLICYDB_VERSION_BOOL (policyvers p)) as [_|Hb]; [|unfold POLICYDB_VERSION_BOOL, POLICYDB_VERSION_AVTAB in *; lia].
    eapply accepts_bind; [apply accepts_of, (sound_cond_list (set_te_avtab a p)); [exact V| |exact Tc]|].
    - cbn. destruct Hw as (_&_&_&->). apply u32_range.
    - intros [l t] Hc. apply accepts_ret. exists l, t. by split. }
  intros q (l&t&->&Hc). eapply accepts_bind; [apply accepts_of, sound_role_tr|]. intros tr _.
  eapply accepts_bind; [apply accepts_of, sound_role_allow|]. intros ra _.
  assert (H : loaded (set_role_allow ra (set_role_tr tr (set_cond_list l (set_te_cond_avtab t (set_te_avtab a p)))))).
  { split; try done. by apply (symbols_sound_ext p). }
  match goal with |- accepts (if ?b then _ else _) _ => destruct b end; [|by apply accepts_ret].
  eapply accepts_mono; [apply accepts_filename_trans|]. intros q (fm&ft&->). by apply loaded_filenames.
Qed.

(** ** The indexes *)

Lemma ptr_table_objects {D} (P : D → Prop) t l : ptr_table P t l →
  Forall (λ x, ∃ d, at_index l x.2 = Some d ∧ P d) (entries_of t).
Proof.
  intros [(Hw&Hp&Hl) _]. apply Forall_forall. intros [k a] Hx. apply elem_of_table_entries in Hx; [|done].
  destruct (Hp _ _ Hx) as [d Hd]. exists d. split; [done|]. rewrite Forall_forall in Hl. apply Hl. by eapply at_index_elem.
Qed.

Lemma values_table_entries {D} (P : D → Prop) (t : symtab D) : values_table P t → Forall (λ x, P x.2) (table_entries (table t)).
Proof. intros (Hw&_&Ha). apply Forall_forall. intros [k d] Hx. apply elem_of_table_entries in Hx; [|done]. by apply (Ha k). Qed.

Lemma ptr_table_store {D} (P Q : D → Prop) t l : ptr_table P t l → (∀ d, P d → Q d) → Forall Q l.
Proof. intros [(_&_&Hl) _] HPQ. by eapply Forall_impl. Qed.

Lemma loaded_tables p : loaded p → tables_loaded p.
Proof.
  intros [[S1 S2 S3 S4 S5 S6 S7 S8] T V Te Tc Tg To Tb Tn]. assert (Hk : is_kern p = true) by (unfold is_kern; by rewrite T).
  split; try done.
  - destruct S1 as (?&[? _]&_). done.
  - destruct S2 as [(?&_) [? _]]. done.
  - destruct S3 as [(?&_) [? _]]. done.
  - destruct S4 as [(?&_) [? _]]. done.
  - destruct S5 as [(?&_) [? _]]. done.
  - destruct S6 as [(?&_) [? _]]. done.
  - destruct S7 as (?&[? _]&_). done.
  - destruct S8 as (?&[? _]&_). done.
  - eapply Forall_impl; [exact (values_table_entries _ _ S1)|]. intros x [[? _] _]. done.
  - eapply Forall_impl; [exact (ptr_table_objects _ _ _ S2)|]. intros x (d&?&_). by exists d.
  - eapply Forall_impl; [exact (ptr_table_objects _ _ _ S3)|]. intros x (d&?&Hd). exists d. split; [done|].
    destruct Hd as (_&_&Hw&_&_&Hpl). split; [by apply Hpl|done].
  - eapply Forall_impl; [exact (ptr_table_objects _ _ _ S4)|]. intros x (d&?&_). by exists d.
  - eapply Forall_impl; [exact (ptr_table_objects _ _ _ S5)|]. intros x (d&?&Hd). exists d. split; [done|].
    destruct Hd as (_&Hw&_&_&Hpl). split; [by apply Hpl|done].
  - eapply Forall_impl; [exact (ptr_table_objects _ _ _ S6)|]. intros x (d&?&_). by exists d.
  - eapply Forall_impl; [exact (values_table_entries _ _ S7)|]. intros x (l&?&[[? _] _]). by exists l.
  - eapply Forall_impl; [exact (values_table_entries _ _ S8)|]. intros x [? _]. done.
  - apply (ptr_table_store _ _ _ _ S2). intros d [[? _] _]. done.
  - apply (ptr_table_store _ _ _ _ S3). intros d [[? _] _]. done.
  - apply (ptr_table_store _ _ _ _ S4). intros d [Hd ?]. split; [|done]. by apply Forall_inv in Hd as [? _].
  - apply (ptr_table_store _ _ _ _ S5). intros d [[? _] _]. done.
  - apply (ptr_table_store _ _ _ _ S6). intros d [[? _] _]. done.
Qed.

(** The arrays of a kind of symbols are the inverse of their values. *)
Record index_of {A} (k : kind A) (p : policydb) : Prop := {
  io_wf : hashtab_wf (table (k_tab k p));
  io_length : Z.of_nat (length (k_arr k p)) = nprim (k_tab k p);
  io_range : nprim (k_tab k p) ≠ 0 → ∀ key q v, to_map (table (k_tab k p)) !! key = Some q → value_at k p q = Some v →
    0 < v <= nprim (k_tab k p);
  io_objects : nprim (k_tab k p) ≠ 0 → ∀ i q, at_index (k_arr k p) i = Some (Some q) ↔
    0 <= i ∧ ∃ key, to_map (table (k_tab k p)) !! key = Some q ∧ value_at k p q = Some (i + 1);
  io_names : ∃ ns, at_index (sym_val_to_name p) (k_sym k) = Some ns ∧ Z.of_nat (length ns) = nprim (k_tab k p) ∧
    (nprim (k_tab k p) ≠ 0 → ∀ i key, at_index ns i = Some (Some key) ↔
       0 <= i ∧ ∃ q, to_map (table (k_tab k p)) !! key = Some q ∧ value_at k p q = Some (i + 1))
}.

Lemma index_of_slots {A} (k : kind A) p q slots :
  slots_good k p slots → hashtab_wf (table (k_tab k p)) → k_tab k q = k_tab k p → (∀ x, value_at k q x = value_at k p x) →
  k_arr k q = datums_of slots → at_index (sym_val_to_name q) (k_sym k) = Some (names slots) → index_of k q.
Proof.
  intros [[Hl Hs] Hv] Hw Et Ev Ea En. split; rewrite ?Et; try done.
  - rewrite Ea. unfold datums_of. by rewrite length_map.
  - intros Hn key x v Hx. rewrite Ev. intros Hval. destruct (Hv Hn) as [Hr _]. rewrite Forall_forall in Hr.
    apply (Hr (key, x)); [by apply elem_of_table_entries|done].
  - intros Hn i x. rewrite Ea, datums_at. split.
    + destruct (at_index slots i) as [[[key y]|]|] eqn:E; try done. intros [= ->]. apply (Hs Hn) in E as (Hx&Hval&Hi). cbn in *.
      apply elem_of_table_entries in Hx; [|done]. split; [done|]. exists key. by rewrite Ev.
    + intros (Hi&key&Hx&Hval). rewrite Ev in Hval. assert (at_index slots i = Some (Some (key, x))) as ->; [|done].
      apply (Hs Hn). split; [by apply elem_of_table_entries|done].
  - exists (names slots). split; [done|]. split; [unfold names; by rewrite length_map|]. intros Hn i key. rewrite names_at. split.
    + destruct (at_index slots i) as [[[key' y]|]|] eqn:E; try done. intros [= ->]. apply (Hs Hn) in E as (Hx&Hval&Hi). cbn in *.
      apply elem_of_table_entries in Hx; [|done]. split; [done|]. exists y. by rewrite Ev.
    + intros (Hi&x&Hx&Hval). rewrite Ev in Hval. assert (at_index slots i = Some (Some (key, x))) as ->; [|done].
      apply (Hs Hn). split; [by apply elem_of_table_entries|done].
Qed.

(** The names of the sensitivities. *)
Record names_of {A} (sym : Z) (value : A → option Z) (t : symtab A) (p : policydb) : Prop := {
  no_range : nprim t ≠ 0 → ∀ key d v, to_map (table t) !! key = Some d → value d = Some v → 0 < v <= nprim t;
  no_names : ∃ ns, at_index (sym_val_to_name p) sym = Some ns ∧ Z.of_nat (length ns) = nprim t ∧
    (nprim t ≠ 0 → ∀ i key, at_index ns i = Some (Some key) ↔ 0 <= i ∧ ∃ d, to_map (table t) !! key = Some d ∧ value d = Some (i + 1))
}.

Lemma names_of_slots {A} sym (value : A → option Z) (t : symtab A) slots p :
  names_good value t slots → hashtab_wf (table t) → at_index (sym_val_to_name p) sym = Some (names slots) → names_of sym value t p.
Proof.
  intros [[Hl Hs] Hv] Hw En. split.
  - intros Hn key d v Hx Hval. destruct (Hv Hn) as [Hr _]. rewrite Forall_forall in Hr.
    apply (Hr (key, d)); [by apply elem_of_table_entries|done].
  - exists (names slots). split; [done|]. split; [unfold names; by rewrite length_map|]. intros Hn i key. rewrite names_at. split.
    + destruct (at_index slots i) as [[[key' y]|]|] eqn:E; try done. intros [= ->]. apply (Hs Hn) in E as (Hx&Hval&Hi). cbn in *.
      apply elem_of_table_entries in Hx; [|done]. split; [done|]. by exists y.
    + intros (Hi&d&Hx&Hval). assert (at_index slots i = Some (Some (key, d))) as ->; [|done].
      apply (Hs Hn). split; [by apply elem_of_table_entries|done].
Qed.

Lemma accepts_indexing f p (Q : policydb → Prop) :
  (∀ m, behaves f (p, m) (λ rc s', rc = 0 → Q s'.1)) → accepts (indexing f p) Q.
Proof.
  intros H. unfold indexing. apply (accepts_bind _ _ (λ r, r.1 = 0 → Q r.2)).
  - apply accepts_in_st. intros m. specialize (H m). unfold behaves in H. destruct (f (p, m)) as [[rc [p' m']]| |]; [|done..].
    by destruct H as [_ H].
  - intros [rc q] Hq. apply accepts_guard_bind. intros E%Z.eqb_eq. apply accepts_ret. by apply Hq.
Qed.

Lemma put_names_same {A} sym (sl : list (option (string * A))) p : is_Some (at_index (sym_val_to_name p) sym) →
  at_index (sym_val_to_name (put_names sym sl p)) sym = Some (names sl).
Proof. intros H. unfold put_names. cbn. rewrite at_index_set by done. by rewrite bool_decide_true. Qed.

Lemma put_names_other {A} sym sym' (sl : list (option (string * A))) p : is_Some (at_index (sym_val_to_name p) sym) → sym ≠ sym' →
  at_index (sym_val_to_name (put_names sym sl p)) sym' = at_index (sym_val_to_name p) sym'.
Proof. intros H Hne. unfold put_names. cbn. rewrite at_index_set by done. by rewrite bool_decide_false. Qed.

(** A policy with its indexes and caches. *)
Record policy_indexed (p : policydb) : Prop := {
  pi_commons : names_of SYM_COMMONS common_value (p_commons p) p;
  pi_classes : index_of class_kind p;
  pi_roles : index_of role_kind p;
  pi_types : index_of type_kind p;
  pi_users : index_of user_kind p;
  pi_levels : names_of SYM_LEVELS level_value (p_levels p) p;
  pi_cats : names_of SYM_CATS cat_value (p_cats p) p;
  pi_class : in_store (class_mem p) (class_sound p) (p_classes p);
  pi_role : in_store (role_mem p) (λ d, expansion p (types (r_types d)) (r_cache d) ∧ role_types_known p d) (p_roles p);
  pi_type : in_store (type_mem p) type_sound (p_types p);
  pi_user : in_store (user_mem p) (λ d, ebitmap_wf (u_cache d) ∧ u_cache d = rs_roles (u_roles d) ∧ range_ok (exp_range d)) (p_users p);
  pi_level : hashtab_wf (table (p_levels p)) ∧ all_entries (λ _ d, level_sound d) (table (p_levels p));
  pi_cat : hashtab_wf (table (p_cats p))
}.

(** The parts that indexing does not change. *)
Record rules_good (p : policydb) : Prop := {
  rg_type : policy_type p = POLICY_KERN;
  rg_vers : POLICYDB_VERSION_AVTAB <= policyvers p;
  rg_te : avtab_wf (te_avtab p) ∧ avtab_unique (te_avtab p);
  rg_conds : conds_ok p (cond_list p) (te_cond_avtab p)
}.

Lemma expansion_ext p q ty e : type_val_to_struct q = type_val_to_struct p → type_mem q = type_mem p → expansion p ty e → expansion q ty e.
Proof. intros E1 E2. unfold expansion, contributes. by rewrite E1, E2. Qed.

Lemma known_ext p q d d' : p_types q = p_types p → type_val_to_struct q = type_val_to_struct p → r_types d' = r_types d →
  role_types_known p d → role_types_known q d'.
Proof. intros E1 E2 E3. unfold role_types_known, type_known. by rewrite E1, E2, E3. Qed.

Lemma others_indexed p q (P : Prop) :
  loaded p → others_built P p q → index_of class_kind p → names_of SYM_COMMONS common_value (p_commons p) p →
  policy_indexed q ∧ rules_good q ∧ genfs q = [] ∧ ocontexts q = no_labels.
Proof.
  intros L (sr&st&su&ba&bn&sl&sc&rm&um&Eq&Hr&Ht&Hu&_&Hl&Hc&Hty&Hrc&Huc) Hcl Hco.
  pose proof (loaded_tables p L) as LT. pose proof (tl_names _ LT) as Hn.
  set (N := sym_val_to_name p) in *.
  assert (EN : sym_val_to_name q = set_index (set_index (set_index (set_index (set_index (set_index N SYM_ROLES (names sr))
    SYM_TYPES (names st)) SYM_USERS (names su)) SYM_BOOLS bn) SYM_LEVELS (names sl)) SYM_CATS (names sc)) by (by subst q).
  assert (Erole : ∀ x d, at_index (role_mem p) x = Some d → ∃ c, at_index (role_mem q) x = Some (set_r_cache c d)).
  { intros x d Hd. destruct Hrc as [_ Hrc]. destruct (Hrc x d Hd) as (c&Hc'&_). exists c. by subst q. }
  assert (Hvr : ∀ x, value_at role_kind q x = value_at role_kind p x).
  { intros x. unfold value_at. cbn [k_store role_kind]. destruct (at_index (role_mem p) x) as [d|] eqn:Ed.
    - destruct (Erole x d Ed) as [c ->]. done.
    - replace (at_index (role_mem q) x) with (None : option role_datum); [done|]. symmetry. subst q. cbn.
      destruct Hrc as [Hlen _]. apply at_index_None in Ed. apply at_index_None. by rewrite Hlen. }
  assert (Evu : ∀ x d, at_index (user_mem p) x = Some d → at_index (user_mem q) x =
    Some (set_u_cache (if bool_decide (x ∈ snd <$> entries_of (p_users p)) then rs_roles (u_roles d) else u_cache d) d)).
  { intros x d Hd. destruct Huc as [_ Huc]. subst q. by apply Huc. }
  assert (Hvu : ∀ x, value_at user_kind q x = value_at user_kind p x).
  { intros x. unfold value_at. cbn [k_store user_kind]. destruct (at_index (user_mem p) x) as [d|] eqn:Ed.
    - by rewrite (Evu x d Ed).
    - replace (at_index (user_mem q) x) with (None : option user_datum); [done|]. symmetry. subst q. cbn.
      destruct Huc as [Hlen _]. apply at_index_None in Ed. apply at_index_None. by rewrite Hlen. }
  split; [|split].
  2:{ destruct L as [_ T V Te Tc _ _ _ _]. subst q. by split. }
  2:{ destruct L as [_ _ _ _ _ Tg To _ _]. by subst q. }
  split.
  - replace (p_commons q) with (p_commons p) by (by subst q). destruct Hco as [H1 (ns&E&H2)]. split; [exact H1|]. exists ns. split; [|exact H2].
    rewrite EN. by rewrite !at_set_index_ne by done.
  - destruct Hcl as [H1 H2 H3 H4 (ns&E&H5)]. subst q. split; try done. exists ns. split; [|exact H5].
    rewrite EN. by rewrite !at_set_index_ne by done.
  - eapply (index_of_slots role_kind p); [exact Hr|apply (tl_roles _ LT)|by subst q|exact Hvr|by subst q|].
    rewrite EN. rewrite !at_set_index_ne by done. apply at_set_index_eq. by rewrite Hn.
  - eapply (index_of_slots type_kind p); [exact Ht|apply (tl_types _ LT)|by subst q|by subst q|by subst q|].
    rewrite EN. rewrite !at_set_index_ne by done. apply at_set_index_eq. rewrite !length_set_index. by rewrite Hn.
  - eapply (index_of_slots user_kind p); [exact Hu|apply (tl_users _ LT)|by subst q|exact Hvu|by subst q|].
    rewrite EN. rewrite !at_set_index_ne by done. apply at_set_index_eq. rewrite !length_set_index. by rewrite Hn.
  - replace (p_levels q) with (p_levels p) by (by subst q). eapply names_of_slots; [exact Hl|apply (tl_levels _ LT)|].
    rewrite EN. rewrite !at_set_index_ne by done. apply at_set_index_eq. rewrite !length_set_index. by rewrite Hn.
  - replace (p_cats q) with (p_cats p) by (by subst q). eapply names_of_slots; [exact Hc|apply (tl_cats _ LT)|].
    rewrite EN. apply at_set_index_eq. rewrite !length_set_index. by rewrite Hn.
  - pose proof (ptr_table_objects _ _ _ (ss_classes _ (ld_symbols _ L))) as H. subst q. eapply Forall_impl; [exact H|].
    intros x (d&Hd&Hok). exists d. split; [exact Hd|]. by apply (class_sound_ext p).
  - pose proof (ptr_table_objects _ _ _ (ss_roles _ (ld_symbols _ L))) as H. apply Forall_forall. intros x Hx.
    assert (Hx' : x ∈ entries_of (p_roles p)) by (by subst q). rewrite Forall_forall in H. destruct (H x Hx') as (d&Hd&_).
    destruct Hrc as [_ Hrc]. destruct (Hrc _ _ Hd) as (c&Ec&Hok). rewrite bool_decide_true in Hok by (by apply list_elem_of_fmap_2).
    exists (set_r_cache c d). split; [by subst q|]. destruct Hok as [Hex Hkn].
    assert (Etv : type_val_to_struct q = datums_of st) by (by subst q). assert (Etm : type_mem q = type_mem p) by (by subst q).
    assert (Etp : p_types q = p_types p) by (by subst q). split.
    + exact (expansion_ext (with_arrays sr st su ba bn sl sc p) q _ _ Etv Etm Hex).
    + exact (known_ext (with_arrays sr st su ba bn sl sc p) q d (set_r_cache c d) Etp Etv eq_refl Hkn).
  - pose proof (ptr_table_objects _ _ _ (ss_types _ (ld_symbols _ L))) as H. by subst q.
  - pose proof (ptr_table_objects _ _ _ (ss_users _ (ld_symbols _ L))) as H. apply Forall_forall. intros x Hx.
    assert (Hx' : x ∈ entries_of (p_users p)) by (by subst q). rewrite Forall_forall in H. destruct (H x Hx') as (d&Hd&Hok).
    eexists. split; [by apply Evu|]. rewrite bool_decide_true by (by apply list_elem_of_fmap_2). destruct Hok as (_&?&?&_). done.
  - destruct (ss_levels _ (ld_symbols _ L)) as (?&_&?). by subst q.
  - replace (p_cats q) with (p_cats p) by (by subst q). apply (tl_cats _ LT).
Qed.

Lemma loaded_index p decls sk (sc : list (option (string * common_datum))) :
  loaded p → loaded (put_slots class_kind sk (put_names SYM_COMMONS sc (set_decl_val_to_struct decls p))).
Proof.
  intros [S T V Te Tc Tg To Tb Tn]. split; [by eapply symbols_sound_ext; [..|exact S]|assumption..|].
  rewrite <- Tn. f_equal. cbn. by rewrite !length_set_index.
Qed.

Definition indexed_policy (q : policydb) : Prop := policy_indexed q ∧ rules_good q ∧ genfs q = [] ∧ ocontexts q = no_labels.

Lemma accepts_indexes {B} p (f : policydb → R B) Q : loaded p → (∀ q, indexed_policy q → accepts (f q) Q) →
  accepts (p ← indexing policydb_index_decls p; p ← indexing policydb_index_classes p;
           p ← indexing policydb_index_others p; f p) Q.
Proof.
  intros L HQ. eapply (accepts_bind _ _ (λ q, q = set_decl_val_to_struct [Some (0, 0)] p)).
  { apply accepts_indexing. intros m. eapply behaves_mono; [apply behaves_index_decls, L|]. intros rc s' [[_ ?]|[? _]] _ E; done. }
  intros p1 ->. set (p1 := set_decl_val_to_struct _ p). assert (L1 : tables_loaded p1).
  { pose proof (loaded_tables p L) as []. by split. }
  eapply (accepts_bind _ _ (λ q, ∃ sc sk, q = put_slots class_kind sk (put_names SYM_COMMONS sc p1) ∧
       names_good common_value (p_commons p1) sc ∧ slots_good class_kind p1 sk)).
  { apply accepts_indexing. intros m. eapply behaves_mono; [by apply behaves_index_classes|]. intros rc s' [[_ ?]|[? _]] _ E; done. }
  intros p2 (sc&sk&E&Hc&Hk). assert (L2 : loaded p2) by (subst p2; by apply loaded_index).
  eapply (accepts_bind _ _ (λ q, ∃ P, others_built P p2 q)).
  { apply accepts_indexing. intros m. eapply behaves_mono; [by apply behaves_index_others, loaded_tables|].
    intros rc s' [[_ ?]|[? _]] _ E'; [by eexists|done]. }
  assert (Hsome : ∀ s, 0 <= s < SYM_NUM → is_Some (at_index (sym_val_to_name p1) s)) by (intros s Hs; apply names_some; [apply (tl_names _ L1)|exact Hs]).
  intros q [P Hq]. apply HQ. eapply others_indexed; [exact L2|exact Hq|..]; subst p2.
  - eapply (index_of_slots class_kind p1); [exact Hk|apply (tl_classes _ L1)|done..|].
    change (at_index (sym_val_to_name (put_names SYM_CLASSES sk (put_names SYM_COMMONS sc p1))) SYM_CLASSES = Some (names sk)).
    apply put_names_same. rewrite put_names_other; [by apply Hsome|by apply Hsome|done].
  - eapply names_of_slots; [exact Hc|apply (tl_commons _ L1)|].
    change (at_index (sym_val_to_name (put_names SYM_CLASSES sk (put_names SYM_COMMONS sc p1))) SYM_COMMONS = Some (names sc)).
    rewrite put_names_other; [|rewrite put_names_other; [by apply Hsome|by apply Hsome|done]|done].
    apply put_names_same. by apply Hsome.
Qed.

(** ** The labels *)

Lemma indexed_of p : policy_indexed p → indexed p.
Proof.
  intros P. assert (Harr : ∀ {A} (k : kind A), index_of k p → nprim (k_tab k p) <= Z.of_nat (length (k_arr k p)) ∧
    ∀ q : ptr, Some q ∈ k_arr k p → is_Some (at_index (k_store k p) q)).
  { intros A k [H1 H2 H3 H4 _]. split; [lia|]. intros q Hq. apply list_elem_of_lookup in Hq as [i Hi].
    assert (Hn : nprim (k_tab k p) ≠ 0) by (apply lookup_lt_Some in Hi; lia).
    destruct (H4 Hn (Z.of_nat i) q) as [Hq _]. destruct Hq as (_&key&_&Hv).
    - unfold at_index. destruct (Z.ltb_spec (Z.of_nat i) 0); [lia|]. by rewrite Nat2Z.id.
    - unfold value_at in Hv. destruct (at_index (k_store k p) q); [by eexists|done]. }
  destruct (Harr _ _ (pi_roles _ P)) as [R1 R2]. destruct (Harr _ _ (pi_users _ P)) as [U1 U2]. split; try done.
  - destruct (no_names _ _ _ _ (pi_levels _ P)) as (ns&E&Hl&_). exists ns. split; [exact E|lia].
  - intros key d Hd. destruct (pi_level _ P) as [Hw Ha]. rewrite hashtab_search_correct in Hd by done.
    destruct (Ha key d Hd) as (l&->&_). by eexists.
Qed.
