(* ===== verification/TypeMaps.v ===== *)
(** * The attributes of the types of a policy that is read

    The last part of [policydb_read]: for every type the bitmap of the
    attributes it has ([type_attr_map]), and its inverse ([attr_type_map]) that
    is built at the same time; and what a policy file that is accepted gives. *)

From S2P Require Import Prelude Policyfile Ebitmap EbitmapFile Hashtab SymtabFile Avtab Context Policydb Expand Mls Cond.
From S2P Require Import Services MlsFile ClassFile SymbolFile PtrTable AvtabFile TransFile CondFile LabelFile Indexes Reindex PolicydbFile PolicydbSound.

(** Bit [k] of map [j]. *)
Definition map_bit (l : list ebitmap) (j k : Z) : bool :=
  match at_index l j with Some e => ebitmap_get_bit e k | None => false end.

Lemma map_bit_set l i e j k : is_Some (at_index l i) →
  map_bit (set_index l i e) j k = if bool_decide (i = j) then ebitmap_get_bit e k else map_bit l j k.
Proof. intros H. unfold map_bit. rewrite at_index_set by done. by destruct (bool_decide (i = j)). Qed.

Lemma Forall_set_index {A} (P : A → Prop) l i a : Forall P l → P a → Forall P (set_index l i a).
Proof. intros Hl Ha. by apply Forall_insert. Qed.

Lemma accepts_set_bit_or e bit : ebitmap_wf e → 0 <= bit < 2 ^ 32 →
  accepts (set_bit_or e bit) (λ e', ebitmap_wf e' ∧ ∀ k, ebitmap_get_bit e' k = (k =? bit) || ebitmap_get_bit e k).
Proof.
  intros He Hb. unfold set_bit_or.
  eapply (accepts_bind _ _ (λ r, r.1 = 0 → ebitmap_wf r.2 ∧ ∀ k, ebitmap_get_bit r.2 k = (k =? bit) || ebitmap_get_bit e k)).
  { apply accepts_in_mem. intros m. pose proof (ebitmap_set_bit_correct e bit true m He Hb) as H.
    destruct (ebitmap_set_bit e bit true m) as [[rc e'] m']. cbn. intros ->. destruct H as [_ [(_&_&Hw&Hg)|[(?&_)|(?&_)]]]; [|done..].
    split; [done|]. intros k. rewrite Hg. by destruct (k =? bit). }
  intros [rc e'] He'. cbn [fst snd] in He'. apply accepts_guard_bind. intros E%Z.eqb_eq. by apply accepts_ret, He'.
Qed.

Definition maps_wf (n : Z) (l : list ebitmap) : Prop := Z.of_nat (length l) = n ∧ Forall ebitmap_wf l.

Lemma accepts_map_set_bit n l j bit : maps_wf n l → 0 <= bit < 2 ^ 32 →
  accepts (map_set_bit l j bit) (λ l', maps_wf n l' ∧ ∀ j' k, map_bit l' j' k = ((j' =? j) && (k =? bit)) || map_bit l j' k).
Proof.
  intros [Hl Hw] Hb. unfold map_set_bit. apply accepts_must_bind. intros e He.
  eapply accepts_bind; [apply accepts_set_bit_or; [|exact Hb]|].
  { rewrite Forall_forall in Hw. apply Hw. by eapply at_index_elem. }
  intros e' [He' Hbits]. apply accepts_ret. split.
  - split; [by rewrite length_set_index|]. by apply Forall_set_index.
  - intros j' k. rewrite map_bit_set by by eexists. destruct (bool_decide_reflect (j = j')) as [->|Hne].
    + rewrite Z.eqb_refl. cbn. unfold map_bit. by rewrite He, Hbits.
    + destruct (Z.eqb_spec j' j); [congruence|]. done.
Qed.

(** The bits of one type. *)
Lemma accepts_attr_bits n i bits : 0 <= i < 2 ^ 32 → ∀ l, maps_wf n l →
  accepts (read_attr_bits n i bits l) (λ l', maps_wf n l' ∧ Forall (λ j, j < n ∨ j = i) bits ∧
    ∀ j k, map_bit l' j k = ((k =? i) && negb (j =? i) && bool_decide (j ∈ bits)) || map_bit l j k).
Proof.
  intros Hi. induction bits as [|b bits IH]; intros l Hl.
  { apply accepts_ret. split; [done|]. split; [done|]. intros j k. rewrite bool_decide_false by apply not_elem_of_nil. by rewrite andb_false_r. }
  cbn [read_attr_bits]. destruct (Z.eqb_spec i b) as [<-|Hne].
  - eapply accepts_mono; [by apply IH|]. intros l' (Hl'&Hf&Hbits). split; [done|]. split; [by constructor; [right|]|].
    intros j k. rewrite Hbits. f_equal. destruct (Z.eqb_spec j i) as [|Hj]; [by rewrite andb_false_r|].
    f_equal. apply bool_decide_ext. rewrite elem_of_cons. intuition.
  - apply accepts_guard_bind. intros Hb%negb_true_iff%Z.leb_gt. eapply accepts_bind; [by apply accepts_map_set_bit|].
    intros l1 [Hl1 H1]. eapply accepts_mono; [by apply IH|]. intros l' (Hl'&Hf&Hbits). split; [done|]. split; [by constructor; [left|]|].
    intros j k. rewrite Hbits, H1. destruct (Z.eqb_spec k i) as [|Hk]; [|by rewrite !andb_false_r].
    rewrite !andb_true_l, andb_true_r. destruct (Z.eqb_spec j i) as [Hj|Hj]; cbn.
    + destruct (Z.eqb_spec j b); [congruence|done].
    + rewrite orb_assoc. f_equal. apply Bool.eq_iff_eq_true. rewrite orb_true_iff, !bool_decide_eq_true, elem_of_cons, Z.eqb_eq. intuition.
Qed.

(** Type [i + 1] exists and is no attribute. *)
Definition plain_type (p : policydb) (i : Z) : bool :=
  match at_index (type_val_to_struct p) i with
  | Some (Some q) => match at_index (type_mem p) q with Some d => negb (flavor d =? TYPE_ATTRIB) | None => false end
  | _ => false
  end.

(** What type [k + 1], with the bitmap [ta], contributes to the inverse. *)
Definition own_bit (p : policydb) (ta : ebitmap) (j k : Z) : bool :=
  if j =? k then plain_type p k else ebitmap_get_bit ta j.

Lemma accepts_type_map p i l :
  let n := nprim (p_types p) in
  POLICYDB_VERSION_AVTAB <= policyvers p → 0 <= i < n → n < 2 ^ 32 → maps_wf n l →
  accepts (read_type_map p i l) (λ r,
    ebitmap_wf r.1 ∧ ebitmap_get_bit r.1 i = true ∧ (∀ j, ebitmap_get_bit r.1 j = true → j < n) ∧ maps_wf n r.2 ∧
    ∀ j k, map_bit r.2 j k = ((k =? i) && own_bit p r.1 j i) || map_bit l j k).
Proof.
  intros n Hv Hi Hn Hl. unfold read_type_map. cbv zeta. apply Z.leb_le in Hv. rewrite Hv.
  eapply (accepts_bind _ _ (λ r, ebitmap_wf r.1 ∧ maps_wf n r.2 ∧ (∀ j, ebitmap_get_bit r.1 j = true → j < n) ∧
    ∀ j k, map_bit r.2 j k = ((k =? i) && negb (j =? i) && ebitmap_get_bit r.1 j) || map_bit l j k)).
  { eapply accepts_bind; [apply accepts_of, sound_ebitmap|]. intros ta Hta.
    eapply accepts_bind; [apply accepts_attr_bits; [lia|exact Hl]|]. intros l1 (Hl1&Hf&H1). apply accepts_ret. cbn [fst snd].
    split; [done|]. split; [done|]. split.
    - intros j Hj. rewrite Forall_forall in Hf. destruct (Hf j); [by apply elem_of_set_bits|done|lia].
    - intros j k. rewrite H1. f_equal. f_equal. apply Bool.eq_iff_eq_true. rewrite bool_decide_eq_true. by apply elem_of_set_bits. }
  intros [ta l1] (Hta&Hl1&Hlt&H1). cbn [fst snd] in *.
  eapply accepts_bind; [apply accepts_set_bit_or; [done|lia]|]. intros ta' [Hta' Hbits].
  apply accepts_must_bind. intros o Ho.
  apply (accepts_bind _ _ (λ d, match o with None => d = None | Some q => ∃ d', d = Some d' ∧ at_index (type_mem p) q = Some d' end)).
  { destruct o as [q|]; [|by apply accepts_ret]. apply accepts_must_bind. intros d Hd. apply accepts_ret. by exists d. }
  intros d Hd. assert (Hpt : plain_type p i = match d with Some d => negb (flavor d =? TYPE_ATTRIB) | None => false end).
  { unfold plain_type. rewrite Ho. destruct o as [q|]; [|by subst d]. by destruct Hd as (d'&->&->). }
  eapply (accepts_bind _ _ (λ l2, maps_wf n l2 ∧ ∀ j k, map_bit l2 j k = ((j =? i) && (k =? i) && plain_type p i) || map_bit l1 j k)).
  { rewrite Hpt. assert (Hid : maps_wf n l1 ∧ ∀ j k, map_bit l1 j k = ((j =? i) && (k =? i) && false) || map_bit l1 j k).
    { split; [done|]. intros j k. by rewrite andb_false_r. }
    destruct d as [d|]; [|by apply accepts_ret]. destruct (negb (flavor d =? TYPE_ATTRIB)); [|by apply accepts_ret].
    eapply accepts_mono; [apply accepts_map_set_bit; [done|lia]|]. intros l2 [Hl2 H2]. split; [done|]. intros j k. by rewrite H2, andb_true_r. }
  intros l2 [Hl2 H2]. apply accepts_ret. cbn [fst snd]. split; [done|]. split; [by rewrite Hbits, Z.eqb_refl|]. split.
  { intros j. rewrite Hbits, orb_true_iff, Z.eqb_eq. intros [->|Hj]; [lia|by apply Hlt]. }
  split; [done|]. intros j k. rewrite H2, H1, orb_assoc. f_equal. unfold own_bit.
  destruct (Z.eqb_spec k i) as [->|Hk]; [|by rewrite !andb_false_r]. rewrite andb_true_r, !andb_true_l.
  destruct (Z.eqb_spec j i) as [->|Hj]; cbn; [by rewrite orb_false_r|]. rewrite Hbits. destruct (Z.eqb_spec j i); [done|done].
Qed.

(** All types from [i] on. *)
Lemma accepts_type_maps p count : POLICYDB_VERSION_AVTAB <= policyvers p →
  let n := nprim (p_types p) in n < 2 ^ 32 → ∀ i l, 0 <= i → i + Z.of_nat count = n → maps_wf n l →
  accepts (read_type_maps p i count l) (λ r,
    length r.1 = count ∧ maps_wf n r.2 ∧
    (∀ k ta, at_index r.1 k = Some ta → ebitmap_wf ta ∧ ebitmap_get_bit ta (i + k) = true ∧ ∀ j, ebitmap_get_bit ta j = true → j < n) ∧
    ∀ j k, map_bit r.2 j k =
      match at_index r.1 (k - i) with Some ta => own_bit p ta j k | None => false end || map_bit l j k).
Proof.
  intros Hv n Hn. induction count as [|count IH]; intros i l Hi Hc Hl.
  { apply accepts_ret. split; [done|]. split; [done|]. cbn [fst snd].
    assert (Hnil : ∀ k, at_index (@nil ebitmap) k = None) by (intros k; apply at_index_None; cbn; lia).
    split; [intros k ta; by rewrite Hnil|]. intros j k. by rewrite Hnil. }
  cbn [read_type_maps]. eapply accepts_bind; [apply accepts_type_map; [done|lia|done|done]|].
  intros [ta l1] (Hta&Hti&Hlt&Hl1&H1). cbn [fst snd] in *. eapply accepts_bind; [apply IH; [lia|lia|done]|].
  intros [tas l2] (Hlen&Hl2&Htas&H2). cbn [fst snd] in *. apply accepts_ret. cbn [fst snd length]. split; [lia|]. split; [done|].
  assert (Hcons : ∀ k, at_index (ta :: tas) k = if k =? 0 then Some ta else at_index tas (k - 1)).
  { intros k. unfold at_index. destruct (Z.ltb_spec k 0), (Z.ltb_spec (k - 1) 0), (Z.eqb_spec k 0); try lia; try done.
    - by subst k.
    - replace (Z.to_nat k) with (S (Z.to_nat (k - 1))) by lia. done. }
  split.
  - intros k ta'. rewrite Hcons. destruct (Z.eqb_spec k 0) as [->|Hk].
    + intros [= <-]. by rewrite Z.add_0_r.
    + intros Hk'. destruct (Htas _ _ Hk') as (?&Hb&?). replace (i + 1 + (k - 1)) with (i + k) in Hb by lia. done.
  - intros j k. rewrite H2, H1, Hcons, orb_assoc. f_equal. replace (k - i - 1) with (k - (i + 1)) by lia.
    destruct (Z.eqb_spec k i) as [->|Hk].
    + rewrite Z.sub_diag. cbn [Z.eqb andb]. replace (at_index tas (i - (i + 1))) with (@None ebitmap); [done|].
      symmetry. apply at_index_None. lia.
    + destruct (Z.eqb_spec (k - i) 0); [lia|]. cbn [andb]. by rewrite orb_false_r.
Qed.

(** The bitmaps of the types and their inverse. *)
Record type_maps_good (p : policydb) : Prop := {
  tm_length : Z.of_nat (length (type_attr_map p)) = nprim (p_types p) ∧ Z.of_nat (length (attr_type_map p)) = nprim (p_types p);
  tm_type i o : at_index (type_attr_map p) i = Some o → ∃ ta, o = Some ta ∧ ebitmap_wf ta ∧
    ebitmap_get_bit ta i = true ∧ ∀ j, ebitmap_get_bit ta j = true → j < nprim (p_types p);
  tm_attr j o : at_index (attr_type_map p) j = Some o → ∃ at_, o = Some at_ ∧ ebitmap_wf at_ ∧
    ∀ i, ebitmap_get_bit at_ i = match at_index (type_attr_map p) i with Some (Some ta) => own_bit p ta j i | _ => false end
}.

Lemma at_index_fmap {A B} (f : A → B) l i : at_index (f <$> l) i = f <$> at_index l i.
Proof. unfold at_index. destruct (i <? 0); [done|]. apply list_lookup_fmap. Qed.

Lemma replicate_maps n : 0 <= n → maps_wf n (replicate (Z.to_nat n) ebitmap_init) ∧ ∀ j k, map_bit (replicate (Z.to_nat n) ebitmap_init) j k = false.
Proof.
  intros Hn. split; [split; [rewrite length_replicate; lia|by apply Forall_replicate, ebitmap_wf_init]|].
  intros j k. unfold map_bit. destruct (at_index _ j) as [e|] eqn:E; [|done].
  apply at_index_elem, elem_of_replicate_inv in E as ->. apply get_bit_init.
Qed.

Lemma accepts_attr_maps p : POLICYDB_VERSION_AVTAB <= policyvers p → 0 <= nprim (p_types p) →
  accepts (read_attr_maps p) (λ q, type_maps_good q ∧ ∃ a t, q = set_attr_type_map a (set_type_attr_map t p)).
Proof.
  intros Hv Hn. unfold read_attr_maps. cbv zeta. set (n := nprim (p_types p)) in *.
  eapply (accepts_bind _ _ (λ _, True)); [by apply accepts_in_mem|]. intros a _.
  eapply (accepts_bind _ _ (λ _, True)); [by apply accepts_in_mem|]. intros b _. apply accepts_guard_bind. intros _.
  apply accepts_must_bind. intros [] Hsz. destruct (Z.ltb_spec (n * 8) (2 ^ 32)) as [Hlt|]; [clear Hsz|done].
  destruct (replicate_maps n Hn) as [Hm0 Hb0].
  eapply accepts_bind; [apply (accepts_type_maps p (Z.to_nat n) Hv); [fold n; lia|lia|fold n; lia|exact Hm0]|].
  intros [tas ats] (Hlen&[Hla Hwa]&Htas&Hbits). cbn [fst snd] in *. apply accepts_ret. split; [|by eexists _, _].
  split; cbn.
  - rewrite !length_fmap. split; [fold n; lia|exact Hla].
  - intros i o. rewrite at_index_fmap. destruct (at_index tas i) as [ta|] eqn:E; [|done]. intros [= <-].
    destruct (Htas _ _ E) as (?&?&?). by exists ta.
  - intros j o. rewrite at_index_fmap. destruct (at_index ats j) as [at_|] eqn:E; [|done]. intros [= <-]. exists at_.
    split; [done|]. split; [rewrite Forall_forall in Hwa; apply Hwa; by eapply at_index_elem|].
    intros i. specialize (Hbits j i). rewrite Hb0, orb_false_r, Z.sub_0_r in Hbits. unfold map_bit in Hbits. rewrite E in Hbits.
    rewrite Hbits, at_index_fmap. destruct (at_index tas i); done.
Qed.

(** ** A policy that is accepted *)

Record policy_good (p : policydb) : Prop := {
  pg_indexed : policy_indexed p;
  pg_rules : rules_good p;
  pg_genfs : genfs_good p (genfs p);
  pg_labels : ocontexts_good p (ocontexts p);
  pg_maps : type_maps_good p
}.

Lemma index_of_ext {A} (k : kind A) p q :
  k_tab k q = k_tab k p → k_store k q = k_store k p → k_arr k q = k_arr k p → sym_val_to_name q = sym_val_to_name p →
  index_of k p → index_of k q.
Proof.
  intros E1 E2 E3 E4 [H1 H2 H3 H4 H5]. assert (Ev : ∀ x, value_at k q x = value_at k p x) by (intros x; unfold value_at; by rewrite E2).
  split; rewrite ?E1, ?E3, ?E4; try done.
  - intros Hn key x v. rewrite Ev. by apply H3.
  - intros Hn i x. rewrite H4 by done. by setoid_rewrite Ev.
  - destruct H5 as (ns&?&?&H5). exists ns. split; [done|]. split; [done|]. intros Hn i key. rewrite H5 by done. by setoid_rewrite Ev.
Qed.

Lemma names_of_ext {A} sym (v : A → option Z) t p q : sym_val_to_name q = sym_val_to_name p → names_of sym v t p → names_of sym v t q.
Proof. intros E [H1 H2]. split; [done|]. by rewrite E. Qed.

(** Contexts are checked against these parts only. *)
Definition same_symbols (p q : policydb) : Prop :=
  policy_type q = policy_type p ∧ policyvers q = policyvers p ∧ mls q = mls p ∧ target_platform q = target_platform p ∧
  p_commons q = p_commons p ∧ p_classes q = p_classes p ∧ p_roles q = p_roles p ∧ p_types q = p_types p ∧ p_users q = p_users p ∧
  p_bools q = p_bools p ∧
  p_levels q = p_levels p ∧ p_cats q = p_cats p ∧ class_mem q = class_mem p ∧ role_mem q = role_mem p ∧ type_mem q = type_mem p ∧
  user_mem q = user_mem p ∧ sym_val_to_name q = sym_val_to_name p ∧ class_val_to_struct q = class_val_to_struct p ∧
  role_val_to_struct q = role_val_to_struct p ∧ type_val_to_struct q = type_val_to_struct p ∧
  user_val_to_struct q = user_val_to_struct p ∧ te_avtab q = te_avtab p ∧ te_cond_avtab q = te_cond_avtab p ∧ cond_list q = cond_list p.

Lemma policy_indexed_ext p q : same_symbols p q → policy_indexed p → policy_indexed q.
Proof.
  intros (Et&Ev&_&_&E1&E2&E3&E4&E5&_&E6&E7&E8&E9&E10&E11&E12&E13&E14&E15&E16&_) [H1 H2 H3 H4 H5 H6 H7 H8 H9 H10 H11 H12 H13].
  split; rewrite ?E1, ?E6, ?E7, ?E2, ?E3, ?E4, ?E5, ?E8, ?E9, ?E10, ?E11; try done.
  - by eapply names_of_ext.
  - by eapply index_of_ext.
  - by eapply index_of_ext.
  - by eapply index_of_ext.
  - by eapply index_of_ext.
  - by eapply names_of_ext.
  - by eapply names_of_ext.
  - eapply Forall_impl; [exact H8|]. intros x (d&Hd&Hok). exists d. split; [done|]. by apply (class_sound_ext p).
  - eapply Forall_impl; [exact H9|]. intros x (d&Hd&Hok&Hkn). exists d. split; [done|].
    split; [by apply (expansion_ext p)|by apply (known_ext p _ d)].
Qed.

Lemma context_valid_ext p q x : same_symbols p q → context_is_valid q x = context_is_valid p x.
Proof.
  intros (_&_&Em&_&_&_&Er&Et&Eu&_&El&Ec&_&Erm&_&Eum&En&_&Era&_&Eua&_).
  unfold context_is_valid, mls_context_isvalid, level_valid, cats_valid, val_to_name. by rewrite Em, Er, Et, Eu, El, Ec, Erm, Eum, En, Era, Eua.
Qed.

Lemma context_good_ext p q x : same_symbols p q → context_good p x → context_good q x.
Proof. intros H [? ?]. split; [done|]. by rewrite (context_valid_ext p q). Qed.

Lemma rules_good_ext p q : same_symbols p q → rules_good p → rules_good q.
Proof.
  intros (Et&Ev&_&_&_&_&_&_&_&Eb&_&_&_&_&_&_&_&_&_&_&_&Ete&Ecd&Ecl) [H1 H2 H3 H4]. split; rewrite ?Et, ?Ev, ?Ete, ?Ecd, ?Ecl; try done.
  revert H4. unfold conds_ok, expr_isvalid. by rewrite Ete, Eb.
Qed.

Lemma genfs_good_ext p q l : same_symbols p q → genfs_good p l → genfs_good q l.
Proof.
  intros H [Hs Hf]. split; [done|]. eapply Forall_impl; [exact Hf|]. intros g [? Hg]. split; [done|].
  eapply Forall_impl; [exact Hg|]. intros x [Hx Hr]. split; [by apply (context_good_ext p)|done].
Qed.

Lemma ocontexts_good_ext p q ls : same_symbols p q → ocontexts_good p ls → ocontexts_good q ls.
Proof.
  intros H [Hlen Hl]. split; [done|]. intros i l Hil. eapply Forall_impl; [by apply (Hl i l)|]. pose proof H as (_&_&_&Etg&_). intros x (H0&H1&Hr).
  split; [by apply (context_good_ext p)|]. split; [|done]. rewrite Etg. intros E1. destruct (H1 E1) as [H2 Hk].
  split; [|done]. intros E2. apply (context_good_ext p); [done|]. by apply H2.
Qed.

Lemma maps_good_ext p q : type_attr_map q = type_attr_map p → attr_type_map q = attr_type_map p → p_types q = p_types p →
  type_mem q = type_mem p → type_val_to_struct q = type_val_to_struct p → type_maps_good p → type_maps_good q.
Proof.
  intros E1 E2 E3 E4 E5 [H1 H2 H3]. split; rewrite ?E1, ?E2, ?E3; try done.
  intros j o Ho. destruct (H3 j o Ho) as (a&?&?&Hb). exists a. split; [done|]. split; [done|]. intros i. rewrite Hb.
  unfold own_bit, plain_type. by rewrite E4, E5.
Qed.

(** The header of a kernel policy: its fields before the symbols. *)
Lemma header_to_be_ruled v ml h g caps perm : POLICYDB_VERSION_AVTAB <= v →
  to_be_ruled (set_permissive_map perm (set_policycaps caps (with_header POLICY_KERN v ml h g))) ∧
  class_mem (set_permissive_map perm (set_policycaps caps (with_header POLICY_KERN v ml h g))) = [].
Proof.
  intros Hv. pose proof (initial_symbols POLICY_KERN v ml h g) as HS.
  assert (E : let p := with_header POLICY_KERN v ml h g in av_htable (te_avtab p) = None ∧ av_htable (te_cond_avtab p) = None ∧
    genfs p = [] ∧ ocontexts p = no_labels ∧ decls_of (global p) = [(0, 0, 1)] ∧
    Z.of_nat (length (sym_val_to_name p)) = SYM_NUM ∧ class_mem p = [] ∧ policy_type p = POLICY_KERN ∧ policyvers p = v) by (by vm_compute).
  revert E HS. generalize (with_header POLICY_KERN v ml h g). intros p (E1&E2&E3&E4&E5&E6&E7&E8&E9) HS.
  split; [|exact E7]. split; [|exact E8|rewrite <- E9 in Hv; exact Hv|exact E1|exact E2|exact E3|exact E4|exact E5|exact E6].
  apply (symbols_sound_ext p); [reflexivity..|exact HS].
Qed.

Lemma ruled_symbols p q : to_be_ruled p → symbols_sound q → same_rest p q → to_be_ruled q.
Proof. intros [S T V Te Tc Tg To Tb Tn] HS [E1 E2 E3 E4 E5 E6 E7 E8]. split; rewrite ?E1, ?E2, ?E3, ?E4, ?E5, ?E6, ?E7, ?E8; done. Qed.

Lemma caps_always p : policy_type p = POLICY_KERN → 
  accepts (read_caps p) (λ q, ∃ e, q = set_policycaps e p) ∧ accepts (read_permissive p) (λ q, ∃ e, q = set_permissive_map e p).
Proof.
  intros Hk. assert (Hid1 : set_policycaps (policycaps p) p = p) by (by destruct p).
  assert (Hid2 : set_permissive_map (permissive_map p) p = p) by (by destruct p).
  split; [unfold read_caps|unfold read_permissive]; match goal with |- accepts (if ?b then _ else _) _ => destruct b end;
    try (apply accepts_ret; by eexists); (eapply accepts_bind; [apply accepts_of, sound_ebitmap|]; intros e _; apply accepts_ret; by eexists).
Qed.

Section accepted.
Context (read_module : policydb_compat_info → policydb → R policydb) (read_module_ranges : policydb → R policydb).

(** [policydb_read] after the header. *)
Definition read_rest (r : policydb * policydb_compat_info) : R policydb :=
  let '(p, info) := r in
  p ← read_module_name p;
  p ← read_caps p;
  p ← read_permissive p;
  p ← read_symtabs 0 (Z.to_nat (sym_num info)) p;
  p ← (if is_kern p then read_rules p else read_module info p);
  p ← indexing policydb_index_decls p;
  p ← indexing policydb_index_classes p;
  p ← indexing policydb_index_others p;
  p ← ocontext_read (ocon_num info) p;
  l ← genfs_read p;
  let p := set_genfs l p in
  p ← read_ranges read_module_ranges p;
  if is_kern p then read_attr_maps p else mret p.

Lemma kern_symbols v g info : policydb_lookup_compat v POLICY_KERN g = Some info → POLICYDB_VERSION_AVTAB <= v → sym_num info = SYM_NUM.
Proof.
  intros H Hv. apply find_some in H as [Hin Hc].
  pose (chk i := implb ((ci_type i =? POLICY_KERN) && (POLICYDB_VERSION_AVTAB <=? ci_version i)) (sym_num i =? SYM_NUM)).
  assert (Hall : forallb chk policydb_compat = true) by reflexivity.
  rewrite forallb_forall in Hall. specialize (Hall info Hin). unfold chk in Hall.
  apply andb_true_iff in Hc as [Hc _]. apply andb_true_iff in Hc as [<-%Z.eqb_eq Hk].
  apply Z.leb_le in Hv. rewrite Hk, Hv in Hall. cbn [andb implb] in Hall. by apply Z.eqb_eq.
Qed.

Lemma accepts_rest v ml h g info : POLICYDB_VERSION_AVTAB <= v → policydb_lookup_compat v POLICY_KERN g = Some info →
  accepts (read_rest (with_header POLICY_KERN v ml h g, info)) policy_good.
Proof.
  intros Hv Hi. rewrite (surjective_pairing (_, info)). unfold read_rest. cbn [fst snd].
  apply (accepts_bind _ _ (λ q, q = with_header POLICY_KERN v ml h g)); [by apply accepts_ret|]. intros p0 ->.
  eapply accepts_bind; [by apply caps_always|]. intros p1 [caps ->].
  eapply accepts_bind; [by apply caps_always|]. intros p2 [perm ->].
  destruct (header_to_be_ruled v ml h g caps perm Hv) as [HR Hc0]. revert HR Hc0. generalize (set_permissive_map perm (set_policycaps caps (with_header POLICY_KERN v ml h g))).
  intros p HR Hc0. rewrite (kern_symbols _ _ _ Hi Hv).
  eapply accepts_bind; [apply (accepts_symbols p Hc0), HR|]. intros p1 [HS1 Hr1].
  pose proof (ruled_symbols _ _ HR HS1 Hr1) as HR1. assert (Hk : is_kern p1 = true) by (unfold is_kern; by rewrite (tr_type _ HR1)). rewrite Hk.
  eapply accepts_bind; [by apply accepts_rules|]. intros p2 HL. apply accepts_indexes; [done|]. intros q (HI&Hru&Hg&Ho).
  pose proof (indexed_of q HI) as Hix.
  eapply accepts_bind; [apply accepts_of, (sound_ocontexts q Hix)|].
  { rewrite Ho. split; [done|]. intros i l Hl. apply list_elem_of_lookup_2, elem_of_replicate_inv in Hl as ->. constructor. }
  intros q1 (ls&->&Hls). assert (H1 : same_symbols q (set_ocontexts ls q)) by done.
  eapply accepts_bind; [apply accepts_of, sound_genfs|].
  - by apply indexed_of, (policy_indexed_ext q).
  - change (genfs (set_ocontexts ls q)) with (genfs q). rewrite Hg. split; [constructor|constructor].
  - intros gf Hgf. cbv zeta. set (q2 := set_genfs gf (set_ocontexts ls q)).
    eapply (accepts_bind _ _ (λ r, ∃ t, r = set_range_tr t q2)).
    + unfold read_ranges. match goal with |- accepts (if ?b then _ else _) _ => destruct b eqn:Eb end.
      * eapply accepts_bind; [apply accepts_of, sound_range_tr|]. intros t _. apply accepts_ret. by eexists.
      * exfalso. unfold is_kern in Eb. change (policy_type q2) with (policy_type q) in Eb. change (policyvers q2) with (policyvers q) in Eb.
        rewrite (rg_type _ Hru) in Eb. cbn [Z.eqb POLICY_KERN andb] in Eb. apply Z.leb_gt in Eb. pose proof (rg_vers _ Hru).
        unfold POLICYDB_VERSION_MLS, POLICYDB_VERSION_AVTAB in *. lia.
    + intros q3 [t ->]. set (q3 := set_range_tr t q2). assert (H3 : same_symbols q q3) by done.
      assert (Hk3 : is_kern q3 = true) by (unfold is_kern; change (policy_type q3) with (policy_type q); by rewrite (rg_type _ Hru)).
      rewrite Hk3. eapply accepts_mono; [apply accepts_attr_maps; [exact (rg_vers _ Hru)|]|].
      * change (p_types q3) with (p_types q). pose proof (io_length _ _ (pi_types _ HI)) as Hl. cbn in Hl. lia.
      * intros q4 [Hm (a&t'&->)]. assert (H4 : same_symbols q (set_attr_type_map a (set_type_attr_map t' q3))) by done. split.
        -- by apply (policy_indexed_ext q).
        -- by apply (rules_good_ext q).
        -- apply (genfs_good_ext (set_ocontexts ls q)); [done|exact Hgf].
        -- apply (ocontexts_good_ext q); [done|exact Hls].
        -- exact Hm.
Qed.
End accepted.

(** *** The image of a kernel policy *)

(** The magic number of a kernel policy, and after the string the version. *)
Definition kernel_image (data : list Z) : Prop :=
  le_value (take 4 data) = POLICYDB_MAGIC ∧
  POLICYDB_VERSION_AVTAB <= le_value (take 4 (drop (8 + Z.to_nat (le_value (take 4 (drop 4 data)))) data)).

(** What follows when a reader of an image returned a value. *)
Lemma R_bind_inv {A B} (r : R A) (f : A → R B) s b s' :
  (r ≫= f) s = Ret (inr b, s') → ∃ a s1, r s = Ret (inr a, s1) ∧ f a s1 = Ret (inr b, s').
Proof. unfold mbind, R_bind. destruct (r s) as [[[e|a] s1]| |] eqn:E; try done. intros H. by exists a, s1. Qed.

Lemma entry_inv n s b s' : pf_type (file s) = PF_USE_MEMORY → entry n s = Ret (inr b, s') →
  b = take (Z.to_nat n) (fdata (file s)) ∧ fdata (file s') = drop (Z.to_nat n) (fdata (file s)) ∧ pf_type (file s') = PF_USE_MEMORY.
Proof.
  unfold entry, next_entry. intros Ht. rewrite Ht. change (PF_USE_MEMORY =? PF_USE_STDIO) with false. change (PF_USE_MEMORY =? PF_USE_MEMORY) with true.
  intros H. destruct (flen (file s) <? n); [discriminate H|]. destruct (_ <? n); [discriminate H|]. injection H as <- <-. split_and!; [done..|exact Ht].
Qed.

Lemma u32s_inv n s l s' : pf_type (file s) = PF_USE_MEMORY → next_u32s n s = Ret (inr l, s') →
  l = words 4 (Z.to_nat n) (take (Z.to_nat (4 * n)) (fdata (file s))) ∧
  fdata (file s') = drop (Z.to_nat (4 * n)) (fdata (file s)) ∧ pf_type (file s') = PF_USE_MEMORY.
Proof.
  intros Ht H. apply R_bind_inv in H as (b&s1&Hb&[= <- <-]). by apply entry_inv in Hb as (->&?&?).
Qed.

Lemma key_inv n s k s' : pf_type (file s) = PF_USE_MEMORY → key_read n s = Ret (inr k, s') →
  fdata (file s') = drop (Z.to_nat n) (fdata (file s)) ∧ pf_type (file s') = PF_USE_MEMORY.
Proof.
  intros Ht H. apply R_bind_inv in H as ([]&s1&Hn&H). apply R_bind_inv in H as (b&s2&Hb&[= _ <-]).
  unfold need in Hn. destruct (malloc _) as [ok m]. destruct ok; [|done]. injection Hn as <-.
  apply entry_inv in Hb as (_&?&?); [|done]. done.
Qed.

Lemma guard_inv {B} rc (b : bool) (f : () → R B) s a s' :
  (guard_or rc b ≫= f) s = Ret (inr a, s') → b = true ∧ f () s = Ret (inr a, s').
Proof. by destruct b. Qed.

Lemma target_inv p s st q s' : read_target p s st = Ret (inr q, s') → s' = st.
Proof. unfold read_target. intros H. destruct (streq _ _); [by injection H|]. destruct (streq _ _); [by injection H|done]. Qed.

Lemma word_take w (l : list Z) i n : (w * i + w <= n)%nat → take w (drop (w * i) (take n l)) = take w (drop (w * i) l).
Proof. intros H. rewrite skipn_firstn_comm, take_take. f_equal. lia. Qed.

Lemma read_header_kernel data c m hdr info s1 : kernel_image data →
  read_header initial_policy (FS (PF PF_USE_MEMORY data (Z.of_nat (length data)) []) c m) = Ret (inr (hdr, info), s1) →
  policy_type hdr = POLICY_KERN ∧ POLICYDB_VERSION_AVTAB <= policyvers hdr.
Proof.
  intros [Hm Hv] H. unfold read_header in H. generalize dependent initial_policy. intros p0 H.
  apply R_bind_inv in H as (b&s2&Hb&H). apply u32s_inv in Hb as (->&Hd2&Ht2); [|done].
  cbn [file fdata] in Hd2. change (Z.to_nat 2) with 2%nat in H. change (Z.to_nat (4 * 2)) with 8%nat in *.
  change (word (words 4 2 ?l) 0) with (le_value (take 4 l)) in H. change (word (words 4 2 ?l) 1) with (le_value (take 4 (drop 4 l))) in H.
  pose proof (word_take 4 data 1 8 ltac:(lia)) as Hw. change (4 * 1)%nat with 4%nat in Hw. cbn [file fdata] in H.
  rewrite Hw, take_take in H. cbn [Nat.min] in H. rewrite Hm in H. rewrite Z.eqb_refl in H. cbn [orb] in H.
  apply guard_inv in H as [_ H]. apply guard_inv in H as [_ H].
  apply R_bind_inv in H as (k&s3&Hk&H). apply key_inv in Hk as [Hd3 Ht3]; [|done].
  apply R_bind_inv in H as (p1&s4&Hp&H). apply target_inv in Hp as ->.
  apply R_bind_inv in H as (b4&s5&Hb&H). apply u32s_inv in Hb as (->&_&_); [|done].
  apply guard_inv in H as [_ H]. apply guard_inv in H as [_ H].
  apply R_bind_inv in H as (inf&s6&_&H). apply guard_inv in H as [_ H]. injection H as <- <- _.
  split; [done|]. cbn [policyvers set_handle_unknown set_mls set_policyvers].
  change (word (words 4 (Z.to_nat 4) ?l) 0) with (le_value (take 4 l)). rewrite take_take, Hd3, Hd2. rewrite drop_drop.
  by cbn [Nat.min Z.to_nat Z.mul Pos.to_nat].
Qed.

Section loaded_policy.
Context (read_module : policydb_compat_info → policydb → R policydb) (read_module_ranges : policydb → R policydb).

Lemma read_header_rest p s : policydb_read read_module read_module_ranges p s =
  on_error POLICYDB_ERROR (read_header p ≫= read_rest read_module read_module_ranges) s.
Proof.
  unfold policydb_read, on_error, mbind, R_bind. by destruct (read_header p s) as [[[e|[q info]] s1]| |].
Qed.

(** Every policy read from a file whose header is that of a kernel policy of
    version 20 or later is well formed. *)
Lemma policydb_read_good s p s' :
  file_ok s → policydb_read read_module read_module_ranges initial_policy s = Ret (inr p, s') →
  ∃ hdr info s1, read_header initial_policy s = Ret (inr (hdr, info), s1) ∧
    (policy_type hdr = POLICY_KERN → POLICYDB_VERSION_AVTAB <= policyvers hdr → policy_good p).
Proof.
  intros Hs. rewrite read_header_rest. unfold on_error, mbind, R_bind. pose proof (accepts_header s Hs) as Hh.
  destruct (read_header initial_policy s) as [[[e|[hdr info]] s1]| |]; try done. destruct Hh as [(t&v&ml&h&g&Eh&_&Hi) Hs1].
  cbn [fst snd] in *. intros Hr. exists hdr, info, s1. split; [done|]. subst hdr.
  change (policy_type (with_header t v ml h g)) with t. change (policyvers (with_header t v ml h g)) with v. intros -> Hv.
  pose proof (accepts_rest read_module read_module_ranges v ml h g info Hv Hi s1 Hs1) as Hg.
  destruct (read_rest _ _ _ s1) as [[[e|q] s2]| |]; try done. injection Hr as -> ->. by destruct Hg.
Qed.

Lemma load_policydb_good data s p s' :
  Forall byte_ok data → load_policydb read_module read_module_ranges data s = Ret (Some p, s') →
  ∃ hdr info c m s1, read_header initial_policy (FS (PF PF_USE_MEMORY data (Z.of_nat (length data)) []) c m) = Ret (inr (hdr, info), s1) ∧
    (policy_type hdr = POLICY_KERN → POLICYDB_VERSION_AVTAB <= policyvers hdr → policy_good p).
Proof.
  intros Hd. unfold load_policydb. pose proof (accepts_init (FS (PF PF_USE_MEMORY data (Z.of_nat (length data)) []) s.1 s.2)) as Hi.
  assert (Hok : ∀ c m, file_ok (FS (PF PF_USE_MEMORY data (Z.of_nat (length data)) []) c m)) by (intros c m; split; [done|intros _; cbn; lia]).
  specialize (Hi (Hok _ _)). destruct (policydb_init _) as [[[e|q] s1]| |]; [by destruct (e =? 0)| |done..]. destruct Hi as [-> _].
  unfold policydb_from_image. cbn [fst snd].
  destruct (policydb_read _ _ _ _) as [[[e|q] s2]| |] eqn:E; try done. intros [= <- <-].
  destruct (policydb_read_good _ _ _ (Hok _ _) E) as (hdr&info&s3&H1&H2). by exists hdr, info, (compat s1), (fmem s1), s3.
Qed.
End loaded_policy.

(** ** Decisions on a policy that was read *)

Section decisions.
Context (p : policydb) (G : policy_good p).

Definition has_role (x : context_struct) : Prop := ∃ r, role_struct p (role x) = Ret (Some r).

Lemma good_class c q : at_index (class_val_to_struct p) (c - 1) = Some (Some q) →
  ∃ cl, class_struct p c = Ret cl ∧ class_sound p cl ∧ ∃ name, val_to_name p SYM_CLASSES (c - 1) = Ret name.
Proof.
  intros Hq. destruct (pi_classes _ (pg_indexed _ G)) as [H1 H2 H3 H4 (ns&En&Hl&Hns)]. cbn [k_tab k_arr k_sym k_store class_kind type_kind] in *.
  assert (Hn : nprim (p_classes p) ≠ 0) by (apply at_index_Some in Hq; lia).
  destruct (H4 Hn (c - 1) q) as [Hk _]. destruct (Hk Hq) as (Hc&key&Hm&_).
  pose proof (pi_class _ (pg_indexed _ G)) as Hin. unfold in_store in Hin. rewrite Forall_forall in Hin.
  destruct (Hin (key, q)) as (d&Hd&Hok); [by apply elem_of_table_entries|]. cbn in Hd.
  exists d. split; [|split; [done|]].
  - unfold class_struct, val_to_struct, mbind, outcome_bind. rewrite Hq. cbn. by rewrite Hd.
  - unfold val_to_name, mbind, outcome_bind. rewrite En. cbn [deref]. apply at_index_Some in Hq.
    destruct (at_index_in ns (c - 1)) as [o ->]; [lia|]. by exists o.
Qed.

Lemma good_constraints c q : at_index (class_val_to_struct p) (c - 1) = Some (Some q) →
  constraints_defined p c (λ s t, has_role s ∧ has_role t).
Proof.
  intros Hq. destruct (good_class c q Hq) as (cl&Ecl&[_ _ _ [_ Hk] _]&name&En). exists cl. split; [done|].
  intros s t k [Hs Ht] Hin. rewrite Forall_forall in Hk. destruct (Hk k Hin) as (_&_&_&Hb).
  by apply (valid_eval p s t None Hs Ht false k c name).
Qed.

Lemma good_type t q : at_index (type_val_to_struct p) (t - 1) = Some (Some q) → Services.type_ok p t.
Proof.
  intros Hq. destruct (pi_types _ (pg_indexed _ G)) as [H1 H2 H3 H4 _]. cbn [k_tab k_arr k_sym k_store class_kind type_kind] in *.
  assert (Hn : nprim (p_types p) ≠ 0) by (apply at_index_Some in Hq; lia).
  destruct (H4 Hn (t - 1) q) as [Hk _]. destruct (Hk Hq) as (_&key&Hm&_).
  pose proof (pi_type _ (pg_indexed _ G)) as Hin. unfold in_store in Hin. rewrite Forall_forall in Hin.
  destruct (Hin (key, q)) as (d&Hd&_); [by apply elem_of_table_entries|]. cbn in Hd. split.
  - destruct (pg_maps _ G) as [[Hl _] Ht _]. apply at_index_Some in Hq.
    destruct (at_index_in (type_attr_map p) (t - 1)) as [o Eo]; [lia|]. destruct (Ht _ _ Eo) as (ta&->&_).
    exists ta. unfold attrs_of. by rewrite Eo.
  - exists d. unfold type_struct, val_to_struct, mbind, outcome_bind. rewrite Hq. cbn. by rewrite Hd.
Qed.

(** The access decision on declared contexts returns: every array and pointer
    it follows is there, and every constraint can be evaluated. *)
Lemma good_decision fuel c s t qc qs qt req avd0 r0 :
  at_index (class_val_to_struct p) (c - 1) = Some (Some qc) → c < 2 ^ 16 →
  at_index (type_val_to_struct p) (type s - 1) = Some (Some qs) → at_index (type_val_to_struct p) (type t - 1) = Some (Some qt) →
  has_role s → has_role t → bounds_ok p →
  ∃ avd r, context_struct_compute_av (S (S fuel)) p s t c req avd0 (Some r0) = Ret (0, avd, r).
Proof.
  intros Hc Hc16 Hs Ht Rs Rt Hb.
  apply (compute_av_total p c (λ s t, has_role s ∧ has_role t)); [|by eapply good_constraints|done|done|done|by eapply good_type|by eapply good_type].
  destruct (pi_classes _ (pg_indexed _ G)) as [_ H2 _ _ _]. cbn [k_tab k_arr class_kind] in H2. apply at_index_Some in Hc. split; [lia|done].
Qed.
End decisions.

(** ** Conditionals of an accepted policy *)

Lemma bind_pairs l : l ≫= addresses = br_addresses ((λ n, (true_list n, false_list n)) <$> l).
Proof. unfold br_addresses. induction l as [|n l IH]; [done|]. cbn [fmap list_fmap]. rewrite !bind_cons. f_equal. exact IH. Qed.

(** The conditionals have values and agree with their rules. *)
Definition conds_settled (p : policydb) : Prop :=
  Forall (λ n, ∃ v, cond_evaluate_expr p (cd_expr n) = Ret v) (cond_list p) ∧ Forall (consistent (te_cond_avtab p)) (cond_list p).

Lemma settled_evaluates p : conds_ok p (cond_list p) (te_cond_avtab p) → conds_settled p →
  ∃ p', evaluate_conds p = Ret (0, p') ∧
    Forall2 (λ n n', ∃ v, cond_evaluate_expr p (cd_expr n) = Ret v ∧ n' = set_cur_state v n ∧ consistent (te_cond_avtab p') n') (cond_list p) (cond_list p').
Proof.
  intros [[Hw Hn Hnd _ _] _] [He Hc]. pose proof (bind_pairs (cond_list p)) as Ea.
  apply evaluate_conds_spec; [done|by rewrite Ea| |done].
  rewrite Ea. intros a Ha. unfold br_addresses in Ha. apply list_elem_of_bind in Ha as (b&Ha&Hb).
  destruct (Hn b a Hb Ha) as (n&Hin&<-&_). by rewrite (node_at_some _ n Hw Hin).
Qed.
