(* ===== verification/Assertion.v ===== *)
(** * Neverallow rules (libsepol/src/assertion.c)

    A neverallow rule names sets of source and target types and permissions that
    no rule of the policy may grant.  [check_assertion] looks for a rule that does,
    [report_assertion_failures] counts what it grants.

    For rules on permissions the check is exact, and a policy that passes it never
    allows what the rule forbids, whatever the booleans are.  For rules on extended
    permissions it is not: only the last rule that is looked at counts. *)

From S2P Require Import Prelude Ebitmap Hashtab Avtab Context Policydb Mls Cond Services Sepolicy PolicydbFile TypeMaps.

(** ** Data (policydb.h)

    The fields of [avrule_t]; the line numbers are for messages. *)

Record class_perm_node := CPN { cp_tclass : Z; cp_data : Z }.

Record av_extended_perms := AXP { xr_specified : Z; xr_driver : Z; xr_perms : list Z }.

Record avrule := AVR {
  av_specified : Z;
  av_flags : Z;
  stypes : type_set;
  ttypes : type_set;
  av_perms : list class_perm_node;
  av_xperms : option av_extended_perms
}.

Definition AVRULE_NEVERALLOW : Z := AVTAB_NEVERALLOW.
Definition AVRULE_XPERMS_NEVERALLOW : Z := AVTAB_XPERMS_NEVERALLOW.
Definition AVRULE_XPERMS_IOCTLFUNCTION : Z := 0x01.
Definition AVRULE_XPERMS_IOCTLDRIVER : Z := 0x02.
Definition RULE_SELF : Z := 1.

(** ** Matching *)

Definition match_any_class_permissions (cp : list class_perm_node) (class data : Z) : bool :=
  existsb (λ c, (cp_tclass c =? class) && has_bits (cp_data c) data) cp.

Definition extended_permissions_and (perms1 perms2 : list Z) : bool :=
  existsb (λ p, has_bits p.1 p.2) (zip perms1 perms2).

Definition check_extended_permissions (neverallow : av_extended_perms) (allow : avtab_extended_perms) : bool :=
  if (xr_specified neverallow =? AVRULE_XPERMS_IOCTLFUNCTION) && (xp_specified allow =? AVTAB_XPERMS_IOCTLFUNCTION) then
    (xr_driver neverallow =? driver allow) && extended_permissions_and (xr_perms neverallow) (perms allow)
  else if (xr_specified neverallow =? AVRULE_XPERMS_IOCTLFUNCTION) && (xp_specified allow =? AVTAB_XPERMS_IOCTLDRIVER) then
    xperm_test (xr_driver neverallow) (perms allow)
  else if (xr_specified neverallow =? AVRULE_XPERMS_IOCTLDRIVER) && (xp_specified allow =? AVTAB_XPERMS_IOCTLFUNCTION) then
    xperm_test (driver allow) (xr_perms neverallow)
  else if (xr_specified neverallow =? AVRULE_XPERMS_IOCTLDRIVER) && (xp_specified allow =? AVTAB_XPERMS_IOCTLDRIVER) then
    extended_permissions_and (xr_perms neverallow) (perms allow)
  else false.

(** [p->attr_type_map[i]] and [p->type_attr_map[i]] *)
Definition types_with (p : policydb) (i : Z) : outcome ebitmap :=
  e ← deref (at_index (attr_type_map p) i); deref e.
Definition attributes_of (p : policydb) (i : Z) : outcome ebitmap :=
  e ← deref (at_index (type_attr_map p) i); deref e.

Definition is_ioctl_rule (x : avtab_extended_perms) : bool :=
  (xp_specified x =? AVTAB_XPERMS_IOCTLFUNCTION) || (xp_specified x =? AVTAB_XPERMS_IOCTLDRIVER).

(** Code that only allocates. *)
Definition with_tape {A} (f : mem → Z * A * mem) : M mem (Z * A) := λ m, let '(rc, a, m) := f m in Ret ((rc, a), m).

(** [avtab_map]: stops at the first status that is not 0. *)
Fixpoint each_rule {S} (apply : avtab_key → avtab_datum → M S Z) (l : list avtab_node) : M S Z :=
  match l with
  | [] => mret 0
  | n :: l' => ret ← apply (key n) (datum n); if negb (ret =? 0) then mret ret else each_rule apply l'
  end.

(** ** Extended permissions *)

(** The loop over the rules of one key. *)
Fixpoint xperm_rules (neverallow : option av_extended_perms) (l : list avtab_node) (rc : Z) : outcome Z :=
  match l with
  | [] => mret rc
  | n :: l' =>
      x ← deref (xperms (datum n));
      if negb (is_ioctl_rule x) then xperm_rules neverallow l' rc
      else
        never ← deref neverallow;
        let rc := Z.b2z (check_extended_permissions never x) in
        if negb (rc =? 0) then mret rc else xperm_rules neverallow l' rc
  end.

(** The [break] leaves the innermost loop only: [rc] is that of the last key with
    rules. *)
Definition check_assertion_extended_permissions_avtab (p : policydb) (r : avrule) (tab : avtab) (stype ttype : Z)
    (k : avtab_key) : outcome Z :=
  sattr ← attributes_of p stype;
  tattr ← attributes_of p ttype;
  ofold (λ rc ij,
    let tmp_key := AK (u16 (ij.1 + 1)) (u16 (ij.2 + 1)) (target_class k) AVTAB_XPERMS_ALLOWED in
    xperm_rules (av_xperms r) (avtab_search_all tab tmp_key) rc) (attr_pairs sattr tattr) 1.

(** The types of the rule that have the attributes of the key; [inl] is a status. *)
Definition rule_matches (p : policydb) (r : avrule) (k : avtab_key) : M mem (Z + ebitmap * ebitmap) :=
  src ← lift (types_with p (source_type k - 1));
  '(rc, src_matches) ← with_tape (ebitmap_and (types (stypes r)) src);
  if negb (rc =? 0) then mret (inl rc)
  else if ebitmap_length src_matches =? 0 then mret (inr (src_matches, ebitmap_init))
  else
    tgt ← lift (types_with p (target_type k - 1));
    '(rc, tgt_matches) ← with_tape (ebitmap_and (types (ttypes r)) tgt);
    if negb (rc =? 0) then mret (inl rc)
    else if av_flags r =? RULE_SELF then
      '(rc, matches) ← with_tape (ebitmap_and src tgt);
      if negb (rc =? 0) then mret (inl rc)
      else
        '(rc, self_matches) ← with_tape (ebitmap_and (types (stypes r)) matches);
        if negb (rc =? 0) then mret (inl rc)
        else if 0 <? ebitmap_length self_matches then
          '(rc, tgt_matches) ← with_tape (ebitmap_union tgt_matches self_matches);
          if negb (rc =? 0) then mret (inl rc) else mret (inr (src_matches, tgt_matches))
        else mret (inr (src_matches, tgt_matches))
    else mret (inr (src_matches, tgt_matches)).

(** The first pair that is not 0 ends the loops. *)
Fixpoint first_failure (f : Z * Z → outcome Z) (l : list (Z * Z)) (ret : Z) : outcome Z :=
  match l with
  | [] => mret ret
  | ij :: l' => ret ← f ij; if negb (ret =? 0) then mret ret else first_failure f l' ret
  end.

Definition check_assertion_extended_permissions (p : policydb) (r : avrule) (tab : avtab) (k : avtab_key) : M mem Z :=
  ms ← rule_matches p r k;
  match ms with
  | inl _ => mret 1
  | inr (src_matches, tgt_matches) =>
      if (ebitmap_length src_matches =? 0) || (ebitmap_length tgt_matches =? 0) then mret 1
      else
        let pairs := filter (λ c, cp_tclass c = target_class k) (av_perms r) ≫= λ _, attr_pairs src_matches tgt_matches in
        lift (first_failure (λ ij, check_assertion_extended_permissions_avtab p r tab ij.1 ij.2 k) pairs 1)
  end.

(** ** The check *)

Definition check_assertion_avtab_match (p : policydb) (r : avrule) (tab : avtab) (k : avtab_key) (d : avtab_datum) : M mem Z :=
  if negb (has_bits (specified k) AVTAB_ALLOWED) then mret 0
  else if negb (match_any_class_permissions (av_perms r) (target_class k) (data d)) then mret 0
  else
    src ← lift (types_with p (source_type k - 1));
    if negb (ebitmap_match_any (types (stypes r)) src) then mret 0
    else
      '(rc, rc2) ←
        (if av_flags r =? RULE_SELF then
           tgt ← lift (types_with p (target_type k - 1));
           '(rc, match_) ← with_tape (ebitmap_and src tgt);
           mret (rc, ebitmap_match_any (types (stypes r)) match_)
         else mret (0, false));
      if negb (rc =? 0) then mret rc
      else
        tgt ← lift (types_with p (target_type k - 1));
        if negb (ebitmap_match_any (types (ttypes r)) tgt) && negb rc2 then mret 0
        else if av_specified r =? AVRULE_XPERMS_NEVERALLOW then
          rc ← check_assertion_extended_permissions p r tab k;
          mret (if rc =? 0 then 0 else 1)
        else mret 1.

Definition check_assertion (p : policydb) (r : avrule) : M mem Z :=
  rc ← each_rule (check_assertion_avtab_match p r (te_avtab p)) (avtab_nodes (te_avtab p));
  if rc =? 0 then each_rule (check_assertion_avtab_match p r (te_cond_avtab p)) (avtab_nodes (te_cond_avtab p))
  else mret rc.

(** ** Reports

    What is granted is counted; the messages are left out. *)

(** [rc] and [ret] *)
Fixpoint report_xperm_rules (neverallow : option av_extended_perms) (l : list avtab_node) (s : Z * Z) : outcome (Z * Z) :=
  match l with
  | [] => mret s
  | n :: l' =>
      x ← deref (xperms (datum n));
      if negb (is_ioctl_rule x) then report_xperm_rules neverallow l' s
      else
        never ← deref neverallow;
        report_xperm_rules neverallow l' (0, if check_extended_permissions never x then s.2 + 1 else s.2)
  end.

Definition report_assertion_extended_permissions (p : policydb) (r : avrule) (tab : option avtab) (stype ttype : Z)
    (k : avtab_key) : outcome Z :=
  sattr ← attributes_of p stype;
  tattr ← attributes_of p ttype;
  '(rc, ret) ← ofold (λ s ij,
    let tmp_key := AK (u16 (ij.1 + 1)) (u16 (ij.2 + 1)) (target_class k) AVTAB_XPERMS_ALLOWED in
    tab ← deref tab;
    report_xperm_rules (av_xperms r) (avtab_search_all tab tmp_key) s) (attr_pairs sattr tattr) (1, 0);
  mret (if negb (rc =? 0) then ret + 1 else ret).

Definition add_errors (n : Z) : M (Z * mem) () := modify (λ s, (u32 (s.1 + n), s.2)).

(** Code that leaves the first component of the state alone. *)
Definition with_rest {C S A} (f : M S A) : M (C * S) A := λ s, '(a, m) ← f s.2; Ret (a, (s.1, m)).

Fixpoint report_pairs (report : Z * Z → outcome Z) (l : list (Z * Z)) : M (Z * mem) () :=
  match l with
  | [] => mret ()
  | ij :: l' => n ← lift (report ij); _ ← add_errors n; report_pairs report l'
  end.

(** [tab] is [a->avtab], which [report_assertion_failures] does not set. *)
Definition report_assertion_avtab_matches (p : policydb) (r : avrule) (tab : option avtab) (k : avtab_key) (d : avtab_datum)
    : M (Z * mem) Z :=
  if negb (has_bits (specified k) AVTAB_ALLOWED) then mret 0
  else if negb (match_any_class_permissions (av_perms r) (target_class k) (data d)) then mret 0
  else
    ms ← with_rest (rule_matches p r k);
    match ms with
    | inl rc => mret rc
    | inr (src_matches, tgt_matches) =>
        if (ebitmap_length src_matches =? 0) || (ebitmap_length tgt_matches =? 0) then mret 0
        else
          let cps := filter (λ c, cp_tclass c = target_class k ∧ has_bits (cp_data c) (data d) = true) (av_perms r) in
          let report ij :=
            if av_specified r =? AVRULE_XPERMS_NEVERALLOW then report_assertion_extended_permissions p r tab ij.1 ij.2 k
            else mret 1 in
          _ ← report_pairs report (cps ≫= λ _, attr_pairs src_matches tgt_matches);
          mret 0
    end.

(** The number of errors as an [int], or a status. *)
Definition report_assertion_failures (p : policydb) (r : avrule) : M mem Z := λ m,
  '(rc, (errors, m)) ← (
    rc ← each_rule (report_assertion_avtab_matches p r None) (avtab_nodes (te_avtab p));
    if negb (rc =? 0) then mret rc
    else each_rule (report_assertion_avtab_matches p r None) (avtab_nodes (te_cond_avtab p))) (0, m);
  Ret (if negb (rc =? 0) then rc else s32 errors, m).

(** The status -1 of a report that fails ends the loop. *)
Fixpoint check_rules (p : policydb) (l : list avrule) (errors : Z) : M mem Z :=
  match l with
  | [] => mret (if negb (errors =? 0) then -1 else 0)
  | a :: l' =>
      if negb (has_bits (av_specified a) (Z.lor AVRULE_NEVERALLOW AVRULE_XPERMS_NEVERALLOW)) then check_rules p l' errors
      else
        rc ← check_assertion p a;
        if negb (rc =? 0) then
          rc ← report_assertion_failures p a;
          if rc <? 0 then mret (-1) else check_rules p l' (u32 (errors + rc))
        else check_rules p l' errors
  end.

Definition check_assertions (p : policydb) (avrules : list avrule) : M mem Z :=
  match avrules with [] => mret 0 | _ => check_rules p avrules 0 end.

Lemma tape_bind {A B} (f : mem → Z * A * mem) (g : Z * A → M mem B) m :
  (with_tape f ≫= g) m = let '(rc, a, m') := f m in g (rc, a) m'.
Proof. unfold mbind, M_bind, with_tape. by destruct (f m) as [[rc a] m']. Qed.

(** ** What the check means *)

(** The rule forbids permission bit [b] of class [c] from the type [s + 1] to the
    type [t + 1]. *)
Definition forbids (r : avrule) (s t c b : Z) : Prop :=
  ebitmap_get_bit (types (stypes r)) s = true ∧
  (ebitmap_get_bit (types (ttypes r)) t = true ∨ av_flags r = RULE_SELF ∧ t = s) ∧
  ∃ cp, cp ∈ av_perms r ∧ cp_tclass cp = c ∧ Z.testbit (cp_data cp) b = true.

(** The type [s + 1] belongs to the attribute [i + 1], or is that type. *)
Definition belongs (p : policydb) (i s : Z) : Prop :=
  ∃ e, types_with p i = Ret e ∧ ebitmap_get_bit e s = true.

(** The rule of a table, enabled or not, grants it. *)
Definition grants (p : policydb) (n : avtab_node) (s t c b : Z) : Prop :=
  Z.testbit (specified (key n)) 0 = true ∧ target_class (key n) = c ∧ Z.testbit (data (datum n)) b = true ∧
  belongs p (source_type (key n) - 1) s ∧ belongs p (target_type (key n) - 1) t.

Definition violates (p : policydb) (r : avrule) (n : avtab_node) : Prop :=
  ∃ s t c b, 0 <= b ∧ forbids r s t c b ∧ grants p n s t c b.

(** The types of a rule that is well formed and of a key the policy knows. *)
Definition rule_wf (r : avrule) : Prop :=
  ebitmap_wf (types (stypes r)) ∧ ebitmap_wf (types (ttypes r)) ∧ Forall (λ cp, 0 <= cp_data cp) (av_perms r).

Definition key_known (p : policydb) (n : avtab_node) : Prop :=
  ∃ src tgt, types_with p (source_type (key n) - 1) = Ret src ∧ types_with p (target_type (key n) - 1) = Ret tgt ∧
    ebitmap_wf src ∧ ebitmap_wf tgt.

Lemma has_bits_spec a b : 0 <= a → has_bits a b = true ↔ ∃ k, 0 <= k ∧ Z.testbit a k = true ∧ Z.testbit b k = true.
Proof.
  intros Ha. split; [|intros (k&?&?&?); by eapply has_bits_testbit].
  unfold has_bits. intros H%negb_true_iff%Z.eqb_neq. assert (0 <= Z.land a b) by (apply Z.land_nonneg; by left).
  exists (Z.log2 (Z.land a b)). split; [apply Z.log2_nonneg|]. apply andb_true_iff. rewrite <- Z.land_spec. apply Z.bit_log2. lia.
Qed.

Lemma has_allowed a : has_bits a AVTAB_ALLOWED = Z.testbit a 0.
Proof. change AVTAB_ALLOWED with (Z.shiftl 1 0). by apply has_bits_shl. Qed.

Lemma match_any_spec r n : Forall (λ cp, 0 <= cp_data cp) (av_perms r) →
  match_any_class_permissions (av_perms r) (target_class (key n)) (data (datum n)) = true ↔
  ∃ cp b, 0 <= b ∧ cp ∈ av_perms r ∧ cp_tclass cp = target_class (key n) ∧
    Z.testbit (cp_data cp) b = true ∧ Z.testbit (data (datum n)) b = true.
Proof.
  intros Hr. unfold match_any_class_permissions. rewrite existsb_exists. setoid_rewrite <- list_elem_of_In.
  setoid_rewrite andb_true_iff. setoid_rewrite Z.eqb_eq. rewrite Forall_forall in Hr. split.
  - intros (cp&Hcp&Hc&(b&Hb&H1&H2)%has_bits_spec); [|by apply Hr]. by exists cp, b.
  - intros (cp&b&Hb&Hcp&Hc&H1&H2). exists cp. split; [done|]. split; [done|]. by eapply has_bits_testbit.
Qed.

Section rule.
Context (p : policydb) (r : avrule).
Hypothesis Hr : rule_wf r.
Hypothesis Hplain : av_specified r ≠ AVRULE_XPERMS_NEVERALLOW.

(** What is decided at the last test: the sources match, and the targets, or the
    type itself. *)
Lemma violates_known n src tgt :
  types_with p (source_type (key n) - 1) = Ret src → types_with p (target_type (key n) - 1) = Ret tgt →
  violates p r n ↔
  Z.testbit (specified (key n)) 0 = true ∧
  match_any_class_permissions (av_perms r) (target_class (key n)) (data (datum n)) = true ∧
  (∃ s, ebitmap_get_bit (types (stypes r)) s = true ∧ ebitmap_get_bit src s = true) ∧
  ((∃ t, ebitmap_get_bit (types (ttypes r)) t = true ∧ ebitmap_get_bit tgt t = true) ∨
   av_flags r = RULE_SELF ∧ ∃ s, ebitmap_get_bit (types (stypes r)) s = true ∧ ebitmap_get_bit src s = true ∧ ebitmap_get_bit tgt s = true).
Proof.
  intros Hs Ht. destruct Hr as (_&_&Hp). rewrite match_any_spec by done. unfold violates, forbids, grants, belongs. split.
  - intros (s&t&c&b&Hb&(Hss&Htt&cp&Hcp&Hc&Hbit)&Hspec&Hcl&Hd&(e&He&Hes)&(e'&He'&Het)).
    rewrite Hs in He. injection He as <-. rewrite Ht in He'. injection He' as <-.
    split; [done|]. split; [exists cp, b; by subst c|]. split; [by exists s|].
    destruct Htt as [Htt|[Hself ->]]; [left; by exists t|right]. split; [done|]. by exists s.
  - intros (Hspec&(cp&b&Hb&Hcp&Hc&Hbit&Hd)&(s&Hss&Hes)&[(t&Htt&Het)|(Hself&s'&Hss'&Hes'&Het')]).
    + exists s, t, (target_class (key n)), b. split; [done|]. split; [split; [done|split; [by left|by exists cp]]|].
      do 3 (split; [done|]). split; [by exists src|by exists tgt].
    + exists s', s', (target_class (key n)), b. split; [done|]. split; [split; [done|split; [by right|by exists cp]]|].
      do 3 (split; [done|]). split; [by exists src|by exists tgt].
Qed.

(** The status is 0 only when nothing forbidden is granted and 1 only when it is;
    without memory it may be another. *)
Definition checked (V : Prop) (m : mem) (o : outcome (Z * mem)) : Prop :=
  ∃ rc m', o = Ret (rc, m') ∧ (plenty m → plenty m' ∧ (rc = 0 ∨ rc = 1)) ∧
    (rc = 0 → ¬ V) ∧ (rc = 1 → V) ∧ (rc = 0 ∨ rc = 1 ∨ rc = - ENOMEM).

#[local] Instance checked_proper : Proper (iff ==> eq ==> eq ==> iff) checked.
Proof. intros V V' HV m ? <- o ? <-. unfold checked. by setoid_rewrite HV. Qed.

Lemma checked_0 (V : Prop) m : ¬ V → checked V m (Ret (0, m)).
Proof. intros HV. exists 0, m. split_and!; [done|by auto|done|done|by auto]. Qed.

Lemma checked_1 (V : Prop) m : V → checked V m (Ret (1, m)).
Proof. intros HV. exists 1, m. split_and!; [done|by auto|done|done|by auto]. Qed.

Lemma checked_later (V : Prop) m m' o : (plenty m → plenty m') → checked V m' o → checked V m o.
Proof. intros Hm (rc&m2&E&Hp&H). exists rc, m2. split; [done|]. split; [auto|done]. Qed.

Lemma check_match_wp tab n m : key_known p n →
  checked (violates p r n) m (check_assertion_avtab_match p r tab (key n) (datum n) m).
Proof.
  intros (src&tgt&Hs&Ht&Hsw&Htw). pose proof (violates_known n src tgt Hs Ht) as Hv. revert Hv.
  generalize (violates p r n) as V. intros V Hv. destruct Hr as (Hst&Htt&_).
  unfold check_assertion_avtab_match. rewrite has_allowed.
  destruct (Z.testbit (specified (key n)) 0); cbn [negb]; [|apply checked_0; rewrite Hv; by intros [? _]].
  destruct (match_any_class_permissions _ _ _); cbn [negb]; [|apply checked_0; rewrite Hv; by intros (_&?&_)].
  rewrite Hs. unfold mbind at 1, M_bind at 1. cbn [lift].
  pose proof (ebitmap_match_any_correct (types (stypes r)) src Hst Hsw) as Hms.
  destruct (ebitmap_match_any (types (stypes r)) src); cbn [negb].
  2: { apply checked_0. rewrite Hv. intros (_&_&Hsrc&_). by apply Hms in Hsrc. }
  pose proof (proj1 Hms eq_refl) as Hsrc. clear Hms.
  assert (Hfin : ∀ (rc2 : bool) m0, (rc2 = true ↔ av_flags r = RULE_SELF ∧
      ∃ s, ebitmap_get_bit (types (stypes r)) s = true ∧ ebitmap_get_bit src s = true ∧ ebitmap_get_bit tgt s = true) →
    checked V m0 ((tgt ← lift (types_with p (target_type (key n) - 1));
        if negb (ebitmap_match_any (types (ttypes r)) tgt) && negb rc2 then mret 0
        else if av_specified r =? AVRULE_XPERMS_NEVERALLOW then
          rc ← check_assertion_extended_permissions p r tab (key n); mret (if rc =? 0 then 0 else 1)
        else mret 1) m0)).
  { intros rc2 m0 Hrc2. rewrite <- Hrc2 in Hv. rewrite Ht. unfold mbind, M_bind. cbn [lift].
    pose proof (ebitmap_match_any_correct (types (ttypes r)) tgt Htt Htw) as Hmt. rewrite <- Hmt in Hv.
    destruct (Z.eqb_spec (av_specified r) AVRULE_XPERMS_NEVERALLOW) as [|_]; [done|].
    destruct (ebitmap_match_any (types (ttypes r)) tgt), rc2; cbn [negb andb];
      [apply checked_1; rewrite Hv; by auto..|apply checked_0; rewrite Hv; naive_solver]. }
  destruct (Z.eqb_spec (av_flags r) RULE_SELF) as [Hself|Hself].
  2: { apply (Hfin false). split; [done|naive_solver]. }
  unfold mbind at 1, M_bind at 1. rewrite Ht at 1. unfold mbind at 1, M_bind at 1. cbn [lift]. rewrite tape_bind.
  pose proof (ebitmap_and_correct src tgt m Hsw Htw) as Ha. destruct (ebitmap_and src tgt m) as [[rc e] m1]. cbn [mret M_ret]. destruct Ha as [Hpl [(->&Hew&He)| ->]]; cbn [Z.eqb negb].
  - apply (checked_later V m m1); [by intros [? _]%Hpl|]. apply Hfin.
    rewrite (ebitmap_match_any_correct _ _ Hst Hew). setoid_rewrite He. setoid_rewrite andb_true_iff. naive_solver.
  - exists (- ENOMEM), m1. split; [done|]. split_and!; [|done..|by auto]. intros P. by apply Hpl in P as [_ ?].
Qed.

Lemma each_rule_check tab l : ∀ m, Forall (key_known p) l →
  checked (Exists (violates p r) l) m (each_rule (check_assertion_avtab_match p r tab) l m).
Proof.
  induction l as [|n l IH]; intros m Hk; cbn [each_rule].
  - apply checked_0. by intros ?%Exists_nil.
  - apply Forall_cons in Hk as [Hn Hk]. destruct (check_match_wp tab n m Hn) as (rc&m1&E&Hp1&H0&H1&Hc).
    unfold mbind, M_bind. rewrite E. destruct (Z.eqb_spec rc 0) as [->|Hne]; cbn [negb].
    + apply (checked_later _ m m1); [by intros [? _]%Hp1|]. destruct (IH m1 Hk) as (rc&m2&E2&Hp2&H02&H12&Hc2).
      exists rc, m2. rewrite Exists_cons. split_and!; [done..| |by auto|done]. intros ->. naive_solver.
    + exists rc, m1. rewrite Exists_cons. split_and!; [done..|by auto|done].
Qed.

Definition rules_of (q : policydb) : list avtab_node := avtab_nodes (te_avtab q) ++ avtab_nodes (te_cond_avtab q).

Lemma check_assertion_wp m : Forall (key_known p) (rules_of p) →
  checked (Exists (violates p r) (rules_of p)) m (check_assertion p r m).
Proof.
  intros Hk. unfold rules_of in *. apply Forall_app in Hk as [Hk1 Hk2]. unfold check_assertion. unfold mbind, M_bind. rewrite Exists_app.
  destruct (each_rule_check (te_avtab p) _ m Hk1) as (rc&m1&->&Hp1&H0&H1&Hc).
  destruct (Z.eqb_spec rc 0) as [->|Hne]; [|exists rc, m1; split_and!; [done..|by auto|done]].
  apply (checked_later _ m m1); [by intros [? _]%Hp1|].
  destruct (each_rule_check (te_cond_avtab p) _ m1 Hk2) as (rc&m2&->&Hp2&H02&H12&Hc2).
  exists rc, m2. split_and!; [done..| |by auto|done]. intros ->. naive_solver.
Qed.
End rule.

(** ** The check and the decision *)

Lemma each_rule_zero {S} (f : avtab_key → avtab_datum → M S Z) l : ∀ s s', each_rule f l s = Ret (0, s') →
  ∀ n, n ∈ l → ∃ s1 s2, f (key n) (datum n) s1 = Ret (0, s2).
Proof.
  induction l as [|n l IH]; intros s s' H x Hx; [by apply not_elem_of_nil in Hx|]. cbn [each_rule] in H. unfold mbind, M_bind in H.
  destruct (f (key n) (datum n) s) as [[rc s1]| |] eqn:E; [|done..].
  destruct (Z.eqb_spec rc 0) as [->|Hne]; cbn [negb] in H; [|by injection H as -> _].
  apply elem_of_cons in Hx as [->|Hx]; [by exists s, s1|by apply (IH s1 s')].
Qed.

(** A check that succeeds has found no rule that grants what is forbidden. *)
Lemma check_assertion_zero p r m m' n : rule_wf r → av_specified r ≠ AVRULE_XPERMS_NEVERALLOW →
  check_assertion p r m = Ret (0, m') → n ∈ rules_of p → key_known p n → ¬ violates p r n.
Proof.
  intros Hr Hplain H Hn Hk. unfold check_assertion in H. unfold mbind, M_bind in H.
  destruct (each_rule _ (avtab_nodes (te_avtab p)) m) as [[rc m1]| |] eqn:E1; [|done..].
  destruct (Z.eqb_spec rc 0) as [->|Hne]; [|by injection H as ? _].
  assert (Hzero : ∃ tab s1 s2, check_assertion_avtab_match p r tab (key n) (datum n) s1 = Ret (0, s2)).
  { apply elem_of_app in Hn as [Hn|Hn]; [destruct (each_rule_zero _ _ _ _ E1 n Hn) as (s1&s2&E)|destruct (each_rule_zero _ _ _ _ H n Hn) as (s1&s2&E)];
      by eexists _, s1, s2. }
  destruct Hzero as (tab&s1&s2&E). destruct (check_match_wp p r Hr Hplain tab n s1 Hk) as (rc&m2&E2&_&H0&_).
  rewrite E in E2. injection E2 as <- <-. by apply H0.
Qed.

(** A plain type belongs to its attributes. *)
Lemma attr_belongs p t i : type_maps_good p → plain_type p (t - 1) = true → attr_of p t i →
  belongs p i (t - 1) ∧ ∃ e, types_with p i = Ret e ∧ ebitmap_wf e.
Proof.
  intros [[_ Hlen] Htype Hattr] Hplain (ta&Hta&Hi). destruct (Htype _ _ Hta) as (ta'&[= <-]&Hw&_&Hlt).
  pose proof (get_bit_range _ _ Hw Hi) as [Hi0 _]. specialize (Hlt i Hi).
  destruct (at_index (attr_type_map p) i) as [o|] eqn:Eo; [|apply at_index_None in Eo; lia].
  destruct (Hattr _ _ Eo) as (e&->&Hew&Hbits). unfold belongs, types_with. rewrite Eo. cbn [deref mbind outcome_bind].
  split; [|by exists e]. exists e. split; [done|]. rewrite Hbits, Hta. unfold own_bit. by destruct (i =? t - 1).
Qed.

(** Rules that differ at most in being enabled. *)
Definition same_grant (n n' : avtab_node) : Prop :=
  same_place (key n) (key n') ∧ datum n = datum n' ∧
  Z.testbit (specified (key n)) 0 = Z.testbit (specified (key n')) 0.

Definition switched (t t' : avtab) : Prop :=
  Forall2 same_grant (avtab_nodes t) (avtab_nodes t') ∧ (avtab_wf t → avtab_wf t').

#[export] Instance same_grant_preorder : PreOrder same_grant.
Proof.
  split; [by repeat split|]. intros n1 n2 n3 ((E1&E2&E3)&D&B) ((F1&F2&F3)&D'&B').
  split; [split; [congruence|split; congruence]|]. split; congruence.
Qed.

#[export] Instance switched_preorder : PreOrder switched.
Proof.
  split; [by intros t; split|]. intros t1 t2 t3 [R1 W1] [R2 W2]. split; [by transitivity (avtab_nodes t2)|auto].
Qed.

Lemma set_enabled_same on n : same_grant n (set_enabled on n).
Proof.
  split; [done|]. split; [done|]. unfold set_enabled. cbn [key specified]. destruct on.
  - rewrite Z.lor_spec. change (Z.testbit AVTAB_ENABLED 0) with false. by rewrite orb_false_r.
  - rewrite Z.land_spec. change (Z.testbit (not16 AVTAB_ENABLED) 0) with true. by rewrite andb_true_r.
Qed.

Lemma switch_list_switched l on : ∀ t, switched t (switch_list l on t).
Proof.
  induction l as [|a l IH]; intros t; [reflexivity|]. transitivity (avtab_store t a (set_enabled on)); [|apply IH]. split.
  - rewrite avtab_store_nodes. apply Forall2_fmap_r, Forall_Forall2_diag, Forall_true. intros n.
    change (same_grant n (store_node a (set_enabled on) n)). unfold store_node.
    destruct (naddr n =? a); [apply set_enabled_same|reflexivity].
  - apply avtab_store_wf. by intros n.
Qed.

Lemma evaluate_conds_switched p q rc : evaluate_conds p = Ret (rc, q) →
  ∃ l t, q = set_te_cond_avtab t (set_cond_list l p) ∧ switched (te_cond_avtab p) t.
Proof.
  intros H. unfold evaluate_conds in H. apply ret_bind_inv in H as ([l t]&Hl&H). injection H as _ <-. exists l, t. split; [done|].
  revert l t Hl. generalize (te_cond_avtab p) as t0. induction (cond_list p) as [|n l0 IH]; intros t0 l t Hl.
  - by injection Hl as _ <-.
  - cbn [evaluate_conds_loop] in Hl. apply ret_bind_inv in Hl as ([n' t1]&Hn&Hl). apply ret_bind_inv in Hl as ([l' t2]&Hl'&Hl).
    injection Hl as _ <-. transitivity t1; [|by eapply IH]. unfold evaluate_cond_node in Hn. apply ret_bind_inv in Hn as (v&_&Hn).
    destruct (negb (v =? cur_state n)); injection Hn as _ <-; [|reflexivity].
    etransitivity; apply switch_list_switched.
Qed.

(** A policy that passes the check grants nothing that is forbidden, whatever the
    rules are that its booleans enable. *)
Lemma check_assertion_protects p q r m m' ts tt c b : type_maps_good p → rule_wf r → av_specified r ≠ AVRULE_XPERMS_NEVERALLOW →
  check_assertion p r m = Ret (0, m') → 0 <= b → forbids r (ts - 1) (tt - 1) c b →
  plain_type p (ts - 1) = true → plain_type p (tt - 1) = true →
  type_attr_map q = type_attr_map p → te_avtab q = te_avtab p → switched (te_cond_avtab p) (te_cond_avtab q) →
  ¬ te_allows q ts tt c b.
Proof.
  intros Hm Hr Hplain Hc Hb Hf Hps Hpt Ea Et [Hsw _] (i&j&Hi&Hj&Hn). unfold attr_of in Hi, Hj. rewrite Ea in Hi, Hj.
  destruct (attr_belongs p ts i Hm Hps Hi) as (Bi&ei&Ei&Wi). destruct (attr_belongs p tt j Hm Hpt Hj) as (Bj&ej&Ej&Wj).
  assert (Hno : ∀ n, n ∈ rules_of p → source_type (key n) = i + 1 → target_type (key n) = j + 1 → target_class (key n) = c →
    Z.testbit (specified (key n)) 0 = true → Z.testbit (data (datum n)) b = true → False).
  { intros n Hin Es Et' Ec Hspec Hd. eapply (check_assertion_zero p r m m' n Hr Hplain Hc Hin).
    - exists ei, ej. rewrite Es, Et'. by replace (i + 1 - 1) with i by lia; replace (j + 1 - 1) with j by lia.
    - exists (ts - 1), (tt - 1), c, b. do 2 (split; [done|]). unfold grants. rewrite Es, Et'.
      by replace (i + 1 - 1) with i by lia; replace (j + 1 - 1) with j by lia. }
  unfold rules_of in Hno. destruct Hn as [(n&Hin&Es&Et'&Ec&Hspec&Hd)|(n&Hin&Es&Et'&Ec&Hspec&_&Hd)].
  - rewrite Et in Hin. eapply (Hno n); eauto; [apply elem_of_app; by left|by rewrite Hspec].
  - apply list_elem_of_lookup in Hin as [k Hk]. destruct (Forall2_lookup_r _ _ _ _ _ Hsw Hk) as (n0&Hk0&(E1&E2&E3)&Ed&Eb).
    apply list_elem_of_lookup_2 in Hk0. rewrite <- Ed in Hd. rewrite <- Eb in Hspec.
    eapply (Hno n0); [apply elem_of_app; by right|congruence..|done|done].
Qed.
