(* ===== verification/Hierarchy.v ===== *)
(** * Bounds (libsepol/src/hierarchy.c)

    A type, role or user may be bounded by another. [hierarchy_add_bounds] derives
    the bounds from the names (a.b is bounded by a), and the checks look for what a
    child has and its parent has not: a role's types, a user's roles, and the rules
    of a type.

    For the rules of a type the check builds tables of the rules of the parent: one
    for the rules that always hold, among them those that both branches of a
    conditional grant, and two for each conditional.  Then every rule of the child is
    looked up in them. *)

From S2P Require Import Prelude Ebitmap Hashtab Avtab Context Policydb Mls Cond Services Sepolicy CondFile PolicydbFile TypeMaps RuleEdit ExpandAv Assertion.

Definition BOUNDS_AVTAB_SIZE : Z := 1024.

(** ** The rules of the parent *)

(** The tables that are filled, [avtab] and [global], and the allocations. *)
Record tabs := TABS { b_avtab : avtab; b_global : avtab; b_mem : mem }.

Definition table_of (global : bool) (s : tabs) : avtab := if global then b_global s else b_avtab s.
Definition set_table (global : bool) (h : avtab) (m : mem) (s : tabs) : tabs :=
  if global then TABS (b_avtab s) h m else TABS h (b_global s) m.

Definition bounds_insert_helper (global : bool) (k : avtab_key) (d : avtab_datum) : M tabs Z := λ s,
  let '(rc, h, m) := avtab_insert (table_of global s) k d (b_mem s) in Ret (rc, set_table global h m s).

(** [dup->data |= data], or a new rule when there is none. *)
Definition or_rule (global : bool) (k : avtab_key) (d : avtab_datum) : M tabs Z :=
  dup ← gets (λ s, avtab_search (table_of global s) k);
  match dup with
  | None => bounds_insert_helper global k d
  | Some n =>
      _ ← modify (λ s, set_table global
        (avtab_set_datum (table_of global s) (naddr n) (AD (Z.lor (data (datum n)) (data d)) (xperms (datum n)))) (b_mem s) s);
      mret 0
  end.

(** [global] is used only with [other]; NULL is [None]. *)
Definition bounds_insert_rule (other : option avtab) (k : avtab_key) (d : avtab_datum) : M tabs Z :=
  rc ← or_rule false k d;
  if negb (rc =? 0) then mret rc
  else
    match other with
    | None => mret 0
    | Some other =>
        match avtab_search other k with
        | None => mret 0
        | Some dup =>
            let data := Z.land (data (datum dup)) (data d) in
            if data =? 0 then mret 0 else or_rule true k (AD data None)
        end
    end.

(** The loop over the members of the target. *)
Fixpoint insert_targets (other : option avtab) (parent class data : Z) (l : list Z) : M tabs Z :=
  match l with
  | [] => mret 0
  | i :: l' =>
      rc ← bounds_insert_rule other (AK (u16 parent) (u16 (i + 1)) (u16 class) AVTAB_ALLOWED) (AD data None);
      if negb (rc =? 0) then mret rc else insert_targets other parent class data l'
  end.

Definition bounds_expand_rule (p : policydb) (other : option avtab) (parent src tgt class data : Z) : M tabs Z :=
  s ← lift (types_with p (src - 1));
  if ebitmap_get_bit s (u32 (parent - 1)) then
    t ← lift (types_with p (tgt - 1));
    insert_targets other parent class data (ebitmap_set_bits t)
  else mret 0.

(** [cur->node] *)
Definition cond_rule_at (p : policydb) (a : Z) : outcome avtab_node := deref (node_at (te_cond_avtab p) a).

Fixpoint bounds_expand_cond_rules (p : policydb) (l : list Z) (other : option avtab) (parent : Z) : M tabs Z :=
  match l with
  | [] => mret 0
  | cur :: l' =>
      n ← lift (cond_rule_at p cur);
      rc ← bounds_expand_rule p other parent (source_type (key n)) (target_type (key n)) (target_class (key n)) (data (datum n));
      if negb (rc =? 0) then mret rc else bounds_expand_cond_rules p l' other parent
  end.

Definition bounds_expand_rule_callback (p : policydb) (parent : Z) (k : avtab_key) (d : avtab_datum) : M tabs Z :=
  if negb (has_bits (specified k) AVTAB_ALLOWED) then mret 0
  else bounds_expand_rule p None parent (source_type k) (target_type k) (target_class k) (data d).

Record bounds_cond_info := BCI { true_avtab : avtab; false_avtab : avtab; ci_cond : cond_node }.

(** What [avtab_init] makes of a new structure. *)
Definition new_avtab : avtab := AVT None 0 0 0 0.

(** The tables of one branch: allocated when the branch has rules. *)
Definition expand_branch (p : policydb) (l : list Z) (other : option avtab) (parent : Z) (global : avtab)
    : M mem (Z * avtab * avtab) := λ m,
  match l with
  | [] => Ret ((0, new_avtab, global), m)
  | _ =>
      let '(rc, h, m) := avtab_alloc new_avtab BOUNDS_AVTAB_SIZE m in
      if negb (rc =? 0) then Ret ((rc, h, global), m)
      else
        '(rc, s) ← bounds_expand_cond_rules p l other parent (TABS h global m);
        Ret ((rc, b_avtab s, b_global s), b_mem s)
  end.

(** The loop over the conditionals; [inl] is the status with which it ends.  A
    structure that cannot be allocated leaves the status of the last call: 0. *)
Fixpoint expand_conds (p : policydb) (parent : Z) (l : list cond_node) (global : avtab) (ci : list bounds_cond_info)
    : M mem (Z + avtab * list bounds_cond_info) :=
  match l with
  | [] => mret (inr (global, ci))
  | cur :: l' =>
      ok ← (λ m, Ret (malloc m));
      if negb ok then mret (inl 0)
      else
        '(rc, t, global) ← expand_branch p (true_list cur) None parent global;
        if negb (rc =? 0) then mret (inl rc)
        else
          '(rc, f, global) ← expand_branch p (false_list cur) (Some t) parent global;
          if negb (rc =? 0) then mret (inl rc)
          else expand_conds p parent l' global (BCI t f cur :: ci)
  end.

(** [global_avtab] and [cond_info]; an error destroys them. *)
Definition bounds_expand_parent_rules (p : policydb) (parent : Z) : M mem (Z * avtab * list bounds_cond_info) := λ m,
  let '(rc, g, m) := avtab_alloc new_avtab BOUNDS_AVTAB_SIZE m in
  if negb (rc =? 0) then Ret ((rc, avtab_destroy g, []), m)
  else
    '(rc, s) ← each_rule (bounds_expand_rule_callback p parent) (avtab_nodes (te_avtab p)) (TABS g new_avtab m);
    if negb (rc =? 0) then Ret ((rc, avtab_destroy (b_avtab s), []), b_mem s)
    else
      '(r, m) ← expand_conds p parent (cond_list p) (b_avtab s) [] (b_mem s);
      Ret (match r with inl rc => (rc, avtab_destroy (b_avtab s), []) | inr (g, ci) => (0, g, ci) end, m).

(** ** The rules of the child *)

(** [data] without what the tables grant. *)
Definition without (h : avtab) (k : avtab_key) (data : Z) : Z :=
  match avtab_search h k with Some n => Z.land data (not32 (Avtab.data (datum n))) | None => data end.

Definition bounds_not_covered (global_avtab : option avtab) (cur_avtab : avtab) (k : avtab_key) (data : Z) : Z :=
  let data := without cur_avtab k data in
  match global_avtab with
  | Some g => if negb (data =? 0) then without g k data else data
  | None => data
  end.

(** [bad], [numbad] and the allocations. *)
Record chk := CHK { bad : list avtab_node; numbad : Z; c_mem : mem }.

Definition bounds_add_bad (src tgt class data : Z) : M chk Z := λ s,
  let '(ok, m) := malloc (c_mem s) in
  if negb ok then Ret (SEPOL_ENOMEM, CHK (bad s) (numbad s) m)
  else Ret (0, CHK (AN 0 (AK (u16 src) (u16 tgt) (u16 class) 0) (AD data None) 0 0 :: bad s) (numbad s) m).

(** The type [i + 1], or the type that bounds it. *)
Definition bounded_target (p : policydb) (i : Z) : outcome Z :=
  td ← val_to_struct (type_val_to_struct p) (type_mem p) i;
  Ret (match td with
       | Some d => if negb (bounds d =? 0) then u16 (bounds d) else u16 (i + 1)
       | None => u16 (i + 1)
       end).

Fixpoint check_targets (p : policydb) (global_avtab : option avtab) (cur_avtab : avtab) (child parent class data : Z)
    (l : list Z) : M chk Z :=
  match l with
  | [] => mret 0
  | i :: l' =>
      t ← lift (bounded_target p i);
      let d := bounds_not_covered global_avtab cur_avtab (AK (u16 parent) t (u16 class) AVTAB_ALLOWED) data in
      if negb (d =? 0) then
        _ ← modify (λ s, CHK (bad s) (s32 (numbad s + 1)) (c_mem s));
        rc ← bounds_add_bad child (i + 1) class d;
        if negb (rc =? 0) then mret rc else check_targets p global_avtab cur_avtab child parent class data l'
      else check_targets p global_avtab cur_avtab child parent class data l'
  end.

Definition bounds_check_rule (p : policydb) (global_avtab : option avtab) (cur_avtab : avtab)
    (child parent src tgt class data : Z) : M chk Z :=
  s ← lift (types_with p (src - 1));
  if ebitmap_get_bit s (u32 (child - 1)) then
    t ← lift (types_with p (tgt - 1));
    check_targets p global_avtab cur_avtab child parent class data (ebitmap_set_bits t)
  else mret 0.

(** The loop over the rules of a branch, given the nodes they point to. *)
Fixpoint bounds_check_cond_rules (p : policydb) (global_avtab cond_avtab : avtab) (rules : list Z) (child parent : Z)
    : M chk Z :=
  match rules with
  | [] => mret 0
  | cur :: rules' =>
      n ← lift (cond_rule_at p cur);
      if negb (has_bits (specified (key n)) AVTAB_ALLOWED) then
        bounds_check_cond_rules p global_avtab cond_avtab rules' child parent
      else
        rc ← bounds_check_rule p (Some global_avtab) cond_avtab child parent
               (source_type (key n)) (target_type (key n)) (target_class (key n)) (data (datum n));
        if negb (rc =? 0) then mret rc else bounds_check_cond_rules p global_avtab cond_avtab rules' child parent
  end.

Definition bounds_check_rule_callback (p : policydb) (cur_avtab : avtab) (child parent : Z) (k : avtab_key) (d : avtab_datum)
    : M chk Z :=
  if negb (has_bits (specified k) AVTAB_ALLOWED) then mret 0
  else bounds_check_rule p None cur_avtab child parent (source_type k) (target_type k) (target_class k) (data d).

Fixpoint check_conds (p : policydb) (global_avtab : avtab) (ci : list bounds_cond_info) (child parent : Z) : M chk Z :=
  match ci with
  | [] => mret 0
  | cur :: ci' =>
      rc ← bounds_check_cond_rules p global_avtab (true_avtab cur) (true_list (ci_cond cur)) child parent;
      if negb (rc =? 0) then mret rc
      else
        rc ← bounds_check_cond_rules p global_avtab (false_avtab cur) (false_list (ci_cond cur)) child parent;
        if negb (rc =? 0) then mret rc else check_conds p global_avtab ci' child parent
  end.

(** [*bad] (NULL before the call); [*numbad] is part of the state.  An error loses
    what was found. *)
Definition bounds_check_child_rules (p : policydb) (global_avtab : avtab) (ci : list bounds_cond_info) (child parent : Z)
    : M (Z * mem) (Z * list avtab_node) := λ s,
  '(rc, c) ← (
    rc ← each_rule (bounds_check_rule_callback p global_avtab child parent) (avtab_nodes (te_avtab p));
    if negb (rc =? 0) then mret rc else check_conds p global_avtab ci child parent) (CHK [] 0 s.2);
  if negb (rc =? 0) then Ret ((rc, []), (s.1, c_mem c))
  else Ret ((0, bad c), (s32 (s.1 + numbad c), c_mem c)).

Definition bounds_check_type (p : policydb) (child parent : Z) : M (Z * mem) (Z * list avtab_node) :=
  '(rc, global_avtab, cond_info) ← with_rest (bounds_expand_parent_rules p parent);
  if negb (rc =? 0) then mret (rc, [])
  else bounds_check_child_rules p global_avtab cond_info child parent.

(** ** The checks of a policy *)

Definition bounds_check_type_callback (p : policydb) (k : string) (q : ptr) : M (Z * mem) Z :=
  t ← lift (deref (at_index (type_mem p) q));
  if negb (bounds t =? 0) then '(rc, _) ← bounds_check_type p (t_value t) (bounds t); mret rc
  else mret 0.

Definition bounds_check_types (p : policydb) : M mem Z := λ m,
  '(rc, (numbad, m)) ← hashtab_map (table (p_types p)) (bounds_check_type_callback p) (0, m);
  Ret (if negb (rc =? 0) then rc else if 0 <? numbad then SEPOL_ERR else 0, m).

(** Roles and users: what the parent has contains what the child has. *)
Definition bounds_check_set {A} (store : list A) (arr : list (option ptr)) (bounds : A → Z) (set : A → ebitmap)
    (k : string) (q : ptr) : M Z Z :=
  r ← lift (deref (at_index store q));
  if bounds r =? 0 then mret 0
  else
    rp ← lift (val_to_struct arr store (bounds r - 1));
    match rp with
    | Some rp => if negb (ebitmap_contains (set rp) (set r)) then _ ← modify (λ n, s32 (n + 1)); mret 0 else mret 0
    | None => mret 0
    end.

Definition bounds_check_role_callback (p : policydb) : string → ptr → M Z Z :=
  bounds_check_set (role_mem p) (role_val_to_struct p) r_bounds (λ r, types (r_types r)).
Definition bounds_check_user_callback (p : policydb) : string → ptr → M Z Z :=
  bounds_check_set (user_mem p) (user_val_to_struct p) u_bounds (λ u, rs_roles (u_roles u)).

Definition bounds_check_roles (p : policydb) : outcome Z :=
  '(_, numbad) ← hashtab_map (table (p_roles p)) (bounds_check_role_callback p) 0;
  Ret (if 0 <? numbad then SEPOL_ERR else 0).

Definition bounds_check_users (p : policydb) : outcome Z :=
  '(_, numbad) ← hashtab_map (table (p_users p)) (bounds_check_user_callback p) 0;
  Ret (if 0 <? numbad then SEPOL_ERR else 0).

(** ** Bounds from names *)

(** What the macro [add_hierarchy_callback_template] is expanded with. *)
Record named_kind A := PREFIX {
  x_sym : Z;
  x_table : policydb → symtab ptr;
  x_store : policydb → list A;
  x_set_store : list A → policydb → policydb;
  x_value : A → Z;
  x_bounds : A → Z;
  x_set_bounds : Z → A → A
}.
Arguments PREFIX {A}.
Arguments x_sym {A}.
Arguments x_table {A}.
Arguments x_store {A}.
Arguments x_set_store {A}.
Arguments x_value {A}.
Arguments x_bounds {A}.
Arguments x_set_bounds {A}.

Definition type_prefix : named_kind type_datum :=
  PREFIX SYM_TYPES p_types type_mem set_type_mem t_value bounds
    (λ b d, TD (t_value d) (primary d) (flavor d) (t_types d) (t_flags d) b).
Definition role_prefix : named_kind role_datum :=
  PREFIX SYM_ROLES p_roles role_mem set_role_mem r_value r_bounds
    (λ b d, RD (r_value d) (dominates d) (r_types d) (r_cache d) b (r_flavor d) (r_roles d)).
Definition user_prefix : named_kind user_datum :=
  PREFIX SYM_USERS p_users user_mem set_user_mem u_value u_bounds
    (λ b d, UD (u_value d) (u_roles d) (u_range d) (dfltlevel d) (u_cache d) (exp_range d) (exp_dfltlevel d) b).

(** The name up to its last dot. *)
Definition parent_of (name : string) : option string :=
  suffix ← strrchr name "."%char;
  Some (String.substring 0 (String.length name - String.length suffix) name).

(** The first component counts the orphans. *)
Definition hierarchy_add_callback {A} (x : named_kind A) (k : string) (q : ptr) : M (Z * st) Z :=
  datum ← with_rest (load (x_store x) q);
  if negb (x_bounds x datum =? 0) then mret 0
  else
    p ← gets (λ s, s.2.1);
    datum_name ← lift (val_name p (x_sym x) (x_value x datum - 1));
    match parent_of datum_name with
    | None => mret 0
    | Some parent_name =>
        ok ← with_rest alloc;
        if negb ok then mret SEPOL_ENOMEM
        else
          match hashtab_search (table (x_table x p)) parent_name with
          | None => _ ← modify (λ s, (s32 (s.1 + 1), s.2)); mret 0
          | Some pq =>
              parent ← with_rest (load (x_store x) pq);
              _ ← with_rest (write (x_store x) (x_set_store x) q (x_set_bounds x (x_value x parent) datum));
              mret 0
          end
    end.

Definition hierarchy_add_bounds : M st Z := λ s,
  '(rc, (numbad, s)) ← (
    p ← gets (λ s, s.2.1);
    rc ← hashtab_map (table (p_users p)) (hierarchy_add_callback user_prefix);
    if negb (rc =? 0) then mret rc
    else
      rc ← hashtab_map (table (p_roles p)) (hierarchy_add_callback role_prefix);
      if negb (rc =? 0) then mret rc
      else hashtab_map (table (p_types p)) (hierarchy_add_callback type_prefix)) (0, s);
  Ret (if negb (rc =? 0) then rc else if 0 <? numbad then SEPOL_ERR else 0, s).

Definition hierarchy_check_constraints : M st Z :=
  rc ← hierarchy_add_bounds;
  if negb (rc =? 0) then mret rc
  else
    p ← get_p id;
    u ← lift (bounds_check_users p);
    r ← lift (bounds_check_roles p);
    t ← with_rest (bounds_check_types p);
    if negb (t =? 0) && negb (t =? SEPOL_ERR) then mret t
    else mret (if negb (u =? 0) || negb (r =? 0) || negb (t =? 0) then SEPOL_ERR else t).

(** ** Code that succeeds *)

Definition runs {S} (c : M S Z) (s : S) (Q : S → Prop) : Prop := ∃ s', c s = Ret (0, s') ∧ Q s'.

Lemma runs_ret {S} s (Q : S → Prop) : Q s → runs (mret 0) s Q.
Proof. by exists s. Qed.

Lemma runs_mono {S} c s (P Q : S → Prop) : (∀ s', P s' → Q s') → runs c s P → runs c s Q.
Proof. intros H (s'&E&HP). exists s'. auto. Qed.

Lemma runs_then {S} (c : M S Z) e f s (P Q : S → Prop) :
  runs c s P → (∀ s', P s' → runs f s' Q) → runs (rc ← c; if negb (rc =? 0) then e rc else f) s Q.
Proof.
  intros (s1&E1&H1) Hf. destruct (Hf s1 H1) as (s2&E2&H2). exists s2. split; [|done].
  unfold mbind, M_bind. by rewrite E1.
Qed.

Lemma runs_lift {S A} (o : outcome A) a f (s : S) Q : o = Ret a → runs (f a) s Q → runs (x ← lift o; f x) s Q.
Proof. by intros ->. Qed.

(** ** Tables as relations between keys and permission bits *)

Definition grants_at (h : avtab) (k : avtab_key) (b : Z) : Prop :=
  ∃ d, rule_datum h k = Some d ∧ Z.testbit (data d) b = true.

Definition tab_ok (h : avtab) : Prop := rules_ok h ∨ av_htable h = None.

Lemma no_table_grants h k b : av_htable h = None → ¬ grants_at h k b.
Proof. intros H (d&E&_). unfold rule_datum, avtab_nodes in E. by rewrite H in E. Qed.

Lemma allowed_kind : AVTAB_ALLOWED ∈ rule_kinds.
Proof. apply (bool_decide_unpack _). by vm_compute. Qed.

Lemma search_datum h k : tab_ok h → avkey_ok k → specified k = AVTAB_ALLOWED → datum <$> avtab_search h k = rule_datum h k.
Proof.
  intros Hh Hk Hs. destruct Hh as [Hh|Hh].
  - pose proof (search_rule_datum h k Hh Hk ltac:(rewrite Hs; apply allowed_kind)) as H.
    destruct (avtab_search h k) as [n|]; [|done]. destruct H as (_&_&H). unfold rule_datum. by rewrite H.
  - unfold avtab_search, rule_datum, avtab_nodes. by rewrite Hh.
Qed.

Lemma or_rule_runs g k d s : rules_ok (table_of g s) → plenty (b_mem s) → avkey_ok k → specified k = AVTAB_ALLOWED →
  runs (or_rule g k d) s (λ s', rules_ok (table_of g s') ∧ table_of (negb g) s' = table_of (negb g) s ∧ plenty (b_mem s') ∧
    ∀ k' b, grants_at (table_of g s') k' b ↔ grants_at (table_of g s) k' b ∨ k' = k ∧ Z.testbit (data d) b = true).
Proof.
  intros Hok Hm Hk Hs. assert (Hkind : specified k ∈ rule_kinds) by (rewrite Hs; apply allowed_kind).
  assert (Hx : has_bits (specified k) AVTAB_XPERMS = false) by by rewrite Hs.
  set (f o := match o with Some d0 => AD (Z.lor (data d0) (data d)) (xperms d0) | None => d end).
  assert (Hf : ∀ h', edits [k] f (table_of g s) h' → ∀ k' b,
    grants_at h' k' b ↔ grants_at (table_of g s) k' b ∨ k' = k ∧ Z.testbit (data d) b = true).
  { intros h' He k' b. unfold grants_at. rewrite (He k'). destruct (bool_decide_reflect (k' ∈ [k])) as [->%list_elem_of_singleton|Hne].
    - unfold f. destruct (rule_datum (table_of g s) k) as [d0|].
      + setoid_rewrite (inj_iff Some). split.
        * intros (?&<-&H). cbn [data] in H. rewrite Z.lor_spec in H. apply orb_true_iff in H as [H|H]; [left; by exists d0|by right].
        * intros H. eexists. split; [done|]. cbn [data]. rewrite Z.lor_spec. apply orb_true_iff.
          destruct H as [(?&<-&?)|[_ ?]]; by auto.
      + split; [intros (?&[= <-]&?); by right|]. intros [(?&?&_)|[_ ?]]; [done|by exists d].
    - rewrite list_elem_of_singleton in Hne. naive_solver. }
  unfold or_rule, runs, mbind, M_bind, gets. destruct (avtab_search (table_of g s) k) as [n|] eqn:E.
  - destruct (store_edits (table_of g s) k n (AD (Z.lor (data (datum n)) (data d)) (xperms (datum n))) f Hok Hk Hkind E eq_refl)
      as [H1 H2]; [by rewrite Hx|].
    eexists. split; [done|]. specialize (Hf _ H2). destruct g; split_and!; done.
  - pose proof (insert_edits (table_of g s) k d f (b_mem s) Hok Hk Hkind E (new_datum_plain k d Hx)) as Hi.
    unfold bounds_insert_helper. destruct (avtab_insert (table_of g s) k d (b_mem s)) as [[rc h] m]. destruct Hi as (H1&H2&H3).
    destruct (H2 Hm) as [Hm' ->]. eexists. split; [done|]. specialize (Hf h (H3 eq_refl)). destruct g; split_and!; done.
Qed.

(** What a run that inserts [W] does to both tables. *)
Definition tabs_ok (other : option avtab) (s : tabs) : Prop :=
  plenty (b_mem s) ∧ rules_ok (b_avtab s) ∧ ∀ o, other = Some o → rules_ok (b_global s) ∧ tab_ok o.

Definition also (other : option avtab) (k : avtab_key) (b : Z) : Prop := ∃ o, other = Some o ∧ grants_at o k b.

Definition adds (other : option avtab) (W : avtab_key → Z → Prop) (s s' : tabs) : Prop :=
  tabs_ok other s' ∧ (other = None → b_global s' = b_global s) ∧
  (∀ k b, grants_at (b_avtab s') k b ↔ grants_at (b_avtab s) k b ∨ W k b) ∧
  (∀ k b, grants_at (b_global s') k b ↔ grants_at (b_global s) k b ∨ W k b ∧ also other k b).

Lemma also_some o k b : also (Some o) k b ↔ grants_at o k b.
Proof. unfold also. split; [by intros (?&[= <-]&?)|by exists o]. Qed.

Lemma also_none k b : also None k b ↔ False.
Proof. split; [by intros (?&?&_)|done]. Qed.

Lemma adds_nothing other s (W : avtab_key → Z → Prop) : tabs_ok other s → (∀ k b, ¬ W k b) → adds other W s s.
Proof. intros H HW. split; [done|]. split; [done|]. split; naive_solver. Qed.

Lemma adds_then other W1 W2 (W : avtab_key → Z → Prop) s1 s2 s3 : adds other W1 s1 s2 → adds other W2 s2 s3 →
  (∀ k b, W k b ↔ W1 k b ∨ W2 k b) → adds other W s1 s3.
Proof.
  intros (_&N1&A1&G1) (H&N2&A2&G2) HW. split; [done|]. split; [intros E; by rewrite N2, N1|].
  split; intros k b; rewrite HW; [rewrite A2, A1|rewrite G2, G1]; tauto.
Qed.

Lemma insert_rule_runs other k d s : tabs_ok other s → avkey_ok k → specified k = AVTAB_ALLOWED → 0 <= data d →
  runs (bounds_insert_rule other k d) s (adds other (λ k' b, k' = k ∧ Z.testbit (data d) b = true) s).
Proof.
  intros (Hm&Hok&Ho) Hk Hs Hd. unfold bounds_insert_rule. eapply runs_then; [by apply (or_rule_runs false)|].
  intros s1 (Hok1&Hg1&Hm1&Ha1). cbn [table_of negb] in *.
  assert (Hdone : (∀ b, Z.testbit (data d) b = true → ¬ also other k b) → runs (mret 0) s1
    (adds other (λ k' b, k' = k ∧ Z.testbit (data d) b = true) s)).
  { intros Hno. apply runs_ret. split; [split_and!; [done..|by rewrite Hg1]|]. split; [done|]. split; [done|].
    intros k' b. rewrite Hg1. naive_solver. }
  destruct other as [o|]; [|apply Hdone; by intros b _ (?&?&_)]. destruct (Ho o eq_refl) as [Hgo Hoo].
  pose proof (search_datum o k Hoo Hk Hs) as Hsd.
  destruct (avtab_search o k) as [dup|]; cbn [fmap option_fmap option_map] in Hsd.
  2: { apply Hdone. intros b _ (?&[= <-]&d'&E&_). by rewrite E in Hsd. }
  assert (Halso : ∀ b, Z.testbit (data d) b = true ∧ also (Some o) k b ↔ Z.testbit (Z.land (data (datum dup)) (data d)) b = true).
  { intros b. rewrite Z.land_spec, andb_true_iff. unfold also, grants_at. split.
    - intros (?&?&[= <-]&d'&E&?). rewrite E in Hsd. by injection Hsd as ->.
    - intros (?&?). split; [done|]. exists o. split; [done|]. by exists (datum dup). }
  destruct (Z.eqb_spec (Z.land (data (datum dup)) (data d)) 0) as [E0|E0].
  { apply Hdone. intros b Hb Ha. assert (H : Z.testbit 0 b = true) by (rewrite <- E0; by apply Halso). by rewrite Z.bits_0 in H. }
  eapply runs_mono; [|apply (or_rule_runs true); cbn [table_of]; by rewrite ?Hg1]. cbn [table_of negb data].
  intros s2 (Hok2&Hav2&Hm2&Ha2). split; [split; [done|]; rewrite Hav2; split; [done|]; by intros ? [= <-]|].
  split; [done|]. rewrite Hav2. split; [done|]. intros k' b. rewrite Ha2, Hg1, <- Halso. naive_solver.
Qed.

(** ** Rules that members of an attribute have *)

(** A rule gives type [t] on the targets of type [u] permission bit [b] of class
    [c], whatever kind of rule it is. *)
Definition covers (p : policydb) (n : avtab_node) (t u c b : Z) : Prop :=
  belongs p (source_type (key n) - 1) (t - 1) ∧ belongs p (target_type (key n) - 1) (u - 1) ∧
  target_class (key n) = c ∧ Z.testbit (data (datum n)) b = true.

(** The types of the rule are known, and the members fit the 16 bits of a key. *)
Definition rule_known (p : policydb) (n : avtab_node) : Prop :=
  key_known p n ∧ avkey_ok (key n) ∧ 0 <= data (datum n) < 2 ^ 32 ∧
  ∀ i, belongs p (target_type (key n) - 1) i → 0 <= i < 2 ^ 16 - 1 ∧ ∃ t, bounded_target p i = Ret t ∧ 0 <= t < 2 ^ 16.

(** The rules of the list, by what they give the type. *)
Definition parent_has (p : policydb) (parent : Z) (l : list avtab_node) (k : avtab_key) (b : Z) : Prop :=
  specified k = AVTAB_ALLOWED ∧ source_type k = parent ∧
  ∃ n, n ∈ l ∧ covers p n parent (target_type k) (target_class k) b.

Section parent.
Context (p : policydb) (parent : Z).
Hypothesis Hparent : 0 < parent < 2 ^ 16.

Lemma parent_has_nil k b : ¬ parent_has p parent [] k b.
Proof. intros (_&_&n&Hn&_). by apply not_elem_of_nil in Hn. Qed.

Lemma parent_has_cons n l k b : parent_has p parent (n :: l) k b ↔ parent_has p parent [n] k b ∨ parent_has p parent l k b.
Proof. unfold parent_has. setoid_rewrite elem_of_cons. setoid_rewrite elem_of_nil. naive_solver. Qed.

Lemma insert_targets_runs other c dt l s : tabs_ok other s → 0 <= c < 2 ^ 16 → 0 <= dt →
  Forall (λ i, 0 <= i < 2 ^ 16 - 1) l →
  runs (insert_targets other parent c dt l) s
    (adds other (λ k b, ∃ i, i ∈ l ∧ k = AK parent (i + 1) c AVTAB_ALLOWED ∧ Z.testbit dt b = true) s).
Proof.
  intros Hs Hc Hd Hl. revert s Hs. induction Hl as [|i l Hi Hl IH]; intros s Hs; cbn [insert_targets].
  - apply runs_ret, adds_nothing; [done|]. intros k b (i&Hi&_). by apply not_elem_of_nil in Hi.
  - rewrite !u16_small by lia. eapply runs_then.
    + apply insert_rule_runs; [done|unfold avkey_ok; cbn [source_type target_type target_class]; lia|done|done].
    + intros s1 H1. eapply runs_mono; [|apply IH; apply H1]. intros s2 H2. eapply adds_then; [exact H1|exact H2|].
      intros k b. cbn [data]. setoid_rewrite elem_of_cons. naive_solver.
Qed.

Lemma elem_of_members e i : ebitmap_wf e → i ∈ ebitmap_set_bits e ↔ ebitmap_get_bit e i = true.
Proof. apply elem_of_set_bits. Qed.

Lemma expand_rule_runs other n s : tabs_ok other s → rule_known p n →
  runs (bounds_expand_rule p other parent (source_type (key n)) (target_type (key n)) (target_class (key n)) (data (datum n))) s
    (adds other (parent_has p parent [n]) s).
Proof.
  intros Hs ((src&tgt&Es&Et&Ws&Wt)&(_&_&Hc)&Hd&Hm). unfold bounds_expand_rule.
  eapply runs_lift; [exact Es|]. rewrite u32_small by lia.
  assert (Hsrc : belongs p (source_type (key n) - 1) (parent - 1) ↔ ebitmap_get_bit src (parent - 1) = true).
  { unfold belongs. rewrite Es. naive_solver. }
  assert (Htgt : ∀ i, belongs p (target_type (key n) - 1) i ↔ ebitmap_get_bit tgt i = true).
  { intros i. unfold belongs. rewrite Et. naive_solver. }
  destruct (ebitmap_get_bit src (parent - 1)) eqn:E.
  - eapply runs_lift; [exact Et|]. eapply runs_mono; [|apply insert_targets_runs; [done|done|lia|]].
    + intros s' H. eapply adds_then; [exact H|apply (adds_nothing _ _ (λ _ _, False)); [apply H|naive_solver]|].
      intros k b. unfold parent_has, covers. setoid_rewrite list_elem_of_singleton. split.
      * intros (Hk&Ep&?&->&_&Ht&Ec&Hb). left. exists (target_type k - 1). rewrite elem_of_members by done.
        split; [by apply Htgt|]. split; [|done]. destruct k; cbn in *. f_equal; [done|lia|done..].
      * intros [(i&Hi&->&Hb)|[]]. rewrite elem_of_members in Hi by done. cbn [specified source_type target_type target_class].
        split; [done|]. split; [done|]. exists n. split; [done|]. split; [by apply Hsrc|].
        split; [apply Htgt; by replace (i + 1 - 1) with i by lia|done].
    + apply Forall_forall. intros i Hi. apply elem_of_members in Hi; [|done]. by apply Htgt, Hm in Hi as [? _].
  - apply runs_ret, adds_nothing; [done|]. intros k b (_&_&n'&->%list_elem_of_singleton&Hb&_). apply Hsrc in Hb. congruence.
Qed.

(** The rules at the addresses of a list. *)
Definition at_addresses (l : list Z) : list avtab_node := omap (node_at (te_cond_avtab p)) l.

Definition list_known (l : list Z) : Prop :=
  Forall (λ a, ∃ n, node_at (te_cond_avtab p) a = Some n ∧ rule_known p n) l.

Lemma expand_cond_runs other l : list_known l → ∀ s, tabs_ok other s →
  runs (bounds_expand_cond_rules p l other parent) s (adds other (parent_has p parent (at_addresses l)) s).
Proof.
  induction 1 as [|a l (n&En&Hn) Hl IH]; intros s Hs; cbn [bounds_expand_cond_rules].
  - apply runs_ret, adds_nothing; [done|]. apply parent_has_nil.
  - eapply runs_lift; [unfold cond_rule_at; by rewrite En|]. eapply runs_then; [by apply expand_rule_runs|].
    intros s1 H1. eapply runs_mono; [|apply IH, H1]. intros s2 H2. eapply adds_then; [exact H1|exact H2|].
    intros k b. unfold at_addresses. cbn [omap list_omap]. rewrite En. apply parent_has_cons.
Qed.

Definition is_allow (n : avtab_node) : bool := has_bits (specified (key n)) AVTAB_ALLOWED.

Lemma expand_all_runs l : Forall (rule_known p) l → ∀ s, tabs_ok None s →
  runs (each_rule (bounds_expand_rule_callback p parent) l) s (adds None (parent_has p parent (List.filter is_allow l)) s).
Proof.
  induction 1 as [|n l Hn Hl IH]; intros s Hs; cbn [each_rule].
  - apply runs_ret, adds_nothing; [done|]. apply parent_has_nil.
  - assert (bounds_expand_rule_callback p parent (key n) (datum n) = if negb (is_allow n) then mret 0 else
      bounds_expand_rule p None parent (source_type (key n)) (target_type (key n)) (target_class (key n)) (data (datum n))) as -> by done.
    cbn [List.filter]. destruct (is_allow n); cbn [negb].
    + eapply (runs_then _ mret); [by apply expand_rule_runs|]. intros s1 H1. eapply runs_mono; [|apply IH, H1].
      intros s2 H2. eapply adds_then; [exact H1|exact H2|]. intros k b. apply parent_has_cons.
    + eapply (runs_then (mret 0) mret); [by apply (runs_ret s (eq s))|]. by intros s1 <-; apply IH.
Qed.

(** ** The tables of the parent *)

Definition branch_has (l : list Z) : avtab_key → Z → Prop := parent_has p parent (at_addresses l).

Definition both_have (c : cond_node) (k : avtab_key) (b : Z) : Prop :=
  branch_has (true_list c) k b ∧ branch_has (false_list c) k b.

Definition cond_known (c : cond_node) : Prop := list_known (true_list c) ∧ list_known (false_list c).

Definition info_ok (ci : bounds_cond_info) : Prop :=
  tab_ok (true_avtab ci) ∧ tab_ok (false_avtab ci) ∧
  (∀ k b, grants_at (true_avtab ci) k b ↔ branch_has (true_list (ci_cond ci)) k b) ∧
  (∀ k b, grants_at (false_avtab ci) k b ↔ branch_has (false_list (ci_cond ci)) k b).

Lemma fresh_table m : plenty m → ∃ h m', avtab_alloc new_avtab BOUNDS_AVTAB_SIZE m = (0, h, m') ∧ plenty m' ∧ rules_ok h ∧
  ∀ k b, ¬ grants_at h k b.
Proof.
  intros Hm. pose proof (avtab_alloc_correct new_avtab BOUNDS_AVTAB_SIZE m ltac:(done) eq_refl) as Ha.
  destruct (avtab_alloc new_avtab BOUNDS_AVTAB_SIZE m) as [[rc h] m']. destruct Ha as [Hp Ha]. destruct (Hp Hm) as [Hm' ->].
  exists h, m'. split; [done|]. split; [done|]. destruct Ha as [(_&Hw&Hn&_&Hb)|[? _]]; [|done]. destruct (Hb ltac:(done)) as [_ Hb'].
  split.
  - split; [done|]. split; [done|]. unfold avtab_unique. rewrite Hn. split; [intros n1 n2 H|intros n1 H]; by apply not_elem_of_nil in H.
  - intros k b (d&E&_). unfold rule_datum in E. by rewrite Hn in E.
Qed.

Lemma expand_branch_runs l other global m : list_known l → plenty m → rules_ok global → (∀ o, other = Some o → tab_ok o) →
  ∃ h g m', expand_branch p l other parent global m = Ret ((0, h, g), m') ∧ plenty m' ∧ tab_ok h ∧ rules_ok g ∧
    (∀ k b, grants_at h k b ↔ branch_has l k b) ∧
    (∀ k b, grants_at g k b ↔ grants_at global k b ∨ branch_has l k b ∧ also other k b).
Proof.
  intros Hl Hm Hg Ho. unfold expand_branch. destruct l as [|a l'].
  { exists new_avtab, global, m. split; [done|]. split; [done|]. split; [by right|]. split; [done|].
    assert (Hno : ∀ k b, ¬ branch_has [] k b) by apply parent_has_nil.
    split; intros k b; [|naive_solver]. split; [by intros ?%no_table_grants|naive_solver]. }
  revert Hl. generalize (a :: l') as l. intros l Hl. destruct (fresh_table m Hm) as (h&m1&->&Hm1&Hh&Hno). cbn [negb Z.eqb].
  assert (Hs : tabs_ok other (TABS h global m1)) by by split_and!; try done; intros o E; split; [done|apply Ho].
  destruct (expand_cond_runs other l Hl _ Hs) as (s&->&(Hm2&Hok&Hgo)&Hsame&Ha&Hgl). cbn [b_avtab b_global] in *.
  exists (b_avtab s), (b_global s), (b_mem s). split; [done|]. split; [done|]. split; [by left|]. split.
  { destruct other as [o|]; [by apply (Hgo o)|by rewrite Hsame]. }
  split; intros k b; [rewrite Ha|by rewrite Hgl]. unfold branch_has. naive_solver.
Qed.

Lemma expand_conds_runs l : Forall cond_known l → ∀ global ci m, plenty m → rules_ok global → Forall info_ok ci →
  ∃ g ci' m', expand_conds p parent l global ci m = Ret (inr (g, ci'), m') ∧ plenty m' ∧ rules_ok g ∧ Forall info_ok ci' ∧
    (∀ c, c ∈ ci_cond <$> ci' ↔ c ∈ l ∨ c ∈ ci_cond <$> ci) ∧
    ∀ k b, grants_at g k b ↔ grants_at global k b ∨ ∃ c, c ∈ l ∧ both_have c k b.
Proof.
  induction 1 as [|c l [Ht Hf] Hl IH]; intros global ci m Hm Hg Hci; cbn [expand_conds].
  - exists global, ci, m. split; [done|]. do 3 (split; [done|]). setoid_rewrite elem_of_nil. naive_solver.
  - destruct (malloc_plenty m Hm) as (m0&E0&Hm0). unfold mbind at 1, M_bind at 1. rewrite E0. cbn [negb].
    destruct (expand_branch_runs (true_list c) None global m0 Ht Hm0 Hg ltac:(done)) as (t&g1&m1&E1&Hm1&Htok&Hg1&Hta&Hga).
    unfold mbind at 1, M_bind at 1. rewrite E1. cbn [negb Z.eqb].
    destruct (expand_branch_runs (false_list c) (Some t) g1 m1 Hf Hm1 Hg1) as (f&g2&m2&E2&Hm2&Hfok&Hg2&Hfa&Hgb); [by intros ? [= <-]|].
    unfold mbind at 1, M_bind at 1. rewrite E2. cbn [negb Z.eqb].
    destruct (IH g2 (BCI t f c :: ci) m2 Hm2 Hg2) as (g3&ci'&m3&E3&Hm3&Hg3&Hci3&Hel&Hgr); [by constructor|].
    exists g3, ci', m3. split; [done|]. split; [done|]. split; [done|]. split; [done|]. split.
    + intros c'. rewrite Hel. cbn [fmap list_fmap ci_cond]. rewrite !elem_of_cons. tauto.
    + intros k b. rewrite Hgr, Hgb, Hga, also_some, also_none, Hta. setoid_rewrite elem_of_cons. unfold both_have. split.
      * intros [[[?|[_ []]]|[? ?]]|(c'&?&?)]; [by left|right; exists c; by auto|right; exists c'; by auto].
      * intros [?|(c'&[->|?]&?)]; [by auto|tauto|right; by exists c'].
Qed.

(** What the parent has in every case. *)
Definition always_has (k : avtab_key) (b : Z) : Prop :=
  parent_has p parent (List.filter is_allow (avtab_nodes (te_avtab p))) k b ∨ ∃ c, c ∈ cond_list p ∧ both_have c k b.

Definition policy_known : Prop := Forall (rule_known p) (avtab_nodes (te_avtab p)) ∧ Forall cond_known (cond_list p).

Lemma expand_parent_runs m : policy_known → plenty m →
  ∃ g ci m', bounds_expand_parent_rules p parent m = Ret ((0, g, ci), m') ∧ plenty m' ∧ rules_ok g ∧ Forall info_ok ci ∧
    (∀ c, c ∈ ci_cond <$> ci ↔ c ∈ cond_list p) ∧ ∀ k b, grants_at g k b ↔ always_has k b.
Proof.
  intros [Hte Hco] Hm. unfold bounds_expand_parent_rules. destruct (fresh_table m Hm) as (h&m1&->&Hm1&Hh&Hno). cbn [negb Z.eqb].
  destruct (expand_all_runs _ Hte (TABS h new_avtab m1)) as (s&->&(Hm2&Hok&_)&_&Ha&_); [by split_and!|]. cbn [b_avtab] in *.
  unfold mbind, outcome_bind. cbn [negb Z.eqb].
  destruct (expand_conds_runs (cond_list p) Hco (b_avtab s) [] (b_mem s) Hm2 Hok) as (g&ci&m3&->&Hm3&Hg&Hci&Hel&Hgr); [constructor|].
  exists g, ci, m3. split; [done|]. do 3 (split; [done|]). split.
  - intros c. rewrite Hel. cbn. rewrite elem_of_nil. tauto.
  - intros k b. rewrite Hgr, Ha. unfold always_has. naive_solver.
Qed.
End parent.

(** ** What the check finds *)

Definition covered (global : option avtab) (cur : avtab) (k : avtab_key) (b : Z) : Prop :=
  grants_at cur k b ∨ also global k b.

Lemma without_spec h k d : tab_ok h → avkey_ok k → specified k = AVTAB_ALLOWED → 0 <= d < 2 ^ 32 →
  0 <= without h k d < 2 ^ 32 ∧
  ∀ b, 0 <= b < 32 → Z.testbit d b = true → Z.testbit (without h k d) b = false ↔ grants_at h k b.
Proof.
  intros Hh Hk Hs Hd. pose proof (search_datum h k Hh Hk Hs) as E. unfold without, grants_at. rewrite <- E.
  destruct (avtab_search h k) as [n|]; cbn [fmap option_fmap option_map].
  - split; [split; [apply Z.land_nonneg; lia|]|].
    + apply bits_range; [done|apply Z.land_nonneg; lia|]. intros b Hb. rewrite Z.land_spec, (testbit_high 32) by lia. done.
    + intros b Hb Hbit. rewrite Z.land_spec, Hbit, testbit_not32 by lia. setoid_rewrite (inj_iff Some). split.
      * intros H. exists (datum n). split; [done|]. by destruct (Z.testbit (data (datum n)) b).
      * by intros (?&<-& ->).
  - split; [done|]. intros b _ ->. split; [done|]. by intros (?&?&_).
Qed.

Lemma without_subset h k d b : Z.testbit (without h k d) b = true → Z.testbit d b = true.
Proof. unfold without. destruct (avtab_search h k); [|done]. rewrite Z.land_spec. by intros [? _]%andb_true_iff. Qed.

Lemma zero_bits z : 0 <= z < 2 ^ 32 → z = 0 ↔ ∀ b, 0 <= b < 32 → Z.testbit z b = false.
Proof.
  intros Hz. split; [intros -> b _; apply Z.bits_0|]. intros H. apply (bits_inj_low 32); [done..|]. intros b Hb. by rewrite H, Z.bits_0.
Qed.

Lemma not_covered_zero global cur k d : tab_ok cur → (∀ g, global = Some g → tab_ok g) → avkey_ok k →
  specified k = AVTAB_ALLOWED → 0 <= d < 2 ^ 32 →
  bounds_not_covered global cur k d = 0 ↔ ∀ b, 0 <= b < 32 → Z.testbit d b = true → covered global cur k b.
Proof.
  intros Hc Hg Hk Hs Hd. destruct (without_spec cur k d Hc Hk Hs Hd) as [Hr Hb]. unfold bounds_not_covered.
  assert (Hcur : without cur k d = 0 ↔ ∀ b, 0 <= b < 32 → Z.testbit d b = true → grants_at cur k b).
  { rewrite zero_bits by done. split.
    - intros H b Hb' Hbit. apply Hb; [done..|]. by apply H.
    - intros H b Hb'. apply not_true_iff_false. intros Hw. pose proof (without_subset _ _ _ _ Hw) as Hbit.
      assert (Z.testbit (without cur k d) b = false) by (apply Hb; by auto). congruence. }
  unfold covered. destruct global as [g|].
  2: { setoid_rewrite also_none. rewrite Hcur. naive_solver. }
  setoid_rewrite also_some. destruct (Z.eqb_spec (without cur k d) 0) as [E|E]; cbn [negb].
  { split; [|done]. intros _. pose proof (proj1 Hcur E). by auto. }
  destruct (without_spec g k _ (Hg g eq_refl) Hk Hs Hr) as [Hr' Hb2]. rewrite zero_bits by done. split.
  - intros H b Hb' Hbit. destruct (Z.testbit (without cur k d) b) eqn:Ew; [right|left; by apply Hb].
    apply Hb2; [done..|by apply H].
  - intros H b Hb'. apply not_true_iff_false. intros Hw. pose proof (without_subset _ _ _ _ Hw) as Hw1.
    pose proof (without_subset _ _ _ _ Hw1) as Hbit. destruct (H b Hb' Hbit) as [Hx|Hx].
    + apply Hb in Hx; [congruence|done..].
    + apply Hb2 in Hx; [congruence|done..].
Qed.

(** A run that finds something unless [All] holds. *)
Definition finds (All : Prop) (s s' : chk) : Prop :=
  plenty (c_mem s') ∧ ∃ l, bad s' = l ++ bad s ∧ u32 (numbad s') = u32 (numbad s + Z.of_nat (length l)) ∧ (l = [] ↔ All).

Lemma finds_nothing (All : Prop) s : plenty (c_mem s) → All → finds All s s.
Proof. intros Hm HA. split; [done|]. exists []. rewrite Z.add_0_r. by split_and!. Qed.

Lemma u32_s32 z : u32 (s32 z) = u32 z.
Proof. unfold s32, u32. destruct (_ <? _); [apply Z.mod_mod; lia|]. rewrite <- Zminus_mod_idemp_r, Z_mod_same_full, Z.sub_0_r, !Z.mod_mod; lia. Qed.

Lemma u32_add_l a b c : u32 a = u32 b → u32 (a + c) = u32 (b + c).
Proof. unfold u32. intros H. by rewrite (Zplus_mod a), H, <- Zplus_mod. Qed.

Lemma finds_then (A B All : Prop) s1 s2 s3 : finds A s1 s2 → finds B s2 s3 → (All ↔ A ∧ B) → finds All s1 s3.
Proof.
  intros (_&l1&E1&N1&H1) (Hm&l2&E2&N2&H2) HA. split; [done|]. exists (l2 ++ l1). split; [by rewrite E2, E1, app_assoc|]. split.
  - rewrite N2, length_app. erewrite u32_add_l by exact N1. f_equal. lia.
  - rewrite HA, <- H1, <- H2. split; [by intros [? ?]%app_eq_nil|by intros [-> ->]].
Qed.

Section child.
Context (p : policydb) (child parent : Z).
Hypothesis Hchild : 0 < child < 2 ^ 16.
Hypothesis Hparent : 0 < parent < 2 ^ 16.

(** What the rule gives the child is given to the parent, on the targets' bounds. *)
Definition within (C : avtab_key → Z → Prop) (n : avtab_node) : Prop :=
  belongs p (source_type (key n) - 1) (child - 1) →
  ∀ i t b, belongs p (target_type (key n) - 1) i → bounded_target p i = Ret t → 0 <= b < 32 →
    Z.testbit (data (datum n)) b = true → C (AK parent t (target_class (key n)) AVTAB_ALLOWED) b.

Definition all_within (C : avtab_key → Z → Prop) (l : list avtab_node) : Prop :=
  ∀ n, n ∈ l → is_allow n = true → within C n.

Section tables.
Context (global : option avtab) (cur : avtab).
Hypothesis Hcur : tab_ok cur.
Hypothesis Hglobal : ∀ g, global = Some g → tab_ok g.

Lemma check_targets_runs c d l : 0 <= c < 2 ^ 16 → 0 <= d < 2 ^ 32 →
  Forall (λ i, ∃ t, bounded_target p i = Ret t ∧ 0 <= t < 2 ^ 16) l → ∀ s, plenty (c_mem s) →
  runs (check_targets p global cur child parent c d l) s
    (finds (∀ i t b, i ∈ l → bounded_target p i = Ret t → 0 <= b < 32 → Z.testbit d b = true →
              covered global cur (AK parent t c AVTAB_ALLOWED) b) s).
Proof.
  intros Hc Hd. induction 1 as [|i l (t&Et&Ht) Hl IH]; intros s Hm; cbn [check_targets].
  - apply runs_ret, finds_nothing; [done|]. by intros i t b ?%not_elem_of_nil.
  - eapply runs_lift; [exact Et|]. rewrite !u16_small by lia.
    pose proof (not_covered_zero global cur (AK parent t c AVTAB_ALLOWED) d Hcur Hglobal
      ltac:(unfold avkey_ok; cbn [source_type target_type target_class]; lia) eq_refl Hd) as Hz.
    assert (Hsplit : ∀ (P : Z → Z → Prop), (∀ j u b, j ∈ i :: l → bounded_target p j = Ret u → 0 <= b < 32 → Z.testbit d b = true → P u b) ↔
      (∀ b, 0 <= b < 32 → Z.testbit d b = true → P t b) ∧
      (∀ j u b, j ∈ l → bounded_target p j = Ret u → 0 <= b < 32 → Z.testbit d b = true → P u b)).
    { intros P. split.
      - intros H. split; [intros b; apply (H i); [by left|done]|]. intros j u b Hj. apply H. by right.
      - intros [H1 H2] j u b [->|Hj]%elem_of_cons Ej; [|by eapply H2]. rewrite Et in Ej. injection Ej as <-. by apply H1. }
    specialize (Hsplit (λ u b, covered global cur (AK parent u c AVTAB_ALLOWED) b)). cbn beta in Hsplit.
    destruct (Z.eqb_spec (bounds_not_covered global cur (AK parent t c AVTAB_ALLOWED) d) 0) as [E|E]; cbn [negb].
    + eapply runs_mono; [|by apply IH]. intros s' H. eapply finds_then; [apply (finds_nothing True); done|exact H|].
      rewrite Hsplit, <- Hz. tauto.
    + unfold runs. unfold mbind at 1, M_bind at 1, modify at 1. cbn beta iota.
      unfold mbind at 1, M_bind at 1, bounds_add_bad. destruct (malloc_plenty (c_mem s) Hm) as (m'&Em&Hm'). cbn [c_mem bad numbad].
      rewrite Em. cbn [negb]. set (s1 := CHK _ _ m'). destruct (IH s1 Hm') as (s2&E2&H2). exists s2. split; [exact E2|].
      assert (H1 : finds False s s1).
      { split; [done|]. eexists [_]. split; [done|]. split; [|done]. unfold s1. cbn [numbad length]. by rewrite u32_s32. }
      eapply finds_then; [exact H1|exact H2|]. rewrite Hsplit, <- Hz. tauto.
Qed.

Lemma check_rule_runs n s : rule_known p n → plenty (c_mem s) →
  runs (bounds_check_rule p global cur child parent (source_type (key n)) (target_type (key n)) (target_class (key n)) (data (datum n))) s
    (finds (within (covered global cur) n) s).
Proof.
  intros ((src&tgt&Es&Et&Ws&Wt)&(_&_&Hc)&Hd&Hm) Hmem. unfold bounds_check_rule.
  eapply runs_lift; [exact Es|]. rewrite u32_small by lia.
  assert (Hsrc : belongs p (source_type (key n) - 1) (child - 1) ↔ ebitmap_get_bit src (child - 1) = true).
  { unfold belongs. rewrite Es. naive_solver. }
  assert (Htgt : ∀ i, belongs p (target_type (key n) - 1) i ↔ ebitmap_get_bit tgt i = true).
  { intros i. unfold belongs. rewrite Et. naive_solver. }
  destruct (ebitmap_get_bit src (child - 1)) eqn:E.
  - eapply runs_lift; [exact Et|]. eapply runs_mono; [|apply check_targets_runs; [done|done| |done]].
    + intros s' H. eapply finds_then; [exact H|apply (finds_nothing True); [apply H|done]|]. unfold within.
      setoid_rewrite (elem_of_members tgt _ Wt). setoid_rewrite Htgt. rewrite Hsrc. naive_solver.
    + apply Forall_forall. intros i Hi. apply elem_of_members in Hi; [|done]. by apply Htgt, Hm in Hi as [_ ?].
  - apply runs_ret, finds_nothing; [done|]. intros Hb. apply Hsrc in Hb. congruence.
Qed.
End tables.

Lemma all_within_cons C n l : is_allow n = true → all_within C (n :: l) ↔ within C n ∧ all_within C l.
Proof. intros Hn. unfold all_within. setoid_rewrite elem_of_cons. naive_solver. Qed.

Lemma all_within_skip C n l : is_allow n = false → all_within C (n :: l) ↔ all_within C l.
Proof.
  intros Hn. unfold all_within. setoid_rewrite elem_of_cons. split; [by auto|]. intros H x [->|Hx]; [congruence|by apply H].
Qed.

Lemma check_cond_rules_runs g cur l : tab_ok g → tab_ok cur → list_known p l → ∀ s, plenty (c_mem s) →
  runs (bounds_check_cond_rules p g cur l child parent) s (finds (all_within (covered (Some g) cur) (at_addresses p l)) s).
Proof.
  intros Hg Hc. induction 1 as [|a l (n&En&Hn) Hl IH]; intros s Hm; cbn [bounds_check_cond_rules].
  - apply runs_ret, finds_nothing; [done|]. by intros n ?%not_elem_of_nil.
  - eapply runs_lift; [unfold cond_rule_at; by rewrite En|]. unfold at_addresses. cbn [omap list_omap]. rewrite En.
    fold (at_addresses p l). destruct (has_bits (specified (key n)) AVTAB_ALLOWED) eqn:E; cbn [negb].
    + eapply runs_then; [apply check_rule_runs; [done|by intros ? [= <-]|done|done]|]. intros s1 H1. eapply runs_mono; [|apply IH, H1].
      intros s2 H2. eapply finds_then; [exact H1|exact H2|by apply all_within_cons].
    + eapply runs_mono; [|by apply IH]. intros s' H. eapply finds_then; [apply (finds_nothing True); done|exact H|].
      rewrite all_within_skip by done. tauto.
Qed.

Lemma check_all_runs cur l : tab_ok cur → Forall (rule_known p) l → ∀ s, plenty (c_mem s) →
  runs (each_rule (bounds_check_rule_callback p cur child parent) l) s (finds (all_within (covered None cur) l) s).
Proof.
  intros Hc. induction 1 as [|n l Hn Hl IH]; intros s Hm; cbn [each_rule].
  - apply runs_ret, finds_nothing; [done|]. by intros n ?%not_elem_of_nil.
  - assert (bounds_check_rule_callback p cur child parent (key n) (datum n) = if negb (is_allow n) then mret 0 else
      bounds_check_rule p None cur child parent (source_type (key n)) (target_type (key n)) (target_class (key n)) (data (datum n))) as -> by done.
    destruct (is_allow n) eqn:E; cbn [negb].
    + eapply (runs_then _ mret); [by apply check_rule_runs|]. intros s1 H1. eapply runs_mono; [|apply IH, H1].
      intros s2 H2. eapply finds_then; [exact H1|exact H2|by apply all_within_cons].
    + eapply (runs_then (mret 0) mret); [by apply (runs_ret s (eq s))|]. intros s1 <-. eapply runs_mono; [|by apply IH].
      intros s' H. eapply finds_then; [apply (finds_nothing True); done|exact H|]. rewrite all_within_skip by done. tauto.
Qed.
End child.

(** ** The check of a type *)

Lemma within_ext p child parent (C D : avtab_key → Z → Prop) n : (∀ k b, C k b ↔ D k b) →
  within p child parent C n ↔ within p child parent D n.
Proof. intros H. unfold within. by setoid_rewrite H. Qed.

Lemma all_within_ext p child parent (C D : avtab_key → Z → Prop) l : (∀ k b, C k b ↔ D k b) →
  all_within p child parent C l ↔ all_within p child parent D l.
Proof. intros H. unfold all_within. by setoid_rewrite (within_ext _ _ _ C D _ H). Qed.

(** What the parent has when the branch is taken. *)
Definition branch_or_always (p : policydb) (parent : Z) (l : list Z) (k : avtab_key) (b : Z) : Prop :=
  branch_has p parent l k b ∨ always_has p parent k b.

Definition cond_within (p : policydb) (child parent : Z) (c : cond_node) : Prop :=
  all_within p child parent (branch_or_always p parent (true_list c)) (at_addresses p (true_list c)) ∧
  all_within p child parent (branch_or_always p parent (false_list c)) (at_addresses p (false_list c)).

(** Every access rule of the child is one of the parent, on the types that bound
    the targets, whatever the values of the conditionals are. *)
Definition type_within (p : policydb) (child parent : Z) : Prop :=
  all_within p child parent (always_has p parent) (avtab_nodes (te_avtab p)) ∧ Forall (cond_within p child parent) (cond_list p).

Lemma check_conds_runs p child parent g ci : 0 < child < 2 ^ 16 → 0 < parent < 2 ^ 16 → tab_ok g →
  (∀ k b, grants_at g k b ↔ always_has p parent k b) → Forall (info_ok p parent) ci →
  Forall (λ i, cond_known p (ci_cond i)) ci → ∀ s, plenty (c_mem s) →
  runs (check_conds p g ci child parent) s (finds (Forall (λ i, cond_within p child parent (ci_cond i)) ci) s).
Proof.
  intros Hchild Hparent Hg Hgr. induction 1 as [|i ci (Ht&Hf&Hta&Hfa) Hci IH]; intros Hk s Hm; cbn [check_conds].
  - apply runs_ret, finds_nothing; [done|constructor].
  - apply Forall_cons in Hk as [[Kt Kf] Hk].
    eapply runs_then; [apply (check_cond_rules_runs p child parent Hchild Hparent); done|]. intros s1 H1.
    eapply runs_then; [apply (check_cond_rules_runs p child parent Hchild Hparent); [done..|apply H1]|]. intros s2 H2.
    eapply runs_mono; [|by apply IH, H2]. intros s3 H3. eapply finds_then; [exact H1| |].
    + eapply finds_then; [exact H2|exact H3|]. reflexivity.
    + rewrite Forall_cons. unfold cond_within at 1.
      assert (Hcov : ∀ h l, (∀ k b, grants_at h k b ↔ branch_has p parent l k b) →
        ∀ k b, covered (Some g) h k b ↔ branch_or_always p parent l k b).
      { intros h l Hh k b. unfold covered, branch_or_always. by rewrite also_some, Hgr, Hh. }
      rewrite (all_within_ext _ _ _ _ _ _ (Hcov _ _ Hta)), (all_within_ext _ _ _ _ _ _ (Hcov _ _ Hfa)). tauto.
Qed.

Lemma bounds_check_type_correct p child parent n m : 0 < child < 2 ^ 16 → 0 < parent < 2 ^ 16 → policy_known p → plenty m →
  ∃ bad n' m', bounds_check_type p child parent (n, m) = Ret ((0, bad), (n', m')) ∧ plenty m' ∧
    n' = s32 (n + Z.of_nat (length bad)) ∧ (bad = [] ↔ type_within p child parent).
Proof.
  intros Hchild Hparent Hk Hm. destruct (expand_parent_runs p parent Hparent m Hk Hm) as (g&ci&m1&E&Hm1&Hg&Hci&Hel&Hgr).
  destruct Hk as [Kte Kco]. unfold bounds_check_type. unfold mbind at 1, M_bind at 1, with_rest. cbn [fst snd]. rewrite E.
  unfold mbind at 1, outcome_bind. cbn [negb Z.eqb]. unfold bounds_check_child_rules. cbn [fst snd].
  assert (Hrun : runs (rc ← each_rule (bounds_check_rule_callback p g child parent) (avtab_nodes (te_avtab p));
      if negb (rc =? 0) then mret rc else check_conds p g ci child parent) (CHK [] 0 m1)
    (finds (type_within p child parent) (CHK [] 0 m1))).
  { eapply runs_then; [apply (check_all_runs p child parent Hchild Hparent); [by left|done|done]|]. intros s1 H1.
    eapply runs_mono; [|apply (check_conds_runs p child parent g ci Hchild Hparent); [by left|done|done| |apply H1]].
    - intros s2 H2. eapply finds_then; [exact H1|exact H2|]. unfold type_within.
      rewrite (all_within_ext _ _ _ (covered None g) (always_has p parent)).
      2: { intros k b. unfold covered. rewrite also_none, Hgr. tauto. }
      assert (Forall (cond_within p child parent) (cond_list p) ↔ Forall (λ i, cond_within p child parent (ci_cond i)) ci) as ->; [|done].
      change (λ i, cond_within p child parent (ci_cond i)) with (cond_within p child parent ∘ ci_cond).
      rewrite <- Forall_fmap. rewrite !Forall_forall. by setoid_rewrite Hel.
    - change (Forall (cond_known p ∘ ci_cond) ci). rewrite <- Forall_fmap. rewrite Forall_forall in Kco. apply Forall_forall. intros c Hc. by apply Kco, Hel. }
  destruct Hrun as (s&Es&Hms&l&El&Hn&Hl). rewrite Es. cbn [mbind outcome_bind negb Z.eqb].
  cbn [bad numbad] in *. rewrite app_nil_r in El. subst l. exists (bad s), (s32 (n + numbad s)), (c_mem s).
  split; [done|]. split; [done|]. split; [|done]. unfold s32. rewrite !(Z.add_comm n). by rewrite (u32_add_l _ _ n Hn).
Qed.

(** ** What a passed check means *)

Lemma belongs_attr p t i : type_maps_good p → belongs p i (t - 1) → attr_of p t i.
Proof.
  intros [_ Htype Hattr] (e&He&Hbit). unfold types_with in He. apply ret_bind_inv in He as (o&Ho&He).
  destruct (at_index (attr_type_map p) i) as [o'|] eqn:Eo; [|done]. injection Ho as ->.
  destruct (Hattr _ _ Eo) as (e'&->&_&Hbits). injection He as ->. rewrite Hbits in Hbit. unfold attr_of.
  destruct (at_index (type_attr_map p) (t - 1)) as [[ta|]|] eqn:Et; [|done..]. exists ta. split; [done|].
  unfold own_bit in Hbit. destruct (Z.eqb_spec i (t - 1)) as [->|Hne]; [|done]. by destruct (Htype _ _ Et) as (?&[= <-]&_&?&_).
Qed.

(** The conditionals have been evaluated, and the conditional rules are theirs. *)
Record conds_evaluated (p : policydb) : Prop := {
  ce_wf : avtab_wf (te_cond_avtab p);
  ce_listed n : n ∈ avtab_nodes (te_cond_avtab p) → ∃ c, c ∈ cond_list p ∧ naddr n ∈ addresses c;
  ce_consistent : Forall (λ c, consistent (te_cond_avtab p) c ∧ 0 <= cur_state c) (cond_list p)
}.

(** Rules that allow are of the plain kind; the parent has no conditional rule of
    another kind. *)
Record plain_rules (p : policydb) (parent : Z) : Prop := {
  pr_te n : n ∈ avtab_nodes (te_avtab p) → is_allow n = true → specified (key n) = AVTAB_ALLOWED;
  pr_cond n : n ∈ avtab_nodes (te_cond_avtab p) → belongs p (source_type (key n) - 1) (parent - 1) → is_allow n = true
}.

Section passed.
Context (p : policydb) (child parent : Z).
Hypothesis Hmaps : type_maps_good p.
Hypothesis Hce : conds_evaluated p.
Hypothesis Hpr : plain_rules p parent.

Lemma covering_allows n t u c b : covers p n t u c b →
  n ∈ avtab_nodes (te_avtab p) ∧ specified (key n) = AVTAB_ALLOWED ∨
  n ∈ avtab_nodes (te_cond_avtab p) ∧ is_allow n = true ∧ has_bits (specified (key n)) AVTAB_ENABLED = true →
  te_allows p t u c b.
Proof.
  intros (Hs&Ht&Hc&Hb) H. exists (source_type (key n) - 1), (target_type (key n) - 1).
  split; [by apply belongs_attr|]. split; [by apply belongs_attr|]. rewrite !Z.sub_add.
  destruct H as [[Hn Hk]|(Hn&Ha&He)]; [left|right]; exists n; (split; [done|]); unfold allow_rule, cond_allow_rule.
  - by split_and!.
  - unfold is_allow in Ha. rewrite has_allowed in Ha. change AVTAB_ENABLED with (Z.shiftl 1 15) in He.
    rewrite has_bits_shl in He by done. by split_and!.
Qed.

Definition taken (l : list Z) : Prop := ∀ a, a ∈ l → enabled (te_cond_avtab p) a = true.

Lemma branch_allows l u c b : taken l → branch_has p parent l (AK parent u c AVTAB_ALLOWED) b → te_allows p parent u c b.
Proof.
  intros Hl (_&_&n&Hn&Hcov). unfold at_addresses in Hn. apply list_elem_of_omap in Hn as (a&Ha&En). pose proof (Hl a Ha) as He.
  unfold enabled in He. rewrite En in He. unfold node_at in En. apply find_some in En as [Hin%list_elem_of_In _].
  apply (covering_allows n); [done|]. right. split; [done|]. split; [|done]. apply (pr_cond _ _ Hpr); [done|apply Hcov].
Qed.

Lemma branches_taken c : c ∈ cond_list p → (taken (true_list c) ∧ 0 < cur_state c) ∨ (taken (false_list c) ∧ cur_state c = 0).
Proof.
  intros Hc. pose proof (ce_consistent _ Hce) as H. rewrite Forall_forall in H. destruct (H c Hc) as [[Ht Hf] Hs].
  destruct (Z.eqb_spec (cur_state c) 0) as [E|E]; [right|left]; (split; [|lia]); intros a Ha; [by apply Hf|].
  rewrite Ht by done. apply negb_true_iff, Z.leb_gt. lia.
Qed.

Lemma always_allows u c b : always_has p parent (AK parent u c AVTAB_ALLOWED) b → te_allows p parent u c b.
Proof.
  intros [(_&_&n&[Hn Ha]%elem_of_bfilter&Hcov)|(cd&Hcd&Ht&Hf)].
  - apply (covering_allows n); [done|]. left. split; [done|by apply (pr_te _ _ Hpr)].
  - destruct (branches_taken cd Hcd) as [[H _]|[H _]]; by eapply branch_allows.
Qed.

(** A listed rule that is enabled is in a branch that is taken. *)
Lemma rule_taken n : n ∈ avtab_nodes (te_cond_avtab p) → has_bits (specified (key n)) AVTAB_ENABLED = true →
  ∃ c l, c ∈ cond_list p ∧ (l = true_list c ∨ l = false_list c) ∧ n ∈ at_addresses p l ∧ taken l.
Proof.
  intros Hn He. destruct (ce_listed _ Hce n Hn) as (c&Hc&Ha). pose proof (node_at_some _ n (ce_wf _ Hce) Hn) as En.
  assert (Hen : enabled (te_cond_avtab p) (naddr n) = true) by (unfold enabled; by rewrite En).
  pose proof (ce_consistent _ Hce) as H. rewrite Forall_forall in H. destruct (H c Hc) as [[Ht Hf] _].
  apply elem_of_app in Ha as [Ha|Ha]; [exists c, (true_list c)|exists c, (false_list c)]; (split; [done|]); (split; [by auto|]);
    (split; [apply list_elem_of_omap; by exists (naddr n)|]); intros a Ha'.
  - by rewrite Ht, <- (Ht _ Ha), Hen.
  - by rewrite Hf, <- (Hf _ Ha), Hen.
Qed.

Lemma within_allows t u c b : type_within p child parent → plain_type p (child - 1) = true → plain_type p (t - 1) = true →
  bounded_target p (t - 1) = Ret u → 0 <= b < 32 → te_allows p child t c b → te_allows p parent u c b.
Proof.
  intros [Hte Hco] Hpc Hpt Hu Hb (i&j&Hi&Hj&Hn).
  destruct (attr_belongs p child i Hmaps Hpc Hi) as [Bi _]. destruct (attr_belongs p t j Hmaps Hpt Hj) as [Bj _].
  destruct Hn as [(n&Hin&Es&Et&Ec&Hspec&Hd)|(n&Hin&Es&Et&Ec&Hspec&He&Hd)].
  - assert (Ha : is_allow n = true) by (unfold is_allow; by rewrite has_allowed, Hspec).
    apply always_allows. specialize (Hte n Hin Ha). unfold within in Hte. rewrite Es, Et, Ec in Hte.
    rewrite !Z.add_simpl_r in Hte. by eapply Hte.
  - assert (Ha : is_allow n = true) by (unfold is_allow; by rewrite has_allowed).
    assert (He' : has_bits (specified (key n)) AVTAB_ENABLED = true) by (change AVTAB_ENABLED with (Z.shiftl 1 15); by rewrite has_bits_shl).
    destruct (rule_taken n Hin He') as (cd&l&Hcd&Hl&Hnl&Htk). rewrite Forall_forall in Hco. specialize (Hco cd Hcd).
    assert (Hw : all_within p child parent (branch_or_always p parent l) (at_addresses p l)) by (destruct Hl as [->| ->]; apply Hco).
    specialize (Hw n Hnl Ha). unfold within in Hw. rewrite Es, Et, Ec, !Z.add_simpl_r in Hw.
    destruct (Hw Bi _ _ _ Bj Hu Hb Hd) as [H|H]; [by eapply branch_allows|by apply always_allows].
Qed.
End passed.
