(* ===== verification/ContextText.v ===== *)
(** * Contexts as text and as records (libsepol/src/context.c, context_record.c)

    A record holds the components of a context by name.  The conversions
    between text, records and contexts, the round trip of records, and what a
    context that was made from text is known to satisfy. *)

From S2P Require Import Prelude Policyfile Ebitmap Hashtab Avtab Context Policydb Mls MlsText.

(** ** Records (context_record.c) *)

(** The fields are pointers that may be NULL. *)
Record sepol_context := CR {
  con_user : option string;
  con_role : option string;
  con_type : option string;
  con_mls : option string
}.

Definition strdup (s : string) (m : mem) : option string * mem :=
  let '(ok, m) := malloc m in (if ok then Some s else None, m).

Definition sepol_context_set_user (con : sepol_context) (user : string) (m : mem) : Z * sepol_context * mem :=
  match strdup user m with
  | (None, m) => (STATUS_ERR, con, m)
  | (Some u, m) => (STATUS_SUCCESS, CR (Some u) (con_role con) (con_type con) (con_mls con), m)
  end.

Definition sepol_context_set_role (con : sepol_context) (role : string) (m : mem) : Z * sepol_context * mem :=
  match strdup role m with
  | (None, m) => (STATUS_ERR, con, m)
  | (Some r, m) => (STATUS_SUCCESS, CR (con_user con) (Some r) (con_type con) (con_mls con), m)
  end.

Definition sepol_context_set_type (con : sepol_context) (type : string) (m : mem) : Z * sepol_context * mem :=
  match strdup type m with
  | (None, m) => (STATUS_ERR, con, m)
  | (Some t, m) => (STATUS_SUCCESS, CR (con_user con) (con_role con) (Some t) (con_mls con), m)
  end.

Definition sepol_context_set_mls (con : sepol_context) (mls : string) (m : mem) : Z * sepol_context * mem :=
  match strdup mls m with
  | (None, m) => (STATUS_ERR, con, m)
  | (Some l, m) => (STATUS_SUCCESS, CR (con_user con) (con_role con) (con_type con) (Some l), m)
  end.

(** The status and [*con_ptr] when it is set. *)
Definition sepol_context_create (m : mem) : Z * option sepol_context * mem :=
  let '(ok, m) := malloc m in
  if negb ok then (STATUS_ERR, None, m) else (STATUS_SUCCESS, Some (CR None None None None), m).

(** [strdup] of a field: NULL is undefined behaviour. *)
Definition dup_field (f : option string) (m : mem) : outcome (option string * mem) :=
  s ← deref f; mret (strdup s m).

(** The second result is [*con_ptr]. *)
Definition sepol_context_clone (con : option sepol_context) (m : mem) : outcome (Z * option sepol_context * mem) :=
  match con with
  | None => mret (0, None, m)
  | Some con =>
      let '(rc, new_con, m) := sepol_context_create m in
      if rc <? 0 then mret (STATUS_ERR, None, m)
      else
        '(u, m) ← dup_field (con_user con) m;
        if bool_decide (u = None) then mret (STATUS_ERR, None, m)
        else
          '(r, m) ← dup_field (con_role con) m;
          if bool_decide (r = None) then mret (STATUS_ERR, None, m)
          else
            '(t, m) ← dup_field (con_type con) m;
            if bool_decide (t = None) then mret (STATUS_ERR, None, m)
            else
              match con_mls con with
              | None => mret (STATUS_SUCCESS, Some (CR u r t None), m)
              | Some l =>
                  match strdup l m with
                  | (None, m) => mret (STATUS_ERR, None, m)
                  | (l, m) => mret (STATUS_SUCCESS, Some (CR u r t l), m)
                  end
              end
  end.

(** [high = strchr(low, ':')]: the text before the colon and after it. *)
Definition split_colon (low : string) : string * option string :=
  let '(field, rest) := span_until (Ascii.eqb ":") low in
  (field, match rest with EmptyString => None | String _ high => Some high end).

(** A field of the record is set, then the code goes on. *)
Definition or_err (r : Z * sepol_context * mem) (k : sepol_context → mem → Z * option sepol_context * mem)
    : Z * option sepol_context * mem :=
  let '(rc, con, m) := r in if rc <? 0 then (STATUS_ERR, None, m) else k con m.

(** The status and the value of [*con], NULL on errors as the callers
    initialise it. *)
Definition sepol_context_from_string (str : string) (m : mem) : Z * option sepol_context * mem :=
  if strcmp str "<<none>>" =? 0 then (STATUS_SUCCESS, None, m)
  else
    match sepol_context_create m with
    | (rc, Some tmp_con, m) =>
        match strdup str m with
        | (None, m) => (STATUS_ERR, None, m)
        | (Some low, m) =>
            match split_colon low with
            | (_, None) => (STATUS_ERR, None, m)
            | (user, Some low) =>
                or_err (sepol_context_set_user tmp_con user m) (λ con m,
                match split_colon low with
                | (_, None) => (STATUS_ERR, None, m)
                | (role, Some low) =>
                    or_err (sepol_context_set_role con role m) (λ con m,
                    match split_colon low with
                    | (type, None) =>
                        or_err (sepol_context_set_type con type m) (λ con m, (STATUS_SUCCESS, Some con, m))
                    | (type, Some low) =>
                        or_err (sepol_context_set_type con type m) (λ con m,
                        or_err (sepol_context_set_mls con low m) (λ con m, (STATUS_SUCCESS, Some con, m)))
                    end)
                end)
            end
        end
    | (rc, None, m) => (STATUS_ERR, None, m)
    end.

(** [safe_sum]: the sum and the position of an overflow, or 0. *)
Fixpoint safe_sum (i sum : Z) (augends : list Z) : Z * Z :=
  match augends with
  | [] => (sum, 0)
  | a :: augends' =>
      let sum := u32 (sum + a) in
      if sum <? a then (sum, i) else safe_sum (i + 1) sum augends'
  end.

Definition colon (s1 s2 : string) : string := (s1 +:+ ":" +:+ s2)%string.

(** The status and [*str_ptr] when it is set. *)
Definition sepol_context_to_string (con : sepol_context) (m : mem) : outcome (Z * option string * mem) :=
  user ← deref (con_user con);
  role ← deref (con_role con);
  type ← deref (con_type con);
  let sizes := [slen user; slen role; slen type; match con_mls con with Some l => slen l | None => 0 end;
                match con_mls con with Some _ => 3 | None => 2 end + 1] in
  let '(total_sz, err) := safe_sum 0 0 sizes in
  if negb (err =? 0) then mret (STATUS_ERR, None, m)
  else
    let '(ok, m) := malloc m in
    if negb ok then mret (STATUS_ERR, None, m)
    else
      let str := match con_mls con with
                 | Some l => colon user (colon role (colon type l))
                 | None => colon user (colon role type)
                 end in
      let rc := slen str in
      if (rc <? 0) || (total_sz <=? rc) then mret (STATUS_ERR, None, m)
      else mret (STATUS_SUCCESS, Some str, m).

(** ** Contexts (context.c) *)

(** The status, [*result] and [*result_len] when they are set.  The text is
    written into [scontext_len] bytes. *)
Definition context_to_string (p : policydb) (context : context_struct) (m : mem) : outcome (Z * option (string * Z) * mem) :=
  u ← val_name p SYM_USERS (user context - 1);
  r ← val_name p SYM_ROLES (role context - 1);
  t ← val_name p SYM_TYPES (type context - 1);
  len ← mls_compute_context_len p context;
  let scontext_len := (slen u + 1) + (slen r + 1) + slen t + len + 1 in
  let '(ok, m) := malloc m in
  if negb ok then mret (STATUS_ERR, None, m)
  else
    mls_text ← mls_sid_to_context p context;
    mret (STATUS_SUCCESS, Some ((colon u (colon r t) +:+ mls_text)%string, scontext_len), m).

(** The checks of [context_from_record] after the names have been copied: the
    status and the context. *)
Definition context_of_names (p : policydb) (user role type : string) (mls_ : option string) (m : mem)
    : outcome (Z * option context_struct * mem) :=
  match hashtab_search (table (p_users p)) user with
  | None => mret (STATUS_ERR, None, m)
  | Some uq =>
      usrdatum ← deref (at_index (user_mem p) uq);
      match hashtab_search (table (p_roles p)) role with
      | None => mret (STATUS_ERR, None, m)
      | Some rq =>
          roldatum ← deref (at_index (role_mem p) rq);
          match hashtab_search (table (p_types p)) type with
          | None => mret (STATUS_ERR, None, m)
          | Some tq =>
              typdatum ← deref (at_index (type_mem p) tq);
              if flavor typdatum =? TYPE_ATTRIB then mret (STATUS_ERR, None, m)
              else
                let scontext := CTX (u_value usrdatum) (r_value roldatum) (t_value typdatum) mls_range_init in
                match mls_ with
                | Some _ => if mls p =? 0 then mret (STATUS_ERR, None, m) else mret (0, Some scontext, m)
                | None => if negb (mls p =? 0) then mret (STATUS_ERR, None, m) else mret (0, Some scontext, m)
                end
          end
      end
  end.

(** The status and [*cptr] when it is set. *)
Definition context_from_record (p : policydb) (record : option sepol_context) (m : mem)
    : outcome (Z * option context_struct * mem) :=
  record ← deref record;
  '(user, m) ← dup_field (con_user record) m;
  '(role, m) ← dup_field (con_role record) m;
  '(type, m) ← dup_field (con_type record) m;
  let '(ok, m) := malloc m in
  match user, role, type, ok with
  | Some user, Some role, Some type, true =>
      '(rc, c, m) ← context_of_names p user role type (con_mls record) m;
      match c with
      | None => mret (rc, None, m)
      | Some scontext =>
          '(rc, (scontext, m)) ←
            match con_mls record with
            | Some s => mls_from_string p s (scontext, m)
            | None => Ret (0, (scontext, m))
            end;
          if rc <? 0 then mret (STATUS_ERR, None, m)
          else
            ok ← context_is_valid p scontext;
            if ok : bool then mret (STATUS_SUCCESS, Some scontext, m) else mret (STATUS_ERR, None, m)
      end
  | _, _, _, _ => mret (STATUS_ERR, None, m)
  end.

(** The status and [*record] when it is set. *)
Definition context_to_record (p : policydb) (context : context_struct) (m : mem)
    : outcome (Z * option sepol_context * mem) :=
  match sepol_context_create m with
  | (_, None, m) => mret (STATUS_ERR, None, m)
  | (_, Some con, m) =>
      u ← val_name p SYM_USERS (user context - 1);
      let '(rc, con, m) := sepol_context_set_user con u m in
      if rc <? 0 then mret (STATUS_ERR, None, m)
      else
        r ← val_name p SYM_ROLES (role context - 1);
        let '(rc, con, m) := sepol_context_set_role con r m in
        if rc <? 0 then mret (STATUS_ERR, None, m)
        else
          t ← val_name p SYM_TYPES (type context - 1);
          let '(rc, con, m) := sepol_context_set_type con t m in
          if rc <? 0 then mret (STATUS_ERR, None, m)
          else if mls p =? 0 then mret (STATUS_SUCCESS, Some con, m)
          else
            '(rc, text, m) ← mls_to_string p context m;
            if rc <? 0 then mret (STATUS_ERR, None, m)
            else
              text ← deref text;
              let '(rc, con, m) := sepol_context_set_mls con text m in
              if rc <? 0 then mret (STATUS_ERR, None, m) else mret (STATUS_SUCCESS, Some con, m)
  end.

(** [con_str] holds a string; what lies behind its terminator is not known. *)
Definition context_from_string (p : policydb) (con_str : string) (con_str_len : Z) (m : mem)
    : outcome (Z * option context_struct * mem) :=
  if zero_or_saturated con_str_len then mret (STATUS_ERR, None, m)
  else
    let '(ok, m) := malloc m in
    if negb ok then mret (STATUS_ERR, None, m)
    else if slen con_str + 1 <? con_str_len then Undef
    else
      let con_cpy := String.substring 0 (Z.to_nat con_str_len) con_str in
      let '(rc, ctx_record, m) := sepol_context_from_string con_cpy m in
      if rc <? 0 then mret (STATUS_ERR, None, m)
      else
        '(rc, c, m) ← context_from_record p ctx_record m;
        if rc <? 0 then mret (STATUS_ERR, None, m) else mret (STATUS_SUCCESS, c, m).

(** The context that was made, if any, is destroyed. *)
Definition sepol_context_check (p : policydb) (context : option sepol_context) (m : mem) : outcome (Z * mem) :=
  '(ret, _, m) ← context_from_record p context m; mret (ret, m).

(** ** Text and records *)

Definition no_colon (s : string) : Prop := Forall (λ c, c ≠ ":"%char) (list_ascii_of_string s).

Lemma no_colon_stop s : no_colon s → Forall (λ c, Ascii.eqb ":" c = false) (list_ascii_of_string s).
Proof. intros H. eapply Forall_impl; [exact H|]. intros c Hc. by apply Ascii.eqb_neq. Qed.

Lemma split_colon_field s rest : no_colon s → split_colon (colon s rest) = (s, Some rest).
Proof. intros H%no_colon_stop. unfold split_colon, colon. by rewrite span_app. Qed.

Lemma split_colon_last s : no_colon s → split_colon s = (s, None).
Proof. intros H%no_colon_stop. unfold split_colon. by rewrite span_all. Qed.

Lemma strdup_plenty s m : plenty m → ∃ m', strdup s m = (Some s, m') ∧ plenty m'.
Proof. intros Hm. unfold strdup. destruct (malloc_plenty m Hm) as (m'&->&?). by exists m'. Qed.

Definition record_text (user role type : string) (mls_ : option string) : string :=
  match mls_ with
  | Some l => colon user (colon role (colon type l))
  | None => colon user (colon role type)
  end.

Lemma not_none_text user role : (strcmp (colon user role) "<<none>>" =? 0) = false.
Proof.
  apply Z.eqb_neq. intros E%strcmp_eq. assert (Hin : ":"%char ∈ list_ascii_of_string "<<none>>").
  { rewrite <- E. unfold colon. rewrite !ascii_app. apply elem_of_app. right. left. }
  cbn in Hin. by repeat (apply elem_of_cons in Hin as [[=]|Hin]); apply not_elem_of_nil in Hin.
Qed.

(** A text of three or four fields is taken apart. *)
Lemma from_string_fields user role type mls_ m : no_colon user → no_colon role → no_colon type → plenty m →
  ∃ m', sepol_context_from_string (record_text user role type mls_) m =
    (STATUS_SUCCESS, Some (CR (Some user) (Some role) (Some type) mls_), m') ∧ plenty m'.
Proof.
  intros Hu Hr Ht Hm. unfold sepol_context_from_string.
  assert (Hshape : ∃ rest, record_text user role type mls_ = colon user (colon role rest) ∧
    split_colon rest = (type, mls_)).
  { destruct mls_ as [l|]; eexists; (split; [done|]); [by apply split_colon_field|by apply split_colon_last]. }
  destruct Hshape as (rest&->&Hsplit). rewrite not_none_text. unfold sepol_context_create.
  destruct (malloc_plenty m Hm) as (m1&->&Hm1). cbn [negb].
  destruct (strdup_plenty (colon user (colon role rest)) m1 Hm1) as (m2&->&Hm2). rewrite split_colon_field by done.
  unfold sepol_context_set_user. destruct (strdup_plenty user m2 Hm2) as (m3&->&Hm3). cbn [or_err Z.ltb STATUS_SUCCESS].
  rewrite split_colon_field by done.
  unfold sepol_context_set_role. destruct (strdup_plenty role m3 Hm3) as (m4&->&Hm4). cbn [or_err].
  rewrite Hsplit. unfold sepol_context_set_type. destruct (strdup_plenty type m4 Hm4) as (m5&E5&Hm5).
  destruct mls_ as [l|]; rewrite E5; cbn [or_err]; [|by exists m5].
  unfold sepol_context_set_mls. destruct (strdup_plenty l m5 Hm5) as (m6&->&Hm6). by exists m6.
Qed.

Lemma safe_sum_spec l : ∀ i sum, 0 <= sum → Forall (λ a, 0 <= a) l → sum + foldr Z.add 0 l < 2 ^ 32 →
  safe_sum i sum l = (sum + foldr Z.add 0 l, 0).
Proof.
  induction l as [|a l IH]; intros i sum Hs Hl Hsum; cbn [safe_sum foldr] in *; [by rewrite Z.add_0_r|].
  apply Forall_cons in Hl as [Ha Hl]. assert (0 <= foldr Z.add 0 l) by (clear -Hl; induction Hl; cbn; lia).
  rewrite u32_small by lia. destruct (Z.ltb_spec (sum + a) a); [lia|]. rewrite IH; [f_equal; lia|lia|done|lia].
Qed.

Lemma slen_pos s : 0 <= slen s.
Proof. unfold slen. lia. Qed.

Lemma slen_colon a b : slen (colon a b) = slen a + 1 + slen b.
Proof. unfold colon. rewrite !slen_app. change (slen ":") with 1. lia. Qed.

(** A full record is written into a buffer of exactly its size. *)
Lemma record_to_string user role type mls_ m : slen (record_text user role type mls_) + 1 < 2 ^ 32 → plenty m →
  ∃ m', sepol_context_to_string (CR (Some user) (Some role) (Some type) mls_) m =
    Ret (STATUS_SUCCESS, Some (record_text user role type mls_), m') ∧ plenty m'.
Proof.
  intros Hlen Hm. unfold sepol_context_to_string. cbn [con_user con_role con_type con_mls mbind outcome_bind deref].
  destruct (malloc_plenty m Hm) as (m'&E&Hm'). exists m'. split; [|done].
  pose proof (slen_pos user). pose proof (slen_pos role). pose proof (slen_pos type).
  destruct mls_ as [l|]; cbn [record_text] in *; rewrite !slen_colon in Hlen; [pose proof (slen_pos l)|].
  all: rewrite safe_sum_spec; [|lia|repeat constructor; lia|cbn [foldr]; lia].
  all: cbn [foldr]; rewrite E; cbn [Z.eqb negb]; rewrite !slen_colon.
  all: match goal with |- context [(?x <? 0) || (?y <=? ?z)] => destruct (Z.ltb_spec x 0), (Z.leb_spec y z); try lia end; done.
Qed.

Lemma record_roundtrip user role type mls_ m : no_colon user → no_colon role → no_colon type →
  slen (record_text user role type mls_) + 1 < 2 ^ 32 → plenty m →
  let con := CR (Some user) (Some role) (Some type) mls_ in
  ∃ text m', sepol_context_to_string con m = Ret (STATUS_SUCCESS, Some text, m') ∧ plenty m' ∧
  ∀ m1, plenty m1 → ∃ m2, sepol_context_from_string text m1 = (STATUS_SUCCESS, Some con, m2) ∧ plenty m2.
Proof.
  intros Hu Hr Ht Hlen Hm con. destruct (record_to_string user role type mls_ m Hlen Hm) as (m'&E&Hm').
  exists (record_text user role type mls_), m'. split; [done|]. split; [done|]. intros m1. by apply from_string_fields.
Qed.

(** ** Contexts *)

(** The text fills its buffer, whose length is reported. *)
Lemma context_text_fits p c m rc text len m' :
  context_to_string p c m = Ret (rc, Some (text, len), m') → len = slen text + 1.
Proof.
  intros H. unfold context_to_string in H. apply ret_bind_inv in H as (u&_&H). apply ret_bind_inv in H as (r&_&H).
  apply ret_bind_inv in H as (t&_&H). apply ret_bind_inv in H as (n&Hn&H). destruct (malloc m) as [[] m1]; [|done].
  cbn [negb] in H. apply ret_bind_inv in H as (mt&Hmt&H). injection H as <- <- <- <-.
  pose proof (context_text_length p c n mt Hn Hmt) as E. rewrite slen_app, !slen_colon. lia.
Qed.

(** What is made from a record is valid, whatever the record and the memory. *)
Lemma from_record_valid p record m rc c m' :
  context_from_record p record m = Ret (rc, Some c, m') → rc = STATUS_SUCCESS ∧ context_is_valid p c = Ret true.
Proof.
  intros H. unfold context_from_record in H. apply ret_bind_inv in H as (r&_&H). apply ret_bind_inv in H as ([u m1]&_&H).
  apply ret_bind_inv in H as ([ro m2]&_&H). apply ret_bind_inv in H as ([t m3]&_&H). destruct (malloc m3) as [ok m4].
  destruct u, ro, t, ok; try done. apply ret_bind_inv in H as ([[rc1 c1] m5]&_&H). destruct c1 as [c1|]; [|done].
  apply ret_bind_inv in H as ([rc2 [c2 m6]]&_&H). destruct (rc2 <? 0); [done|].
  apply ret_bind_inv in H as ([]&Hv&H); [|done]. by injection H as <- <- <-.
Qed.

Lemma from_string_valid p s n m rc c m' :
  context_from_string p s n m = Ret (rc, Some c, m') → rc = STATUS_SUCCESS ∧ context_is_valid p c = Ret true.
Proof.
  intros H. unfold context_from_string in H. destruct (zero_or_saturated n); [done|]. destruct (malloc m) as [[] m1]; [|done].
  cbn [negb] in H. destruct (slen s + 1 <? n); [done|]. destruct (sepol_context_from_string _ m1) as [[rc1 r] m2].
  destruct (rc1 <? 0); [done|]. apply ret_bind_inv in H as ([[rc2 c2] m3]&H2&H). destruct (rc2 <? 0); [done|].
  injection H as <- -> <-. split; [done|]. by eapply from_record_valid.
Qed.

(** A context whose names lead back to its values. *)
Record named_by (p : policydb) (c : context_struct) (u r t : string) : Prop := {
  nb_user : ∃ q d, hashtab_search (table (p_users p)) u = Some q ∧ at_index (user_mem p) q = Some d ∧ u_value d = user c;
  nb_role : ∃ q d, hashtab_search (table (p_roles p)) r = Some q ∧ at_index (role_mem p) q = Some d ∧ r_value d = role c;
  nb_type : ∃ q d, hashtab_search (table (p_types p)) t = Some q ∧ at_index (type_mem p) q = Some d ∧ t_value d = type c ∧
    flavor d ≠ TYPE_ATTRIB;
  nb_plain : no_colon u ∧ no_colon r ∧ no_colon t;
  nb_valid : context_is_valid p c = Ret true;
  nb_range : if mls p =? 0 then range c = mls_range_init else range_readable p (range c)
}.

Lemma names_context p c u r t l m : named_by p c u r t → bool_decide (l = None) = (mls p =? 0) →
  context_of_names p u r t l m = Ret (0, Some (CTX (user c) (role c) (type c) mls_range_init), m).
Proof.
  intros [(q1&d1&E1&F1&V1) (q2&d2&E2&F2&V2) (q3&d3&E3&F3&V3&Hfl) _ _ _] Hl. unfold context_of_names.
  rewrite E1, F1. cbn [mbind outcome_bind deref]. rewrite E2, F2. cbn [mbind outcome_bind deref].
  rewrite E3, F3. cbn [mbind outcome_bind deref]. destruct (Z.eqb_spec (flavor d3) TYPE_ATTRIB); [done|].
  rewrite V1, V2, V3. destruct (mls p =? 0), l; done.
Qed.

Lemma from_record_named p c u r t l m : named_by p c u r t → plenty m → bool_decide (l = None) = (mls p =? 0) →
  (∀ text, l = Some text → mls p ≠ 0 ∧ ∀ c0 m0, range c0 = mls_range_init → plenty m0 →
     ∃ m1, mls_from_string p text (c0, m0) = Ret (STATUS_SUCCESS, (set_range c0 (range c), m1)) ∧ plenty m1) →
  ∃ m', context_from_record p (Some (CR (Some u) (Some r) (Some t) l)) m = Ret (STATUS_SUCCESS, Some c, m') ∧ plenty m'.
Proof.
  intros Hn Hm Hl Htext. unfold context_from_record, dup_field. cbn [deref mbind outcome_bind con_user con_role con_type con_mls].
  destruct (strdup_plenty u m Hm) as (m1&->&Hm1). cbn [mbind outcome_bind mret outcome_ret].
  destruct (strdup_plenty r m1 Hm1) as (m2&->&Hm2). cbn [mbind outcome_bind mret outcome_ret].
  destruct (strdup_plenty t m2 Hm2) as (m3&->&Hm3). cbn [mbind outcome_bind mret outcome_ret]. destruct (malloc_plenty m3 Hm3) as (m4&->&Hm4).
  rewrite (names_context p c) by done. cbn [mbind outcome_bind].
  pose proof (nb_range _ _ _ _ _ Hn) as Hr. pose proof (nb_valid _ _ _ _ _ Hn) as Hv.
  destruct l as [text|].
  - destruct (Htext text eq_refl) as [_ Hfrom]. destruct (Hfrom (CTX (user c) (role c) (type c) mls_range_init) m4 eq_refl Hm4) as (m5&->&Hm5).
    cbn [mbind outcome_bind STATUS_SUCCESS Z.ltb Z.compare]. unfold set_range; cbn [user role type]. destruct c as [cu cr ct crg]; cbn in *.
    rewrite Hv. by exists m5.
  - cbn [bool_decide] in Hl. rewrite bool_decide_true in Hl by done. rewrite <- Hl in Hr.
    destruct c as [cu cr ct crg]; cbn in *. subst crg. rewrite Hv. by exists m4.
Qed.

Lemma substring_all s : ∀ n, (String.length s <= n)%nat → String.substring 0 n s = s.
Proof. induction s as [|c s IH]; intros [|n] Hn; cbn in *; try lia; [done..|]. by rewrite IH by lia. Qed.

Lemma record_text_mls u r t text : (colon u (colon r t) +:+ String ":" text)%string = record_text u r t (Some text).
Proof. cbn [record_text]. unfold colon. by rewrite !append_assoc. Qed.

(** A context is read back from its text. *)
Lemma context_text_roundtrip p c u r t m rc text len m' :
  val_name p SYM_USERS (user c - 1) = Ret u → val_name p SYM_ROLES (role c - 1) = Ret r →
  val_name p SYM_TYPES (type c - 1) = Ret t → named_by p c u r t →
  context_to_string p c m = Ret (rc, Some (text, len), m') → len < 2 ^ 32 - 1 →
  ∀ n m1, slen text <= n <= len → plenty m1 →
  ∃ m2, context_from_string p text n m1 = Ret (STATUS_SUCCESS, Some c, m2) ∧ plenty m2.
Proof.
  intros Hu Hr Ht Hn H Hlen n m1 Hn1 Hm1. pose proof (context_text_fits _ _ _ _ _ _ _ H) as Hfit.
  pose proof Hn as [_ _ _ (Pu&Pr&Pt) _ Hrange].
  assert (Htext : ∃ l, text = record_text u r t l ∧ bool_decide (l = None) = (mls p =? 0) ∧
    ∀ lt, l = Some lt → mls p ≠ 0 ∧ ∀ c0 m0, range c0 = mls_range_init → plenty m0 →
     ∃ m1, mls_from_string p lt (c0, m0) = Ret (STATUS_SUCCESS, (set_range c0 (range c), m1)) ∧ plenty m1).
  { unfold context_to_string in H. rewrite Hu, Hr, Ht in H. cbn [mbind outcome_bind] in H.
    apply ret_bind_inv in H as (k&_&H). destruct (malloc m) as [[] m0']; [|done]. cbn [negb] in H.
    apply ret_bind_inv in H as (mt&Hmt&H). injection H as <- <- <- <-. destruct (Z.eqb_spec (mls p) 0) as [E|E].
    - exists None. unfold mls_sid_to_context in Hmt. rewrite E in Hmt. injection Hmt as <-. split_and!; [by rewrite append_empty|done|done].
    - destruct (range_text_read p c (CTX 0 0 0 mls_range_init) [] E Hrange eq_refl (Forall_nil_2 _)) as (lt&_&El&_&_).
      rewrite El in Hmt. injection Hmt as <-. exists (Some lt). split_and!; [by rewrite record_text_mls|done|].
      intros lt' [= <-]. split; [done|]. intros c0 m0 Hc0 Hm0.
      destruct (range_text_read p c c0 m0 E Hrange Hc0 Hm0) as (lt2&m2&El2&E2&Hm2). rewrite El in El2. injection El2 as <-. by exists m2. }
  destruct Htext as (l&->&Hl&Hread). unfold context_from_string.
  assert (Hpos : 0 < slen (record_text u r t l)).
  { pose proof (slen_pos u). destruct l as [l|]; cbn [record_text]; rewrite !slen_colon; [pose proof (slen_pos l)|];
      pose proof (slen_pos r); pose proof (slen_pos t); lia. }
  assert (zero_or_saturated n = false) as ->.
  { unfold zero_or_saturated, is_saturated. apply orb_false_iff. split; apply Z.eqb_neq; lia. }
  destruct (malloc_plenty m1 Hm1) as (m2&->&Hm2). cbn [negb]. destruct (Z.ltb_spec (slen (record_text u r t l) + 1) n); [lia|].
  rewrite substring_all by (unfold slen in *; lia).
  destruct (from_string_fields u r t l m2 Pu Pr Pt Hm2) as (m3&->&Hm3). cbn [STATUS_SUCCESS Z.ltb Z.compare].
  destruct (from_record_named p c u r t l m3 Hn Hm3 Hl Hread) as (m4&->&Hm4). by exists m4.
Qed.
