(* ===== verification/Records.v ===== *)
(** * Records of the library interface (port_record.c, iface_record.c, node_record.c,
      ibpkey_record.c, ibendport_record.c, boolean_record.c, user_record.c)

    A record is what a client of libsepol passes for a port, an interface, a node,
    an InfiniBand key or port, a boolean or a user, and a key says which one is
    meant. The functions here create, copy, compare and change them; a context in a
    record is one of ContextText.v.

    An address is the list of its bytes; [inet_pton] and [inet_ntop] of the C
    library are arguments. *)

From S2P Require Import Prelude Policyfile Ebitmap Hashtab Avtab Context Policydb Mls LabelFile ContextText.

(** ** Functions that return [STATUS_ERR] or a result

    [None] is [STATUS_ERR]; [Some a] is [STATUS_SUCCESS] with the result [a]. *)

Definition E (A : Type) : Type := mem → outcome (option A * mem).

#[export] Instance E_ret : MRet E := λ A a m, Ret (Some a, m).
#[export] Instance E_bind : MBind E := λ A B f c m,
  '(o, m) ← c m;
  match o with Some a => f a m | None => Ret (None, m) end.

Definition err {A} : E A := λ m, Ret (None, m).
Definition e_lift {A} (o : outcome A) : E A := λ m, a ← o; Ret (Some a, m).

(** A call after whose failure the code goes on with what was never set. *)
Definition or_undef {A} (c : E A) : E A := λ m,
  '(o, m) ← c m; a ← deref o; Ret (Some a, m).

(** An allocation whose failure is [STATUS_ERR]. *)
Definition e_malloc : E () := λ m, let '(ok, m) := malloc m in Ret (if ok then Some () else None, m).

(** [strdup] of a pointer that may be NULL. *)
Definition e_strdup (s : option string) : E string := λ m, dup_field s m.

Definition clone_con (con : option sepol_context) : E (option sepol_context) := λ m,
  '(rc, c, m) ← sepol_context_clone con m; Ret (if rc <? 0 then None else Some c, m).

(** ** Ports *)

Definition SEPOL_PROTO_UDP : Z := 0.
Definition SEPOL_PROTO_TCP : Z := 1.
Definition SEPOL_PROTO_DCCP : Z := 2.

Record sepol_port := PORT { port_low : Z; port_high : Z; port_proto : Z; port_con : option sepol_context }.
Record sepol_port_key := PORT_KEY { pk_low : Z; pk_high : Z; pk_proto : Z }.

Definition sepol_port_key_create (low high proto : Z) : E sepol_port_key := _ ← e_malloc; mret (PORT_KEY low high proto).
Definition sepol_port_key_unpack (key : sepol_port_key) : Z * Z * Z := (pk_low key, pk_high key, pk_proto key).
Definition sepol_port_key_extract (port : sepol_port) : E sepol_port_key :=
  sepol_port_key_create (port_low port) (port_high port) (port_proto port).

Definition sepol_port_compare (port : sepol_port) (key : sepol_port_key) : Z :=
  if (port_low port =? pk_low key) && (port_high port =? pk_high key) && (port_proto port =? pk_proto key) then 0
  else if port_low port <? pk_low key then -1
  else if pk_low key <? port_low port then 1
  else if port_high port <? pk_high key then -1
  else if pk_high key <? port_high port then 1
  else if port_proto port <? pk_proto key then -1
  else 1.

Definition sepol_port_compare2 (port port2 : sepol_port) : Z :=
  if (port_low port =? port_low port2) && (port_high port =? port_high port2) && (port_proto port =? port_proto port2) then 0
  else if port_low port <? port_low port2 then -1
  else if port_low port2 <? port_low port then 1
  else if port_high port <? port_high port2 then -1
  else if port_high port2 <? port_high port then 1
  else if port_proto port <? port_proto port2 then -1
  else 1.

Definition sepol_port_set_port (port : sepol_port) (port_num : Z) : sepol_port :=
  PORT port_num port_num (port_proto port) (port_con port).
Definition sepol_port_set_range (port : sepol_port) (low high : Z) : sepol_port :=
  PORT low high (port_proto port) (port_con port).
Definition sepol_port_set_proto (port : sepol_port) (proto : Z) : sepol_port :=
  PORT (port_low port) (port_high port) proto (port_con port).

Definition sepol_port_get_proto_str (proto : Z) : string :=
  if proto =? SEPOL_PROTO_UDP then "udp"
  else if proto =? SEPOL_PROTO_TCP then "tcp"
  else if proto =? SEPOL_PROTO_DCCP then "dccp"
  else "???".

Definition sepol_port_create : E sepol_port := _ ← e_malloc; mret (PORT 0 0 SEPOL_PROTO_UDP None).

Definition sepol_port_clone (port : sepol_port) : E sepol_port :=
  _ ← sepol_port_create;
  con ← match port_con port with None => mret None | Some _ => clone_con (port_con port) end;
  mret (PORT (port_low port) (port_high port) (port_proto port) con).

Definition sepol_port_set_con (port : sepol_port) (con : option sepol_context) : E sepol_port :=
  newcon ← clone_con con; mret (PORT (port_low port) (port_high port) (port_proto port) newcon).

(** ** Interfaces *)

Record sepol_iface := IFACE { if_name : option string; netif_con : option sepol_context; netmsg_con : option sepol_context }.
Record sepol_iface_key := IFACE_KEY { ik_name : string }.

Definition sepol_iface_key_create (name : option string) : E sepol_iface_key :=
  _ ← e_malloc; n ← e_strdup name; mret (IFACE_KEY n).
Definition sepol_iface_key_extract (iface : sepol_iface) : E sepol_iface_key := sepol_iface_key_create (if_name iface).

(** [strcmp] of pointers that may be NULL. *)
Definition compare_names (a b : option string) : outcome Z := x ← deref a; y ← deref b; Ret (strcmp x y).

Definition sepol_iface_compare (iface : sepol_iface) (key : sepol_iface_key) : outcome Z :=
  compare_names (if_name iface) (Some (ik_name key)).
Definition sepol_iface_compare2 (iface iface2 : sepol_iface) : outcome Z := compare_names (if_name iface) (if_name iface2).

Definition sepol_iface_create : E sepol_iface := _ ← e_malloc; mret (IFACE None None None).
Definition sepol_iface_set_name (iface : sepol_iface) (name : option string) : E sepol_iface :=
  n ← e_strdup name; mret (IFACE (Some n) (netif_con iface) (netmsg_con iface)).
Definition sepol_iface_set_ifcon (iface : sepol_iface) (con : option sepol_context) : E sepol_iface :=
  newcon ← clone_con con; mret (IFACE (if_name iface) newcon (netmsg_con iface)).
Definition sepol_iface_set_msgcon (iface : sepol_iface) (con : option sepol_context) : E sepol_iface :=
  newcon ← clone_con con; mret (IFACE (if_name iface) (netif_con iface) newcon).

Definition sepol_iface_clone (iface : sepol_iface) : E sepol_iface :=
  new_iface ← sepol_iface_create;
  new_iface ← sepol_iface_set_name new_iface (if_name iface);
  ifcon ← match netif_con iface with None => mret None | Some _ => clone_con (netif_con iface) end;
  msgcon ← match netmsg_con iface with None => mret None | Some _ => clone_con (netmsg_con iface) end;
  mret (IFACE (if_name new_iface) ifcon msgcon).

(** ** Nodes *)

Definition SEPOL_PROTO_IP4 : Z := 0.
Definition SEPOL_PROTO_IP6 : Z := 1.

(** An address with its size: NULL with size 0 is the empty list. *)
Record sepol_node := NODE { nd_addr : list Z; nd_mask : list Z; nd_proto : Z; nd_con : option sepol_context }.
Record sepol_node_key := NODE_KEY { nk_addr : list Z; nk_mask : list Z; nk_proto : Z }.

(** The size of an address; [None] is an unsupported protocol. *)
Definition addr_size (proto : Z) : option Z :=
  if proto =? SEPOL_PROTO_IP4 then Some 4 else if proto =? SEPOL_PROTO_IP6 then Some 16 else None.

Definition sepol_node_get_proto_str (proto : Z) : string :=
  if proto =? SEPOL_PROTO_IP4 then "ipv4" else if proto =? SEPOL_PROTO_IP6 then "ipv6" else "???".

Definition node_alloc_addr (proto : Z) : E Z :=
  match addr_size proto with None => err | Some sz => _ ← e_malloc; mret sz end.
Definition node_alloc_addr_string (proto : Z) : E () :=
  match addr_size proto with None => err | Some _ => e_malloc end.

(** [memcmp] of blocks of the same size. *)
Fixpoint memcmp (a b : list Z) : Z :=
  match a, b with
  | x :: a', y :: b' => if x =? y then memcmp a' b' else if x <? y then -1 else 1
  | _, _ => 0
  end.

Definition node_compare (addr mask addr2 mask2 : list Z) : Z :=
  if (length addr <? length addr2)%nat || (length mask <? length mask2)%nat then -1
  else if (length addr2 <? length addr)%nat || (length mask2 <? length mask)%nat then 1
  else
    let rc1 := memcmp addr addr2 in
    let rc2 := memcmp mask mask2 in
    if negb (rc2 =? 0) then rc2 else rc1.

Definition sepol_node_compare (node : sepol_node) (key : sepol_node_key) : Z :=
  node_compare (nd_addr node) (nd_mask node) (nk_addr key) (nk_mask key).
Definition sepol_node_compare2 (node node2 : sepol_node) : Z :=
  node_compare (nd_addr node) (nd_mask node) (nd_addr node2) (nd_mask node2).

Definition sepol_node_key_unpack (key : sepol_node_key) : list Z * list Z * Z := (nk_addr key, nk_mask key, nk_proto key).

(** Both blocks are requested before either is tested. *)
Definition two_mallocs : E () := λ m,
  let '(ok1, m) := malloc m in let '(ok2, m) := malloc m in Ret (if ok1 && ok2 then Some () else None, m).

Definition sepol_node_key_extract (node : sepol_node) : E sepol_node_key :=
  _ ← e_malloc; _ ← two_mallocs; mret (NODE_KEY (nd_addr node) (nd_mask node) (nd_proto node)).

Definition sepol_node_create : E sepol_node := _ ← e_malloc; mret (NODE [] [] SEPOL_PROTO_IP4 None).

Definition sepol_node_get_addr_bytes (node : sepol_node) : E (list Z) := _ ← e_malloc; mret (nd_addr node).
Definition sepol_node_get_mask_bytes (node : sepol_node) : E (list Z) := _ ← e_malloc; mret (nd_mask node).
Definition sepol_node_set_addr_bytes (node : sepol_node) (addr : list Z) : E sepol_node :=
  _ ← e_malloc; mret (NODE addr (nd_mask node) (nd_proto node) (nd_con node)).
Definition sepol_node_set_mask_bytes (node : sepol_node) (mask : list Z) : E sepol_node :=
  _ ← e_malloc; mret (NODE (nd_addr node) mask (nd_proto node) (nd_con node)).
Definition sepol_node_set_proto (node : sepol_node) (proto : Z) : sepol_node :=
  NODE (nd_addr node) (nd_mask node) proto (nd_con node).

Definition sepol_node_set_con (node : sepol_node) (con : option sepol_context) : E sepol_node :=
  newcon ← clone_con con; mret (NODE (nd_addr node) (nd_mask node) (nd_proto node) newcon).

Definition sepol_node_clone (node : sepol_node) : E sepol_node :=
  _ ← sepol_node_create;
  _ ← two_mallocs;
  con ← match nd_con node with None => mret None | Some _ => clone_con (nd_con node) end;
  mret (NODE (nd_addr node) (nd_mask node) (nd_proto node) con).

Section text_addresses.
(** [inet_pton(AF_INET...)] or, with [true], [AF_INET6]; [None] is a result that is not
    positive, or NULL. *)
Context (inet_pton : bool → string → option (list Z)) (inet_ntop : bool → list Z → option string).

Definition or_status_err {A} (o : option A) : E A := match o with Some a => mret a | None => err end.

Definition node_parse_addr (addr_str : string) (proto : Z) : E (list Z) :=
  if proto =? SEPOL_PROTO_IP4 then or_status_err (inet_pton false addr_str)
  else if proto =? SEPOL_PROTO_IP6 then or_status_err (inet_pton true addr_str)
  else err.

(** A block that is shorter than an address of the protocol is read out of bounds. *)
Definition node_expand_addr (addr_bytes : list Z) (proto : Z) : E string :=
  match addr_size proto with
  | None => err
  | Some sz =>
      if Z.of_nat (length addr_bytes) <? sz then e_lift Undef
      else or_status_err (inet_ntop (proto =? SEPOL_PROTO_IP6) (take (Z.to_nat sz) addr_bytes))
  end.

Definition sepol_node_key_create (addr mask : string) (proto : Z) : E sepol_node_key :=
  _ ← e_malloc;
  _ ← node_alloc_addr proto;
  a ← node_parse_addr addr proto;
  _ ← node_alloc_addr proto;
  k ← node_parse_addr mask proto;
  mret (NODE_KEY a k proto).

Definition sepol_node_get_addr (node : sepol_node) : E string :=
  _ ← node_alloc_addr_string (nd_proto node); node_expand_addr (nd_addr node) (nd_proto node).
Definition sepol_node_get_mask (node : sepol_node) : E string :=
  _ ← node_alloc_addr_string (nd_proto node); node_expand_addr (nd_mask node) (nd_proto node).

Definition sepol_node_set_addr (node : sepol_node) (proto : Z) (addr : string) : E sepol_node :=
  _ ← node_alloc_addr proto;
  a ← node_parse_addr addr proto;
  mret (NODE a (nd_mask node) (nd_proto node) (nd_con node)).
Definition sepol_node_set_mask (node : sepol_node) (proto : Z) (mask : string) : E sepol_node :=
  _ ← node_alloc_addr proto;
  k ← node_parse_addr mask proto;
  mret (NODE (nd_addr node) k (nd_proto node) (nd_con node)).

(** *** InfiniBand keys (ibpkey_record.c) *)

Record sepol_ibpkey := IBPKEY { ib_prefix : Z; ib_low : Z; ib_high : Z; ib_con : option sepol_context }.
Record sepol_ibpkey_key := IBPKEY_KEY { ibk_prefix : Z; ibk_low : Z; ibk_high : Z }.

(** The first eight bytes of an IPv6 address as a number of the little-endian machine. *)
Definition ibpkey_parse_subnet_prefix (subnet_prefix_str : string) : E Z :=
  a ← or_status_err (inet_pton true subnet_prefix_str); mret (le_value (take 8 a)).
Definition ibpkey_expand_subnet_prefix (subnet_prefix : Z) : E string :=
  or_status_err (inet_ntop true (le_bytes 8 subnet_prefix ++ replicate 8 0)).

Definition sepol_ibpkey_key_create (subnet_prefix : string) (low high : Z) : E sepol_ibpkey_key :=
  _ ← e_malloc; prefix ← ibpkey_parse_subnet_prefix subnet_prefix; mret (IBPKEY_KEY prefix low high).

(** The status of the first call is not looked at: without a text the buffer is not
    initialised. *)
Definition sepol_ibpkey_key_extract (ibpkey : sepol_ibpkey) : E sepol_ibpkey_key :=
  s ← or_undef (ibpkey_expand_subnet_prefix (ib_prefix ibpkey));
  sepol_ibpkey_key_create s (ib_low ibpkey) (ib_high ibpkey).

Definition sepol_ibpkey_get_subnet_prefix (ibpkey : sepol_ibpkey) : E string :=
  _ ← e_malloc; ibpkey_expand_subnet_prefix (ib_prefix ibpkey).
Definition sepol_ibpkey_set_subnet_prefix_bytes (ibpkey : sepol_ibpkey) (subnet_prefix : Z) : sepol_ibpkey :=
  IBPKEY subnet_prefix (ib_low ibpkey) (ib_high ibpkey) (ib_con ibpkey).
Definition sepol_ibpkey_set_subnet_prefix (ibpkey : sepol_ibpkey) (s : string) : E sepol_ibpkey :=
  prefix ← ibpkey_parse_subnet_prefix s; mret (sepol_ibpkey_set_subnet_prefix_bytes ibpkey prefix).
End text_addresses.

Definition sepol_ibpkey_key_unpack (key : sepol_ibpkey_key) : Z * Z * Z := (ibk_prefix key, ibk_low key, ibk_high key).

(** The two comparisons, on what a record and a key have in common. *)
Definition ibpkey_compare (prefix low high prefix2 low2 high2 : Z) : Z :=
  if prefix <? prefix2 then -1
  else if prefix2 <? prefix then 1
  else if low <? low2 then -1
  else if low2 <? low then 1
  else if high <? high2 then -1
  else if high2 <? high then 1
  else 0.
Definition sepol_ibpkey_compare (ibpkey : sepol_ibpkey) (key : sepol_ibpkey_key) : Z :=
  ibpkey_compare (ib_prefix ibpkey) (ib_low ibpkey) (ib_high ibpkey) (ibk_prefix key) (ibk_low key) (ibk_high key).
Definition sepol_ibpkey_compare2 (ibpkey ibpkey2 : sepol_ibpkey) : Z :=
  ibpkey_compare (ib_prefix ibpkey) (ib_low ibpkey) (ib_high ibpkey) (ib_prefix ibpkey2) (ib_low ibpkey2) (ib_high ibpkey2).

Definition sepol_ibpkey_set_pkey (ibpkey : sepol_ibpkey) (pkey_num : Z) : sepol_ibpkey :=
  IBPKEY (ib_prefix ibpkey) pkey_num pkey_num (ib_con ibpkey).
Definition sepol_ibpkey_set_range (ibpkey : sepol_ibpkey) (low high : Z) : sepol_ibpkey :=
  IBPKEY (ib_prefix ibpkey) low high (ib_con ibpkey).
Definition sepol_ibpkey_create : E sepol_ibpkey := _ ← e_malloc; mret (IBPKEY 0 0 0 None).
Definition sepol_ibpkey_set_con (ibpkey : sepol_ibpkey) (con : option sepol_context) : E sepol_ibpkey :=
  newcon ← clone_con con; mret (IBPKEY (ib_prefix ibpkey) (ib_low ibpkey) (ib_high ibpkey) newcon).
Definition sepol_ibpkey_clone (ibpkey : sepol_ibpkey) : E sepol_ibpkey :=
  _ ← sepol_ibpkey_create;
  con ← match ib_con ibpkey with None => mret None | Some _ => clone_con (ib_con ibpkey) end;
  mret (IBPKEY (ib_prefix ibpkey) (ib_low ibpkey) (ib_high ibpkey) con).

(** ** InfiniBand ports (ibendport_record.c)

    The name of a device is kept in a block of [IB_DEVICE_NAME_MAX] bytes, which
    [strncpy] fills: with that many characters it has no terminator. *)

Definition dev_block (name : string) : string := String.substring 0 (Z.to_nat IB_DEVICE_NAME_MAX) name.

(** [strcmp] of two such blocks reads behind them when they are full and the same. *)
Definition strcmp_dev (a b : string) : outcome Z :=
  if streq a b && (IB_DEVICE_NAME_MAX <=? slen a) then Undef else Ret (strcmp a b).

Record sepol_ibendport := IBEP { ep_dev : option string; ep_port : Z; ep_con : option sepol_context }.
Record sepol_ibendport_key := IBEP_KEY { epk_dev : string; epk_port : Z }.

Definition sepol_ibendport_alloc_ibdev_name : E () := e_malloc.

(** A copy of a name into a new block; NULL is undefined behaviour. *)
Definition copy_dev (name : option string) : E string :=
  _ ← sepol_ibendport_alloc_ibdev_name; n ← e_lift (deref name); mret (dev_block n).

(** When the second allocation fails, the key is freed with a pointer that was never
    set. *)
Definition sepol_ibendport_key_create (ibdev_name : option string) (port : Z) : E sepol_ibendport_key :=
  _ ← e_malloc; n ← or_undef (copy_dev ibdev_name); mret (IBEP_KEY n port).
Definition sepol_ibendport_key_unpack (key : sepol_ibendport_key) : string * Z := (epk_dev key, epk_port key).
Definition sepol_ibendport_key_extract (ibendport : sepol_ibendport) : E sepol_ibendport_key :=
  sepol_ibendport_key_create (ep_dev ibendport) (ep_port ibendport).

Definition ibendport_compare (dev : option string) (port : Z) (dev2 : option string) (port2 : Z) : outcome Z :=
  a ← deref dev; b ← deref dev2;
  rc ← strcmp_dev a b;
  mret (if (port =? port2) && (rc =? 0) then 0 else if port <? port2 then -1 else if port2 <? port then 1 else rc).
Definition sepol_ibendport_compare (ibendport : sepol_ibendport) (key : sepol_ibendport_key) : outcome Z :=
  ibendport_compare (ep_dev ibendport) (ep_port ibendport) (Some (epk_dev key)) (epk_port key).
Definition sepol_ibendport_compare2 (ibendport ibendport2 : sepol_ibendport) : outcome Z :=
  ibendport_compare (ep_dev ibendport) (ep_port ibendport) (ep_dev ibendport2) (ep_port ibendport2).

Definition sepol_ibendport_set_port (ibendport : sepol_ibendport) (port : Z) : sepol_ibendport :=
  IBEP (ep_dev ibendport) port (ep_con ibendport).
Definition sepol_ibendport_get_ibdev_name (ibendport : sepol_ibendport) : E string := copy_dev (ep_dev ibendport).
Definition sepol_ibendport_set_ibdev_name (ibendport : sepol_ibendport) (ibdev_name : option string) : E sepol_ibendport :=
  n ← copy_dev ibdev_name; mret (IBEP (Some n) (ep_port ibendport) (ep_con ibendport)).
Definition sepol_ibendport_create : E sepol_ibendport := _ ← e_malloc; mret (IBEP None 0 None).
Definition sepol_ibendport_clone (ibendport : sepol_ibendport) : E sepol_ibendport :=
  _ ← sepol_ibendport_create;
  n ← copy_dev (ep_dev ibendport);
  con ← match ep_con ibendport with None => mret None | Some _ => clone_con (ep_con ibendport) end;
  mret (IBEP (Some n) (ep_port ibendport) con).
Definition sepol_ibendport_set_con (ibendport : sepol_ibendport) (con : option sepol_context) : E sepol_ibendport :=
  newcon ← clone_con con; mret (IBEP (ep_dev ibendport) (ep_port ibendport) newcon).

(** ** Booleans *)

Record sepol_bool := BOOL { bl_name : option string; bl_value : Z }.
Record sepol_bool_key := BOOL_KEY { bk_name : string }.

Definition sepol_bool_key_create (name : option string) : E sepol_bool_key :=
  _ ← e_malloc; n ← e_strdup name; mret (BOOL_KEY n).
Definition sepol_bool_key_extract (boolean : sepol_bool) : E sepol_bool_key := sepol_bool_key_create (bl_name boolean).
Definition sepol_bool_compare (boolean : sepol_bool) (key : sepol_bool_key) : outcome Z :=
  compare_names (bl_name boolean) (Some (bk_name key)).
Definition sepol_bool_compare2 (boolean boolean2 : sepol_bool) : outcome Z := compare_names (bl_name boolean) (bl_name boolean2).
Definition sepol_bool_create : E sepol_bool := _ ← e_malloc; mret (BOOL None 0).
Definition sepol_bool_set_name (boolean : sepol_bool) (name : option string) : E sepol_bool :=
  n ← e_strdup name; mret (BOOL (Some n) (bl_value boolean)).
Definition sepol_bool_set_value (boolean : sepol_bool) (value : Z) : sepol_bool := BOOL (bl_name boolean) value.
Definition sepol_bool_clone (boolean : sepol_bool) : E sepol_bool :=
  new_bool ← sepol_bool_create;
  new_bool ← sepol_bool_set_name new_bool (bl_name boolean);
  mret (sepol_bool_set_value new_bool (bl_value boolean)).

(** ** Users *)

(** [roles] and [num_roles] are one list. *)
Record sepol_user := USER {
  us_name : option string;
  mls_level_ : option string;
  mls_range_ : option string;
  us_roles : list string
}.
Record sepol_user_key := USER_KEY { uk_name : string }.

Definition sepol_user_key_create (name : option string) : E sepol_user_key :=
  _ ← e_malloc; n ← e_strdup name; mret (USER_KEY n).
Definition sepol_user_key_extract (user : sepol_user) : E sepol_user_key := sepol_user_key_create (us_name user).
Definition sepol_user_compare (user : sepol_user) (key : sepol_user_key) : outcome Z :=
  compare_names (us_name user) (Some (uk_name key)).
Definition sepol_user_compare2 (user user2 : sepol_user) : outcome Z := compare_names (us_name user) (us_name user2).

Definition sepol_user_create : E sepol_user := _ ← e_malloc; mret (USER None None None []).
Definition sepol_user_set_name (user : sepol_user) (name : option string) : E sepol_user :=
  n ← e_strdup name; mret (USER (Some n) (mls_level_ user) (mls_range_ user) (us_roles user)).
Definition sepol_user_set_mlslevel (user : sepol_user) (mls_level : option string) : E sepol_user :=
  l ← e_strdup mls_level; mret (USER (us_name user) (Some l) (mls_range_ user) (us_roles user)).
Definition sepol_user_set_mlsrange (user : sepol_user) (mls_range : option string) : E sepol_user :=
  r ← e_strdup mls_range; mret (USER (us_name user) (mls_level_ user) (Some r) (us_roles user)).

Definition sepol_user_has_role (user : sepol_user) (role : string) : bool := existsb (λ r, streq r role) (us_roles user).

Definition set_user_roles (roles : list string) (user : sepol_user) : sepol_user :=
  USER (us_name user) (mls_level_ user) (mls_range_ user) roles.

Definition sepol_user_add_role (user : sepol_user) (role : string) : E sepol_user :=
  if sepol_user_has_role user role then mret user
  else
    role_cp ← e_strdup (Some role);
    _ ← e_malloc;
    mret (set_user_roles (us_roles user ++ [role_cp]) user).

Fixpoint dup_all (l : list string) : E (list string) :=
  match l with
  | [] => mret []
  | r :: l' => r ← e_strdup (Some r); l' ← dup_all l'; mret (r :: l')
  end.

Definition sepol_user_set_roles (user : sepol_user) (roles_arr : list string) : E sepol_user :=
  roles ← match roles_arr with [] => mret [] | _ => _ ← e_malloc; dup_all roles_arr end;
  mret (set_user_roles roles user).

Definition sepol_user_get_roles (user : sepol_user) : E (list string) := _ ← e_malloc; mret (us_roles user).

(** The loop: a match is replaced by the last role, which is not looked at again. *)
Fixpoint del_role_loop (fuel : nat) (i : Z) (roles : list string) (role : string) : list string :=
  match fuel with
  | O => roles
  | S fuel' =>
      match at_index roles i with
      | None => roles
      | Some r =>
          if streq r role then
            del_role_loop fuel' (i + 1) (removelast (set_index roles i (List.last roles r))) role
          else del_role_loop fuel' (i + 1) roles role
      end
  end.

Definition sepol_user_del_role (user : sepol_user) (role : string) : sepol_user :=
  set_user_roles (del_role_loop (length (us_roles user)) 0 (us_roles user) role) user.

Fixpoint add_roles (user : sepol_user) (roles : list string) : E sepol_user :=
  match roles with
  | [] => mret user
  | r :: roles' => user ← sepol_user_add_role user r; add_roles user roles'
  end.

Definition sepol_user_clone (user : sepol_user) : E sepol_user :=
  new_user ← sepol_user_create;
  new_user ← sepol_user_set_name new_user (us_name user);
  new_user ← add_roles new_user (us_roles user);
  new_user ← match mls_level_ user with None => mret new_user | l => sepol_user_set_mlslevel new_user l end;
  match mls_range_ user with None => mret new_user | r => sepol_user_set_mlsrange new_user r end.
