(* ===== verification/PolicyRecords.v ===== *)
(** * Records and the labels of a policy (ports.c, interfaces.c, nodes.c, ibpkeys.c,
      ibendports.c)

    What a client asks of a policy through the records of Records.v: whether an
    entry is there, the entry of a key as a record, changing or adding one, their
    number, and a handler called for each.

    The labels are the object contexts of the policy, by kind; for booleans and users see
    SymbolRecords.v.  [E] is the monad of Records.v for code that leaves the policy
    alone, [M st] that of Policydb.v for code that changes it. *)

From S2P Require Import Prelude Policyfile Ebitmap Hashtab Avtab Context Policydb Expand Mls Cond LabelFile ContextText Records.

(** ** Contexts of records *)

Definition con_from_record (p : policydb) (con : option sepol_context) : E context_struct := λ m,
  '(rc, c, m) ← context_from_record p con m; Ret (if rc <? 0 then None else c, m).
Definition con_to_record (p : policydb) (c : context_struct) : E (option sepol_context) := λ m,
  '(rc, con, m) ← context_to_record p c m; Ret (if rc <? 0 then None else Some con, m).

(** [context_cpy] into a zeroed structure; its status is not looked at. *)
Definition copied_con (src : context_struct) : E context_struct := λ m,
  let '(_, c, m) := context_cpy zero_context src m in Ret (Some c, m).

Definition label_con (p : policydb) (con : option sepol_context) : E context_struct :=
  c ← con_from_record p con; copied_con c.

(** Code that reads the policy. *)
Definition on_policy {A} (f : policydb → E A) : M st (option A) := λ s,
  '(o, m) ← f s.1 s.2; Ret (o, (s.1, m)).

(** ** Labels *)

Definition kind_of (p : policydb) (kind : Z) : outcome (list ocontext) := deref (at_index (ocontexts p) kind).

Fixpoint first_label (test : ocontext → outcome bool) (l : list ocontext) : outcome (option ocontext) :=
  match l with
  | [] => mret None
  | c :: l' => found ← test c; if found : bool then mret (Some c) else first_label test l'
  end.

Definition label_with (p : policydb) (kind : Z) (test : ocontext → outcome bool) : outcome (option ocontext) :=
  l ← kind_of p kind; first_label test l.

Definition label_count (p : policydb) (kind : Z) : outcome Z := l ← kind_of p kind; mret (u32 (Z.of_nat (length l))).

Definition label_exists (p : policydb) (kind : Z) (test : ocontext → outcome bool) : E Z :=
  r ← e_lift (label_with p kind test); mret (match r with Some _ => 1 | None => 0 end).

(** The second option is [*response]. *)
Definition label_query {R} (p : policydb) (kind : Z) (test : ocontext → outcome bool) (to_record : ocontext → E R)
    : E (option R) :=
  r ← e_lift (label_with p kind test);
  match r with None => mret None | Some c => rec ← to_record c; mret (Some rec) end.

(** The new entry becomes the head of its list. *)
Definition attach (kind : Z) (c : ocontext) : M st () :=
  l ← elem ocontexts kind; write ocontexts set_ocontexts kind (c :: l).

(** A handler gets the record and its own argument: -1 is an error, 1 asks to stop.
    The results are the status and the argument. *)
Section iterate.
Context {C R A : Type} (to_record : C → E R) (fn : R → A → Z * A).
Fixpoint iterate_records (l : list C) (arg : A) (m : mem) : outcome (Z * A * mem) :=
  match l with
  | [] => mret (STATUS_SUCCESS, arg, m)
  | c :: l' =>
      '(r, m) ← to_record c m;
      match r with
      | None => mret (STATUS_ERR, arg, m)
      | Some r =>
          let '(status, arg) := fn r arg in
          if status <? 0 then mret (STATUS_ERR, arg, m)
          else if 0 <? status then mret (STATUS_SUCCESS, arg, m)
          else iterate_records l' arg m
      end
  end.
End iterate.

(** ** Ports (ports.c) *)

Definition IPPROTO_TCP : Z := 6.
Definition IPPROTO_UDP : Z := 17.
Definition IPPROTO_DCCP : Z := 33.

Definition sepol2ipproto (proto : Z) : Z :=
  if proto =? SEPOL_PROTO_TCP then IPPROTO_TCP
  else if proto =? SEPOL_PROTO_UDP then IPPROTO_UDP
  else if proto =? SEPOL_PROTO_DCCP then IPPROTO_DCCP
  else STATUS_ERR.

Definition ipproto2sepol (proto : Z) : Z :=
  if proto =? IPPROTO_TCP then SEPOL_PROTO_TCP
  else if proto =? IPPROTO_UDP then SEPOL_PROTO_UDP
  else if proto =? IPPROTO_DCCP then SEPOL_PROTO_DCCP
  else STATUS_ERR.

Definition checked (proto : Z) : E Z := if proto <? 0 then err else mret proto.

(** The fields of the entry have 8 and 16 bits. *)
Definition port_from_record (p : policydb) (data : sepol_port) : E ocontext :=
  _ ← e_malloc;
  proto ← checked (sepol2ipproto (port_proto data));
  let low := u16 (port_low data) in
  let high := u16 (port_high data) in
  if high <? low then err
  else c ← label_con p (port_con data); mret (OC (OC_port (u8 proto) low high) 0 c zero_context 0 0).

Definition port_to_record (p : policydb) (port : ocontext) : E sepol_port :=
  match oc_u port with
  | OC_port proto low high =>
      r ← sepol_port_create;
      rec_proto ← checked (ipproto2sepol proto);
      let r := sepol_port_set_range (sepol_port_set_proto r rec_proto) low high in
      con ← con_to_record p (oc_context0 port);
      sepol_port_set_con r con
  | _ => e_lift Undef
  end.

Definition same_port (proto low high : Z) (c : ocontext) : outcome bool :=
  match oc_u c with
  | OC_port proto2 low2 high2 => mret ((proto =? proto2) && (low2 =? low) && (high2 =? high))
  | _ => Undef
  end.

Definition sepol_port_count (p : policydb) : outcome Z := label_count p OCON_PORT.

Definition sepol_port_exists (p : policydb) (key : sepol_port_key) : E Z :=
  proto ← checked (sepol2ipproto (pk_proto key));
  label_exists p OCON_PORT (same_port proto (pk_low key) (pk_high key)).

Definition sepol_port_query (p : policydb) (key : sepol_port_key) : E (option sepol_port) :=
  proto ← checked (sepol2ipproto (pk_proto key));
  label_query p OCON_PORT (same_port proto (pk_low key) (pk_high key)) (port_to_record p).

Definition sepol_port_modify (key : sepol_port_key) (data : sepol_port) : M st Z :=
  if sepol2ipproto (pk_proto key) <? 0 then mret STATUS_ERR
  else
    port ← on_policy (λ p, port_from_record p data);
    match port with None => mret STATUS_ERR | Some port => _ ← attach OCON_PORT port; mret STATUS_SUCCESS end.

Definition sepol_port_iterate {A} (p : policydb) (fn : sepol_port → A → Z * A) (arg : A) (m : mem) : outcome (Z * A * mem) :=
  l ← kind_of p OCON_PORT; iterate_records (port_to_record p) fn l arg m.

(** ** Interfaces (interfaces.c) *)

Definition iface_from_record (p : policydb) (record : sepol_iface) : E ocontext :=
  _ ← e_malloc;
  name ← e_strdup (if_name record);
  c0 ← label_con p (netif_con record);
  c1 ← label_con p (netmsg_con record);
  mret (OC (OC_name name) 0 c0 c1 0 0).

Definition iface_to_record (p : policydb) (iface : ocontext) : E sepol_iface :=
  match oc_u iface with
  | OC_name name =>
      r ← sepol_iface_create;
      r ← sepol_iface_set_name r (Some name);
      con ← con_to_record p (oc_context0 iface);
      r ← sepol_iface_set_ifcon r con;
      con ← con_to_record p (oc_context1 iface);
      sepol_iface_set_msgcon r con
  | _ => e_lift Undef
  end.

Definition same_iface (name : string) (c : ocontext) : outcome bool :=
  match oc_u c with OC_name s => mret (streq name s) | _ => Undef end.

Definition sepol_iface_exists (p : policydb) (key : sepol_iface_key) : E Z := label_exists p OCON_NETIF (same_iface (ik_name key)).
Definition sepol_iface_query (p : policydb) (key : sepol_iface_key) : E (option sepol_iface) :=
  label_query p OCON_NETIF (same_iface (ik_name key)) (iface_to_record p).

(** The first entry that fits is replaced where it is; [None] when none does. *)
Fixpoint replace_label (test : ocontext → outcome bool) (new : ocontext) (l : list ocontext) : outcome (option (list ocontext)) :=
  match l with
  | [] => mret None
  | c :: l' =>
      found ← test c;
      if found : bool then mret (Some (new :: l'))
      else r ← replace_label test new l'; mret (cons c <$> r)
  end.

Definition sepol_iface_modify (key : sepol_iface_key) (data : sepol_iface) : M st Z :=
  iface ← on_policy (λ p, iface_from_record p data);
  match iface with
  | None => mret STATUS_ERR
  | Some iface =>
      l ← elem ocontexts OCON_NETIF;
      r ← lift (replace_label (same_iface (ik_name key)) iface l);
      _ ← match r with
          | Some l => write ocontexts set_ocontexts OCON_NETIF l
          | None => attach OCON_NETIF iface
          end;
      mret STATUS_SUCCESS
  end.

Definition sepol_iface_count (p : policydb) : outcome Z := label_count p OCON_NETIF.
Definition sepol_iface_iterate {A} (p : policydb) (fn : sepol_iface → A → Z * A) (arg : A) (m : mem) : outcome (Z * A * mem) :=
  l ← kind_of p OCON_NETIF; iterate_records (iface_to_record p) fn l arg m.

(** ** Nodes (nodes.c) *)

(** The bytes of the union [u] of an entry, and a copy into them; a copy that runs
    over their end is undefined. *)
Definition U_SIZE : Z := 32.

Definition copy_into (u : list Z) (off : Z) (buf : list Z) : outcome (list Z) :=
  if U_SIZE <? off + Z.of_nat (length buf) then Undef
  else mret (take (Z.to_nat off) u ++ buf ++ drop (Z.to_nat off + length buf) u).

(** [addr] and [mask] in the layout of [u.node] and of [u.node6]. *)
Definition node_key (u : list Z) : ocontext_key := OC_node (le_value (take 4 u)) (le_value (take 4 (drop 4 u))).
Definition node6_key (u : list Z) : ocontext_key := OC_node6 (words 4 4 u) (words 4 4 (drop 16 u)).

Definition node_u (proto : Z) (addr_buf mask_buf : list Z) : E ocontext_key :=
  let zero := replicate (Z.to_nat U_SIZE) 0 in
  if proto =? SEPOL_PROTO_IP4 then
    u ← e_lift (copy_into zero 0 addr_buf); u ← e_lift (copy_into u 4 mask_buf); mret (node_key u)
  else if proto =? SEPOL_PROTO_IP6 then
    u ← e_lift (copy_into zero 0 addr_buf); u ← e_lift (copy_into u 16 mask_buf); mret (node6_key u)
  else err.

Definition node_from_record (p : policydb) (data : sepol_node) : E ocontext :=
  _ ← e_malloc;
  addr_buf ← sepol_node_get_addr_bytes data;
  mask_buf ← sepol_node_get_mask_bytes data;
  u ← node_u (nd_proto data) addr_buf mask_buf;
  c ← label_con p (nd_con data);
  mret (OC u 0 c zero_context 0 0).

(** The address and the mask of an entry as bytes. *)
Definition node_bytes (proto : Z) (c : ocontext) : outcome (list Z * list Z) :=
  match oc_u c with
  | OC_node a k => if proto =? SEPOL_PROTO_IP4 then mret (le_bytes 4 a, le_bytes 4 k) else Undef
  | OC_node6 a k => if proto =? SEPOL_PROTO_IP6 then mret (u32s a, u32s k) else Undef
  | _ => Undef
  end.

(** The callers pass one of the two protocols. *)
Definition node_to_record (p : policydb) (proto : Z) (node : ocontext) : E sepol_node :=
  r ← sepol_node_create;
  '(a, k) ← e_lift (node_bytes proto node);
  r ← sepol_node_set_addr_bytes (sepol_node_set_proto r proto) a;
  r ← sepol_node_set_mask_bytes r k;
  con ← con_to_record p (oc_context0 node);
  sepol_node_set_con r con.

Definition sepol_node_count (p : policydb) : outcome Z :=
  l ← kind_of p OCON_NODE; l6 ← kind_of p OCON_NODE6; mret (u32 (Z.of_nat (length l + length l6))).

(** [memcmp] of the bytes of an address with as many of the key; a key that is shorter is
    read out of bounds.  The mask is compared only when the addresses are equal. *)
Definition same_bytes (key b : list Z) : outcome bool :=
  if (length key <? length b)%nat then Undef else mret (memcmp (take (length b) key) b =? 0).

Definition same_node (proto : Z) (key : sepol_node_key) (c : ocontext) : outcome bool :=
  '(a, k) ← node_bytes proto c;
  same ← same_bytes (nk_addr key) a;
  if same : bool then same_bytes (nk_mask key) k else mret false.

Definition node_kind (proto : Z) : option Z :=
  if proto =? SEPOL_PROTO_IP4 then Some OCON_NODE else if proto =? SEPOL_PROTO_IP6 then Some OCON_NODE6 else None.

Definition sepol_node_exists (p : policydb) (key : sepol_node_key) : E Z :=
  match node_kind (nk_proto key) with
  | None => err
  | Some kind => label_exists p kind (same_node (nk_proto key) key)
  end.

Definition sepol_node_query (p : policydb) (key : sepol_node_key) : E (option sepol_node) :=
  match node_kind (nk_proto key) with
  | None => err
  | Some kind => label_query p kind (same_node (nk_proto key) key) (node_to_record p (nk_proto key))
  end.

Definition sepol_node_modify (key : sepol_node_key) (data : sepol_node) : M st Z :=
  node ← on_policy (λ p, node_from_record p data);
  match node with
  | None => mret STATUS_ERR
  | Some node =>
      match node_kind (nk_proto key) with
      | None => mret STATUS_ERR
      | Some kind => _ ← attach kind node; mret STATUS_SUCCESS
      end
  end.

(** A handler that asks to stop leaves the first loop only. *)
Definition sepol_node_iterate {A} (p : policydb) (fn : sepol_node → A → Z * A) (arg : A) (m : mem) : outcome (Z * A * mem) :=
  l ← kind_of p OCON_NODE;
  '(rc, arg, m) ← iterate_records (node_to_record p SEPOL_PROTO_IP4) fn l arg m;
  if rc <? 0 then mret (rc, arg, m)
  else l ← kind_of p OCON_NODE6; iterate_records (node_to_record p SEPOL_PROTO_IP6) fn l arg m.

(** ** InfiniBand keys (ibpkeys.c) *)

Definition ibpkey_from_record (p : policydb) (data : sepol_ibpkey) : E ocontext :=
  _ ← e_malloc;
  let low := u16 (ib_low data) in
  let high := u16 (ib_high data) in
  if high <? low then err
  else c ← label_con p (ib_con data); mret (OC (OC_ibpkey (ib_prefix data) low high) 0 c zero_context 0 0).

Definition ibpkey_to_record (p : policydb) (ibpkey : ocontext) : E sepol_ibpkey :=
  match oc_u ibpkey with
  | OC_ibpkey prefix low high =>
      r ← sepol_ibpkey_create;
      let r := sepol_ibpkey_set_range (sepol_ibpkey_set_subnet_prefix_bytes r prefix) low high in
      con ← con_to_record p (oc_context0 ibpkey);
      sepol_ibpkey_set_con r con
  | _ => e_lift Undef
  end.

Definition same_ibpkey (key : sepol_ibpkey_key) (c : ocontext) : outcome bool :=
  match oc_u c with
  | OC_ibpkey prefix low high => mret ((low =? ibk_low key) && (high =? ibk_high key) && (ibk_prefix key =? prefix))
  | _ => Undef
  end.

Definition sepol_ibpkey_count (p : policydb) : outcome Z := label_count p OCON_IBPKEY.
Definition sepol_ibpkey_exists (p : policydb) (key : sepol_ibpkey_key) : E Z := label_exists p OCON_IBPKEY (same_ibpkey key).
Definition sepol_ibpkey_query (p : policydb) (key : sepol_ibpkey_key) : E (option sepol_ibpkey) :=
  label_query p OCON_IBPKEY (same_ibpkey key) (ibpkey_to_record p).
Definition sepol_ibpkey_modify (key : sepol_ibpkey_key) (data : sepol_ibpkey) : M st Z :=
  ibpkey ← on_policy (λ p, ibpkey_from_record p data);
  match ibpkey with None => mret STATUS_ERR | Some ibpkey => _ ← attach OCON_IBPKEY ibpkey; mret STATUS_SUCCESS end.
Definition sepol_ibpkey_iterate {A} (p : policydb) (fn : sepol_ibpkey → A → Z * A) (arg : A) (m : mem) : outcome (Z * A * mem) :=
  l ← kind_of p OCON_IBPKEY; iterate_records (ibpkey_to_record p) fn l arg m.

(** ** InfiniBand ports (ibendports.c) *)

Definition ibendport_from_record (p : policydb) (data : sepol_ibendport) : E ocontext :=
  _ ← e_malloc;
  _ ← sepol_ibendport_alloc_ibdev_name;
  ibdev_name ← sepol_ibendport_get_ibdev_name data;
  c ← label_con p (ep_con data);
  mret (OC (OC_ibendport (dev_block ibdev_name) (u8 (ep_port data))) 0 c zero_context 0 0).

Definition ibendport_to_record (p : policydb) (ibendport : ocontext) : E sepol_ibendport :=
  match oc_u ibendport with
  | OC_ibendport dev port =>
      r ← sepol_ibendport_create;
      r ← sepol_ibendport_set_ibdev_name r (Some dev);
      con ← con_to_record p (oc_context0 ibendport);
      sepol_ibendport_set_con (sepol_ibendport_set_port r port) con
  | _ => e_lift Undef
  end.

Definition same_ibendport (key : sepol_ibendport_key) (c : ocontext) : outcome bool :=
  match oc_u c with
  | OC_ibendport dev port =>
      if port =? epk_port key then rc ← strcmp_dev (epk_dev key) dev; mret (rc =? 0) else mret false
  | _ => Undef
  end.

Definition sepol_ibendport_count (p : policydb) : outcome Z := label_count p OCON_IBENDPORT.
Definition sepol_ibendport_exists (p : policydb) (key : sepol_ibendport_key) : E Z := label_exists p OCON_IBENDPORT (same_ibendport key).
Definition sepol_ibendport_query (p : policydb) (key : sepol_ibendport_key) : E (option sepol_ibendport) :=
  label_query p OCON_IBENDPORT (same_ibendport key) (ibendport_to_record p).
Definition sepol_ibendport_modify (key : sepol_ibendport_key) (data : sepol_ibendport) : M st Z :=
  ibendport ← on_policy (λ p, ibendport_from_record p data);
  match ibendport with None => mret STATUS_ERR | Some ibendport => _ ← attach OCON_IBENDPORT ibendport; mret STATUS_SUCCESS end.
Definition sepol_ibendport_iterate {A} (p : policydb) (fn : sepol_ibendport → A → Z * A) (arg : A) (m : mem) : outcome (Z * A * mem) :=
  l ← kind_of p OCON_IBENDPORT; iterate_records (ibendport_to_record p) fn l arg m.
