(* ===== verification/SymbolRecords.v ===== *)
(** * Booleans and users through records (booleans.c, users.c) *)

From S2P Require Import Prelude Policyfile Ebitmap Hashtab Avtab Context Policydb Expand Mls Cond ContextText Records PolicyRecords.

(** ** Booleans *)

Definition bool_update (key : sepol_bool_key) (data : sepol_bool) : M st Z :=
  ok ← alloc;                                        (* strdup *)
  if negb ok then mret STATUS_ERR
  else
    tab ← get_p p_bools;
    match hashtab_search (table tab) (bk_name key) with
    | None => mret STATUS_ERR
    | Some q =>
        if negb (bl_value data =? 0) && negb (bl_value data =? 1) then mret STATUS_ERR
        else
          datum ← load bool_mem q;
          _ ← write bool_mem set_bool_mem q (BD (b_value datum) (bl_value data) (b_flags datum));
          mret STATUS_SUCCESS
    end.

Definition bool_to_record (p : policydb) (bool_idx : Z) : E sepol_bool :=
  name ← e_lift (val_to_name p SYM_BOOLS bool_idx);
  booldatum ← e_lift (d ← val_to_struct (bool_val_to_struct p) (bool_mem p) bool_idx; deref d);
  r ← sepol_bool_create;
  r ← sepol_bool_set_name r name;
  mret (sepol_bool_set_value r (b_state booldatum)).

Definition evaluated : M st Z := λ s, '(rc, p) ← evaluate_conds s.1; Ret (rc, (p, s.2)).

Definition sepol_bool_set (key : sepol_bool_key) (data : sepol_bool) : M st Z :=
  rc ← bool_update key data;
  if rc <? 0 then mret STATUS_ERR
  else
    rc ← evaluated; mret (if rc <? 0 then STATUS_ERR else STATUS_SUCCESS).

Definition sepol_bool_count (p : policydb) : Z := nprim (p_bools p).

Definition sepol_bool_exists (p : policydb) (key : sepol_bool_key) : E Z :=
  _ ← e_malloc;
  mret (match hashtab_search (table (p_bools p)) (bk_name key) with Some _ => 1 | None => 0 end).

(** The option in the result is [*response]. *)
Definition sepol_bool_query (p : policydb) (key : sepol_bool_key) : E (option sepol_bool) :=
  _ ← e_malloc;
  match hashtab_search (table (p_bools p)) (bk_name key) with
  | None => mret None
  | Some q =>
      booldatum ← e_lift (deref (at_index (bool_mem p) q));
      r ← bool_to_record p (b_value booldatum - 1); mret (Some r)
  end.

Definition sepol_bool_iterate {A} (p : policydb) (fn : sepol_bool → A → Z * A) (arg : A) (m : mem) : outcome (Z * A * mem) :=
  iterate_records (bool_to_record p) fn (upto (nprim (p_bools p))) arg m.

(** ** Users as records *)

Definition copied_level (l : mls_level) : E mls_level := λ m,
  let '(rc, l, m) := mls_level_cpy l m in Ret (if rc <? 0 then None else Some l, m).
Definition copied_range (r : mls_range) : E mls_range := λ m,
  let '(rc, r, m) := mls_range_cpy mls_range_init r m in Ret (if rc <? 0 then None else Some r, m).

(** The text of a context that has a range only. *)
Definition range_string (p : policydb) (r : mls_range) : E (option string) := λ m,
  '(rc, s, m) ← mls_to_string p (CTX 0 0 0 r) m; Ret (if rc <? 0 then None else Some s, m).

Fixpoint add_role_names (p : policydb) (r : sepol_user) (roles : list Z) : E sepol_user :=
  match roles with
  | [] => mret r
  | bit :: roles' =>
      role ← e_lift (val_name p SYM_ROLES bit);
      r ← sepol_user_add_role r role;
      add_role_names p r roles'
  end.

Definition user_to_record (p : policydb) (user_idx : Z) : E sepol_user :=
  name ← e_lift (val_to_name p SYM_USERS user_idx);
  usrdatum ← e_lift (val_to_struct (user_val_to_struct p) (user_mem p) user_idx);
  match usrdatum with
  | None => err
  | Some usrdatum =>
      r ← sepol_user_create;
      r ← sepol_user_set_name r name;
      r ← add_role_names p r (ebitmap_set_bits (rs_roles (u_roles usrdatum)));
      if mls p =? 0 then mret r
      else
        l0 ← copied_level (exp_dfltlevel usrdatum);
        l1 ← copied_level (exp_dfltlevel usrdatum);
        str ← range_string p (MR l0 l1);
        r ← sepol_user_set_mlslevel r str;
        rg ← copied_range (exp_range usrdatum);
        str ← range_string p rg;
        sepol_user_set_mlsrange r str
  end.

Definition sepol_user_exists (p : policydb) (key : sepol_user_key) : Z :=
  match hashtab_search (table (p_users p)) (uk_name key) with Some _ => 1 | None => 0 end.
Definition sepol_user_count (p : policydb) : Z := nprim (p_users p).

Definition sepol_user_query (p : policydb) (key : sepol_user_key) : E (option sepol_user) :=
  match hashtab_search (table (p_users p)) (uk_name key) with
  | None => mret None
  | Some q =>
      usrdatum ← e_lift (deref (at_index (user_mem p) q));
      r ← user_to_record p (u_value usrdatum - 1); mret (Some r)
  end.

Definition sepol_user_iterate {A} (p : policydb) (fn : sepol_user → A → Z * A) (arg : A) (m : mem) : outcome (Z * A * mem) :=
  iterate_records (user_to_record p) fn (upto (nprim (p_users p))) arg m.

(** ** Changing a user *)

Definition user_datum_init (value : Z) : user_datum :=
  UD value role_set_init (SR (SL 0 []) (SL 0 [])) (SL 0 []) ebitmap_init mls_range_init mls_level_init 0.

Definition with_roles (e : ebitmap) (d : user_datum) : user_datum :=
  UD (u_value d) (RS e (rs_flags (u_roles d))) (u_range d) (dfltlevel d) (u_cache d) (exp_range d) (exp_dfltlevel d) (u_bounds d).
Definition with_dfltlevel (l : mls_level) (d : user_datum) : user_datum :=
  UD (u_value d) (u_roles d) (u_range d) (dfltlevel d) (u_cache d) (exp_range d) l (u_bounds d).
Definition with_exp_range (r : mls_range) (d : user_datum) : user_datum :=
  UD (u_value d) (u_roles d) (u_range d) (dfltlevel d) (u_cache d) r (exp_dfltlevel d) (u_bounds d).
Definition with_cache (e : ebitmap) (d : user_datum) : user_datum :=
  UD (u_value d) (u_roles d) (u_range d) (dfltlevel d) e (exp_range d) (exp_dfltlevel d) (u_bounds d).
Definition with_value (v : Z) (d : user_datum) : user_datum :=
  UD v (u_roles d) (u_range d) (dfltlevel d) (u_cache d) (exp_range d) (exp_dfltlevel d) (u_bounds d).

Definition update_user (q : ptr) (f : user_datum → user_datum) : M st () :=
  d ← load user_mem q; write user_mem set_user_mem q (f d).

(** The user, set to nothing but its value when it exists, or a new one; whether it is
    new. *)
Definition fresh_user (cname : string) : M st (option (ptr * bool)) :=
  tab ← get_p p_users;
  match hashtab_search (table tab) cname with
  | Some q => _ ← update_user q (λ d, user_datum_init (u_value d)); mret (Some (q, false))
  | None =>
      ok ← alloc;
      if negb ok then mret None
      else q ← new user_mem set_user_mem (user_datum_init 0); mret (Some (q, true))
  end.

(** Every role and the roles it dominates; false on an error. *)
Fixpoint add_dominated (q : ptr) (roles : list string) : M st bool :=
  match roles with
  | [] => mret true
  | role :: roles' =>
      tab ← get_p p_roles;
      match hashtab_search (table tab) role with
      | None => mret false
      | Some rq =>
          roldatum ← load role_mem rq;
          d ← load user_mem q;
          r ← loop role_copy_step (ebitmap_set_bits (dominates roldatum)) (rs_roles (u_roles d));
          match r with
          | inl e => _ ← update_user q (with_roles e); mret false
          | inr e => _ ← update_user q (with_roles e); add_dominated q roles'
          end
      end
  end.

(** [mls_from_string] into a new context. *)
Definition range_of_string (str : string) : M st (option mls_range) := λ s,
  '(rc, (c, m)) ← mls_from_string s.1 str (context_init, s.2);
  Ret (if rc <? 0 then None else Some (range c), (s.1, m)).

Definition set_user_level (q : ptr) (mls_level : option string) : M st bool :=
  match mls_level with
  | None => mret false
  | Some str =>
      r ← range_of_string str;
      match r with
      | None => mret false
      | Some r =>
          '(rc, l) ← with_mem (λ m, let '(rc, l, m) := mls_level_cpy (level0 r) m in ((rc, l), m));
          _ ← update_user q (with_dfltlevel l); mret (negb (rc <? 0))
      end
  end.

Definition set_user_range (q : ptr) (mls_range : option string) : M st bool :=
  match mls_range with
  | None => mret false
  | Some str =>
      r ← range_of_string str;
      match r with
      | None => mret false
      | Some r =>
          d ← load user_mem q;
          '(rc, r) ← with_mem (λ m, let '(rc, r, m) := mls_range_cpy (exp_range d) r m in ((rc, r), m));
          _ ← update_user q (with_exp_range r); mret (negb (rc <? 0))
      end
  end.

Definition set_user_mls (q : ptr) (user : sepol_user) : M st bool :=
  mls ← get_p mls;
  if negb (mls =? 0) then
    ok ← set_user_level q (mls_level_ user);
    if negb ok then mret false else set_user_range q (mls_range_ user)
  else mret (match mls_level_ user, mls_range_ user with None, None => true | _, _ => false end).

(** [realloc] to one more element than there are values, and NULL in it; elements in
    between that no value has are left as NULL here. *)
Definition grown_by_one {A} (np : Z) (l : list (option A)) : list (option A) :=
  take (Z.to_nat np) (l ++ replicate (Z.to_nat np - length l) None) ++ [None].

(** The user enters the table and the arrays; its roles are expanded only here. *)
Definition register_user (q : ptr) (cname : string) : M st bool :=
  np ← get_p (λ p, nprim (p_users p));
  ok ← alloc;
  if negb ok then mret false
  else
    _ ← upd (λ p, set_user_val_to_struct (grown_by_one np (user_val_to_struct p)) p);
    ok ← alloc;
    if negb ok then mret false
    else
      names ← elem sym_val_to_name SYM_USERS;
      _ ← write sym_val_to_name set_sym_val_to_name SYM_USERS (grown_by_one np names);
      ok ← alloc;                                    (* strdup *)
      if negb ok then mret false
      else
        v ← next_value SYM_USERS;
        _ ← update_user q (with_value v);
        rc ← symtab_put SYM_USERS cname q;
        if rc <? 0 then mret false
        else
          _ ← write_name SYM_USERS (v - 1) cname;
          _ ← write user_val_to_struct set_user_val_to_struct (v - 1) (Some q);
          d ← load user_mem q;
          '(rc, c) ← role_set_expand (u_roles d);
          _ ← update_user q (with_cache c);
          mret (rc =? 0).

(** A new user is freed on an error, also when the table holds it already; its object
    stays in the store here. *)
Definition failed_user (q : ptr) (is_new : bool) : M st Z :=
  _ ← (if is_new then update_user q (with_roles ebitmap_init) else mret ());
  mret STATUS_ERR.

Definition sepol_user_modify (key : sepol_user_key) (user : sepol_user) : M st Z :=
  roles ← on_policy (λ _, sepol_user_get_roles user);
  match roles with
  | None => mret STATUS_ERR
  | Some roles =>
      r ← fresh_user (uk_name key);
      match r with
      | None => mret STATUS_ERR
      | Some (q, is_new) =>
          ok ← add_dominated q roles;
          if negb ok then failed_user q is_new
          else
            ok ← set_user_mls q user;
            if negb ok then failed_user q is_new
            else if is_new : bool then
              ok ← register_user q (uk_name key);
              if negb ok then failed_user q is_new else mret STATUS_SUCCESS
            else mret STATUS_SUCCESS
      end
  end.
