(* ===== verification/SidServer.v ===== *)
(** * The security server over SIDs (libsepol/src/services.c, policydb.c)

    The requests of the security server name contexts by SIDs: decisions and new
    contexts ([sepol_compute_av], [sepol_compute_sid]), the labels of networks and
    file systems ([sepol_port_sid] and the like), and the replacement of the policy
    under a table of SIDs ([sepol_load_policy]). *)

From S2P Require Import Prelude Policyfile Ebitmap Hashtab Avtab Context Policydb Mls Cond LabelFile PolicydbFile Services Sidtab MlsText ContextText.

(** ** State

    The static variables: [*policydb], [None] once it has been destroyed,
    [*sidtab] and the flag of avtab.c; and the memory. *)
Record server := SRV {
  sv_policydb : option policydb;
  sv_sidtab : sidtab;
  sv_compat : bool
}.

Definition sstate : Type := server * mem.

Definition selinux_enforcing : Z := 1.

Definition SECINITSID_FS : Z := 4.
Definition SECINITSID_FILE : Z := 5.
Definition SECINITSID_PORT : Z := 9.
Definition SECINITSID_NETIF : Z := 10.
Definition SECINITSID_NETMSG : Z := 11.
Definition SECINITSID_NODE : Z := 12.
Definition SECCLASS_DIR : Z := 7.
Definition SECURITY_FS_USE_GENFS : Z := 4.
Definition SECURITY_FS_USE_NONE : Z := 5.
Definition AF_INET : Z := 2.
Definition AF_INET6 : Z := 10.

(** The active policy.  A destroyed one has been freed but is still pointed to: every
    use of it counts as undefined behaviour here, also reading one of the few fields
    that its record itself holds. *)
Definition active : M sstate policydb := λ s, p ← deref (sv_policydb s.1); Ret (p, s).

Definition with_policy (p : option policydb) (s : server) : server := SRV p (sv_sidtab s) (sv_compat s).
Definition with_sidtab (t : sidtab) (s : server) : server := SRV (sv_policydb s) t (sv_compat s).

(** Code that uses the memory only. *)
Definition in_memory {A} (f : mem → outcome (A * mem)) : M sstate A := λ s,
  '(a, m) ← f s.2; Ret (a, (s.1, m)).

Definition search (sid : Z) : M sstate (option context_struct) := gets (λ s, sepol_sidtab_search (sv_sidtab s.1) sid).

(** The status and [*out_sid]. *)
Definition to_sid (context : context_struct) : M sstate (Z * Z) := λ s,
  '(rc, sid, t, m) ← sepol_sidtab_context_to_sid (sv_sidtab s.1) context s.2;
  Ret ((rc, sid), (with_sidtab t s.1, m)).

(** ** Contexts and SIDs *)

(** The status and the text with its length, if there is one. *)
Definition sepol_sid_to_context (sid : Z) : M sstate (Z * option (string * Z)) :=
  context ← search sid;
  match context with
  | None => mret (- EINVAL, None)
  | Some context =>
      p ← active;
      in_memory (λ m, '(rc, text, m) ← context_to_string p context m; mret ((rc, text), m))
  end.

(** [want] tells whether [sid] is not NULL; the second result is [*sid] when it
    has been set. *)
Definition sepol_context_to_sid (scontext : string) (scontext_len : Z) (want : bool) : M sstate (Z * option Z) :=
  p ← active;
  '(rc, context) ← in_memory (λ m, '(rc, c, m) ← context_from_string p scontext scontext_len m; mret ((rc, c), m));
  if rc <? 0 then mret (STATUS_ERR, None)
  else if want then
    context ← lift (deref context);
    '(rc, sid) ← to_sid context;
    mret (if rc <? 0 then STATUS_ERR else STATUS_SUCCESS, Some sid)
  else mret (STATUS_SUCCESS, None).

(** context.c *)
Definition sepol_check_context (context : string) : M sstate Z :=
  '(rc, _) ← sepol_context_to_sid context (slen context + 1) false; mret rc.

(** ** Decisions *)

(** The status, [*avd] and [*reason]. *)
Definition sepol_compute_av_reason (fuel : nat) (ssid tsid tclass requested : Z) (avd : av_decision) (reason : Z)
    : M sstate (Z * av_decision * Z) :=
  scontext ← search ssid;
  match scontext with
  | None => mret (- EINVAL, avd, reason)
  | Some scontext =>
      tcontext ← search tsid;
      match tcontext with
      | None => mret (- EINVAL, avd, reason)
      | Some tcontext =>
          p ← active;
          '(rc, avd, reason) ← lift (context_struct_compute_av fuel p scontext tcontext tclass requested avd (Some reason));
          reason ← lift (deref reason);
          mret (rc, avd, reason)
      end
  end.

Definition sepol_compute_av (fuel : nat) (ssid tsid tclass requested : Z) (avd : av_decision) : M sstate (Z * av_decision) :=
  '(rc, avd, _) ← sepol_compute_av_reason fuel ssid tsid tclass requested avd 0; mret (rc, avd).

(** [sepol_validate_transition] of Services.v with the contexts of the SIDs. *)
Definition sepol_validate_transition_sids (oldsid newsid tasksid tclass : Z) : M sstate Z :=
  p ← active;
  ocontext ← search oldsid;
  ncontext ← search newsid;
  tcontext ← search tasksid;
  lift (sepol_validate_transition p ocontext ncontext tcontext tclass).

(** [sepol_compute_sid]: the status and [*out_sid] when it has been set. *)
Definition compute_sid (ssid tsid tclass specified : Z) : M sstate (Z * option Z) :=
  p ← active;
  scontext ← search ssid;
  tcontext ← search tsid;
  '(rc, newcontext) ← in_memory (λ m, '(rc, c, m) ← sepol_compute_sid p scontext tcontext tclass specified m; mret ((rc, c), m));
  if negb (rc =? 0) then mret (rc, None)
  else '(rc, sid) ← to_sid newcontext; mret (rc, Some sid).

Definition sepol_transition_sid (ssid tsid tclass : Z) := compute_sid ssid tsid tclass AVTAB_TRANSITION.
Definition sepol_member_sid (ssid tsid tclass : Z) := compute_sid ssid tsid tclass AVTAB_MEMBER.
Definition sepol_change_sid (ssid tsid tclass : Z) := compute_sid ssid tsid tclass AVTAB_CHANGE.

(** ** Initial SIDs (policydb.c) *)

Fixpoint load_isids (l : list ocontext) (s : sidtab) (m : mem) : Z * sidtab * mem :=
  match l with
  | [] => (0, s, m)
  | c :: l' =>
      if user (oc_context0 c) =? 0 then (-1, s, m)
      else
        let '(rc, s, m) := sepol_sidtab_insert s (oc_sid0 c) (oc_context0 c) m in
        if negb (rc =? 0) then (-1, s, m) else load_isids l' s m
  end.

Definition policydb_load_isids (p : policydb) (s : sidtab) (m : mem) : outcome (Z * sidtab * mem) :=
  let '(rc, s, m) := sepol_sidtab_init s m in
  if negb (rc =? 0) then mret (-1, s, m)
  else head ← deref (at_index (ocontexts p) OCON_ISID); mret (load_isids head s m).

(** ** Labels

    A lookup takes the first entry that fits and keeps the SIDs it assigns in
    the entry. *)

Definition set_sid0 (v : Z) (c : ocontext) : ocontext := OC (oc_u c) (oc_v c) (oc_context0 c) (oc_context1 c) v (oc_sid1 c).
Definition set_sid1 (v : Z) (c : ocontext) : ocontext := OC (oc_u c) (oc_v c) (oc_context0 c) (oc_context1 c) (oc_sid0 c) v.

(** The loop [while (c) { if (test) break; c = c->next; }]: the entries before
    the one found, that entry and those after it. *)
Fixpoint label_walk (test : ocontext → outcome bool) (l : list ocontext)
    : outcome (list ocontext * option (ocontext * list ocontext)) :=
  match l with
  | [] => mret ([], None)
  | c :: l' =>
      found ← test c;
      if found : bool then mret ([], Some (c, l'))
      else '(before, r) ← label_walk test l'; mret (c :: before, r)
  end.

(** [if (!c->sid[0])] the SID is assigned. *)
Definition assign_one (c : ocontext) : M sstate (Z * ocontext) :=
  if oc_sid0 c =? 0 then '(rc, sid) ← to_sid (oc_context0 c); mret (rc, set_sid0 sid c)
  else mret (0, c).

(** [if (!c->sid[0] || !c->sid[1])] both are. *)
Definition assign_two (c : ocontext) : M sstate (Z * ocontext) :=
  if (oc_sid0 c =? 0) || (oc_sid1 c =? 0) then
    '(rc, sid) ← to_sid (oc_context0 c);
    let c := set_sid0 sid c in
    if negb (rc =? 0) then mret (rc, c)
    else '(rc, sid) ← to_sid (oc_context1 c); mret (rc, set_sid1 sid c)
  else mret (0, c).

Definition kind_labels (kind : Z) : M sstate (list ocontext) :=
  p ← active; lift (deref (at_index (ocontexts p) kind)).

Definition update_policy (f : policydb → policydb) : M sstate () := λ s,
  p ← deref (sv_policydb s.1); Ret ((), (with_policy (Some (f p)) s.1, s.2)).

Definition store_labels (kind : Z) (l : list ocontext) : M sstate () :=
  update_policy (λ p, set_ocontexts (set_index (ocontexts p) kind l) p).

(** The entry that fits with its SIDs, or none: the status and the entry. *)
Definition find_label (kind : Z) (test : ocontext → outcome bool) (assign : ocontext → M sstate (Z * ocontext))
    : M sstate (Z * option ocontext) :=
  l ← kind_labels kind;
  '(before, r) ← lift (label_walk test l);
  match r with
  | None => mret (0, None)
  | Some (c, after) =>
      '(rc, c) ← assign c;
      _ ← store_labels kind (before ++ c :: after);
      mret (rc, Some c)
  end.

(** The status and [*out_sid] when it is set. *)
Definition one_sid (kind : Z) (test : ocontext → outcome bool) (otherwise : Z) : M sstate (Z * option Z) :=
  '(rc, r) ← find_label kind test assign_one;
  match r with
  | None => mret (rc, Some otherwise)
  | Some c => if negb (rc =? 0) then mret (rc, None) else mret (rc, Some (oc_sid0 c))
  end.

(** The status and the two SIDs when they are set. *)
Definition two_sids (kind : Z) (test : ocontext → outcome bool) (otherwise : Z * Z) : M sstate (Z * option (Z * Z)) :=
  '(rc, r) ← find_label kind test assign_two;
  match r with
  | None => mret (rc, Some otherwise)
  | Some c => if negb (rc =? 0) then mret (rc, None) else mret (rc, Some (oc_sid0 c, oc_sid1 c))
  end.

(** The tests read the variant of the union that the kind uses. *)
Definition is_named (name : string) (c : ocontext) : outcome bool :=
  match oc_u c with OC_name s => mret (strcmp s name =? 0) | _ => Undef end.

Definition has_port (protocol port : Z) (c : ocontext) : outcome bool :=
  match oc_u c with
  | OC_port pr low high => mret ((pr =? protocol) && (low <=? port) && (port <=? high))
  | _ => Undef
  end.

Definition has_pkey (subnet_prefix pkey : Z) (c : ocontext) : outcome bool :=
  match oc_u c with
  | OC_ibpkey prefix low high => mret ((low <=? pkey) && (pkey <=? high) && (subnet_prefix =? prefix))
  | _ => Undef
  end.

Definition has_endport (dev_name : string) (port : Z) (c : ocontext) : outcome bool :=
  match oc_u c with
  | OC_ibendport dev pt => mret ((pt =? port) && (strcmp dev_name dev =? 0))
  | _ => Undef
  end.

Definition has_node (addr : Z) (c : ocontext) : outcome bool :=
  match oc_u c with OC_node a mask => mret (a =? Z.land addr mask) | _ => Undef end.

(** The four words of an address against those of the entry. *)
Fixpoint match_words (input addr mask : list Z) : bool :=
  match input, addr, mask with
  | i :: input', a :: addr', k :: mask' => (a =? Z.land i k) && match_words input' addr' mask'
  | _, _, _ => true
  end.

Definition match_ipv6_addrmask (input addr mask : list Z) : bool := match_words (take 4 input) (take 4 addr) (take 4 mask).

Definition has_node6 (addrp : list Z) (c : ocontext) : outcome bool :=
  match oc_u c with OC_node6 a mask => mret (match_ipv6_addrmask addrp a mask) | _ => Undef end.

Definition sepol_fs_sid (name : string) : M sstate (Z * option (Z * Z)) :=
  two_sids OCON_FS (is_named name) (SECINITSID_FS, SECINITSID_FILE).

Definition sepol_ibpkey_sid (subnet_prefix pkey : Z) : M sstate (Z * option Z) :=
  one_sid OCON_IBPKEY (has_pkey subnet_prefix pkey) SECINITSID_UNLABELED.

Definition sepol_ibendport_sid (dev_name : string) (port : Z) : M sstate (Z * option Z) :=
  one_sid OCON_IBENDPORT (has_endport dev_name port) SECINITSID_UNLABELED.

Definition sepol_port_sid (protocol port : Z) : M sstate (Z * option Z) :=
  one_sid OCON_PORT (has_port protocol port) SECINITSID_PORT.

Definition sepol_netif_sid (name : string) : M sstate (Z * option (Z * Z)) :=
  two_sids OCON_NETIF (is_named name) (SECINITSID_NETIF, SECINITSID_NETMSG).

(** [addrp] is the address as 32-bit words. *)
Definition sepol_node_sid (domain : Z) (addrp : list Z) (addrlen : Z) : M sstate (Z * option Z) :=
  if domain =? AF_INET then
    if negb (addrlen =? 4) then mret (- EINVAL, None)
    else addr ← lift (deref (head addrp)); one_sid OCON_NODE (has_node addr) SECINITSID_NODE
  else if domain =? AF_INET6 then
    if negb (addrlen =? 16) then mret (- EINVAL, None)
    else if (length addrp <? 4)%nat then lift Undef
    else one_sid OCON_NODE6 (has_node6 addrp) SECINITSID_NODE
  else mret (0, Some SECINITSID_NODE).

(** ** File systems without labels of their own *)

(** The loop over [policydb->genfs], which stops at the first name that is not
    before [fstype]. *)
Fixpoint genfs_walk (fstype_ : string) (l : list genfs_t) : list genfs_t * list genfs_t :=
  match l with
  | [] => ([], [])
  | g :: l' =>
      if strcmp fstype_ (fstype g) <=? 0 then ([], l)
      else let '(before, rest) := genfs_walk fstype_ l' in (g :: before, rest)
  end.

(** [strncmp(s, path, strlen(s)) == 0] *)
Fixpoint starts_with (s path : string) : bool :=
  match s, path with
  | EmptyString, _ => true
  | String a s', String b path' => Ascii.eqb a b && starts_with s' path'
  | String _ _, EmptyString => false
  end.

Definition has_path (path : string) (sclass : Z) (c : ocontext) : outcome bool :=
  match oc_u c with
  | OC_name s => mret (((oc_v c =? 0) || (sclass =? oc_v c)) && starts_with s path)
  | _ => Undef
  end.

(** The status and [*sid] when it is set. *)
Definition sepol_genfs_sid (fstype_ path : string) (sclass : Z) : M sstate (Z * option Z) :=
  p ← active;
  let '(before, rest) := genfs_walk fstype_ (genfs p) in
  match rest with
  | [] => mret (- ENOENT, Some SECINITSID_UNLABELED)
  | g :: after =>
      if negb (strcmp fstype_ (fstype g) =? 0) then mret (- ENOENT, Some SECINITSID_UNLABELED)
      else
        '(bf, r) ← lift (label_walk (has_path path sclass) (gf_head g));
        match r with
        | None => mret (- ENOENT, Some SECINITSID_UNLABELED)
        | Some (c, af) =>
            '(rc, c) ← assign_one c;
            _ ← update_policy (set_genfs (before ++ GF (fstype g) (bf ++ c :: af) :: after));
            if negb (rc =? 0) then mret (rc, None) else mret (rc, Some (oc_sid0 c))
        end
  end.

(** The status, [*behavior] and [*sid] when they are set. *)
Definition sepol_fs_use (fstype_ : string) : M sstate (Z * Z * option Z) :=
  '(rc, r) ← find_label OCON_FSUSE (is_named fstype_) assign_one;
  match r with
  | Some c => mret (rc, oc_v c, if negb (rc =? 0) then None else Some (oc_sid0 c))
  | None =>
      '(rc, sid) ← sepol_genfs_sid fstype_ "/" SECCLASS_DIR;
      mret (0, if negb (rc =? 0) then SECURITY_FS_USE_NONE else SECURITY_FS_USE_GENFS, sid)
  end.

(** ** The contexts a user can reach *)

Definition SIDS_NEL : Z := 25.

(** The array [mysids] and its capacity [maxnel]; [rc] is the variable of the
    function, which keeps the status of the last decision. *)
Record reached := RCH { mysids : list Z; maxnel : Z; last_rc : Z }.

(** [inl] is a return with this status. *)
Definition ustate : Type := reached * context_struct.

(** The array grows when it is full. *)
Definition add_sid (sid : Z) (a : reached) : M sstate (Z + reached) :=
  if Z.of_nat (length (mysids a)) <? maxnel a then mret (inr (RCH (mysids a ++ [sid]) (maxnel a) (last_rc a)))
  else in_memory (λ m,
    let '(ok, m) := malloc m in
    if negb ok then mret (inl (- ENOMEM), m)
    else mret (inr (RCH (mysids a ++ [sid]) (maxnel a + SIDS_NEL) (last_rc a)), m)).

(** The body of the inner loop for the type [j + 1]; [usercon] has its user and
    its role.  Without MLS its range is never initialised, and looking for its
    SID reads it. *)
Definition reach_type (fuel : nat) (p : policydb) (fromcon : context_struct) (u : user_datum) (s : ustate) (j : Z)
    : M sstate (Z + ustate) :=
  let '(a, usercon) := s in
  let usercon := CTX (user usercon) (role usercon) (j + 1) (range usercon) in
  if type usercon =? type fromcon then mret (inr (a, usercon))
  else
    let '(rc, usercon) := mls_setup_user_range fromcon u usercon (negb (mls p =? 0)) in
    if negb (rc =? 0) then mret (inr (a, usercon))
    else
      '(rc, avd, _) ← lift (context_struct_compute_av fuel p fromcon usercon SECCLASS_PROCESS PROCESS__TRANSITION zero_avd (Some 0));
      let a := RCH (mysids a) (maxnel a) rc in
      if negb (rc =? 0) || negb (has_bits (allowed avd) PROCESS__TRANSITION) then mret (inr (a, usercon))
      else if mls p =? 0 then lift Undef
      else
        '(rc, sid) ← to_sid usercon;
        if negb (rc =? 0) then mret (inl rc)
        else
          r ← add_sid sid (RCH (mysids a) (maxnel a) rc);
          mret (match r with inl rc => inl rc | inr a => inr (a, usercon) end).

(** A loop whose body can leave the function. *)
Fixpoint each {A S} (f : S → A → M sstate (Z + S)) (l : list A) (s : S) : M sstate (Z + S) :=
  match l with
  | [] => mret (inr s)
  | x :: l' => r ← f s x; match r with inl rc => mret (inl rc) | inr s => each f l' s end
  end.

Definition reach_role (fuel : nat) (p : policydb) (fromcon : context_struct) (u : user_datum) (s : ustate) (i : Z)
    : M sstate (Z + ustate) :=
  let '(a, usercon) := s in
  r ← lift (role_struct p (i + 1));
  rd ← lift (deref r);
  let usercon := CTX (user usercon) (i + 1) (type usercon) (range usercon) in
  each (reach_type fuel p fromcon u) (ebitmap_set_bits (types (r_types rd))) (a, usercon).

(** The status, and the array with its length when they are set. *)
Definition sepol_get_user_sids (fuel : nat) (fromsid : Z) (username : string) : M sstate (Z * option (list Z)) :=
  fromcon ← search fromsid;
  match fromcon with
  | None => mret (- EINVAL, None)
  | Some fromcon =>
      p ← active;
      match hashtab_search (table (p_users p)) username with
      | None => mret (- EINVAL, None)
      | Some q =>
          u ← lift (deref (at_index (user_mem p) q));
          ok ← in_memory (λ m, mret (malloc m));
          if negb ok then mret (- ENOMEM, None)
          else
            r ← each (reach_role fuel p fromcon u) (ebitmap_set_bits (rs_roles (u_roles u)))
                  (RCH [] SIDS_NEL 0, CTX (u_value u) 0 0 mls_range_init);
            match r with
            | inl rc => mret (rc, None)
            | inr (a, _) => mret (last_rc a, Some (mysids a))
            end
      end
  end.

(** ** A new policy under the same SIDs *)

Definition validate_perm (h : hashtab_t string perm_datum) (key : string) (perdatum : perm_datum) : M () Z :=
  match hashtab_search h key with
  | None => mret (-1)
  | Some perdatum2 => mret (if negb (pd_value perdatum =? pd_value perdatum2) then -1 else 0)
  end.

Definition validate_class (oldp newp : policydb) (key : string) (q : ptr) : M () Z :=
  cladatum ← lift (deref (at_index (class_mem oldp) q));
  match hashtab_search (table (p_classes newp)) key with
  | None => mret (-1)
  | Some q2 =>
      cladatum2 ← lift (deref (at_index (class_mem newp) q2));
      if negb (c_value cladatum =? c_value cladatum2) then mret (-1)
      else
        let own := hashtab_map (table (permissions cladatum)) (validate_perm (table (permissions cladatum2))) in
        match comdatum cladatum, comdatum cladatum2 with
        | Some com, Some com2 =>
            ret ← hashtab_map (table (cm_permissions com)) (validate_perm (table (cm_permissions com2)));
            if negb (ret =? 0) then mret (-1)
            else ret ← own; mret (if negb (ret =? 0) then -1 else 0)
        | None, None => ret ← own; mret (if negb (ret =? 0) then -1 else 0)
        | _, _ => mret (-1)
        end
  end.

(** The state of the walk over the old table: the new table and the memory. *)
Definition clone_sid (sid : Z) (context : context_struct) (s : sidtab * mem) : outcome (Z * context_struct * (sidtab * mem)) :=
  let '(rc, t, m) := sepol_sidtab_insert s.1 sid context s.2 in mret (rc, context, (t, m)).

(** In a permissive server the invalid context is reported and kept. *)
Definition convert_context_handle_invalid_context : Z := if negb (selinux_enforcing =? 0) then - EINVAL else 0.

(** The text of the old context is printed: when there is no memory for it, the
    pointer that is printed and freed was never initialised. *)
Definition convert_bad (oldp : policydb) (rc : Z) (oldc c : context_struct) (m : mem) : outcome (Z * context_struct * mem) :=
  '(_, text, m) ← context_to_string oldp oldc m;
  _ ← deref text;
  mret (rc, c, m).

Definition convert_context (oldp newp : policydb) (key : Z) (c : context_struct) (m : mem) : outcome (Z * context_struct * mem) :=
  let '(rc, oldc, m) := context_cpy context_init c m in
  if negb (rc =? 0) then mret (- ENOMEM, c, m)
  else
    u ← val_name oldp SYM_USERS (user c - 1);
    match hashtab_search (table (p_users newp)) u with
    | None => convert_bad oldp (- EINVAL) oldc c m
    | Some q =>
        usrdatum ← deref (at_index (user_mem newp) q);
        let c := CTX (u_value usrdatum) (role c) (type c) (range c) in
        r ← val_name oldp SYM_ROLES (role c - 1);
        match hashtab_search (table (p_roles newp)) r with
        | None => convert_bad oldp (- EINVAL) oldc c m
        | Some q =>
            role ← deref (at_index (role_mem newp) q);
            let c := CTX (user c) (r_value role) (type c) (range c) in
            t ← val_name oldp SYM_TYPES (type c - 1);
            match hashtab_search (table (p_types newp)) t with
            | None => convert_bad oldp (- EINVAL) oldc c m
            | Some q =>
                typdatum ← deref (at_index (type_mem newp) q);
                let c := CTX (user c) (Context.role c) (t_value typdatum) (range c) in
                '(rc, c, m) ← mls_convert_context oldp newp c m;
                if negb (rc =? 0) then convert_bad oldp rc oldc c m
                else
                  ok ← context_is_valid newp c;
                  if ok : bool then mret (0, c, m)
                  else
                    let rc := convert_context_handle_invalid_context in
                    if negb (rc =? 0) then convert_bad oldp rc oldc c m else mret (0, c, m)
            end
        end
    end.

Section load.
Context (read_module : policydb_compat_info → policydb → R policydb) (read_module_ranges : policydb → R policydb).

(** The policy of an image, and the flag of avtab.c; [inl] is the status. *)
Definition new_policy (data : list Z) : M sstate (Z + policydb) := λ s,
  let out (c : bool) (m : mem) := (SRV (sv_policydb s.1) (sv_sidtab s.1) c, m) in
  let fp := PF PF_USE_MEMORY data (Z.of_nat (length data)) [] in
  match policydb_init (FS fp (sv_compat s.1) s.2) with
  | Ret (inr p, f) =>
      match policydb_read read_module read_module_ranges p (FS fp (compat f) (fmem f)) with
      | Ret (inr p, f) => Ret (inr p, out (compat f) (fmem f))
      | Ret (inl _, f) =>
          (* policydb_destroy(&mypolicydb): the policy in use *)
          Ret (inl (- EINVAL), (SRV None (sv_sidtab s.1) (compat f), fmem f))
      | Exit z => Exit z
      | Undef => Undef
      end
  | Ret (inl rc, f) => if rc =? 0 then Undef else Ret (inl (- ENOMEM), out (compat f) (fmem f))
  | Exit z => Exit z
  | Undef => Undef
  end.

(** The walks over the tables of SIDs. *)
Definition clone_sids (newsidtab : sidtab) : M sstate (Z * sidtab) := λ s,
  '(ret, t, (newsidtab, m)) ← sepol_sidtab_map clone_sid (sv_sidtab s.1) (newsidtab, s.2);
  Ret ((ret, newsidtab), (with_sidtab t s.1, m)).

Definition convert_sids (oldp newp : policydb) (newsidtab : sidtab) : M sstate sidtab :=
  in_memory (sepol_sidtab_map_remove_on_error (convert_context oldp newp) newsidtab).

(** [junk] is the variable [newsidtab] before it is initialised. *)
Definition sepol_load_policy (data : list Z) (junk : sidtab) : M sstate Z :=
  r ← new_policy data;
  match r with
  | inl rc => mret rc
  | inr newp =>
      newsidtab ← in_memory (λ m, let '(_, t, m) := sepol_sidtab_init junk m in mret (t, m));
      oldp ← active;
      '(ret, _) ← lift (hashtab_map (table (p_classes oldp)) (validate_class oldp newp) ());
      if negb (ret =? 0) then mret (- EINVAL)
      else
        _ ← modify (λ '(s, m), (with_sidtab (sepol_sidtab_shutdown (sv_sidtab s)) s, m));
        '(ret, newsidtab) ← clone_sids newsidtab;
        if negb (ret =? 0) then mret (- ENOMEM)
        else
          newsidtab ← convert_sids oldp newp newsidtab;
          _ ← modify (λ '(s, m), (SRV (Some newp) (sepol_sidtab_set newsidtab) (sv_compat s), m));
          mret 0
  end.

End load.
