(* ===== verification/SidFacts.v ===== *)
(** * What the requests over SIDs guarantee

    An invariant of the server ([server_ok]): the table of SIDs is well formed,
    and a SID kept in a label names the context of that label.  Every request
    keeps it, only adds SIDs, and answers with the context that the policy
    configures. *)

From S2P Require Import Prelude Policyfile Ebitmap Hashtab Avtab Context Policydb Mls Cond AvtabFile LabelFile PolicydbFile PolicydbSound TypeMaps Services Sidtab MlsText ContextText SidServer.

(** ** The invariant *)

Definition sid_names (t : sidtab) (sid : Z) (c : context_struct) : Prop := sid = 0 ∨ sid_map t !! sid = Some c.

Definition labelled (t : sidtab) (c : ocontext) : Prop :=
  sid_names t (oc_sid0 c) (oc_context0 c) ∧ sid_names t (oc_sid1 c) (oc_context1 c).

(** The labels of a policy for SELinux: the variants its kinds use, and SIDs
    that name their contexts.  Initial SIDs are not looked up. *)
Record label_sids_ok (t : sidtab) (p : policydb) : Prop := {
  lo_length : length (ocontexts p) = Z.to_nat OCON_NUM;
  lo_kinds : ∀ k l, ocontexts p !! k = Some l → Z.of_nat k ≠ OCON_ISID →
    Forall (λ c, labelled t c ∧ kind_key (Z.of_nat k) (oc_u c)) l;
  lo_genfs : Forall (λ g, Forall (λ c, labelled t c ∧ oc_u c = OC_name (oc_path c)) (gf_head g)) (genfs p);
  lo_sorted : genfs_sorted (genfs p) ∧ Forall (λ g, paths_sorted (gf_head g)) (genfs p)
}.

Definition server_ok (s : server) : Prop :=
  sidtab_wf (sv_sidtab s) ∧ ∀ p, sv_policydb s = Some p → label_sids_ok (sv_sidtab s) p.

(** The table after a request. *)
Record grown (t t' : sidtab) : Prop := {
  gr_wf : sidtab_wf t';
  gr_map : sid_map t ⊆ sid_map t';
  gr_next : next_sid t <= next_sid t';
  gr_shutdown : shutdown t' = shutdown t
}.

Lemma grown_refl t : sidtab_wf t → grown t t.
Proof. by split. Qed.

Lemma grown_trans t1 t2 t3 : grown t1 t2 → grown t2 t3 → grown t1 t3.
Proof. intros [] []. split; [done|by etrans|lia|congruence]. Qed.

Lemma sid_names_grown t t' sid c : grown t t' → sid_names t sid c → sid_names t' sid c.
Proof. intros [_ Hm _ _] [?|H]; [by left|right]. by eapply lookup_weaken. Qed.

Lemma labelled_grown t t' c : grown t t' → labelled t c → labelled t' c.
Proof. intros Hg [H0 H1]. split; by eapply sid_names_grown. Qed.

Lemma label_sids_grown t t' p : grown t t' → label_sids_ok t p → label_sids_ok t' p.
Proof.
  intros Hg [Hl Hk Hf Hs]. split; [done| | |done].
  - intros k l Hkl Hne. eapply Forall_impl; [by apply (Hk k)|]. intros c [? ?]. split; [by eapply labelled_grown|done].
  - eapply Forall_impl; [exact Hf|]. intros g Hgf. eapply Forall_impl; [exact Hgf|]. intros c [? ?]. split; [by eapply labelled_grown|done].
Qed.

(** Why no SID could be assigned. *)
Definition no_room (t : sidtab) (m : mem) : Prop := next_sid t = UINT_MAX ∨ shutdown t ≠ 0 ∨ ¬ plenty m.

(** ** Assigning *)

Lemma to_sid_correct s m c : sidtab_wf (sv_sidtab s) →
  ∃ rc sid t m', to_sid c (s, m) = Ret ((rc, sid), (with_sidtab t s, m')) ∧
    grown (sv_sidtab s) t ∧ (plenty m → plenty m') ∧
    ((rc = 0 ∧ 0 < sid ∧ sid_map t !! sid = Some c) ∨ (rc = - ENOMEM ∧ sid = 0 ∧ no_room t m)).
Proof.
  intros Hs. destruct (sepol_sidtab_context_to_sid_correct (sv_sidtab s) c m Hs) as (rc&sid&t&m'&E&Hwf&Hp&Hsh&H).
  exists rc, sid, t, m'. split; [unfold to_sid; cbn [fst snd]; by rewrite E|]. pose proof Hs as (_&Hn&Hf).
  destruct H as [(->&Hc&->&_)|[(->&_&->&Hnone&Hmap&Hnext)|(->&->&->&_&Hwhy)]].
  - split; [by apply grown_refl|]. split; [done|]. left. split_and!; [done| |done]. by apply Hf in Hc as [? _].
  - split; [split; [done|rewrite Hmap; by apply insert_subseteq|lia|done]|]. split; [done|]. left.
    split_and!; [done|lia|]. rewrite Hmap. apply lookup_insert_eq.
  - split; [by apply grown_refl|]. split; [done|]. by right.
Qed.

(** The same label but for its SIDs. *)
Definition same_label (c c' : ocontext) : Prop :=
  oc_u c' = oc_u c ∧ oc_v c' = oc_v c ∧ oc_context0 c' = oc_context0 c ∧ oc_context1 c' = oc_context1 c.

Lemma assign_one_correct s m c : sidtab_wf (sv_sidtab s) → labelled (sv_sidtab s) c →
  ∃ rc c' t m', assign_one c (s, m) = Ret ((rc, c'), (with_sidtab t s, m')) ∧
    grown (sv_sidtab s) t ∧ (plenty m → plenty m') ∧ same_label c c' ∧ labelled t c' ∧
    ((rc = 0 ∧ sid_map t !! oc_sid0 c' = Some (oc_context0 c)) ∨ (rc = - ENOMEM ∧ no_room t m)).
Proof.
  intros Hs [H0 H1]. unfold assign_one. destruct (Z.eqb_spec (oc_sid0 c) 0) as [E|E].
  - destruct (to_sid_correct s m (oc_context0 c) Hs) as (rc&sid&t&m'&Et&Hg&Hp&H). unfold mbind, M_bind. rewrite Et.
    exists rc, (set_sid0 sid c), t, m'. split; [done|]. split; [done|]. split; [done|]. split; [done|].
    split; [|destruct H as [(?&_&?)|(?&_&?)]; [by left|by right]].
    split; [|by apply (sid_names_grown (sv_sidtab s))]. destruct H as [(_&_&?)|(_&->&_)]; [by right|by left].
  - exists 0, c, (sv_sidtab s), m. split; [by destruct s|]. split; [by apply grown_refl|]. split; [done|]. split; [done|].
    split; [done|]. left. split; [done|]. by destruct H0.
Qed.

Lemma assign_two_correct s m c : sidtab_wf (sv_sidtab s) → labelled (sv_sidtab s) c →
  ∃ rc c' t m', assign_two c (s, m) = Ret ((rc, c'), (with_sidtab t s, m')) ∧
    grown (sv_sidtab s) t ∧ (plenty m → plenty m') ∧ same_label c c' ∧ labelled t c' ∧
    ((rc = 0 ∧ sid_map t !! oc_sid0 c' = Some (oc_context0 c) ∧ sid_map t !! oc_sid1 c' = Some (oc_context1 c)) ∨
     (rc = - ENOMEM ∧ no_room t m)).
Proof.
  intros Hs [H0 H1]. unfold assign_two. destruct ((oc_sid0 c =? 0) || (oc_sid1 c =? 0)) eqn:E.
  - destruct (to_sid_correct s m (oc_context0 c) Hs) as (rc&sid&t&m'&Et&Hg&Hp&H). unfold mbind, M_bind. rewrite Et.
    pose proof (sid_names_grown _ _ _ _ Hg H1) as H1'.
    destruct H as [(->&Hpos&Hsid)|(->&->&Hno)]; cbn [Z.eqb negb].
    + destruct (to_sid_correct (with_sidtab t s) m' (oc_context1 c)) as (rc&sid1&t1&m1&Et1&Hg1&Hp1&H); [apply Hg|].
      cbn [set_sid0 oc_context1]. rewrite Et1. pose proof (gr_map _ _ Hg1) as Hsub. cbn [with_sidtab sv_sidtab] in *.
      assert (Hsid' : sid_map t1 !! sid = Some (oc_context0 c)) by (by eapply lookup_weaken).
      exists rc, (set_sid1 sid1 (set_sid0 sid c)), t1, m1. split; [done|]. split; [by eapply grown_trans|]. split; [auto|].
      split; [done|]. split; [split; [by right|]|].
      * destruct H as [(_&_&?)|(_&->&_)]; [by right|by left].
      * destruct H as [(?&_&?)|(?&_&[?|[?|Hno]])]; [by left|right..]; (split; [done|]); [by left|right; by left|].
        right. right. intros P. by apply Hno, Hp.
    + exists (- ENOMEM), (set_sid0 0 c), t, m'. split; [done|]. split; [done|]. split; [done|]. split; [done|].
      split; [split; [by left|done]|]. by right.
  - apply orb_false_iff in E as [E0%Z.eqb_neq E1%Z.eqb_neq].
    exists 0, c, (sv_sidtab s), m. split; [by destruct s|]. split; [by apply grown_refl|]. split; [done|]. split; [done|].
    split; [done|]. left. destruct H0, H1; done.
Qed.

(** ** Looking a label up *)

(** The first label that fits. *)
Lemma label_walk_find test f l : Forall (λ c, test c = Ret (f c)) l →
  match find f l with
  | None => label_walk test l = Ret (l, None)
  | Some c => f c = true ∧ ∃ before after, l = before ++ c :: after ∧ label_walk test l = Ret (before, Some (c, after))
  end.
Proof.
  induction 1 as [|c l Hc Hl IH]; [done|]. cbn [find label_walk]. rewrite Hc. cbn [mbind outcome_bind].
  destruct (f c) eqn:E; [split; [done|]; by exists [], l|]. destruct (find f l) as [c'|].
  - destruct IH as (Hf&before&after&->&->). split; [done|]. by exists (c :: before), after.
  - by rewrite IH.
Qed.

(** The policy after a label of a kind has been given SIDs. *)
Lemma store_label_ok t p k before c c' after : label_sids_ok t p → ocontexts p !! k = Some (before ++ c :: after) →
  Z.of_nat k ≠ OCON_ISID → same_label c c' → labelled t c' →
  label_sids_ok t (set_ocontexts (set_index (ocontexts p) (Z.of_nat k) (before ++ c' :: after)) p).
Proof.
  intros [Hl Hk Hf Hs] Hkl Hne (Hu&_) Hc'. split; cbn [ocontexts set_ocontexts genfs]; [|intros j l|done|done].
  - unfold set_index. by rewrite length_insert.
  - unfold set_index. rewrite Nat2Z.id. intros [(<-&<-&_)|[_ Hj]]%list_lookup_insert_Some Hnej; [|by apply (Hk j)].
    specialize (Hk k _ Hkl Hne). rewrite Forall_app, Forall_cons in Hk |- *. destruct Hk as (?&[_ Hkk]&?).
    rewrite Hu. by split_and!.
Qed.

(** What the entries and the names of a policy are, but for SIDs. *)
Definition same_labels (p p' : policydb) : Prop :=
  ∃ ocs gf, p' = set_genfs gf (set_ocontexts ocs p).

Section lookup.
Context (assign : ocontext → M sstate (Z * ocontext)) (assigned : sidtab → ocontext → ocontext → Prop).
Hypothesis assign_correct : ∀ s m c, sidtab_wf (sv_sidtab s) → labelled (sv_sidtab s) c →
  ∃ rc c' t m', assign c (s, m) = Ret ((rc, c'), (with_sidtab t s, m')) ∧
    grown (sv_sidtab s) t ∧ (plenty m → plenty m') ∧ same_label c c' ∧ labelled t c' ∧
    ((rc = 0 ∧ assigned t c c') ∨ (rc = - ENOMEM ∧ no_room t m)).

Lemma find_label_correct s m p k l test f : server_ok s → sv_policydb s = Some p → ocontexts p !! k = Some l →
  Z.of_nat k ≠ OCON_ISID → Forall (λ c, test c = Ret (f c)) l →
  ∃ rc r s' m', find_label (Z.of_nat k) test assign (s, m) = Ret ((rc, r), (s', m')) ∧
    server_ok s' ∧ grown (sv_sidtab s) (sv_sidtab s') ∧ (plenty m → plenty m') ∧
    (∃ p', sv_policydb s' = Some p' ∧ same_labels p p') ∧
    match find f l with
    | None => rc = 0 ∧ r = None ∧ s' = s
    | Some c => f c = true ∧ c ∈ l ∧ ∃ c', r = Some c' ∧ same_label c c' ∧
        ((rc = 0 ∧ assigned (sv_sidtab s') c c') ∨ (rc = - ENOMEM ∧ no_room (sv_sidtab s') m))
    end.
Proof.
  intros [Hw Hl] Hp Hkl Hne Htest. unfold find_label, kind_labels, active, lift. unfold mbind, M_bind, outcome_bind. cbn [fst snd].
  rewrite Hp. cbn [deref]. unfold at_index. destruct (Z.ltb_spec (Z.of_nat k) 0); [lia|]. rewrite Nat2Z.id, Hkl. cbn [deref].
  assert (Hsame : same_labels p p) by (exists (ocontexts p), (genfs p); by destruct p).
  pose proof (label_walk_find test f l Htest) as Hwalk. destruct (find f l) as [c|].
  - destruct Hwalk as (Hfc&before&after&->&->). specialize (Hl p Hp) as Hlp.
    assert (Hc : labelled (sv_sidtab s) c).
    { pose proof (lo_kinds _ _ Hlp k _ Hkl Hne) as Hall. rewrite Forall_app, Forall_cons in Hall. by destruct Hall as (_&[? _]&_). }
    destruct (assign_correct s m c Hw Hc) as (rc&c'&t&m'&E&Hg&Hpl&Hsl&Hlab&Hout). rewrite E.
    unfold store_labels, update_policy. cbn [fst snd with_sidtab sv_policydb]. rewrite Hp. cbn [deref].
    eexists rc, (Some c'), _, m'. split; [done|]. cbn [with_policy sv_sidtab with_sidtab sv_policydb]. split; [|split_and!; try done].
    + split; [apply Hg|]. intros p' [= <-]. eapply store_label_ok; [by eapply label_sids_grown|done..].
    + eexists. split; [done|]. exists (set_index (ocontexts p) (Z.of_nat k) (before ++ c' :: after)), (genfs p). by destruct p.
    + apply elem_of_app. right. left.
    + by exists c'.
  - rewrite Hwalk. exists 0, None, s, m. split; [done|]. split; [by split|]. split; [by apply grown_refl|]. split; [done|].
    split; [by exists p|done].
Qed.
End lookup.

(** The answer of a lookup with one SID. *)
Definition answers (s : server) (m : mem) (r : option context_struct) (otherwise : Z) (o : outcome ((Z * option Z) * sstate)) : Prop :=
  ∃ rc sid s' m', o = Ret ((rc, sid), (s', m')) ∧ server_ok s' ∧ grown (sv_sidtab s) (sv_sidtab s') ∧ (plenty m → plenty m') ∧
    match r with
    | None => rc = 0 ∧ sid = Some otherwise
    | Some c => (rc = 0 ∧ ∃ k, sid = Some k ∧ sid_map (sv_sidtab s') !! k = Some c) ∨
                (rc = - ENOMEM ∧ sid = None ∧ no_room (sv_sidtab s') m)
    end.

Lemma one_sid_correct s m p k l test f otherwise : server_ok s → sv_policydb s = Some p → ocontexts p !! k = Some l →
  Z.of_nat k ≠ OCON_ISID → Forall (λ c, test c = Ret (f c)) l →
  answers s m (oc_context0 <$> find f l) otherwise (one_sid (Z.of_nat k) test otherwise (s, m)).
Proof.
  intros Hs Hp Hkl Hne Htest.
  destruct (find_label_correct assign_one _ assign_one_correct s m p k l test f Hs Hp Hkl Hne Htest)
    as (rc&r&s'&m'&E&Hs'&Hg&Hpl&_&H).
  unfold one_sid, answers. unfold mbind, M_bind. rewrite E. destruct (find f l) as [c|]; cbn [fmap option_fmap option_map].
  - destruct H as (_&_&c'&->&Hsl&[(->&Hm)|(->&Hno)]); cbn [Z.eqb negb].
    + eexists _, _, _, _. split; [done|]. split_and!; [done..|]. left. split; [done|]. by exists (oc_sid0 c').
    + eexists _, _, _, _. split; [done|]. split_and!; [done..|]. by right.
  - destruct H as (->&->&->). eexists _, _, _, _. split; [done|]. by split_and!.
Qed.

(** The answer of a lookup with two. *)
Definition answers_two (s : server) (m : mem) (r : option (context_struct * context_struct)) (otherwise : Z * Z)
    (o : outcome ((Z * option (Z * Z)) * sstate)) : Prop :=
  ∃ rc sids s' m', o = Ret ((rc, sids), (s', m')) ∧ server_ok s' ∧ grown (sv_sidtab s) (sv_sidtab s') ∧ (plenty m → plenty m') ∧
    match r with
    | None => rc = 0 ∧ sids = Some otherwise
    | Some (c0, c1) => (rc = 0 ∧ ∃ k0 k1, sids = Some (k0, k1) ∧
                         sid_map (sv_sidtab s') !! k0 = Some c0 ∧ sid_map (sv_sidtab s') !! k1 = Some c1) ∨
                       (rc = - ENOMEM ∧ sids = None ∧ no_room (sv_sidtab s') m)
    end.

Lemma two_sids_correct s m p k l test f otherwise : server_ok s → sv_policydb s = Some p → ocontexts p !! k = Some l →
  Z.of_nat k ≠ OCON_ISID → Forall (λ c, test c = Ret (f c)) l →
  answers_two s m ((λ c, (oc_context0 c, oc_context1 c)) <$> find f l) otherwise (two_sids (Z.of_nat k) test otherwise (s, m)).
Proof.
  intros Hs Hp Hkl Hne Htest.
  destruct (find_label_correct assign_two _ assign_two_correct s m p k l test f Hs Hp Hkl Hne Htest)
    as (rc&r&s'&m'&E&Hs'&Hg&Hpl&_&H).
  unfold two_sids, answers_two. unfold mbind, M_bind. rewrite E. destruct (find f l) as [c|]; cbn [fmap option_fmap option_map].
  - destruct H as (_&_&c'&->&Hsl&[(->&Hm)|(->&Hno)]); cbn [Z.eqb negb].
    + eexists _, _, _, _. split; [done|]. split_and!; [done..|]. left. split; [done|]. by exists (oc_sid0 c'), (oc_sid1 c').
    + eexists _, _, _, _. split; [done|]. split_and!; [done..|]. by right.
  - destruct H as (->&->&->). eexists _, _, _, _. split; [done|]. by split_and!.
Qed.

(** The labels of a kind, and when one of them fits. *)
Definition labels_of (p : policydb) (kind : Z) : list ocontext := default [] (ocontexts p !! Z.to_nat kind).

Definition name_fits (name : string) (c : ocontext) : bool :=
  match oc_u c with OC_name s => streq s name | _ => false end.
Definition port_fits (protocol port : Z) (c : ocontext) : bool :=
  match oc_u c with OC_port pr low high => (pr =? protocol) && (low <=? port) && (port <=? high) | _ => false end.
Definition pkey_fits (prefix pkey : Z) (c : ocontext) : bool :=
  match oc_u c with OC_ibpkey pre low high => (low <=? pkey) && (pkey <=? high) && (prefix =? pre) | _ => false end.
Definition endport_fits (dev : string) (port : Z) (c : ocontext) : bool :=
  match oc_u c with OC_ibendport d pt => (pt =? port) && streq dev d | _ => false end.
Definition node_fits (addr : Z) (c : ocontext) : bool :=
  match oc_u c with OC_node a mask => a =? Z.land addr mask | _ => false end.

Definition node6_fits (addrp : list Z) (c : ocontext) : bool :=
  match oc_u c with OC_node6 a mask => match_ipv6_addrmask addrp a mask | _ => false end.

Section kinds.
Context (s : server) (m : mem) (p : policydb).
Hypothesis (Hs : server_ok s) (Hp : sv_policydb s = Some p).

Lemma kind_tests kind (test : ocontext → outcome bool) f : 0 < kind < OCON_NUM → (∀ c, kind_key kind (oc_u c) → test c = Ret (f c)) →
  ocontexts p !! Z.to_nat kind = Some (labels_of p kind) ∧ Forall (λ c, test c = Ret (f c)) (labels_of p kind).
Proof.
  intros Hk Ht. destruct Hs as [_ Hl]. specialize (Hl p Hp). unfold labels_of.
  destruct (lookup_lt_is_Some_2 (ocontexts p) (Z.to_nat kind)) as [l E]; [rewrite (lo_length _ _ Hl); lia|].
  rewrite E. split; [done|]. cbn [default]. pose proof (lo_kinds _ _ Hl _ _ E) as Hall. rewrite Z2Nat.id in Hall by lia.
  eapply Forall_impl; [apply Hall; unfold OCON_ISID; lia|]. intros c [_ Hc]. by apply Ht.
Qed.

Lemma one_kind kind (test : ocontext → outcome bool) f otherwise : 0 < kind < OCON_NUM → (∀ c, kind_key kind (oc_u c) → test c = Ret (f c)) →
  answers s m (oc_context0 <$> find f (labels_of p kind)) otherwise (one_sid kind test otherwise (s, m)).
Proof.
  intros Hk Ht. destruct (kind_tests kind test f Hk Ht) as [E Hall].
  pose proof (one_sid_correct s m p (Z.to_nat kind) _ test f otherwise Hs Hp E) as H. rewrite Z2Nat.id in H by lia.
  apply H; [unfold OCON_ISID; lia|done].
Qed.

Lemma two_kind kind (test : ocontext → outcome bool) f otherwise : 0 < kind < OCON_NUM → (∀ c, kind_key kind (oc_u c) → test c = Ret (f c)) →
  answers_two s m ((λ c, (oc_context0 c, oc_context1 c)) <$> find f (labels_of p kind)) otherwise (two_sids kind test otherwise (s, m)).
Proof.
  intros Hk Ht. destruct (kind_tests kind test f Hk Ht) as [E Hall].
  pose proof (two_sids_correct s m p (Z.to_nat kind) _ test f otherwise Hs Hp E) as H. rewrite Z2Nat.id in H by lia.
  apply H; [unfold OCON_ISID; lia|done].
Qed.
End kinds.

(** A label of a kind has the variant that the test reads. *)
Ltac label_key :=
  let c := fresh in let H := fresh in
  intros c H; unfold is_named, has_port, has_pkey, has_endport, has_node, has_node6,
    name_fits, port_fits, pkey_fits, endport_fits, node_fits, node6_fits;
  destruct (oc_u c); try reflexivity; exfalso; first [discriminate H|destruct H as [H|[H|H]]; discriminate H|destruct H].

(** ** File systems *)

Lemma starts_with_spec s path : starts_with s path = true ↔ ∃ r, path = (s +:+ r)%string.
Proof.
  revert path. induction s as [|a s IH]; intros path.
  - split; [intros _; by exists path|done].
  - destruct path as [|b path]; [split; [done|by intros (r&[=])]|]. cbn [starts_with]. rewrite andb_true_iff, IH, Ascii.eqb_eq. split.
    + intros [-> (r&->)]. by exists r.
    + intros (r&Hr). rewrite append_cons in Hr. injection Hr as -> ->. split; [done|by exists r].
Qed.

(** An entry that applies to a path and a class. *)
Definition path_fits (path : string) (sclass : Z) (c : ocontext) : bool :=
  ((oc_v c =? 0) || (sclass =? oc_v c)) && starts_with (oc_path c) path.

Definition genfs_label (p : policydb) (name path : string) (sclass : Z) : option ocontext :=
  g ← find (λ g, streq name (fstype g)) (genfs p);
  find (path_fits path sclass) (gf_head g).

Lemma genfs_walk_spec name l : genfs_sorted l →
  match find (λ g, streq name (fstype g)) l with
  | Some g => fstype g = name ∧ ∃ before after, l = before ++ g :: after ∧ genfs_walk name l = (before, g :: after)
  | None => ∃ before rest, genfs_walk name l = (before, rest) ∧ match rest with g :: _ => strcmp name (fstype g) ≠ 0 | [] => True end
  end.
Proof.
  induction l as [|g l IH]; intros Hs; [by exists [], []|]. apply StronglySorted_cons in Hs as [Hg Hs].
  cbn [find genfs_walk]. unfold streq at 1. destruct (Z.eqb_spec (strcmp name (fstype g)) 0) as [E|E].
  - rewrite E. cbn. split; [symmetry; by apply strcmp_eq|]. by exists [], l.
  - destruct (Z.leb_spec (strcmp name (fstype g)) 0) as [Hle|Hgt].
    + assert (find (λ g, streq name (fstype g)) l = None) as ->.
      { destruct (find _ l) as [g'|] eqn:Ef; [|done]. apply find_some in Ef as [Hin%list_elem_of_In Heq%streq_spec].
        rewrite Forall_forall in Hg. specialize (Hg g' Hin). rewrite <- Heq in Hg. lia. }
      by exists [], (g :: l).
    + specialize (IH Hs). destruct (find _ l) as [g'|].
      * destruct IH as (?&before&after&->&->). split; [done|]. by exists (g :: before), after.
      * destruct IH as (before&rest&->&Hrest). by exists (g :: before), rest.
Qed.

Lemma has_path_test path sclass l : Forall (λ c, oc_u c = OC_name (oc_path c)) l →
  Forall (λ c, has_path path sclass c = Ret (path_fits path sclass c)) l.
Proof. intros Hl. eapply Forall_impl; [exact Hl|]. intros c Hc. unfold has_path. by rewrite Hc. Qed.

(** Order is a matter of paths and classes, which do not change. *)
Lemma paths_sorted_ext l l' : (λ c, (oc_u c, oc_v c)) <$> l' = (λ c, (oc_u c, oc_v c)) <$> l → paths_sorted l → paths_sorted l'.
Proof.
  unfold paths_sorted. revert l'. induction l as [|c l IH]; intros [|c' l'] E Hs; try done.
  cbn in E. injection E as Eu Ev El. apply StronglySorted_cons in Hs as [Hc Hs]. apply StronglySorted_cons. split; [|by apply IH].
  clear IH Hs. revert l El Hc. induction l' as [|d' l' IH]; intros [|d l] El Hc; try done.
  cbn in El. injection El as Fu Fv El. apply Forall_cons in Hc as [Hd Hc]. constructor; [|by eapply IH].
  revert Hd. unfold same_path, oc_path. by rewrite Eu, Ev, Fu, Fv.
Qed.

Lemma genfs_sorted_ext l l' : fstype <$> l' = fstype <$> l → genfs_sorted l → genfs_sorted l'.
Proof.
  unfold genfs_sorted. revert l'. induction l as [|g l IH]; intros [|g' l'] E Hs; try done.
  cbn in E. injection E as Eg El. apply StronglySorted_cons in Hs as [Hg Hs]. apply StronglySorted_cons. split; [|by apply IH].
  clear IH Hs. revert l El Hg. induction l' as [|d' l' IH]; intros [|d l] El Hc; try done.
  cbn in El. injection El as Fu El. apply Forall_cons in Hc as [Hd Hc]. constructor; [|by eapply IH]. by rewrite Eg, Fu.
Qed.

Lemma store_genfs_ok t p before g after bf c c' af : label_sids_ok t p → genfs p = before ++ g :: after → gf_head g = bf ++ c :: af →
  same_label c c' → labelled t c' →
  label_sids_ok t (set_genfs (before ++ GF (fstype g) (bf ++ c' :: af) :: after) p).
Proof.
  intros [Hl Hk Hf [Hs Hps]] Hg Hh (Hu&Hv&_) Hc'. rewrite Hg in Hf, Hs, Hps.
  rewrite Forall_app, Forall_cons in Hf, Hps. destruct Hf as (Hf1&Hf2&Hf3), Hps as (Hp1&Hp2&Hp3).
  split; cbn [ocontexts set_genfs genfs]; [done|done| |split].
  - apply Forall_app; split; [done|]. apply Forall_cons; split; [|done]. cbn [gf_head]. rewrite Hh in Hf2.
    rewrite Forall_app, Forall_cons in Hf2 |- *. destruct Hf2 as (?&[_ Hp]&?). split_and!; [done..| |done].
    unfold oc_path in *. by rewrite Hu.
  - eapply genfs_sorted_ext; [|exact Hs]. by rewrite !fmap_app, !fmap_cons.
  - apply Forall_app; split; [done|]. apply Forall_cons; split; [|done]. cbn [gf_head]. rewrite Hh in Hp2.
    eapply paths_sorted_ext; [|exact Hp2]. rewrite !fmap_app, !fmap_cons. by rewrite Hu, Hv.
Qed.

Lemma sepol_genfs_sid_correct s m p name path sclass : server_ok s → sv_policydb s = Some p →
  ∃ rc sid s' m', sepol_genfs_sid name path sclass (s, m) = Ret ((rc, sid), (s', m')) ∧
    server_ok s' ∧ grown (sv_sidtab s) (sv_sidtab s') ∧ (plenty m → plenty m') ∧
    match genfs_label p name path sclass with
    | None => rc = - ENOENT ∧ sid = Some SECINITSID_UNLABELED ∧ s' = s
    | Some c => (rc = 0 ∧ ∃ k, sid = Some k ∧ sid_map (sv_sidtab s') !! k = Some (oc_context0 c)) ∨
                (rc = - ENOMEM ∧ sid = None ∧ no_room (sv_sidtab s') m)
    end.
Proof.
  intros [Hw Hl] Hp. pose proof (Hl p Hp) as Hlp. pose proof (lo_sorted _ _ Hlp) as [Hs _].
  unfold sepol_genfs_sid, active, lift. unfold mbind, M_bind, outcome_bind. cbn [fst snd]. rewrite Hp. cbn [deref].
  assert (Hnone : ∃ rc sid s' m', Ret ((- ENOENT, Some SECINITSID_UNLABELED), (s, m)) = Ret ((rc, sid), (s', m')) ∧
    server_ok s' ∧ grown (sv_sidtab s) (sv_sidtab s') ∧ (plenty m → plenty m') ∧
    rc = - ENOENT ∧ sid = Some SECINITSID_UNLABELED ∧ s' = s).
  { eexists _, _, _, _. split; [done|]. split; [by split|]. split; [by apply grown_refl|]. done. }
  pose proof (genfs_walk_spec name (genfs p) Hs) as Hwalk. unfold genfs_label.
  destruct (find _ (genfs p)) as [g|]; cbn [mbind option_bind].
  2: { destruct Hwalk as (before&rest&->&Hrest). destruct rest as [|g after]; [done|].
       destruct (Z.eqb_spec (strcmp name (fstype g)) 0); [done|]. done. }
  destruct Hwalk as (Hname&before&after&Hg&->). subst name. rewrite strcmp_refl. cbn [Z.eqb negb].
  pose proof (lo_genfs _ _ Hlp) as Hall. rewrite Hg in Hall. apply Forall_app in Hall as [_ [Hhead _]%Forall_cons].
  assert (Htest : Forall (λ c, has_path path sclass c = Ret (path_fits path sclass c)) (gf_head g)).
  { apply has_path_test. eapply Forall_impl; [exact Hhead|]. by intros c [_ ?]. }
  pose proof (label_walk_find _ _ _ Htest) as Hfind. destruct (find (path_fits path sclass) (gf_head g)) as [c|]; [|by rewrite Hfind].
  destruct Hfind as (Hfc&bf&af&Hh&->). rewrite Hh in Hhead. apply Forall_app in Hhead as [_ [[Hlab _] _]%Forall_cons].
  destruct (assign_one_correct s m c Hw Hlab) as (rc&c'&t&m'&E&Hgr&Hpl&Hsl&Hlab'&Hout). rewrite E.
  unfold update_policy. cbn [fst snd with_sidtab sv_policydb]. rewrite Hp. unfold mbind, outcome_bind. cbn [deref].
  set (s' := with_policy _ _).
  assert (Hs' : server_ok s').
  { split; [apply Hgr|]. intros p' [= <-]. by eapply store_genfs_ok; [eapply label_sids_grown| | | |]. }
  destruct Hout as [(->&Hm)|(->&Hno)]; cbn [Z.eqb negb].
  - eexists _, _, s', m'. split; [done|]. split_and!; [done..|]. left. split; [done|]. by exists (oc_sid0 c').
  - eexists _, _, s', m'. split; [done|]. split_and!; [done..|]. by right.
Qed.

(** The entry that is used has the longest path of those that apply. *)
Lemma genfs_label_longest p name path sclass c :
  genfs_sorted (genfs p) → Forall (λ g, paths_sorted (gf_head g)) (genfs p) →
  genfs_label p name path sclass = Some c →
  ∃ g, g ∈ genfs p ∧ fstype g = name ∧ c ∈ gf_head g ∧ path_fits path sclass c = true ∧
    ∀ c', c' ∈ gf_head g → path_fits path sclass c' = true → strlen (oc_path c') <= strlen (oc_path c).
Proof.
  intros Hs Hps H. unfold genfs_label in H. destruct (find _ (genfs p)) as [g|] eqn:Eg; [|done]. cbn in H.
  apply find_some in Eg as [Hin%list_elem_of_In Hname%streq_spec]. exists g. split; [done|]. split; [done|].
  rewrite Forall_forall in Hps. specialize (Hps g Hin). revert Hps H. unfold paths_sorted.
  induction (gf_head g) as [|d l IH]; [done|]. intros [Hd Hl]%StronglySorted_cons. cbn [find].
  destruct (path_fits path sclass d) eqn:E.
  - intros [= <-]. split; [left|]. split; [done|]. intros c' [->|Hc']%elem_of_cons _; [lia|].
    rewrite Forall_forall in Hd. by apply Hd.
  - intros H. destruct (IH Hl H) as (Hc&Hf&Hlong). split; [by right|]. split; [done|].
    intros c' [->|Hc']%elem_of_cons Hf'; [congruence|]. by apply Hlong.
Qed.

(** Without an entry none of the file system applies. *)
Lemma genfs_label_none p name path sclass : genfs_sorted (genfs p) → genfs_label p name path sclass = None →
  ∀ g c, g ∈ genfs p → fstype g = name → c ∈ gf_head g → path_fits path sclass c = false.
Proof.
  intros Hs H g c Hg <- Hc. unfold genfs_label in H. assert (Hfind : find (λ g', streq (fstype g) (fstype g')) (genfs p) = Some g).
  { clear H Hc. induction (genfs p) as [|g' l IH]; [by apply not_elem_of_nil in Hg|]. apply StronglySorted_cons in Hs as [Hall Hs]. cbn [find].
    apply elem_of_cons in Hg as [->|Hg]; [by rewrite (proj2 (streq_spec _ _) eq_refl)|].
    rewrite Forall_forall in Hall. specialize (Hall g Hg). destruct (streq (fstype g) (fstype g')) eqn:E; [|by apply IH].
    apply streq_spec in E. rewrite E, strcmp_refl in Hall. lia. }
  rewrite Hfind in H. cbn in H. by apply (find_none _ _ H), list_elem_of_In.
Qed.

(** ** Replacing the policy *)

Definition same_names (c c' : context_struct) : Prop := user c' = user c ∧ role c' = role c ∧ type c' = type c.

Lemma convert_level_names oldp newp l c m rc c' m' : convert_level oldp newp l c m = Ret (rc, c', m') → same_names c c'.
Proof.
  intros H. unfold convert_level in H. apply ret_bind_inv in H as (key&_&H).
  destruct (hashtab_search _ key) as [d|]; [|by injection H as <- <- <-]. apply ret_bind_inv in H as (lev&_&H).
  apply ret_bind_inv in H as ([[rc1 e] m1]&_&H). destruct (negb (rc1 =? 0)); by injection H as <- <- <-.
Qed.

Lemma mls_convert_names oldp newp c m rc c' m' : mls_convert_context oldp newp c m = Ret (rc, c', m') → same_names c c'.
Proof.
  intros H. unfold mls_convert_context in H. destruct (mls oldp =? 0); [by injection H as <- <- <-|].
  apply ret_bind_inv in H as ([[rc1 c1] m1]&H1&H). apply convert_level_names in H1 as (E1&E2&E3).
  destruct (negb (rc1 =? 0)); [by injection H as <- <- <-|]. apply convert_level_names in H as (F1&F2&F3).
  split_and!; congruence.
Qed.

(** The user, the role and the type keep their names. *)
Record renamed (oldp newp : policydb) (c c' : context_struct) : Prop := {
  rn_user : ∃ n q d, val_name oldp SYM_USERS (user c - 1) = Ret n ∧ hashtab_search (table (p_users newp)) n = Some q ∧
    at_index (user_mem newp) q = Some d ∧ user c' = u_value d;
  rn_role : ∃ n q d, val_name oldp SYM_ROLES (role c - 1) = Ret n ∧ hashtab_search (table (p_roles newp)) n = Some q ∧
    at_index (role_mem newp) q = Some d ∧ role c' = r_value d;
  rn_type : ∃ n q d, val_name oldp SYM_TYPES (type c - 1) = Ret n ∧ hashtab_search (table (p_types newp)) n = Some q ∧
    at_index (type_mem newp) q = Some d ∧ type c' = t_value d
}.

Lemma convert_bad_fails oldp rc oldc c m ret c' m' : convert_bad oldp rc oldc c m = Ret (ret, c', m') → ret = rc.
Proof.
  intros H. unfold convert_bad in H. apply ret_bind_inv in H as ([[? text] m1]&_&H).
  apply ret_bind_inv in H as (?&_&H). by injection H as <- _ _.
Qed.

(** What a context of the old table becomes. *)
Definition converted (oldp newp : policydb) (c : context_struct) (r : option context_struct) : Prop :=
  match r with Some c' => context_is_valid newp c' = Ret true ∧ renamed oldp newp c c' | None => True end.

Lemma convert_context_converted oldp newp key c m ret c' m' : convert_context oldp newp key c m = Ret (ret, c', m') →
  converted oldp newp c (if ret =? 0 then Some c' else None).
Proof.
  intros H. unfold convert_context in H. destruct (context_cpy context_init c m) as [[rc oldc] m1].
  destruct (negb (rc =? 0)); [by injection H as <- <- <-|]. apply ret_bind_inv in H as (u&Hu&H).
  destruct (hashtab_search _ u) as [uq|] eqn:Eu; [|by apply convert_bad_fails in H as ->].
  apply ret_bind_inv in H as (ud&Hud&H). cbn [user role type range] in H. apply ret_bind_inv in H as (r&Hr&H).
  destruct (hashtab_search _ r) as [rq|] eqn:Er; [|by apply convert_bad_fails in H as ->].
  apply ret_bind_inv in H as (rd&Hrd&H). cbn [user role type range] in H. apply ret_bind_inv in H as (t&Ht&H).
  destruct (hashtab_search _ t) as [tq|] eqn:Et; [|by apply convert_bad_fails in H as ->].
  apply ret_bind_inv in H as (td&Htd&H). cbn [user role type range] in H. apply ret_bind_inv in H as ([[rc2 c2] m2]&Hmls&H).
  apply mls_convert_names in Hmls as (E1&E2&E3). cbn [user role type] in E1, E2, E3.
  destruct (Z.eqb_spec rc2 0) as [->|Hne]; cbn [negb] in H.
  2: { apply convert_bad_fails in H as ->. by destruct (Z.eqb_spec rc2 0). }
  apply ret_bind_inv in H as (ok&Hok&H). destruct ok.
  - injection H as <- <- <-. cbn [Z.eqb converted]. split; [done|].
    destruct (at_index (user_mem newp) uq) as [ud'|] eqn:Fu; [injection Hud as ->|done].
    destruct (at_index (role_mem newp) rq) as [rd'|] eqn:Fr; [injection Hrd as ->|done].
    destruct (at_index (type_mem newp) tq) as [td'|] eqn:Ft; [injection Htd as ->|done].
    split; [by exists u, uq, ud|by exists r, rq, rd|by exists t, tq, td].
  - cbn in H. by apply convert_bad_fails in H as ->.
Qed.

(** Cloning copies the table. *)
Lemma clone_sids_correct s m t ret t' s' m' : sidtab_wf (sv_sidtab s) → sidtab_wf t → sid_map t = ∅ →
  clone_sids t (s, m) = Ret ((ret, t'), (s', m')) →
  s' = s ∧ (ret = 0 → sidtab_wf t' ∧ sid_map t' = sid_map (sv_sidtab s) ∧ shutdown t' = shutdown t).
Proof.
  intros Hs Ht Hempty H. unfold clone_sids in H. cbn [fst snd] in H. pose proof Hs as ((b&Eb&Hb)&Hn&Hf). pose proof Hb as [Htab _].
  pose proof (entries_keys_NoDup _ Htab) as Hnd. unfold entries in Hnd. cbn [sid_table htable] in Hnd.
  destruct (sepol_sidtab_map_inv clone_sid
    (λ done st, sidtab_wf st.1 ∧ shutdown st.1 = shutdown t ∧ ∀ k c, sid_map st.1 !! k = Some c ↔ (k, c) ∈ done) (λ _, True)
    (sv_sidtab s) b (t, m) Eb) as (ret2&[t2 m2]&E&Hinv).
  - intros dn sid c rest [t1 m1] Hes (Hw1&Hsh1&Hmap1). cbn [fst] in *. unfold clone_sid. cbn [fst snd].
    assert (Hsid : 0 < sid < next_sid (sv_sidtab s)).
    { apply (Hf sid c). apply (sid_map_Some _ b); [done..|]. rewrite Hes. apply elem_of_app. right. left. }
    pose proof (sepol_sidtab_insert_correct t1 sid c m1 Hw1 ltac:(lia)) as Hi.
    destruct (sepol_sidtab_insert t1 sid c m1) as [[rc t2] m2]. destruct Hi as (Hw2&_&Hsh2&Hi).
    exists rc, (t2, m2). split; [done|]. cbn [fst]. destruct Hi as [(->&_&Hmap&_)|[(->&_)|(->&_)]]; [|done..]. cbn [Z.eqb].
    split; [done|]. split; [congruence|]. intros k d. rewrite Hmap, elem_of_app, list_elem_of_singleton, <- Hmap1.
    assert (Hfresh : sid_map t1 !! sid = None).
    { apply eq_None_not_Some. intros [d' Hd%Hmap1]. rewrite Hes, fmap_app in Hnd. apply NoDup_app in Hnd as (_&Hnd&_).
      apply (Hnd sid); [apply list_elem_of_fmap; by exists (sid, d')|]. cbn. left. }
    rewrite lookup_insert_Some. split.
    + intros [[<- <-]|[_ ?]]; [by right|by left].
    + intros [Hk|[= -> ->]]; [right; split; [by intros ->; congruence|done]|by left].
  - cbn [fst]. split; [done|]. split; [done|]. intros k c. rewrite Hempty, elem_of_nil. done.
  - rewrite E in H. cbn [mbind outcome_bind] in H. injection H as <- <- <- <-. split; [by destruct s|]. intros ->. cbn [Z.eqb fst] in Hinv.
    destruct Hinv as (Hw&Hsh&Hmap). split; [done|]. split; [|done]. apply map_eq. intros k. apply option_eq. intros c.
    by rewrite Hmap, (sid_map_Some _ b).
Qed.

(** A table without memory takes no entry. *)
Lemma clone_sids_none s m t ret t' s' m' : sidtab_wf (sv_sidtab s) → sid_map (sv_sidtab s) ≠ ∅ → st_htable t = None →
  clone_sids t (s, m) = Ret ((ret, t'), (s', m')) → ret ≠ 0.
Proof.
  intros Hs Hne Ht H. unfold clone_sids in H. cbn [fst snd] in H. pose proof Hs as ((b&Eb&Hb)&Hn&Hf).
  destruct (sepol_sidtab_map_inv clone_sid (λ done st, st.1 = t ∧ done = []) (λ _, True) (sv_sidtab s) b (t, m) Eb)
    as (ret2&[t2 m2]&E&Hinv); [|done|].
  - intros dn sid c rest [t1 m1] _ [Et1 ->]. cbn [fst] in Et1. subst t1. unfold clone_sid, sepol_sidtab_insert. cbn [fst snd]. rewrite Ht.
    by eexists _, _.
  - rewrite E in H. cbn [mbind outcome_bind] in H. injection H as <- _ _ _. intros ->. cbn [Z.eqb] in Hinv. destruct Hinv as [_ Hj].
    apply Hne. unfold sid_map. by rewrite Eb, Hj.
Qed.

Lemma M_bind_inv {S A B} (c : M S A) (f : A → M S B) s b s' :
  (c ≫= f) s = Ret (b, s') → ∃ a s1, c s = Ret (a, s1) ∧ f a s1 = Ret (b, s').
Proof. unfold mbind, M_bind. destruct (c s) as [[a s1]| |]; [|done..]. by exists a, s1. Qed.

Section load.
Context (rm : policydb_compat_info → policydb → R policydb) (rr : policydb → R policydb).

(** The policy that is read is the one [load_policydb] reads. *)
Lemma new_policy_loaded data s m newp s' m' : new_policy rm rr data (s, m) = Ret (inr newp, (s', m')) →
  load_policydb rm rr data (sv_compat s, m) = Ret (Some newp, (sv_compat s', m')) ∧
  sv_policydb s' = sv_policydb s ∧ sv_sidtab s' = sv_sidtab s.
Proof.
  unfold new_policy, load_policydb, policydb_from_image. cbn [fst snd].
  destruct (policydb_init _) as [[[rc|p] f]| |]; [by destruct (rc =? 0)| |done..]. cbn [fst snd].
  destruct (policydb_read _ _ _ _) as [[[rc|q] f']| |]; [done| |done..]. by intros [= <- <- <-].
Qed.

(** A policy from a file has no SIDs in its labels. *)
Lemma loaded_label_sids t p : target_platform p = SEPOL_TARGET_SELINUX → policy_good p → label_sids_ok t p.
Proof.
  intros Ht Hp. destruct (pg_labels _ Hp) as [Hlen Hk]. destruct (pg_genfs _ Hp) as [Hs Hf]. split; [done| | |split; [done|]].
  - intros k l Hl Hne. eapply Forall_impl; [by apply (Hk k)|]. intros c (_&H&H0&H1). destruct (H Ht) as [_ Hkey].
    split; [|done]. split; [left; by apply H0|by left].
  - eapply Forall_impl; [exact Hf|]. intros g [_ Hg]. eapply Forall_impl; [exact Hg|]. intros c (_&Hu&H0&H1).
    split; [|done]. by split; left.
  - eapply Forall_impl; [exact Hf|]. by intros g [? _].
Qed.

(** The outcome of a reload that succeeds. *)
Lemma sepol_load_policy_ok data junk s m s' m' :
  sidtab_wf (sv_sidtab s) → sid_map (sv_sidtab s) ≠ ∅ →
  sepol_load_policy rm rr data junk (s, m) = Ret (0, (s', m')) →
  ∃ oldp newp, sv_policydb s = Some oldp ∧ sv_policydb s' = Some newp ∧
    (∃ c, load_policydb rm rr data (sv_compat s, m) = Ret (Some newp, c)) ∧
    sidtab_wf (sv_sidtab s') ∧ shutdown (sv_sidtab s') = 0 ∧
    ∀ sid, match sid_map (sv_sidtab s) !! sid with
           | Some c => converted oldp newp c (sid_map (sv_sidtab s') !! sid)
           | None => sid_map (sv_sidtab s') !! sid = None
           end.
Proof.
  intros Hs Hne H. unfold sepol_load_policy in H. apply M_bind_inv in H as (r&[s1 m1]&Hnew&H).
  destruct r as [rc|newp].
  { injection H as -> <- <-. unfold new_policy in Hnew. cbn [fst snd] in Hnew.
    destruct (policydb_init _) as [[[rc|p] f]| |]; [by destruct (rc =? 0)| |done..].
    by destruct (policydb_read _ _ _ _) as [[[rc|q] f']| |]. }
  destruct (new_policy_loaded _ _ _ _ _ _ Hnew) as (Hload&Ep&Et).
  apply M_bind_inv in H as (t0&[s2 m2]&Hinit&H). unfold in_memory in Hinit. cbn [fst snd] in Hinit.
  pose proof (sepol_sidtab_init_correct junk m1) as Hi. destruct (sepol_sidtab_init junk m1) as [[rc0 t1] m3] eqn:Einit. injection Hinit as -> <- ->.
  apply M_bind_inv in H as (oldp&[s3 m4]&Hact&H). unfold active in Hact. cbn [fst] in Hact. rewrite Ep in Hact.
  destruct (sv_policydb s) as [oldp'|] eqn:Eold; [|done]. injection Hact as -> <- <-.
  apply M_bind_inv in H as ([vret ?]&[s4 m5]&Hval&H). destruct (negb (vret =? 0)); [done|].
  assert ((s4, m5) = (s1, m2)) as [= -> ->].
  { unfold lift in Hval. destruct (hashtab_map _ _ ()) as [[? ?]| |]; [|done..]. by injection Hval as _ _ <- <-. }
  apply M_bind_inv in H as (?&[s5 m6]&Hmod&H). injection Hmod as <- <- <-.
  set (s0 := with_sidtab (sepol_sidtab_shutdown (sv_sidtab s1)) s1) in *.
  assert (Hs0 : sidtab_wf (sv_sidtab s0) ∧ sid_map (sv_sidtab s0) = sid_map (sv_sidtab s)).
  { unfold s0; cbn [with_sidtab sv_sidtab]. rewrite Et. split; [exact Hs|done]. }
  destruct Hs0 as [Hs0 Hmap0].
  apply M_bind_inv in H as ([cret t2]&[s6 m7]&Hclone&H). destruct (Z.eqb_spec cret 0) as [->|]; cbn [negb] in H; [|done].
  assert (Hclean : rc0 = 0 ∧ sidtab_wf t0 ∧ sid_map t0 = ∅ ∧ shutdown t0 = 0).
  { destruct Hi as [_ [(->&?&?&_&?)| ->]]; [done|]. exfalso.
    apply clone_sids_none in Hclone; [done|done|by rewrite Hmap0|].
    unfold sepol_sidtab_init in Einit. destruct (malloc m1) as [[] mm]; [done|]. by injection Einit as <- <-. }
  destruct Hclean as (_&Hw0&He0&Hsh0).
  destruct (clone_sids_correct _ _ _ _ _ _ _ Hs0 Hw0 He0 Hclone) as [-> Hcl]. destruct (Hcl eq_refl) as (Hw2&Hmap2&Hsh2).
  apply M_bind_inv in H as (t3&[s7 m8]&Hconv&H). unfold convert_sids, in_memory in Hconv. cbn [fst snd] in Hconv.
  apply ret_bind_inv in Hconv as ([t4 m9]&Hfilter&Hconv). injection Hconv as -> <- <-.
  destruct (sepol_sidtab_filter_inv _ (converted oldp newp) (convert_context_converted oldp newp) _ _ _ _ Hw2 Hfilter) as (Hw3&Hn3&Hsh3&Hmap3).
  apply M_bind_inv in H as (?&[s8 m10]&Hset&H). injection Hset as _ <- <-. injection H as <- <-.
  exists oldp, newp. split; [done|]. split; [done|]. split; [by eexists|]. cbn [sv_sidtab]. split; [exact Hw3|]. split; [done|].
  intros sid. specialize (Hmap3 sid). rewrite Hmap2, Hmap0 in Hmap3. exact Hmap3.
Qed.
End load.

(** *** Reloads that fail *)

Section failures.
Context (rm : policydb_compat_info → policydb → R policydb) (rr : policydb → R policydb).

(** An image that cannot be read destroys the policy in use. *)
Lemma unreadable_destroys data s m p0 f :
  let fp := PF PF_USE_MEMORY data (Z.of_nat (length data)) [] in
  policydb_init (FS fp (sv_compat s) m) = Ret (inr p0, f) →
  (∃ rc f', policydb_read rm rr p0 (FS fp (compat f) (fmem f)) = Ret (inl rc, f')) →
  ∀ junk, ∃ s' m', sepol_load_policy rm rr data junk (s, m) = Ret (- EINVAL, (s', m')) ∧ sv_policydb s' = None.
Proof.
  intros fp Hi (rc&f'&Hr) junk. unfold sepol_load_policy, mbind, M_bind, new_policy. cbn [fst snd]. fold fp. rewrite Hi, Hr.
  eexists _, _. split; [reflexivity|done].
Qed.

(** What a reload that fails leaves: the server as it was; no policy; or the old
    policy with a table that has been shut down. *)
Definition reload_left (s s' : server) (rc : Z) : Prop :=
  (sv_policydb s' = sv_policydb s ∧ sv_sidtab s' = sv_sidtab s) ∨
  (rc = - EINVAL ∧ sv_policydb s' = None ∧ sv_sidtab s' = sv_sidtab s) ∨
  (rc = - ENOMEM ∧ sv_policydb s' = sv_policydb s ∧ sv_sidtab s' = sepol_sidtab_shutdown (sv_sidtab s)).

Lemma new_policy_left data s m rc s' m' : new_policy rm rr data (s, m) = Ret (inl rc, (s', m')) → rc ≠ 0 ∧ reload_left s s' rc.
Proof.
  unfold new_policy. cbn [fst snd]. destruct (policydb_init _) as [[[z|p] f]| |]; [|destruct (policydb_read _ _ _ _) as [[[? | ?] ?]| |]|done..]; try done.
  - destruct (Z.eqb_spec z 0); [done|]. intros [= <- <- <-]. split; [done|]. by left.
  - intros [= <- <- <-]. split; [done|]. right. by left.
Qed.

Lemma clone_sids_keeps s m t ret t' s' m' : sidtab_wf (sv_sidtab s) → clone_sids t (s, m) = Ret ((ret, t'), (s', m')) → s' = s.
Proof.
  intros ((b&Eb&_)&_) H. unfold clone_sids in H. cbn [fst snd] in H. apply ret_bind_inv in H as ([[ret1 t1] [t2 m2]]&Hm&H). injection H as _ _ <- _.
  destruct (sepol_sidtab_map_inv clone_sid (λ _ _, True) (λ _, True) (sv_sidtab s) b (t, m) Eb) as (ret2&st2&E&_); [|done|].
  - intros dn sid c rest [t9 m9] _ _. unfold clone_sid. cbn [fst snd]. destruct (sepol_sidtab_insert t9 sid c m9) as [[rc9 ?] ?].
    eexists _, _. split; [done|]. by destruct (rc9 =? 0).
  - rewrite E in Hm. injection Hm as _ <- _. by destruct s.
Qed.

Lemma failed_reload data junk s m s' m' rc : sidtab_wf (sv_sidtab s) → rc ≠ 0 →
  sepol_load_policy rm rr data junk (s, m) = Ret (rc, (s', m')) → reload_left s s' rc.
Proof.
  intros Hs Hrc H. unfold sepol_load_policy in H. apply M_bind_inv in H as (r&[s1 m1]&Hnew&H).
  destruct r as [rc0|newp]; [injection H as -> <- <-; by apply new_policy_left in Hnew as [_ ?]|].
  destruct (new_policy_loaded _ _ _ _ _ _ _ _ Hnew) as (_&Ep&Et).
  apply M_bind_inv in H as (t0&[s2 m2]&Hinit&H). unfold in_memory in Hinit. cbn [fst snd] in Hinit.
  destruct (sepol_sidtab_init junk m1) as [[rc0 t1] m3]. injection Hinit as -> <- ->.
  apply M_bind_inv in H as (oldp&[s3 m4]&Hact&H). unfold active in Hact. cbn [fst] in Hact.
  destruct (sv_policydb s1) as [oldp'|] eqn:Eold; [|done]. injection Hact as -> <- <-.
  apply M_bind_inv in H as ([vret ?]&[s4 m5]&Hval&H).
  assert ((s4, m5) = (s1, m2)) as [= -> ->].
  { unfold lift in Hval. destruct (hashtab_map _ _ ()) as [[? ?]| |]; [|done..]. by injection Hval as _ _ <- <-. }
  destruct (negb (vret =? 0)); [injection H as <- <- <-; left; split; congruence|].
  apply M_bind_inv in H as (?&[s5 m6]&Hmod&H). injection Hmod as <- <- <-.
  apply M_bind_inv in H as ([cret t2]&[s6 m7]&Hclone&H).
  apply clone_sids_keeps in Hclone as ->; [|cbn [with_sidtab sv_sidtab]; by rewrite Et].
  destruct (negb (cret =? 0)).
  - injection H as <- <- <-. right. right. cbn [with_sidtab sv_policydb sv_sidtab]. rewrite Et. split_and!; congruence.
  - apply M_bind_inv in H as (t3&[s7 m9]&_&H). apply M_bind_inv in H as (?&[s8 m10]&_&H). by injection H as <-.
Qed.

Lemma shut_down_refuses s c m : sidtab_wf (sv_sidtab s) → shutdown (sv_sidtab s) ≠ 0 → (∀ k, sid_map (sv_sidtab s) !! k ≠ Some c) →
  to_sid c (s, m) = Ret ((- ENOMEM, SEPOL_SECSID_NULL), (s, m)).
Proof.
  intros Hs Hsh Hno. unfold to_sid. cbn [fst snd]. unfold sepol_sidtab_context_to_sid.
  destruct (sepol_sidtab_search_context_correct (sv_sidtab s) c Hs) as (sid&E&[[-> _]|[_ Hc]]); [|by destruct (Hno sid)].
  rewrite !E. unfold mbind, outcome_bind. cbn [Z.eqb negb].
  destruct (Z.eqb_spec (shutdown (sv_sidtab s)) 0); [done|]. rewrite orb_true_r. by destruct s.
Qed.
End failures.

(** ** Decisions and new contexts over SIDs *)

(** The context a SID stands for in a request. *)
Definition sid_context (t : sidtab) (sid : Z) : option context_struct :=
  match sid_map t !! sid with Some c => Some c | None => sid_map t !! SECINITSID_UNLABELED end.

Lemma compute_av_sids fuel s m p ssid tsid tclass requested avd : sidtab_wf (sv_sidtab s) → sv_policydb s = Some p →
  sepol_compute_av fuel ssid tsid tclass requested avd (s, m) =
  match sid_context (sv_sidtab s) ssid, sid_context (sv_sidtab s) tsid with
  | Some sc, Some tc =>
      '(rc, avd, reason) ← context_struct_compute_av fuel p sc tc tclass requested avd (Some 0);
      _ ← deref reason;
      Ret ((rc, avd), (s, m))
  | _, _ => Ret ((- EINVAL, avd), (s, m))
  end.
Proof.
  intros Hs Hp. unfold sepol_compute_av, sepol_compute_av_reason, search, gets, active, lift, mbind, M_bind, outcome_bind. cbn [fst snd].
  assert (Hc : ∀ sid, sepol_sidtab_search (sv_sidtab s) sid = sid_context (sv_sidtab s) sid) by (intros; by apply sepol_sidtab_search_correct).
  rewrite Hc. destruct (sid_context (sv_sidtab s) ssid) as [sc|]; [|done]. cbn [fst]. rewrite Hc.
  destruct (sid_context (sv_sidtab s) tsid) as [tc|]; [|done]. cbn [fst]. rewrite Hp. cbn [deref]. destruct (context_struct_compute_av _ _ _ _ _ _ _ _) as [[[rc a] r]| |]; [|done..].
  by destruct (deref r).
Qed.

(** A new SID names a context that is valid in the policy. *)
Lemma compute_sid_valid s m p ssid tsid tclass spec rc sid s' m' : sidtab_wf (sv_sidtab s) → sv_policydb s = Some p →
  compute_sid ssid tsid tclass spec (s, m) = Ret ((rc, sid), (s', m')) →
  grown (sv_sidtab s) (sv_sidtab s') ∧ sv_policydb s' = Some p ∧
  (rc = 0 → ∃ k c, sid = Some k ∧ 0 < k ∧ sid_map (sv_sidtab s') !! k = Some c ∧ context_is_valid p c = Ret true).
Proof.
  intros Hs Hp H. unfold compute_sid in H. apply M_bind_inv in H as (p'&[s1 m1]&Ha&H). unfold active in Ha. cbn [fst] in Ha.
  rewrite Hp in Ha. injection Ha as <- <- <-. apply M_bind_inv in H as (sc&[s2 m2]&Hsc&H). injection Hsc as <- <- <-.
  apply M_bind_inv in H as (tc&[s3 m3]&Htc&H). injection Htc as <- <- <-. cbn [fst] in H.
  apply M_bind_inv in H as ([rc1 nc]&[s4 m4]&Hin&H). unfold in_memory in Hin. cbn [fst snd] in Hin.
  apply ret_bind_inv in Hin as ([[rc2 nc2] m5]&Hin&Hr). injection Hr as -> -> <- <-.
  apply ret_bind_inv in Hin as ([[rc3 nc3] m6]&Hc&Hin). injection Hin as -> -> ->.
  destruct (Z.eqb_spec rc1 0) as [->|Hne]; cbn [negb] in H.
  2: { injection H as <- <- <- <-. split; [by apply grown_refl|]. split; [done|]. by intros ->. }
  assert (Hv : context_is_valid p nc = Ret true).
  { unfold Services.sepol_compute_sid in Hc. destruct (sepol_sidtab_search _ ssid) as [c1|]; [|done]. destruct (sepol_sidtab_search _ tsid) as [c2|]; [|done].
    unfold compute_context in Hc. apply ret_bind_inv in Hc as ([[rcm ncm] mm]&_&Hc). destruct (Z.eqb_spec rcm 0) as [->|]; cbn [negb] in Hc.
    - apply ret_bind_inv in Hc as ([]&Hv&Hc); [|done]. by injection Hc as <- <-.
    - by injection Hc as ? _ _. }
  apply M_bind_inv in H as ([rc4 k]&[s5 m7]&Hto&H). injection H as <- <- <- <-.
  destruct (to_sid_correct s m5 nc Hs) as (rc5&sid5&t5&m8&E&Hg&_&Hout). rewrite E in Hto. injection Hto as <- <- <- <-.
  cbn [with_sidtab sv_sidtab sv_policydb]. split; [done|]. split; [done|]. intros ->.
  destruct Hout as [(_&Hpos&Hk)|([=]&_)]. by exists sid5, nc.
Qed.

(** ** Initial SIDs *)

Lemma load_isids_correct l : ∀ s m, sidtab_wf s →
  Forall (λ c, 0 < oc_sid0 c < UINT_MAX ∧ user (oc_context0 c) ≠ 0) l → NoDup (oc_sid0 <$> l) →
  (∀ c, c ∈ l → sid_map s !! oc_sid0 c = None) → plenty m →
  let '(rc, s', m') := load_isids l s m in
  rc = 0 ∧ sidtab_wf s' ∧ plenty m' ∧
  (∀ k c, sid_map s' !! k = Some c ↔ sid_map s !! k = Some c ∨ ∃ o, o ∈ l ∧ oc_sid0 o = k ∧ oc_context0 o = c).
Proof.
  induction l as [|o l IH]; intros s m Hs Hl Hnd Hfresh Hm; cbn [load_isids].
  - split_and!; [done..|]. intros k c. split; [by left|]. intros [?|(o&Ho&_)]; [done|]. by apply not_elem_of_nil in Ho.
  - apply Forall_cons in Hl as [[Hsid Hu] Hl]. rewrite fmap_cons in Hnd. apply NoDup_cons in Hnd as [Ho Hnd].
    destruct (Z.eqb_spec (user (oc_context0 o)) 0); [done|].
    pose proof (sepol_sidtab_insert_correct s (oc_sid0 o) (oc_context0 o) m Hs Hsid) as Hi.
    destruct (sepol_sidtab_insert s _ _ m) as [[rc s1] m1]. destruct Hi as (Hs1&Hm1&_&Hi).
    destruct Hi as [(->&_&Hmap&_)|[(_&[d Hd]&_)|(_&_&Hno)]]; [|by rewrite Hfresh in Hd by left|done]. cbn [Z.eqb negb].
    specialize (IH s1 m1 Hs1 Hl Hnd). destruct (load_isids l s1 m1) as [[rc s2] m2].
    destruct IH as (->&Hs2&Hm2&Hmap2); [|by apply Hm1|].
    + intros c Hc. rewrite Hmap, lookup_insert_ne; [by apply Hfresh; right|]. intros E. apply Ho. rewrite E. by apply list_elem_of_fmap_2.
    + split_and!; [done..|]. intros k c. rewrite Hmap2, Hmap, lookup_insert_Some. split.
      * intros [[[<- <-]|[_ ?]]|(o'&?&?&?)]; [right; exists o; by split_and!; [left| |]|by left|right; exists o'; by split_and!; [right| |]].
      * intros [Hk|(o'&[->|Ho']%elem_of_cons&<-&<-)].
        -- left. right. split; [|done]. intros E. rewrite <- E, Hfresh in Hk; [done|left].
        -- left. by left.
        -- right. by exists o'.
Qed.

(** ** Texts *)

Lemma text_sid_valid s m p text len want rc sid s' m' : sidtab_wf (sv_sidtab s) → sv_policydb s = Some p →
  sepol_context_to_sid text len want (s, m) = Ret ((rc, sid), (s', m')) →
  grown (sv_sidtab s) (sv_sidtab s') ∧ sv_policydb s' = Some p ∧
  (rc = STATUS_SUCCESS → want = true →
   ∃ k c, sid = Some k ∧ 0 < k ∧ sid_map (sv_sidtab s') !! k = Some c ∧ context_is_valid p c = Ret true).
Proof.
  intros Hs Hp H. unfold sepol_context_to_sid in H. apply M_bind_inv in H as (p'&[s1 m1]&Ha&H). unfold active in Ha. cbn [fst] in Ha.
  rewrite Hp in Ha. injection Ha as <- <- <-. apply M_bind_inv in H as ([rc1 oc]&[s2 m2]&Hin&H). unfold in_memory in Hin. cbn [fst snd] in Hin.
  apply ret_bind_inv in Hin as ([[rc2 oc2] m3]&Hin&Hr). injection Hr as -> -> <- <-.
  apply ret_bind_inv in Hin as ([[rc3 oc3] m4]&Hc&Hin). injection Hin as -> -> ->.
  destruct (rc1 <? 0); [injection H as <- <- <- <-; split; [by apply grown_refl|done]|].
  destruct want; [|injection H as <- <- <- <-; split; [by apply grown_refl|done]].
  destruct oc as [c|]; [|done]. apply from_string_valid in Hc as [_ Hv]. apply M_bind_inv in H as (c'&[s5 m5]&Hl&H).
  injection Hl as <- <- <-. apply M_bind_inv in H as ([rc4 k]&[s6 m6]&Hto&H). injection H as <- <- <- <-.
  destruct (to_sid_correct s m3 c Hs) as (rc5&sid5&t5&m8&E&Hg&_&Hout). rewrite E in Hto. injection Hto as <- <- <- <-.
  cbn [with_sidtab sv_sidtab sv_policydb]. split; [done|]. split; [done|]. destruct Hout as [(->&Hpos&Hk)|(->&_)]; [|done].
  intros _ _. by exists sid5, c.
Qed.
