(* ===== verification/PlainNames.v ===== *)
(** * Names of an accepted policy

    On a policy whose values are indexed, the names of a context lead back to it,
    when they have no separators of a text in them. *)

From S2P Require Import Prelude Policyfile Ebitmap Hashtab SymtabFile Avtab Context Policydb Expand Mls MlsFile SymbolFile Indexes Reindex PolicydbSound MlsText ContextText.

(** The name of a value leads back to the object with that value. *)
Lemma indexed_name {A} (k : kind A) p v n : index_of k p → val_name p (k_sym k) (v - 1) = Ret n →
  ∃ q d, hashtab_search (table (k_tab k p)) n = Some q ∧ at_index (k_store k p) q = Some d ∧ k_value k d = Some v.
Proof.
  intros [Hwf _ _ _ (ns&En&Hl&Hns)] H. unfold val_name, val_to_name in H. rewrite En in H. cbn [deref mbind outcome_bind] in H.
  destruct (at_index ns (v - 1)) as [[m|]|] eqn:E; [|done..]. injection H as ->.
  assert (Hn : nprim (k_tab k p) ≠ 0) by (apply at_index_Some in E; lia).
  destruct (proj1 (Hns Hn (v - 1) n) E) as (_&q&Hq&Hval). replace (v - 1 + 1) with v in Hval by lia.
  unfold value_at in Hval. destruct (at_index (k_store k p) q) as [d|] eqn:Ed; [|done].
  exists q, d. split; [|done]. by rewrite (hashtab_search_correct _ _ Hwf I).
Qed.

Lemma valued_name {A} sym (value : A → option Z) (t : symtab A) p v n : names_of sym value t p → hashtab_wf (table t) →
  val_name p sym v = Ret n → ∃ d, hashtab_search (table t) n = Some d ∧ value d = Some (v + 1).
Proof.
  intros [_ (ns&En&Hl&Hns)] Hwf H. unfold val_name, val_to_name in H. rewrite En in H. cbn [deref mbind outcome_bind] in H.
  destruct (at_index ns v) as [[m|]|] eqn:E; [|done..]. injection H as ->.
  assert (Hn : nprim t ≠ 0) by (apply at_index_Some in E; lia).
  destruct (proj1 (Hns Hn v n) E) as (_&d&Hd&Hval). exists d. split; [|done]. by rewrite (hashtab_search_correct _ _ Hwf I).
Qed.

(** Names without the separators of a text, and runs of categories that do not
    cross a gap of the bitmap. *)
Definition plain_level (p : policydb) (lv : mls_level) : Prop :=
  level_wf lv ∧ (∃ sn, val_name p SYM_LEVELS (sens lv - 1) = Ret sn ∧ sens_plain sn) ∧
  contiguous (ebitmap_for_each_bit (cat lv)) ∧
  ∀ i, ebitmap_get_bit (cat lv) i = true → i + 1 < 2 ^ 31 ∧ ∃ n, val_name p SYM_CATS i = Ret n ∧ cat_plain n.

(** A type whose name stands for a type, not for an attribute. *)
Definition names_a_type (p : policydb) (t : string) : Prop :=
  ∀ q d, hashtab_search (table (p_types p)) t = Some q → at_index (type_mem p) q = Some d → flavor d ≠ TYPE_ATTRIB.

Record plain_names (p : policydb) (c : context_struct) (u r t : string) : Prop := {
  pn_user : val_name p SYM_USERS (user c - 1) = Ret u;
  pn_role : val_name p SYM_ROLES (role c - 1) = Ret r;
  pn_type : val_name p SYM_TYPES (type c - 1) = Ret t;
  pn_plain : no_colon u ∧ no_colon r ∧ no_colon t;
  pn_not_attribute : names_a_type p t;
  pn_range : if mls p =? 0 then range c = mls_range_init else plain_level p (level0 (range c)) ∧ plain_level p (level1 (range c))
}.

Lemma plain_level_readable p lv : policy_indexed p → plain_level p lv → level_readable p lv.
Proof.
  intros P (Hw&(sn&Hsn&Hpl)&Hc&Hcats). split; [done|]. split; [|split; [done|]].
  - destruct (pi_level _ P) as [Hwl Hall]. destruct (valued_name _ _ _ _ _ _ (pi_levels _ P) Hwl Hsn) as (d&Hd&Hv).
    exists sn. split; [done|]. split; [done|]. rewrite hashtab_search_correct in Hd by done. pose proof (Hall _ _ Hd) as (l&El&_).
    exists d, l. rewrite hashtab_search_correct by done. split; [done|]. split; [done|].
    unfold level_value in Hv. rewrite El in Hv. destruct (l_isalias d =? 0); [injection Hv; lia|done].
  - intros i Hi. destruct (Hcats i Hi) as (Hmax&n&Hn&Hplain).
    assert (En : cat_name p i = n) by (unfold cat_name; by rewrite Hn).
    destruct (valued_name _ _ _ _ _ _ (pi_cats _ P) (pi_cat _ P) Hn) as (d&Hd&Hv).
    split; [by rewrite En|]. unfold readable. rewrite En. split; [|split; [done|split; [done|]]].
    + destruct (Z.lt_ge_cases i 0); [|done]. by rewrite ebitmap_get_bit_neg in Hi.
    + exists d. split; [done|]. unfold cat_value in Hv. destruct (ct_isalias d =? 0); [by injection Hv|done].
Qed.

Lemma plain_named p c u r t : policy_indexed p → context_is_valid p c = Ret true → plain_names p c u r t → named_by p c u r t.
Proof.
  intros P Hv [Hu Hr Ht Hplain Hty Hrange].
  destruct (indexed_name _ _ _ _ (pi_users _ P) Hu) as (qu&du&?&?&[=]). destruct (indexed_name _ _ _ _ (pi_roles _ P) Hr) as (qr&dr&?&?&[=]).
  destruct (indexed_name _ _ _ _ (pi_types _ P) Ht) as (qt&dt&Hqt&Hdt&Hval).
  split; [by exists qu, du|by exists qr, dr| |done|done|].
  - exists qt, dt. split; [done|]. split; [done|]. split; [|by apply (Hty qt)]. cbn in Hval. destruct (primary dt =? 0); [done|by injection Hval].
  - destruct (mls p =? 0); [done|]. destruct Hrange. by split; apply plain_level_readable.
Qed.
