(* ===== verification/RecordFacts.v ===== *)
(** * What the records and the policy agree on

    A context in a record, by its names, is the context of the policy; a label
    that a record adds is found again, as the same record and by the requests of
    the security server. *)

From S2P Require Import Prelude Policyfile Ebitmap Hashtab Avtab Context Policydb Expand Mls Cond LabelFile PolicydbSound TypeMaps Services Sidtab MlsText ContextText Records PolicyRecords SidServer SidFacts PlainNames.

(** ** Runs of [E] *)

Lemma e_bind {A B} (c : E A) (f : A → E B) m a m1 : c m = Ret (Some a, m1) → (c ≫= f) m = f a m1.
Proof. intros H. unfold mbind at 1, E_bind at 1. by rewrite H. Qed.

(** One step of a run. *)
Ltac e_step H := rewrite (e_bind _ _ _ _ _ H).

Lemma e_malloc_plenty m : plenty m → ∃ m', e_malloc m = Ret (Some (), m') ∧ plenty m'.
Proof. intros Hm. unfold e_malloc. destruct (malloc_plenty m Hm) as (m'&->&?). by exists m'. Qed.

Lemma e_strdup_plenty s m : plenty m → ∃ m', e_strdup (Some s) m = Ret (Some s, m') ∧ plenty m'.
Proof.
  intros Hm. unfold e_strdup, dup_field. cbn [deref mbind outcome_bind]. destruct (strdup_plenty s m Hm) as (m'&->&?). by exists m'.
Qed.

(** ** Contexts *)

(** The length of a text is computed whenever the text is. *)
Lemma steps_defined p bits : ∀ rng len sep out r, ofold (text_step p) bits (rng, sep, out) = Ret r →
  ∃ len', ofold (len_step p) bits (rng, len) = Ret (r.1.1, len').
Proof.
  induction bits as [|[i set] bits IH]; intros rng len sep out r H; cbn [ofold] in H |- *.
  - injection H as <-. by exists len.
  - apply ret_bind_inv in H as ([[rng1 sep1] out1]&Hs&H).
    assert (∃ len1, len_step p (rng, len) (i, set) = Ret (rng1, len1)) as (len1&->); [|by eapply IH].
    unfold text_step in Hs. unfold len_step. destruct set; [destruct (negb (rng =? 0))|destruct (1 <? rng)].
    2, 3: apply ret_bind_inv in Hs as (n&->&Hs). all: injection Hs as <- <- <-; by eexists.
Qed.

Lemma level_len_defined p lv len out o : level_text p lv out = Ret o → ∃ n, level_len p lv len = Ret n.
Proof.
  unfold level_text, level_len. intros H. apply ret_bind_inv in H as (sn&->&H). cbn [mbind outcome_bind].
  apply ret_bind_inv in H as ([[rng sep] o1]&Hs&H). destruct (steps_defined p _ 0 (len + slen sn) _ _ _ Hs) as (len1&->). cbn [mbind outcome_bind fst].
  destruct (1 <? rng); [|by eexists]. apply ret_bind_inv in H as (n&->&_). by eexists.
Qed.

Lemma context_len_defined p c out : mls_sid_to_context p c = Ret out → ∃ n, mls_compute_context_len p c = Ret n.
Proof.
  unfold mls_sid_to_context, mls_compute_context_len. destruct (mls p =? 0); [by eexists|]. intros H.
  apply ret_bind_inv in H as (o&Ho&H). destruct (level_len_defined _ _ 1 _ _ Ho) as (n&->). cbn [mbind outcome_bind].
  destruct (mls_level_eq _ _); [by eexists|]. by eapply level_len_defined.
Qed.

Lemma mls_string_of p c text m : mls_sid_to_context p c = Ret (String ":" text) → plenty m →
  ∃ m', mls_to_string p c m = Ret (STATUS_SUCCESS, Some text, m') ∧ plenty m'.
Proof.
  intros Ht Hm. unfold mls_to_string. destruct (context_len_defined _ _ _ Ht) as (n&->). cbn [mbind outcome_bind].
  destruct (malloc_plenty m Hm) as (m1&->&Hm1). cbn [negb]. destruct (malloc_plenty m1 Hm1) as (m2&->&Hm2). cbn [negb].
  rewrite Ht. by exists m2.
Qed.

(** The record that names a context of the policy. *)
Record names_context (p : policydb) (c : context_struct) (con : sepol_context) : Prop := {
  nc_names : ∃ u r t, con_user con = Some u ∧ con_role con = Some r ∧ con_type con = Some t ∧ plain_names p c u r t;
  nc_valid : context_is_valid p c = Ret true;
  nc_mls : if mls p =? 0 then con_mls con = None else ∃ text, con_mls con = Some text ∧ mls_sid_to_context p c = Ret (String ":" text)
}.

Section contexts.
Context (p : policydb) (c : context_struct) (con : sepol_context).
Hypothesis (P : policy_indexed p) (H : names_context p c con).

Lemma from_record_named_by m : plenty m →
  ∃ m', context_from_record p (Some con) m = Ret (STATUS_SUCCESS, Some c, m') ∧ plenty m'.
Proof.
  intros Hm. destruct H as [(u&r&t&Eu&Er&Et&Hpl) Hv Hmls]. destruct con as [cu cr ct cm]; cbn in *. subst.
  pose proof (plain_named p c u r t P Hv Hpl) as Hn. pose proof (nb_range _ _ _ _ _ Hn) as Hrg.
  apply (from_record_named p c u r t cm m Hn Hm).
  - destruct (mls p =? 0); [by subst|]. by destruct Hmls as (text&->&_).
  - intros text ->. destruct (Z.eqb_spec (mls p) 0) as [|E]; [done|]. destruct Hmls as (text'&[= <-]&Htext). split; [done|].
    intros c0 m0 Hc0 Hm0. destruct (range_text_read p c c0 m0 E Hrg Hc0 Hm0) as (lt&m1&El&E1&Hm1). rewrite El in Htext.
    injection Htext as ->. by exists m1.
Qed.

Lemma to_record_named m : plenty m →
  ∃ m', context_to_record p c m = Ret (STATUS_SUCCESS, Some con, m') ∧ plenty m'.
Proof.
  intros Hm. destruct H as [(u&r&t&Eu&Er&Et&Hpl) _ Hmls]. destruct Hpl as [Nu Nr Nt _ _ _]. destruct con as [cu cr ct cm]; cbn in *. subst.
  unfold context_to_record, sepol_context_create. destruct (malloc_plenty m Hm) as (m1&->&Hm1). cbn [negb]. rewrite Nu.
  cbn [mbind outcome_bind]. unfold sepol_context_set_user. destruct (strdup_plenty u m1 Hm1) as (m2&->&Hm2). cbn [STATUS_SUCCESS Z.ltb Z.compare].
  rewrite Nr. cbn [mbind outcome_bind]. unfold sepol_context_set_role. destruct (strdup_plenty r m2 Hm2) as (m3&->&Hm3). cbn [Z.ltb Z.compare].
  rewrite Nt. cbn [mbind outcome_bind]. unfold sepol_context_set_type. destruct (strdup_plenty t m3 Hm3) as (m4&->&Hm4). cbn [Z.ltb Z.compare con_user con_role con_type con_mls].
  destruct (Z.eqb_spec (mls p) 0) as [E|E]; [subst; by exists m4|]. destruct Hmls as (text&->&Htext).
  destruct (mls_string_of p c text m4 Htext Hm4) as (m5&->&Hm5). cbn [mbind outcome_bind Z.ltb Z.compare deref].
  unfold sepol_context_set_mls. destruct (strdup_plenty text m5 Hm5) as (m6&->&Hm6). by exists m6.
Qed.
End contexts.

(** ** Labels *)

Definition label_stored (p : policydb) (kind : Z) (x : ocontext) : policydb :=
  set_ocontexts (set_index (ocontexts p) kind (x :: labels_of p kind)) p.

Lemma kind_labels_of p kind l : 0 <= kind → ocontexts p !! Z.to_nat kind = Some l → kind_of p kind = Ret (labels_of p kind) ∧ labels_of p kind = l.
Proof. intros Hk H. unfold kind_of, labels_of, at_index. destruct (Z.ltb_spec kind 0); [lia|]. by rewrite H. Qed.

Lemma attach_run p kind x m l : 0 <= kind → ocontexts p !! Z.to_nat kind = Some l →
  attach kind x (p, m) = Ret ((), (label_stored p kind x, m)).
Proof.
  intros Hk H. assert (Ha : at_index (ocontexts p) kind = Some l) by (unfold at_index; by destruct (Z.ltb_spec kind 0); [lia|]).
  unfold attach, elem, write, get_p, gets, upd, modify, lift, label_stored, labels_of. unfold mbind, M_bind. cbn [fst snd].
  rewrite Ha. cbn [deref fst snd]. by rewrite Ha, H.
Qed.

Lemma label_stored_kind p kind x l : 0 <= kind → ocontexts p !! Z.to_nat kind = Some l →
  kind_of (label_stored p kind x) kind = Ret (x :: l).
Proof.
  intros Hk H. unfold kind_of, label_stored. cbn [ocontexts set_ocontexts]. unfold labels_of. rewrite H. cbn [default].
  rewrite at_set_index_eq; [done|]. apply lookup_lt_Some in H. lia.
Qed.

Lemma on_policy_run {A} (f : policydb → E A) p m a m1 : f p m = Ret (a, m1) → on_policy f (p, m) = Ret (a, (p, m1)).
Proof. intros H. unfold on_policy. cbn [fst snd]. by rewrite H. Qed.

Lemma label_query_head {R} p kind test (to_record : ocontext → E R) x l m r m1 :
  kind_of p kind = Ret (x :: l) → test x = Ret true → to_record x m = Ret (Some r, m1) →
  label_query p kind test to_record m = Ret (Some (Some r), m1).
Proof.
  intros Hk Ht Hr. unfold label_query, label_with. rewrite Hk. cbn [mbind outcome_bind first_label]. rewrite Ht. cbn.
  unfold mbind, E_bind, e_lift. cbn. unfold mbind, outcome_bind, E_bind. by rewrite Hr.
Qed.

Section stored.
Context (p : policydb) (P : policy_indexed p).

Lemma label_con_named c con m : names_context p c con → plenty m →
  ∃ m', label_con p (Some con) m = Ret (Some c, m') ∧ plenty m'.
Proof.
  intros H Hm. destruct (from_record_named_by p c con P H m Hm) as (m1&E1&Hm1). unfold label_con.
  rewrite (e_bind _ _ m c m1) by (unfold con_from_record; by rewrite E1). unfold copied_con.
  pose proof (context_cpy_correct zero_context c m1) as [Hp Hc]. destruct (context_cpy zero_context c m1) as [[rc c'] m2]. cbn in *.
  destruct Hc as [[= -> ->]|[Hno _]]; [by exists m2; auto|by destruct Hno].
Qed.

(** The context of an entry as a record, kept in a record. *)
Lemma record_con_named c con m : names_context p c con → plenty m →
  ∃ m1 m2, con_to_record p c m = Ret (Some (Some con), m1) ∧ clone_con (Some con) m1 = Ret (Some (Some con), m2) ∧ plenty m2.
Proof.
  intros H Hm. destruct (to_record_named p c con H m Hm) as (m1&E1&Hm1). exists m1.
  assert (∃ m2, sepol_context_clone (Some con) m1 = Ret (STATUS_SUCCESS, Some con, m2) ∧ plenty m2) as (m2&E2&Hm2).
  { destruct H as [(u&r&t&Eu&Er&Et&_) _ _]. destruct con as [cu cr ct cm]; cbn in *. subst. cbn [sepol_context_clone]. unfold sepol_context_create.
    destruct (malloc_plenty m1 Hm1) as (m2&->&Hm2). cbn [negb con_user con_role con_type con_mls]. unfold dup_field. cbn [deref mbind outcome_bind STATUS_SUCCESS Z.ltb Z.compare].
    destruct (strdup_plenty u m2 Hm2) as (m3&->&Hm3). cbn. destruct (strdup_plenty r m3 Hm3) as (m4&->&Hm4). cbn.
    destruct (strdup_plenty t m4 Hm4) as (m5&->&Hm5). cbn. destruct cm as [l|]; [|by exists m5].
    destruct (strdup_plenty l m5 Hm5) as (m6&->&Hm6). by exists m6. }
  exists m2. unfold con_to_record, clone_con. by rewrite E1, E2.
Qed.

Context (m : mem) (Hm : plenty m).

(** The entry a record makes, and the record an entry gives. *)
Lemma port_stored c con low high proto : names_context p c con → 0 <= proto <= 2 → 0 <= low → low <= high → high < 2 ^ 16 →
  let x := OC (OC_port (sepol2ipproto proto) low high) 0 c zero_context 0 0 in
  (∃ m', port_from_record p (PORT low high proto (Some con)) m = Ret (Some x, m') ∧ plenty m') ∧
  (∃ m', port_to_record p x m = Ret (Some (PORT low high proto (Some con)), m') ∧ plenty m').
Proof.
  intros H Hp Hl Hh Hmax x. assert (proto = 0 ∨ proto = 1 ∨ proto = 2) as Hproto by lia. split.
  - destruct (e_malloc_plenty m Hm) as (m1&E1&Hm1). destruct (label_con_named c con m1 H Hm1) as (m2&E2&Hm2). exists m2. split; [|done].
    unfold port_from_record. rewrite (e_bind _ _ _ _ _ E1). cbn [port_proto port_low port_high port_con].
    rewrite !u16_small by lia. destruct (Z.ltb_spec high low); [lia|].
    destruct Hproto as [->|[->| ->]]; cbn [checked sepol2ipproto]; rewrite (e_bind _ _ _ _ _ eq_refl), (e_bind _ _ _ _ _ E2); done.
  - destruct (e_malloc_plenty m Hm) as (m1&E1&Hm1). destruct (record_con_named c con m1 H Hm1) as (m2&m3&E2&E3&Hm3). exists m3. split; [|done].
    unfold port_to_record, x. cbn [oc_u oc_context0]. unfold sepol_port_create.
    rewrite (e_bind _ _ m (PORT 0 0 SEPOL_PROTO_UDP None) m1) by (by rewrite (e_bind _ _ _ _ _ E1)).
    destruct Hproto as [->|[->| ->]]; cbn [sepol2ipproto]; rewrite (e_bind _ _ _ _ _ eq_refl), (e_bind _ _ _ _ _ E2);
      unfold sepol_port_set_con; rewrite (e_bind _ _ _ _ _ E3); done.
Qed.

Lemma iface_stored name c0 con0 c1 con1 : names_context p c0 con0 → names_context p c1 con1 →
  let x := OC (OC_name name) 0 c0 c1 0 0 in
  (∃ m', iface_from_record p (IFACE (Some name) (Some con0) (Some con1)) m = Ret (Some x, m') ∧ plenty m') ∧
  (∃ m', iface_to_record p x m = Ret (Some (IFACE (Some name) (Some con0) (Some con1)), m') ∧ plenty m').
Proof.
  intros H0 H1 x. destruct (e_malloc_plenty m Hm) as (m1&E1&Hm1). destruct (e_strdup_plenty name m1 Hm1) as (m2&E2&Hm2). split.
  - destruct (label_con_named c0 con0 m2 H0 Hm2) as (m3&E3&Hm3). destruct (label_con_named c1 con1 m3 H1 Hm3) as (m4&E4&Hm4).
    exists m4. split; [|done]. unfold iface_from_record. cbn [if_name netif_con netmsg_con]. e_step E1. e_step E2. e_step E3. by e_step E4.
  - destruct (record_con_named c0 con0 m2 H0 Hm2) as (m3&m4&E3&E4&Hm4). destruct (record_con_named c1 con1 m4 H1 Hm4) as (m5&m6&E5&E6&Hm6).
    exists m6. split; [|done]. unfold iface_to_record, x. cbn [oc_u oc_context0 oc_context1].
    assert (Ec : sepol_iface_create m = Ret (Some (IFACE None None None), m1)) by (unfold sepol_iface_create; by e_step E1).
    e_step Ec. assert (En : sepol_iface_set_name (IFACE None None None) (Some name) m1 = Ret (Some (IFACE (Some name) None None), m2))
      by (unfold sepol_iface_set_name; by e_step E2).
    e_step En. e_step E3. assert (Ei : sepol_iface_set_ifcon (IFACE (Some name) None None) (Some con0) m3 = Ret (Some (IFACE (Some name) (Some con0) None), m4))
      by (unfold sepol_iface_set_ifcon; by e_step E4).
    e_step Ei. e_step E5. unfold sepol_iface_set_msgcon. by e_step E6.
Qed.

Lemma ibpkey_stored c con prefix low high : names_context p c con → 0 <= low → low <= high → high < 2 ^ 16 →
  let x := OC (OC_ibpkey prefix low high) 0 c zero_context 0 0 in
  (∃ m', ibpkey_from_record p (IBPKEY prefix low high (Some con)) m = Ret (Some x, m') ∧ plenty m') ∧
  (∃ m', ibpkey_to_record p x m = Ret (Some (IBPKEY prefix low high (Some con)), m') ∧ plenty m').
Proof.
  intros H Hl Hh Hmax x. destruct (e_malloc_plenty m Hm) as (m1&E1&Hm1). split.
  - destruct (label_con_named c con m1 H Hm1) as (m2&E2&Hm2). exists m2. split; [|done].
    unfold ibpkey_from_record. e_step E1. cbn [ib_prefix ib_low ib_high ib_con]. rewrite !u16_small by lia.
    destruct (Z.ltb_spec high low); [lia|]. by e_step E2.
  - destruct (record_con_named c con m1 H Hm1) as (m2&m3&E2&E3&Hm3). exists m3. split; [|done].
    unfold ibpkey_to_record, x. cbn [oc_u oc_context0].
    assert (Ec : sepol_ibpkey_create m = Ret (Some (IBPKEY 0 0 0 None), m1)) by (unfold sepol_ibpkey_create; by e_step E1).
    e_step Ec. e_step E2. unfold sepol_ibpkey_set_con. by e_step E3.
Qed.

Lemma dev_block_short s : slen s <= 64 → dev_block s = s.
Proof. intros Hs. apply substring_all. unfold slen in Hs. unfold IB_DEVICE_NAME_MAX. lia. Qed.

Lemma copy_dev_short dev m1 : plenty m1 → slen dev <= 64 → ∃ m2, copy_dev (Some dev) m1 = Ret (Some dev, m2) ∧ plenty m2.
Proof.
  intros Hm1 Hd. destruct (e_malloc_plenty m1 Hm1) as (m2&E2&Hm2). exists m2. split; [|done].
  unfold copy_dev, sepol_ibendport_alloc_ibdev_name. e_step E2. rewrite (e_bind _ _ m2 dev m2) by done. by rewrite dev_block_short.
Qed.

Lemma ibendport_stored c con dev port : names_context p c con → slen dev <= 64 → byte_ok port →
  let x := OC (OC_ibendport dev port) 0 c zero_context 0 0 in
  (∃ m', ibendport_from_record p (IBEP (Some dev) port (Some con)) m = Ret (Some x, m') ∧ plenty m') ∧
  (∃ m', ibendport_to_record p x m = Ret (Some (IBEP (Some dev) port (Some con)), m') ∧ plenty m').
Proof.
  intros H Hd Hp x. destruct (e_malloc_plenty m Hm) as (m1&E1&Hm1). split.
  - destruct (e_malloc_plenty m1 Hm1) as (m2&E2&Hm2). destruct (copy_dev_short dev m2 Hm2 Hd) as (m3&E3&Hm3).
    destruct (label_con_named c con m3 H Hm3) as (m4&E4&Hm4). exists m4. split; [|done].
    unfold ibendport_from_record, sepol_ibendport_alloc_ibdev_name, sepol_ibendport_get_ibdev_name. cbn [ep_dev ep_con ep_port].
    e_step E1. e_step E2. e_step E3. e_step E4. by rewrite dev_block_short, u8_small.
  - destruct (copy_dev_short dev m1 Hm1 Hd) as (m2&E2&Hm2). destruct (record_con_named c con m2 H Hm2) as (m3&m4&E3&E4&Hm4).
    exists m4. split; [|done]. unfold ibendport_to_record, x. cbn [oc_u oc_context0].
    assert (Ec : sepol_ibendport_create m = Ret (Some (IBEP None 0 None), m1)) by (unfold sepol_ibendport_create; by e_step E1).
    e_step Ec. assert (En : sepol_ibendport_set_ibdev_name (IBEP None 0 None) (Some dev) m1 = Ret (Some (IBEP (Some dev) 0 None), m2))
      by (unfold sepol_ibendport_set_ibdev_name; by e_step E2).
    e_step En. e_step E3. unfold sepol_ibendport_set_con. by e_step E4.
Qed.

(** The entry of an address and a mask of the size of the protocol. *)
Definition node_entry (proto : Z) (addr mask : list Z) : ocontext_key :=
  if proto =? SEPOL_PROTO_IP4 then OC_node (le_value addr) (le_value mask) else OC_node6 (words 4 4 addr) (words 4 4 mask).

Definition addr_ok (proto : Z) (l : list Z) : Prop :=
  Forall byte_ok l ∧ (proto = SEPOL_PROTO_IP4 ∧ length l = 4%nat ∨ proto = SEPOL_PROTO_IP6 ∧ length l = 16%nat).

Lemma bytes_of_word l : Forall byte_ok l → le_bytes (length l) (le_value l) = l.
Proof.
  induction 1 as [|b l Hb Hl IH]; [done|]. cbn [length le_bytes le_value]. unfold byte_ok in Hb. f_equal.
  - unfold u8. replace (b + 256 * le_value l) with (b + le_value l * 2 ^ 8) by lia. by rewrite Z.mod_add, Z.mod_small by lia.
  - rewrite Z.shiftr_div_pow2 by lia. replace (b + 256 * le_value l) with (b + le_value l * 2 ^ 8) by lia.
    rewrite Z.div_add, Z.div_small by lia. exact IH.
Qed.

Lemma bytes_of_words n : ∀ l, Forall byte_ok l → length l = (n * 4)%nat → u32s (words 4 n l) = l.
Proof.
  induction n as [|n IH]; intros l Hl Hlen; [by destruct l|]. cbn [words]. unfold u32s in *. rewrite bind_cons, IH.
  - assert (length (take 4 l) = 4%nat) as E by (rewrite length_take; lia). rewrite <- E at 1. rewrite bytes_of_word by (by apply Forall_take).
    by rewrite take_drop.
  - by apply Forall_drop.
  - rewrite length_drop. lia.
Qed.

Lemma node_bytes_stored proto addr mask con : addr_ok proto addr → addr_ok proto mask →
  node_bytes proto (OC (node_entry proto addr mask) 0 con zero_context 0 0) = Ret (addr, mask).
Proof.
  intros [Ha [[-> La]|[-> La]]] [Hk [[Ek Lk]|[Ek Lk]]]; try done; unfold node_bytes, node_entry; cbn [oc_u Z.eqb SEPOL_PROTO_IP4 SEPOL_PROTO_IP6].
  - rewrite <- La at 1. rewrite bytes_of_word by done. rewrite <- Lk. by rewrite bytes_of_word.
  - rewrite !(bytes_of_words 4) by done. done.
Qed.

Lemma node_u_stored proto addr mask m1 : addr_ok proto addr → addr_ok proto mask → node_u proto addr mask m1 = Ret (Some (node_entry proto addr mask), m1).
Proof.
  intros [Ha [[-> La]|[-> La]]] [Hk [[Ek Lk]|[Ek Lk]]]; try done; unfold node_u, node_entry, copy_into; cbn [Z.eqb SEPOL_PROTO_IP4 SEPOL_PROTO_IP6];
    rewrite La, Lk; destruct (Z.ltb_spec U_SIZE (0 + Z.of_nat 4)); try done.
  - unfold mbind, E_bind, e_lift; cbn. unfold node_key. do 5 (destruct addr as [|? addr]; try done). do 5 (destruct mask as [|? mask]; try done).
  - unfold mbind, E_bind, e_lift; cbn. unfold node6_key. do 17 (destruct addr as [|? addr]; try done). do 17 (destruct mask as [|? mask]; try done).
Qed.

Lemma node_stored c con proto addr mask : names_context p c con → addr_ok proto addr → addr_ok proto mask →
  let x := OC (node_entry proto addr mask) 0 c zero_context 0 0 in
  (∃ m', node_from_record p (NODE addr mask proto (Some con)) m = Ret (Some x, m') ∧ plenty m') ∧
  (∃ m', node_to_record p proto x m = Ret (Some (NODE addr mask proto (Some con)), m') ∧ plenty m').
Proof.
  intros H Ha Hk x. destruct (e_malloc_plenty m Hm) as (m1&E1&Hm1). destruct (e_malloc_plenty m1 Hm1) as (m2&E2&Hm2).
  destruct (e_malloc_plenty m2 Hm2) as (m3&E3&Hm3). split.
  - destruct (label_con_named c con m3 H Hm3) as (m4&E4&Hm4). exists m4. split; [|done].
    unfold node_from_record, sepol_node_get_addr_bytes, sepol_node_get_mask_bytes. cbn [nd_addr nd_mask nd_proto nd_con]. e_step E1.
    rewrite (e_bind _ _ m1 addr m2) by (by e_step E2). rewrite (e_bind _ _ m2 mask m3) by (by e_step E3).
    e_step (node_u_stored proto addr mask m3 Ha Hk). by e_step E4.
  - destruct (record_con_named c con m3 H Hm3) as (m4&m5&E4&E5&Hm5). exists m5. split; [|done].
    unfold node_to_record, sepol_node_create. rewrite (e_bind _ _ m (NODE [] [] SEPOL_PROTO_IP4 None) m1) by (by e_step E1).
    rewrite (e_bind _ _ m1 (addr, mask) m1) by (unfold e_lift, x; by rewrite node_bytes_stored).
    unfold sepol_node_set_addr_bytes, sepol_node_set_mask_bytes, sepol_node_set_con, sepol_node_set_proto. cbn [nd_addr nd_mask nd_proto nd_con].
    rewrite (e_bind _ _ m1 (NODE addr [] proto None) m2) by (by e_step E2). rewrite (e_bind _ _ m2 (NODE addr mask proto None) m3) by (by e_step E3).
    e_step E4. by e_step E5.
Qed.
End stored.

(** ** Changing the labels of a policy *)

(** The answer to a query after a change: the record that was given, and the policy
    with the entry in front of the others of its kind. *)
Definition stored_and_found {R} (modify : M st Z) (query : policydb → E (option R)) (r : R) (p : policydb) (kind : Z) (x : ocontext) (m : mem) : Prop :=
  ∃ m', modify (p, m) = Ret (STATUS_SUCCESS, (label_stored p kind x, m')) ∧ plenty m' ∧
    ∀ m1, plenty m1 → ∃ m2, query (label_stored p kind x) m1 = Ret (Some (Some r), m2).

Section changes.
Context (p : policydb) (P : policy_indexed p) (L : length (ocontexts p) = Z.to_nat OCON_NUM).

Lemma kind_exists kind : 0 <= kind < OCON_NUM → ∃ l, ocontexts p !! Z.to_nat kind = Some l.
Proof. intros Hk. apply lookup_lt_is_Some_2. rewrite L. lia. Qed.

Lemma attached kind (from : policydb → E ocontext) x m m1 : 0 <= kind < OCON_NUM → from p m = Ret (Some x, m1) →
  (r ← on_policy from; match r with None => mret STATUS_ERR | Some x => _ ← attach kind x; mret STATUS_SUCCESS end : M st Z) (p, m) =
    Ret (STATUS_SUCCESS, (label_stored p kind x, m1)).
Proof.
  intros Hk H. destruct (kind_exists kind Hk) as [l Hl]. unfold mbind, M_bind. rewrite (on_policy_run from p m _ _ H).
  by rewrite (attach_run p kind x m1 l) by (done || lia).
Qed.

(** What a record stores is found, when its entry gives the record back. *)
Lemma stored_is_found {R} kind (from : policydb → E ocontext) (to_record : policydb → ocontext → E R) test r x m : 0 <= kind < OCON_NUM →
  (∀ m, plenty m → (∃ m', from p m = Ret (Some x, m') ∧ plenty m') ∧ (∃ m', to_record p x m = Ret (Some r, m') ∧ plenty m')) →
  (∀ m, to_record (label_stored p kind x) x m = to_record p x m) → test x = Ret true → plenty m →
  stored_and_found (o ← on_policy from; match o with None => mret STATUS_ERR | Some x => _ ← attach kind x; mret STATUS_SUCCESS end)
    (λ p', label_query p' kind test (to_record p')) r p kind x m.
Proof.
  intros Hk H Hsame Ht Hm. destruct (H m Hm) as [(m1&E1&Hm1) _]. exists m1. split; [by apply attached|]. split; [done|].
  intros m2 Hm2. destruct (H m2 Hm2) as [_ (m3&E3&_)]. exists m3. destruct (kind_exists kind Hk) as [l Hl].
  eapply label_query_head; [by apply label_stored_kind; [lia|]|exact Ht|]. by rewrite Hsame.
Qed.
End changes.

(** ** The server with the changed policy *)

(** New labels of a kind: entries that have no SID yet, or had one. *)
Lemma relabelled_ok t p kind l : label_sids_ok t p → 0 < kind < OCON_NUM →
  Forall (λ x, labelled t x ∧ kind_key kind (oc_u x)) l → label_sids_ok t (set_ocontexts (set_index (ocontexts p) kind l) p).
Proof.
  intros [Hl Hk Hf Hs] Hkind Hnew. split; cbn [ocontexts set_ocontexts genfs]; [|intros j l'|done|done].
  - by rewrite length_set_index.
  - unfold set_index. intros [(<-&<-&_)|[_ Hj]]%list_lookup_insert_Some Hne; [|by apply (Hk j)]. by rewrite Z2Nat.id by lia.
Qed.

Lemma fresh_labelled t u v c0 c1 : labelled t (OC u v c0 c1 0 0).
Proof. split; by left. Qed.

Section served.
Context (s : server) (p : policydb).
Hypothesis (Hs : server_ok s) (Hp : sv_policydb s = Some p).

Lemma kind_good kind : 0 < kind < OCON_NUM → ocontexts p !! Z.to_nat kind = Some (labels_of p kind) ∧
  Forall (λ x, labelled (sv_sidtab s) x ∧ kind_key kind (oc_u x)) (labels_of p kind).
Proof.
  intros Hk. destruct Hs as [_ Hl]. specialize (Hl p Hp). destruct (lookup_lt_is_Some_2 (ocontexts p) (Z.to_nat kind)) as [l E]; [rewrite (lo_length _ _ Hl); lia|].
  unfold labels_of. rewrite E. split; [done|]. pose proof (lo_kinds _ _ Hl _ _ E) as H. rewrite Z2Nat.id in H by lia. apply H. unfold OCON_ISID. lia.
Qed.

Lemma server_relabelled kind l : 0 < kind < OCON_NUM → Forall (λ x, labelled (sv_sidtab s) x ∧ kind_key kind (oc_u x)) l →
  let p' := set_ocontexts (set_index (ocontexts p) kind l) p in
  server_ok (with_policy (Some p') s) ∧ labels_of p' kind = l.
Proof.
  intros Hk Hl p'. destruct (kind_good kind Hk) as [E _]. pose proof Hs as [Hw Hlab]. split.
  - split; [exact Hw|]. intros q [= <-]. by apply relabelled_ok; [apply Hlab|..].
  - unfold labels_of, p', set_index. cbn [ocontexts set_ocontexts]. rewrite list_lookup_insert_eq; [done|]. by apply lookup_lt_Some in E.
Qed.
End served.

(** ** Interfaces *)

(** The first entry of the name is replaced. *)
Lemma replace_label_spec test f new l : Forall (λ x, test x = Ret (f x)) l →
  match find f l with
  | None => replace_label test new l = Ret None
  | Some _ => ∃ before x after, l = before ++ x :: after ∧ f x = true ∧ find f before = None ∧
      replace_label test new l = Ret (Some (before ++ new :: after))
  end.
Proof.
  induction 1 as [|x l Hx Hl IH]; [done|]. cbn [find replace_label]. rewrite Hx. cbn [mbind outcome_bind].
  destruct (f x) eqn:E; [by exists [], x, l|]. destruct (find f l).
  - destruct IH as (before&y&after&->&Hy&Hb&->). exists (x :: before), y, after. split; [done|]. split; [done|].
    split; [by cbn [find]; rewrite E|done].
  - by rewrite IH.
Qed.

Lemma find_app_none {A} (f : A → bool) l1 l2 : find f (l1 ++ l2) = match find f l1 with Some x => Some x | None => find f l2 end.
Proof. induction l1 as [|x l1 IH]; [done|]. cbn. by destruct (f x). Qed.

(** The entries of a name after the change, and those of the other names. *)
Lemma find_replaced (f g : ocontext → bool) before x after new : f x = true → f new = true → find f before = None →
  find f (before ++ new :: after) = Some new ∧
  (g x = false → g new = false → find g (before ++ new :: after) = find g (before ++ x :: after)).
Proof.
  intros Hx Hn Hb. split.
  - rewrite find_app_none, Hb. cbn [find]. by rewrite Hn.
  - intros Gx Gn. rewrite !find_app_none. cbn [find]. by rewrite Gx, Gn.
Qed.

Lemma streq_sym a b : streq a b = streq b a.
Proof. apply eq_bool_prop_intro. rewrite !Is_true_true, !streq_spec. by split. Qed.

Lemma same_iface_fits l name : Forall (λ x, kind_key OCON_NETIF (oc_u x)) l → Forall (λ x, same_iface name x = Ret (name_fits name x)) l.
Proof.
  intros Hl. eapply Forall_impl; [exact Hl|]. intros x Hx. unfold same_iface, name_fits. cbn beta in Hx.
  destruct (oc_u x); try (destruct Hx as [[=]|[[=]|[=]]] || discriminate Hx || destruct Hx); by rewrite streq_sym.
Qed.

(** The labels of interfaces after the change. *)
Lemma iface_list_changed l name new : Forall (λ x, kind_key OCON_NETIF (oc_u x)) l → oc_u new = OC_name name →
  ∃ l', (r ← replace_label (same_iface name) new l; mret (default (new :: l) r)) = Ret l' ∧
    (∀ n, find (name_fits n) l' = if streq name n then Some new else find (name_fits n) l) ∧
    length l' = (length l + match find (name_fits name) l with Some _ => 0 | None => 1 end)%nat ∧
    (∀ Q, Forall Q l → Q new → Forall Q l').
Proof.
  intros Hl Hu. pose proof (replace_label_spec _ _ new l (same_iface_fits l name Hl)) as H.
  assert (Hnew : ∀ n, name_fits n new = streq name n) by (intros n; unfold name_fits; by rewrite Hu).
  assert (Hsame : ∀ x, name_fits name x = true → ∀ n, name_fits n x = streq name n).
  { intros x Hx n. unfold name_fits in *. destruct (oc_u x); try done. by apply streq_spec in Hx as ->. }
  destruct (find (name_fits name) l) eqn:E.
  - destruct H as (before&x&after&->&Hx&Hb&Hr). exists (before ++ new :: after). rewrite Hr. split; [done|]. split; [|split].
    + intros n. destruct (streq name n) eqn:En.
      * apply streq_spec in En as <-. apply (find_replaced _ (λ _, false) _ x); [done| |done]. by rewrite Hnew, (proj2 (streq_spec name name)).
      * apply (find_replaced (name_fits name)); [done|by rewrite Hnew, (proj2 (streq_spec name name))|done|by rewrite Hsame|by rewrite Hnew].
    + rewrite !length_app. cbn. lia.
    + intros Q. rewrite !Forall_app, !Forall_cons. by intros (?&_&?).
  - rewrite H. exists (new :: l). split; [done|]. split; [|split; [cbn; lia|by constructor]].
    intros n. cbn [find]. rewrite Hnew. by destruct (streq name n).
Qed.

Lemma iface_change_run p name x l m : ocontexts p !! Z.to_nat OCON_NETIF = Some (labels_of p OCON_NETIF) →
  (r ← replace_label (same_iface name) x (labels_of p OCON_NETIF); mret (default (x :: labels_of p OCON_NETIF) r)) = Ret l →
  (l ← elem ocontexts OCON_NETIF;
   r ← lift (replace_label (same_iface name) x l);
   _ ← match r with Some l => write ocontexts set_ocontexts OCON_NETIF l | None => attach OCON_NETIF x end;
   mret STATUS_SUCCESS : M st Z) (p, m) = Ret (STATUS_SUCCESS, (set_ocontexts (set_index (ocontexts p) OCON_NETIF l) p, m)).
Proof.
  intros El Hr. apply ret_bind_inv in Hr as (r&Er&Hl). injection Hl as <-.
  assert (Ha : at_index (ocontexts p) OCON_NETIF = Some (labels_of p OCON_NETIF)) by exact El.
  unfold mbind at 1, M_bind at 1. unfold elem, get_p, gets, lift, mbind at 1, M_bind at 1. cbn [fst snd]. rewrite Ha. cbn [deref].
  unfold mbind at 1, M_bind at 1. rewrite Er. unfold mbind, M_bind. destruct r as [l|]; cbn [default].
  - unfold write, get_p, gets, lift, upd, modify, mbind, M_bind. cbn [fst snd]. by rewrite Ha.
  - by rewrite (attach_run p OCON_NETIF x m _ ltac:(done) El).
Qed.

Lemma iface_query_run p p' name x r m m1 : find (name_fits name) (labels_of p' OCON_NETIF) = Some x →
  Forall (λ x, kind_key OCON_NETIF (oc_u x)) (labels_of p' OCON_NETIF) → kind_of p' OCON_NETIF = Ret (labels_of p' OCON_NETIF) →
  (∀ m, iface_to_record p' x m = iface_to_record p x m) → iface_to_record p x m = Ret (Some r, m1) →
  sepol_iface_query p' (IFACE_KEY name) m = Ret (Some (Some r), m1).
Proof.
  intros Hf Hk Ek Hsame Hr. unfold sepol_iface_query, label_query, label_with. rewrite Ek. cbn [mbind outcome_bind ik_name].
  assert (first_label (same_iface name) (labels_of p' OCON_NETIF) = Ret (Some x)) as ->.
  { pose proof (same_iface_fits _ name Hk) as Ht. revert Hf Ht. generalize (labels_of p' OCON_NETIF) as l.
    induction l as [|y l IH]; [done|]. cbn [find first_label]. intros Hf [Hy Hl]%Forall_cons. rewrite Hy. cbn [mbind outcome_bind].
    destruct (name_fits name y); [by injection Hf as ->|by apply IH]. }
  rewrite (e_bind _ _ m (Some x) m) by done. rewrite (e_bind _ _ m r m1) by (by rewrite Hsame). done.
Qed.
