(* ===== verification/UserFacts.v ===== *)
(** * What changing a user does

    An existing user loses its cache of roles, whatever else happens; a new one
    enters the table and the arrays. *)

From S2P Require Import Prelude Policyfile Ebitmap Hashtab Avtab Context Policydb Expand Mls Cond SymbolFile Indexes Reindex PolicydbSound TypeMaps MlsText ContextText Records PolicyRecords SymbolRecords.

(** ** Runs that return *)

Definition returns {A} (c : M st A) (s : st) (Q : A → st → Prop) : Prop := ∀ a s', c s = Ret (a, s') → Q a s'.

Lemma returns_ret {A} (a : A) s (Q : A → st → Prop) : Q a s → returns (mret a) s Q.
Proof. by intros H ? ? [= <- <-]. Qed.

Lemma returns_bind {A B} (c : M st A) (f : A → M st B) s P Q :
  returns c s P → (∀ a s1, P a s1 → returns (f a) s1 Q) → returns (c ≫= f) s Q.
Proof.
  intros Hc Hf b s2 H. unfold mbind, M_bind in H. destruct (c s) as [[a s1]| |] eqn:E; [|done..].
  by eapply Hf; [apply Hc|].
Qed.

(** Code that leaves the policy alone. *)
Definition pure_on {A} (c : M st A) : Prop := ∀ s, returns c s (λ _ s', s'.1 = s.1).

Lemma pure_on_ret {A} (a : A) : pure_on (mret a).
Proof. intros s. by apply returns_ret. Qed.
Lemma pure_on_bind {A B} (c : M st A) (f : A → M st B) : pure_on c → (∀ a, pure_on (f a)) → pure_on (c ≫= f).
Proof.
  intros Hc Hf s. eapply returns_bind; [apply Hc|]. intros a s1 <-. apply Hf.
Qed.
Lemma pure_on_get {A} (g : policydb → A) : pure_on (get_p g).
Proof. by intros s a s' [= <- <-]. Qed.
Lemma pure_on_lift {A} (o : outcome A) : pure_on (lift o).
Proof. intros s a s' H. unfold lift in H. destruct o; [by injection H as <- <-|done..]. Qed.
Lemma pure_on_with_mem {A} (f : mem → A * mem) : pure_on (with_mem f).
Proof. intros s a s' H. unfold with_mem in H. destruct (f s.2). by injection H as <- <-. Qed.
Lemma pure_on_load {A} (store : policydb → list A) q : pure_on (load store q).
Proof. apply pure_on_bind; [apply pure_on_get|intros; apply pure_on_lift]. Qed.
Lemma pure_on_loop {A B R} (body : A → B → M st (R + B)) l : (∀ a b, pure_on (body a b)) → ∀ b, pure_on (loop body l b).
Proof.
  intros Hb. induction l as [|a l IH]; intros b; [apply pure_on_ret|]. cbn [loop]. apply pure_on_bind; [apply Hb|].
  intros [r|b1]; [apply pure_on_ret|apply IH].
Qed.
Lemma pure_on_policy {A} (f : policydb → E A) : pure_on (on_policy f).
Proof. intros s a s' H. apply ret_bind_inv in H as ([o m]&_&H). by injection H as <- <-. Qed.
Lemma pure_on_copy_step i r : pure_on (role_copy_step i r).
Proof. apply pure_on_bind; [apply pure_on_with_mem|intros []; apply pure_on_ret]. Qed.
Lemma pure_on_range str : pure_on (range_of_string str).
Proof. intros s a s' H. apply ret_bind_inv in H as ([rc [c m]]&_&H). by injection H as <- <-. Qed.

#[local] Hint Resolve pure_on_ret pure_on_get pure_on_lift pure_on_with_mem pure_on_load pure_on_policy pure_on_copy_step pure_on_range : core.

(** ** The cache of an existing user *)

Section existing.
Context (p : policydb) (q : ptr) (v : Z).

(** Nothing has changed but the objects of users, and the cache of this one is empty. *)
Definition emptied (s : st) : Prop :=
  ∃ um d, s.1 = set_user_mem um p ∧ at_index um q = Some d ∧ u_cache d = ebitmap_init ∧ u_value d = v.

Lemma emptied_pure {A} (c : M st A) s : pure_on c → emptied s → returns c s (λ _, emptied).
Proof. intros Hc Hs a s' H. unfold emptied. by rewrite (Hc _ _ _ H). Qed.

Lemma emptied_step {A B} (c : M st A) (f : A → M st B) s (Q : B → st → Prop) :
  pure_on c → emptied s → (∀ a s1, emptied s1 → returns (f a) s1 Q) → returns (c ≫= f) s Q.
Proof. intros Hc Hs Hf. eapply returns_bind; [by apply emptied_pure|exact Hf]. Qed.

Lemma emptied_update f s : (∀ d, u_cache (f d) = u_cache d) → (∀ d, u_value (f d) = u_value d) → emptied s → returns (update_user q f) s (λ _, emptied).
Proof.
  intros Hf Hv (um&d&Es&Ed&Hc&Hd) a s' H. unfold update_user, load, write, get_p, gets, upd, modify, lift, mbind, M_bind in H.
  rewrite Es in H. cbn [user_mem set_user_mem] in H. rewrite Ed in H. cbn [deref] in H. rewrite Es in H. cbn [user_mem set_user_mem] in H. rewrite Ed in H. cbn [deref] in H.
  rewrite Es in H. injection H as _ <-. exists (set_index um q (f d)), (f d). split; [done|]. apply at_index_Some in Ed. rewrite at_set_index_eq by done.
  split; [done|]. by rewrite Hf, Hv.
Qed.

Lemma emptied_roles roles : ∀ s, emptied s → returns (add_dominated q roles) s (λ _, emptied).
Proof.
  induction roles as [|r roles IH]; intros s Hs; cbn [add_dominated]; [by apply returns_ret|].
  apply emptied_step; [auto|done|]. intros tab s1 Hs1. destruct (hashtab_search (table tab) r); [|by apply returns_ret].
  apply emptied_step; [auto|done|]. intros rd s2 Hs2. apply emptied_step; [auto|done|]. intros d s3 Hs3.
  apply emptied_step; [apply pure_on_loop; auto|done|]. intros [e|e] s4 Hs4.
  all: eapply returns_bind; [by apply emptied_update|]; intros ? s5 Hs5; first [by apply returns_ret|by apply IH].
Qed.

Lemma emptied_mls user s : emptied s → returns (set_user_mls q user) s (λ _, emptied).
Proof.
  intros Hs. unfold set_user_mls. apply emptied_step; [auto|done|]. intros b s1 Hs1. destruct (negb (b =? 0)); [|by apply returns_ret].
  eapply returns_bind.
  { instantiate (1 := λ _, emptied). unfold set_user_level. destruct (mls_level_ user); [|by apply returns_ret]. apply emptied_step; [auto|done|].
    intros [r|] s2 Hs2; [|by apply returns_ret]. apply emptied_step; [auto|done|]. intros [rc l] s3 Hs3.
    eapply returns_bind; [by apply emptied_update|]. intros ? s4 Hs4. by apply returns_ret. }
  intros [] s2 Hs2; cbn [negb]; [|by apply returns_ret]. unfold set_user_range. destruct (mls_range_ user); [|by apply returns_ret].
  apply emptied_step; [auto|done|]. intros [r|] s3 Hs3; [|by apply returns_ret]. apply emptied_step; [auto|done|]. intros d s4 Hs4.
  apply emptied_step; [auto|done|]. intros [rc l] s5 Hs5. eapply returns_bind; [by apply emptied_update|]. intros ? s6 Hs6. by apply returns_ret.
Qed.

(** Whatever is given for an existing user, and whatever the result is, when there is
    memory for the list of its roles. *)
Lemma modify_empties key user d m : hashtab_search (table (p_users p)) (uk_name key) = Some q →
  at_index (user_mem p) q = Some d → u_value d = v → plenty m →
  returns (sepol_user_modify key user) (p, m) (λ _, emptied).
Proof.
  intros Hq Hd Hv Hm. unfold sepol_user_modify. intros rc s' H. unfold mbind at 1, M_bind at 1 in H.
  assert (∃ m1, sepol_user_get_roles user m = Ret (Some (us_roles user), m1)) as (m1&Er).
  { destruct (malloc_plenty m Hm) as (m1&Em&_). exists m1. unfold sepol_user_get_roles, e_malloc, mbind, E_bind. by rewrite Em. }
  unfold on_policy in H. cbn [fst snd] in H. rewrite Er in H. cbn [mbind outcome_bind] in H. revert rc s' H. 
  eapply (returns_bind (fresh_user (uk_name key)) _ _ (λ r s, r = Some (q, false) ∧ emptied s)).
  { intros r s' H. unfold fresh_user in H. unfold get_p at 1, gets, mbind at 1, M_bind at 1 in H. cbn [fst snd] in H. rewrite Hq in H.
    unfold update_user, load, write, get_p, gets, upd, modify, lift, mbind, M_bind in H. cbn [fst snd] in H.
    rewrite Hd in H. cbn [deref fst snd] in H. rewrite Hd in H. cbn [deref fst snd] in H. injection H as <- <-. split; [done|].
    exists (set_index (user_mem p) q (user_datum_init (u_value d))), (user_datum_init (u_value d)). split; [done|].
    apply at_index_Some in Hd. by rewrite at_set_index_eq. }
  intros [[q1 is_new]|] s [[=] Hs]. subst q1 is_new. eapply returns_bind; [by apply emptied_roles|].
  intros ok s1 Hs1. destruct (negb ok); [by apply returns_ret|]. eapply returns_bind; [by apply emptied_mls|].
  intros ok2 s2 Hs2. destruct (negb ok2); by apply returns_ret.
Qed.
End existing.

(** No context of a user with an empty cache is valid, but one with the role object_r. *)
Lemma emptied_invalid p q v m' p' c : index_of user_kind p → hashtab_wf (table (p_users p)) →
  (∃ name, hashtab_search (table (p_users p)) name = Some q) → emptied p q v (p', m') → value_at user_kind p q = Some v →
  user c = v → role c ≠ OBJECT_R_VAL → context_is_valid p' c ≠ Ret true.
Proof.
  intros [_ Hlen Hrange Hobj _] Hwf (name&Hn) (um&d&Ep&Hd&Hc&_) Hval Hu Hr. cbn [fst] in Ep. subst p'. unfold context_is_valid.
  change (nprim (p_users (set_user_mem um p))) with (nprim (p_users p)). destruct ((role c =? 0) || _); [done|].
  destruct ((user c =? 0) || (nprim (p_users p) <? user c)) eqn:Eu; [done|]. apply orb_false_iff in Eu as [Eu%Z.eqb_neq Eu2%Z.ltb_ge].
  destruct ((type c =? 0) || _); [done|]. destruct (Z.eqb_spec (role c) OBJECT_R_VAL); [done|]. cbn [negb]. intros H.
  apply ret_bind_inv in H as ([rd|]&_&H); [|done]. destruct (negb (ebitmap_get_bit (r_cache rd) _)); [done|].
  unfold val_to_struct in H. change (user_val_to_struct (set_user_mem um p)) with (user_val_to_struct p) in H.
  rewrite hashtab_search_correct in Hn by done. subst v. destruct (Z.eq_dec (nprim (p_users p)) 0) as [E0|Hne].
  { cbn [k_arr k_tab user_kind] in Hlen. rewrite E0 in Hlen. by rewrite (proj2 (at_index_None _ _)) in H by lia. }
  pose proof (Hrange Hne name q _ Hn Hval) as Hv.
  assert (Hslot : at_index (user_val_to_struct p) (user c - 1) = Some (Some q)).
  { apply (Hobj Hne). split; [lia|]. exists name. split; [exact Hn|]. by replace (user c - 1 + 1) with (user c) by lia. }
  rewrite Hslot in H. cbn [deref mbind outcome_bind user_mem set_user_mem] in H. rewrite Hd in H. cbn [deref mbind outcome_bind mret outcome_ret] in H.
  by rewrite Hc, get_bit_init in H.
Qed.

(** ** A new user *)

(** With memory the run returns, with memory left. *)
Definition runs {A} (c : M st A) (s : st) (Q : A → st → Prop) : Prop := ∃ a s', c s = Ret (a, s') ∧ plenty s'.2 ∧ Q a s'.

Lemma runs_bind {A B} (c : M st A) (f : A → M st B) s P Q :
  runs c s P → (∀ a s1, P a s1 → plenty s1.2 → runs (f a) s1 Q) → runs (c ≫= f) s Q.
Proof.
  intros (a&s1&E&Hm&Hp) Hf. destruct (Hf a s1 Hp Hm) as (b&s2&E2&Hm2&Hq). exists b, s2. split; [|by split].
  unfold mbind, M_bind. by rewrite E.
Qed.
Lemma runs_step {A B} (c : M st A) (f : A → M st B) s a s1 Q : c s = Ret (a, s1) → runs (f a) s1 Q → runs (c ≫= f) s Q.
Proof. intros E (b&s2&E2&H). exists b, s2. split; [|done]. unfold mbind, M_bind. by rewrite E. Qed.
Lemma runs_return {A} (a : A) s (Q : A → st → Prop) : plenty s.2 → Q a s → runs (mret a) s Q.
Proof. intros Hm H. by exists a, s. Qed.
Lemma runs_behaves {A} (c : M st A) s Q : behaves c s Q → plenty s.2 → runs c s Q.
Proof.
  unfold behaves, runs. intros H Hm. destruct (c s) as [[a s1]| |]; [|by destruct (H Hm)..]. destruct H as [Hp HQ].
  exists a, s1. split; [done|]. split; [by apply Hp|exact HQ].
Qed.
Lemma runs_alloc s : plenty s.2 → runs alloc s (λ b s', b = true ∧ s'.1 = s.1).
Proof. intros Hm. destruct (malloc_plenty s.2 Hm) as (m&E&Hm'). exists true, (s.1, m). split; [|by split]. unfold alloc, with_mem. by rewrite E. Qed.

(** The object of the last user. *)
Lemma update_last f p um d m : user_mem p = um ++ [d] →
  update_user (Z.of_nat (length um)) f (p, m) = Ret ((), (set_user_mem (um ++ [f d]) p, m)).
Proof.
  intros E. assert (Ha : at_index (user_mem p) (Z.of_nat (length um)) = Some d).
  { rewrite E. unfold at_index. destruct (Z.ltb_spec (Z.of_nat (length um)) 0); [lia|]. rewrite Nat2Z.id. by apply list_lookup_middle. }
  unfold update_user, load, write, get_p, gets, upd, modify, lift, mbind, M_bind. cbn [fst snd]. rewrite Ha. cbn [deref fst snd]. rewrite Ha. cbn [deref fst snd].
  rewrite E. unfold set_index. rewrite Nat2Z.id, insert_app_r_alt, Nat.sub_diag by lia. done.
Qed.

Lemma load_last p um d m : user_mem p = um ++ [d] → load user_mem (Z.of_nat (length um)) (p, m) = Ret (d, (p, m)).
Proof.
  intros E. unfold load, get_p, gets, lift, mbind, M_bind. cbn [fst snd]. rewrite E. unfold at_index.
  destruct (Z.ltb_spec (Z.of_nat (length um)) 0); [lia|]. rewrite Nat2Z.id. by rewrite list_lookup_middle.
Qed.

(** The roles a role stands for in a record: itself and those it dominates. *)
Definition dominated (p : policydb) (role : string) (e : ebitmap) : Prop :=
  ∃ q d, hashtab_search (table (p_roles p)) role = Some q ∧ at_index (role_mem p) q = Some d ∧ dominates d = e ∧ ebitmap_wf e.

(** [es] are the bitmaps of [roles]. *)
Lemma add_dominated_runs p um roles es : Forall2 (dominated p) roles es → ∀ d m, ebitmap_wf (rs_roles (u_roles d)) → plenty m →
  runs (add_dominated (Z.of_nat (length um)) roles) (set_user_mem (um ++ [d]) p, m) (λ ok s, ok = true ∧
    ∃ e, s.1 = set_user_mem (um ++ [with_roles e d]) p ∧ ebitmap_wf e ∧
      ∀ j, ebitmap_get_bit e j = true ↔ ebitmap_get_bit (rs_roles (u_roles d)) j = true ∨ ∃ x, x ∈ es ∧ ebitmap_get_bit x j = true).
Proof.
  induction 1 as [|role x roles es (rq&rd&Eq&Ed&Ex&Hx) _ IH]; intros d m Hw Hm; cbn [add_dominated].
  - apply runs_return; [done|]. split; [done|]. exists (rs_roles (u_roles d)). split; [cbn [fst]; do 3 f_equal; by destruct d as [? [? ?] ? ? ? ? ? ?]|].
    split; [done|]. intros j. split; [by left|]. intros [?|(x&?%not_elem_of_nil&_)]; done.
  - eapply runs_step; [done|]. cbn [fst]. change (p_roles (set_user_mem _ p)) with (p_roles p). rewrite Eq.
    eapply runs_step; [unfold load, get_p, gets, lift, mbind, M_bind; cbn [fst snd]; change (role_mem (set_user_mem _ p)) with (role_mem p); by rewrite Ed|].
    eapply runs_step; [by apply load_last|]. rewrite Ex.
    eapply runs_bind.
    { apply runs_behaves; [|exact Hm]. apply (behaves_loop _ (ebitmap_set_bits x)
        (λ pre t s', s'.1 = set_user_mem (um ++ [d]) p ∧ (plenty m → plenty s'.2) ∧ ebitmap_wf t ∧
           ∀ j, ebitmap_get_bit t j = true ↔ ebitmap_get_bit (rs_roles (u_roles d)) j = true ∨ j ∈ pre)
        (λ _ s', ¬ plenty m)).
      - intros pre i post t s' El (E1&Hp&Ht&Hg). assert (Hi : i ∈ ebitmap_set_bits x) by (rewrite El; apply elem_of_app; right; by left).
        eapply behaves_mono; [apply behaves_role_copy_step; [done|exact (set_bit_index_ok x i Hx Hi)]|]. intros [t'|t'] s'' [E2 H2] Hp2; [by intros Hpl; apply H2, Hp|].
        destruct H2 as [Ht' Hg']. split; [congruence|]. split; [auto|]. split; [done|]. intros j. rewrite Hg', Hg, elem_of_app, list_elem_of_singleton. tauto.
      - split; [done|]. split; [done|]. split; [done|]. intros j. rewrite elem_of_nil. tauto. }
    intros [t|t] s1 H Hm1; [by destruct H|]. destruct H as (E1&_&Ht&Hg). destruct s1 as [p1 m1]. cbn [fst snd] in *. subst p1.
    eapply runs_step; [by apply update_last|]. change (set_user_mem ?a (set_user_mem _ p)) with (set_user_mem a p).
    destruct (IH (with_roles t d) m1 Ht Hm1) as (ok&s2&Er&Hm2&->&e&E2&He&Hge). exists true, s2. split; [exact Er|]. split; [done|]. split; [done|].
    exists e. split; [exact E2|]. split; [done|]. intros j. rewrite Hge. cbn [u_roles with_roles rs_roles]. rewrite Hg, elem_of_set_bits by done. split.
    + intros [[?|?]|(y&?&?)]; [by left|right; exists x; split; [by left|done]|right; exists y; split; [by right|done]].
    + intros [?|(y&[->|?]%elem_of_cons&?)]; [by left; left|by left; right|right; by exists y].
Qed.

(** The text of a range that can be read back. *)
Definition range_text (p : policydb) (text : string) (r : mls_range) : Prop :=
  range_readable p r ∧ mls_sid_to_context p (CTX 0 0 0 r) = Ret (String ":" text).

(** The default level and the range a record gives a user. *)
Definition user_levels (p : policydb) (user : sepol_user) (dl : mls_level) (rg : mls_range) : Prop :=
  if mls p =? 0 then mls_level_ user = None ∧ mls_range_ user = None ∧ dl = mls_level_init ∧ rg = mls_range_init
  else ∃ tl tr, mls_level_ user = Some tl ∧ mls_range_ user = Some tr ∧ range_text p tl (MR dl dl) ∧ range_text p tr rg.

Lemma range_of_string_runs p text r m : mls p ≠ 0 → range_text p text r → plenty m →
  ∃ m', range_of_string text (p, m) = Ret (Some r, (p, m')) ∧ plenty m'.
Proof.
  intros Hmls [Hr Ht] Hm. destruct (range_text_read p (CTX 0 0 0 r) context_init m Hmls Hr eq_refl Hm) as (text'&m'&E&Hrun&Hm').
  rewrite Ht in E. injection E as <-. exists m'. split; [|done]. unfold range_of_string. cbn [fst snd]. by rewrite Hrun.
Qed.

Lemma set_user_mls_runs p um d user dl rg m : user_levels p user dl rg → exp_dfltlevel d = mls_level_init → exp_range d = mls_range_init → plenty m →
  runs (set_user_mls (Z.of_nat (length um)) user) (set_user_mem (um ++ [d]) p, m) (λ ok s, ok = true ∧
    s.1 = set_user_mem (um ++ [with_exp_range rg (with_dfltlevel dl d)]) p).
Proof.
  intros H Hl Hr Hm. unfold set_user_mls, user_levels in *. eapply runs_step; [done|]. cbn [fst]. change (mls (set_user_mem _ p)) with (mls p).
  destruct (Z.eqb_spec (mls p) 0) as [E|E]; cbn [negb].
  - destruct H as (->&->&->& ->). apply runs_return; [done|]. split; [done|]. cbn [fst]. do 3 f_equal. destruct d; cbn in *. by subst.
  - destruct H as (tl&tr&El&Er&Htl&Htr). rewrite El, Er. unfold set_user_level, set_user_range.
    destruct (range_of_string_runs (set_user_mem (um ++ [d]) p) tl (MR dl dl) m E Htl Hm) as (m1&E1&Hm1).
    set (d1 := with_dfltlevel dl d).
    apply (runs_step _ _ _ true (set_user_mem (um ++ [d1]) p, (mls_level_cpy dl m1).2)).
    { unfold mbind, M_bind. rewrite E1. unfold with_mem. cbn [fst snd level0]. pose proof (mls_level_cpy_correct dl m1) as [_ Hc].
      destruct (mls_level_cpy dl m1) as [[rc l] m2]. cbn [fst snd] in *. destruct Hc as [[= -> ->]|[Hno _]]; [|by destruct Hno].
      by rewrite (update_last _ (set_user_mem (um ++ [d]) p) um d). }
    cbn [negb]. set (m2 := (mls_level_cpy dl m1).2). assert (Hm2 : plenty m2) by (by apply mls_level_cpy_correct).
    destruct (range_of_string_runs (set_user_mem (um ++ [d1]) p) tr rg m2 E Htr Hm2) as (m3&E3&Hm3).
    eapply runs_step; [exact E3|]. eapply runs_step; [by apply load_last|].
    pose proof (mls_range_cpy_correct (exp_range d1) rg m3) as [Hp Hc]. apply (runs_step _ _ _ (0, rg) (set_user_mem (um ++ [d1]) p, (mls_range_cpy (exp_range d1) rg m3).2)).
    { unfold with_mem. cbn [fst snd]. destruct (mls_range_cpy _ rg m3) as [[rc l] m4]. cbn [fst snd] in *.
      destruct Hc as [[= -> ->]|[Hno _]]; [done|by destruct Hno]. }
    eapply runs_step; [by apply update_last|]. apply runs_return; [by apply Hp|done].
Qed.

Lemma grown_by_one_full {A} np (l : list (option A)) : Z.of_nat (length l) = np → grown_by_one np l = l ++ [None].
Proof.
  intros <-. unfold grown_by_one. rewrite Nat2Z.id, Nat.sub_diag. cbn [replicate]. by rewrite app_nil_r, firstn_all.
Qed.

Lemma set_last {A} (l : list A) np a b : Z.of_nat (length l) = np → set_index (l ++ [a]) np b = l ++ [b].
Proof. intros <-. unfold set_index. rewrite Nat2Z.id, insert_app_r_alt, Nat.sub_diag by lia. done. Qed.

Lemma at_last {A} (l : list A) np a : Z.of_nat (length l) = np → at_index (l ++ [a]) np = Some a.
Proof. intros <-. unfold at_index. destruct (Z.ltb_spec (Z.of_nat (length l)) 0); [lia|]. rewrite Nat2Z.id. by apply list_lookup_middle. Qed.

(** The policy with a user more. *)
Definition with_user (name : string) (d : user_datum) (h : hashtab_t string ptr) (ns : list (option string)) (p : policydb) : policydb :=
  set_user_mem (user_mem p ++ [d]) (set_user_val_to_struct (user_val_to_struct p ++ [Some (Z.of_nat (length (user_mem p)))])
    (set_sym_val_to_name (set_index (sym_val_to_name p) SYM_USERS (ns ++ [Some name])) (set_p_users (SYM h (nprim (p_users p) + 1)) p))).

Lemma symtab_put_runs p tab name q m : p_users p = tab → hashtab_wf (table tab) → hashtab_search (table tab) name = None →
  is_Some (table tab) → plenty m →
  runs (symtab_put SYM_USERS name q) (p, m) (λ rc s, rc = 0 ∧
    ∃ h, s.1 = set_p_users (SYM h (nprim tab)) p ∧ hashtab_wf h ∧ to_map h = <[name := q]> (to_map (table tab))).
Proof.
  intros <- Hw Hnew [t Ht] Hm. unfold symtab_put. eapply runs_step; [done|]. cbn [fst]. change (symtab_of SYM_USERS p) with (p_users p).
  pose proof (hashtab_insert_correct (table (p_users p)) name q m Hw I) as Hi. destruct (hashtab_insert _ name q m) as [[rc h] m1] eqn:E.
  destruct Hi as (Hh&Hp&[(->&_&Hmap)|[(_&Hs&_)|(_&_&Hno)]]).
  - apply (runs_step _ _ _ (0, h) (p, m1)); [unfold with_mem; cbn [fst snd]; by rewrite E|]. eapply runs_step; [done|].
    apply runs_return; [by apply Hp|]. split; [done|]. by exists h.
  - rewrite hashtab_search_correct in Hnew by done. rewrite Hnew in Hs. by destruct Hs.
  - rewrite (Hno Hm) in Ht. done.
Qed.

Lemma write_name_run p i name ns m : at_index (sym_val_to_name p) SYM_USERS = Some ns → is_Some (at_index ns i) →
  write_name SYM_USERS i name (p, m) = Ret ((), (set_sym_val_to_name (set_index (sym_val_to_name p) SYM_USERS (set_index ns i (Some name))) p, m)).
Proof.
  intros E [x Hi]. unfold write_name. unfold elem, get_p, gets, lift, mbind at 1, M_bind at 1. unfold mbind at 1, M_bind at 1. cbn [fst].
  rewrite E. cbn [deref]. unfold mbind, M_bind. rewrite Hi. cbn [deref]. apply write_eq. by eexists.
Qed.

Lemma register_runs p d name ns m : index_of user_kind p → is_Some (table (p_users p)) → hashtab_search (table (p_users p)) name = None →
  at_index (sym_val_to_name p) SYM_USERS = Some ns → Z.of_nat (length ns) = nprim (p_users p) → 0 <= nprim (p_users p) < 2 ^ 32 - 1 →
  rs_flags (u_roles d) = 0 → ebitmap_wf (rs_roles (u_roles d)) → plenty m →
  runs (register_user (Z.of_nat (length (user_mem p))) name) (set_user_mem (user_mem p ++ [d]) p, m) (λ ok s, ok = true ∧
    ∃ h, s.1 = with_user name (with_cache (rs_roles (u_roles d)) (with_value (nprim (p_users p) + 1) d)) h ns p ∧
      hashtab_wf h ∧ to_map h = <[name := Z.of_nat (length (user_mem p))]> (to_map (table (p_users p)))).
Proof.
  intros [Hwf Hlen _ _ _] Hsome Hnew Hns Hlns Hnp Hfl Hrw Hm. cbn [k_arr k_tab user_kind] in *. set (np := nprim (p_users p)) in *. set (um := user_mem p) in *.
  unfold register_user. eapply runs_step; [done|]. cbn [fst]. change (nprim (p_users (set_user_mem (um ++ [d]) p))) with np.
  eapply runs_bind; [by apply runs_alloc|]. intros b [p1 m1] [-> E1] Hm1. cbn [fst negb] in *. subst p1.
  eapply runs_step; [done|]. eapply runs_bind; [by apply runs_alloc|]. intros b [p1 m2] [-> E1] Hm2. cbn [fst negb] in *. subst p1.
  set (p1 := set_user_val_to_struct _ _). assert (En : at_index (sym_val_to_name p1) SYM_USERS = Some ns) by exact Hns.
  apply (runs_step _ _ _ ns (p1, m2)); [unfold elem, get_p, gets, lift, mbind, M_bind; cbn [fst]; by rewrite En|].
  eapply runs_step; [apply write_eq; by eexists|]. eapply runs_bind; [by apply runs_alloc|]. intros b [p2 m3] [-> E2] Hm3. cbn [fst negb] in *. subst p2.
  set (p2 := set_sym_val_to_name _ p1). set (v := np + 1).
  apply (runs_step _ _ _ v (set_p_users (SYM (table (p_users p)) v) p2, m3)).
  { unfold next_value, get_p, gets, upd, modify, mbind, M_bind. cbn [fst snd mret M_ret].
    change (nprim (symtab_of SYM_USERS p2)) with np. change (table (symtab_of SYM_USERS p2)) with (table (p_users p)). by rewrite u32_small by lia. }
  set (p3 := set_p_users _ p2). eapply runs_step; [by apply (update_last _ p3 um d)|]. set (d1 := with_value v d). set (p4 := set_user_mem _ p3).
  eapply runs_bind; [by apply (symtab_put_runs p4 (SYM (table (p_users p)) v) name); [..|exact Hsome|exact Hm3]|].
  intros rc [p5 m5] (->&h&E5&Hh&Hmap) Hm5. cbn [fst Z.ltb Z.compare table nprim] in *. subst p5. set (p5 := set_p_users _ p4).
  replace (v - 1) with np by lia.
  assert (EN : at_index (sym_val_to_name p5) SYM_USERS = Some (ns ++ [None])).
  { change (at_index (set_index (sym_val_to_name p) SYM_USERS (grown_by_one np ns)) SYM_USERS = Some (ns ++ [None])).
    apply at_index_Some in Hns as Hr. by rewrite at_set_index_eq, grown_by_one_full. }
  assert (Ev : user_val_to_struct p5 = user_val_to_struct p ++ [None]) by (by apply grown_by_one_full).
  eapply runs_step; [by apply (write_name_run p5 np name (ns ++ [None])); [|rewrite (at_last _ np)]|].
  set (p6 := set_sym_val_to_name _ p5). eapply runs_step; [apply write_eq; change (user_val_to_struct p6) with (user_val_to_struct p5); rewrite Ev, (at_last _ np) by done; by eexists|].
  set (p7 := set_user_val_to_struct _ p6). eapply runs_step; [by apply (load_last p7 um d1)|]. destruct (u_roles d1) as [e fl] eqn:Er. 
  assert (RS (rs_roles (u_roles d)) 0 = RS e fl) as [= <- <-]. { rewrite <- Er. cbn [d1 with_value u_roles]. destruct (u_roles d); cbn in *. by subst. }
  eapply runs_bind; [apply runs_behaves; [by apply behaves_role_set_expand|exact Hm5]|]. intros [rc e] [p8 m8] [E8 Hrc] Hm8. cbn [fst snd] in *. subst p8.
  destruct Hrc as [[-> ->]|[_ Hno]]; [|by destruct Hno]. eapply runs_step; [by apply (update_last _ p7 um d1)|].
  apply runs_return; [done|]. split; [done|]. exists h. split; [|done]. cbn [fst].
  assert (E6 : set_index (sym_val_to_name p5) SYM_USERS (set_index (ns ++ [None]) np (Some name)) = set_index (sym_val_to_name p) SYM_USERS (ns ++ [Some name])).
  { rewrite (set_last _ np) by done. change (sym_val_to_name p5) with (set_index (sym_val_to_name p) SYM_USERS (grown_by_one np ns)). unfold set_index. apply list_insert_insert_eq. }
  unfold p7. change (user_val_to_struct p6) with (user_val_to_struct p5). rewrite Ev, (set_last _ np) by done. unfold p6. rewrite E6. reflexivity.
Qed.

Lemma at_app {A} (l : list A) a i : at_index (l ++ [a]) i = if i =? Z.of_nat (length l) then Some a else at_index l i.
Proof.
  destruct (Z.eqb_spec i (Z.of_nat (length l))) as [->|Hne]; [by apply at_last|]. unfold at_index. destruct (Z.ltb_spec i 0); [done|].
  destruct (decide (Z.to_nat i < length l)%nat); [by rewrite lookup_app_l|]. rewrite lookup_ge_None_2 by (rewrite length_app; cbn; lia).
  by rewrite lookup_ge_None_2 by lia.
Qed.

(** The indexes of a policy with a user more. *)
Lemma with_user_indexed p name d h ns : index_of user_kind p → hashtab_wf h →
  to_map h = <[name := Z.of_nat (length (user_mem p))]> (to_map (table (p_users p))) → to_map (table (p_users p)) !! name = None →
  (∀ key (q : ptr), to_map (table (p_users p)) !! key = Some q → is_Some (at_index (user_mem p) q)) →
  at_index (sym_val_to_name p) SYM_USERS = Some ns → 0 < nprim (p_users p) → u_value d = nprim (p_users p) + 1 →
  index_of user_kind (with_user name d h ns p).
Proof.
  intros [Hwf Hlen Hrange Hobj (ns'&Ens&Hlns&Hnames)] Hh Hmap Hnew Hin Hns Hpos Hd. cbn [k_arr k_tab k_sym user_kind] in *.
  rewrite Hns in Ens. injection Ens as <-. set (np := nprim (p_users p)) in *. set (q0 := Z.of_nat (length (user_mem p))) in *.
  assert (Hnz : np ≠ 0) by lia. specialize (Hrange Hnz). specialize (Hobj Hnz). specialize (Hnames Hnz).
  assert (Hval : ∀ q, value_at user_kind (with_user name d h ns p) q = if q =? q0 then Some (np + 1) else value_at user_kind p q).
  { intros q. unfold value_at. cbn [k_store k_value user_kind with_user user_mem set_user_mem]. rewrite at_app. destruct (q =? _); [cbn; by rewrite Hd|done]. }
  assert (Hold : ∀ key (q : ptr), to_map (table (p_users p)) !! key = Some q → key ≠ name ∧ (q =? q0) = false).
  { intros key q Hk. split; [intros ->; congruence|]. destruct (Hin key q Hk) as [x Hx]. apply at_index_Some in Hx. apply Z.eqb_neq. unfold q0. lia. }
  assert (Hentry : ∀ key q v, (to_map h !! key = Some q ∧ value_at user_kind (with_user name d h ns p) q = Some v) ↔
    (key = name ∧ q = q0 ∧ v = np + 1) ∨ (to_map (table (p_users p)) !! key = Some q ∧ value_at user_kind p q = Some v ∧ 0 < v <= np)).
  { intros key q v. rewrite Hmap, Hval. split.
    - intros [[(<-&<-)|[Hne Hk]]%lookup_insert_Some Hv]; [left|right].
      + rewrite Z.eqb_refl in Hv. by injection Hv as <-.
      + destruct (Hold _ _ Hk) as [_ Hq]. rewrite Hq in Hv. split; [done|]. split; [done|]. by apply (Hrange key q).
    - intros [(->&->&->)|(Hk&Hv&_)].
      + by rewrite lookup_insert_eq, Z.eqb_refl.
      + destruct (Hold _ _ Hk) as [Hne ->]. by rewrite lookup_insert_ne. }
  split; cbn [k_arr k_tab k_sym user_kind with_user user_mem set_user_mem user_val_to_struct set_user_val_to_struct p_users set_p_users table nprim
    sym_val_to_name set_sym_val_to_name].
  - exact Hh.
  - rewrite length_app. cbn [length]. lia.
  - intros _ key q v Hk Hv. destruct (proj1 (Hentry key q v) (conj Hk Hv)) as [(_&_&->)|(_&_&?)]; lia.
  - intros _ i q. rewrite at_app, Hlen. fold q0. split.
    + destruct (Z.eqb_spec i np) as [->|Hne]; [intros [= <-]; split; [lia|]; exists name; apply Hentry; by left|].
      intros Hi. pose proof (at_index_Some _ _ _ Hi). apply Hobj in Hi as (?&key&Hk&Hv). split; [done|]. exists key. apply Hentry. right. split_and!; [done|done|lia|lia].
    + intros (Hi0&key&H). apply Hentry in H as [(->&->&?)|(Hk&Hv&Hr)].
      * assert (i = np) as -> by lia. by rewrite Z.eqb_refl.
      * destruct (Z.eqb_spec i np); [lia|]. apply Hobj. split; [done|]. by exists key.
  - exists (ns ++ [Some name]). split; [apply at_index_Some in Hns; by apply at_set_index_eq|]. split; [rewrite length_app; cbn [length]; lia|].
    intros _ i key. rewrite at_app, Hlns. split.
    + destruct (Z.eqb_spec i np) as [->|Hne]; [intros [= <-]; split; [lia|]; exists q0; apply Hentry; by left|].
      intros Hi. pose proof (at_index_Some _ _ _ Hi). apply Hnames in Hi as (?&q&Hk&Hv). split; [done|]. exists q. apply Hentry. right. split_and!; [done|done|lia|lia].
    + intros (Hi0&q&H). apply Hentry in H as [(->&->&?)|(Hk&Hv&Hr)].
      * assert (i = np) as -> by lia. by rewrite Z.eqb_refl.
      * destruct (Z.eqb_spec i np); [lia|]. apply Hnames. split; [done|]. by exists q.
Qed.
