(* ===== verification/Statements.v ===== *)
(** * Statements as updates of the rules

    An abstract semantics of the statements that edit rules ([allow], [deny],
    [auditallow], [auditdeny], the three extended permission actions and
    [typetrans] without a file name), on the rules seen as a function from keys
    to data, and the proof that the program, run on the text of the statements,
    implements it. *)

From S2P Require Import Prelude Ebitmap Hashtab Avtab Context Policydb Sepolicy Rules RuleEdit Magiskpolicy.

(** ** The abstract semantics *)

Definition rule_map : Type := avtab_key → option avtab_datum.

Definition update (ks : list avtab_key) (f : option avtab_datum → avtab_datum) (g : rule_map) : rule_map :=
  λ k, if bool_decide (k ∈ ks) then Some (f (g k)) else g k.

(** The access vector kind and the direction of an action of pattern 1. *)
Inductive access_action := Allow | Deny | AuditAllow | AuditDeny.
Inductive xperm_action := AllowX | AuditAllowX | DontAuditX.

Definition access_name (a : access_action) : string :=
  match a with Allow => "allow" | Deny => "deny" | AuditAllow => "auditallow" | AuditDeny => "auditdeny" end.
Definition access_effect (a : access_action) : Z :=
  match a with Allow | Deny => AVTAB_ALLOWED | AuditAllow => AVTAB_AUDITALLOW | AuditDeny => AVTAB_AUDITDENY end.
Definition access_not (a : access_action) : bool := match a with Deny => true | _ => false end.

Definition xperm_name (a : xperm_action) : string :=
  match a with AllowX => "allowxperm" | AuditAllowX => "auditallowxperm" | DontAuditX => "dontauditxperm" end.
Definition xperm_effect (a : xperm_action) : Z :=
  match a with
  | AllowX => AVTAB_XPERMS_ALLOWED | AuditAllowX => AVTAB_XPERMS_AUDITALLOW | DontAuditX => AVTAB_XPERMS_DONTAUDIT
  end.

(** One command: a source, a target, a class and a permission. *)
Definition sem_access (p : policydb) (a : access_action) (s t c perm : option string) (g : rule_map) : rule_map :=
  match rule_target p s t c perm with
  | None => g
  | Some (src, tgt, cls, pd) =>
      update (rule_keys p src tgt cls (access_effect a))
             (add_datum (perm_update (rule_perm cls pd) (access_not a))) g
  end.

Definition sem_xperm (p : policydb) (a : xperm_action) (low high : Z) (s t c : option string) (g : rule_map) : rule_map :=
  match rule_target p s t c None with
  | None => g
  | Some (src, tgt, cls, _) =>
      update (rule_keys p src tgt cls (xperm_effect a)) (xdatum low high false) g
  end.

Definition sem_transition (p : policydb) (s t c d : string) (g : rule_map) : rule_map :=
  match transition_target p s t c d with
  | None => g
  | Some (src, tgt, cls, def) =>
      update [rule_key (type_value p src) (type_value p tgt) (class_value p cls) AVTAB_TRANSITION]
             (add_datum (λ _, type_value p def)) g
  end.

(** The statements. *)
Inductive statement :=
  | Access (a : access_action) (s t : argument) (c : string) (perm : argument)
  | Xperm (a : xperm_action) (s t c : argument) (ioctl range : string)
  | Typetrans (s t c d : string).

Definition statement_text (x : statement) : string :=
  match x with
  | Access a s t c perm => (access_name a +:+ " " +:+ print (tokens_1 s t c perm))%string
  | Xperm a s t c w r => (xperm_name a +:+ " " +:+ print (tokens_5 s t c w r))%string
  | Typetrans s t c d => ("typetrans" +:+ " " +:+ print [s; t; c; d])%string
  end.

(** The words are words, and the range of codes can be read. *)
Definition statement_ok (x : statement) : Prop :=
  match x with
  | Access _ s t c perm => arg_ok s ∧ arg_ok t ∧ word_ok c = true ∧ arg_ok perm
  | Xperm _ s t c w r => arg_ok s ∧ arg_ok t ∧ arg_ok c ∧ word_ok w = true ∧ word_ok r = true ∧
                         ∃ low high, xperm_range_of (star r) = Ret (low, high)
  | Typetrans s t c d => Forall (λ w, token_ok w = true) [s; t; c; d]
  end.

(** The commands of a statement, one per element of the product. *)
Definition commands (x : statement) (p : policydb) : list (rule_map → rule_map) :=
  match x with
  | Access a s t c perm =>
      i ← map star (arg_words s); j ← map star (arg_words t); k ← map star (arg_words perm);
      [sem_access p a i j (star c) k]
  | Xperm a s t c _ r =>
      match xperm_range_of (star r) with
      | Ret (low, high) =>
          i ← map star (arg_words s); j ← map star (arg_words t); k ← map star (arg_words c);
          [sem_xperm p a low high i j k]
      | _ => []
      end
  | Typetrans s t c d => [sem_transition p s t c d]
  end.

Definition sem (p : policydb) (l : list statement) (g : rule_map) : rule_map :=
  fold_left (λ g x, fold_left (λ g f, f g) (commands x p) g) l g.

(** ** The refinement *)

(** A command of the program implements an update of the rules. *)
Definition implements (c : M st Z) (p : policydb) (f : rule_map → rule_map) : Prop :=
  ∀ tab m, rules_ok tab → plenty m →
    ∃ rc tab' m', c (set_te_avtab tab p, m) = Ret (rc, (set_te_avtab tab' p, m')) ∧ plenty m' ∧
      rules_ok tab' ∧ ∀ g, (∀ k, g k = rule_datum tab k) → ∀ k, f g k = rule_datum tab' k.

Lemma edits_update ks f tab tab' g :
  edits ks f tab tab' → (∀ k, g k = rule_datum tab k) → ∀ k, update ks f g k = rule_datum tab' k.
Proof. intros He Hg k. unfold update. rewrite Hg. symmetry. apply He. Qed.

(** The policy with the symbols of [p]. *)
Definition base_ok (p : policydb) : Prop :=
  syms_ok p ∧ hashtab_wf (table (p_types p)) ∧ hashtab_wf (table (p_classes p)) ∧ perms_ok p.

Lemma base_policy_ok p tab : base_ok p → rules_ok tab → policy_ok (set_te_avtab tab p).
Proof. intros ([]&?&?&?) Ht. by repeat (split; try done). Qed.

Lemma access_implements p a s t c perm :
  base_ok p → implements (add_rule s t c perm (access_effect a) (access_not a)) p (sem_access p a s t c perm).
Proof.
  intros Hp tab m Ht Hm. unfold sem_access.
  assert (Hk : access_kind (access_effect a)) by (split; [destruct a; by repeat constructor|by destruct a]).
  pose proof (add_rule_correct (set_te_avtab tab p) m s t c perm _ (access_not a) (base_policy_ok _ _ Hp Ht) Hk Hm) as H.
  change (rule_target (set_te_avtab tab p) s t c perm) with (rule_target p s t c perm) in H.
  destruct (rule_target p s t c perm) as [[[[src tgt] cls] pd]|].
  - destruct H as (tab'&m'&E&Hm'&Ht'&He). exists 0, tab', m'. split_and!; [exact E|done..|].
    intros g Hg. by eapply edits_update.
  - exists 1, tab, m. by split_and!.
Qed.

Lemma xperm_implements p a s t c r low high :
  base_ok p → xperm_range_of r = Ret (low, high) →
  implements (add_xperm_rule s t c r (xperm_effect a) false) p (sem_xperm p a low high s t c).
Proof.
  intros Hp Hr tab m Ht Hm. unfold sem_xperm.
  assert (Hk : xperm_kind (xperm_effect a)) by (split; [destruct a; by repeat constructor|by destruct a]).
  pose proof (add_xperm_rule_correct (set_te_avtab tab p) m s t c r low high _ false
    (base_policy_ok _ _ Hp Ht) Hk Hm Hr) as H.
  change (rule_target (set_te_avtab tab p) s t c None) with (rule_target p s t c None) in H.
  destruct (rule_target p s t c None) as [[[[src tgt] cls] pd]|].
  - destruct H as (tab'&m'&E&Hm'&Ht'&He). exists 0, tab', m'. split_and!; [exact E|done..|].
    intros g Hg. by eapply edits_update.
  - exists 1, tab, m. by split_and!.
Qed.

Lemma transition_implements p s t c d :
  base_ok p → implements (add_transition s t c d) p (sem_transition p s t c d).
Proof.
  intros Hp tab m Ht Hm. unfold sem_transition.
  pose proof (add_transition_correct (set_te_avtab tab p) m s t c d (base_policy_ok _ _ Hp Ht) Hm) as H.
  change (transition_target (set_te_avtab tab p) s t c d) with (transition_target p s t c d) in H.
  destruct (transition_target p s t c d) as [[[[src tgt] cls] def]|].
  - destruct H as (tab'&m'&E&Hm'&Ht'&He). exists 0, tab', m'. split_and!; [exact E|done..|].
    intros g Hg. by eapply edits_update.
  - exists 1, tab, m. by split_and!.
Qed.

(** A list of commands, their results ignored. *)
Lemma run_implements p cs fs :
  Forall2 (λ c f, implements c p f) cs fs →
  implements (run_all cs) p (λ g, fold_left (λ g f, f g) fs g).
Proof.
  intros H tab m Ht Hm.
  assert (Hrun : ∃ tab' m', run cs (set_te_avtab tab p, m) = Ret ((), (set_te_avtab tab' p, m')) ∧ plenty m' ∧
    rules_ok tab' ∧ ∀ g, (∀ k, g k = rule_datum tab k) → ∀ k, fold_left (λ g f, f g) fs g k = rule_datum tab' k).
  { revert tab m Ht Hm. induction H as [|c f cs fs Hc _ IH]; intros tab m Ht Hm; [by exists tab, m|].
    destruct (Hc tab m Ht Hm) as (rc&tab1&m1&E&Hm1&Ht1&Hg1).
    destruct (IH tab1 m1 Ht1 Hm1) as (tab'&m'&E'&Hm'&Ht'&Hg').
    exists tab', m'. cbn [run]. unfold mbind at 1, M_bind at 1. rewrite E, E'. split_and!; [done..|].
    intros g Hg. simpl. apply Hg'. by apply Hg1. }
  destruct Hrun as (tab'&m'&E&Hm'&Ht'&Hg). exists 0, tab', m'.
  unfold run_all, mbind, M_bind. rewrite E. by split_and!.
Qed.

Lemma Forall2_bind {A B C} (R : B → C → Prop) (f : A → list B) (h : A → list C) l :
  (∀ a, a ∈ l → Forall2 R (f a) (h a)) → Forall2 R (l ≫= f) (l ≫= h).
Proof.
  induction l as [|a l IH]; intros H; [constructor|]. simpl. apply Forall2_app; [apply H; by left|].
  apply IH. intros b Hb. apply H. by right.
Qed.

Lemma action_1_eq a s t c k :
  action_1 (match a with Allow => 0 | Deny => 1 | AuditAllow => 2 | AuditDeny => 3 end) s t c k =
  add_rule s t c k (access_effect a) (access_not a).
Proof. by destruct a. Qed.

(** The actions and the functions that parse their arguments. *)
Lemma run_access a args :
  run_rule (access_name a +:+ " " +:+ args)%string =
  parse_pattern_1 (match a with Allow => 0 | Deny => 1 | AuditAllow => 2 | AuditDeny => 3 end) args.
Proof. unfold run_rule. rewrite statement_of_action by by destruct a. by destruct a. Qed.

Lemma run_xperm a args :
  run_rule (xperm_name a +:+ " " +:+ args)%string =
  parse_pattern_5 (match a with AllowX => 0 | AuditAllowX => 1 | DontAuditX => 2 end) args.
Proof. unfold run_rule. rewrite statement_of_action by by destruct a. by destruct a. Qed.

Lemma run_typetrans args : run_rule ("typetrans" +:+ " " +:+ args)%string = parse_pattern_4 args.
Proof. unfold run_rule. by rewrite statement_of_action. Qed.

Lemma statement_implements p x :
  base_ok p → statement_ok x →
  implements (run_rule (statement_text x)) p (λ g, fold_left (λ g f, f g) (commands x p) g).
Proof.
  intros Hp Hx. destruct x as [a s t c perm|a s t c w r|s t c d]; cbn [statement_text commands statement_ok] in *.
  - destruct Hx as (Hs&Ht&Hc&Hk).
    rewrite run_access, parse_pattern_1_print by done. apply run_implements. unfold calls_1.
    do 3 (apply Forall2_bind; intros ? _). constructor; [|done]. rewrite action_1_eq. by apply access_implements.
  - destruct Hx as (Hs&Ht&Hc&Hw&Hr&low&high&Hrange). rewrite Hrange.
    rewrite run_xperm, parse_pattern_5_print by done. apply run_implements. unfold calls_5.
    do 3 (apply Forall2_bind; intros ? _). constructor; [|done].
    pose proof (xperm_implements p a) as H. destruct a; by apply H.
  - rewrite run_typetrans. unfold parse_pattern_4, print. rewrite tokens_concat by done. intros tab m Ht Hm.
    destruct (transition_implements p s t c d Hp tab m Ht Hm) as (rc&tab'&m'&E&Hm'&Ht'&Hg).
    exists 0, tab', m'. unfold mbind, M_bind, sepol_typetrans. rewrite E. by split_and!.
Qed.

Lemma run_all_zero cs s rc s' : run_all cs s = Ret (rc, s') → rc = 0.
Proof. unfold run_all, mbind, M_bind. destruct (run cs s) as [[[] s1]| |]; [|done..]. by intros [= <- _]. Qed.

Lemma statement_zero x s rc s' : statement_ok x → run_rule (statement_text x) s = Ret (rc, s') → rc = 0.
Proof.
  destruct x as [a s1 t c perm|a s1 t c w r|s1 t c d]; cbn [statement_text statement_ok].
  - intros (?&?&?&?). rewrite run_access, parse_pattern_1_print by done. apply run_all_zero.
  - intros (?&?&?&?&?&_). rewrite run_xperm, parse_pattern_5_print by done. apply run_all_zero.
  - intros H. rewrite run_typetrans. unfold parse_pattern_4, print. rewrite tokens_concat by done.
    unfold mbind, M_bind. destruct (sepol_typetrans s1 t c d None s) as [[? ?]| |]; [|done..]. by intros [= <- _].
Qed.

(** A program of statements: none is a syntax error, and the rules are those of
    the semantics. *)
Lemma run_rules_sem p l :
  base_ok p → Forall statement_ok l → ∀ tab m, rules_ok tab → plenty m →
  ∃ tab' m', run_rules (map statement_text l) false (set_te_avtab tab p, m) =
      Ret (false, (set_te_avtab tab' p, m')) ∧ plenty m' ∧ rules_ok tab' ∧
    ∀ g, (∀ k, g k = rule_datum tab k) → ∀ k, sem p l g k = rule_datum tab' k.
Proof.
  intros Hp. induction 1 as [|x l Hx _ IH]; intros tab m Ht Hm; [by exists tab, m|].
  destruct (statement_implements p x Hp Hx tab m Ht Hm) as (rc&tab1&m1&E&Hm1&Ht1&Hg1).
  pose proof (statement_zero _ _ _ _ Hx E) as ->.
  destruct (IH tab1 m1 Ht1 Hm1) as (tab'&m'&E'&Hm'&Ht'&Hg').
  exists tab', m'. cbn [map run_rules]. unfold mbind, M_bind. rewrite E. cbn [negb Z.eqb orb].
  rewrite E'. split_and!; [done..|]. intros g Hg. unfold sem. cbn [fold_left]. apply Hg'. by apply Hg1.
Qed.
