(* ===== verification/DomainEdit.v ===== *)
(** * Correctness of the edits of domains and attributes (magiskpolicy/sepolicy.c)

    Permissive domains, the attribute maps, and the constraints that
    [add_typeattribute] updates. *)

From S2P Require Import Prelude Ebitmap Hashtab Avtab Context Policydb Mls Cond Services Sepolicy Rules RuleEdit.

(** ** Running code step by step *)

Lemma find_type_eq n s : find_type n s = Ret (hashtab_search (table (p_types s.1)) n, s).
Proof. done. Qed.

(** ** The permissive map *)

(** The type values a 32-bit bitmap can hold. *)
Definition types_bits_ok (p : policydb) : Prop :=
  ∀ q, q ∈ datums (table (p_types p)) → bit_ok (type_value p q).

Definition mark (vs : list Z) (state : bool) (e : ebitmap) (e' : ebitmap) : Prop :=
  ebitmap_wf e' ∧ ∀ j, ebitmap_get_bit e' j = if bool_decide (j ∈ vs) then state else ebitmap_get_bit e j.

Lemma mark_nil state e : ebitmap_wf e → mark [] state e e.
Proof. intros He. by split. Qed.

Lemma mark_app state vs1 vs2 e1 e2 e3 :
  mark vs1 state e1 e2 → mark vs2 state e2 e3 → mark (vs1 ++ vs2) state e1 e3.
Proof.
  intros [_ H1] [Hw H2]. split; [done|]. intros j. rewrite H2, H1.
  destruct (bool_decide_reflect (j ∈ vs1)) as [E1|E1], (bool_decide_reflect (j ∈ vs2)) as [E2|E2].
  - by rewrite bool_decide_true by (apply elem_of_app; by left).
  - by rewrite bool_decide_true by (apply elem_of_app; by left).
  - by rewrite bool_decide_true by (apply elem_of_app; by right).
  - by rewrite bool_decide_false by (rewrite elem_of_app; tauto).
Qed.

Lemma set_permissive_ok q state p m :
  is_Some (at_index (type_mem p) q) → bit_ok (type_value p q) → ebitmap_wf (permissive_map p) → plenty m →
  ∃ e' m', set_permissive q state (p, m) = Ret (0, (set_permissive_map e' p, m')) ∧ plenty m' ∧
    mark [type_value p q] state (permissive_map p) e'.
Proof.
  intros [d Hd] Hb He Hm. unfold type_value in *. rewrite Hd in *. simpl in Hb.
  destruct (set_bit_plenty (permissive_map p) (t_value d) state p m He Hb Hm) as (e'&m'&E&Hm'&Hw&Hg).
  exists e', m'. unfold set_permissive, load, get_p, gets, lift, mbind, M_bind. cbn [fst]. rewrite Hd. cbn [deref fst].
  rewrite E. split_and!; [done..|]. split; [done|]. intros j. rewrite Hg. simpl.
  destruct (Z.eqb_spec j (t_value d)) as [->|Hne]; [by rewrite bool_decide_true by by left|].
  rewrite bool_decide_false; [done|]. by intros ?%list_elem_of_singleton.
Qed.

(** The whole command: the selected types get the state, the others keep it. *)
Lemma set_permissive_all_ok state l p m :
  (∀ q, q ∈ l → is_Some (at_index (type_mem p) q) ∧ bit_ok (type_value p q)) →
  ebitmap_wf (permissive_map p) → plenty m →
  ∃ e' m', set_permissive_all l state (p, m) = Ret (0, (set_permissive_map e' p, m')) ∧ plenty m' ∧
    mark (type_value p <$> l) state (permissive_map p) e'.
Proof.
  revert p m. induction l as [|q l IH]; intros p m Hl He Hm.
  { exists (permissive_map p), m. split; [by destruct p|]. split; [done|]. by apply mark_nil. }
  destruct (Hl q ltac:(by left)) as [Hq Hqb].
  destruct (set_permissive_ok q state p m Hq Hqb He Hm) as (e1&m1&E1&Hm1&Hk1).
  destruct (IH (set_permissive_map e1 p) m1) as (e'&m'&E'&Hm'&Hk').
  - intros q' Hq'. apply (Hl q'). by right.
  - apply Hk1.
  - done.
  - exists e', m'. cbn [set_permissive_all]. unfold mbind, M_bind. rewrite E1. cbn [negb Z.eqb]. rewrite E'.
    split; [done|]. split; [done|]. by apply (mark_app _ [_] _ _ e1).
Qed.

Lemma set_domain_state_correct p m s state :
  syms_ok p → hashtab_wf (table (p_types p)) → types_bits_ok p → ebitmap_wf (permissive_map p) → plenty m →
  match resolve (table (p_types p)) s with
  | None => set_domain_state s state (p, m) = Ret (1, (p, m))
  | Some o =>
      ∃ e' m', set_domain_state s state (p, m) = Ret (0, (set_permissive_map e' p, m')) ∧ plenty m' ∧
        mark (type_value p <$> sel_types p o) state (permissive_map p) e'
  end.
Proof.
  intros Hs Hw Hb He Hm. destruct s as [n|]; cbn [resolve].
  - destruct (hashtab_search (table (p_types p)) n) as [q|] eqn:E; simpl.
    + assert (Hq : q ∈ datums (table (p_types p))) by (eapply search_datums; [apply Hs|done..]).
      destruct (set_permissive_ok q state p m) as (e'&m'&E'&Hm'&Hk); [by apply Hs|by apply Hb|done..|].
      exists e', m'. unfold find_type, get_p, gets, mbind, M_bind. cbn [fst]. rewrite E. cbn. rewrite E'. done.
    + unfold find_type, get_p, gets, mbind, M_bind. cbn [fst]. by rewrite E.
  - destruct (types_table p Hs) as [h Hh].
    destruct (set_permissive_all_ok state (datums (table (p_types p))) p m) as (e'&m'&E'&Hm'&Hk); [|done..|].
    { intros q Hq. split; [by apply Hs|by apply Hb]. }
    exists e', m'. unfold set_domain_state, get_p, gets, ref, lift, mbind, M_bind. cbn [fst].
    rewrite Hh. cbn [deref fst]. rewrite <- Hh, E'. done.
Qed.

(** Making an enforcing domain permissive and enforcing it again gives back the
    same policy. *)
Lemma permissive_enforce p m n q :
  syms_ok p → hashtab_wf (table (p_types p)) → types_bits_ok p → ebitmap_wf (permissive_map p) → plenty m →
  hashtab_search (table (p_types p)) n = Some q →
  ebitmap_get_bit (permissive_map p) (type_value p q) = false →
  ∃ p1 m1 m2, sepol_permissive (Some n) (p, m) = Ret (0, (p1, m1)) ∧
    ebitmap_get_bit (permissive_map p1) (type_value p q) = true ∧
    sepol_enforce (Some n) (p1, m1) = Ret (0, (p, m2)).
Proof.
  intros Hs Hw Hb He Hm Hq Hbit. unfold sepol_permissive, sepol_enforce.
  pose proof (set_domain_state_correct p m (Some n) true Hs Hw Hb He Hm) as H1.
  cbn [resolve] in H1. rewrite Hq in H1. simpl in H1. destruct H1 as (e1&m1&E1&Hm1&Hw1&Hg1).
  assert (Hs1 : syms_ok (set_permissive_map e1 p)) by (destruct Hs; by split).
  pose proof (set_domain_state_correct (set_permissive_map e1 p) m1 (Some n) false Hs1 Hw Hb Hw1 Hm1) as H2.
  cbn [resolve] in H2. change (p_types (set_permissive_map e1 p)) with (p_types p) in H2.
  rewrite Hq in H2. simpl in H2. destruct H2 as (e2&m2&E2&Hm2&Hw2&Hg2).
  exists (set_permissive_map e1 p), m1, m2. split; [done|]. split.
  { cbn [permissive_map set_permissive_map]. rewrite Hg1. by rewrite bool_decide_true by by left. }
  etransitivity; [exact E2|]. assert (e2 = permissive_map p) as ->; [|by destruct p].
  apply ebitmap_ext; [done..|]. intros j. rewrite Hg2. cbn [permissive_map set_permissive_map]. rewrite Hg1.
  change (type_value (set_permissive_map e1 p) q) with (type_value p q).
  destruct (bool_decide_reflect (j ∈ [type_value p q])) as [->%list_elem_of_singleton|]; [by rewrite Hbit|done].
Qed.

(** ** The attribute maps *)

Lemma map_set_bit_ok arr set i bit e p m :
  at_index (arr p) i = Some (Some e) → ebitmap_wf e → bit_ok bit → plenty m →
  ∃ e' m', map_set_bit arr set i bit true (p, m) = Ret (0, (set (set_index (arr p) i (Some e')) p, m')) ∧
    plenty m' ∧ mark [bit] true e e'.
Proof.
  intros Hi He Hb Hm. destruct (set_bit_plenty e bit true p m He Hb Hm) as (e'&m'&E&Hm'&Hw&Hg).
  exists e', m'. unfold map_set_bit, elem, ref, write, upd, modify, get_p, gets, lift, mbind, M_bind. cbn [fst].
  rewrite Hi. cbn [deref]. rewrite E. cbn [fst snd]. rewrite Hi. cbn [deref fst snd]. split_and!; [done..|].
  split; [done|]. intros j. rewrite Hg. destruct (Z.eqb_spec j bit) as [->|Hne].
  - by rewrite bool_decide_true by by left.
  - rewrite bool_decide_false; [done|]. by intros ?%list_elem_of_singleton.
Qed.

(** The other map: the types of an attribute. *)
Definition type_in (p : policydb) (a i : Z) : Prop :=
  ∃ e, at_index (attr_type_map p) (a - 1) = Some (Some e) ∧ ebitmap_get_bit e i = true.

(** An attribute of the policy, and a type whose maps are allocated. *)
Definition attribute (p : policydb) (n : string) (a : Z) : Prop :=
  ∃ q d, hashtab_search (table (p_types p)) n = Some q ∧ at_index (type_mem p) q = Some d ∧
         flavor d = TYPE_ATTRIB ∧ t_value d = a.

Definition maps_ok (p : policydb) (t a : Z) : Prop :=
  (∃ e, at_index (type_attr_map p) (t - 1) = Some (Some e) ∧ ebitmap_wf e) ∧
  (∃ e, at_index (attr_type_map p) (a - 1) = Some (Some e) ∧ ebitmap_wf e) ∧
  bit_ok (t - 1) ∧ bit_ok (a - 1).

(** What [set_attr] leaves alone. *)
Definition only_maps (p p' : policydb) : Prop :=
  ∃ ta at_, p' = set_attr_type_map at_ (set_type_attr_map ta p).

Lemma attr_of_write p t e e' a :
  at_index (type_attr_map p) (t - 1) = Some (Some e) → mark [a] true e e' →
  ∀ p', type_attr_map p' = set_index (type_attr_map p) (t - 1) (Some e') →
  ∀ t' i, attr_of p' t' i ↔ attr_of p t' i ∨ (t' = t ∧ i = a).
Proof.
  intros Ht [_ Hg] p' Hp' t' i. unfold attr_of. rewrite Hp'. pose proof (at_index_Some _ _ _ Ht) as Hr.
  destruct (Z.eq_dec t' t) as [->|Hne].
  - rewrite at_set_index_eq by done. rewrite Ht. split.
    + intros (x&[= <-]&Hx). rewrite Hg in Hx.
      destruct (bool_decide_reflect (i ∈ [a])) as [->%list_elem_of_singleton|]; [by right|left; eauto].
    + intros [(x&[= <-]&Hx)|[_ ->]]; exists e'; (split; [done|]); rewrite Hg.
      * by destruct (bool_decide _).
      * by rewrite bool_decide_true by by left.
  - rewrite at_set_index_ne by lia. split; [by left|]. by intros [?|[? _]].
Qed.

Lemma type_in_write p t e e' a :
  at_index (attr_type_map p) (a - 1) = Some (Some e) → mark [t] true e e' →
  ∀ p', attr_type_map p' = set_index (attr_type_map p) (a - 1) (Some e') →
  ∀ a' i, type_in p' a' i ↔ type_in p a' i ∨ (a' = a ∧ i = t).
Proof.
  intros Ht [_ Hg] p' Hp' a' i. unfold type_in. rewrite Hp'. pose proof (at_index_Some _ _ _ Ht) as Hr.
  destruct (Z.eq_dec a' a) as [->|Hne].
  - rewrite at_set_index_eq by done. rewrite Ht. split.
    + intros (x&[= <-]&Hx). rewrite Hg in Hx.
      destruct (bool_decide_reflect (i ∈ [t])) as [->%list_elem_of_singleton|]; [by right|left; eauto].
    + intros [(x&[= <-]&Hx)|[_ ->]]; exists e'; (split; [done|]); rewrite Hg.
      * by destruct (bool_decide _).
      * by rewrite bool_decide_true by by left.
  - rewrite at_set_index_ne by lia. split; [by left|]. by intros [?|[? _]].
Qed.

(** [set_attr] adds the pair to both maps. *)
Lemma set_attr_ok p m n a t :
  attribute p n a → maps_ok p t a → plenty m →
  ∃ p' m', set_attr n t (p, m) = Ret (0, (p', m')) ∧ plenty m' ∧ only_maps p p' ∧
    (∀ t' i, attr_of p' t' i ↔ attr_of p t' i ∨ (t' = t ∧ i = a - 1)) ∧
    (∀ a' i, type_in p' a' i ↔ type_in p a' i ∨ (a' = a ∧ i = t - 1)).
Proof.
  intros (q&d&Hq&Hd&Hf&<-) ((e1&H1&Hw1)&(e2&H2&Hw2)&Hbt&Hba) Hm.
  destruct (map_set_bit_ok type_attr_map set_type_attr_map (t - 1) (t_value d - 1) e1 p m H1 Hw1 Hba Hm)
    as (e1'&m1&E1&Hm1&Hk1).
  set (p1 := set_type_attr_map (set_index (type_attr_map p) (t - 1) (Some e1')) p) in *.
  destruct (map_set_bit_ok attr_type_map set_attr_type_map (t_value d - 1) (t - 1) e2 p1 m1 H2 Hw2 Hbt Hm1)
    as (e2'&m2&E2&Hm2&Hk2).
  eexists _, m2. split_and!; [|done|by eexists _, _|..].
  - unfold set_attr. rewrite (bind_ret _ _ _ _ _ (find_type_eq n (p, m))). cbn [fst]. rewrite Hq.
    rewrite (bind_ret _ _ _ _ _ (load_eq type_mem q (p, m) d Hd)), Hf. cbn [negb Z.eqb TYPE_ATTRIB Pos.eqb].
    rewrite (bind_ret _ _ _ _ _ E1). cbn [negb Z.eqb]. by rewrite (bind_ret _ _ _ _ _ E2).
  - intros t' i. by apply (attr_of_write p t e1 e1').
  - intros a' i. by apply (type_in_write p (t - 1) e2 e2').
Qed.

(** The two maps say the same. *)
Definition coherent (p : policydb) (a : Z) : Prop := ∀ t, attr_of p t (a - 1) ↔ type_in p a (t - 1).

Lemma set_attr_coherent p m n a t a' :
  attribute p n a → maps_ok p t a → plenty m → coherent p a' →
  ∃ p' m', set_attr n t (p, m) = Ret (0, (p', m')) ∧ coherent p' a'.
Proof.
  intros Ha Hmaps Hm Hc. destruct (set_attr_ok p m n a t Ha Hmaps Hm) as (p'&m'&E&_&_&H1&H2).
  exists p', m'. split; [done|]. intros t'. rewrite H1, H2, (Hc t').
  split; (intros [?|[? ?]]; [by left|right; lia]).
Qed.

Lemma get_attr_spec p m n a t :
  attribute p n a → (∃ e, at_index (attr_type_map p) (a - 1) = Some (Some e)) →
  ∃ v, get_attr n t (p, m) = Ret (v, (p, m)) ∧ (v = 1 ↔ type_in p a (t - 1)) ∧ 0 <= v <= 1.
Proof.
  intros (q&d&Hq&Hd&Hf&<-) (e&He).
  exists (if ebitmap_get_bit e (t - 1) then 1 else 0). split_and!.
  - unfold get_attr. rewrite (bind_ret _ _ _ _ _ (find_type_eq n (p, m))). cbn [fst]. rewrite Hq.
    rewrite (bind_ret _ _ _ _ _ (load_eq type_mem q (p, m) d Hd)), Hf. cbn [negb Z.eqb TYPE_ATTRIB Pos.eqb].
    by rewrite (bind_ret _ _ _ _ _ (elem_eq attr_type_map _ (p, m) _ He)).
  - unfold type_in. rewrite He. destruct (ebitmap_get_bit e (t - 1)) eqn:E.
    + split; [by exists e|done].
    + split; [done|]. intros (x&[= <-]&Hx). by rewrite E in Hx.
  - by destruct (ebitmap_get_bit e (t - 1)).
  - by destruct (ebitmap_get_bit e (t - 1)).
Qed.

(** ** The constraints that name an attribute *)

(** A constraint expression that lists types: the types of the policy source
    ([type_names]) and the expanded ones ([names]). *)
Definition lists_type (typeId : Z) (e : constraint_expr) : bool :=
  (expr_type e =? CEXPR_NAMES) &&
  match type_names e with Some ts => ebitmap_get_bit (types ts) (u32 (typeId - 1)) | None => false end.

Definition expr_ok (e : constraint_expr) : Prop :=
  expr_type e = CEXPR_NAMES → is_Some (type_names e) ∧ ebitmap_wf (names e).

(** The expression gains the bit in its expanded list exactly when it lists the
    attribute. *)
Definition expr_updated (typeId bit : Z) (e e' : constraint_expr) : Prop :=
  if lists_type typeId e
  then ∃ n, e' = CE (expr_type e) (attr e) (op e) n (type_names e) ∧ mark [bit] true (names e) n
  else e' = e.

Definition node_updated (typeId bit : Z) (c c' : constraint_node) : Prop :=
  cn_permissions c' = cn_permissions c ∧ Forall2 (expr_updated typeId bit) (expr c) (expr c').

Definition class_updated (typeId bit : Z) (d d' : class_datum) : Prop :=
  ∃ cs, d' = set_constraints cs d ∧ Forall2 (node_updated typeId bit) (constraints d) cs.

Definition class_exprs_ok (d : class_datum) : Prop := Forall (λ c, Forall expr_ok (expr c)) (constraints d).

Lemma update_exprs_ok typeId bit l p m :
  Forall expr_ok l → bit_ok bit → plenty m →
  ∃ l' m', update_exprs typeId bit l (p, m) = Ret (l', (p, m')) ∧ plenty m' ∧
    Forall2 (expr_updated typeId bit) l l'.
Proof.
  intros Hl Hb. revert m. induction Hl as [|e l He Hl IH]; intros m Hm; [by exists [], m|].
  cbn [update_exprs].
  assert (∃ e' m1, (if expr_type e =? CEXPR_NAMES then
             ts ← ref (type_names e);
             if ebitmap_get_bit (types ts) (u32 (typeId - 1)) then
               '(_, n) ← set_bit (names e) bit true;
               mret (CE (expr_type e) (attr e) (op e) n (type_names e))
             else mret e
           else mret e) (p, m) = Ret (e', (p, m1)) ∧ plenty m1 ∧ expr_updated typeId bit e e') as (e'&m1&E1&Hm1&He').
  { unfold expr_updated, lists_type. destruct (Z.eqb_spec (expr_type e) CEXPR_NAMES) as [En|]; cbn [andb].
    - destruct (He En) as [[ts Hts] Hw]. rewrite Hts. rewrite (bind_ret _ _ _ _ _ (ref_eq ts (p, m))).
      destruct (ebitmap_get_bit (types ts) (u32 (typeId - 1))).
      + destruct (set_bit_plenty (names e) bit true p m Hw Hb Hm) as (n&m1&E&Hm1&Hnw&Hg).
        rewrite (bind_ret _ _ _ _ _ E). eexists _, m1. split; [done|]. split; [done|].
        exists n. split; [done|]. split; [done|]. intros j. rewrite Hg.
        destruct (Z.eqb_spec j bit) as [->|Hne]; [by rewrite bool_decide_true by by left|].
        rewrite bool_decide_false; [done|]. by intros ?%list_elem_of_singleton.
      + by exists e, m.
    - by exists e, m. }
  rewrite (bind_ret _ _ _ _ _ E1). destruct (IH m1 Hm1) as (l'&m'&E'&Hm'&Hl').
  rewrite (bind_ret _ _ _ _ _ E'). exists (e' :: l'), m'. split; [done|]. split; [done|]. by constructor.
Qed.

Lemma update_constraints_ok typeId bit l p m :
  Forall (λ c, Forall expr_ok (expr c)) l → bit_ok bit → plenty m →
  ∃ l' m', update_constraints typeId bit l (p, m) = Ret (l', (p, m')) ∧ plenty m' ∧
    Forall2 (node_updated typeId bit) l l'.
Proof.
  intros Hl Hb. revert m. induction Hl as [|n l Hn Hl IH]; intros m Hm; [by exists [], m|].
  cbn [update_constraints]. destruct (update_exprs_ok typeId bit (expr n) p m Hn Hb Hm) as (x&m1&E1&Hm1&Hx).
  rewrite (bind_ret _ _ _ _ _ E1). destruct (IH m1 Hm1) as (l'&m'&E'&Hm'&Hl').
  rewrite (bind_ret _ _ _ _ _ E'). exists (CN (cn_permissions n) x :: l'), m'.
  split; [done|]. split; [done|]. constructor; [by split|done].
Qed.

(** The classes whose positions are in [l] are updated, the others unchanged. *)
Definition classes_updated (typeId bit : Z) (l : list ptr) (cm cm' : list class_datum) : Prop :=
  length cm' = length cm ∧
  ∀ q d, at_index cm q = Some d →
    if bool_decide (q ∈ l) then ∃ d', at_index cm' q = Some d' ∧ class_updated typeId bit d d'
    else at_index cm' q = Some d.

Lemma update_classes_ok typeId bit l ps p m :
  Forall2 (λ i q, at_index (class_val_to_struct p) i = Some (Some q)) l ps → NoDup ps →
  (∀ q, q ∈ ps → ∃ d, at_index (class_mem p) q = Some d ∧ class_exprs_ok d) →
  bit_ok bit → plenty m →
  ∃ cm' m', update_classes typeId bit l (p, m) = Ret ((), (set_class_mem cm' p, m')) ∧ plenty m' ∧
    classes_updated typeId bit ps (class_mem p) cm'.
Proof.
  intros Hps Hnd Hobj Hb. remember (class_val_to_struct p) as arr eqn:Harr.
  revert p m Harr Hobj. induction Hps as [|i q l ps Hi Hps IH]; intros p m Harr Hobj Hm.
  { exists (class_mem p), m. split; [by destruct p|]. by split_and!. }
  apply NoDup_cons in Hnd as [Hq Hnd]. cbn [update_classes].
  destruct (Hobj q ltac:(by left)) as (d&Hd&Hdok). rewrite Harr in Hi.
  rewrite (bind_ret _ _ _ _ _ (elem_eq class_val_to_struct i (p, m) _ Hi)), (bind_ret _ _ _ _ _ (ref_eq q (p, m))).
  rewrite (bind_ret _ _ _ _ _ (load_eq class_mem q (p, m) d Hd)).
  destruct (update_constraints_ok typeId bit (constraints d) p m Hdok Hb Hm) as (cs&m1&E1&Hm1&Hcs).
  rewrite (bind_ret _ _ _ _ _ E1).
  rewrite (bind_ret _ _ _ _ _ (write_eq class_mem set_class_mem q (set_constraints cs d) p m1 ltac:(by rewrite Hd))).
  set (cm1 := set_index (class_mem p) q (set_constraints cs d)).
  pose proof (at_index_Some _ _ _ Hd) as Hqr.
  destruct (IH Hnd (set_class_mem cm1 p) m1) as (cm'&m'&E'&Hm'&Hlen&Hupd); [done| |done|].
  - intros q' Hq'. cbn [class_mem set_class_mem]. unfold cm1. rewrite at_set_index_ne; [|lia|by intros ->].
    apply Hobj. by right.
  - exists cm', m'. split; [exact E'|]. split; [done|]. cbn [class_mem set_class_mem] in *. split.
    { rewrite Hlen. unfold cm1, set_index. apply length_insert. }
    intros q' d' Hd'. destruct (decide (q' = q)) as [->|Hne].
    + rewrite bool_decide_true by by left. rewrite Hd in Hd'. injection Hd' as <-.
      specialize (Hupd q (set_constraints cs d)). unfold cm1 in Hupd. rewrite at_set_index_eq in Hupd by done.
      specialize (Hupd eq_refl). rewrite bool_decide_false in Hupd by done. exists (set_constraints cs d).
      split; [done|]. by exists cs.
    + specialize (Hupd q' d'). unfold cm1 in Hupd. rewrite at_set_index_ne in Hupd by (done || lia).
      specialize (Hupd Hd'). rewrite (bool_decide_ext (q' ∈ q :: ps) (q' ∈ ps)); [done|].
      rewrite elem_of_cons. naive_solver.
Qed.

(** ** [add_typeattribute] *)

(** The class objects are those of [class_val_to_struct], once each. *)
Definition classes_ok (p : policydb) (ps : list ptr) : Prop :=
  Forall2 (λ i q, at_index (class_val_to_struct p) i = Some (Some q)) (upto (nprim (p_classes p))) ps ∧
  NoDup ps ∧ ∀ q, q ∈ ps → ∃ d, at_index (class_mem p) q = Some d ∧ class_exprs_ok d.

Lemma u32_bit_ok z : bit_ok z → u32 z = z.
Proof. unfold bit_ok. intros. apply u32_small. lia. Qed.

Lemma get_attr_id_eq p m n a : attribute p n a → get_attr_id n (p, m) = Ret (a, (p, m)).
Proof.
  intros (q&d&Hq&Hd&Hf&<-). unfold get_attr_id. rewrite (bind_ret _ _ _ _ _ (find_type_eq n (p, m))). cbn [fst].
  rewrite Hq, (bind_ret _ _ _ _ _ (load_eq type_mem q (p, m) d Hd)), Hf. done.
Qed.

Lemma add_typeattribute_ok p m dn an qd d a ps :
  hashtab_search (table (p_types p)) dn = Some qd → at_index (type_mem p) qd = Some d →
  attribute p an a → maps_ok p (t_value d) a → classes_ok p ps → plenty m →
  ∃ p' m', add_typeattribute (Some dn) (Some an) (p, m) = Ret (0, (p', m')) ∧ plenty m' ∧
    (∀ t' i, attr_of p' t' i ↔ attr_of p t' i ∨ (t' = t_value d ∧ i = a - 1)) ∧
    (∀ a' i, type_in p' a' i ↔ type_in p a' i ∨ (a' = a ∧ i = t_value d - 1)) ∧
    classes_updated a (t_value d - 1) ps (class_mem p) (class_mem p') ∧
    te_avtab p' = te_avtab p ∧ te_cond_avtab p' = te_cond_avtab p.
Proof.
  intros Hq Hd Ha Hmaps (Hps&Hnd&Hobj) Hm.
  destruct (set_attr_ok p m an a (t_value d) Ha Hmaps Hm) as (p1&m1&E1&Hm1&(ta&at_&->)&H1&H2).
  set (p1 := set_attr_type_map at_ (set_type_attr_map ta p)) in *.
  pose proof Hmaps as (_&_&Hb&_).
  destruct (update_classes_ok a (t_value d - 1) (upto (nprim (p_classes p))) ps p1 m1 Hps Hnd Hobj Hb Hm1)
    as (cm'&m'&E'&Hm'&Hupd).
  exists (set_class_mem cm' p1), m'. split; [|by split_and!].
  unfold add_typeattribute. rewrite (bind_ret _ _ _ _ _ (ref_eq dn (p, m))).
  rewrite (bind_ret _ _ _ _ _ (find_type_eq dn (p, m))). cbn [fst]. rewrite Hq.
  rewrite (bind_ret _ _ _ _ _ (load_eq type_mem qd (p, m) d Hd)), (bind_ret _ _ _ _ _ (ref_eq an (p, m))).
  rewrite (bind_ret _ _ _ _ _ E1). rewrite (bind_ret _ _ _ _ _ (get_attr_id_eq p1 m1 an a Ha)).
  rewrite u32_bit_ok by done.
  rewrite (bind_ret (get_p (λ p, nprim (p_classes p))) _ (p1, m1) (nprim (p_classes p)) (p1, m1) eq_refl).
  by rewrite (bind_ret _ _ _ _ _ E').
Qed.

(** A name that is no attribute: the maps are left alone, but the constraints
    are updated as if the attribute had the value 1, and the result is 0. *)
Lemma add_typeattribute_no_attribute p m dn an qd d ps :
  hashtab_search (table (p_types p)) dn = Some qd → at_index (type_mem p) qd = Some d →
  (∀ q x, hashtab_search (table (p_types p)) an = Some q → at_index (type_mem p) q = Some x → flavor x ≠ TYPE_ATTRIB) →
  (∀ q, hashtab_search (table (p_types p)) an = Some q → is_Some (at_index (type_mem p) q)) →
  bit_ok (t_value d - 1) → classes_ok p ps → plenty m →
  ∃ cm' m', add_typeattribute (Some dn) (Some an) (p, m) = Ret (0, (set_class_mem cm' p, m')) ∧
    classes_updated 1 (t_value d - 1) ps (class_mem p) cm'.
Proof.
  intros Hq Hd Hno Hobj_a Hb (Hps&Hnd&Hobj) Hm.
  destruct (update_classes_ok 1 (t_value d - 1) (upto (nprim (p_classes p))) ps p m Hps Hnd Hobj Hb Hm)
    as (cm'&m'&E'&Hm'&Hupd).
  exists cm', m'. split; [|done].
  assert (set_attr an (t_value d) (p, m) = Ret (1, (p, m)) ∧ get_attr_id an (p, m) = Ret (1, (p, m))) as [Es Eg].
  { unfold set_attr, get_attr_id. rewrite !(bind_ret _ _ _ _ _ (find_type_eq an (p, m))). cbn [fst].
    destruct (hashtab_search (table (p_types p)) an) as [q|]; [|done].
    destruct (Hobj_a q eq_refl) as [x Hx]. specialize (Hno q x eq_refl Hx).
    rewrite !(bind_ret _ _ _ _ _ (load_eq type_mem q (p, m) x Hx)).
    by destruct (Z.eqb_spec (flavor x) TYPE_ATTRIB). }
  unfold add_typeattribute. rewrite (bind_ret _ _ _ _ _ (ref_eq dn (p, m))).
  rewrite (bind_ret _ _ _ _ _ (find_type_eq dn (p, m))). cbn [fst]. rewrite Hq.
  rewrite (bind_ret _ _ _ _ _ (load_eq type_mem qd (p, m) d Hd)), (bind_ret _ _ _ _ _ (ref_eq an (p, m))).
  rewrite (bind_ret _ _ _ _ _ Es), (bind_ret _ _ _ _ _ Eg).
  rewrite u32_bit_ok by done.
  rewrite (bind_ret (get_p (λ p, nprim (p_classes p))) _ (p, m) (nprim (p_classes p)) (p, m) eq_refl).
  by rewrite (bind_ret _ _ _ _ _ E').
Qed.

(** A type gains what the rules allow its new attribute. *)
Lemma attribute_grants p p' t a tt c b :
  (∀ t' i, attr_of p' t' i ↔ attr_of p t' i ∨ (t' = t ∧ i = a - 1)) →
  te_avtab p' = te_avtab p → te_cond_avtab p' = te_cond_avtab p →
  (∃ j, attr_of p tt j ∧ ∃ n, n ∈ avtab_nodes (te_avtab p) ∧ allow_rule a (j + 1) c b n) →
  te_allows p' t tt c b.
Proof.
  intros H E1 E2 (j&Hj&n&Hn&Hr). exists (a - 1), j. split; [by apply H; right|].
  split; [by apply H; left|]. left. rewrite E1. exists n. by replace (a - 1 + 1) with a by lia.
Qed.
