(* ===== verification/Samples.v ===== *)
(** * A small policy

    A policy on which the theorems are instantiated: the types [untrusted_app]
    (1) and [su] (2), the attribute [domain] (3), which [untrusted_app] has, the
    class [file] (1) with the permissions [read] and [write] and one constraint,
    the role [r] (2) and the booleans [x] (1) and [y] (2). *)

From stdpp Require Import pretty.
From S2P Require Import Prelude Ebitmap Hashtab Avtab Context Policydb Mls Cond Services Sepolicy RuleEdit DomainEdit.

(** ** Building tables *)

Definition put_all {K D} `{HashKey K} (l : list (K * D)) (h : hashtab_t K D) : hashtab_t K D :=
  fold_left (λ h kd, (hashtab_insert h kd.1 kd.2 []).1.2) l h.

Definition table_of {D} (l : list (string * D)) : hashtab_t string D := put_all l (hashtab_create 4 []).1.

Lemma put_all_wf {D} (l : list (string * D)) h : hashtab_wf h → hashtab_wf (put_all l h).
Proof.
  unfold put_all. revert h. induction l as [|[k d] l IH]; intros h Hh; [done|]. simpl. apply IH.
  pose proof (hashtab_insert_correct h k d [] Hh I) as H. by destruct (hashtab_insert h k d []) as [[? ?] ?], H.
Qed.

Lemma table_of_wf {D} (l : list (string * D)) : hashtab_wf (table_of l).
Proof.
  apply put_all_wf. pose proof (hashtab_create_correct (K := string) (D := D) 4 [] ltac:(lia)) as H.
  destruct (hashtab_create 4 []) as [h m]. by destruct H.
Qed.

Definition symtab_of_list {D} (l : list (string * D)) : symtab D := SYM (table_of l) (Z.of_nat (length l)).

Definition bits (l : list Z) : ebitmap := fold_left (λ e i, (ebitmap_set_bit e i true []).1.2) l ebitmap_init.

Lemma bits_wf l : Forall (λ i, 0 <= i < 2 ^ 32) l → ebitmap_wf (bits l).
Proof.
  unfold bits. assert (H : ebitmap_wf ebitmap_init) by apply ebitmap_wf_init. revert H.
  generalize ebitmap_init as e. induction l as [|i l IH]; intros e He Hl; [done|]. apply Forall_cons in Hl as [Hi Hl].
  simpl. apply IH; [|done]. pose proof (ebitmap_set_bit_correct e i true [] He Hi) as H.
  destruct (ebitmap_set_bit e i true []) as [[rc e'] m']. destruct H as [_ [(_&_&H&_)|[(_&->&_)|(_&->&_)]]]; done.
Qed.

(** The bitmap of a literal list. *)
Ltac small_bits := apply bits_wf; repeat (constructor; [lia|]); constructor.

Definition empty_avtab : avtab := (avtab_alloc (AVT None 0 0 0 0) 8 []).1.2.

Lemma empty_avtab_rules_ok : rules_ok empty_avtab.
Proof.
  pose proof (avtab_alloc_correct (AVT None 0 0 0 0) 8 [] ltac:(lia) eq_refl) as H. fold empty_avtab in H.
  unfold empty_avtab. destruct (avtab_alloc (AVT None 0 0 0 0) 8 []) as [[rc h] m] eqn:E.
  destruct H as [_ [(->&Hw&Hn&_&Hs)|(->&Hn)]]; [|by vm_compute in E].
  cbn [fst snd]. split; [by apply Hs|]. split; [done|]. unfold avtab_unique. rewrite Hn.
  split; intros n1; [intros n2|]; intros Hin; by apply not_elem_of_nil in Hin.
Qed.

(** ** The policy *)

(** [u1 == u2], or the source type is [su]. *)
Definition sample_constraint : constraint_node :=
  CN 2 [CE CEXPR_ATTR CEXPR_USER CEXPR_EQ ebitmap_init None;
        CE CEXPR_NAMES CEXPR_TYPE CEXPR_EQ (bits [1]) (Some (TS (bits [2]) ebitmap_init 0));
        CE CEXPR_OR 0 0 ebitmap_init None].

Definition file_class : class_datum :=
  CLD 1 None None (symtab_of_list [("read", PD 1); ("write", PD 2)]%string) [sample_constraint] [] 0 0 0 0.

Definition sample_types : list type_datum :=
  [TD 1 1 TYPE_TYPE ebitmap_init 0 0; TD 2 1 TYPE_TYPE ebitmap_init 0 0; TD 3 1 TYPE_ATTRIB (bits [0]) 0 0].

Definition sample_role : role_datum := RD 2 (bits [1]) (TS (bits [0; 1]) ebitmap_init 0) (bits [0; 1]) 0 ROLE_ROLE ebitmap_init.

Definition type_names_of_sample : list (string * ptr) := [("untrusted_app", 0); ("su", 1); ("domain", 2)]%string.
Definition class_names_of_sample : list (string * ptr) := [("file", 0)]%string.

(** The parts that differ between the samples: the objects of types and classes,
    the rules, the permissive map, the conditionals and the booleans. *)
Definition policy_with (tys : list type_datum) (cls : list class_datum) (te : avtab) (perm : ebitmap)
    (conds : list cond_node) (bools : list cond_bool_datum) (tcond : avtab) : policydb :=
  PDB POLICY_KERN 0 (SYM None 0) (symtab_of_list class_names_of_sample)
    (symtab_of_list [("object_r", 0); ("r", 1)]%string)
    (symtab_of_list type_names_of_sample)
    (SYM None 0) (symtab_of_list [("x", 0); ("y", 1)]%string) (SYM None 0) (SYM None 0)
    [[]; [Some "file"]; [Some "object_r"; Some "r"]; [Some "untrusted_app"; Some "su"; Some "domain"]; []; []; []; []]%string
    [Some 0] [Some 0; Some 1] [] [Some 0; Some 1; Some 2] [] [] [] te [Some 0; Some 1] tcond conds [] [] None None
    [Some (bits [0; 2]); Some (bits [1]); Some (bits [2])]
    [Some (bits [0]); Some (bits [1]); Some (bits [0])]
    perm 30 cls [sample_role; sample_role] [] tys bools [] [] []
    None None 0 0 [] [] ebitmap_init 0.

Definition sample : policydb :=
  policy_with sample_types [file_class] empty_avtab ebitmap_init [] [BD 1 0 0; BD 2 1 0] empty_avtab.


Lemma sample_policy_ok : policy_ok sample.
Proof.
  split.
  - split; [by vm_compute; eexists| |by vm_compute; eexists|].
    + intros q Hq. vm_compute in Hq. repeat (apply elem_of_cons in Hq as [->|Hq]; [by eexists|]). by apply not_elem_of_nil in Hq.
    + intros q Hq. vm_compute in Hq. repeat (apply elem_of_cons in Hq as [->|Hq]; [by eexists|]). by apply not_elem_of_nil in Hq.
  - exact (table_of_wf type_names_of_sample).
  - exact (table_of_wf class_names_of_sample).
  - intros q cl n d Hq Hf. unfold sample, policy_with in Hq. cbn [class_mem] in Hq.
    assert (cl = file_class) as ->.
    { pose proof (at_index_Some _ _ _ Hq) as Hr. cbn [length] in Hr. assert (q = 0) as -> by lia. by injection Hq. }
    unfold find_perm in Hf. cbn [permissions file_class comdatum symtab_of_list table] in Hf.
    destruct (hashtab_search (table_of _) n) as [d'|] eqn:E; [|done]. injection Hf as <-.
    rewrite hashtab_search_correct in E; [|apply table_of_wf|done].
    apply elem_of_map_to_list in E. vm_compute in E.
    repeat (apply elem_of_cons in E as [[= -> ->]|E]; [simpl; lia|]). by apply not_elem_of_nil in E.
  - apply empty_avtab_rules_ok.
Qed.

(** ** Samples with a rule *)

(** [su] may read and write the files of [untrusted_app] types: the rule is
    stated for the attribute [domain] as the target. *)
Definition one_rule : avtab := (avtab_insert empty_avtab (AK 2 3 1 AVTAB_ALLOWED) (AD 3 None) []).1.2.

Lemma one_rule_ok : rules_ok one_rule.
Proof.
  pose proof (insert_edits empty_avtab (AK 2 3 1 AVTAB_ALLOWED) (AD 3 None) (λ _, AD 3 None) [] empty_avtab_rules_ok
    ltac:(repeat split; simpl; lia) ltac:(by repeat constructor) ltac:(by vm_compute) eq_refl) as H.
  unfold one_rule. destruct (avtab_insert empty_avtab _ _ []) as [[rc h] m]. by destruct H as [H _].
Qed.

Definition sample_rule : policydb :=
  policy_with sample_types [file_class] one_rule ebitmap_init [] [BD 1 0 0; BD 2 1 0] empty_avtab.

(** The attribute maps of the samples. *)
Lemma attrs_ok_with tys cls te perm conds bools tcond : attrs_ok (policy_with tys cls te perm conds bools tcond).
Proof.
  intros t e H. cbn [type_attr_map policy_with] in H. pose proof (at_index_Some _ _ _ H) as Hr. cbn [length] in Hr.
  assert (Hb : ∀ l, Forall (λ i, 0 <= i < 3) l → ebitmap_wf (bits l)).
  { intros l Hl. apply bits_wf. eapply Forall_impl; [exact Hl|]. simpl. lia. }
  assert (e = bits [0; 2] ∨ e = bits [1] ∨ e = bits [2]) as He.
  { assert (t - 1 = 0 ∨ t - 1 = 1 ∨ t - 1 = 2) as [E|[E|E]] by lia; rewrite E in H; injection H as <-; auto. }
  assert (Hw : ebitmap_wf e) by (destruct He as [->|[->| ->]]; apply Hb; repeat constructor; lia).
  split; [done|]. intros i Hi. apply elem_of_set_bits in Hi; [|done].
  destruct He as [->|[->| ->]]; vm_compute in Hi;
    repeat (apply elem_of_cons in Hi as [->|Hi]; [lia|]); by apply not_elem_of_nil in Hi.
Qed.

Lemma sample_rule_te_wf : te_wf sample_rule.
Proof.
  destruct one_rule_ok as (_&H1&_), empty_avtab_rules_ok as (_&H2&_).
  split; [exact H1|]. split; [exact H2|apply attrs_ok_with].
Qed.

Definition app_context : context_struct := CTX 1 2 1 mls_range_init.
Definition su_context : context_struct := CTX 1 2 2 mls_range_init.

Lemma sample_te_wf : te_wf sample.
Proof.
  destruct empty_avtab_rules_ok as (_&H2&_). split; [exact H2|]. split; [exact H2|apply attrs_ok_with].
Qed.

Lemma sample_rule_policy_ok : policy_ok sample_rule.
Proof.
  change sample_rule with (set_te_avtab one_rule sample). apply policy_ok_edit; [exact sample_policy_ok|exact one_rule_ok].
Qed.

(** The constraint can be evaluated on every pair of contexts. *)
Lemma sample_constraints_defined : constraints_defined sample_rule 1 (λ _ _, True).
Proof.
  exists file_class. split; [by vm_compute|]. intros s t k _ Hk. apply list_elem_of_singleton in Hk as ->.
  unfold constraint_expr_eval_reason. exists ((user s =? user t) || ebitmap_get_bit (bits [1]) (u32 (type s - 1))).
  assert (val_to_name sample_rule SYM_CLASSES (1 - 1) = Ret (Some "file"%string)) as -> by by vm_compute.
  reflexivity.
Qed.

Lemma type_struct_with tys cls te perm conds bools tcond t d :
  length tys = 3%nat → type_struct (policy_with tys cls te perm conds bools tcond) t = Ret d →
  (t = 1 ∧ tys !! 0%nat = Some d) ∨ (t = 2 ∧ tys !! 1%nat = Some d) ∨ (t = 3 ∧ tys !! 2%nat = Some d).
Proof.
  intros Hl H. unfold type_struct, val_to_struct in H. cbn [type_val_to_struct type_mem policy_with] in H.
  apply ret_bind_inv in H as (d'&H&Hd). apply ret_bind_inv in H as (o&E&H).
  destruct (at_index _ (t - 1)) as [o'|] eqn:E'; [|done]. injection E as ->. rename E' into E.
  pose proof (at_index_Some _ _ _ E) as Hr. cbn [length] in Hr.
  destruct tys as [|d0 [|d1 [|d2 [|? ?]]]]; try done.
  assert (t = 1 ∨ t = 2 ∨ t = 3) as [->|[->| ->]] by lia; injection E as <-; injection H as <-; injection Hd as <-; auto.
Qed.

Lemma sample_bounds_ok : bounds_ok sample_rule.
Proof.
  intros t d H Hb. exfalso. apply Hb. apply type_struct_with in H; [|done].
  by destruct H as [[_ [= <-]]|[[_ [= <-]]|[_ [= <-]]]].
Qed.

(** *** Nested bounds: [untrusted_app] is bounded by [su], itself bounded by the
    type 3, which the rules allow nothing. *)
Definition bounded_types : list type_datum :=
  [TD 1 1 TYPE_TYPE ebitmap_init 0 2; TD 2 1 TYPE_TYPE ebitmap_init 0 3; TD 3 1 TYPE_TYPE ebitmap_init 0 0].

Definition sample_bounded : policydb :=
  policy_with bounded_types [file_class] one_rule ebitmap_init [] [BD 1 0 0; BD 2 1 0] empty_avtab.

Lemma sample_bounded_te_wf : te_wf sample_bounded.
Proof.
  destruct one_rule_ok as (_&H1&_), empty_avtab_rules_ok as (_&H2&_).
  split; [exact H1|]. split; [exact H2|apply attrs_ok_with].
Qed.

Definition type3_context : context_struct := CTX 1 2 3 mls_range_init.

Lemma su_level : level_allows sample_bounded su_context type3_context 1 0.
Proof.
  split; [|split].
  - exists 1, 2. split; [by exists (bits [1])|]. split; [by exists (bits [2])|]. left.
    eexists. split; [vm_compute; by left|]. by split_and!.
  - exists file_class. split; [by vm_compute|]. intros k Hk Hb. by apply list_elem_of_singleton in Hk as ->.
  - intros Hc. by vm_compute in Hc.
Qed.

Lemma type3_denied : ¬ av_allows sample_bounded 1 0 type3_context type3_context.
Proof.
  assert (∃ avd, context_struct_compute_av 2 sample_bounded type3_context type3_context 1 1 zero_avd (Some 0)
    = Ret (0, avd, Some 1) ∧ Z.testbit (allowed avd) 0 = false) as (avd&H&Hb).
  { eexists. split; [vm_compute; reflexivity|reflexivity]. }
  assert (Hc : class_ok sample_bounded 1) by (split; [split; [done|by vm_compute]|done]).
  intros Hn. pose proof (compute_av_allowed sample_bounded 1 0 sample_bounded_te_wf Hc ltac:(lia)
    _ _ _ _ _ _ _ _ _ H) as [_ Ha].
  specialize (Ha Hn). rewrite Hb in Ha. discriminate.
Qed.

Lemma su_denied : ¬ av_allows sample_bounded 1 0 su_context type3_context.
Proof.
  inversion 1; repeat match goal with
  | Hs : type_struct sample_bounded _ = Ret _ |- _ => apply type_struct_with in Hs; [|done]
  end.
  - destruct_or!; destruct_and!; simplify_eq/=; done.
  - destruct_or!; destruct_and!; simplify_eq/=. by apply type3_denied.
Qed.

(** *** A rule for the ioctl codes 0x8900 to 0x890f *)
Definition ioctl_x : avtab_extended_perms := XP AVTAB_XPERMS_IOCTLFUNCTION 0x89 (0xffff :: replicate 7 0).
Definition ioctl_datum : avtab_datum := AD 0 (Some ioctl_x).

Definition ioctl_rule : avtab := (avtab_insert empty_avtab (AK 2 3 1 AVTAB_XPERMS_ALLOWED) ioctl_datum []).1.2.

Lemma ioctl_rule_ok : rules_ok ioctl_rule.
Proof.
  pose proof (insert_edits empty_avtab (AK 2 3 1 AVTAB_XPERMS_ALLOWED) ioctl_datum (λ _, ioctl_datum) [] empty_avtab_rules_ok
    ltac:(repeat split; simpl; lia) ltac:(by repeat constructor) ltac:(by vm_compute) eq_refl) as H.
  unfold ioctl_rule. destruct (avtab_insert empty_avtab _ _ []) as [[rc h] m]. by destruct H as [H _].
Qed.

Definition sample_ioctl : policydb := set_te_avtab ioctl_rule sample.

Lemma sample_ioctl_policy_ok : policy_ok sample_ioctl.
Proof. apply policy_ok_edit; [exact sample_policy_ok|exact ioctl_rule_ok]. Qed.

Lemma sample_types_bits : types_bits_ok sample.
Proof.
  intros q Hq. vm_compute in Hq.
  repeat (apply elem_of_cons in Hq as [->|Hq]; [vm_compute; done|]). by apply not_elem_of_nil in Hq.
Qed.

Lemma sample_maps_ok : maps_ok sample 2 3.
Proof.
  split_and!.
  - exists (bits [1]). split; [done|]. small_bits.
  - exists (bits [0]). split; [done|]. small_bits.
  - by vm_compute.
  - by vm_compute.
Qed.

Lemma sample_classes_ok : classes_ok sample [0].
Proof.
  split; [by repeat constructor|]. split; [apply NoDup_singleton|].
  intros q ->%list_elem_of_singleton. exists file_class. split; [done|].
  constructor; [|constructor]. constructor; [by intros [=]|]. constructor; [|constructor; [by intros [=]|constructor]].
  intros _. split; [by eexists|]. small_bits.
Qed.

(** *** A policy with one sensitivity and 201 categories *)
Definition cat_names : list string := (λ i, ("c" +:+ pretty i)%string) <$> seqZ 0 201.

Definition sample_mls : policydb :=
  PDB POLICY_KERN 1 (SYM None 0) (SYM None 0) (SYM None 0) (SYM None 0) (SYM None 0) (SYM None 0)
    (SYM (table_of [("s0", LD (Some (ML 1 (bits (seqZ 0 201)))) 0 1)]%string) 1)
    (SYM (table_of (zip cat_names ((λ i, CTD (i + 1) 0) <$> seqZ 0 201))) 201)
    [[]; []; []; []; []; []; [Some "s0"%string]; Some <$> cat_names]
    [] [] [] [] [] [] [] empty_avtab [] empty_avtab [] [] [] None None [] [] ebitmap_init 30 [] [] [] [] [] [] [] []
    None None 0 0 [] [] ebitmap_init 0.
