(* ===== verification/SampleFile.v ===== *)
(** * A policy that is written and read

    A kernel policy of version 30 with the tables of the sizes [policydb_init]
    gives them, its file, and the policy that [load_policydb] makes of it: the
    theorems on policy files are instantiated here. *)

From S2P Require Import Prelude Policyfile Ebitmap EbitmapFile Hashtab SymtabFile Avtab Context Policydb Mls MlsFile.
From S2P Require Import ClassFile SymbolFile PtrTable AvtabFile TransFile CondFile LabelFile PolicydbFile PolicydbSound TypeMaps.
From S2P Require Import Indexes Reindex MlsText ContextText PlainNames Samples.

(** ** Tables from lists *)

Section put_all.
Context {K D : Type} `{HL : HashKeyLaws K} `{Countable K}.
Implicit Types (l : list (K * D)) (h : hashtab_t K D).

Lemma put_all_keeps l : ∀ h, hashtab_wf h → Forall (λ e, key_ok e.1) l →
  hashtab_wf (put_all l h) ∧ table_size (put_all l h) = table_size h ∧ (is_Some h → is_Some (put_all l h)) ∧
  ∀ k d, to_map (put_all l h) !! k = Some d → (k, d) ∈ l ∨ to_map h !! k = Some d.
Proof.
  induction l as [|[k d] l IH]; intros h Hh Hk; [by split_and!; auto|]. apply Forall_cons in Hk as [Hk Hl]. cbn [fst] in Hk.
  pose proof (hashtab_insert_correct h k d [] Hh Hk) as Hi. pose proof (insert_size h k d []) as Hs.
  unfold put_all. cbn [fold_left fst snd]. destruct (hashtab_insert h k d []) as [[rc h'] m'].
  destruct Hi as (Hw&_&Hi), Hs as [Hs1 Hs2]. cbn [fst snd].
  assert (Hmap : ∀ k' d', to_map h' !! k' = Some d' → (k', d') = (k, d) ∨ to_map h !! k' = Some d').
  { intros k' d' E. destruct Hi as [(_&_&Em)|[(_&_&Em)|(_&Em&_)]]; [|by subst; right..].
    rewrite Em in E. apply lookup_insert_Some in E as [[<- <-]|[_ E]]; by auto. }
  destruct (IH h' Hw Hl) as (W&S&I&M). split_and!; [done|by rewrite <- Hs1|auto|].
  intros k' d' [E|E]%M; [left; by right|]. destruct (Hmap _ _ E) as [->|E']; [left; by left|by right].
Qed.
End put_all.

(** The table of [sz] chains with the entries [l]. *)
Definition sized {K D} `{HashKey K} (sz : Z) (l : list (K * D)) : hashtab_t K D := put_all l (empty_table sz).

Lemma sized_ok {D} (P : string → D → Prop) sz np (l : list (string * D)) :
  0 < sz → u32_ok np → Z.of_nat (length (table_entries (sized sz l))) < 2 ^ 32 → Forall (λ e, P e.1 e.2) l →
  symtab_ok sz P (SYM (sized sz l) np).
Proof.
  intros Hs Hn Hl HP. destruct (empty_table_wf (K := string) (D := D) sz Hs) as [Hw He].
  destruct (put_all_keeps l (empty_table sz) Hw) as (W&S&I&M); [by apply Forall_true|].
  split; [done|by apply I|done|done|done|]. intros k d E. cbn [table] in E. destruct (M k d E) as [E'|E'].
  - rewrite Forall_forall in HP. by apply (HP (k, d)).
  - rewrite He in E'. by apply lookup_empty_Some in E'.
Qed.

Lemma sized_entries {D} (P : string * D → Prop) sz (l : list (string * D)) : 0 < sz → Forall P l →
  hashtab_wf (sized sz l) ∧ Forall P (table_entries (sized sz l)).
Proof.
  intros Hs HP. destruct (empty_table_wf (K := string) (D := D) sz Hs) as [Hw He].
  destruct (put_all_keeps l (empty_table sz) Hw) as (W&_&_&M); [by apply Forall_true|]. split; [done|].
  apply Forall_forall. intros [k d] Hin. apply elem_of_table_entries in Hin; [|done].
  rewrite Forall_forall in HP. apply HP. destruct (M k d Hin) as [|E']; [done|]. rewrite He in E'. by apply lookup_empty_Some in E'.
Qed.

Lemma points_empty {K D} (store : list D) sz : points store (empty_table (K := K) sz) (empty_table sz).
Proof. split; [|done]. cbn [htable]. apply Forall2_replicate, Forall2_nil. done. Qed.

Lemma points_put_all {K D} `{HashKeyLaws K} `{Countable K} (store : list D) l lv : Forall2 (entry_points store) l lv → ∀ h hv,
  points store h hv → points store (put_all l h) (put_all lv hv).
Proof.
  induction 1 as [|[k a] [k' d] l lv [E Hd] _ IH]; intros h hv Hp; [done|]. cbn [fst snd] in *. subst k'.
  unfold put_all. cbn [fold_left fst snd]. apply IH.
  pose proof (points_insert store h hv k a d [] Hp Hd) as Hi.
  destruct (hashtab_insert h k a []) as [[? ?] ?], (hashtab_insert hv k d []) as [[? ?] ?]. by destruct Hi as (_&_&Hi).
Qed.

Lemma sized_points {D} (store : list D) sz l lv : Forall2 (entry_points store) l lv →
  points store (sized (K := string) sz l) (sized sz lv).
Proof. intros Hl. by apply points_put_all, points_empty. Qed.

(** Strings are symbols by computation. *)
Definition symbol (k : string) : bool :=
  forallb (λ b, negb (b =? 0)) (string_bytes k) && (strlen k <? 2 ^ 32 - 1) && negb (strlen k =? 0).

Lemma symbol_of k : symbol k = true → symbol_ok k.
Proof.
  unfold symbol. intros [[Hb Hs]%andb_prop Hn]%andb_prop. split; [split|].
  - apply Forall_forall. intros b Hin ->. rewrite forallb_forall in Hb.
    specialize (Hb 0 ltac:(by apply list_elem_of_In)). done.
  - lia.
  - intros ->. done.
Qed.

(** ** The policy *)

Definition stored_constraint : constraint_node :=
  CN 2 [CE CEXPR_ATTR CEXPR_USER CEXPR_EQ ebitmap_init (Some empty_type_set);
        CE CEXPR_NAMES CEXPR_TYPE CEXPR_EQ (bits [1]) (Some (TS (bits [1]) ebitmap_init 0));
        CE CEXPR_OR 0 0 ebitmap_init (Some empty_type_set)].

Definition stored_file_class : class_datum :=
  CLD 1 None None (SYM (sized 32 [("read", PD 1); ("write", PD 2)]%string) 2) [stored_constraint] [] 0 0 0 0.

Definition stored_types : list type_datum :=
  [TD 1 1 TYPE_TYPE ebitmap_init 0 0; TD 2 1 TYPE_TYPE ebitmap_init 0 0; TD 3 1 TYPE_ATTRIB ebitmap_init 0 0].

Definition stored_roles : list role_datum :=
  [RD 1 ebitmap_init empty_type_set ebitmap_init 0 0 ebitmap_init;
   RD 2 (bits [1]) (TS (bits [0; 1]) ebitmap_init 0) (bits [0; 1]) 0 0 ebitmap_init].

Definition stored_users : list user_datum :=
  [UD 1 (RS (bits [0; 1]) 0) no_semantic_range no_semantic_level (bits [0; 1]) mls_range_init mls_level_init 0].

Definition stored_bools : list cond_bool_datum := [BD 1 1 0; BD 2 0 0].

Definition class_keys : list (string * ptr) := [("file", 0)]%string.
Definition role_keys : list (string * ptr) := [("object_r", 0); ("r", 1)]%string.
Definition type_keys : list (string * ptr) := [("untrusted_app", 0); ("su", 1); ("domain", 2)]%string.
Definition user_keys : list (string * ptr) := [("u", 0)]%string.
Definition bool_keys : list (string * ptr) := [("x", 0); ("y", 1)]%string.

(** The objects under their names. *)
Definition named {D} (store : list D) (l : list (string * ptr)) : list (string * D) :=
  omap (λ e, pair e.1 <$> at_index store e.2) l.

Definition stored_transition : filename_trans := FT 1 2 1 "log".
Definition transition_keys : list (filename_trans * ptr) := [(stored_transition, 0)].
Definition stored_transitions : list filename_trans_datum := [FTD 2].

(** [if (x) allow untrusted_app su : file write;] *)
Definition cond_rule : avtab :=
  avtab_store (avtab_insert_nonunique empty_avtab (AK 1 2 1 AVTAB_ALLOWED) (AD 2 None) []).1.2 0 (set_parse_context 1).

Definition stored_cond : cond_node := CD 0 [CX COND_BOOL 1] [0] [] 0 0 0 (replicate 5 0) 0 0.

Definition stored_context (t : Z) : context_struct := CTX 1 2 t mls_range_init.
Definition plain_label (u : ocontext_key) (v : Z) (c : context_struct) (sid : Z) : ocontext := OC u v c zero_context sid 0.

Definition stored_labels : list (list ocontext) :=
  [[plain_label OC_none 0 (stored_context 1) 1; plain_label OC_none 0 (stored_context 2) 2]; [];
   [plain_label (OC_port 6 80 80) 0 (stored_context 2) 0]; []; []; []; []; []; []].

Definition stored_genfs : list genfs_t :=
  [GF "proc" [plain_label (OC_name "/net") 0 (stored_context 1) 0; plain_label (OC_name "/") 0 (stored_context 2) 0]]%string.

Definition filed : policydb :=
  PDB POLICY_KERN 0 (SYM (empty_table 2) 0) (SYM (sized 32 class_keys) 1) (SYM (sized 16 role_keys) 2)
    (SYM (sized 512 type_keys) 3) (SYM (sized 128 user_keys) 1) (SYM (sized 16 bool_keys) 2)
    (SYM (empty_table 16) 0) (SYM (empty_table 16) 0)
    [[]; [Some "file"]; [Some "object_r"; Some "r"]; [Some "untrusted_app"; Some "su"; Some "domain"];
     [Some "u"]; [Some "x"; Some "y"]; []; []]%string
    [Some 0] [Some 0; Some 1] [Some 0] [Some 0; Some 1; Some 2] [] [BLK [DECL 1 (replicate 8 ebitmap_init)]] [] one_rule [Some 0; Some 1] cond_rule [stored_cond]
    [RTR 2 2 1 2] [RA 2 2] (empty_table 256) (sized 1024 transition_keys)
    [Some (bits [0; 2]); Some (bits [1]); Some (bits [2])]
    [Some (bits [0]); Some (bits [1]); Some (bits [0])]
    (bits [2]) 30 [stored_file_class] stored_roles stored_users stored_types stored_bools [] stored_transitions []
    None None SEPOL_TARGET_SELINUX 0 stored_labels stored_genfs (bits [0]) 2.

Definition filed_tables : tables :=
  TABLES (sized 32 (named [stored_file_class] class_keys)) (sized 16 (named stored_roles role_keys))
    (sized 512 (named stored_types type_keys)) (sized 128 (named stored_users user_keys))
    (sized 16 (named stored_bools bool_keys)) (sized 1024 [(stored_transition, FTD 2)]).

Definition filed_info : policydb_compat_info := CI POLICY_KERN 30 SYM_NUM (OCON_NODE6 + 1) SEPOL_TARGET_SELINUX.

Definition filed_image : list Z := Eval vm_compute in policydb_bytes false filed filed_tables filed_info.

Lemma filed_writes : policydb_write (λ _ _, w_fail 1) (λ _, w_fail 1) filed (FS (PF PF_USE_MEMORY [] 3000 []) false []) =
  Ret (0, FS (PF PF_USE_MEMORY [] (3000 - Z.of_nat (length filed_image)) filed_image) false []).
Proof. vm_compute. reflexivity. Qed.

Definition filed_loaded : policydb :=
  match load_policydb (λ _, mret) mret filed_image (false, []) with Ret (Some p, _) => p | _ => policydb_zero end.

Lemma filed_loads : load_policydb (λ _, mret) mret filed_image (false, []) = Ret (Some filed_loaded, (false, [])).
Proof. vm_compute. reflexivity. Qed.

(** ** It can be written *)

Lemma filed_represents : represents filed filed_tables.
Proof.
  split; (apply sized_points || apply points_put_all, points_empty); by repeat constructor.
Qed.

Lemma filed_header : header_ok filed filed_info.
Proof. split; try done. by left. Qed.

Lemma empty_type_set_ok : type_set_ok empty_type_set.
Proof. refine (conj _ (conj _ _)); [apply ebitmap_wf_init..|by vm_compute]. Qed.

Lemma empty_table_ok {D} (P : string → D → Prop) sz np : 0 < sz → u32_ok np → symtab_ok sz P (SYM (empty_table sz) np).
Proof.
  intros Hs Hn. destruct (empty_table_wf (K := string) (D := D) sz Hs) as [Hw He].
  assert (Hl : length (table_entries (empty_table (K := string) (D := D) sz)) = 0%nat).
  { unfold table_entries, empty_table.
    pose proof (length_entries (HT (replicate (Z.to_nat sz) ([] : list (string * D))) sz 0) (proj1 Hw)) as ->.
    change (Some (HT (replicate (Z.to_nat sz) []) sz 0)) with (empty_table (K := string) (D := D) sz). by rewrite He. }
  split; cbn [table]; try done; [rewrite Hl; lia|]. intros k d E. cbn [table] in E. rewrite He in E. by apply lookup_empty_Some in E.
Qed.

Lemma stored_perms_ok : symtab_ok PERM_SYMTAB_SIZE perm_ok (permissions stored_file_class).
Proof.
  apply sized_ok; [done..|]. repeat (constructor; [split; [by apply symbol_of|done]|]). constructor.
Qed.

Lemma word_small z : (0 <=? z) && (z <? 2 ^ 32) = true → u32_ok z. Proof. unfold u32_ok. lia. Qed.

Lemma leaf_ok p ty a o ns ts : Forall (λ z, (0 <=? z) && (z <? 2 ^ 32) = true) [ty; a; o] → ebitmap_wf ns → type_set_ok ts →
  cons_expr_ok p (CE ty a o ns (Some ts)).
Proof.
  intros Hw Hn Ht. repeat (apply Forall_cons in Hw as [?%word_small Hw]). unfold cons_expr_ok. cbn [expr_type attr op names type_names].
  refine (conj _ (conj _ (conj _ _))); [done..|]. intros _. split; [done|]. intros _. by exists ts.
Qed.

Lemma stored_constraint_ok : cons_list_ok filed false [stored_constraint].
Proof.
  split; [done|]. constructor; [|constructor]. refine (conj _ (conj _ (conj _ _))); [by apply word_small|done| |by vm_compute].
  assert (Hts : type_set_ok (TS (bits [1]) ebitmap_init 0)).
  { refine (conj _ (conj _ _)); [small_bits|apply ebitmap_wf_init|by apply word_small]. }
  repeat (constructor; [apply leaf_ok; [by repeat constructor|first [apply ebitmap_wf_init|small_bits]|first [apply empty_type_set_ok|exact Hts]]|]).
  constructor.
Qed.

Ltac u32 := apply word_small; reflexivity.

Lemma no_range_ok : range_ok mls_range_init.
Proof. split; (split; [by apply word_small|apply ebitmap_wf_init]). Qed.

Lemma stored_file_class_ok : ClassFile.class_ok filed "file" stored_file_class.
Proof.
  split; [by apply symbol_of|done|u32|exact stored_perms_ok|exact stored_constraint_ok| |repeat (constructor; [u32|]); constructor].
  intros _. split; [done|constructor].
Qed.

Lemma filed_symbols : symbols_ok filed filed_tables.
Proof.
  split.
  - apply empty_table_ok; [done|u32].
  - apply sized_ok; [done|u32|done|]. constructor; [|constructor]. right. exact stored_file_class_ok.
  - apply sized_ok; [done|u32|done|]. repeat (constructor; [right; split|]); [by apply symbol_of|
      repeat (constructor; [u32|]); constructor|apply ebitmap_wf_init|apply empty_type_set_ok|apply ebitmap_wf_init|done|done|
      by apply symbol_of|repeat (constructor; [u32|]); constructor|small_bits|refine (conj _ (conj _ _)); [small_bits|apply ebitmap_wf_init|u32]|
      apply ebitmap_wf_init|done|done|constructor].
  - apply sized_ok; [done|u32|done|]. repeat (constructor; [right; split|]);
      try (by apply symbol_of); try apply ebitmap_wf_init; try done; try constructor; repeat (constructor; [u32|]); constructor.
  - apply sized_ok; [done|u32|done|]. constructor; [right|constructor]. split; [by apply symbol_of|repeat (constructor; [u32|]); constructor|
      split; [small_bits|u32]|apply no_range_ok|split; [u32|apply ebitmap_wf_init]| |by left].
    repeat split; (done || constructor).
  - apply sized_ok; [done|u32|done|]. repeat (constructor; [right; refine (conj _ (conj _ (conj _ _))); [by apply symbol_of|u32|done|u32]|]). constructor.
  - apply empty_table_ok; [done|u32].
  - apply empty_table_ok; [done|u32].
Qed.

Lemma stored_context_ok t : t = 1 ∨ t = 2 → context_storable filed (stored_context t).
Proof.
  intros Ht. split; [|split; [by destruct Ht as [->| ->]; vm_compute|done]].
  refine (conj _ (conj _ (conj _ _))); [u32|u32|by destruct Ht as [->| ->]; u32|apply no_range_ok].
Qed.

Lemma filed_labels : labels_ok filed.
Proof.
  split; [done| | |by apply empty_table_wf].
  - assert (H : ∀ i u v t sid, (t = 1 ∨ t = 2) → two_contexts i = false → label_ok_selinux i (u, v, sid) →
      ocontext_ok_selinux filed i (plain_label u v (stored_context t) sid)).
    { intros i u v t sid Ht Hi Hl. split; [done|]. split; [by apply stored_context_ok|]. by rewrite Hi. }
    intros j l Hj. do 9 (destruct j as [|j]; [injection Hj as <-; split; [done|];
      repeat (constructor; [apply H; [by auto|done|by vm_compute]|]); constructor|]). done.
  - split; [done|]. split; [|repeat constructor]. constructor; [|constructor]. split; [by apply symbol_of|]. split; [done|]. split.
    + repeat (constructor; [refine (conj _ (conj _ (conj _ (conj _ _)))); [done|by apply symbol_of|u32|apply stored_context_ok; by auto|done]|]).
      constructor.
    + repeat constructor. done.
Qed.

Lemma filed_maps : type_maps_ok filed.
Proof. split; [done|]. repeat (constructor; [eexists; split; [done|small_bits]|]). constructor. Qed.

Lemma plain_storable n vers : avkey_ok (key n) → specified (key n) ∈ stored_specs → xperms (datum n) = None →
  has_bits (specified (key n)) AVTAB_XPERMS = false → u32_ok (data (datum n)) → storable false vers n.
Proof. intros Hk Hs Hx Hb Hd. split; [done..|]. by rewrite Hx. Qed.

Lemma filed_av : avtab_nodes one_rule = [AN 0 (AK 2 3 1 AVTAB_ALLOWED) (AD 3 None) 0 0].
Proof. by vm_compute. Qed.

Lemma filed_rules : PolicydbFile.rules_ok false filed filed_tables.
Proof.
  assert (Hs : AVTAB_ALLOWED ∈ stored_specs) by (apply (bool_decide_unpack _); by vm_compute).
  split.
  - change (te_avtab filed) with one_rule. rewrite filed_av. constructor; [|constructor].
    apply plain_storable; done.
  - constructor; [|constructor]. split; try done.
    + constructor; [split; [u32|split; [u32|done]]|constructor].
    + constructor; [|constructor]. eexists. split; [by vm_compute|]. split; [done|]. apply plain_storable; done.
    + constructor.
  - apply put_all_keeps; [by apply empty_table_wf|]. constructor; [|constructor]. by repeat split.
  - by eexists.
  - intros k d E. destruct (put_all_keeps [(stored_transition, FTD 2)] (empty_table 1024)) as (_&_&_&M);
      [by apply empty_table_wf|constructor; [by repeat split|constructor]|].
    destruct (M k d E) as [E'|E'].
    + apply list_elem_of_singleton in E' as [= -> ->]. split; [by repeat split|]. split; [by apply symbol_of|u32].
    + pose proof (proj2 (empty_table_wf (K := filename_trans) (D := filename_trans_datum) 1024 ltac:(done))) as He.
      rewrite He in E'. by apply lookup_empty_Some in E'.
Qed.

(** ** The policy that was read *)

Lemma accepted_good data p s : Forall byte_ok data → kernel_image data →
  load_policydb (λ _, mret) mret data (false, []) = Ret (Some p, s) → policy_good p.
Proof.
  intros Hd Hk H. destruct (load_policydb_good (λ _, mret) mret data (false, []) p s Hd H) as (hdr&info&c&m&s1&E&G).
  apply G; by apply (read_header_kernel data c m hdr info s1 Hk E).
Qed.

Lemma filed_kernel : Forall byte_ok filed_image ∧ kernel_image filed_image.
Proof. split; [apply (bool_decide_unpack _); by vm_compute|split; by vm_compute]. Qed.

Lemma filed_loaded_good : policy_good filed_loaded.
Proof. eapply accepted_good; [apply filed_kernel..|exact filed_loads]. Qed.

Lemma filed_loaded_conds : cond_list filed_loaded = [stored_cond].
Proof. by vm_compute. Qed.

Lemma filed_loaded_cond_ok p0 : policyvers p0 = 30 → 1 <= nprim (p_bools p0) →
  Forall (cond_node_ok false p0 (te_cond_avtab filed_loaded)) (cond_list filed_loaded).
Proof.
  intros Hv Hb. rewrite filed_loaded_conds. constructor; [|constructor]. split; try done.
  - constructor; [split; [u32|split; [u32|]]|constructor]. unfold expr_isvalid. cbn [cx_expr_type cx_bool].
    apply andb_true_intro. split; [done|]. by apply Z.leb_le.
  - rewrite Hv. constructor; [|constructor]. eexists. split; [by vm_compute|]. split; [done|]. apply plain_storable; try done.
    apply (bool_decide_unpack _). by vm_compute.
  - constructor.
Qed.

(** The tables of [filed] are as they are after reading. *)
Lemma filed_tables_loaded : tables_loaded filed.
Proof.
  assert (Ht : ∀ {D} (l : list (string * D)) sz np, 0 < sz → 0 <= np → hashtab_wf (sized sz l) ∧ 0 <= np).
  { intros D l sz np Hs Hn. split; [|done]. by apply (sized_entries (λ _, True)), Forall_true. }
  split.
  - reflexivity.
  - reflexivity.
  - reflexivity.
  - split; [by apply empty_table_wf|reflexivity].
  - by apply Ht.
  - by apply Ht.
  - by apply Ht.
  - by apply Ht.
  - by apply Ht.
  - split; [by apply empty_table_wf|reflexivity].
  - split; [by apply empty_table_wf|reflexivity].
  - constructor.
  - apply (sized_entries (λ x, ∃ d, at_index [stored_file_class] x.2 = Some d ∧ True)); [done|]. by repeat constructor; eexists.
  - apply (sized_entries (λ x, ∃ d, at_index stored_roles x.2 = Some d ∧ role_plain d)); [done|].
    repeat (constructor; [eexists; split; [reflexivity|]|]); [..|constructor]; (split; [done|]); [apply ebitmap_wf_init|small_bits].
  - apply (sized_entries (λ x, ∃ d, at_index stored_types x.2 = Some d ∧ True)); [done|]. repeat (constructor; [by eexists|]). constructor.
  - apply (sized_entries (λ x, ∃ d, at_index stored_users x.2 = Some d ∧ user_plain d)); [done|].
    constructor; [eexists; split; [reflexivity|]|constructor]. split; [done|]. small_bits.
  - apply (sized_entries (λ x, ∃ d, at_index stored_bools x.2 = Some d ∧ True)); [done|]. repeat (constructor; [by eexists|]). constructor.
  - constructor.
  - constructor.
  - by repeat constructor.
  - by repeat constructor.
  - repeat (constructor; [split; [done|apply ebitmap_wf_init]|]). constructor.
  - by repeat constructor.
  - by repeat constructor.
Qed.

(** ** A policy with categories *)

(** [filed] with MLS: one sensitivity, four categories, and contexts with a range. *)
Definition all_cats : ebitmap := bits [0; 1; 2; 3].
Definition low_level : mls_level := ML 1 ebitmap_init.
Definition ranged (t : Z) (cats : list Z) : context_struct := CTX 1 2 t (MR low_level (ML 1 (bits cats))).

Definition mls_user : user_datum :=
  UD 1 (RS (bits [0; 1]) 0) no_semantic_range no_semantic_level (bits [0; 1]) (MR low_level (ML 1 all_cats)) low_level 0.

Definition filed_mls : policydb :=
  set_mls 1 (set_user_mem [mls_user] (set_p_levels (SYM (sized 16 [("s0", LD (Some (ML 1 all_cats)) 0 1)]%string) 1)
    (set_p_cats (SYM (sized 16 [("c0", CTD 1 0); ("c1", CTD 2 0); ("c2", CTD 3 0); ("c3", CTD 4 0)]%string) 4)
      (set_sym_val_to_name (set_index (set_index (sym_val_to_name filed) SYM_LEVELS [Some "s0"]) SYM_CATS [Some "c0"; Some "c1"; Some "c2"; Some "c3"])%string
        (set_ocontexts ([plain_label OC_none 0 (ranged 1 []) 1; plain_label OC_none 0 (ranged 2 [0; 1]) 2] :: replicate 8 [])
          (set_genfs [] filed)))))).

Definition mls_image : list Z := Eval vm_compute in
  policydb_bytes false filed_mls (TABLES (v_classes filed_tables) (v_roles filed_tables) (v_types filed_tables)
    (sized 128 (named [mls_user] user_keys)) (v_bools filed_tables) (v_filenames filed_tables)) filed_info.

Definition mls_loaded : policydb :=
  match load_policydb (λ _, mret) mret mls_image (false, []) with Ret (Some p, _) => p | _ => policydb_zero end.

Lemma mls_loads : load_policydb (λ _, mret) mret mls_image (false, []) = Ret (Some mls_loaded, (false, [])).
Proof. vm_compute. reflexivity. Qed.

Lemma mls_kernel : Forall byte_ok mls_image ∧ kernel_image mls_image.
Proof. split; [apply (bool_decide_unpack _); by vm_compute|split; by vm_compute]. Qed.

Lemma mls_loaded_good : policy_good mls_loaded.
Proof. eapply accepted_good; [apply mls_kernel..|exact mls_loads]. Qed.

(** Names of the sample without separators. *)
Lemma mls_plain cats : cats = [] ∨ cats = [0; 1; 2] → plain_level mls_loaded (ML 1 (bits cats)).
Proof.
  intros Hc. assert (Hw : ebitmap_wf (bits cats)) by (destruct Hc as [->| ->]; [apply ebitmap_wf_init|small_bits]).
  split; [exact Hw|]. split; [|split]; cbn [sens cat].
  - exists "s0"%string. split; [by vm_compute|]. by repeat constructor.
  - destruct Hc as [->| ->]; vm_compute; intuition.
  - intros i Hi%elem_of_set_bits; [|done].
    assert (Hin : i ∈ [0; 1; 2]) by (destruct Hc as [->| ->]; vm_compute in Hi |- *; [by apply not_elem_of_nil in Hi|exact Hi]).
    repeat (apply elem_of_cons in Hin as [->|Hin]); [..|by apply not_elem_of_nil in Hin].
    all: split; [done|]; eexists; (split; [vm_compute; reflexivity|]); repeat constructor; by intros [=].
Qed.

Lemma ranged_named : plain_names mls_loaded (ranged 2 [0; 1; 2]) "u" "r" "su".
Proof.
  split; [vm_compute; reflexivity..|repeat split; repeat constructor; by intros [=]| |].
  - intros q d Hq Hd. vm_compute in Hq. injection Hq as <-. vm_compute in Hd. injection Hd as <-. done.
  - change (mls mls_loaded =? 0) with false. split; [apply (mls_plain []); by left|apply (mls_plain [0; 1; 2]); by right].
Qed.
