(* ===== verification/SampleServer.v ===== *)
(** * A sample server and sample records

    The server in use with the policy of SampleFile.v, and records of contexts of
    the sample policies. *)

From S2P Require Import Prelude Policyfile Ebitmap Hashtab SymtabFile Avtab Context Policydb Expand Mls LabelFile PolicydbFile PolicydbSound TypeMaps Services Sidtab MlsText ContextText SidServer SidFacts PlainNames RecordFacts Samples SampleFile.

(** The server with the policy of SampleFile.v and its two initial SIDs. *)
Definition no_table : sidtab := ST None 0 0 0.

Definition first_table : sidtab := Eval vm_compute in
  match policydb_load_isids filed_loaded no_table [] with Ret (_, t, _) => t | _ => no_table end.

Definition served : server := SRV (Some filed_loaded) first_table false.

Lemma first_table_loaded : policydb_load_isids filed_loaded no_table [] = Ret (0, first_table, []).
Proof. vm_compute. reflexivity. Qed.

Lemma first_table_wf : sidtab_wf first_table.
Proof.
  pose proof (sepol_sidtab_init_correct no_table []) as Hi. pose proof first_table_loaded as H. unfold policydb_load_isids in H.
  destruct (sepol_sidtab_init no_table []) as [[rc t] m]. destruct Hi as [Hp Hi].
  destruct (Hp (Forall_nil_2 _)) as [Hm ->]. destruct Hi as [(_&Hw&He&_)|[=]]. cbn [Z.eqb negb] in H.
  assert (El : at_index (ocontexts filed_loaded) OCON_ISID = Some (hd [] stored_labels)) by (vm_compute; reflexivity).
  rewrite El in H. cbn [deref mbind outcome_bind] in H.
  pose proof (load_isids_correct (hd [] stored_labels) t m Hw) as Hl. destruct (load_isids _ t m) as [[rc2 t2] m2]. injection H as -> -> ->.
  apply Hl; [|apply (bool_decide_unpack _); by vm_compute|intros c _; by rewrite He|done]. by repeat constructor.
Qed.

Lemma served_ok : server_ok served.
Proof.
  split; [exact first_table_wf|]. intros p H. change (Some filed_loaded = Some p) in H.
  apply (inj Some) in H as <-. apply loaded_label_sids; [vm_compute; reflexivity|exact filed_loaded_good].
Qed.

(** The record of a context of the sample. *)
Lemma served_record : names_context filed_loaded (stored_context 1) (CR (Some "u") (Some "r") (Some "untrusted_app") None)%string.
Proof.
  assert (E : mls filed_loaded = 0) by (vm_compute; reflexivity).
  split; [|vm_compute; reflexivity|by rewrite E]. exists "u", "r", "untrusted_app"%string. do 3 (split; [reflexivity|]).
  split; [vm_compute; reflexivity..|repeat split; repeat constructor; by intros [=]| |by rewrite E].
  intros q d Hq Hd. vm_compute in Hq. injection Hq as <-. vm_compute in Hd. injection Hd as <-. done.
Qed.

Lemma ranged_record : names_context mls_loaded (ranged 2 [0; 1; 2]) (CR (Some "u") (Some "r") (Some "su") (Some "s0-s0:c0.c2"))%string.
Proof.
  split; [|vm_compute; reflexivity|].
  - exists "u", "r", "su"%string. do 3 (split; [reflexivity|]). exact ranged_named.
  - change (mls mls_loaded =? 0) with false. eexists. split; [reflexivity|]. vm_compute. reflexivity.
Qed.
