(* ===== verification/Containers.v ===== *)
(** * Vectors and rings (utils/vector.c, utils/list.c)

    The growing arrays of the statement parser, and the doubly linked rings. *)

From S2P Require Import Prelude.

(** ** Vectors

    [vdata] is the block behind the pointer [data]: [None] is NULL, an element
    that was never written is [None]. *)

Record vector := VEC { vsize : Z; vcap : Z; vdata : option (list (option Z)) }.

(** A block of [n] bytes as an array of pointers of 4 bytes. *)
Definition block (n : Z) : list (option Z) := replicate (Z.to_nat (n / 4)) None.

(** [realloc] keeps what fits. *)
Definition resize (n : Z) (old : list (option Z)) : list (option Z) :=
  take (Z.to_nat (n / 4)) old ++ replicate (Z.to_nat (n / 4) - length old) None.

Definition vec_init : M mem vector := λ m,
  let '(ok, m) := malloc m in Ret (VEC 0 1 (if ok then Some (block 4) else None), m).

Definition vec_push_back (v : vector) (p : Z) : M mem vector := λ m,
  let '(cap, data, m) :=
    if vsize v =? vcap v then
      let cap := u32 (vcap v * 2) in
      let '(ok, m) := malloc m in
      (cap, if ok then Some (resize (u32 (4 * cap)) (default [] (vdata v))) else None, m)
    else (vcap v, vdata v, m) in
  match data with
  | None => Undef
  | Some l =>
      if vsize v <? Z.of_nat (length l) then Ret (VEC (u32 (vsize v + 1)) cap (Some (set_index l (vsize v) (Some p))), m)
      else Undef
  end.

(** The element may be one that was never written. *)
Definition vec_pop_back (v : vector) : outcome (option Z * vector) :=
  l ← deref (vdata v);
  e ← deref (at_index l (u32 (vsize v - 1)));
  Ret (e, VEC (u32 (vsize v - 1)) (vcap v) (vdata v)).

Definition vec_destroy (v : vector) : vector := VEC 0 0 None.

(** [vec_for_each(v, e)]: the elements for which the body runs; [e] is read once
    more when the loop ends. *)
Fixpoint for_each_from (l : list (option Z)) (i : Z) (n : nat) : outcome (list (option Z)) :=
  e ← deref (at_index l i);
  match n with
  | O => Ret []
  | S n' => rest ← for_each_from l (i + 1) n'; Ret (e :: rest)
  end.

Definition vec_for_each (v : vector) : outcome (list (option Z)) :=
  l ← deref (vdata v); for_each_from l 0 (Z.to_nat (vsize v)).

(** [vec_dup] stores the new block in its argument and copies the old data to
    the block of the result, which was never set. *)
Definition vec_dup (v : vector) : M mem (vector * vector) := λ m,
  let '(ok, m) := malloc m in
  if ok then (let '(_, m) := malloc m in Undef) else Undef.

(** *** Elements *)

(** The least power of two that holds [n] elements. *)
Definition fits (n cap : Z) : Prop := ∃ k, 0 <= k ∧ cap = 2 ^ k ∧ n <= cap ∧ (k = 0 ∨ 2 ^ (k - 1) < n).

(** The block has [vcap] places, of which [vsize] are in use. *)
Definition vec_ok (v : vector) (elems : list Z) : Prop :=
  ∃ l, vdata v = Some l ∧ Z.of_nat (length l) = vcap v ∧ vsize v = Z.of_nat (length elems) ∧ fits (vsize v) (vcap v) ∧
       take (length elems) l = Some <$> elems.

Lemma fits_full n cap : 1 <= n → fits n cap → n = cap ↔ ∃ j, 0 <= j ∧ n = 2 ^ j.
Proof.
  intros Hn (k&Hk&->&Hle&Hlow). split; [by intros ->; exists k|]. intros (j&Hj&->).
  destruct Hlow as [->|Hlow].
  - change (2 ^ 0) with 1 in *. lia.
  - apply Z.pow_le_mono_r_iff in Hle; [|lia..]. assert (k - 1 < j); [|f_equal; lia].
    destruct (Z.lt_ge_cases (k - 1) j) as [|Hge]; [done|]. pose proof (Z.pow_le_mono_r 2 j (k - 1) ltac:(lia) Hge). lia.
Qed.

Lemma fits_next n cap : 0 <= n → fits n cap → fits (n + 1) (if n =? cap then cap * 2 else cap).
Proof.
  intros Hn (k&Hk&->&Hle&Hlow). destruct (Z.eqb_spec n (2 ^ k)) as [->|Hne].
  - exists (k + 1). rewrite Z.pow_add_r, Z.add_simpl_r by lia. split_and!; [lia|lia|lia|right; lia].
  - exists k. split_and!; [done|done|lia|]. destruct Hlow; [by left|right; lia].
Qed.

Lemma quarter n : 4 * n / 4 = n.
Proof. rewrite Z.mul_comm. by apply Z.div_mul. Qed.

Lemma plenty_malloc m : plenty m → ∃ m', malloc m = (true, m') ∧ plenty m'.
Proof.
  intros Hm. destruct m as [|b m]; cbn; [by exists []|]. apply Forall_cons in Hm as [-> Hm]. by exists m.
Qed.

Lemma vec_init_ok m : plenty m → ∃ v m', vec_init m = Ret (v, m') ∧ vec_ok v [] ∧ plenty m'.
Proof.
  intros Hm. destruct (plenty_malloc m Hm) as (m'&E&Hm'). unfold vec_init. rewrite E. eexists _, m'.
  split; [done|]. split; [|done]. exists [None]. split_and!; try done. exists 0. cbn. split_and!; try lia.
Qed.

Lemma vec_push_ok v elems p m :
  vec_ok v elems → vsize v < 2 ^ 28 → plenty m →
  ∃ v' m', vec_push_back v p m = Ret (v', m') ∧ vec_ok v' (elems ++ [p]) ∧ plenty m'.
Proof.
  intros (l&Hd&Hc&Hs&Hf&Ht) Hsz Hm. unfold vec_push_back. pose proof (fits_next (vsize v) (vcap v) ltac:(lia) Hf) as Hf'.
  assert (1 <= vcap v) as H1 by (destruct Hf as (k&Hk&->&_); pose proof (Z.pow_pos_nonneg 2 k); lia). destruct Hf as (_&_&_&Hle&_).
  assert (Hfin : ∀ cap l' m', Z.of_nat (length l') = cap → vsize v < cap → fits (vsize v + 1) cap → take (length elems) l' = Some <$> elems →
    plenty m' →
    ∃ v' m'', (if vsize v <? Z.of_nat (length l') then Ret (VEC (u32 (vsize v + 1)) cap (Some (set_index l' (vsize v) (Some p))), m') else Undef)
      = Ret (v', m'') ∧ vec_ok v' (elems ++ [p]) ∧ plenty m'').
  { intros cap l' m' Hl' Hlt Hcap Ht' Hm'. rewrite (proj2 (Z.ltb_lt _ _)) by lia. eexists _, m'. split; [done|]. split; [|done].
    exists (set_index l' (vsize v) (Some p)). unfold set_index. cbn [vdata vsize vcap]. rewrite u32_small by lia.
    rewrite length_insert, length_app. cbn [length]. split_and!; [done|done|lia|done|].
    rewrite Hs, Nat2Z.id. rewrite insert_take_drop by lia. rewrite Nat.add_1_r.
    rewrite take_app_ge by (rewrite length_take; lia). rewrite length_take, Nat.min_l by lia.
    replace (S (length elems) - length elems)%nat with 1%nat by lia. cbn [take]. rewrite take_0, fmap_app. by f_equal. }
  destruct (Z.eqb_spec (vsize v) (vcap v)) as [He|He].
  - destruct (plenty_malloc m Hm) as (m'&E&Hm'). rewrite E, Hd. cbn [default from_option id].
    rewrite !(u32_small (vcap v * 2)) by lia. rewrite u32_small by lia.
    apply Hfin; try done; [|lia|].
    + unfold resize. rewrite quarter, length_app, length_take, length_replicate. lia.
    + unfold resize. rewrite quarter. rewrite take_app_le by (rewrite length_take; lia). by rewrite take_take, Nat.min_l by lia.
  - rewrite Hd. apply Hfin; try done; lia.
Qed.

(** Pushing a list of pointers. *)
Fixpoint push_all (v : vector) (l : list Z) : M mem vector :=
  match l with [] => mret v | p :: l' => v ← vec_push_back v p; push_all v l' end.

Lemma push_all_ok l : ∀ v elems m, vec_ok v elems → Z.of_nat (length elems + length l) < 2 ^ 28 → plenty m →
  ∃ v' m', push_all v l m = Ret (v', m') ∧ vec_ok v' (elems ++ l) ∧ plenty m'.
Proof.
  induction l as [|p l IH]; intros v elems m Hv Hl Hm; cbn [length] in *.
  - exists v, m. by rewrite app_nil_r.
  - destruct (vec_push_ok v elems p m Hv) as (v1&m1&E&Hv1&Hm1); [|done|].
    { destruct Hv as (_&_&_&->&_). lia. }
    destruct (IH v1 (elems ++ [p]) m1 Hv1) as (v2&m2&E2&Hv2&Hm2); [rewrite length_app; cbn [length]; lia|done|].
    exists v2, m2. rewrite <- app_assoc in Hv2. split; [|done]. cbn [push_all]. unfold mbind, M_bind. by rewrite E.
Qed.

(** Whatever is pushed, [vec_for_each] runs over it in its order, if a place is
    left; without one the loop reads behind the block. *)
Lemma for_each_spec l : ∀ n i, (i + n <= length l)%nat →
  for_each_from l (Z.of_nat i) n = if (i + n <? length l)%nat then Ret (take n (drop i l)) else Undef.
Proof.
  induction n as [|n IH]; intros i Hi.
  - cbn [for_each_from]. rewrite Nat.add_0_r in *. unfold at_index. rewrite (proj2 (Z.ltb_ge _ _)), Nat2Z.id by lia.
    destruct (Nat.ltb_spec i (length l)).
    + by destruct (lookup_lt_is_Some_2 l i) as [e ->]; [lia|].
    + by rewrite lookup_ge_None_2 by lia.
  - cbn [for_each_from]. unfold at_index at 1. rewrite (proj2 (Z.ltb_ge _ _)), Nat2Z.id by lia.
    destruct (lookup_lt_is_Some_2 l i) as [e He]; [lia|]. rewrite He. cbn [deref mbind outcome_bind].
    replace (Z.of_nat i + 1) with (Z.of_nat (S i)) by lia. rewrite IH by lia. replace (S i + n)%nat with (i + S n)%nat by lia.
    destruct (i + S n <? length l)%nat; [|done]. cbn. by rewrite (drop_S _ _ _ He).
Qed.

Lemma vec_for_each_spec v elems : vec_ok v elems →
  vec_for_each v = if vsize v <? vcap v then Ret (Some <$> elems) else Undef.
Proof.
  intros (l&Hd&Hc&Hs&(_&_&_&Hle&_)&Ht). unfold vec_for_each. rewrite Hd. cbn [deref mbind outcome_bind].
  rewrite (for_each_spec l (Z.to_nat (vsize v)) 0 ltac:(lia) : for_each_from l 0 _ = _). rewrite Nat.add_0_l, drop_0, Hs, Nat2Z.id, Ht.
  destruct (Nat.ltb_spec (length elems) (length l)), (Z.ltb_spec (Z.of_nat (length elems)) (vcap v)); done || lia.
Qed.

(** ** Rings

    A node is its address; the members [next] and [prev] of all nodes are two maps
    from addresses. *)

Record heap := HP { nexts : gmap Z Z; prevs : gmap Z Z }.

Definition next_of (h : heap) (a : Z) : outcome Z := deref (nexts h !! a).
Definition prev_of (h : heap) (a : Z) : outcome Z := deref (prevs h !! a).
Definition store_next (h : heap) (a b : Z) : outcome heap := _ ← next_of h a; Ret (HP (<[a := b]> (nexts h)) (prevs h)).
Definition store_prev (h : heap) (a b : Z) : outcome heap := _ ← prev_of h a; Ret (HP (nexts h) (<[a := b]> (prevs h))).

Definition init_list_head (h : heap) (head : Z) : outcome heap :=
  h ← store_next h head head; store_prev h head head.

Definition list_insert (h : heap) (pos node : Z) : outcome heap :=
  n ← next_of h pos;
  h ← store_next h node n;
  h ← store_prev h node pos;
  n ← next_of h pos;
  h ← store_prev h n node;
  store_next h pos node.

Definition list_insert_end (h : heap) (head node : Z) : outcome heap :=
  p ← prev_of h head; list_insert h p node.

Definition list_pop (h : heap) (pos : Z) : outcome (Z * heap) :=
  ret ← prev_of h pos;
  n ← next_of h pos;
  h ← store_next h ret n;
  p ← prev_of h pos;
  n ← next_of h pos;
  h ← store_prev h n p;
  h ← store_next h pos pos;
  h ← store_prev h pos pos;
  Ret (ret, h).

Definition list_pop_end (h : heap) (head : Z) : outcome (Z * heap) :=
  p ← prev_of h head; list_pop h p.

(** *** Segments

    From [a] the pointers lead through [l] to [b] and back. *)

Fixpoint segment (h : heap) (a : Z) (l : list Z) (b : Z) : Prop :=
  match l with
  | [] => nexts h !! a = Some b ∧ prevs h !! b = Some a
  | x :: l' => nexts h !! a = Some x ∧ prevs h !! x = Some a ∧ segment h x l' b
  end.

(** The ring with the nodes [a :: l]. *)
Definition ring (h : heap) (a : Z) (l : list Z) : Prop := segment h a l a ∧ NoDup (a :: l).

Definition allocated (h : heap) (a : Z) : Prop := is_Some (nexts h !! a) ∧ is_Some (prevs h !! a).

Lemma segment_app h l1 x l2 : ∀ a b, segment h a (l1 ++ x :: l2) b ↔ segment h a l1 x ∧ segment h x l2 b.
Proof. induction l1 as [|y l1 IH]; intros a b; cbn; [tauto|]. rewrite IH. tauto. Qed.

(** Stores outside the pointers of a segment do not matter. *)
Lemma segment_same h h' l : ∀ a b,
  (∀ x, x ∈ a :: l → nexts h' !! x = nexts h !! x) → (∀ x, x ∈ l ++ [b] → prevs h' !! x = prevs h !! x) →
  segment h a l b → segment h' a l b.
Proof.
  induction l as [|y l IH]; intros a b Hn Hp; cbn.
  - rewrite Hn, Hp by (by left). done.
  - rewrite Hn, Hp by (by left). intros (?&?&?). split; [done|]. split; [done|]. apply IH; [| |done]; intros x Hx; [apply Hn|apply Hp]; by right.
Qed.

(** A ring can be entered anywhere. *)
Lemma ring_rotate h a l1 x l2 : ring h a (l1 ++ x :: l2) → ring h x (l2 ++ a :: l1).
Proof.
  intros [Hs Hnd]. apply segment_app in Hs as [H1 H2]. split; [by apply segment_app|].
  by assert (x :: l2 ++ a :: l1 ≡ₚ a :: l1 ++ x :: l2) as -> by apply (Permutation_app_comm (x :: l2) (a :: l1)).
Qed.

(** The first pointer of a ring. *)
Lemma segment_head h a l b : segment h a l b →
  let n := match l with [] => b | x :: _ => x end in nexts h !! a = Some n ∧ prevs h !! n = Some a.
Proof. destruct l; cbn; tauto. Qed.

Lemma list_insert_ring h pos node l : ring h pos l → allocated h node → node ∉ pos :: l →
  ∃ h', list_insert h pos node = Ret h' ∧ ring h' pos (node :: l).
Proof.
  intros [Hs Hnd] [[nn Hnn] [np Hnp]] Hnew. pose proof (segment_head h pos l pos Hs) as [Hpn Hpp]. cbv zeta in *.
  set (n := match l with [] => pos | x :: _ => x end) in *.
  assert (Hin : n ∈ pos :: l) by (subst n; destruct l; set_solver).
  assert (n ≠ node ∧ pos ≠ node) as [Hne Hpe] by (split; intros ->; apply Hnew; [done|by left]).
  unfold list_insert, store_next, store_prev, next_of, prev_of. rewrite Hpn. cbn [deref mbind outcome_bind]. rewrite Hnn.
  cbn [deref mbind outcome_bind nexts prevs]. rewrite Hnp. cbn [deref mbind outcome_bind nexts prevs].
  rewrite lookup_insert_ne, Hpn by done. cbn [deref mbind outcome_bind]. rewrite lookup_insert_ne, Hpp by done.
  cbn [deref mbind outcome_bind nexts prevs]. rewrite lookup_insert_ne, Hpn by done. cbn [deref mbind outcome_bind].
  eexists. split; [done|]. split; [|rewrite !NoDup_cons in *; set_solver].
  cbn [segment nexts prevs]. rewrite lookup_insert_eq. split; [done|].
  rewrite lookup_insert_ne, lookup_insert_eq by done. split; [done|].
  apply NoDup_cons in Hnd as [Hnp' Hndl]. subst n. destruct l as [|x l]; cbn [segment nexts prevs] in *.
  - by rewrite lookup_insert_ne, !lookup_insert_eq by done.
  - rewrite lookup_insert_ne, !lookup_insert_eq by done. split; [done|]. split; [done|]. destruct Hs as (_&_&Hs).
    apply NoDup_cons in Hndl as [Hx _].
    eapply segment_same; [| |exact Hs]; cbn [nexts prevs]; intros y Hy.
    + rewrite !lookup_insert_ne; set_solver.
    + rewrite !lookup_insert_ne; [done|set_solver..].
Qed.

(** Popping takes the node out of its ring and leaves it alone in its own; the
    answer is the node before it. *)
Lemma list_pop_ring h pos x l : ring h pos (l ++ [x]) →
  ∃ h', list_pop h pos = Ret (x, h') ∧ ring h' x l ∧ ring h' pos [].
Proof.
  intros Hr. pose proof Hr as [Hs Hnd]. apply segment_app in Hs as [H1 [Hxn Hxp]].
  pose proof (segment_head h pos l x H1) as [Hpn Hpp]. cbv zeta in *. set (n := match l with [] => x | y :: _ => y end) in *.
  assert (Hin : n ∈ l ++ [x]) by (subst n; destruct l; set_solver).
  apply NoDup_cons in Hnd as [Hnp Hndl]. assert (x ≠ pos ∧ n ≠ pos) as [Hxe Hne] by (split; intros ->; set_solver).
  unfold list_pop, store_next, store_prev, next_of, prev_of. rewrite Hxp. cbn [deref mbind outcome_bind]. rewrite Hpn.
  cbn [deref mbind outcome_bind]. rewrite Hxn. cbn [deref mbind outcome_bind nexts prevs]. rewrite Hxp. cbn [deref mbind outcome_bind].
  rewrite lookup_insert_ne, Hpn by done. cbn [deref mbind outcome_bind]. rewrite Hpp. cbn [deref mbind outcome_bind nexts prevs].
  rewrite lookup_insert_ne, Hpn by done. cbn [deref mbind outcome_bind nexts prevs]. rewrite lookup_insert_ne, Hxp by done.
  cbn [deref mbind outcome_bind nexts prevs]. eexists. split; [done|]. split.
  - split; [|apply NoDup_app in Hndl as (Hl&Hx&_); apply NoDup_cons; split; [intros ?%Hx; set_solver|done]].
    subst n. destruct l as [|y l]; cbn [segment nexts prevs] in *.
    + rewrite lookup_insert_ne, lookup_insert_eq by done. by rewrite lookup_insert_ne, lookup_insert_eq by done.
    + rewrite lookup_insert_ne, lookup_insert_eq by done. rewrite lookup_insert_ne, lookup_insert_eq by done.
      split; [done|]. split; [done|]. destruct H1 as (_&_&H1). cbn [app] in Hndl. apply NoDup_cons in Hndl as [Hy Hndl].
      apply NoDup_app in Hndl as (_&Hx&_).
      assert (segment h y l x) as Hseg by done. clear H1.
      eapply segment_same; [| |exact Hseg]; cbn [nexts prevs]; intros z Hz.
      * rewrite !lookup_insert_ne; [done|intros <-..]; set_solver.
      * rewrite !lookup_insert_ne; [done|intros <-..]; set_solver.
  - split; [|apply NoDup_singleton]. cbn [segment nexts prevs]. by rewrite !lookup_insert_eq.
Qed.

(** What [init_list_head] makes is the ring without elements. *)
Lemma init_list_head_ring h head : allocated h head → ∃ h', init_list_head h head = Ret h' ∧ ring h' head [].
Proof.
  intros [[n Hn] [p Hp]]. unfold init_list_head, store_next, store_prev, next_of, prev_of. rewrite Hn.
  cbn [deref mbind outcome_bind nexts prevs]. rewrite Hp. cbn [deref mbind outcome_bind]. eexists. split; [done|].
  split; [|apply NoDup_singleton]. cbn [segment nexts prevs]. by rewrite !lookup_insert_eq.
Qed.

(** A node inserted at the end is the one popped next. *)
Lemma list_insert_end_ring h head node l : ring h head l → allocated h node → node ∉ head :: l →
  ∃ h', list_insert_end h head node = Ret h' ∧ ring h' head (l ++ [node]).
Proof.
  intros Hr Ha Hn. unfold list_insert_end, prev_of. destruct l as [|x l] using rev_ind.
  - pose proof Hr as [[_ Hp] _]. rewrite Hp. cbn [deref mbind outcome_bind]. by apply list_insert_ring.
  - clear IHl. pose proof Hr as [Hs _]. apply segment_app in Hs as [_ [_ Hp]]. rewrite Hp. cbn [deref mbind outcome_bind].
    apply (ring_rotate h head l x []) in Hr. destruct (list_insert_ring h x node _ Hr Ha) as (h'&E&Hr'); [set_solver|].
    exists h'. split; [done|]. rewrite <- app_assoc. by apply (ring_rotate h' x [node] head l).
Qed.

(** [list_pop_end] takes the last node out and answers the one before it. *)
Lemma list_pop_end_ring h head x l : ring h head (l ++ [x]) →
  ∃ h', list_pop_end h head = Ret (default head (last l), h') ∧ ring h' head l ∧ ring h' x [].
Proof.
  intros Hr. pose proof Hr as [Hs _]. apply segment_app in Hs as [_ [_ Hp]]. unfold list_pop_end, prev_of. rewrite Hp.
  cbn [deref mbind outcome_bind]. apply (ring_rotate h head l x []) in Hr. cbn [app] in Hr.
  destruct l as [|y l _] using rev_ind.
  - destruct (list_pop_ring h x head [] Hr) as (h'&E&H1&H2). exists h'. by rewrite E.
  - rewrite last_snoc. cbn [default from_option id]. destruct (list_pop_ring h x y (head :: l) Hr) as (h'&E&H1&H2).
    exists h'. split; [done|]. split; [|done]. by apply (ring_rotate h' y [] head l).
Qed.

