(* ===== verification/Process.v ===== *)
(** * Processes and system calls

    The programs of jni/su are processes: they call the kernel and the C library
    and act on the answers. A process is a tree of calls ([io]); a [world] says
    which calls are allowed in a state of the surroundings and which answers they
    may get there; [io_wp] is the weakest precondition of a process in a world. *)

From S2P Require Import Prelude.

(** ** Calls and their answers *)

Record passwd := PW { pw_name : option string; pw_uid : Z; pw_dir : string }.

(** The members of [struct termios] that the code touches, and the others. *)
Record termios := TIO {
  c_iflag : Z; c_oflag : Z; c_lflag : Z; cc_vmin : Z; cc_vtime : Z; tio_other : Z
}.

(** What [fstat] tells: the owner, whether it is a character device, the size. *)
Record stat := ST { st_uid : Z; st_ischr : bool; st_size : Z }.

(** The header of a control message: length, level, type and descriptor. *)
Record cmsghdr := CMSG { cmsg_len : Z; cmsg_level : Z; cmsg_type : Z; cmsg_data : Z }.

(** What [recvmsg] leaves in [struct msghdr], with the first header. *)
Record received := RCV { rcv_rc : Z; msg_controllen : Z; cmsg_firsthdr : option cmsghdr }.

Inductive oflag := O_RDONLY | O_WRONLY | O_RDWR.

(** The bodies of the threads that are started. *)
Inductive thread := pump_thread (input output : Z) | watch_sigwinch_thread (master slave : Z).

Inductive handler := SIG_DFL | SIG_IGN | H_sighandler.

Inductive call :=
| Getuid | Geteuid | Getgid | Getpid | Getppid
| Seteuid (uid : Z) | Setresgid (r e s : Z) | Setresuid (r e s : Z)
| Fork | Wait | Waitpid (pid : Z) | Execvp (file : string) (argv : list string)
| Umask (mask : Z) | Setsid | Chdir (path : string) | Getrlimit_nofile
| Unsetenv (name : string) | Setenv (name value : string) | Getenv (name : string)
| Getpwuid (uid : Z) | Getpwnam (name : string)
| Malloc (size : Z)
| Open (path : string) (flag : oflag) | Close (fd : Z) | Read (fd n : Z) | Write (fd : Z) (bytes : list Z)
| Readlink (path : string) (n : Z) | Fstat (fd : Z) | Access (path : string)
| Fcntl_getfd (fd : Z) | Fcntl_cloexec (fd : Z) | Dup (fd : Z) | Dup2 (old new : Z) | Isatty (fd : Z)
| Socket | Bind (fd : Z) (name : string) | Listen (fd backlog : Z) | Accept (fd : Z)
| Connect (fd : Z) (name : string) | Peercred (fd : Z)
| Recvmsg (fd : Z) | Sendmsg (fd : Z) (control : option Z)
| Unshare_newns | Mount (source target : option string) (flags : Z)
| Ptsname_r (fd n : Z) | Grantpt (fd : Z) | Unlockpt (fd : Z)
| Tcgetattr (fd : Z) | Tcsetattr (fd : Z) (t : termios)
| Sigaction (sig : Z) (h : handler) | Sigprocmask_block (sig : Z) | Sigwait (sig : Z) | Raise (sig : Z)
| Get_winsize (fd : Z) | Set_winsize (fd : Z) (w : Z * Z)
| Pthread_create (t : thread)
| Next_unix_line
| Set_title (title : string).

(** The type of an answer: a status or a value; [None] for a failed call whose
    result has no other meaning; [Malloc] answers whether there is memory,
    [Fcntl_getfd] its result with [errno], [Execvp] the error (it answers only
    when it fails), [Peercred] the status and the uid of the peer,
    [Next_unix_line] the last field of the next line of /proc/net/unix that
    [fscanf] could convert. *)
Definition answer (c : call) : Type :=
  match c with
  | Wait | Waitpid _ => Z * Z
  | Getrlimit_nofile => option Z
  | Getenv _ => option string
  | Getpwuid _ | Getpwnam _ => option passwd
  | Malloc _ => bool
  | Read _ _ | Readlink _ _ => option (list Z)
  | Fstat _ => option stat
  | Fcntl_getfd _ => Z * Z
  | Isatty _ | Access _ => bool
  | Peercred _ => Z * Z
  | Recvmsg _ => received
  | Ptsname_r _ _ => option string
  | Tcgetattr _ => option termios
  | Get_winsize _ => option (Z * Z)
  | Next_unix_line => option string
  | Set_title _ => ()
  | _ => Z
  end.

(** ** Processes *)

Inductive io (A : Type) : Type :=
| Return (a : A)
| Exits (status : Z)
| Undefined                                         (** undefined behaviour *)
| Unfinished                                        (** more iterations than the bound *)
| Do (c : call) (k : answer c → io A).
Arguments Return {A} a.
Arguments Exits {A} status.
Arguments Undefined {A}.
Arguments Unfinished {A}.
Arguments Do {A} c k.

Fixpoint io_bind {A B} (f : A → io B) (t : io A) : io B :=
  match t with
  | Return a => f a
  | Exits z => Exits z
  | Undefined => Undefined
  | Unfinished => Unfinished
  | Do c k => Do c (λ a, io_bind f (k a))
  end.

#[export] Instance io_mret : MRet io := @Return.
#[export] Instance io_mbind : MBind io := @io_bind.

(** The static variables of the program: those of daemon.c and pts.c, and what
    [getopt_long] keeps between calls. *)
Record globals := GL {
  is_daemon : bool; daemon_from_uid : Z; daemon_from_pid : Z;
  optind : Z; place : string;
  old_stdin : termios; stdin_is_raw : bool; closing_time : bool
}.

Definition termios_zero : termios := TIO 0 0 0 0 0 0.
Definition globals_init : globals := GL false 0 0 1 EmptyString termios_zero false false.

Definition set_is_daemon (b : bool) (g : globals) : globals :=
  GL b (daemon_from_uid g) (daemon_from_pid g) (optind g) (place g) (old_stdin g) (stdin_is_raw g) (closing_time g).
Definition set_daemon_from_uid (z : Z) (g : globals) : globals :=
  GL (is_daemon g) z (daemon_from_pid g) (optind g) (place g) (old_stdin g) (stdin_is_raw g) (closing_time g).
Definition set_daemon_from_pid (z : Z) (g : globals) : globals :=
  GL (is_daemon g) (daemon_from_uid g) z (optind g) (place g) (old_stdin g) (stdin_is_raw g) (closing_time g).
Definition set_getopt (i : Z) (p : string) (g : globals) : globals :=
  GL (is_daemon g) (daemon_from_uid g) (daemon_from_pid g) i p (old_stdin g) (stdin_is_raw g) (closing_time g).
Definition set_old_stdin (t : termios) (g : globals) : globals :=
  GL (is_daemon g) (daemon_from_uid g) (daemon_from_pid g) (optind g) (place g) t (stdin_is_raw g) (closing_time g).
Definition set_stdin_is_raw (b : bool) (g : globals) : globals :=
  GL (is_daemon g) (daemon_from_uid g) (daemon_from_pid g) (optind g) (place g) (old_stdin g) b (closing_time g).
Definition set_closing_time (b : bool) (g : globals) : globals :=
  GL (is_daemon g) (daemon_from_uid g) (daemon_from_pid g) (optind g) (place g) (old_stdin g) (stdin_is_raw g) b.

(** A function of the program: it reads and changes the static variables. *)
Definition proc (A : Type) : Type := globals → io (A * globals).

#[export] Instance proc_mret : MRet proc := λ A a g, Return (a, g).
#[export] Instance proc_mbind : MBind proc := λ A B f c g, io_bind (λ '(a, g'), f a g') (c g).

Definition sys (c : call) : proc (answer c) := λ g, Do c (λ a, Return (a, g)).
Definition exit {A} (status : Z) : proc A := λ _, Exits status.
Definition undefined {A} : proc A := λ _, Undefined.
Definition unfinished {A} : proc A := λ _, Unfinished.
Definition getg {A} (f : globals → A) : proc A := λ g, Return (f g, g).
Definition setg (f : globals → globals) : proc () := λ g, Return ((), f g).
Definition deref_p {A} (o : option A) : proc A := match o with Some a => mret a | None => undefined end.
Definition ignore {A} (p : proc A) : proc () := _ ← p; mret ().
Definition p_when (b : bool) (p : proc ()) : proc () := if b then p else mret ().

(** [while (...)] with at most [n] iterations: the body answers the result when
    the loop ends. *)
Fixpoint while_do {A} (n : nat) (body : proc (option A)) : proc A :=
  match n with
  | O => unfinished
  | S n' => r ← body; match r with Some a => mret a | None => while_do n' body end
  end.

(** ** Worlds *)

(** A world with states of type [W]: what a process may do, and what it is
    answered. *)
Record world (W : Type) := WORLD {
  may : W → call → Prop;
  answers : W → ∀ c, answer c → W → Prop
}.
Arguments WORLD {W}.
Arguments may {W}.
Arguments answers {W}.

(** The process makes only calls that it may make, returns with [Q] or exits
    with [X], and has no undefined behaviour; with [total] it also stays within
    the bounds of its loops. *)
Fixpoint io_wp {W A} (total : bool) (V : world W) (t : io A) (Q : A → W → Prop) (X : Z → W → Prop) (w : W) : Prop :=
  match t with
  | Return a => Q a w
  | Exits z => X z w
  | Undefined => False
  | Unfinished => total = false
  | Do c k => may V w c ∧ ∀ a w', answers V w c a w' → io_wp total V (k a) Q X w'
  end.

Definition pwp {W A} (total : bool) (V : world W) (p : proc A) (Q : A → globals → W → Prop) (X : Z → W → Prop)
    (g : globals) (w : W) : Prop :=
  io_wp total V (p g) (λ '(a, g') w', Q a g' w') X w.

Section wp_rules.
Context {W : Type} (b : bool) (V : world W).

Lemma io_wp_bind {A B} (t : io A) (f : A → io B) Q X w :
  io_wp b V (io_bind f t) Q X w ↔ io_wp b V t (λ a, io_wp b V (f a) Q X) X w.
Proof.
  revert w. induction t as [a|z| | |c k IH]; intros w; cbn; [done..|].
  split; intros [Hm H]; (split; [done|]); intros a w' Ha; by apply IH, H.
Qed.

Lemma io_wp_mono {A} (t : io A) (Q Q' : A → W → Prop) (X X' : Z → W → Prop) w :
  (∀ a w, Q a w → Q' a w) → (∀ z w, X z w → X' z w) → io_wp b V t Q X w → io_wp b V t Q' X' w.
Proof.
  intros HQ HX. revert w. induction t as [a|z| | |c k IH]; intros w; cbn; [by auto..|]. intros [Hm H]. split; [done|].
  intros a w' Ha. by apply IH, H.
Qed.

Lemma pwp_bind {A B} (p : proc A) (f : A → proc B) Q X g w :
  pwp b V p (λ a g w, pwp b V (f a) Q X g w) X g w → pwp b V (p ≫= f) Q X g w.
Proof.
  intros H. unfold pwp, mbind, proc_mbind. apply io_wp_bind. eapply io_wp_mono; [|done|exact H].
  by intros [a g'] w'.
Qed.

Lemma pwp_mono {A} (p : proc A) (Q Q' : A → globals → W → Prop) (X X' : Z → W → Prop) g w :
  (∀ a g w, Q a g w → Q' a g w) → (∀ z w, X z w → X' z w) → pwp b V p Q X g w → pwp b V p Q' X' g w.
Proof. intros HQ HX. apply io_wp_mono; [|done]. by intros [a g'] w' ?%HQ. Qed.

Lemma pwp_ret {A} (a : A) (Q : A → globals → W → Prop) X g w : Q a g w → pwp b V (mret a) Q X g w.
Proof. done. Qed.

Lemma pwp_exit {A} z (Q : A → globals → W → Prop) (X : Z → W → Prop) g w : X z w → pwp b V (exit z) Q X g w.
Proof. done. Qed.

Lemma pwp_sys c (Q : answer c → globals → W → Prop) X g w :
  may V w c → (∀ a w', answers V w c a w' → Q a g w') → pwp b V (sys c) Q X g w.
Proof. intros Hm H. split; [done|]. intros a w'. apply H. Qed.

Lemma pwp_sys_bind {A} c (f : answer c → proc A) Q X g w :
  may V w c → (∀ a w', answers V w c a w' → pwp b V (f a) Q X g w') → pwp b V (sys c ≫= f) Q X g w.
Proof. intros Hm H. apply pwp_bind, pwp_sys; done. Qed.

Lemma pwp_getg {A} (f : globals → A) (Q : A → globals → W → Prop) X g w : Q (f g) g w → pwp b V (getg f) Q X g w.
Proof. done. Qed.

Lemma pwp_setg f (Q : () → globals → W → Prop) X g w : Q () (f g) w → pwp b V (setg f) Q X g w.
Proof. done. Qed.

Lemma pwp_deref {A} (o : option A) a (Q : A → globals → W → Prop) X g w :
  o = Some a → Q a g w → pwp b V (deref_p o) Q X g w.
Proof. by intros ->. Qed.

Lemma pwp_ignore {A} (p : proc A) (Q : () → globals → W → Prop) X g w :
  pwp b V p (λ _ g w, Q () g w) X g w → pwp b V (ignore p) Q X g w.
Proof. intros H. apply pwp_bind. eapply pwp_mono; [|done|exact H]. done. Qed.

(** A loop with an invariant and a measure that stays below the bound. *)
Lemma pwp_while {A} (body : proc (option A)) (I : nat → globals → W → Prop) Q X :
  (∀ m g w, I m g w → pwp b V body (λ r g w, match r with Some a => Q a g w | None => ∃ m', (m' < m)%nat ∧ I m' g w end) X g w) →
  ∀ n m g w, (m < n)%nat → I m g w → pwp b V (while_do n body) Q X g w.
Proof.
  intros Hb n. induction n as [|n IH]; intros m g w Hn HI; [lia|]. cbn [while_do]. apply pwp_bind.
  eapply pwp_mono; [|done|by apply Hb]. intros [a|] g' w' H; [done|]. destruct H as (m'&Hm&H). by apply (IH m'); [lia|].
Qed.

(** Without a measure, when only safety is of interest. *)
Lemma pwp_while_inv {A} (body : proc (option A)) (I : globals → W → Prop) Q X :
  b = false →
  (∀ g w, I g w → pwp b V body (λ r g w, match r with Some a => Q a g w | None => I g w end) X g w) →
  ∀ n g w, I g w → pwp b V (while_do n body) Q X g w.
Proof.
  intros Hf Hb n. induction n as [|n IH]; intros g w HI; [done|]. cbn [while_do]. apply pwp_bind.
  eapply pwp_mono; [|done|by apply Hb]. intros [a|] g' w' H; [done|]. by apply IH.
Qed.
End wp_rules.

(** One step of a process whose next call is known; the answers are introduced. *)
Ltac pstep :=
  match goal with
  | |- pwp _ _ (mret _) _ _ _ _ => apply pwp_ret
  | |- pwp _ _ (exit _) _ _ _ _ => apply pwp_exit
  | |- pwp _ _ (sys _) _ _ _ _ => apply pwp_sys
  | |- pwp _ _ (getg _) _ _ _ _ => apply pwp_getg
  | |- pwp _ _ (setg _) _ _ _ _ => apply pwp_setg
  | |- pwp _ _ (ignore _) _ _ _ _ => apply pwp_ignore
  | |- pwp _ _ (sys _ ≫= _) _ _ _ _ => apply pwp_sys_bind
  | |- pwp _ _ (_ ≫= _) _ _ _ _ => apply pwp_bind
  end.

(** ** Running a process against given answers *)

(** The run in which every call is answered by [o]: it ends in one of the first
    four constructors. *)
Fixpoint drive {A} (o : ∀ c, answer c) (t : io A) : io A :=
  match t with
  | Do c k => drive o (k (o c))
  | _ => t
  end.

Lemma drive_bind {A B} o (t : io A) (f : A → io B) a : drive o t = Return a → drive o (io_bind f t) = drive o (f a).
Proof. induction t as [a'|z| | |c k IH]; cbn; [by intros [= ->]|done..|]. intros H. by apply IH. Qed.

Lemma drive_proc {A B} o (p : proc A) (f : A → proc B) g a g' :
  drive o (p g) = Return (a, g') → drive o ((p ≫= f) g) = drive o (f a g').
Proof. intros H. unfold mbind, proc_mbind. by erewrite drive_bind by done. Qed.

Lemma drive_undefined {A B} o (p : proc A) (f : A → proc B) g :
  drive o (p g) = Undefined → drive o ((p ≫= f) g) = Undefined.
Proof. unfold mbind, proc_mbind. induction (p g) as [a'|z| | |c k IH]; cbn; [done..|]. intros H. by apply IH. Qed.

(** What the weakest precondition says of a run whose answers the world allows. *)
Lemma drive_sound {W A} b (V : world W) (t : io A) Q X o w :
  (∀ w c, may V w c → ∃ w', answers V w c (o c) w') → io_wp b V t Q X w →
  match drive o t with
  | Return a => ∃ w, Q a w
  | Exits z => ∃ w, X z w
  | Undefined => False
  | Unfinished => b = false
  | Do _ _ => False
  end.
Proof.
  intros Ho. revert w. induction t as [a|z| | |c k IH]; intros w; cbn; [by eauto..|]. intros [Hm H].
  destruct (Ho w c Hm) as [w' Hw]. by eapply IH, H.
Qed.
