(* ===== verification/Getopt.v ===== *)
(** * Command lines: [getopt_long], [strtoul]

    The functions of the C library that su.c applies to its arguments. *)

From stdpp Require Import pretty.
From S2P Require Import Prelude Policyfile Process.

(** ** Strings *)

Definition tail_string (s : string) : string := match s with String _ s' => s' | EmptyString => EmptyString end.

Fixpoint is_prefix (p s : string) : bool :=
  match p, s with
  | EmptyString, _ => true
  | String a p', String b s' => Ascii.eqb a b && is_prefix p' s'
  | _, _ => false
  end.

Definition isspace (c : ascii) : bool :=
  let b := byte_of c in (b =? 32) || ((9 <=? b) && (b <=? 13)).

Definition is_digit (c : ascii) : bool := let b := byte_of c in (48 <=? b) && (b <=? 57).

Fixpoint skip_space (s : string) : string :=
  match s with String c s' => if isspace c then skip_space s' else s | EmptyString => EmptyString end.

(** The value of the leading digits, unbounded, and what follows them. *)
Fixpoint digits_from (v : Z) (s : string) : Z * string :=
  match s with
  | String c s' => if is_digit c then digits_from (10 * v + (byte_of c - 48)) s' else (v, s)
  | EmptyString => (v, EmptyString)
  end.

(** [strtoul(s, &endptr, 10)] with a 32-bit [unsigned long]: the value, whether
    [errno] becomes ERANGE, and the string at [endptr]. *)
Definition strtoul (s : string) : Z * bool * string :=
  let t := skip_space s in
  let '(neg, t) := match t with
                   | String "-" t' => (true, t')
                   | String "+" t' => (false, t')
                   | _ => (false, t)
                   end in
  match t with
  | String c _ =>
      if is_digit c then
        let '(v, rest) := digits_from 0 t in
        if v <? 2 ^ 32 then (if neg : bool then u32 (- v) else v, false, rest) else (2 ^ 32 - 1, true, rest)
      else (0, false, s)
  | EmptyString => (0, false, s)
  end.

(** [%u] and [%d] of a number that is not negative. *)
Definition show_u (z : Z) : string := pretty (Z.to_N (u32 z)).

(** ** [getopt_long]

    A call answers the end of the options, or an option with its argument; an
    unknown, ambiguous or incomplete option is ['?']. The short options start
    with [+]: the first argument that is no option ends them. [place] is what
    remains of a group of short options. *)

Record long_option := LO { lo_name : string; lo_arg : bool; lo_val : ascii }.

(** Whether the short option is known, and takes an argument. *)
Fixpoint short_option (shorts : string) (c : ascii) : option bool :=
  match shorts with
  | EmptyString => None
  | String a s' =>
      if Ascii.eqb a c && negb (Ascii.eqb c ":") then
        Some (match s' with String b _ => Ascii.eqb b ":" | EmptyString => false end)
      else short_option s' c
  end.

(** An exact name, or the only option with the prefix. *)
Definition find_long (longs : list long_option) (name : string) : option long_option :=
  match find (λ o, String.eqb (lo_name o) name) longs with
  | Some o => Some o
  | None => match List.filter (λ o, is_prefix name (lo_name o)) longs with [o] => Some o | _ => None end
  end.

Definition opt : Type := option (ascii * option string).

Definition bad_option : opt := Some ("?"%char, None).

Definition argv_at (argv : list (option string)) (i : Z) : proc string :=
  s ← deref_p (at_index argv i); deref_p s.

(** [arg] is what follows [--] in the argument at [optind]. *)
Definition getopt_one_long (argc : Z) (argv : list (option string)) (longs : list long_option) (arg : string) : proc opt :=
  let '(name, rest) := span_until (Ascii.eqb "=") arg in
  i ← getg optind;
  _ ← setg (set_getopt (i + 1) EmptyString);
  match find_long longs name, rest with
  | None, _ => mret bad_option
  | Some o, String _ v => mret (if lo_arg o then Some (lo_val o, Some v) else bad_option)
  | Some o, EmptyString =>
      if lo_arg o then
        if argc <=? i + 1 then mret bad_option
        else v ← argv_at argv (i + 1); _ ← setg (set_getopt (i + 2) EmptyString); mret (Some (lo_val o, Some v))
      else mret (Some (lo_val o, None))
  end.

(** The next short option of the group [c rest]. *)
Definition getopt_one_short (argc : Z) (argv : list (option string)) (shorts : string) (c : ascii) (rest : string) : proc opt :=
  i ← getg optind;
  let next := if bool_decide (rest = EmptyString) then i + 1 else i in
  match short_option shorts c with
  | None => _ ← setg (set_getopt next rest); mret bad_option
  | Some false => _ ← setg (set_getopt next rest); mret (Some (c, None))
  | Some true =>
      if negb (bool_decide (rest = EmptyString)) then
        _ ← setg (set_getopt (i + 1) EmptyString); mret (Some (c, Some rest))
      else if argc <=? i + 1 then _ ← setg (set_getopt (i + 1) EmptyString); mret bad_option
      else v ← argv_at argv (i + 1); _ ← setg (set_getopt (i + 2) EmptyString); mret (Some (c, Some v))
  end.

Definition getopt_long (argc : Z) (argv : list (option string)) (shorts : string) (longs : list long_option) : proc opt :=
  p ← getg place;
  match p with
  | String c rest => getopt_one_short argc argv shorts c rest
  | EmptyString =>
      i ← getg optind;
      if argc <=? i then mret None
      else
        s ← argv_at argv i;
        match s with
        | String "-" (String "-" EmptyString) => _ ← setg (set_getopt (i + 1) EmptyString); mret None
        | String "-" (String "-" arg) => getopt_one_long argc argv longs arg
        | String "-" (String c rest) => getopt_one_short argc argv shorts c rest
        | _ => mret None
        end
  end.
