(* ===== verification/Pts.v ===== *)
(** * Pseudo terminals (su/pts.c) *)

From S2P Require Import Prelude Policyfile Process.

Definition STDIN_FILENO : Z := 0.
Definition STDOUT_FILENO : Z := 1.
Definition STDERR_FILENO : Z := 2.

Definition SIGHUP : Z := 1.
Definition SIGINT : Z := 2.
Definition SIGQUIT : Z := 3.
Definition SIGPIPE : Z := 13.
Definition SIGALRM : Z := 14.
Definition SIGTERM : Z := 15.
Definition SIGWINCH : Z := 28.

(** ** Copying *)

(** [n] bounds the number of [write] calls; the bytes not yet written are the
    loop state. A write of no bytes is repeated. *)
Fixpoint write_blocking (n : nat) (fd : Z) (buf : list Z) : proc Z :=
  match n with
  | O => unfinished
  | S n' =>
      ret ← sys (Write fd buf);
      if (ret : Z) =? -1 then mret (-1)
      else
        let rest := drop (Z.to_nat ret) buf in
        match rest with [] => mret 0 | _ => write_blocking n' fd rest end
  end.

(** One iteration of the loop of [pump_ex]. *)
Definition pump_step (n : nat) (input output : Z) : proc (option ()) :=
  buf ← sys (Read input 4096);
  match buf with
  | None | Some [] => mret (Some ())
  | Some l => rc ← write_blocking n output l; mret (if rc =? -1 then Some () else None)
  end.

Definition pump_ex (n : nat) (input output : Z) (close_output : bool) : proc () :=
  _ ← while_do n (pump_step n input output);
  _ ← sys (Close input);
  p_when close_output (ignore (sys (Close output))).

Definition pump (n : nat) (input output : Z) : proc () := pump_ex n input output true.

Definition pump_thread_body (n : nat) (input output : Z) : proc () := pump n input output.

Definition pump_async (input output : Z) : proc () :=
  ok ← sys (Malloc 8);
  if negb ok then exit (-1) else ignore (sys (Pthread_create (pump_thread input output))).

(** ** Opening a terminal *)

Definition pts_open (slave_name_size : Z) : proc (Z * string) :=
  fdm ← sys (Open "/dev/ptmx" O_RDWR);
  if (fdm : Z) =? -1 then mret (-1, EmptyString)
  else
    name ← sys (Ptsname_r fdm slave_name_size);
    match name with
    | None => _ ← sys (Close fdm); mret (-2, EmptyString)
    | Some name =>
        if slave_name_size <=? strlen name then mret (-1, EmptyString)
        else
          rc ← sys (Grantpt fdm);
          if (rc : Z) =? -1 then _ ← sys (Close fdm); mret (-1, name)
          else
            rc ← sys (Unlockpt fdm);
            if (rc : Z) =? -1 then _ ← sys (Close fdm); mret (-1, name)
            else mret (fdm, name)
    end.

(** ** Raw mode *)

Definition IGNPAR : Z := 0x4.
Definition ISTRIP : Z := 0x20.
Definition INLCR : Z := 0x40.
Definition IGNCR : Z := 0x80.
Definition ICRNL : Z := 0x100.
Definition IXON : Z := 0x400.
Definition IXANY : Z := 0x800.
Definition IXOFF : Z := 0x1000.
Definition ISIG : Z := 0x1.
Definition ICANON : Z := 0x2.
Definition ECHO : Z := 0x8.
Definition ECHOE : Z := 0x10.
Definition ECHOK : Z := 0x20.
Definition ECHONL : Z := 0x40.
Definition OPOST : Z := 0x1.

Definition flags_or (l : list Z) : Z := fold_left Z.lor l 0.

Definition raw (t : termios) : termios :=
  TIO (Z.land (Z.lor (c_iflag t) IGNPAR) (not32 (flags_or [ISTRIP; INLCR; IGNCR; ICRNL; IXON; IXANY; IXOFF])))
      (Z.land (c_oflag t) (not32 OPOST))
      (Z.land (c_lflag t) (not32 (flags_or [ISIG; ICANON; ECHO; ECHOE; ECHOK; ECHONL])))
      1 0 (tio_other t).

Definition set_stdin_raw : proc Z :=
  t ← sys (Tcgetattr STDIN_FILENO);
  match t with
  | None => mret (-1)
  | Some t =>
      _ ← setg (set_old_stdin t);
      rc ← sys (Tcsetattr STDIN_FILENO (raw t));
      if (rc : Z) <? 0 then mret (-1) else _ ← setg (set_stdin_is_raw true); mret 0
  end.

Definition restore_stdin : proc Z :=
  r ← getg stdin_is_raw;
  if negb r then mret 0
  else
    t ← getg old_stdin;
    rc ← sys (Tcsetattr STDIN_FILENO t);
    if (rc : Z) <? 0 then mret (-1) else _ ← setg (set_stdin_is_raw false); mret 0.

(** ** The size of the window *)

(** One iteration of the loop of [watch_sigwinch]. *)
Definition watch_step (master slave : Z) : proc (option ()) :=
  _ ← sys (Sigwait SIGWINCH);
  c ← getg closing_time;
  if (c : bool) then mret (Some ())
  else
    w ← sys (Get_winsize master);
    match w with
    | None => mret None
    | Some w => _ ← sys (Set_winsize slave w); mret None
    end.

Definition watch_sigwinch (n : nat) (master slave : Z) : proc () := while_do n (watch_step master slave).

Definition watch_sigwinch_async (master slave : Z) : proc Z :=
  ok ← sys (Malloc 8);
  if negb ok then mret (-1)
  else
    rc ← sys (Sigprocmask_block SIGWINCH);
    if (rc : Z) =? -1 then mret (-1)
    else
      _ ← setg (set_closing_time false);
      ret ← sys (Pthread_create (watch_sigwinch_thread master slave));
      if negb ((ret : Z) =? 0) then mret (-1) else _ ← sys (Raise SIGWINCH); mret 0.

Definition watch_sigwinch_cleanup : proc () :=
  _ ← setg (set_closing_time true); ignore (sys (Raise SIGWINCH)).

Definition pump_stdin_async (outfd : Z) : proc () :=
  _ ← set_stdin_raw; pump_async STDIN_FILENO outfd.

Definition pump_stdout_blocking (n : nat) (infd : Z) : proc () :=
  _ ← pump_ex n infd STDOUT_FILENO false;
  _ ← restore_stdin;
  watch_sigwinch_cleanup.
