(* ===== verification/PtsFacts.v ===== *)
(** * Copying and terminals

    What the loops of pts.c copy, and the mode of the terminal. *)

From S2P Require Import Prelude Policyfile Process Pts.

(** ** Copying *)

(** The input holds the bytes [w.1], the output has taken [w.2]. A read answers
    the next bytes, none at the end; a write takes some bytes, or fails unless the
    output is [reliable]. *)
Definition pumping (reliable : bool) (input output : Z) : world (list Z * list Z) :=
  WORLD (λ _ _, True)
    (λ w c, match c return answer c → list Z * list Z → Prop with
            | Read fd n => λ a w',
                if fd =? input then
                  match a with
                  | Some l => ∃ r, w.1 = l ++ r ∧ Z.of_nat (length l) <= n ∧ w' = (r, w.2) ∧ (l = [] → r = [])
                  | None => reliable = false ∧ w' = w
                  end
                else w' = w
            | Write fd bs => λ a w',
                if fd =? output then
                  (1 <= a <= Z.of_nat (length bs) ∧ w' = (w.1, w.2 ++ take (Z.to_nat a) bs)) ∨
                  (reliable = false ∧ a = -1 ∧ w' = w)
                else w' = w
            | _ => λ _ w', w' = w
            end).

Section pumping.
Context (reliable : bool) (input output : Z).
Abbreviation V := (pumping reliable input output).
Abbreviation X := (λ (_ : Z) (_ : list Z * list Z), False).

Lemma write_blocking_spec n : ∀ buf (Q : Z → globals → list Z * list Z → Prop) g r out,
  buf ≠ [] → (length buf <= n)%nat → Q 0 g (r, out ++ buf) →
  (∀ k, reliable = false → Q (-1) g (r, out ++ take k buf)) →
  pwp true V (write_blocking n output buf) Q X g (r, out).
Proof.
  induction n as [|n IH]; intros buf Q g r out Hb Hn H0 H1; [destruct buf; [done|cbn in Hn; lia]|]. cbn [write_blocking].
  apply pwp_sys_bind; [done|]. intros a w' H. cbn [pumping answers] in H. rewrite Z.eqb_refl in H. cbn [fst snd] in H.
  destruct H as [[Ha ->]|(Hr&->&->)].
  2:{ specialize (H1 0%nat Hr). rewrite take_0, app_nil_r in H1. exact H1. }
  rewrite (proj2 (Z.eqb_neq _ _)) by lia. destruct (drop (Z.to_nat a) buf) as [|b rest] eqn:Hd.
  - apply pwp_ret. rewrite <- (take_drop (Z.to_nat a) buf), Hd, app_nil_r in H0. done.
  - apply IH; [done| | |].
    + rewrite <- Hd, length_drop. lia.
    + by rewrite <- Hd, <- app_assoc, take_drop.
    + intros k Hr. rewrite <- app_assoc, <- Hd.
      assert (take (Z.to_nat a) buf ++ take k (drop (Z.to_nat a) buf) = take (Z.to_nat a + k) buf) as ->; [|by apply H1].
      rewrite <- (take_drop (Z.to_nat a) buf) at 3. rewrite take_app_add'; [done|]. rewrite length_take. lia.
Qed.

(** The data was copied up to some point, and to its end if nothing failed. *)
Definition copied (data : list Z) (w : list Z * list Z) : Prop :=
  ∃ k, w.2 = take k data ∧ (reliable = true → w.2 = data ∧ w.1 = []).

Lemma pump_loop_spec data n g : (length data < n)%nat →
  pwp true V (while_do n (pump_step n input output)) (λ _ g' w, g' = g ∧ copied data w) X g (data, []).
Proof.
  intros Hn. set (I := λ m g' (w : list Z * list Z), g' = g ∧ data = w.2 ++ w.1 ∧ m = length w.1).
  apply (pwp_while true V _ I _ _) with (m := length data); [|done|done].
  intros m g' [r out] (->&Hd&->). cbn [fst snd] in *. unfold pump_step. apply pwp_sys_bind; [done|]. intros a w' H.
  cbn [pumping answers] in H. rewrite Z.eqb_refl in H. cbn [fst snd] in H. destruct a as [l|].
  - destruct H as (r'&->&_&->&He). destruct l as [|b l].
    + apply pwp_ret. split; [done|]. rewrite (He eq_refl) in Hd. rewrite app_nil_r in Hd. subst out. exists (length data).
      by rewrite firstn_all, (He eq_refl).
    + apply pwp_bind, write_blocking_spec; [done| | |].
      * subst data. rewrite !length_app in Hn. cbn [length] in *. lia.
      * apply pwp_ret. exists (length r'). split; [rewrite length_app; cbn [length]; lia|]. split; [done|]. split; [|done].
        cbn [fst snd]. rewrite <- app_assoc. exact Hd.
      * intros k Hr. apply pwp_ret. split; [done|]. exists (length out + k `min` length (b :: l))%nat. cbn [fst snd].
        split; [|by intros Ht; rewrite Ht in Hr]. subst data. rewrite take_app_add. f_equal.
        destruct (decide (k <= length (b :: l))%nat).
        -- rewrite Nat.min_l by lia. by rewrite take_app_le.
        -- rewrite Nat.min_r by lia. by rewrite take_app_length, take_ge by lia.
  - destruct H as [Hr ->]. apply pwp_ret. split; [done|]. exists (length out). cbn [fst snd]. subst data. rewrite take_app_length.
    split; [done|]. by rewrite Hr.
Qed.
End pumping.

(** ** The mode of the terminal *)

(** The terminal of the standard input is in the mode [w]; reading and setting
    it may fail. *)
Definition on_terminal : world termios :=
  WORLD (λ _ _, True)
    (λ w c, match c return answer c → termios → Prop with
            | Tcgetattr fd => λ a w', w' = w ∧ (a = None ∨ (fd = STDIN_FILENO → a = Some w))
            | Tcsetattr fd t => λ a w', (a < 0 ∧ w' = w) ∨ (0 <= a ∧ w' = if fd =? STDIN_FILENO then t else w)
            | _ => λ _ w', w' = w
            end).

Lemma set_stdin_raw_spec (Q : Z → globals → termios → Prop) X g t :
  (∀ g', stdin_is_raw g' = true → old_stdin g' = t → Q 0 g' (raw t)) →
  (∀ g', stdin_is_raw g' = stdin_is_raw g → Q (-1) g' t) →
  pwp true on_terminal set_stdin_raw Q X g t.
Proof.
  intros H0 H1. unfold set_stdin_raw. apply pwp_sys_bind; [done|]. intros a w' [-> Ha]. destruct a as [t'|]; [|by apply pwp_ret, H1].
  destruct Ha as [[=]|Ha]. injection (Ha eq_refl) as ->. apply pwp_bind, pwp_setg, pwp_sys_bind; [done|]. intros rc w' Hrc. cbn [on_terminal answers] in Hrc.
  destruct Hrc as [[Hr ->]|[Hr ->]].
  - rewrite (proj2 (Z.ltb_lt _ _)) by done. by apply pwp_ret, H1.
  - rewrite (proj2 (Z.ltb_ge _ _)) by done. by apply pwp_bind, pwp_setg, pwp_ret, H0.
Qed.

Lemma restore_stdin_spec (Q : Z → globals → termios → Prop) X g t :
  (stdin_is_raw g = false → Q 0 g t) →
  (stdin_is_raw g = true → (∀ g', stdin_is_raw g' = false → Q 0 g' (old_stdin g)) ∧ Q (-1) g t) →
  pwp true on_terminal restore_stdin Q X g t.
Proof.
  intros H0 H1. unfold restore_stdin. apply pwp_bind, pwp_getg. destruct (stdin_is_raw g) eqn:Hr; cbn [negb]; [|by apply pwp_ret, H0].
  destruct (H1 eq_refl) as [Hok Herr]. apply pwp_bind, pwp_getg, pwp_sys_bind; [done|]. intros rc w' Hrc. cbn [on_terminal answers] in Hrc.
  destruct Hrc as [[Hn ->]|[Hn ->]].
  - rewrite (proj2 (Z.ltb_lt _ _)) by done. by apply pwp_ret.
  - rewrite (proj2 (Z.ltb_ge _ _)) by done. apply pwp_bind, pwp_setg, pwp_ret. by apply Hok.
Qed.
