(* ===== verification/Daemon.v ===== *)
(** * Client and daemon (su/daemon.c)

    The protocol between the client [connect_daemon] and the daemon
    [daemon_accept], and the life of the process that runs the command. The
    parts of daemon.c that call [su_main] take it as an argument. *)

From S2P Require Import Prelude Policyfile Process Getopt Pts.

Definition PATH_MAX : Z := 4096.
Definition DAEMON_SOCKET_NAME : string := "me.jpacg.su.daemon.993".
Definition ATTY_IN : Z := 1.
Definition ATTY_OUT : Z := 2.
Definition ATTY_ERR : Z := 4.

Definition EBADF : Z := 9.
Definition SOL_SOCKET : Z := 1.
Definition SCM_RIGHTS : Z := 1.

(** [CMSG_LEN(sizeof(int))] and [CMSG_SPACE(sizeof(int))]: a header of 12 bytes and 4 bytes. *)
Definition CMSG_LEN_INT : Z := 16.
Definition CMSG_SPACE_INT : Z := 16.

(** ** Descriptors, numbers and strings *)

Definition recv_fd (sockfd : Z) : proc Z :=
  m ← sys (Recvmsg sockfd);
  if negb (rcv_rc m =? 1) then exit (-1)
  else if msg_controllen m =? 0 then mret (-1)
  else if negb (msg_controllen m =? CMSG_SPACE_INT) then exit (-1)
  else
    match cmsg_firsthdr m with
    | None => exit (-1)
    | Some c =>
        if negb (cmsg_len c =? CMSG_LEN_INT) || negb (cmsg_level c =? SOL_SOCKET) || negb (cmsg_type c =? SCM_RIGHTS)
        then exit (-1)
        else mret (cmsg_data c)
    end.

Definition send_fd (sockfd fd : Z) : proc () :=
  control ←
    (if fd =? -1 then mret None
     else
       r ← sys (Fcntl_getfd fd);
       if r.1 =? -1 then if negb (r.2 =? EBADF) then exit (-1) else mret None
       else mret (Some fd));
  rc ← sys (Sendmsg sockfd control);
  if negb ((rc : Z) =? 1) then exit (-1) else mret ().

Definition read_int (fd : Z) : proc Z :=
  val ← sys (Read fd 4);
  match val with
  | Some l => if (length l =? 4)%nat then mret (s32 (le_value l)) else exit (-1)
  | None => exit (-1)
  end.

Definition write_int (fd val : Z) : proc () :=
  written ← sys (Write fd (le_bytes 4 val));
  if negb ((written : Z) =? 4) then exit (-1) else mret ().

Definition read_string (fd : Z) : proc string :=
  len ← read_int fd;
  if (PATH_MAX <? len) || (len <? 0) then exit (-1)
  else
    ok ← sys (Malloc (len + 1));
    if negb ok then exit (-1)
    else
      val ← sys (Read fd len);
      match val with
      | Some l => if Z.of_nat (length l) =? len then mret (string_of_bytes l) else exit (-1)
      | None => exit (-1)
      end.

Definition write_string (fd : Z) (val : string) : proc () :=
  _ ← write_int fd (strlen val);
  written ← sys (Write fd (string_bytes val));
  if negb ((written : Z) =? strlen val) then exit (-1) else mret ().

(** ** The storage of the user *)

Definition MULTIUSER_APP_PER_USER_RANGE : Z := 100000.
Definition multiuser_get_user_id (uid : Z) : Z := u32 uid / MULTIUSER_APP_PER_USER_RANGE.

Definition MS_BIND : Z := 4096.
Definition MS_REC : Z := 16384.
Definition MS_SLAVE : Z := 524288.

(** What [snprintf] leaves in a buffer of [size] characters. *)
Definition snprintf (size : Z) (s : string) : string := String.substring 0 (Z.to_nat (size - 1)) s.

Definition mount_emulated_storage (user_id : Z) : proc () :=
  source ← sys (Getenv "EMULATED_STORAGE_SOURCE");
  target ← sys (Getenv "EMULATED_STORAGE_TARGET");
  legacy ← sys (Getenv "EXTERNAL_STORAGE");
  match source, target with
  | Some _, Some t =>
      rc ← sys Unshare_newns;
      if (rc : Z) <? 0 then mret ()
      else
        rc ← sys (Mount (Some "rootfs"%string) (Some "/"%string) (Z.lor MS_SLAVE MS_REC));
        if (rc : Z) <? 0 then mret ()
        else
          _ ← sys (Mount source target MS_BIND);
          let target_user := snprintf PATH_MAX (t ++ "/" ++ show_u user_id) in
          ignore (sys (Mount (Some target_user) legacy (Z.lor MS_BIND MS_REC)))
  | _, _ => mret ()
  end.

(** ** The request *)

Record request := RQ {
  rq_pid : Z; rq_pts : string; rq_uid : Z; rq_mount : Z;
  rq_infd : Z; rq_outfd : Z; rq_errfd : Z; rq_argc : Z; rq_argv : list (option string)
}.

Fixpoint read_strings (n : nat) (fd : Z) : proc (list (option string)) :=
  match n with
  | O => mret [None]
  | S n' => s ← read_string fd; l ← read_strings n' fd; mret (Some s :: l)
  end.

(** [daemon_accept] up to the acknowledgement. *)
Definition receive_request (fd : Z) : proc request :=
  _ ← setg (set_is_daemon true);
  pid ← read_int fd;
  pts_slave ← read_string fd;
  from_pid ← read_int fd;
  _ ← setg (set_daemon_from_pid from_pid);
  cred ← sys (Peercred fd);
  if negb (cred.1 =? 0) then exit (-1)
  else
    _ ← setg (set_daemon_from_uid (s32 cred.2));
    mount_storage ← read_int fd;
    infd ← recv_fd fd;
    outfd ← recv_fd fd;
    errfd ← recv_fd fd;
    argc ← read_int fd;
    if (argc <? 0) || (512 <? argc) then exit (-1)
    else
      ok ← sys (Malloc (4 * (argc + 1)));
      if negb ok then undefined
      else
        argv ← read_strings (Z.to_nat argc) fd;
        _ ← write_int fd 1;
        mret (RQ pid pts_slave cred.2 mount_storage infd outfd errfd argc argv).

Definition WEXITSTATUS (status : Z) : Z := Z.shiftr (Z.land status 0xff00) 8.

(** The process that waits for the child, and passes its exit code on. *)
Definition await_child (fd child : Z) : proc Z :=
  r ← sys (Waitpid child);
  let code := if 0 <? r.1 then WEXITSTATUS r.2 else -1 in
  g ← sys (Fcntl_getfd fd);
  if (g.1 =? -1) && negb (g.2 =? EBADF) then mret code
  else
    _ ← sys (Write fd (le_bytes 4 code));
    _ ← sys (Close fd);
    mret code.

(** The terminal of the child: it has to be a device of the caller. *)
Definition open_pts (r : request) : proc (Z * Z * Z) :=
  if bool_decide (rq_pts r = EmptyString) then mret (rq_infd r, rq_outfd r, rq_errfd r)
  else
    ptsfd ← sys (Open (rq_pts r) O_RDWR);
    if (ptsfd : Z) =? -1 then exit (-1)
    else
      st ← sys (Fstat ptsfd);
      match st with
      | None => exit (-1)
      | Some st =>
          if negb (st_uid st =? rq_uid r) then exit (-1)
          else if negb (st_ischr st) then exit (-1)
          else
            let or_pts z := if z <? 0 then ptsfd else z in
            mret (or_pts (rq_infd r), or_pts (rq_outfd r), or_pts (rq_errfd r))
      end.

Section su_main.
Context (su_main : Z → list (option string) → bool → proc Z).

Definition run_daemon_child (infd outfd errfd argc : Z) (argv : list (option string)) : proc Z :=
  rc ← sys (Dup2 outfd STDOUT_FILENO);
  if (rc : Z) =? -1 then exit (-1)
  else
    rc ← sys (Dup2 errfd STDERR_FILENO);
    if (rc : Z) =? -1 then exit (-1)
    else
      rc ← sys (Dup2 infd STDIN_FILENO);
      if (rc : Z) =? -1 then exit (-1)
      else
        _ ← sys (Close infd);
        _ ← sys (Close outfd);
        _ ← sys (Close errfd);
        su_main argc argv false.

(** The child of the daemon. *)
Definition serve_request (fd : Z) (r : request) : proc Z :=
  _ ← sys (Close fd);
  _ ← sys Setsid;
  '(infd, outfd, errfd) ← open_pts r;
  from_uid ← getg daemon_from_uid;
  _ ← p_when (negb (rq_mount r =? 0)) (mount_emulated_storage (multiuser_get_user_id from_uid));
  run_daemon_child infd outfd errfd (rq_argc r) (rq_argv r).

Definition daemon_accept (fd : Z) : proc Z :=
  r ← receive_request fd;
  child ← sys Fork;
  if (child : Z) <? 0 then
    _ ← sys (Write fd (le_bytes 4 child));
    _ ← sys (Close fd);
    mret child
  else if negb (child =? 0) then await_child fd child
  else serve_request fd r.

(** [fork_zero_fucks] (su.c): the child is an orphan. *)
Definition fork_zero_fucks : proc Z :=
  pid ← sys Fork;
  if negb ((pid : Z) =? 0) then _ ← sys (Waitpid pid); mret pid
  else
    pid ← sys Fork;
    if negb ((pid : Z) =? 0) then exit 0 else mret 0.

(** One iteration of the loop of the daemon. *)
Definition accept_step (fd : Z) : proc (option Z) :=
  client ← sys (Accept fd);
  if negb (0 <? (client : Z)) then _ ← sys (Close fd); mret (Some (-1))
  else
    pid ← fork_zero_fucks;
    if pid =? 0 then
      _ ← sys (Close fd);
      rc ← daemon_accept client;
      mret (Some rc)
    else _ ← sys (Close client); mret None.

Definition run_daemon (n : nat) : proc Z :=
  uid ← sys Getuid;
  _ ← p_when ((uid : Z) =? 0) (ignore (sys Getgid));
  fd ← sys Socket;
  if (fd : Z) <? 0 then mret (-1)
  else
    rc ← sys (Fcntl_cloexec fd);
    if negb ((rc : Z) =? 0) then _ ← sys (Close fd); mret (-1)
    else
      rc ← sys (Bind fd DAEMON_SOCKET_NAME);
      if (rc : Z) <? 0 then _ ← sys (Close fd); mret (-1)
      else
        rc ← sys (Listen fd 10);
        if (rc : Z) <? 0 then _ ← sys (Close fd); mret (-1)
        else while_do n (accept_step fd).
End su_main.

(** ** Signals of the client *)

Definition quit_signals : list Z := [SIGALRM; SIGHUP; SIGPIPE; SIGQUIT; SIGTERM; SIGINT].

Fixpoint set_handlers (l : list Z) (h : handler) : proc () :=
  match l with [] => mret () | s :: l' => _ ← sys (Sigaction s h); set_handlers l' h end.

Definition sighandler : proc () :=
  _ ← restore_stdin;
  _ ← sys (Close STDIN_FILENO);
  _ ← sys (Close STDOUT_FILENO);
  _ ← sys (Close STDERR_FILENO);
  set_handlers quit_signals SIG_DFL.

Definition setup_sighandlers : proc () := set_handlers quit_signals H_sighandler.

(** ** The client *)

Definition atty_bits (i o e : bool) : Z :=
  Z.lor (if i then ATTY_IN else 0) (Z.lor (if o then ATTY_OUT else 0) (if e then ATTY_ERR else 0)).

(** The loop over the arguments: with [skip], number 1 is left out. *)
Fixpoint write_args (fd : Z) (skip : bool) (i : Z) (args : list string) : proc () :=
  match args with
  | [] => mret ()
  | s :: args' =>
      _ ← p_when (negb ((i =? 1) && skip)) (write_string fd s);
      write_args fd skip (i + 1) args'
  end.

(** The arguments [argv[0]] to [argv[argc - 1]]. *)
Fixpoint args_of (n : nat) (argv : list (option string)) : option (list string) :=
  match n with
  | O => Some []
  | S n' => match argv with Some s :: argv' => cons s <$> args_of n' argv' | _ => None end
  end.

(** What the client tells the daemon. *)
Definition send_request (socketfd ppid ptmx atty argc : Z) (pts_slave : string) (mount_storage : bool)
    (argv : list (option string)) : proc () :=
  pid ← sys Getpid;
  _ ← write_int socketfd pid;
  _ ← write_string socketfd pts_slave;
  _ ← write_int socketfd ppid;
  _ ← write_int socketfd (if mount_storage then 1 else 0);
  _ ← (if has_bits atty ATTY_IN then send_fd socketfd (-1) else send_fd socketfd STDIN_FILENO);
  _ ← (if has_bits atty ATTY_OUT then _ ← watch_sigwinch_async STDOUT_FILENO ptmx; send_fd socketfd (-1)
       else send_fd socketfd STDOUT_FILENO);
  _ ← (if has_bits atty ATTY_ERR then send_fd socketfd (-1) else send_fd socketfd STDERR_FILENO);
  _ ← write_int socketfd (if mount_storage then argc - 1 else argc);
  args ← deref_p (args_of (Z.to_nat argc) argv);
  write_args socketfd mount_storage 0 args.

Definition connect_daemon (n : nat) (argc : Z) (argv : list (option string)) (ppid : Z) : proc Z :=
  socketfd ← sys Socket;
  if (socketfd : Z) <? 0 then exit (-1)
  else
    rc ← sys (Fcntl_cloexec socketfd);
    if negb ((rc : Z) =? 0) then exit (-1)
    else
      rc ← sys (Connect socketfd DAEMON_SOCKET_NAME);
      if negb ((rc : Z) =? 0) then exit (-1)
      else
        m ← sys (Getenv "MOUNT_EMULATED_STORAGE");
        let mount_storage := bool_decide (is_Some m) in
        i ← sys (Isatty STDIN_FILENO);
        o ← sys (Isatty STDOUT_FILENO);
        e ← sys (Isatty STDERR_FILENO);
        let atty := atty_bits i o e in
        '(ptmx, pts_slave) ←
          (if negb (atty =? 0) then
             '(ptmx, name) ← pts_open PATH_MAX;
             if ptmx <? 0 then exit (-1) else mret (ptmx, name)
           else mret (-1, EmptyString));
        _ ← send_request socketfd ppid ptmx atty argc pts_slave mount_storage argv;
        _ ← read_int socketfd;
        _ ← p_when (has_bits atty ATTY_IN) (_ ← setup_sighandlers; pump_stdin_async ptmx);
        _ ← p_when (has_bits atty ATTY_OUT) (pump_stdout_blocking n ptmx);
        code ← read_int socketfd;
        _ ← sys (Close socketfd);
        mret code.
