(* ===== verification/Su.v ===== *)
(** * The su program (su/su.c)

    [main], [su_main] for the client and for the child of the daemon, and the
    functions of common.c and daemonize.c that it uses. The other program of the
    binary, [magiskpolicy_main], is an argument. *)

From S2P Require Import Prelude Policyfile Process Getopt Pts Daemon.

Definition AID_ROOT : Z := 0.
Definition AID_SHELL : Z := 2000.
Definition DEFAULT_SHELL : string := "/system/bin/sh".
Definition EXIT_FAILURE : Z := 1.
Definition EXIT_SUCCESS : Z := 0.

(** ** Data (su.h) *)

Record su_initiator := SI { from_pid : Z; from_uid : Z; from_name : string; from_bin : string; from_args : string }.

Record su_request := SR {
  to_uid : Z; to_name : string; to_login : bool; to_keepenv : bool; to_shell : option string; to_command : option string;
  to_argv : list (option string); to_argc : Z; to_optind : Z
}.

Record su_context := SC { ctx_from : su_initiator; ctx_to : su_request; ctx_umask : Z }.

Definition set_to_uid (v : Z) (r : su_request) : su_request :=
  SR v (to_name r) (to_login r) (to_keepenv r) (to_shell r) (to_command r) (to_argv r) (to_argc r) (to_optind r).
Definition set_to_name (v : string) (r : su_request) : su_request :=
  SR (to_uid r) v (to_login r) (to_keepenv r) (to_shell r) (to_command r) (to_argv r) (to_argc r) (to_optind r).
Definition set_to_login (v : bool) (r : su_request) : su_request :=
  SR (to_uid r) (to_name r) v (to_keepenv r) (to_shell r) (to_command r) (to_argv r) (to_argc r) (to_optind r).
Definition set_to_keepenv (v : bool) (r : su_request) : su_request :=
  SR (to_uid r) (to_name r) (to_login r) v (to_shell r) (to_command r) (to_argv r) (to_argc r) (to_optind r).
Definition set_to_shell (v : option string) (r : su_request) : su_request :=
  SR (to_uid r) (to_name r) (to_login r) (to_keepenv r) v (to_command r) (to_argv r) (to_argc r) (to_optind r).
Definition set_to_command (v : option string) (r : su_request) : su_request :=
  SR (to_uid r) (to_name r) (to_login r) (to_keepenv r) (to_shell r) v (to_argv r) (to_argc r) (to_optind r).
Definition set_to_optind (v : Z) (r : su_request) : su_request :=
  SR (to_uid r) (to_name r) (to_login r) (to_keepenv r) (to_shell r) (to_command r) (to_argv r) (to_argc r) v.

Definition get_command (r : su_request) : proc string :=
  match to_command r with
  | Some c => mret c
  | None =>
      match to_shell r with
      | Some s => mret s
      | None => a ← deref_p (at_index (to_argv r) (to_optind r)); mret (default DEFAULT_SHELL a)
      end
  end.

(** ** The caller *)

(** The arguments in the contents of /proc/<pid>/cmdline: what follows the first
    NUL, the other NULs made blanks. *)
Fixpoint after_nul (l : list Z) : option (list Z) :=
  match l with [] => None | b :: l' => if b =? 0 then Some l' else after_nul l' end.

Definition nul_to_blank (l : list Z) : list Z := (λ b, if b =? 0 then 32 else b) <$> l.

Definition argv_rest (args : list Z) : option string := (λ l, string_of_bytes (nul_to_blank l)) <$> after_nul args.

Definition ARGS_SIZE : Z := 4096.
Definition NAME_SIZE : Z := 64.

(** [strlcpy(dst, src, size) >= size] *)
Definition too_long (s : string) (size : Z) : bool := size <=? strlen s.

(** [None] is the result -1. *)
Definition from_init : proc (option su_initiator) :=
  uid ← sys Getuid;
  pid ← sys Getppid;
  d ← getg is_daemon;
  duid ← getg daemon_from_uid;
  dpid ← getg daemon_from_pid;
  let uid := if d : bool then u32 duid else uid in
  let pid := if d : bool then dpid else pid in
  fd ← sys (Open ("/proc/" ++ show_u pid ++ "/cmdline") O_RDONLY);
  if (fd : Z) <? 0 then mret None
  else
    data ← sys (Read fd ARGS_SIZE);
    _ ← sys (Close fd);
    match data with
    | None => mret None
    | Some args =>
        if Z.of_nat (length args) =? ARGS_SIZE then mret None
        else
          let rest := default EmptyString (argv_rest args) in
          if too_long rest ARGS_SIZE then mret None
          else
            link ← sys (Readlink ("/proc/" ++ show_u pid ++ "/exe") PATH_MAX);
            match link with
            | None => mret None
            | Some l =>
                if PATH_MAX <=? Z.of_nat (length l) then undefined
                else
                  let exe := string_of_bytes l in
                  let bin := if streq exe "/system/bin/app_process" then string_of_bytes args else exe in
                  if too_long bin PATH_MAX then mret None
                  else
                    pw ← sys (Getpwuid uid);
                    match pw ≫= pw_name with
                    | Some name => mret (if too_long name NAME_SIZE then None else Some (SI pid uid name bin rest))
                    | None => mret (Some (SI pid uid EmptyString bin rest))
                    end
            end
    end.

(** ** The command *)

Definition populate_environment (to : su_request) : proc () :=
  if to_keepenv to then mret ()
  else
    pw ← sys (Getpwuid (to_uid to));
    match pw with
    | None => mret ()
    | Some pw =>
        _ ← sys (Setenv "HOME" (pw_dir pw));
        _ ← sys (Setenv "SHELL" (default DEFAULT_SHELL (to_shell to)));
        if to_login to || negb (to_uid to =? 0) then
          name ← deref_p (pw_name pw);
          _ ← sys (Setenv "USER" name);
          ignore (sys (Setenv "LOGNAME" name))
        else mret ()
    end.

Definition set_identity (uid : Z) : proc () :=
  rc ← sys (Seteuid 0);
  if negb ((rc : Z) =? 0) then exit EXIT_FAILURE
  else
    rc ← sys (Setresgid uid uid uid);
    if negb ((rc : Z) =? 0) then exit EXIT_FAILURE
    else
      rc ← sys (Setresuid uid uid uid);
      if negb ((rc : Z) =? 0) then exit EXIT_FAILURE else mret ().

Definition deny {A} (to : su_request) : proc A := _ ← get_command to; exit EXIT_FAILURE.

(** [argv[i] = s] *)
Definition store_arg (argv : list (option string)) (i : Z) (s : string) : proc (list (option string)) :=
  if (0 <=? i) && (i <? Z.of_nat (length argv)) then mret (set_index argv i (Some s)) else undefined.

(** The arguments up to the next NULL. *)
Fixpoint until_null (argv : list (option string)) : option (list string) :=
  match argv with
  | [] => None
  | None :: _ => Some []
  | Some s :: argv' => cons s <$> until_null argv'
  end.

(** The binary, the index of its first argument, and the arguments with [-c] and
    the command stored before them. *)
Definition pick_binary (to : su_request) : proc (string * Z * list (option string)) :=
  let argc := to_optind to in
  match to_command to with
  | Some command =>
      argv ← store_arg (to_argv to) (argc - 1) command;
      argv ← store_arg argv (argc - 2) "-c";
      binary ← deref_p (to_shell to);
      mret (binary, argc - 2, argv)
  | None =>
      match to_shell to with
      | Some shell => mret (shell, argc, to_argv to)
      | None =>
          a ← deref_p (at_index (to_argv to) argc);
          mret (match a with Some a => (a, argc + 1, to_argv to) | None => (DEFAULT_SHELL, argc, to_argv to) end)
      end
  end.

Definition base_name (binary : string) : string := from_option tail_string binary (strrchr binary "/").

(** The process that runs the command and the one that waits for it. *)
Definition exec_command (binary : string) (args : list string) {A} : proc A :=
  pid ← sys Fork;
  if (pid : Z) =? 0 then _ ← sys (Execvp binary args); exit EXIT_FAILURE
  else
    r ← sys (Waitpid pid);
    exit r.2.

Definition allow {A} (ctx : su_context) : proc A :=
  let to := ctx_to ctx in
  _ ← sys (Umask (ctx_umask ctx));
  '(binary, argc, argv) ← pick_binary to;
  let base := base_name binary in
  arg0 ← (if to_login to then ok ← sys (Malloc (strlen base + 2)); if negb ok then exit EXIT_FAILURE else mret (String "-" base)
          else mret base);
  _ ← populate_environment to;
  _ ← set_identity (to_uid to);
  argv ← store_arg argv (argc - 1) arg0;
  args ← deref_p (until_null (drop (Z.to_nat (argc - 1)) argv));
  exec_command binary args.

(** ** The environment and the options *)

Definition unsec_vars : list string :=
  ["GCONV_PATH"; "GETCONF_DIR"; "HOSTALIASES"; "LD_AUDIT"; "LD_DEBUG"; "LD_DEBUG_OUTPUT"; "LD_DYNAMIC_WEAK";
   "LD_LIBRARY_PATH"; "LD_ORIGIN_PATH"; "LD_PRELOAD"; "LD_PROFILE"; "LD_SHOW_AUXV"; "LD_USE_LOAD_BIAS"; "LOCALDOMAIN";
   "LOCPATH"; "MALLOC_TRACE"; "MALLOC_CHECK_"; "NIS_PATH"; "NLSPATH"; "RESOLV_HOST_CONF"; "RES_OPTIONS"; "TMPDIR";
   "TZDIR"; "LD_AOUT_LIBRARY_PATH"; "LD_AOUT_PRELOAD"; "IFS"].

Fixpoint unset_all (l : list string) : proc () :=
  match l with [] => mret () | v :: l' => _ ← sys (Unsetenv v); unset_all l' end.

Definition fork_for_samsung : proc () :=
  pid ← sys Fork;
  if (pid : Z) =? 0 then mret ()
  else if pid =? -1 then exit 1
  else
    r ← sys Wait;
    if r.1 <? 0 then exit 1 else exit (WEXITSTATUS r.2).

Definition usage {A} (status : Z) : proc A := exit status.

Definition short_opts : string := "c:hlmps:Vv".

Definition long_opts : list long_option :=
  [LO "command" true "c"; LO "help" false "h"; LO "login" false "l"; LO "preserve-environment" false "p";
   LO "shell" true "s"; LO "version" false "v"].

(** The [switch] on an option. *)
Definition option_case (c : ascii) (optarg : option string) (to : su_request) : proc su_request :=
  if Ascii.eqb c "c" then mret (set_to_command optarg (set_to_shell (Some DEFAULT_SHELL) to))
  else if Ascii.eqb c "h" then usage EXIT_SUCCESS
  else if Ascii.eqb c "l" then mret (set_to_login true to)
  else if Ascii.eqb c "m" || Ascii.eqb c "p" then mret (set_to_keepenv true to)
  else if Ascii.eqb c "s" then mret (set_to_shell optarg to)
  else if Ascii.eqb c "V" || Ascii.eqb c "v" then exit EXIT_SUCCESS
  else usage 2.

Fixpoint parse_options (n : nat) (to : su_request) : proc su_request :=
  match n with
  | O => unfinished
  | S n' =>
      o ← getopt_long (to_argc to) (to_argv to) short_opts long_opts;
      match o with
      | None => mret to
      | Some (c, optarg) => to ← option_case c optarg to; parse_options n' to
      end
  end.

(** A bound for the number of options: the characters of the arguments. *)
Definition argv_size (argv : list (option string)) : nat :=
  sum_list_with (λ a, S (String.length (default EmptyString a))) argv.

(** [optind < argc && !strcmp(argv[optind], s)], and [optind++] if so. *)
Definition skip_arg (to : su_request) (s : string) : proc bool :=
  i ← getg optind;
  if i <? to_argc to then
    a ← argv_at (to_argv to) i;
    if streq a s then p ← getg place; _ ← setg (set_getopt (i + 1) p); mret true else mret false
  else mret false.

(** The name or number of the user to become. *)
Definition login_arg (to : su_request) : proc su_request :=
  i ← getg optind;
  if i <? to_argc to then
    a ← argv_at (to_argv to) i;
    if streq a "--" then mret to
    else
      pw ← sys (Getpwnam a);
      to ← match pw with
           | None =>
               let '(v, erange, rest) := strtoul a in
               if (erange : bool) || negb (bool_decide (rest = EmptyString)) then exit EXIT_FAILURE else mret (set_to_uid v to)
           | Some pw =>
               match pw_name pw with
               | Some name =>
                   if too_long name NAME_SIZE then exit EXIT_FAILURE else mret (set_to_name name (set_to_uid (pw_uid pw) to))
               | None => mret (set_to_uid (pw_uid pw) to)
               end
           end;
      p ← getg place; _ ← setg (set_getopt (i + 1) p); mret to
  else mret to.

(** ** The daemon's start (daemonize.c, common.c) *)

Definition RLIM_INFINITY : Z := 2 ^ 32 - 1.

Fixpoint close_from (n : nat) (i : Z) : proc () :=
  match n with O => mret () | S n' => _ ← sys (Close i); close_from n' (i + 1) end.

Definition fork_and_leave : proc () :=
  pid ← sys Fork;
  if (pid : Z) <? 0 then exit 1 else if negb (pid =? 0) then exit 0 else mret ().

Definition daemonize : proc () :=
  _ ← sys (Umask 0);
  rl ← sys Getrlimit_nofile;
  match rl with
  | None => exit 1
  | Some rlim_max =>
      _ ← fork_and_leave;
      _ ← sys Setsid;
      rc ← sys (Sigaction SIGHUP SIG_IGN);
      if (rc : Z) <? 0 then exit 1
      else
        _ ← fork_and_leave;
        rc ← sys (Chdir "/");
        if (rc : Z) <? 0 then exit 1
        else
          _ ← close_from (Z.to_nat (if rlim_max =? RLIM_INFINITY then 1024 else rlim_max)) 0;
          fd0 ← sys (Open "/dev/null" O_RDWR);
          fd1 ← sys (Dup 0);
          fd2 ← sys (Dup 0);
          if negb ((fd0 : Z) =? 0) || negb ((fd1 : Z) =? 1) || negb ((fd2 : Z) =? 2) then exit 1 else mret ()
  end.

(** [strstr(hay, needle) != NULL] *)
Fixpoint strstr (hay needle : string) : bool :=
  is_prefix needle hay || match hay with String _ h => strstr h needle | EmptyString => false end.

(** One line of /proc/net/unix. *)
Definition daemon_line : proc (option bool) :=
  l ← sys Next_unix_line;
  mret (match l with
        | None => Some false
        | Some path => if strstr path DAEMON_SOCKET_NAME then Some true else None
        end).

Definition daemon_exists (n : nat) : proc bool :=
  fp ← sys (Open "/proc/net/unix" O_RDONLY);
  if (fp : Z) <? 0 then mret false
  else
    r ← while_do n daemon_line;
    _ ← sys (Close fp);
    mret r.

Definition selinux_attr_set_priv : proc Z :=
  fd ← sys (Open "/proc/self/attr/current" O_WRONLY);
  if (fd : Z) <? 0 then mret (-1)
  else
    n ← sys (Write fd (string_bytes "u:r:init:s0" ++ [10]));
    _ ← sys (Close fd);
    mret (if (n : Z) =? 12 then 0 else -1).

(** ** [su_main] *)

Section su.
Context (magiskpolicy_main : list string → proc Z).

Definition is_run_daemon (argc : Z) (argv : list (option string)) : proc bool :=
  if argc =? 2 then
    a ← argv_at argv 1;
    mret (streq a "--daemon" || streq a "-d" || streq a "--start")
  else mret false.

Definition initial_request (argc : Z) (argv : list (option string)) : su_request :=
  SR AID_ROOT EmptyString false false None None argv argc 0.

(** The decision: who may run the command. *)
Definition decide_request (to : su_request) : proc Z :=
  i ← getg optind;
  let to := set_to_optind i to in
  from ← from_init;
  match from with
  | None => deny to
  | Some from =>
      let ctx := SC from to 0 in
      if from_uid from =? AID_ROOT then allow ctx
      else if from_uid from =? AID_SHELL then allow ctx
      else allow ctx
  end.

(** From the options to the decision, in the child of the daemon. *)
Definition run_request (to : su_request) : proc Z :=
  dash ← skip_arg to "-";
  to ← login_arg (if dash : bool then set_to_login true to else to);
  _ ← skip_arg to "--";
  decide_request to.

(** [n] bounds the nesting of daemons and the iterations of their loops. *)
Fixpoint su_main (n : nat) (argc : Z) (argv : list (option string)) (need_client : bool) : proc Z :=
  match n with
  | O => unfinished
  | S n' =>
      run ← is_run_daemon argc argv;
      if (run : bool) then
        e ← daemon_exists n';
        if (e : bool) then mret 0
        else
          _ ← daemonize;
          _ ← magiskpolicy_main ["supolicy"; "--live"];
          _ ← sys (Set_title "permd");
          _ ← selinux_attr_set_priv;
          run_daemon (su_main n') n'
      else
        ppid ← sys Getppid;
        _ ← fork_for_samsung;
        _ ← unset_all unsec_vars;
        to ← parse_options (S (argv_size argv)) (initial_request argc argv);
        if need_client then connect_daemon n' argc argv ppid
        else run_request to
  end.

(** [argc - 1] and [argv + 1] when the name of the program is the first argument. *)
Definition main (n : nat) (argc : Z) (argv : list (option string)) : proc Z :=
  uid ← sys Getuid;
  euid ← sys Geteuid;
  if negb ((uid : Z) =? euid) then mret 1
  else
    arg1 ← (if 1 <? argc then argv_at argv 1 else mret EmptyString);
    a0 ← argv_at argv 0;
    let '(name, argc, argv) :=
      match arg1 with
      | String "@" name => (name, argc - 1, tail argv)
      | _ => (base_name a0, argc, argv)
      end in
    if streq name "supolicy" then
      args ← deref_p (until_null argv); magiskpolicy_main args
    else su_main n argc argv true.
End su.
