(* ===== verification/Buildprops.v ===== *)
(** * System properties (su/utils.c, and [access_disabled] of su.c)

    The search of a property in the text of a property file, and the check of the
    root access setting that su.c no longer calls. *)

From S2P Require Import Prelude Policyfile Process Getopt Daemon Su.

Definition PROPERTY_VALUE_MAX : Z := 92.

Definition NL : ascii := "010"%char.

(** ** Lines *)

(** The string without its trailing blanks. *)
Fixpoint trim_end (s : string) : string :=
  match s with
  | EmptyString => EmptyString
  | String c s' =>
      let t := trim_end s' in
      if bool_decide (t = EmptyString) && isspace c then EmptyString else String c t
  end.

(** Key and value of a line; a comment and a line without [=] have none. *)
Definition line_entry (line : string) : option (string * string) :=
  let '(k, rest) := span_until (Ascii.eqb "=") line in
  match rest with
  | EmptyString => None
  | String _ v =>
      match skip_space k with
      | String "#" _ => None
      | key => Some (trim_end key, trim_end (skip_space v))
      end
  end.

(** The value of the first line whose key begins with [searchkey]; only lines
    that end with a newline count. [n] bounds the lines. *)
Fixpoint find_line (n : nat) (data searchkey : string) : option string :=
  match n with
  | O => None
  | S n' =>
      let '(line, rest) := span_until (Ascii.eqb NL) data in
      match rest with
      | EmptyString => None
      | String _ data' =>
          match line_entry line with
          | Some (key, value) => if is_prefix searchkey key then Some value else find_line n' data' searchkey
          | None => find_line n' data' searchkey
          end
      end
  end.

(** The length and what is copied to [found]. The value of a line that matches
    points into the copy of the text, which is freed before the value is read. *)
Definition get_property (data : option string) (searchkey not_found : string) : outcome (Z * string) :=
  match data with
  | None => Ret (strlen not_found, not_found)
  | Some d =>
      match find_line (S (String.length d)) d searchkey with
      | Some _ => Undef
      | None => Ret (strlen not_found, not_found)
      end
  end.

Definition check_property (data : option string) (prefix : string) : bool :=
  match data with None => false | Some d => strstr d prefix end.

Definition read_file (fn : string) : proc (option string) :=
  fd ← sys (Open fn O_RDONLY);
  if (fd : Z) <? 0 then mret None
  else
    st ← sys (Fstat fd);
    match st with
    | None => _ ← sys (Close fd); mret None
    | Some st =>
        ok ← sys (Malloc (st_size st + 2));
        if negb ok then _ ← sys (Close fd); mret None
        else
          l ← sys (Read fd (st_size st));
          _ ← sys (Close fd);
          match l with
          | Some l => mret (if Z.of_nat (length l) =? st_size st then Some (string_of_bytes (l ++ [10])) else None)
          | None => mret None
          end
    end.

Definition lift_p {A} (x : outcome A) : proc A :=
  match x with Ret a => mret a | Exit z => exit z | Undef => undefined end.

(** ** [access_disabled] *)

Definition CM_ROOT_ACCESS_APPS_ONLY : Z := 1.
Definition CM_ROOT_ACCESS_ADB_ONLY : Z := 2.

(** [atoi] of a string without a sign. *)
Definition atoi (s : string) : Z := (digits_from 0 (skip_space s)).1.

Definition access_disabled (uid : Z) : proc Z :=
  data ← read_file "/system/build.prop";
  if check_property data "ro.cm.version" then
    '(_, build_type) ← lift_p (get_property data "ro.build.type" EmptyString);
    data ← read_file "/default.prop";
    '(_, debuggable) ← lift_p (get_property data "ro.debuggable" "0");
    if negb (streq "1" debuggable) then mret 1
    else
      data ← read_file "/data/property/persist.sys.root_access";
      let enabled := match data with
                     | Some d => if PROPERTY_VALUE_MAX <=? strlen d then "0"%string else d
                     | None => "0"%string
                     end in
      if negb (streq "eng" build_type) && negb (uid =? AID_SHELL) && negb (uid =? AID_ROOT) &&
         negb (Z.land (atoi enabled) CM_ROOT_ACCESS_APPS_ONLY =? CM_ROOT_ACCESS_APPS_ONLY) then mret 1
      else if (uid =? AID_SHELL) && negb (Z.land (atoi enabled) CM_ROOT_ACCESS_ADB_ONLY =? CM_ROOT_ACCESS_ADB_ONLY) then mret 1
      else mret 0
  else mret 0.

(** ** What the search finds *)

(** The lines of a text that end with a newline. *)
Fixpoint text (lines : list string) : string :=
  match lines with [] => EmptyString | l :: ls => l ++ String NL (text ls) end.

Definition one_line (s : string) : Prop := NL ∉ list_ascii_of_string s.

Lemma span_line l rest : one_line l → span_until (Ascii.eqb NL) (l ++ String NL rest) = (l, String NL rest).
Proof.
  unfold one_line. induction l as [|c l IH]; intros H; [done|]. change (String c l +:+ String NL rest) with (String c (l +:+ String NL rest)). cbn [span_until].
  destruct (Ascii.eqb_spec NL c) as [<-|_]; [destruct H; by left|]. rewrite IH; [done|]. intros Hin. apply H. by right.
Qed.

Lemma find_line_text lines key : ∀ n, Forall one_line lines → (length lines < n)%nat →
  find_line n (text lines) key = head (omap (λ l, line_entry l ≫= λ e, if is_prefix key e.1 then Some e.2 else None) lines).
Proof.
  induction lines as [|l lines IH]; intros [|n] Hl Hn; cbn [length] in Hn; try lia; [done|].
  apply Forall_cons in Hl as [Hl Hs]. cbn [text find_line omap list_omap]. rewrite span_line by done.
  destruct (line_entry l) as [[k v]|]; cbn [mbind option_bind fst snd]; [|by apply IH; [|lia]].
  destruct (is_prefix key k); [done|]. by apply IH; [|lia].
Qed.

Lemma length_text lines : (length lines <= String.length (text lines))%nat.
Proof.
  induction lines as [|l lines IH]; [done|]. cbn [text length].
  assert (∀ t, String.length (l +:+ String NL t) = (String.length l + S (String.length t))%nat) as ->; [|lia].
  intros t. induction l as [|c l IHl]; [done|]. change (String.length (String c l +:+ String NL t)) with (S (String.length (l +:+ String NL t))). by rewrite IHl.
Qed.

(** A property is found by a prefix of its name, and then its value is read after
    the text was freed: [get_property] returns only for a name that is no prefix
    of a key, with the default. *)
Lemma get_property_dangling lines key default :
  Forall one_line lines →
  get_property (Some (text lines)) key default =
    if existsb (λ l, match line_entry l with Some e => is_prefix key e.1 | None => false end) lines then Undef
    else Ret (strlen default, default).
Proof.
  intros Hl. unfold get_property. rewrite find_line_text by (done || pose proof (length_text lines); lia).
  induction lines as [|l lines IH]; [done|]. apply Forall_cons in Hl as [_ Hl]. cbn [omap list_omap existsb].
  destruct (line_entry l) as [[k v]|]; cbn [mbind option_bind fst snd]; [|by apply IH].
  destruct (is_prefix key k); [done|]. by apply IH.
Qed.
