(* ===== verification/Protocol.v ===== *)
(** * The protocol between client and daemon

    What the client writes to the socket, and what the daemon makes of it: the
    socket is a stream of bytes, some of which carry a descriptor. *)

From S2P Require Import Prelude Policyfile Process Getopt Pts Daemon.

(** ** Streams *)

Definition cell : Type := Z * option Z.

Definition plain (l : list Z) : list cell := (λ b, (b, None)) <$> l.
Definition int_cells (z : Z) : list cell := plain (le_bytes 4 z).
Definition string_cells (s : string) : list cell := int_cells (strlen s) ++ plain (string_bytes s).
Definition fd_cell (o : option Z) : list cell := [(0, o)].

(** A request as it is sent: an absent descriptor is sent as a byte alone. *)
Record message := MSG {
  m_pid : Z; m_pts : string; m_ppid : Z; m_mount : bool; m_in : option Z; m_out : option Z; m_err : option Z;
  m_argc : Z; m_args : list string
}.

Definition request_cells (m : message) : list cell :=
  int_cells (m_pid m) ++ string_cells (m_pts m) ++ int_cells (m_ppid m) ++ int_cells (if m_mount m then 1 else 0) ++
  fd_cell (m_in m) ++ fd_cell (m_out m) ++ fd_cell (m_err m) ++ int_cells (m_argc m) ++ (m_args m ≫= string_cells).

(** The arguments that the client sends. *)
Definition kept (skip : bool) (args : list string) : list string :=
  match args with
  | a0 :: _ :: rest => if skip then a0 :: rest else args
  | _ => args
  end.

(** ** Sending *)

(** The socket [sk] takes a part of what is written to it, or fails. *)
Definition sending (sk : Z) : world (list cell) :=
  WORLD (λ _ _, True)
    (λ w c, match c return answer c → list cell → Prop with
            | Write fd bytes => λ a w',
                if fd =? sk then (a < 0 ∧ w' = w) ∨ (0 <= a <= Z.of_nat (length bytes) ∧ w' = w ++ plain (take (Z.to_nat a) bytes))
                else w' = w
            | Sendmsg fd o => λ a w', if fd =? sk then (a = 1 ∧ w' = w ++ fd_cell o) ∨ (a ≠ 1 ∧ w' = w) else w' = w
            | _ => λ _ w', w' = w
            end).

Section sending.
Context (sk : Z).
Implicit Types (w : list cell) (g : globals).

Lemma send_write bytes (f : Z → proc ()) n Q g w :
  n = Z.of_nat (length bytes) → (∀ a, a ≠ n → f a = exit (-1)) →
  pwp true (sending sk) (f n) Q (λ _ _, True) g (w ++ plain bytes) →
  pwp true (sending sk) (sys (Write sk bytes) ≫= f) Q (λ _ _, True) g w.
Proof.
  intros -> He Hf. apply pwp_sys_bind; [done|]. intros a w'. cbn [sending answers]. rewrite Z.eqb_refl. intros Ha.
  destruct (Z.eq_dec a (Z.of_nat (length bytes))) as [->|Hn]; [|by rewrite He].
  destruct Ha as [[? _]|[_ ->]]; [lia|]. by rewrite Nat2Z.id, take_ge.
Qed.

Lemma send_int z Q g w : Q () g (w ++ int_cells z) → pwp true (sending sk) (write_int sk z) Q (λ _ _, True) g w.
Proof.
  intros HQ. unfold write_int. apply (send_write (le_bytes 4 z) _ 4); [by rewrite length_le_bytes| |done].
  intros a Ha. by rewrite (proj2 (Z.eqb_neq _ _) Ha).
Qed.

Lemma send_string s Q g w : Q () g (w ++ string_cells s) → pwp true (sending sk) (write_string sk s) Q (λ _ _, True) g w.
Proof.
  intros HQ. unfold write_string. apply pwp_bind, send_int.
  apply (send_write (string_bytes s) _ (strlen s)); [by rewrite length_string_bytes| |].
  - intros a Ha. by rewrite (proj2 (Z.eqb_neq _ _) Ha).
  - rewrite Z.eqb_refl. apply pwp_ret. unfold string_cells in HQ. by rewrite <- app_assoc.
Qed.

Lemma send_send_fd fd Q g w :
  (∀ o, (o = None ∨ o = Some fd ∧ fd ≠ -1) → (fd = -1 → o = None) → Q () g (w ++ fd_cell o)) →
  pwp true (sending sk) (send_fd sk fd) Q (λ _ _, True) g w.
Proof.
  intros HQ. unfold send_fd. apply pwp_bind.
  assert (Hs : ∀ o, (o = None ∨ o = Some fd ∧ fd ≠ -1) → (fd = -1 → o = None) →
    pwp true (sending sk) (rc ← sys (Sendmsg sk o); if negb ((rc : Z) =? 1) then exit (-1) else mret ()) Q (λ _ _, True) g w).
  { intros o H1 H2. apply pwp_sys_bind; [done|]. intros a w'. cbn [sending answers]. rewrite Z.eqb_refl.
    intros [[-> ->]|[Ha ->]]; [by apply pwp_ret, HQ|]. by rewrite (proj2 (Z.eqb_neq _ _) Ha). }
  destruct (Z.eqb_spec fd (-1)) as [->|Hfd]; [apply pwp_ret, Hs; by auto|].
  apply pwp_sys_bind; [done|]. intros [rc err] w' ->. cbn [fst snd].
  destruct (rc =? -1); [destruct (negb _); [done|]|]; apply pwp_ret, Hs; by auto.
Qed.

Lemma send_args skip args : ∀ i Q g w,
  0 <= i → Q () g (w ++ ((if skip && (i <=? 1) then match i with 0 => kept true args | _ => tail args end else args) ≫= string_cells)) →
  pwp true (sending sk) (write_args sk skip i args) Q (λ _ _, True) g w.
Proof.
  induction args as [|a args IH]; intros i Q g w Hi HQ.
  { cbn [write_args]. apply pwp_ret. destruct (skip && _), i; cbn in HQ; by rewrite ?app_nil_r in HQ. }
  cbn [write_args]. apply pwp_bind. destruct (Z.eqb_spec i 1) as [->|Hi1].
  - cbn [andb negb]. destruct skip; cbn [negb p_when andb] in *.
    + apply pwp_ret. by apply IH.
    + apply send_string, IH; [done|]. cbn in HQ |- *. by rewrite <- app_assoc.
  - cbn [andb negb p_when]. apply send_string, IH; [lia|]. rewrite <- app_assoc.
    destruct (decide (i = 0)) as [->|Hi0].
    + destruct skip; [|done]. cbn in HQ |- *. destruct args as [|b args]; done.
    + rewrite (proj2 (Z.leb_gt (i + 1) 1)) by lia. rewrite (proj2 (Z.leb_gt i 1)) in HQ by lia. by rewrite andb_false_r in *.
Qed.

Lemma send_winch master slave (Q : Z → globals → list cell → Prop) g w :
  (∀ rc g', Q rc g' w) → pwp true (sending sk) (watch_sigwinch_async master slave) Q (λ _ _, True) g w.
Proof.
  intros HQ. unfold watch_sigwinch_async. apply pwp_sys_bind; [done|]. intros ok w' ->. destruct (negb ok); [by apply pwp_ret|].
  apply pwp_sys_bind; [done|]. intros rc w' ->. destruct (rc =? -1); [by apply pwp_ret|].
  apply pwp_bind, pwp_setg, pwp_sys_bind; [done|]. intros ret w' ->. destruct (negb _); [by apply pwp_ret|].
  apply pwp_sys_bind; [done|]. intros a w' ->. by apply pwp_ret.
Qed.

(** A descriptor that is sent: none for a terminal, or when it is not open. *)
Definition sent_fd (atty bit fd : Z) (o : option Z) : Prop :=
  o = None ∨ (has_bits atty bit = false ∧ o = Some fd).

Lemma send_stream atty bit fd Q g w :
  (∀ o, sent_fd atty bit fd o → Q () g (w ++ fd_cell o)) →
  pwp true (sending sk) (if has_bits atty bit then send_fd sk (-1) else send_fd sk fd) Q (λ _ _, True) g w.
Proof.
  intros HQ. destruct (has_bits atty bit) eqn:Hb; apply send_send_fd; intros o Ho Hn; apply HQ.
  - left. auto.
  - destruct Ho as [->|[-> _]]; [by left|by right].
Qed.

(** What the client has sent when it goes on. *)
Definition message_of (ppid atty argc : Z) (pts : string) (mount : bool) (args : list string) (m : message) : Prop :=
  m_pts m = pts ∧ m_ppid m = ppid ∧ m_mount m = mount ∧ m_argc m = (if mount then argc - 1 else argc) ∧
  m_args m = kept mount args ∧ sent_fd atty ATTY_IN STDIN_FILENO (m_in m) ∧ sent_fd atty ATTY_OUT STDOUT_FILENO (m_out m) ∧
  sent_fd atty ATTY_ERR STDERR_FILENO (m_err m).

Lemma send_request_spec ppid ptmx atty argc pts mount argv args (Q : () → globals → list cell → Prop) g :
  args_of (Z.to_nat argc) argv = Some args →
  (∀ m g, message_of ppid atty argc pts mount args m → Q () g (request_cells m)) →
  pwp true (sending sk) (send_request sk ppid ptmx atty argc pts mount argv) Q (λ _ _, True) g [].
Proof.
  intros Ha HQ. unfold send_request. apply pwp_sys_bind; [done|]. intros pid w' ->.
  apply pwp_bind, send_int, pwp_bind, send_string, pwp_bind, send_int, pwp_bind, send_int, pwp_bind, send_stream.
  intros i Hi. apply pwp_bind.
  match goal with |- pwp _ _ _ _ _ _ ?w => set (w0 := w) end.
  assert (Ho : ∀ o g, sent_fd atty ATTY_OUT STDOUT_FILENO o →
    pwp true (sending sk)
      (_ ← (if has_bits atty ATTY_ERR then send_fd sk (-1) else send_fd sk STDERR_FILENO);
       _ ← write_int sk (if mount then argc - 1 else argc);
       args ← deref_p (args_of (Z.to_nat argc) argv);
       write_args sk mount 0 args) Q (λ _ _, True) g (w0 ++ fd_cell o)).
  { intros o g' Ho. apply pwp_bind, send_stream. intros e He. apply pwp_bind, send_int.
    rewrite Ha. apply pwp_bind, pwp_ret, send_args; [done|].
    assert (Hk : (if mount && true then kept true args else args) = kept mount args).
    { destruct mount; [done|]. by destruct args as [|? [|? ?]]. }
    cbn [Z.leb Z.compare] in *. rewrite Hk. unfold w0. rewrite <- !app_assoc.
    by apply (HQ (MSG pid pts ppid mount i o e (if mount then argc - 1 else argc) (kept mount args))). }
  destruct (has_bits atty ATTY_OUT) eqn:Hb.
  - apply pwp_bind, send_winch. intros rc g'. apply send_send_fd. intros o _ Hn. apply Ho. left. auto.
  - apply send_send_fd. intros o [->|[-> _]] _; apply Ho; [by left|by right].
Qed.
End sending.

(** ** Receiving *)

(** The socket [sk] answers a read with some of the next bytes, or fails; a
    descriptor that comes with a byte gets a new number, related to the sender's
    by [dup]. There is memory. On a [reliable] socket a read gets all the bytes it
    asks for when they are there, and nothing else fails. *)
Definition receiving (reliable : bool) (sk peer : Z) (dup : Z → Z → Prop) : world (list cell) :=
  WORLD (λ _ _, True)
    (λ w c, match c return answer c → list cell → Prop with
            | Read fd n => λ a w',
                if fd =? sk then
                  match a with
                  | None => reliable = false ∧ w' = w
                  | Some l => l = (take (length l) w).*1 ∧ Z.of_nat (length l) <= n ∧ w' = drop (length l) w ∧
                              (reliable = true → n <= Z.of_nat (length w) → Z.of_nat (length l) = n)
                  end
                else w' = w
            | Write fd l => λ a w', w' = w ∧ (reliable = true → a = Z.of_nat (length l))
            | Recvmsg fd => λ a w',
                if (fd =? sk) && (rcv_rc a =? 1) then
                  match w with
                  | (_, None) :: w0 => w' = w0 ∧ msg_controllen a = 0
                  | (_, Some f) :: w0 => w' = w0 ∧ msg_controllen a = CMSG_SPACE_INT ∧
                      ∃ f', dup f f' ∧ 0 <= f' ∧ cmsg_firsthdr a = Some (CMSG CMSG_LEN_INT SOL_SOCKET SCM_RIGHTS f')
                  | [] => False
                  end
                else w' = w ∧ (reliable = true → fd = sk → w = [])
            | Malloc _ => λ ok w', w' = w ∧ ok = true
            | Peercred fd => λ a w', w' = w ∧ (fd = sk → a.1 = 0 → a.2 = peer) ∧ (reliable = true → a.1 = 0)
            | _ => λ _ w', w' = w
            end).

Section receiving.
Context (reliable : bool) (sk peer : Z) (dup : Z → Z → Prop).
Implicit Types (w : list cell) (g : globals).
Abbreviation V := (receiving reliable sk peer dup).
Abbreviation X := (λ _ _, reliable = false).

(** A read of exactly the next bytes. *)
Lemma recv_read {A} (f : option (list Z) → proc A) l w Q g n :
  n = Z.of_nat (length l) →
  f None = exit (-1) →
  (∀ l', Z.of_nat (length l') ≠ n → f (Some l') = exit (-1)) →
  pwp true V (f (Some l)) Q X g w →
  pwp true V (sys (Read sk n) ≫= f) Q X g (plain l ++ w).
Proof.
  intros -> Hn Hs Hf. apply pwp_sys_bind; [done|]. intros [l'|] w'; cbn [receiving answers]; rewrite Z.eqb_refl.
  - intros (Hl&Hle&->&Hr).
    assert (Hlen : length (plain l ++ w) = (length l + length w)%nat) by (rewrite length_app; unfold plain; by rewrite length_fmap).
    destruct (decide (length l' = length l)) as [He|He].
    + rewrite He in Hl |- *. unfold plain in Hl |- *.
      rewrite take_app_length' in Hl by (by rewrite length_fmap). rewrite drop_app_length' by (by rewrite length_fmap).
      assert (l' = l) as ->; [|done]. rewrite Hl, <- list_fmap_compose. by apply list_fmap_id.
    + rewrite Hs by lia. apply pwp_exit. destruct reliable; [|done]. exfalso. apply He.
      assert (Z.of_nat (length l') = Z.of_nat (length l)); [|lia]. apply Hr; [done|]. rewrite Hlen. lia.
  - intros [Hf' ->]. rewrite Hn. by apply pwp_exit.
Qed.

Lemma recv_int z w Q g : Q (s32 z) g w → pwp true V (read_int sk) Q X g (int_cells z ++ w).
Proof.
  intros HQ. unfold read_int. apply recv_read; [by rewrite length_le_bytes|done| |].
  - intros l' Hl. destruct (Nat.eqb_spec (length l') 4); [lia|done].
  - rewrite length_le_bytes, le_value_bytes. cbn [Nat.eqb]. apply pwp_ret. unfold s32 in *.
    by replace (u32 (z mod 2 ^ (8 * Z.of_nat 4))) with (u32 z) by (unfold u32; cbn; by rewrite Z.mod_mod).
Qed.

Definition arg_sendable (s : string) : Prop := Forall (λ b, b ≠ 0) (string_bytes s) ∧ strlen s <= PATH_MAX.

Lemma recv_string s w Q g : arg_sendable s → Q s g w → pwp true V (read_string sk) Q X g (string_cells s ++ w).
Proof.
  intros [Hb Hl] HQ. unfold read_string, string_cells. rewrite <- app_assoc. apply pwp_bind, recv_int.
  pose proof (strlen_nonneg s). unfold PATH_MAX in *.
  rewrite (s32_small (strlen s)) by lia.
  rewrite (proj2 (Z.ltb_ge 4096 _)), (proj2 (Z.ltb_ge _ 0)) by lia. cbn [orb].
  apply pwp_sys_bind; [done|]. intros ok w' [-> ->]. cbn [negb].
  apply recv_read; [by rewrite length_string_bytes|done| |].
  - intros l' Hl'. by rewrite (proj2 (Z.eqb_neq _ _) Hl').
  - rewrite length_string_bytes, Z.eqb_refl. apply pwp_ret. by rewrite string_of_string_bytes.
Qed.

Definition fd_received (o : option Z) (fd : Z) : Prop :=
  match o with None => fd = -1 | Some f => 0 <= fd ∧ dup f fd end.

Lemma recv_recv_fd o w (Q : Z → globals → list cell → Prop) g :
  (∀ fd, fd_received o fd → Q fd g w) → pwp true V (recv_fd sk) Q X g (fd_cell o ++ w).
Proof.
  intros HQ. unfold recv_fd. apply pwp_sys_bind; [done|]. intros [rc len hdr] w'.
  cbn [receiving answers rcv_rc msg_controllen cmsg_firsthdr fd_cell app]. rewrite Z.eqb_refl. cbn [andb].
  destruct (rc =? 1); cbn [negb].
  - destruct o as [f|].
    + intros (->&->&f'&Hd&Hf&->). cbn [Z.eqb Pos.eqb CMSG_SPACE_INT negb cmsg_len cmsg_level cmsg_type cmsg_data orb].
      apply pwp_ret, HQ. by split.
    + intros [-> ->]. by apply pwp_ret, HQ.
  - intros [-> Hr]. apply pwp_exit. destruct reliable; [|done]. by discriminate (Hr eq_refl eq_refl).
Qed.

Lemma recv_strings args : ∀ w Q g, Forall arg_sendable args → Q ((Some <$> args) ++ [None]) g w →
  pwp true V (read_strings (length args) sk) Q X g ((args ≫= string_cells) ++ w).
Proof.
  induction args as [|a args IH]; intros w Q g Ha HQ; [by apply pwp_ret|]. apply Forall_cons in Ha as [Ha Hs].
  cbn [length read_strings mbind list_bind]. rewrite <- app_assoc. apply pwp_bind, recv_string; [done|].
  apply pwp_bind, IH; [done|]. by apply pwp_ret.
Qed.

(** What the daemon knows when it acknowledges the request. *)
Definition request_of (m : message) (r : request) (g : globals) : Prop :=
  rq_pid r = s32 (m_pid m) ∧ rq_pts r = m_pts m ∧ rq_uid r = peer ∧ rq_mount r = (if m_mount m then 1 else 0) ∧
  fd_received (m_in m) (rq_infd r) ∧ fd_received (m_out m) (rq_outfd r) ∧ fd_received (m_err m) (rq_errfd r) ∧
  rq_argc r = m_argc m ∧ rq_argv r = (Some <$> take (Z.to_nat (m_argc m)) (m_args m)) ++ [None] ∧
  is_daemon g = true ∧ daemon_from_uid g = s32 peer ∧ daemon_from_pid g = s32 (m_ppid m).

(** The arguments that were not asked for stay in the stream. *)
Lemma receive_request_spec m (Q : request → globals → list cell → Prop) g :
  arg_sendable (m_pts m) → Forall arg_sendable (m_args m) → 0 <= m_argc m <= 512 → m_argc m <= Z.of_nat (length (m_args m)) →
  (∀ r g', request_of m r g' → Q r g' (drop (Z.to_nat (m_argc m)) (m_args m) ≫= string_cells)) →
  pwp true V (receive_request sk) Q (λ _ _, reliable = false) g (request_cells m).
Proof.
  intros Hp Ha Hc Hle HQ. unfold receive_request, request_cells. apply pwp_bind, pwp_setg.
  apply pwp_bind, recv_int, pwp_bind, recv_string; [done|]. apply pwp_bind, recv_int, pwp_bind, pwp_setg.
  apply pwp_sys_bind; [done|]. intros [rc uid] w' (->&Hu&Hr). cbn [fst snd] in *.
  destruct (Z.eqb_spec rc 0) as [->|Hrc]; cbn [negb]; [|apply pwp_exit; by destruct reliable; [specialize (Hr eq_refl)|]].
  rewrite (Hu eq_refl eq_refl). apply pwp_bind, pwp_setg, pwp_bind, recv_int.
  apply pwp_bind, recv_recv_fd. intros i Hi. apply pwp_bind, recv_recv_fd. intros o Ho. apply pwp_bind, recv_recv_fd. intros e He.
  apply pwp_bind, recv_int.
  rewrite (s32_small (m_argc m)) by lia.
  rewrite (proj2 (Z.ltb_ge _ 0)), (proj2 (Z.ltb_ge 512 _)) by lia. cbn [orb].
  apply pwp_sys_bind; [done|]. intros ok w' [-> ->]. cbn [negb].
  rewrite <- (take_drop (Z.to_nat (m_argc m)) (m_args m)) at 1. rewrite bind_app.
  assert (Hlen : length (take (Z.to_nat (m_argc m)) (m_args m)) = Z.to_nat (m_argc m)) by (rewrite length_take; lia).
  rewrite <- Hlen at 1. apply pwp_bind, recv_strings; [by apply Forall_take|].
  apply pwp_bind. unfold write_int. apply pwp_sys_bind; [done|]. intros a w' [-> Hw]. rewrite length_le_bytes in Hw.
  destruct (Z.eqb_spec a 4) as [->|Hn]; cbn [negb]; [|apply pwp_exit; by destruct reliable; [specialize (Hw eq_refl)|]].
  apply pwp_ret, pwp_ret, HQ. unfold request_of. cbn. by destruct (m_mount m).
Qed.
End receiving.
