(* ===== verification/SuFacts.v ===== *)
(** * What su executes

    The worlds of the process that runs a command, and what [allow],
    [from_init] and the parsing of the command line do in them. *)

From S2P Require Import Prelude Policyfile Process Getopt Pts Daemon Su.

(** ** Identities *)

(** The real, effective and saved ids of users and groups, when they are known. *)
Record ids := IDS { uids : option (Z * Z * Z); gids : option (Z * Z * Z) }.

Definition runs_as (uid : Z) (w : ids) : Prop := uids w = Some (uid, uid, uid) ∧ gids w = Some (uid, uid, uid).

(** The calls that succeed on a [kind] system. *)
Definition kind_answer (c : call) : answer c → Prop :=
  match c return answer c → Prop with
  | Fork | Seteuid _ | Setresuid _ _ _ | Setresgid _ _ _ => λ a, a = 0
  | Malloc _ => λ ok, ok = true
  | Open _ _ => λ fd, 0 <= fd
  | Read _ n => λ a, ∃ l, a = Some l ∧ (0 < n → Z.of_nat (length l) < n)
  | Readlink _ _ => λ a, is_Some a
  | Getpwuid _ => λ pw, ∀ n, pw ≫= pw_name = Some n → too_long n NAME_SIZE = false
  | Execvp _ _ => λ _, False
  | _ => λ _, True
  end.

(** The process may execute only [binary] with [args], as [uid]; [db] is the user
    database. On a [kind]
    system a successful [execvp] does not answer. The kernel reads no more than
    it is asked for; the path of a binary is shorter than PATH_MAX; an entry of
    the user database has a name. *)
Definition executing (kind : bool) (db : string → option passwd) (uid : Z) (binary : string) (args : list string) : world ids :=
  WORLD
    (λ w c, match c with Execvp f a => runs_as uid w ∧ f = binary ∧ a = args | _ => True end)
    (λ w c a w', (kind = true → kind_answer c a) ∧
      match c return answer c → Prop with
      | Seteuid z => λ a, w' = if a =? 0 then IDS ((λ '(r, _, s), (r, z, s)) <$> uids w) (gids w) else w
      | Setresuid r e s => λ a, w' = if a =? 0 then IDS (Some (r, e, s)) (gids w) else w
      | Setresgid r e s => λ a, w' = if a =? 0 then IDS (uids w) (Some (r, e, s)) else w
      | Read _ n => λ a, w' = w ∧ ∀ l, a = Some l → Z.of_nat (length l) <= n
      | Readlink _ n => λ a, w' = w ∧ ∀ l, a = Some l → Z.of_nat (length l) < n
      | Getpwuid _ => λ a, w' = w ∧ ∀ pw, a = Some pw → is_Some (pw_name pw)
      | Getpwnam name => λ a, w' = w ∧ a = db name
      | _ => λ _, w' = w
      end a).

(** ** The command line that is executed *)

Definition exec_binary (to : su_request) (args : list string) : string :=
  match to_shell to with
  | Some s => s
  | None => default DEFAULT_SHELL (args !! Z.to_nat (to_optind to))
  end.

Definition exec_arg0 (to : su_request) (binary : string) : string :=
  if to_login to then String "-" (base_name binary) else base_name binary.

Definition exec_rest (to : su_request) (args : list string) : list string :=
  match to_command to, to_shell to with
  | Some c, _ => "-c"%string :: c :: drop (Z.to_nat (to_optind to)) args
  | None, Some _ => drop (Z.to_nat (to_optind to)) args
  | None, None => tail (drop (Z.to_nat (to_optind to)) args)
  end.

Definition exec_args (to : su_request) (args : list string) : list string :=
  exec_arg0 to (exec_binary to args) :: exec_rest to args.

(** The indexes that [allow] writes exist: with a command there are three
    arguments before the first that is no option, otherwise one; a command has
    a shell. *)
Definition room_for_command (to : su_request) : Prop :=
  match to_command to with Some _ => 3 <= to_optind to ∧ is_Some (to_shell to) | None => 1 <= to_optind to end.

Section executing.
Context (kind : bool) (db : string → option passwd) (uid : Z) (binary : string) (args : list string).
Abbreviation V := (executing kind db uid binary args).
Abbreviation X := (λ (_ : Z) (_ : ids), kind = false).
Implicit Types (g : globals) (w : ids).

Lemma ex_exit {A} z Q g w : (kind = true → False) → pwp true V (@exit A z) Q X g w.
Proof. intros H. apply pwp_exit. by destruct kind; [destruct (H eq_refl)|]. Qed.

(** A call that leaves the identities alone. *)
Definition quiet (c : call) : bool :=
  match c with Execvp _ _ | Seteuid _ | Setresuid _ _ _ | Setresgid _ _ _ => false | _ => true end.

Lemma ex_call {A} c (f : answer c → proc A) Q g w :
  quiet c = true → (∀ a, (kind = true → kind_answer c a) → pwp true V (f a) Q X g w) → pwp true V (sys c ≫= f) Q X g w.
Proof.
  intros Hq Hf. apply pwp_sys_bind; [by destruct c|]. intros a w' [Hk Hw].
  assert (w' = w) as -> by (destruct c; (done || by destruct Hw)). by apply Hf.
Qed.

Lemma ex_identity Q g w : (∀ w, runs_as uid w → Q () g w) → pwp true V (set_identity uid) Q X g w.
Proof.
  intros HQ. unfold set_identity. apply pwp_sys_bind; [done|]. intros rc1 w1 [K1 ->].
  destruct (Z.eqb_spec rc1 0) as [->|Hn]; cbn [negb]; [|apply ex_exit; intros Hk; by specialize (K1 Hk)].
  apply pwp_sys_bind; [done|]. intros rc2 w2 [K2 ->].
  destruct (Z.eqb_spec rc2 0) as [->|Hn]; cbn [negb]; [|apply ex_exit; intros Hk; by specialize (K2 Hk)].
  apply pwp_sys_bind; [done|]. intros rc3 w3 [K3 ->].
  destruct (Z.eqb_spec rc3 0) as [->|Hn]; cbn [negb]; [|apply ex_exit; intros Hk; by specialize (K3 Hk)].
  by apply pwp_ret, HQ.
Qed.

Lemma ex_setenv k v Q g w : Q () g w → pwp true V (ignore (sys (Setenv k v))) Q X g w.
Proof. intros HQ. apply pwp_ignore, pwp_sys; [done|]. by intros a w' [_ ->]. Qed.

Lemma ex_environment to Q g w : Q () g w → pwp true V (populate_environment to) Q X g w.
Proof.
  intros HQ. unfold populate_environment. destruct (to_keepenv to); [by apply pwp_ret|].
  apply pwp_sys_bind; [done|]. intros [pw|] w' (_&->&Hpw); [|by apply pwp_ret].
  apply ex_call; [done|]. intros _ _. apply ex_call; [done|]. intros _ _.
  destruct (to_login to || _); [|by apply pwp_ret]. destruct (Hpw pw eq_refl) as [name Hn]. rewrite Hn.
  apply pwp_bind, pwp_ret. apply ex_call; [done|]. intros _ _. by apply ex_setenv.
Qed.

(** Whatever the first [fork] answers, only the child executes. *)
Lemma ex_exec {A} (Q : A → globals → ids → Prop) g w : runs_as uid w → pwp true V (exec_command binary args) Q X g w.
Proof.
  intros Hw. unfold exec_command. apply pwp_sys_bind; [done|]. intros pid w' [Hk ->]. destruct (Z.eqb_spec pid 0) as [->|Hn].
  - apply pwp_sys_bind; [done|]. intros err w' [Hx _]. apply ex_exit. intros Hkind. by apply Hx.
  - apply pwp_sys_bind; [done|]. intros r w' [_ ->]. apply ex_exit. intros Hkind. by apply Hn, Hk.
Qed.

(** ** The arguments *)

Lemma until_null_all (l : list string) : until_null ((Some <$> l) ++ [None]) = Some l.
Proof. induction l as [|s l IH]; [done|]. cbn. cbn in IH. by rewrite IH. Qed.

Lemma drop_insert_here {A} (l : list A) n x : (n < length l)%nat → drop n (<[n:=x]> l) = x :: drop (S n) l.
Proof. intros Hn. rewrite insert_take_drop by done. rewrite drop_app_length'; [done|]. rewrite length_take. lia. Qed.

Lemma ex_store (l : list string) (i : Z) s Q g w : 0 <= i < Z.of_nat (length l) →
  Q ((Some <$> <[Z.to_nat i := s]> l) ++ [None]) g w → pwp true V (store_arg ((Some <$> l) ++ [None]) i s) Q X g w.
Proof.
  intros Hi HQ. unfold store_arg. rewrite length_app, length_fmap. cbn [length].
  rewrite (proj2 (Z.leb_le 0 i)), (proj2 (Z.ltb_lt i _)) by lia. cbn [andb]. unfold set_index. apply pwp_ret.
  rewrite insert_app_l by (rewrite length_fmap; lia). by rewrite <- list_fmap_insert.
Qed.

Lemma at_index_args (l : list string) (i : Z) : 0 <= i <= Z.of_nat (length l) →
  at_index ((Some <$> l) ++ [None]) i = Some (l !! Z.to_nat i).
Proof.
  intros Hi. unfold at_index. rewrite (proj2 (Z.ltb_ge i 0)) by lia.
  destruct (decide (Z.to_nat i < length l)%nat) as [Hl|Hl].
  - destruct (lookup_lt_is_Some_2 l _ Hl) as [s Hs]. by rewrite lookup_app_l, list_lookup_fmap, Hs by (by rewrite length_fmap).
  - rewrite lookup_app_r by (rewrite length_fmap; lia). rewrite (lookup_ge_None_2 l) by lia. rewrite length_fmap.
    by replace (Z.to_nat i - length l)%nat with 0%nat by lia.
Qed.

(** The array that [pick_binary] leaves, from its first argument on. *)
Lemma pick_binary_spec to (l : list string) (Q : string * Z * list (option string) → globals → ids → Prop) g w :
  to_argv to = (Some <$> l) ++ [None] → to_optind to <= Z.of_nat (length l) → room_for_command to →
  (∀ n l', 1 <= n <= Z.of_nat (length l') → drop (Z.to_nat n) l' = exec_rest to l →
    Q (exec_binary to l, n, (Some <$> l') ++ [None]) g w) →
  pwp true V (pick_binary to) Q X g w.
Proof.
  intros Hargv Hi Hroom HQ. unfold pick_binary, room_for_command, exec_binary, exec_rest in *. rewrite Hargv.
  destruct (to_command to) as [c|].
  - destruct Hroom as [H3 [s Hs]]. rewrite Hs in *.
    apply pwp_bind, ex_store; [lia|]. apply pwp_bind, ex_store; [rewrite length_insert; lia|]. apply pwp_bind, pwp_ret, pwp_ret.
    cbn [default from_option id] in HQ. apply HQ; rewrite ?length_insert; [lia|].
    set (i := Z.to_nat (to_optind to)). replace (Z.to_nat (to_optind to - 1)) with (i - 1)%nat by lia.
    replace (Z.to_nat (to_optind to - 2)) with (i - 2)%nat by lia.
    rewrite drop_insert_here by (rewrite length_insert; lia). replace (S (i - 2)) with (i - 1)%nat by lia.
    rewrite drop_insert_here by lia. by replace (S (i - 1)) with i by lia.
  - destruct (to_shell to) as [s|]; [by apply pwp_ret, HQ; [lia|]|].
    rewrite at_index_args by lia. apply pwp_bind, pwp_ret, pwp_ret.
    destruct (l !! Z.to_nat (to_optind to)) as [a|] eqn:Hl.
    + pose proof (lookup_lt_Some _ _ _ Hl). rewrite (drop_S _ _ _ Hl) in *. cbn [tail default from_option id] in HQ. apply HQ; [lia|].
      by replace (Z.to_nat (to_optind to + 1)) with (S (Z.to_nat (to_optind to))) by lia.
    + apply lookup_ge_None in Hl. cbn in HQ. apply HQ; [lia|]. by rewrite drop_ge by lia.
Qed.

(** ** The caller *)

Lemma length_string_of_bytes l : strlen (string_of_bytes l) <= Z.of_nat (length l).
Proof.
  unfold strlen. induction l as [|b l IH]; [done|]. cbn [string_of_bytes length]. destruct (b =? 0); cbn [String.length]; lia.
Qed.

Lemma length_after_nul l r : after_nul l = Some r → (length r < length l)%nat.
Proof. induction l as [|b l IH]; [done|]. cbn. destruct (b =? 0); [intros [= ->]; lia|]. intros ?%IH. lia. Qed.

Lemma rest_short l : Z.of_nat (length l) < ARGS_SIZE → too_long (default EmptyString (argv_rest l)) ARGS_SIZE = false.
Proof.
  intros Hl. apply Z.leb_gt. unfold argv_rest. destruct (after_nul l) as [r|] eqn:Hr; cbn [fmap option_fmap option_map default from_option id].
  - pose proof (length_string_of_bytes (nul_to_blank r)) as Hs. unfold nul_to_blank in Hs at 2. rewrite length_fmap in Hs.
    apply length_after_nul in Hr. lia.
  - done.
Qed.

(** On a kind system the caller is found; it is the parent, or for the daemon
    the process that the client named and the user of the socket's peer. *)
Lemma ex_from_init (Q : option su_initiator → globals → ids → Prop) g w :
  (kind = false → Q None g w) → (∀ from, Q (Some from) g w) → pwp true V from_init Q X g w.
Proof.
  intros Hnone Hsome. unfold from_init. apply ex_call; [done|]. intros u _. apply ex_call; [done|]. intros pp _.
  do 3 apply pwp_bind, pwp_getg. apply ex_call; [done|]. intros fd Hfd.
  destruct (Z.ltb_spec fd 0); [apply pwp_ret, Hnone; destruct kind; [by specialize (Hfd eq_refl); cbn in Hfd; lia|done]|].
  apply pwp_sys_bind; [done|]. intros data w' (Hk&->&Hlen). apply ex_call; [done|]. intros _ _.
  destruct data as [cmdline|].
  2:{ apply pwp_ret, Hnone. destruct kind; [|done]. by destruct (Hk eq_refl) as (?&?&_). }
  destruct (Z.eqb_spec (Z.of_nat (length cmdline)) ARGS_SIZE).
  { apply pwp_ret, Hnone. destruct kind; [|done]. destruct (Hk eq_refl) as (?&[= ->]&Hs). specialize (Hs eq_refl). lia. }
  assert (Hargs : Z.of_nat (length cmdline) < ARGS_SIZE) by (specialize (Hlen _ eq_refl); lia).
  rewrite rest_short by done.
  apply pwp_sys_bind; [done|]. intros link w' (Hk'&->&Hlink). destruct link as [l|].
  2:{ apply pwp_ret, Hnone. destruct kind; [|done]. by destruct (Hk' eq_refl). }
  specialize (Hlink _ eq_refl). rewrite (proj2 (Z.leb_gt PATH_MAX _)) by done.
  assert (Hbin : too_long (if streq (string_of_bytes l) "/system/bin/app_process" then string_of_bytes cmdline else string_of_bytes l) PATH_MAX = false).
  { apply Z.leb_gt. destruct (streq _ _); [pose proof (length_string_of_bytes cmdline); unfold PATH_MAX, ARGS_SIZE in *; lia|].
    pose proof (length_string_of_bytes l). lia. }
  cbv zeta. rewrite Hbin. apply ex_call; [done|]. intros pw Hpw.
  destruct (pw ≫= pw_name) as [name|] eqn:Hname; [|by apply pwp_ret]. apply pwp_ret.
  destruct (too_long name NAME_SIZE) eqn:Hl; [|done]. apply Hnone. destruct kind; [|done].
  specialize (Hpw eq_refl). cbn in Hpw. by rewrite (Hpw _ Hname) in Hl.
Qed.
End executing.

(** [allow] executes the command as the user it is asked to become. *)
Lemma allow_spec {A} kind db from to umask (l : list string) (Q : A → globals → ids → Prop) g w :
  to_argv to = (Some <$> l) ++ [None] → to_optind to <= Z.of_nat (length l) → room_for_command to →
  pwp true (executing kind db (to_uid to) (exec_binary to l) (exec_args to l)) (allow (SC from to umask)) Q (λ _ _, kind = false) g w.
Proof.
  intros Hargv Hi Hroom. unfold allow. cbn [ctx_to ctx_umask]. apply ex_call; [done|]. intros _ _.
  apply pwp_bind, (pick_binary_spec _ _ _ _ _ to l); [done..|]. intros n l' Hn Hd.
  apply pwp_bind.
  assert (Hk : ∀ g, pwp true (executing kind db (to_uid to) (exec_binary to l) (exec_args to l))
    (_ ← populate_environment to; _ ← set_identity (to_uid to);
     argv ← store_arg ((Some <$> l') ++ [None]) (n - 1) (exec_arg0 to (exec_binary to l));
     args ← deref_p (until_null (drop (Z.to_nat (n - 1)) argv));
     exec_command (exec_binary to l) args) Q (λ _ _, kind = false) g w).
  { intros g'. apply pwp_bind, ex_environment, pwp_bind, ex_identity. intros w' Hw.
    apply pwp_bind, ex_store; [lia|]. apply pwp_bind.
    assert (Hdrop : drop (Z.to_nat (n - 1)) ((Some <$> <[Z.to_nat (n - 1) := exec_arg0 to (exec_binary to l)]> l') ++ [None]) =
      (Some <$> exec_args to l) ++ [None]).
    { rewrite drop_app_le by (rewrite length_fmap, length_insert; lia). rewrite <- fmap_drop, drop_insert_here by lia.
      unfold exec_args. rewrite <- Hd. by replace (S (Z.to_nat (n - 1))) with (Z.to_nat n) by lia. }
    rewrite Hdrop, until_null_all. apply pwp_ret. by apply ex_exec. }
  destruct (to_login to) eqn:Hl.
  - apply ex_call; [done|]. intros ok Hok. destruct ok; cbn [negb].
    + apply pwp_ret. specialize (Hk g). unfold exec_arg0 in Hk. rewrite Hl in Hk. exact Hk.
    + apply ex_exit. intros Hkind. by specialize (Hok Hkind).
  - apply pwp_ret. specialize (Hk g). unfold exec_arg0 in Hk. rewrite Hl in Hk. exact Hk.
Qed.
