(* ===== verification/CommandLine.v ===== *)
(** * The command line of su

    A command line as the usage message describes it, what it asks for, and
    that [su_main] finds exactly that in its arguments. *)

From S2P Require Import Prelude Policyfile Process Getopt Pts Daemon Su SuFacts.

(** ** Command lines *)

Inductive su_opt := SO_command (c : string) | SO_login | SO_keep | SO_shell (s : string).

Record command_line := CL {
  cl_prog : string; cl_opts : list su_opt; cl_dash : bool; cl_user : option string; cl_sep : bool; cl_args : list string
}.

Definition print_opt (o : su_opt) : list string :=
  match o with
  | SO_command c => ["-c"; c]
  | SO_login => ["-l"]
  | SO_keep => ["-p"]
  | SO_shell s => ["-s"; s]
  end%string.

(** What follows the options. *)
Definition print_rest (cl : command_line) : list string :=
  (if cl_dash cl then ["-"%string] else []) ++ option_list (cl_user cl) ++ (if cl_sep cl then ["--"%string] else []) ++ cl_args cl.

Definition print_cl (cl : command_line) : list string := cl_prog cl :: (cl_opts cl ≫= print_opt) ++ print_rest cl.

Definition starts_with_dash (s : string) : bool := match s with String "-" _ => true | _ => false end.

(** The user is not mistaken for an option or a separator, nor the first
    argument for a separator; without a user there is nothing behind. *)
Definition cl_ok (cl : command_line) : Prop :=
  match cl_user cl with
  | Some u => (cl_dash cl = false → starts_with_dash u = false) ∧ u ≠ "--"%string ∧
              (cl_sep cl = true ∨ head (cl_args cl) ≠ Some "--"%string)
  | None => cl_sep cl = false ∧ cl_args cl = []
  end.

(** ** What it asks for *)

Definition apply_opt (to : su_request) (o : su_opt) : su_request :=
  match o with
  | SO_command c => set_to_command (Some c) (set_to_shell (Some DEFAULT_SHELL) to)
  | SO_login => set_to_login true to
  | SO_keep => set_to_keepenv true to
  | SO_shell s => set_to_shell (Some s) to
  end.

Definition opt_shell (shell : option string) (o : su_opt) : option string :=
  match o with SO_command _ => Some DEFAULT_SHELL | SO_shell s => Some s | _ => shell end.
Definition opt_command (command : option string) (o : su_opt) : option string :=
  match o with SO_command c => Some c | _ => command end.
Definition is_login (o : su_opt) : bool := match o with SO_login => true | _ => false end.

Definition cl_shell (cl : command_line) : option string := fold_left opt_shell (cl_opts cl) None.
Definition cl_command (cl : command_line) : option string := fold_left opt_command (cl_opts cl) None.
Definition cl_login (cl : command_line) : bool := cl_dash cl || existsb is_login (cl_opts cl).

(** The program that is executed and its arguments. *)
Definition cl_binary (cl : command_line) : string :=
  match cl_shell cl with Some s => s | None => default DEFAULT_SHELL (head (cl_args cl)) end.

Definition cl_exec_args (cl : command_line) : list string :=
  (if cl_login cl then String "-" (base_name (cl_binary cl)) else base_name (cl_binary cl)) ::
  match cl_command cl, cl_shell cl with
  | Some c, _ => "-c"%string :: c :: cl_args cl
  | None, Some _ => cl_args cl
  | None, None => tail (cl_args cl)
  end.

(** The user: by name, else by number; root if none is named. *)
Definition cl_uid (db : string → option passwd) (cl : command_line) : option Z :=
  match cl_user cl with
  | None => Some AID_ROOT
  | Some u =>
      match db u with
      | Some pw =>
          match pw_name pw with
          | Some name => if too_long name NAME_SIZE then None else Some (pw_uid pw)
          | None => Some (pw_uid pw)
          end
      | None =>
          let '(v, erange, rest) := strtoul u in
          if (erange : bool) || negb (bool_decide (rest = EmptyString)) then None else Some v
      end
  end.

(** ** Options *)

(** The arguments at which the options end. *)
Definition ends_options (rest : list string) : Prop :=
  match rest with [] => True | a :: _ => starts_with_dash a = false ∨ a = "-"%string end.

Section options.
Context {W : Type} (V : world W) (X : Z → W → Prop).
Context (l : list string).
Abbreviation argc := (Z.of_nat (length l)).
Abbreviation argv := ((Some <$> l) ++ [None]).
Implicit Types (Q : opt → globals → W → Prop).

Lemma pwp_argv_at i s (Q : string → globals → W → Prop) g w :
  l !! i = Some s → Q s g w → pwp true V (argv_at argv (Z.of_nat i)) Q X g w.
Proof.
  intros Hs HQ. pose proof (lookup_lt_Some _ _ _ Hs). unfold argv_at. apply pwp_bind.
  rewrite at_index_args by lia. rewrite Nat2Z.id, Hs. by do 2 apply pwp_ret.
Qed.

Lemma getopt_end i Q g w : optind g = Z.of_nat i → place g = EmptyString → ends_options (drop i l) →
  Q None g w → pwp true V (getopt_long argc argv short_opts long_opts) Q X g w.
Proof.
  intros Hi Hp He HQ. unfold getopt_long. apply pwp_bind, pwp_getg. rewrite Hp. apply pwp_bind, pwp_getg. rewrite Hi.
  destruct (Z.leb_spec argc (Z.of_nat i)); [by apply pwp_ret|].
  destruct (lookup_lt_is_Some_2 l i) as [s Hs]; [lia|]. rewrite (drop_S _ _ _ Hs) in He. cbn in He.
  apply pwp_bind, (pwp_argv_at _ s); [done|]. destruct He as [He| ->]; [|by apply pwp_ret].
  destruct s as [|[[] [] [] [] [] [] [] []] s]; by apply pwp_ret.
Qed.

Lemma getopt_flag i s c Q g w : l !! i = Some s → s = String "-" (String c EmptyString) →
  short_option short_opts c = Some false → c ≠ "-"%char → optind g = Z.of_nat i → place g = EmptyString →
  Q (Some (c, None)) (set_getopt (Z.of_nat (S i)) EmptyString g) w →
  pwp true V (getopt_long argc argv short_opts long_opts) Q X g w.
Proof.
  intros Hs -> Hc Hd Hi Hp HQ. pose proof (lookup_lt_Some _ _ _ Hs). unfold getopt_long. apply pwp_bind, pwp_getg. rewrite Hp.
  apply pwp_bind, pwp_getg. rewrite Hi, (proj2 (Z.leb_gt argc _)) by lia.
  apply pwp_bind, (pwp_argv_at _ _ _ _ _ Hs).
  assert (pwp true V (getopt_one_short argc argv short_opts c EmptyString) Q X g w) as Hone.
  { unfold getopt_one_short. apply pwp_bind, pwp_getg. rewrite Hc. apply pwp_bind, pwp_setg, pwp_ret. rewrite Hi. cbn.
    by replace (Z.of_nat i + 1) with (Z.of_nat (S i)) by lia. }
  destruct c as [[] [] [] [] [] [] [] []]; exact Hone || done.
Qed.

Lemma getopt_arg i s c v Q g w : l !! i = Some s → s = String "-" (String c EmptyString) → l !! S i = Some v →
  short_option short_opts c = Some true → c ≠ "-"%char → optind g = Z.of_nat i → place g = EmptyString →
  Q (Some (c, Some v)) (set_getopt (Z.of_nat (S (S i))) EmptyString g) w →
  pwp true V (getopt_long argc argv short_opts long_opts) Q X g w.
Proof.
  intros Hs -> Hv Hc Hd Hi Hp HQ. pose proof (lookup_lt_Some _ _ _ Hv). unfold getopt_long. apply pwp_bind, pwp_getg. rewrite Hp.
  apply pwp_bind, pwp_getg. rewrite Hi, (proj2 (Z.leb_gt argc _)) by lia.
  apply pwp_bind, (pwp_argv_at _ _ _ _ _ Hs).
  assert (pwp true V (getopt_one_short argc argv short_opts c EmptyString) Q X g w) as Hone.
  { unfold getopt_one_short. apply pwp_bind, pwp_getg. rewrite Hc. cbn [bool_decide decide negb]. rewrite bool_decide_true by done.
    cbn [negb]. rewrite Hi, (proj2 (Z.leb_gt argc _)) by lia. replace (Z.of_nat i + 1) with (Z.of_nat (S i)) by lia.
    apply pwp_bind, (pwp_argv_at _ _ _ _ _ Hv), pwp_bind, pwp_setg, pwp_ret.
    by replace (Z.of_nat i + 2) with (Z.of_nat (S (S i))) by lia. }
  destruct c as [[] [] [] [] [] [] [] []]; exact Hone || done.
Qed.

Lemma drop_cons_lookup {A} (k : list A) i a r : drop i k = a :: r → k !! i = Some a ∧ drop (S i) k = r.
Proof.
  intros H. split.
  - by rewrite <- (Nat.add_0_r i), <- lookup_drop, H.
  - change (S i) with (1 + i)%nat. by rewrite Nat.add_comm, <- drop_drop, H.
Qed.

Lemma parse_options_spec opts : ∀ n i to rest (Q : su_request → globals → W → Prop) g w,
  (length opts < n)%nat → (i <= length l)%nat → to_argc to = argc → to_argv to = argv →
  drop i l = (opts ≫= print_opt) ++ rest → ends_options rest → optind g = Z.of_nat i → place g = EmptyString →
  (∀ g', optind g' = argc - Z.of_nat (length rest) → place g' = EmptyString → Q (fold_left apply_opt opts to) g' w) →
  pwp true V (parse_options n to) Q X g w.
Proof.
  induction opts as [|o opts IH]; intros [|n] i to rest Q g w Hn Hl Hc Hv Hd He Hi Hp HQ; cbn [length] in Hn; try lia.
  - cbn [parse_options mbind list_bind app] in *. rewrite Hc, Hv. apply pwp_bind, (getopt_end i); [done..|by rewrite Hd|].
    apply pwp_ret, HQ; [|done]. rewrite <- Hd, length_drop, Hi. lia.
  - rewrite bind_cons, <- app_assoc in Hd. cbn [parse_options]. rewrite Hc, Hv. apply pwp_bind. cbn [fold_left] in HQ.
    destruct o as [c| | |s]; cbn [print_opt app] in Hd; apply drop_cons_lookup in Hd as [H1 Hd];
      pose proof (lookup_lt_Some _ _ _ H1).
    + apply drop_cons_lookup in Hd as [H2 Hd]. pose proof (lookup_lt_Some _ _ _ H2).
      apply (getopt_arg i "-c" "c" c); [done..|]. apply pwp_bind, pwp_ret, (IH n (S (S i)) _ rest); first [done|lia].
    + apply (getopt_flag i "-l" "l"); [done..|]. apply pwp_bind, pwp_ret, (IH n (S i) _ rest); first [done|lia].
    + apply (getopt_flag i "-p" "p"); [done..|]. apply pwp_bind, pwp_ret, (IH n (S i) _ rest); first [done|lia].
    + apply drop_cons_lookup in Hd as [H2 Hd]. pose proof (lookup_lt_Some _ _ _ H2).
      apply (getopt_arg i "-s" "s" s); [done..|]. apply pwp_bind, pwp_ret, (IH n (S (S i)) _ rest); first [done|lia].
Qed.
End options.

(** ** The request *)

Lemma streq_decide a b : streq a b = bool_decide (a = b).
Proof. apply Bool.eq_iff_eq_true. by rewrite streq_spec, bool_decide_eq_true. Qed.

Section request.
Context {W : Type} (V : world W) (X : Z → W → Prop).
Context (l : list string) (to : su_request).
Context (Hargc : to_argc to = Z.of_nat (length l)) (Hargv : to_argv to = (Some <$> l) ++ [None]).

Lemma skip_arg_yes s rest (Q : bool → globals → W → Prop) i g w :
  optind g = Z.of_nat i → drop i l = s :: rest → Q true (set_getopt (Z.of_nat (S i)) (place g) g) w → pwp true V (skip_arg to s) Q X g w.
Proof.
  intros Hi [Hs _]%drop_cons_lookup HQ. pose proof (lookup_lt_Some _ _ _ Hs). unfold skip_arg. rewrite Hargc, Hargv.
  apply pwp_bind, pwp_getg. rewrite Hi, (proj2 (Z.ltb_lt _ _)) by lia. apply pwp_bind, (pwp_argv_at V X l _ _ _ _ _ Hs).
  rewrite streq_decide, bool_decide_true by done. apply pwp_bind, pwp_getg, pwp_bind, pwp_setg, pwp_ret.
  by replace (Z.of_nat i + 1) with (Z.of_nat (S i)) by lia.
Qed.

Lemma skip_arg_no s (Q : bool → globals → W → Prop) i g w :
  optind g = Z.of_nat i → head (drop i l) ≠ Some s → Q false g w → pwp true V (skip_arg to s) Q X g w.
Proof.
  intros Hi Hs HQ. unfold skip_arg. rewrite Hargc, Hargv. apply pwp_bind, pwp_getg. rewrite Hi.
  destruct (Z.ltb_spec (Z.of_nat i) (Z.of_nat (length l))); [|by apply pwp_ret].
  destruct (lookup_lt_is_Some_2 l i) as [a Ha]; [lia|]. rewrite (drop_S _ _ _ Ha) in Hs. cbn in Hs.
  apply pwp_bind, (pwp_argv_at V X l _ _ _ _ _ Ha). rewrite streq_decide, bool_decide_false by congruence. by apply pwp_ret.
Qed.

End request.

Section run.
Context (kind : bool) (db : string → option passwd) (uid : Z) (cl : command_line).
Abbreviation V := (executing kind db uid (cl_binary cl) (cl_exec_args cl)).
Abbreviation X := (λ (_ : Z) (_ : ids), kind = false).

Lemma login_arg_spec l to (Q : su_request → globals → ids → Prop) i g w :
  to_argc to = Z.of_nat (length l) → to_argv to = (Some <$> l) ++ [None] → to_uid to = AID_ROOT → cl_uid db cl = Some uid →
  optind g = Z.of_nat i →
  match cl_user cl with
  | Some u => u ≠ "--"%string ∧ head (drop i l) = Some u ∧
      ∀ name, Q (set_to_uid uid to) (set_getopt (Z.of_nat (S i)) (place g) g) w ∧
              Q (set_to_name name (set_to_uid uid to)) (set_getopt (Z.of_nat (S i)) (place g) g) w
  | None => drop i l = [] ∧ (uid = AID_ROOT → Q to g w)
  end → pwp true V (login_arg to) Q X g w.
Proof.
  intros Hargc Hargv Huid Hcl Hi HQ. unfold login_arg. rewrite Hargc, Hargv. apply pwp_bind, pwp_getg. rewrite Hi.
  unfold cl_uid in Hcl. destruct (cl_user cl) as [u|].
  2:{ destruct HQ as [Hd HQ]. injection Hcl as <-. apply (f_equal length) in Hd. rewrite length_drop in Hd. cbn in Hd.
      rewrite (proj2 (Z.ltb_ge _ _)) by lia. by apply pwp_ret, HQ. }
  destruct HQ as (Hu&Hh&HQ). rewrite head_lookup, lookup_drop, Nat.add_0_r in Hh. pose proof (lookup_lt_Some _ _ _ Hh).
  rewrite (proj2 (Z.ltb_lt _ _)) by lia. apply pwp_bind, (pwp_argv_at V X l _ _ _ _ _ Hh).
  rewrite streq_decide, bool_decide_false by done.
  apply pwp_sys_bind; [done|]. intros pw w' (_&->&->).
  assert (Hfin : ∀ to', (∀ g' w', g' = set_getopt (Z.of_nat (S i)) (place g) g → w' = w → Q to' g' w') →
    pwp true V (p ← getg place; _ ← setg (set_getopt (Z.of_nat i + 1) p); mret to') Q X g w).
  { intros to' H'. apply pwp_bind, pwp_getg, pwp_bind, pwp_setg, pwp_ret, H'; [|done]. do 2 f_equal. lia. }
  apply pwp_bind. destruct (db u) as [pw|].
  - destruct (pw_name pw) as [name|].
    + destruct (too_long name NAME_SIZE); [done|]. injection Hcl as ->. apply pwp_ret, Hfin. intros ? ? -> ->. apply (HQ name).
    + injection Hcl as ->. apply pwp_ret, Hfin. intros ? ? -> ->. apply (HQ EmptyString).
  - destruct (strtoul u) as [[v erange] rest]. destruct (erange || _); [done|]. injection Hcl as ->. apply pwp_ret, Hfin.
    intros ? ? -> ->. apply (HQ EmptyString).
Qed.

(** From the position of the first argument on. *)
Lemma decide_request_spec l to (Q : Z → globals → ids → Prop) i g w :
  to_argv to = (Some <$> l) ++ [None] → to_uid to = uid → to_shell to = cl_shell cl → to_command to = cl_command cl →
  to_login to = cl_login cl → (i <= length l)%nat → drop i l = cl_args cl → optind g = Z.of_nat i →
  room_for_command (set_to_optind (Z.of_nat i) to) →
  pwp true V (decide_request to) Q X g w.
Proof.
  intros Hargv Huid Hsh Hcm Hlo Hi Hd Hg Hroom. unfold decide_request. apply pwp_bind, pwp_getg. rewrite Hg.
  set (to' := set_to_optind (Z.of_nat i) to) in *.
  assert (Hb : exec_binary to' l = cl_binary cl).
  { unfold exec_binary, cl_binary. change (to_shell to') with (to_shell to). rewrite Hsh. destruct (cl_shell cl); [done|].
    change (to_optind to') with (Z.of_nat i). by rewrite Nat2Z.id, <- Hd, head_lookup, lookup_drop, Nat.add_0_r. }
  assert (Ha : exec_args to' l = cl_exec_args cl).
  { unfold exec_args, exec_arg0, exec_rest, cl_exec_args. rewrite Hb. change (to_login to') with (to_login to).
    change (to_command to') with (to_command to). change (to_shell to') with (to_shell to).
    change (to_optind to') with (Z.of_nat i). by rewrite Hlo, Hcm, Hsh, Nat2Z.id, Hd. }
  apply pwp_bind, ex_from_init.
  - intros Hk. unfold deny. apply pwp_bind. unfold get_command. destruct (to_command to'); [by apply pwp_ret, pwp_exit|].
    destruct (to_shell to'); [by apply pwp_ret, pwp_exit|]. apply pwp_bind. change (to_argv to') with (to_argv to). rewrite Hargv.
    rewrite at_index_args by (cbn; lia). by apply pwp_ret, pwp_ret, pwp_exit.
  - intros from.
    assert (pwp true V (allow (SC from to' 0)) Q X g w) as Hallow.
    { rewrite <- Hb, <- Ha, <- Huid. apply (allow_spec kind db from to' 0 l); [done|cbn; lia|done]. }
    cbv zeta. by repeat destruct (_ =? _).
Qed.

(** A request in which the options [to] were found before the position [n]. *)
Record parsed (l : list string) (n : nat) (login : bool) (to : su_request) : Prop := {
  pa_argc : to_argc to = Z.of_nat (length l);
  pa_argv : to_argv to = (Some <$> l) ++ [None];
  pa_shell : to_shell to = cl_shell cl;
  pa_command : to_command to = cl_command cl;
  pa_login : to_login to = login;
  pa_room : is_Some (cl_command cl) → (3 <= n)%nat ∧ is_Some (cl_shell cl);
  pa_pos : (1 <= n)%nat
}.

Lemma separator_spec l n to (Q : Z → globals → ids → Prop) i g w :
  parsed l n (cl_login cl) to → to_uid to = uid → (n <= i <= length l)%nat → optind g = Z.of_nat i →
  drop i l = (if cl_sep cl then ["--"%string] else []) ++ cl_args cl →
  (cl_sep cl = false → head (cl_args cl) ≠ Some "--"%string) →
  pwp true V (_ ← skip_arg to "--"; decide_request to) Q X g w.
Proof.
  intros [Hc Hv Hs Hm Hl Hr Hp] Hu Hi Hg Hd Hn.
  assert (Hroom : ∀ k, (n <= k)%nat → room_for_command (set_to_optind (Z.of_nat k) to)).
  { intros k Hk. unfold room_for_command. cbn. rewrite Hm, Hs. destruct (cl_command cl); [|lia].
    destruct Hr as [H3 Hsome]; [done|]. split; [lia|done]. }
  apply pwp_bind. destruct (cl_sep cl) eqn:Hsep.
  - apply (skip_arg_yes _ _ l _ Hc Hv _ (cl_args cl) _ i); [done..|]. apply drop_cons_lookup in Hd as [Hlk Hd].
    pose proof (lookup_lt_Some _ _ _ Hlk). by apply (decide_request_spec l to Q (S i)); [done..|lia|done|done|apply Hroom; lia].
  - apply (skip_arg_no _ _ l _ Hc Hv _ _ i); [done|rewrite Hd; by apply Hn|].
    by apply (decide_request_spec l to Q i); [done..|lia|done|done|apply Hroom; lia].
Qed.

Lemma user_spec l n to (Q : Z → globals → ids → Prop) i g w :
  parsed l n (cl_login cl) to → to_uid to = AID_ROOT → cl_ok cl → cl_uid db cl = Some uid → (n <= i <= length l)%nat → optind g = Z.of_nat i →
  drop i l = option_list (cl_user cl) ++ (if cl_sep cl then ["--"%string] else []) ++ cl_args cl →
  pwp true V (to ← login_arg to; _ ← skip_arg to "--"; decide_request to) Q X g w.
Proof.
  intros P Hu Hok Hcl Hi Hg Hd. destruct P as [Hc Hv Hs Hm Hl Hr Hp].
  apply pwp_bind, (login_arg_spec l to _ i); [done..|]. unfold cl_ok in Hok.
  destruct (cl_user cl) as [u|] eqn:Huser; cbn [option_list app] in Hd.
  - destruct Hok as (_&Hne&Hsep). rewrite Hd. split; [done|]. split; [done|]. apply drop_cons_lookup in Hd as [Hlk Hd].
    pose proof (lookup_lt_Some _ _ _ Hlk).
    intros name. split; apply (separator_spec l n _ _ (S i)); try done; try lia; intros Hf; rewrite Hf in Hsep; by destruct Hsep.
  - destruct Hok as [Hsep Ha]. split; [by rewrite Hd, Hsep, Ha|]. intros Hroot.
    apply (separator_spec l n _ _ i); try done; try lia; by rewrite Ha.
Qed.

Lemma run_request_spec pre to (Q : Z → globals → ids → Prop) g w :
  let l := pre ++ print_rest cl in
  cl_ok cl → cl_uid db cl = Some uid → parsed l (length pre) (existsb is_login (cl_opts cl)) to → to_uid to = AID_ROOT →
  optind g = Z.of_nat (length pre) → pwp true V (run_request to) Q X g w.
Proof.
  intros l Hok Hcl P Hu Hg. pose proof P as [Hc Hv Hs Hm Hl Hr Hp]. unfold run_request. apply pwp_bind.
  assert (Hd : drop (length pre) l = print_rest cl) by apply drop_app_length.
  destruct (cl_dash cl) eqn:Hdash.
  - eapply (skip_arg_yes _ _ l to Hc Hv _ _ _ (length pre)); [done|rewrite Hd; unfold print_rest; by rewrite Hdash|].
    unfold print_rest in Hd. rewrite Hdash in Hd. apply drop_cons_lookup in Hd as [Hlk Hd]. pose proof (lookup_lt_Some _ _ _ Hlk).
    apply (user_spec l (length pre) _ _ (S (length pre))); try done; [|lia]. split; try done. unfold cl_login. by rewrite Hdash.
  - unfold print_rest in Hd. rewrite Hdash in Hd. apply (skip_arg_no _ _ l to Hc Hv _ _ (length pre)); [done| |].
    + rewrite Hd. unfold cl_ok in Hok. destruct (cl_user cl) as [u|]; cbn; [|by destruct Hok as [-> ->]].
      destruct Hok as [Hs' _]. intros [= ->]. by specialize (Hs' Hdash).
    + apply (user_spec l (length pre) _ _ (length pre)); try done; [|unfold l; rewrite length_app; lia].
      split; try done. unfold cl_login. by rewrite Hdash.
Qed.
End run.

(** ** The whole program *)

Lemma fold_opts opts : ∀ to,
  let to' := fold_left apply_opt opts to in
  to_argc to' = to_argc to ∧ to_argv to' = to_argv to ∧ to_uid to' = to_uid to ∧
  to_shell to' = fold_left opt_shell opts (to_shell to) ∧ to_command to' = fold_left opt_command opts (to_command to) ∧
  to_login to' = to_login to || existsb is_login opts.
Proof.
  induction opts as [|o opts IH]; intros to; cbn [fold_left existsb]; [by rewrite orb_false_r|].
  destruct (IH (apply_opt to o)) as (H1&H2&H3&H4&H5&H6). rewrite H1, H2, H3, H4, H5, H6.
  destruct o, to as [? ? [] ? ? ? ? ? ?]; by cbn.
Qed.

Lemma fold_shell opts : ∀ sh, is_Some sh → is_Some (fold_left opt_shell opts sh).
Proof. induction opts as [|o opts IH]; intros sh Hsh; [done|]. cbn [fold_left]. apply IH. by destruct o. Qed.

Lemma fold_command opts : ∀ sh c, is_Some (fold_left opt_command opts c) →
  is_Some c ∨ (2 <= length (opts ≫= print_opt))%nat ∧ is_Some (fold_left opt_shell opts sh).
Proof.
  induction opts as [|o opts IH]; intros sh c Hc; [by left|]. cbn [fold_left] in *. rewrite bind_cons, length_app.
  destruct o as [c'| | |s].
  - right. cbn [print_opt length]. split; [lia|]. by apply fold_shell.
  - destruct (IH (opt_shell sh SO_login) _ Hc) as [?|[? ?]]; [by left|right; split; [lia|done]].
  - destruct (IH (opt_shell sh SO_keep) _ Hc) as [?|[? ?]]; [by left|right; split; [lia|done]].
  - destruct (IH (opt_shell sh (SO_shell s)) _ Hc) as [?|[? ?]]; [by left|right; split; [lia|done]].
Qed.

Lemma length_opts opts : (length opts <= length (opts ≫= print_opt))%nat.
Proof. induction opts as [|o opts IH]; [done|]. rewrite bind_cons, length_app. destruct o; cbn [length print_opt]; lia. Qed.

Lemma argv_size_length l : (length l < argv_size ((Some <$> l) ++ [None]))%nat.
Proof. unfold argv_size. induction l as [|s l IH]; cbn in *; lia. Qed.

Lemma rest_ends cl : cl_ok cl → ends_options (print_rest cl).
Proof.
  unfold cl_ok, print_rest, ends_options. intros Hok. destruct (cl_dash cl); [by right|]. cbn [app].
  destruct (cl_user cl) as [u|]; [|by destruct Hok as [-> ->]]. left. by apply Hok.
Qed.

(** The second argument does not ask for the daemon. *)
Lemma not_daemon cl s : cl_ok cl → print_cl cl !! 1%nat = Some s →
  streq s "--daemon" || streq s "-d" || streq s "--start" = false.
Proof.
  intros Hok Hs. assert (starts_with_dash s = false ∨ s ∈ ["-c"; "-l"; "-p"; "-s"; "-"]%string) as Hc.
  { unfold print_cl in Hs. cbn in Hs. destruct (cl_opts cl) as [|o opts].
    - cbn in Hs. pose proof (rest_ends cl Hok) as He. destruct (print_rest cl) as [|a r]; [done|]. injection Hs as ->.
      destruct He as [?| ->]; [by left|right]. apply (bool_decide_unpack _). by vm_compute.
    - right. destruct o; injection Hs as <-; apply (bool_decide_unpack _); by vm_compute. }
  rewrite !streq_decide. destruct Hc as [Hc|Hc].
  - rewrite !bool_decide_false; [done|intros ->; discriminate Hc..].
  - repeat (apply elem_of_cons in Hc as [->|Hc]; [by vm_compute|]). by apply not_elem_of_nil in Hc.
Qed.

Section program.
Context (kind : bool) (db : string → option passwd) (uid : Z) (binary : string) (args : list string).
Abbreviation V := (executing kind db uid binary args).
Abbreviation X := (λ (_ : Z) (_ : ids), kind = false).

Lemma ex_samsung Q g w : Q () g w → pwp true V fork_for_samsung Q X g w.
Proof.
  intros HQ. unfold fork_for_samsung. apply ex_call; [done|]. intros pid Hpid.
  destruct (Z.eqb_spec pid 0); [by apply pwp_ret|]. destruct (pid =? -1); [by apply ex_exit; intros Hk; apply n, Hpid|].
  apply ex_call; [done|]. intros r _. destruct (_ <? 0); apply ex_exit; intros Hk; by apply n, Hpid.
Qed.

Lemma ex_unset vars Q g w : Q () g w → pwp true V (unset_all vars) Q X g w.
Proof. intros HQ. induction vars as [|v vars IH]; [by apply pwp_ret|]. by apply ex_call. Qed.

End program.

Lemma su_main_spec magiskpolicy_main kind db uid cl n (Q : Z → globals → ids → Prop) g w :
  let l := print_cl cl in
  cl_ok cl → cl_uid db cl = Some uid → optind g = 1 → place g = EmptyString →
  pwp true (executing kind db uid (cl_binary cl) (cl_exec_args cl))
    (su_main magiskpolicy_main (S n) (Z.of_nat (length l)) ((Some <$> l) ++ [None]) false) Q (λ _ _, kind = false) g w.
Proof.
  intros l Hok Hcl Hg Hp. cbn [su_main]. apply pwp_bind. unfold is_run_daemon.
  assert (Hgo : ∀ b, b = false → pwp true (executing kind db uid (cl_binary cl) (cl_exec_args cl))
    (if (b : bool) then
       e ← daemon_exists n;
       if (e : bool) then mret 0
       else
         _ ← daemonize; _ ← magiskpolicy_main ["supolicy"; "--live"]%string; _ ← sys (Set_title "permd"); _ ← selinux_attr_set_priv;
         run_daemon (su_main magiskpolicy_main n) n
     else
       ppid ← sys Getppid; _ ← fork_for_samsung; _ ← unset_all unsec_vars;
       to ← parse_options (S (argv_size ((Some <$> l) ++ [None]))) (initial_request (Z.of_nat (length l)) ((Some <$> l) ++ [None]));
       run_request to) Q (λ _ _, kind = false) g w).
  { intros b ->. apply ex_call; [done|]. intros ppid _. apply pwp_bind, ex_samsung, pwp_bind, ex_unset, pwp_bind.
    set (pre := cl_prog cl :: (cl_opts cl ≫= print_opt)). assert (Hl : l = pre ++ print_rest cl) by done.
    apply (parse_options_spec _ _ l (cl_opts cl) _ 1 _ (print_rest cl)); try done.
    - pose proof (argv_size_length l) as Hs. pose proof (length_opts (cl_opts cl)) as Ho.
      rewrite Hl, length_app in Hs at 1. unfold pre in Hs. cbn [length] in Hs. lia.
    - rewrite Hl. unfold pre. cbn [length app]. lia.
    - by apply rest_ends.
    - intros g' Hg' _. destruct (fold_opts (cl_opts cl) (initial_request (Z.of_nat (length l)) ((Some <$> l) ++ [None]))) as (H1&H2&H3&H4&H5&H6).
      rewrite Hl in *. apply (run_request_spec kind db uid cl pre); try done.
      + split; try done; [|unfold pre; cbn [length]; lia]. intros Hcmd.
        destruct (fold_command (cl_opts cl) None None Hcmd) as [[? [=]]|[Hlen Hsh]]. split; [unfold pre; cbn [length]; lia|done].
      + rewrite Hg', length_app. lia. }
  destruct (Z.eqb_spec (Z.of_nat (length l)) 2) as [H2|H2]; [|by apply pwp_ret, (Hgo false)].
  destruct (lookup_lt_is_Some_2 l 1) as [s Hs]; [lia|]. apply pwp_bind.
  apply (pwp_argv_at _ _ l 1 s); [done|]. apply pwp_ret, Hgo. by apply (not_daemon cl).
Qed.
