(* ===== verification/SuProperties.v ===== *)
(** * The properties of su

    The command that is executed, the protocol between client and daemon, the
    terminal and the exit code, each theorem with an instance. *)

From S2P Require Import Prelude Policyfile Containers Process Getopt Pts PtsFacts Daemon Su Protocol SuFacts CommandLine.

(** ** The command *)





(** ** Faults of the command line *)

(** A system that answers kindly, always in the same way. *)
Definition friendly (o : ∀ c, answer c) : Prop :=
  (∀ c, match c with Execvp _ _ => False | _ => True end → kind_answer c (o c)) ∧
  (∀ p l, o (Readlink p PATH_MAX) = Some l → Z.of_nat (length l) < PATH_MAX) ∧
  (∀ u pw, o (Getpwuid u) = Some pw → is_Some (pw_name pw)).

Definition friendly_answer (c : call) : answer c :=
  match c return answer c with
  | Wait | Waitpid _ | Fcntl_getfd _ | Peercred _ => (0, 0)
  | Getrlimit_nofile => Some 1024
  | Getenv _ => None
  | Getpwuid _ | Getpwnam _ => None
  | Malloc _ => true
  | Read _ _ | Readlink _ _ => Some []
  | Fstat _ => None
  | Isatty _ | Access _ => false
  | Recvmsg _ => RCV 0 0 None
  | Ptsname_r _ _ => None
  | Tcgetattr _ => None
  | Get_winsize _ => None
  | Next_unix_line => None
  | Set_title _ => ()
  | _ => 0
  end.

(** Runs the calls at the front. *)
Ltac drv :=
  repeat (match goal with
  | |- context [drive ?o ((sys ?c ≫= ?f) ?g)] => change (drive o ((sys c ≫= f) g)) with (drive o (f (o c) g))
  | |- context [drive ?o ((getg ?h ≫= ?f) ?g)] => change (drive o ((getg h ≫= f) g)) with (drive o (f (h g) g))
  | |- context [drive ?o ((setg ?h ≫= ?f) ?g)] => change (drive o ((setg h ≫= f) g)) with (drive o (f () (h g)))
  | |- context [drive ?o ((mret ?a ≫= ?f) ?g)] => change (drive o ((mret a ≫= f) g)) with (drive o (f a g))
  end; cbv beta).

Section friendly.
Context (o : ∀ c, answer c) (Ho : friendly o).

Lemma drive_from_init g : ∃ from, drive o (from_init g) = Return (Some from, g).
Proof.
  destruct Ho as (Hk&Hl&_). unfold from_init. drv. cbv zeta.
  match goal with |- context [o (Open ?p O_RDONLY)] => pose proof (Hk (Open p O_RDONLY) I) as Hopen; cbn in Hopen; set (fd := o (Open p O_RDONLY)) in * end.
  rewrite (proj2 (Z.ltb_ge _ _)) by exact Hopen. drv. destruct (Hk (Read fd ARGS_SIZE) I) as (l&->&Hlen). specialize (Hlen eq_refl).
  rewrite (proj2 (Z.eqb_neq _ _)) by lia. cbv zeta. rewrite rest_short by done. drv.
  match goal with |- context [o (Readlink ?p PATH_MAX)] => destruct (Hk (Readlink p PATH_MAX) I) as [e He]; pose proof (Hl p e He) as Hexe end.
  rewrite He, (proj2 (Z.leb_gt PATH_MAX _)) by done. cbv zeta.
  match goal with |- context [too_long ?b PATH_MAX] => assert (too_long b PATH_MAX = false) as -> end.
  { apply Z.leb_gt. destruct (streq _ _); [pose proof (length_string_of_bytes l)|pose proof (length_string_of_bytes e)];
      unfold PATH_MAX, ARGS_SIZE in *; lia. }
  drv. match goal with |- context [o (Getpwuid ?u)] => pose proof (Hk (Getpwuid u) I) as Hpw; cbn in Hpw; destruct (o (Getpwuid u)) as [pw|] end.
  - cbn [mbind option_bind]. destruct (pw_name pw) as [name|] eqn:Hn; [|by eexists].
    rewrite (Hpw name) by (cbn; by rewrite Hn). by eexists.
  - by eexists.
Qed.

Lemma drive_unset l g : drive o (unset_all l g) = Return ((), g).
Proof. induction l as [|v l IH]; [done|]. exact IH. Qed.

Lemma drive_samsung g : drive o (fork_for_samsung g) = Return ((), g).
Proof. destruct Ho as (Hk&_). unfold fork_for_samsung. drv. rewrite (Hk Fork I : o Fork = 0). done. Qed.

Lemma drive_environment to g : drive o (populate_environment to g) = Return ((), g).
Proof.
  destruct Ho as (_&_&Hn). unfold populate_environment. destruct (to_keepenv to); [done|]. drv.
  destruct (o (Getpwuid (to_uid to))) as [pw|] eqn:Hpw; [|done]. drv. destruct (to_login to || _); [|done].
  by destruct (Hn _ _ Hpw) as [name ->].
Qed.

Lemma drive_identity uid g : drive o (set_identity uid g) = Return ((), g).
Proof.
  destruct Ho as (Hk&_). unfold set_identity. drv. rewrite (Hk (Seteuid 0) I : o (Seteuid 0) = 0). cbn [Z.eqb negb]. drv.
  rewrite (Hk (Setresgid uid uid uid) I : o (Setresgid uid uid uid) = 0). cbn [Z.eqb negb]. drv.
  by rewrite (Hk (Setresuid uid uid uid) I : o (Setresuid uid uid uid) = 0).
Qed.

(** The store before the first argument. *)
Lemma drive_allow_underflow {A} from to umask argv binary g :
  drive o (pick_binary to g) = Return ((binary, 0, argv), g) →
  drive o (@allow A (SC from to umask) g) = Undefined.
Proof.
  intros Hp. destruct Ho as (Hk&_). unfold allow. drv. cbn [ctx_to]. erewrite drive_proc by exact Hp.
  assert (∀ arg0, drive o ((_ ← populate_environment to; _ ← set_identity (to_uid to); argv ← store_arg argv (0 - 1) arg0;
    args ← deref_p (until_null (drop (Z.to_nat (0 - 1)) argv)); @exec_command binary args A) g) = Undefined) as Hrest.
  { intros arg0. erewrite drive_proc by apply drive_environment. erewrite drive_proc by apply drive_identity. by apply drive_undefined. }
  destruct (to_login to).
  - erewrite (drive_proc _ _ _ g (String "-" (base_name binary)) g); [apply Hrest|]. drv.
    by rewrite (Hk (Malloc _) I : o (Malloc _) = true).
  - erewrite (drive_proc _ _ _ g (base_name binary) g); [apply Hrest|done].
Qed.

Lemma drive_decide_underflow to argv binary g :
  drive o (pick_binary (set_to_optind (optind g) to) g) = Return ((binary, 0, argv), g) →
  drive o (decide_request to g) = Undefined.
Proof.
  intros Hp. unfold decide_request. drv. destruct (drive_from_init g) as [from Hfrom]. erewrite drive_proc by exact Hfrom.
  cbv beta iota zeta. destruct (from_uid from =? AID_ROOT); [by eapply drive_allow_underflow|].
  by destruct (from_uid from =? AID_SHELL); eapply drive_allow_underflow.
Qed.
End friendly.

(** [su -cCOMMAND], with the command in the same argument as the option, is
    undefined behaviour on every system whose calls succeed: [allow] stores the
    command, the option and the name of the shell before the first argument that
    is no option, and there are only two places. *)
Theorem joined_command_underflow o magiskpolicy_main prog c cmd n g :
  friendly o → optind g = 1 → place g = EmptyString →
  drive o (su_main magiskpolicy_main (S n) 2 [Some prog; Some (String "-" (String "c" (String c cmd))); None] false g) = Undefined.
Proof.
  intros Ho Hi Hp. cbn [su_main]. set (argv := [Some prog; _; None]).
  assert (Hd : is_run_daemon 2 argv g = Return (false, g)).
  { set (s := String "-" (String "c" (String c cmd))) in argv.
    change (is_run_daemon 2 argv g) with (Return (streq s "--daemon" || streq s "-d" || streq s "--start", g)).
    by rewrite !streq_decide, !bool_decide_false. }
  erewrite drive_proc by (by rewrite Hd). cbv beta iota. drv. erewrite drive_proc by by apply drive_samsung.
  erewrite drive_proc by apply drive_unset.
  set (to := set_to_command (Some (String c cmd)) (set_to_shell (Some DEFAULT_SHELL) (initial_request 2 argv))).
  assert (Hparse : parse_options (S (argv_size argv)) (initial_request 2 argv) g = Return (to, set_getopt 2 EmptyString g)).
  { destruct g. cbn in Hi, Hp. subst. done. }
  erewrite drive_proc by (by rewrite Hparse).
  unfold run_request. by eapply drive_decide_underflow.
Qed.

Lemma friendly_answer_ok : friendly friendly_answer.
Proof.
  split; [|split; [by intros p l [= <-]|done]]. intros c Hc. destruct c; try done; cbn.
  - exists []. by split.
  - by eexists.
Qed.

Lemma joined_command_underflow_witness :
  drive friendly_answer (su_main (λ _, mret 0) 1 2 [Some "su"; Some "-cid"; None]%string false globals_init) = Undefined.
Proof.
  apply (joined_command_underflow friendly_answer (λ _, mret 0) "su" "i" "d" 0 globals_init); [|reflexivity|reflexivity].
  exact friendly_answer_ok.
Defined.

(** ** The protocol *)



(** With MOUNT_EMULATED_STORAGE set and no argument, the client announces no
    argument at all but sends its own name; the daemon's child then runs [su_main]
    without arguments, which reads behind the array of arguments whatever a
    system whose calls succeed answers. *)
Theorem mount_without_arguments o magiskpolicy_main ppid atty pts a0 m n g :
  message_of ppid atty 1 pts true [a0] m → friendly o → optind g = 1 → place g = EmptyString →
  m_argc m = 0 ∧ m_args m = [a0] ∧ drive o (su_main magiskpolicy_main (S n) (m_argc m) [None] false g) = Undefined.
Proof.
  intros (_&_&_&Hc&Ha&_) Ho Hi Hp. rewrite Hc, Ha. split; [done|]. split; [done|]. cbn [su_main].
  erewrite (drive_proc _ _ _ g false g) by done. cbv beta iota. drv. erewrite drive_proc by by apply drive_samsung.
  erewrite drive_proc by apply drive_unset.
  assert (Hparse : parse_options (S (argv_size [None])) (initial_request (1 - 1) [None]) g = Return (initial_request 0 [None], g)).
  { destruct g. cbn in Hi, Hp. subst. done. }
  erewrite drive_proc by (by rewrite Hparse).
  unfold run_request. destruct (drive_from_init o Ho g) as [from Hfrom].
  erewrite (drive_proc _ _ _ g false g); [|destruct g; cbn in Hi; subst; done].
  erewrite (drive_proc _ _ _ g (initial_request 0 [None]) g); [|destruct g; cbn in Hi; subst; done].
  erewrite (drive_proc _ _ _ g false g); [|destruct g; cbn in Hi; subst; done].
  unfold decide_request. drv. erewrite drive_proc by exact Hfrom. cbv beta iota zeta.
  assert (∀ c, drive o (allow (SC from (set_to_optind (optind g) (initial_request 0 [None])) c) g) = @Undefined (Z * globals)) as Hallow.
  { intros c. unfold allow. drv. apply drive_undefined. by rewrite Hi. }
  destruct (from_uid from =? AID_ROOT); [apply Hallow|]. by destruct (from_uid from =? AID_SHELL); apply Hallow.
Qed.

Lemma mount_without_arguments_witness :
  let m := MSG 1 EmptyString 7 true (Some 0) (Some 1) (Some 2) 0 ["su"%string] in
  m_argc m = 0 ∧ m_args m = ["su"%string] ∧
  drive friendly_answer (su_main (λ _, mret 0) 1 (m_argc m) [None] false globals_init) = Undefined.
Proof.
  apply (mount_without_arguments friendly_answer (λ _, mret 0) 7 0 EmptyString "su"
           (MSG 1 EmptyString 7 true (Some 0) (Some 1) (Some 2) 0 ["su"%string]) 0 globals_init).
  - repeat split; by right.
  - exact friendly_answer_ok.
  - reflexivity.
  - reflexivity.
Defined.

(** ** The child of the daemon *)




(** ** Exit codes *)

(** What [waitpid] stores for a process that called [exit(z)]. *)
Definition wait_status (z : Z) : Z := Z.shiftl (Z.land z 0xff) 8.

(** [fork] answers in the parent; the child ended with [status]. *)
Definition awaiting (status : Z) : world () :=
  WORLD (λ _ _, True)
    (λ _ c, match c return answer c → () → Prop with
            | Fork => λ a _, 0 < a
            | Wait | Waitpid _ => λ a _, 0 < a.1 ∧ a.2 = status
            | _ => λ _ _, True
            end).

(** The exit code of the command is lost: whatever code the command ends
    with, the process that waits for it exits with the raw status of [waitpid],
    of which the system keeps the lowest eight bits, and they are 0; the process
    of [fork_for_samsung] and the daemon pass that 0 on. Only a command that is
    killed by a signal makes a code other than 0. *)
Theorem exit_code_lost binary args code g fd child (Q : Z → globals → () → Prop) :
  0 <= code < 256 →
  pwp true (awaiting (wait_status code)) (exec_command binary args) Q
    (λ z _, ∀ g, pwp true (awaiting (wait_status z)) fork_for_samsung (λ _ _ _, False)
       (λ z' _, z' = 0 ∧ pwp true (awaiting (wait_status z')) (await_child fd child) (λ z'' _ _, z'' = 0) (λ _ _, False) g ()) g ()) g ().
Proof.
  intros Hc. assert (Hz : wait_status (wait_status code) = 0).
  { unfold wait_status. rewrite Z.land_ones with (n := 8) by done. rewrite Z.land_ones with (n := 8) by done.
    rewrite !Z.shiftl_mul_pow2, Z.mod_mul by done. done. }
  unfold exec_command. apply pwp_sys_bind; [done|]. intros pid w' Hpid. cbn [awaiting answers] in Hpid.
  rewrite (proj2 (Z.eqb_neq pid 0)) by lia. apply pwp_sys_bind; [done|]. intros [rc st] w'' [_ Hst]. cbn [fst snd] in *. subst st.
  apply pwp_exit. intros g1. rewrite Hz. unfold fork_for_samsung. apply pwp_sys_bind; [done|]. intros p1 w1 Hp1. cbn [awaiting answers] in Hp1.
  rewrite (proj2 (Z.eqb_neq p1 0)), (proj2 (Z.eqb_neq p1 (-1))) by lia.
  apply pwp_sys_bind; [done|]. intros [rc1 st1] w2 [Hrc1 Hst1]. cbn [fst snd] in *. subst st1.
  rewrite (proj2 (Z.ltb_ge rc1 0)) by lia. apply pwp_exit. split; [done|].
  unfold await_child. apply pwp_sys_bind; [done|]. intros [rc2 st2] w3 [Hrc2 Hst2]. cbn [fst snd] in *. subst st2.
  rewrite (proj2 (Z.ltb_lt 0 rc2)) by lia. apply pwp_sys_bind; [done|]. intros [r e] w4 _. cbn [fst snd].
  destruct ((r =? -1) && _); [by apply pwp_ret|]. do 2 (apply pwp_sys_bind; [done|]; intros ? ? _). by apply pwp_ret.
Qed.

Lemma exit_code_lost_witness :
  pwp true (awaiting (wait_status 1)) (exec_command "/system/bin/sh" ["sh"; "-c"; "false"]%string) (λ (_ : Z) _ _, False)
    (λ z _, ∀ g, pwp true (awaiting (wait_status z)) fork_for_samsung (λ _ _ _, False)
       (λ z' _, z' = 0 ∧ pwp true (awaiting (wait_status z')) (await_child 5 42) (λ z'' _ _, z'' = 0) (λ _ _, False) g ()) g ())
    globals_init ().
Proof. apply (exit_code_lost "/system/bin/sh" ["sh"; "-c"; "false"]%string 1 globals_init 5 42). lia. Defined.

(** ** The terminal *)

(** [pump_ex] copies: when nothing fails, every byte of the input in its
    order, however reads and writes split it; after a failure, a prefix of it. The
    number of reads and of writes between two reads is at most the number of bytes,
    and one more. *)
Theorem pump_copies reliable input output (close : bool) data n g :
  (length data < n)%nat →
  pwp true (pumping reliable input output) (pump_ex n input output close)
    (λ _ g' w, g' = g ∧ copied reliable data w) (λ _ _, False) g (data, []).
Proof.
  intros Hn. unfold pump_ex. apply pwp_bind. eapply pwp_mono; [| |by apply (pump_loop_spec reliable input output data n g)]; [|done]. intros _ g' w [-> Hc].
  apply pwp_sys_bind; [done|]. intros ? ? ->. destruct close; [|by apply pwp_ret]. cbn [p_when].
  apply pwp_ignore, pwp_sys; [done|]. by intros ? ? ->.
Qed.

Lemma pump_copies_witness :
  pwp true (pumping true 0 5) (pump_ex 4 0 5 true) (λ _ g' w, g' = globals_init ∧ copied true [104; 105; 10] w) (λ _ _, False)
    globals_init ([104; 105; 10], []).
Proof. apply (pump_copies true 0 5 true [104; 105; 10] 4 globals_init). cbn. lia. Defined.

(** [restore_stdin] gives the terminal back as [set_stdin_raw] found it,
    whichever of the calls fail; if it fails itself, it can be called again: the
    old mode is kept. *)
Theorem stdin_restored g t :
  stdin_is_raw g = false →
  pwp true on_terminal (rc1 ← set_stdin_raw; rc2 ← restore_stdin; mret (rc1, rc2))
    (λ '(rc1, rc2) g' t',
      (rc2 = 0 ∧ t' = t ∧ stdin_is_raw g' = false) ∨
      (rc1 = 0 ∧ rc2 = -1 ∧ t' = raw t ∧ stdin_is_raw g' = true ∧ old_stdin g' = t)) (λ _ _, False) g t.
Proof.
  intros Hg. apply pwp_bind, set_stdin_raw_spec.
  - intros g1 Hr Ho. apply pwp_bind, restore_stdin_spec; rewrite Hr; [done|]. intros _. split.
    + intros g2 H2. apply pwp_ret. left. by rewrite Ho.
    + apply pwp_ret. by right.
  - intros g1 Hr. rewrite Hg in Hr. apply pwp_bind, restore_stdin_spec; rewrite Hr; [|done]. intros _. apply pwp_ret. by left.
Qed.

Lemma stdin_restored_witness :
  pwp true on_terminal (rc1 ← set_stdin_raw; rc2 ← restore_stdin; mret (rc1, rc2))
    (λ '(rc1, rc2) g' t',
      (rc2 = 0 ∧ t' = TIO 0x500 5 0x3b 1 0 0 ∧ stdin_is_raw g' = false) ∨
      (rc1 = 0 ∧ rc2 = -1 ∧ t' = TIO 4 4 0 1 0 0 ∧ stdin_is_raw g' = true ∧ old_stdin g' = TIO 0x500 5 0x3b 1 0 0))
    (λ _ _, False) globals_init (TIO 0x500 5 0x3b 1 0 0).
Proof. apply (stdin_restored globals_init (TIO 0x500 5 0x3b 1 0 0)). reflexivity. Defined.

(** ** Vectors *)

(** A vector holds what was pushed, in its order, and [vec_for_each] runs over
    it, unless the number of elements is a power of two: then the block is full,
    and the macro, which fetches the next element before it tests the index, reads
    behind the block. *)
Theorem vector_iteration l m :
  Z.of_nat (length l) < 2 ^ 28 → plenty m →
  ∃ v m', (v ← vec_init; push_all v l) m = Ret (v, m') ∧ vec_ok v l ∧
    ((∃ j, 0 <= j ∧ Z.of_nat (length l) = 2 ^ j) ↔ vec_for_each v = Undef) ∧
    (vec_for_each v ≠ Undef → vec_for_each v = Ret (Some <$> l)).
Proof.
  intros Hl Hm. destruct (vec_init_ok m Hm) as (v0&m0&E0&Hv0&Hm0). destruct (push_all_ok l v0 [] m0 Hv0) as (v&m'&E&Hv&_); [done|done|]. cbn [app] in Hv.
  exists v, m'. split; [unfold mbind, M_bind; by rewrite E0|]. split; [done|]. rewrite (vec_for_each_spec v l Hv).
  pose proof Hv as (_&_&_&Hs&Hf&_). rewrite Hs in *. destruct (Z.ltb_spec (Z.of_nat (length l)) (vcap v)) as [Hlt|Hge].
  - split; [|done]. split; [|done]. intros (j&Hj&Hp). exfalso.
    assert (Z.of_nat (length l) = vcap v); [|lia]. apply fits_full; [|done|by exists j]. rewrite Hp. pose proof (Z.pow_pos_nonneg 2 j). lia.
  - split; [|by intros []]. split; [done|]. intros _. pose proof Hf as (k&Hk&Hc&Hle&_). exists k. split; [done|]. lia.
Qed.

Lemma vector_iteration_witness :
  ∃ v m', (v ← vec_init; push_all v [7]) [] = Ret (v, m') ∧ vec_ok v [7] ∧
    ((∃ j, 0 <= j ∧ Z.of_nat (length [7]) = 2 ^ j) ↔ vec_for_each v = Undef) ∧
    (vec_for_each v ≠ Undef → vec_for_each v = Ret (Some <$> [7])).
Proof. apply (vector_iteration [7] []); [reflexivity|constructor]. Defined.
