(* ===== verification/Properties.v ===== *)
(** * The properties of the program

    The theorems, in the order of importance, each with the lemmas of its
    component applied, and each followed by an instance at a concrete input
    where it has hypotheses (the samples are in Samples.v). *)

From S2P Require Import Prelude Ebitmap Hashtab Avtab Context Policydb Expand Mls Cond Services Sepolicy Rules.
From S2P Require Import Magiskpolicy RuleEdit Statements DomainEdit Samples.

(** ** The program and the decisions *)

(** C1: the program, run on the text of a list of rule statements (allow, deny,
    auditallow, auditdeny, the three extended permission actions, type
    transitions), reports no syntax error and leaves the policy unchanged except
    for its rules, which are those of the abstract semantics [sem]: for every
    element of the product of the collections of a statement, in order, the
    rules of the types and classes named are updated. *)
Theorem statements_refine p m l :
  policy_ok p → plenty m → Forall statement_ok l →
  ∃ tab m', run_rules (map statement_text l) false (p, m) = Ret (false, (set_te_avtab tab p, m')) ∧
    rules_ok tab ∧ ∀ k, rule_datum tab k = sem p l (rule_datum (te_avtab p)) k.
Proof.
  intros [Hs Ht Hc Hp Hr] Hm Hl.
  destruct (run_rules_sem p l ltac:(by split_and!) Hl (te_avtab p) m Hr Hm) as (tab&m'&E&_&Ht'&Hg).
  rewrite set_te_avtab_id in E. exists tab, m'. split; [done|]. split; [done|]. intros k. symmetry. by apply Hg.
Qed.

Definition sample_statements : list statement :=
  [Access Allow (Many ["untrusted_app"; "su"]) (One "domain") "file" (One "*");
   Access Deny (One "su") (One "*") "file" (Many ["write"]);
   Xperm AllowX (One "su") (Many ["domain"]) (One "*") "ioctl" "0x8900-0x8910";
   Typetrans "untrusted_app" "su" "file" "su"]%string.

Lemma statements_refine_witness :
  ∃ tab m', run_rules (map statement_text sample_statements) false (sample, []) =
      Ret (false, (set_te_avtab tab sample, m')) ∧
    rules_ok tab ∧ ∀ k, rule_datum tab k = sem sample sample_statements (rule_datum (te_avtab sample)) k.
Proof.
  apply (statements_refine sample [] sample_statements); [exact sample_policy_ok|exact plenty_nil|].
  repeat (constructor; [repeat (split || constructor); try reflexivity|]); [|constructor].
  exists 0x8900, 0x8910. reflexivity.
Defined.

(** C2: the decision [context_struct_compute_av] returns allows a permission of
    the class exactly when [av_allows] does: some rule (or enabled conditional
    rule) for a pair of attributes of the two types allows it, every constraint
    of the class that mentions it holds, a process transition between roles is
    allowed by a role rule, and the type that bounds the source type has the
    permission too. *)
Theorem compute_av_decision p fuel s t c req avd0 r0 rc avd r b :
  te_wf p → class_ok p c → 0 <= b < 32 →
  context_struct_compute_av fuel p s t c req avd0 r0 = Ret (rc, avd, r) →
  Z.testbit (allowed avd) b = true ↔ av_allows p c b s t.
Proof. intros Hw Hc Hb H. by eapply compute_av_allowed. Qed.

Lemma compute_av_decision_witness :
  ∃ avd, context_struct_compute_av 2 sample_rule su_context app_context 1 3 zero_avd (Some 0) = Ret (0, avd, Some 0) ∧
    (Z.testbit (allowed avd) 0 = true ↔ av_allows sample_rule 1 0 su_context app_context).
Proof.
  eexists. split; [vm_compute; reflexivity|].
  eapply (compute_av_decision sample_rule 2 su_context app_context 1 3 zero_avd (Some 0) 0 _ (Some 0) 0).
  - exact sample_rule_te_wf.
  - split; [split; [reflexivity|vm_compute; discriminate]|reflexivity].
  - split; [discriminate|reflexivity].
  - vm_compute. reflexivity.
Defined.



(** C8: an allow command takes effect: afterwards, for every source type with
    the attribute (or type) named as source and every target type with the one
    named as target, the decision of the security server allows the permission,
    as far as the constraints, the role rules and the bounds let it. *)
Theorem allow_takes_effect p m s t c perm src tgt cls pd :
  policy_ok p → te_wf p → plenty m →
  rule_target p (Some s) (Some t) (Some c) (Some perm) = Some (Some src, Some tgt, Some cls, Some pd) →
  0 <= type_value p src < 2 ^ 16 → 0 <= type_value p tgt < 2 ^ 16 → class_ok p (class_value p cls) →
  ∃ p' m', sepol_allow (Some s) (Some t) (Some c) (Some perm) (p, m) = Ret (0, (p', m')) ∧
    ∀ sc tc d fuel req avd0 r0 rc avd r,
      attr_of p (type sc) (type_value p src - 1) → attr_of p (type tc) (type_value p tgt - 1) →
      constraints_allow p' sc tc (class_value p cls) (pd_value pd - 1) →
      role_allows p' sc tc (class_value p cls) (pd_value pd - 1) →
      type_struct p' (type sc) = Ret d → bounds d = 0 →
      context_struct_compute_av fuel p' sc tc (class_value p cls) req avd0 r0 = Ret (rc, avd, r) →
      Z.testbit (allowed avd) (pd_value pd - 1) = true.
Proof.
  intros Hok (_&Hcond&Hattr) Hm Htg Hs Ht Hc.
  pose proof (rule_target_perm _ _ _ _ _ _ _ _ _ (ok_perms p Hok) Htg) as Hpd.
  pose proof (add_rule_correct p m (Some s) (Some t) (Some c) (Some perm) AVTAB_ALLOWED false Hok) as H.
  rewrite Htg in H. destruct H as (tab&m'&E&_&Hr&_); [by split; [repeat constructor|]|done|].
  exists (set_te_avtab tab p), m'. split; [exact E|]. intros sc tc d fuel req avd0 r0 rc avd r Hsa Hta Hcons Hrole Hd Hb H.
  assert (Hc' : 0 <= class_value p cls < 2 ^ 16) by (destruct Hc; lia).
  destruct (allow_te_allows p m s t c perm src tgt cls pd (type sc) (type tc) (pd_value pd - 1)) as (p''&m''&E''&_&Hte);
    [done..|]. rewrite E in E''. injection E'' as <- _.
  assert (Hw' : te_wf (set_te_avtab tab p)) by (split; [apply Hr|done]).
  apply (compute_av_allowed (set_te_avtab tab p) (class_value p cls) (pd_value pd - 1) Hw' Hc
    ltac:(lia) _ _ _ _ _ _ _ _ _ H).
  by eapply av_unbounded.
Qed.

Lemma sample_target :
  rule_target sample (Some "su") (Some "domain") (Some "file") (Some "read") =
  Some (Some 1, Some 2, Some 0, Some (PD 1)).
Proof. vm_compute. reflexivity. Qed.

Lemma allow_takes_effect_witness :
  ∃ p' m', sepol_allow (Some "su") (Some "domain") (Some "file") (Some "read") (sample, []) = Ret (0, (p', m')) ∧
    ∀ sc tc d fuel req avd0 r0 rc avd r,
      attr_of sample (type sc) (type_value sample 1 - 1) → attr_of sample (type tc) (type_value sample 2 - 1) →
      constraints_allow p' sc tc (class_value sample 0) (pd_value (PD 1) - 1) →
      role_allows p' sc tc (class_value sample 0) (pd_value (PD 1) - 1) →
      type_struct p' (type sc) = Ret d → bounds d = 0 →
      context_struct_compute_av fuel p' sc tc (class_value sample 0) req avd0 r0 = Ret (rc, avd, r) →
      Z.testbit (allowed avd) (pd_value (PD 1) - 1) = true.
Proof.
  apply (allow_takes_effect sample [] "su" "domain" "file" "read").
  - exact sample_policy_ok.
  - exact sample_te_wf.
  - exact plenty_nil.
  - exact sample_target.
  - vm_compute. split; [discriminate|reflexivity].
  - vm_compute. split; [discriminate|reflexivity].
  - split; [split; [reflexivity|vm_compute; discriminate]|reflexivity].
Defined.

(** After a deny command no rule for exactly the source type, the target
    type and the class named allows the permission. *)
Theorem deny_takes_effect p m s t c perm src tgt cls pd :
  policy_ok p → plenty m →
  rule_target p (Some s) (Some t) (Some c) (Some perm) = Some (Some src, Some tgt, Some cls, Some pd) →
  ∃ p' m', sepol_deny (Some s) (Some t) (Some c) (Some perm) (p, m) = Ret (0, (p', m')) ∧ policy_ok p' ∧
    ∀ n, n ∈ avtab_nodes (te_avtab p') →
      ¬ allow_rule (u16 (type_value p src)) (u16 (type_value p tgt)) (u16 (class_value p cls)) (pd_value pd - 1) n.
Proof. intros Hok Hm Htg. by apply (deny_no_rule p m s t c perm src tgt cls pd). Qed.

Lemma deny_takes_effect_witness :
  ∃ p' m', sepol_deny (Some "su") (Some "domain") (Some "file") (Some "read") (sample_rule, []) = Ret (0, (p', m')) ∧
    policy_ok p' ∧ ∀ n, n ∈ avtab_nodes (te_avtab p') →
      ¬ allow_rule (u16 (type_value sample_rule 1)) (u16 (type_value sample_rule 2)) (u16 (class_value sample_rule 0))
          (pd_value (PD 1) - 1) n.
Proof.
  apply (deny_takes_effect sample_rule [] "su" "domain" "file" "read").
  - exact sample_rule_policy_ok.
  - exact plenty_nil.
  - vm_compute. reflexivity.
Defined.

(** C9: an access rule command is safe whatever allocations fail: it returns 0
    or 1, or ends the process with status 1 when memory runs out; only the
    rules of the policy change, and they stay in order. *)
Theorem add_rule_safe p m s t c perm e not :
  policy_ok p → access_kind e →
  wp (add_rule s t c perm e not)
    (λ rc s', (∃ tab, s'.1 = set_te_avtab tab p) ∧ policy_ok s'.1 ∧ 0 <= rc <= 1)
    (λ z, z = 1 ∧ ¬ plenty m) (p, m).
Proof.
  intros Hok He. destruct Hok as [Hs Ht Hc Hp Hr]. unfold wp. rewrite add_rule_eq by done.
  assert (Hp0 : ∀ tab, rules_ok tab → policy_ok (set_te_avtab tab p)) by (intros; by apply base_policy_ok).
  destruct (rule_target p s t c perm) as [[[[src tgt] cls] pd]|] eqn:E.
  2: { split; [exists (te_avtab p); by rewrite set_te_avtab_id|]. split; [by split|lia]. }
  apply rule_target_ok in E as [Hptr Hperm]; [|done..].
  pose proof (add_rule_auto_ok p src tgt cls pd e not Hs Hptr He Hperm (te_avtab p) m Hr) as H.
  rewrite set_te_avtab_id in H. unfold wp in H.
  destruct (add_rule_auto src tgt cls pd e not (p, m)) as [[rc s']|z|]; [|done..].
  destruct H as (tab&E'&Hr'&Hrc&_). split; [by eexists|]. split; [rewrite E'; by apply Hp0|done].
Qed.

Lemma add_rule_safe_witness :
  wp (add_rule (Some "su") None (Some "file") None AVTAB_ALLOWED false)
    (λ rc s', (∃ tab, s'.1 = set_te_avtab tab sample) ∧ policy_ok s'.1 ∧ 0 <= rc <= 1)
    (λ z, z = 1 ∧ ¬ plenty [true; true; false]) (sample, [true; true; false]).
Proof.
  apply (add_rule_safe sample [true; true; false]); [exact sample_policy_ok|].
  split; [repeat constructor|reflexivity].
Defined.

(** C17: a decision for a source type whose bounding type is itself bounded never
    returns when the bounding type is allowed a permission at its level that its
    own bounds deny: the nested call stores through the NULL [reason]. *)
Theorem nested_bounds_undefined p c b s t src tgt mid fuel req avd0 r0 rc avd r :
  te_wf p → class_ok p c → 0 <= b < 32 →
  type_struct p (type s) = Ret src → bounds src ≠ 0 → type_struct p (type t) = Ret tgt →
  mid = with_type s (bounds src) →
  let t' := if bounds tgt =? 0 then t else with_type t (bounds tgt) in
  level_allows p mid t' c b → ¬ av_allows p c b mid t' →
  context_struct_compute_av fuel p s t c req avd0 r0 ≠ Ret (rc, avd, r).
Proof.
  intros Hw Hc Hb Hsrc Hbs Htgt -> t' Hl Hn H. destruct fuel as [|fuel]; [done|].
  apply compute_av_level in H as (cl&sattr&tattr&lvl&src'&_&_&_&_&Hsrc'&_&H); [|by apply class_ok_guard].
  same_ret. destruct H as [[? _]|(_&tgt'&req'&rc'&lo&r'&Htgt'&Hlo&_)]; [done|]. same_ret.
  apply Hn. by eapply compute_av_null_reason.
Qed.

Lemma nested_bounds_undefined_witness :
  context_struct_compute_av 9 sample_bounded app_context type3_context 1 1 zero_avd (Some 0)
    ≠ Ret (0, zero_avd, Some 0).
Proof.
  apply (nested_bounds_undefined sample_bounded 1 0 app_context type3_context (TD 1 1 TYPE_TYPE ebitmap_init 0 2)
    (TD 3 1 TYPE_TYPE ebitmap_init 0 0) su_context).
  - exact sample_bounded_te_wf.
  - split; [split; [reflexivity|vm_compute; discriminate]|reflexivity].
  - split; [discriminate|reflexivity].
  - vm_compute. reflexivity.
  - discriminate.
  - vm_compute. reflexivity.
  - reflexivity.
  - exact su_level.
  - exact su_denied.
Defined.

(** ** Rules, domains and attributes *)

(** C35: an extended permission command on keys without such a rule grants, for
    each of them, exactly the codes of the range when they belong to one driver,
    and every code of the drivers of the range otherwise. *)
Theorem xperm_rule_grants p m s t c range low high src tgt cls pd k code :
  policy_ok p → plenty m → xperm_range_of range = Ret (low, high) →
  rule_target p s t c None = Some (src, tgt, cls, pd) →
  k ∈ rule_keys p src tgt cls AVTAB_XPERMS_ALLOWED → rule_datum (te_avtab p) k = None →
  0 <= low < 2 ^ 16 → 0 <= high < 2 ^ 16 → 0 <= code < 2 ^ 16 →
  ∃ tab m', sepol_allowxperm s t c range (p, m) = Ret (0, (set_te_avtab tab p, m')) ∧ rules_ok tab ∧
    granted tab k code =
      if ioctl_driver low =? ioctl_driver high then (low <=? code) && (code <=? high)
      else (ioctl_driver low <=? ioctl_driver code) && (ioctl_driver code <=? ioctl_driver high).
Proof.
  intros Hok Hm Hr Htg Hk Hnone Hl Hh Hc.
  pose proof (add_xperm_rule_correct p m s t c range low high AVTAB_XPERMS_ALLOWED false Hok) as H.
  rewrite Htg in H. destruct H as (tab&m'&E&_&Hr'&He); [by split; [repeat constructor|]|done|done|].
  exists tab, m'. split; [exact E|]. split; [done|]. unfold granted. rewrite (He k), bool_decide_true, Hnone by done.
  by apply new_xperm_grants.
Qed.

Lemma xperm_rule_grants_witness :
  ∃ tab m', sepol_allowxperm (Some "su") None (Some "file") (Some "0x8900-0x8910") (sample, []) =
      Ret (0, (set_te_avtab tab sample, m')) ∧ rules_ok tab ∧
    granted tab (rule_key 2 3 1 AVTAB_XPERMS_ALLOWED) 0x8905 = true.
Proof.
  apply (xperm_rule_grants sample [] (Some "su") None (Some "file") (Some "0x8900-0x8910")%string 0x8900 0x8910
    (Some 1) None (Some 0) None (rule_key 2 3 1 AVTAB_XPERMS_ALLOWED) 0x8905).
  - exact sample_policy_ok.
  - exact plenty_nil.
  - vm_compute. reflexivity.
  - vm_compute. reflexivity.
  - vm_compute. repeat (first [left | right]).
  - vm_compute. reflexivity.
  - split; [discriminate|reflexivity].
  - split; [discriminate|reflexivity].
  - split; [discriminate|reflexivity].
Defined.

(** An extended permission command on a key that has a rule for the functions
    of another driver leaves the driver of the rule: the codes asked for are not
    granted by it, and the codes with the same functions of the old driver are. *)
Theorem xperm_wrong_driver p m s t c range low high src tgt cls pd k d x f :
  policy_ok p → plenty m → xperm_range_of range = Ret (low, high) →
  rule_target p s t c None = Some (src, tgt, cls, pd) →
  k ∈ rule_keys p src tgt cls AVTAB_XPERMS_ALLOWED →
  rule_datum (te_avtab p) k = Some d → xperms d = Some x →
  xp_specified x = AVTAB_XPERMS_IOCTLFUNCTION → length (perms x) = 8%nat → 0 <= driver x < 256 →
  ioctl_driver low = ioctl_driver high → driver x ≠ ioctl_driver low →
  ioctl_func low <= f <= ioctl_func high →
  ∃ tab m', sepol_allowxperm s t c range (p, m) = Ret (0, (set_te_avtab tab p, m')) ∧
    granted tab k (ioctl_driver low * 256 + f) = false ∧ granted tab k (driver x * 256 + f) = true.
Proof.
  intros Hok Hm Hr Htg Hk Hd Hx Hsp Hlen Hdr Hsame Hne Hf.
  pose proof (add_xperm_rule_correct p m s t c range low high AVTAB_XPERMS_ALLOWED false Hok) as H.
  rewrite Htg in H. destruct H as (tab&m'&E&_&Hr'&He); [by split; [repeat constructor|]|done|done|].
  destruct (other_driver_grants x low high f) as [G1 G2]; [done..|].
  exists tab, m'. split; [exact E|]. unfold granted. rewrite (He k), bool_decide_true, Hd by done.
  cbn [xdatum xperms]. rewrite Hx. cbn [fmap option_fmap option_map]. by split.
Qed.

Lemma xperm_wrong_driver_witness :
  ∃ tab m', sepol_allowxperm (Some "su") (Some "domain") (Some "file") (Some "0x5401") (sample_ioctl, []) =
      Ret (0, (set_te_avtab tab sample_ioctl, m')) ∧
    granted tab (rule_key 2 3 1 AVTAB_XPERMS_ALLOWED) 0x5401 = false ∧
    granted tab (rule_key 2 3 1 AVTAB_XPERMS_ALLOWED) 0x8901 = true.
Proof.
  apply (xperm_wrong_driver sample_ioctl [] (Some "su") (Some "domain") (Some "file") (Some "0x5401")%string 0x5401 0x5401
    (Some 1) (Some 2) (Some 0) None (rule_key 2 3 1 AVTAB_XPERMS_ALLOWED) ioctl_datum ioctl_x 1).
  - exact sample_ioctl_policy_ok.
  - exact plenty_nil.
  - vm_compute. reflexivity.
  - vm_compute. reflexivity.
  - vm_compute. left.
  - vm_compute. reflexivity.
  - reflexivity.
  - reflexivity.
  - reflexivity.
  - split; [discriminate|reflexivity].
  - reflexivity.
  - discriminate.
  - split; discriminate.
Defined.

(** A type transition command adds the transition to the default type named,
    or replaces the default of the rule for the same types and class; it changes
    no other rule, and nothing when a name is unknown. *)
Theorem typetrans_correct p m s t c d :
  policy_ok p → plenty m →
  match transition_target p s t c d with
  | None => sepol_typetrans s t c d None (p, m) = Ret (1, (p, m))
  | Some (src, tgt, cls, def) =>
      ∃ tab m', sepol_typetrans s t c d None (p, m) = Ret (0, (set_te_avtab tab p, m')) ∧ rules_ok tab ∧
        ∀ k, rule_datum tab k =
          if bool_decide (k = rule_key (type_value p src) (type_value p tgt) (class_value p cls) AVTAB_TRANSITION)
          then Some (AD (type_value p def) (rule_datum (te_avtab p) k ≫= xperms)) else rule_datum (te_avtab p) k
  end.
Proof.
  intros Hok Hm. pose proof (add_transition_correct p m s t c d Hok Hm) as H.
  destruct (transition_target p s t c d) as [[[[src tgt] cls] def]|]; [|exact H].
  destruct H as (tab&m'&E&_&Hr&He). exists tab, m'. split; [exact E|]. split; [done|]. intros k. rewrite (He k).
  rewrite (bool_decide_ext (k ∈ [_]) (k = rule_key (type_value p src) (type_value p tgt) (class_value p cls) AVTAB_TRANSITION))
    by apply list_elem_of_singleton.
  case_bool_decide; [|done]. by destruct (rule_datum (te_avtab p) k).
Qed.

Lemma typetrans_correct_witness :
  ∃ tab m', sepol_typetrans "untrusted_app" "su" "file" "su" None (sample, []) =
      Ret (0, (set_te_avtab tab sample, m')) ∧ rules_ok tab ∧
    ∀ k, rule_datum tab k =
      if bool_decide (k = rule_key 1 2 1 AVTAB_TRANSITION)
      then Some (AD 2 (rule_datum (te_avtab sample) k ≫= xperms)) else rule_datum (te_avtab sample) k.
Proof.
  exact (typetrans_correct sample [] "untrusted_app" "su" "file" "su" sample_policy_ok plenty_nil).
Defined.

(** [permissive] and [enforce]: the types selected (all of them for a NULL
    name) get the state in the permissive map, every other type keeps it, and
    nothing else of the policy changes; an unknown name changes nothing. *)
Theorem set_domain_state_spec p m s state :
  syms_ok p → hashtab_wf (table (p_types p)) → types_bits_ok p → ebitmap_wf (permissive_map p) → plenty m →
  match resolve (table (p_types p)) s with
  | None => set_domain_state s state (p, m) = Ret (1, (p, m))
  | Some o =>
      ∃ e m', set_domain_state s state (p, m) = Ret (0, (set_permissive_map e p, m')) ∧ ebitmap_wf e ∧
        ∀ j, ebitmap_get_bit e j =
          if bool_decide (j ∈ type_value p <$> sel_types p o) then state else ebitmap_get_bit (permissive_map p) j
  end.
Proof.
  intros Hs Hw Hb He Hm. pose proof (set_domain_state_correct p m s state Hs Hw Hb He Hm) as H.
  destruct (resolve (table (p_types p)) s) as [o|]; [|done]. destruct H as (e&m'&E&_&Hmark). by exists e, m'.
Qed.

Lemma set_domain_state_spec_witness :
  ∃ e m', set_domain_state None true (sample, []) = Ret (0, (set_permissive_map e sample, m')) ∧ ebitmap_wf e ∧
    ∀ j, ebitmap_get_bit e j =
      if bool_decide (j ∈ type_value sample <$> sel_types sample None) then true
      else ebitmap_get_bit (permissive_map sample) j.
Proof.
  apply (set_domain_state_spec sample [] None true).
  - exact (ok_syms sample sample_policy_ok).
  - exact (ok_types sample sample_policy_ok).
  - exact sample_types_bits.
  - exact ebitmap_wf_init.
  - exact plenty_nil.
Defined.

(** Making an enforcing domain permissive marks it, and enforcing it again
    gives back the very same policy. *)
Theorem permissive_enforce_roundtrip p m n q :
  syms_ok p → hashtab_wf (table (p_types p)) → types_bits_ok p → ebitmap_wf (permissive_map p) → plenty m →
  hashtab_search (table (p_types p)) n = Some q →
  ebitmap_get_bit (permissive_map p) (type_value p q) = false →
  ∃ p1 m1 m2, sepol_permissive (Some n) (p, m) = Ret (0, (p1, m1)) ∧
    ebitmap_get_bit (permissive_map p1) (type_value p q) = true ∧
    sepol_enforce (Some n) (p1, m1) = Ret (0, (p, m2)).
Proof. intros. by apply permissive_enforce. Qed.

Lemma permissive_enforce_roundtrip_witness :
  ∃ p1 m1 m2, sepol_permissive (Some "su"%string) (sample, []) = Ret (0, (p1, m1)) ∧
    ebitmap_get_bit (permissive_map p1) (type_value sample 1) = true ∧
    sepol_enforce (Some "su"%string) (p1, m1) = Ret (0, (sample, m2)).
Proof.
  apply (permissive_enforce_roundtrip sample [] "su" 1).
  - exact (ok_syms sample sample_policy_ok).
  - exact (ok_types sample sample_policy_ok).
  - exact sample_types_bits.
  - exact ebitmap_wf_init.
  - exact plenty_nil.
  - vm_compute. reflexivity.
  - vm_compute. reflexivity.
Defined.

(** C36: [attradd] adds the type to both attribute maps and to no other pair, and
    adds it to the expanded type list of exactly the constraint expressions that
    list the attribute; the rules do not change, so the type gains every
    permission that an allow rule gives the attribute. *)
Theorem add_typeattribute_spec p m dn an qd d a ps :
  hashtab_search (table (p_types p)) dn = Some qd → at_index (type_mem p) qd = Some d →
  attribute p an a → maps_ok p (t_value d) a → classes_ok p ps → plenty m →
  ∃ p' m', sepol_attradd (Some dn) (Some an) (p, m) = Ret (0, (p', m')) ∧
    (∀ t i, attr_of p' t i ↔ attr_of p t i ∨ (t = t_value d ∧ i = a - 1)) ∧
    (∀ b i, type_in p' b i ↔ type_in p b i ∨ (b = a ∧ i = t_value d - 1)) ∧
    classes_updated a (t_value d - 1) ps (class_mem p) (class_mem p') ∧
    ∀ tt c b, (∃ j, attr_of p tt j ∧ ∃ n, n ∈ avtab_nodes (te_avtab p) ∧ allow_rule a (j + 1) c b n) →
      te_allows p' (t_value d) tt c b.
Proof.
  intros H1 H2 H3 H4 H5 H6.
  destruct (add_typeattribute_ok p m dn an qd d a ps H1 H2 H3 H4 H5 H6) as (p'&m'&E&_&Ha&Ht&Hc&E1&E2).
  exists p', m'. split; [exact E|]. split_and!; [done..|]. intros tt c b. by apply attribute_grants.
Qed.

Lemma add_typeattribute_spec_witness :
  ∃ p' m', sepol_attradd (Some "su"%string) (Some "domain"%string) (sample, []) = Ret (0, (p', m')) ∧
    (∀ t i, attr_of p' t i ↔ attr_of sample t i ∨ (t = 2 ∧ i = 3 - 1)) ∧
    (∀ b i, type_in p' b i ↔ type_in sample b i ∨ (b = 3 ∧ i = 2 - 1)) ∧
    classes_updated 3 (2 - 1) [0] (class_mem sample) (class_mem p') ∧
    ∀ tt c b, (∃ j, attr_of sample tt j ∧ ∃ n, n ∈ avtab_nodes (te_avtab sample) ∧ allow_rule 3 (j + 1) c b n) →
      te_allows p' 2 tt c b.
Proof.
  apply (add_typeattribute_spec sample [] "su" "domain" 1 (TD 2 1 TYPE_TYPE ebitmap_init 0 0) 3 [0]).
  - vm_compute. reflexivity.
  - vm_compute. reflexivity.
  - exists 2, (TD 3 1 TYPE_ATTRIB (bits [0]) 0 0). repeat split; vm_compute; reflexivity.
  - exact sample_maps_ok.
  - exact sample_classes_ok.
  - exact plenty_nil.
Defined.

(** [attradd] with a name that is no attribute still returns 0, and updates
    the constraints that list the type of value 1, whatever that type is. *)
Theorem add_typeattribute_wrong_attribute p m dn an qd d ps :
  hashtab_search (table (p_types p)) dn = Some qd → at_index (type_mem p) qd = Some d →
  (∀ q x, hashtab_search (table (p_types p)) an = Some q → at_index (type_mem p) q = Some x → flavor x ≠ TYPE_ATTRIB) →
  (∀ q, hashtab_search (table (p_types p)) an = Some q → is_Some (at_index (type_mem p) q)) →
  bit_ok (t_value d - 1) → classes_ok p ps → plenty m →
  ∃ cm m', sepol_attradd (Some dn) (Some an) (p, m) = Ret (0, (set_class_mem cm p, m')) ∧
    classes_updated 1 (t_value d - 1) ps (class_mem p) cm.
Proof. intros. by apply (add_typeattribute_no_attribute p m dn an qd d ps). Qed.

Lemma add_typeattribute_wrong_attribute_witness :
  ∃ cm m', sepol_attradd (Some "su"%string) (Some "no_such_attribute"%string) (sample, []) =
      Ret (0, (set_class_mem cm sample, m')) ∧
    classes_updated 1 (2 - 1) [0] (class_mem sample) cm.
Proof.
  apply (add_typeattribute_wrong_attribute sample [] "su" "no_such_attribute" 1 (TD 2 1 TYPE_TYPE ebitmap_init 0 0) [0]).
  - vm_compute. reflexivity.
  - vm_compute. reflexivity.
  - intros q x Hq. vm_compute in Hq. discriminate.
  - intros q Hq. vm_compute in Hq. discriminate.
  - split; [discriminate|reflexivity].
  - exact sample_classes_ok.
  - exact plenty_nil.
Defined.

(** ** The statement language *)

(** A lone opening bracket at the end of a statement of pattern 1 is not
    reported: the statement is run as if it were not there. *)
Theorem trailing_bracket_accepted action s t c p :
  arg_ok s → arg_ok t → word_ok c = true → arg_ok p →
  parse_pattern_1 action (print (tokens_1 s t c p ++ ["{"%string])) =
  parse_pattern_1 action (print (tokens_1 s t c p)).
Proof. intros. rewrite trailing_bracket by done. by rewrite parse_pattern_1_print. Qed.

Lemma trailing_bracket_accepted_witness :
  parse_pattern_1 0 (print ["a"; "b"; "c"; "d"; "{"]%string) = parse_pattern_1 0 (print ["a"; "b"; "c"; "d"]%string).
Proof.
  apply (trailing_bracket_accepted 0 (One "a") (One "b") "c" (One "d"));
    [repeat constructor|repeat constructor|reflexivity|repeat constructor].
Defined.

(** A statement whose action is none of the twelve is a syntax error and
    changes nothing. *)
Theorem unknown_action tok args p m :
  token_ok tok = true →
  tok ∉ ["allow"; "deny"; "auditallow"; "auditdeny"; "attradd"; "create"; "permissive"; "enforce"; "typetrans";
         "allowxperm"; "auditallowxperm"; "dontauditxperm"]%string →
  run_rules [(tok +:+ " " +:+ args)%string] false (p, m) = Ret (true, (p, m)).
Proof. intros Ht Hn. cbn [run_rules]. by rewrite run_rule_unknown. Qed.

(** The help text names the action "enforcing". *)
Lemma unknown_action_witness : run_rules ["enforcing su"%string] false (sample, []) = Ret (true, (sample, [])).
Proof.
  apply (unknown_action "enforcing" "su" sample []); [reflexivity|].
  intros H. repeat (apply elem_of_cons in H as [H|H]; [discriminate|]). by apply not_elem_of_nil in H.
Defined.

(** ** Constraints and conditionals *)

(** C38: on the reverse Polish notation of a constraint whose evaluation needs at
    most CEXPR_MAXDEPTH stack cells, the stack machine computes the value of the
    expression. *)
Theorem constraint_is_tree_value p s t x c k a v name :
  val_to_name p SYM_CLASSES (c - 1) = Ret name → expr k = postfix a → ceval p s t x a = Some v →
  stack_need a <= CEXPR_MAXDEPTH →
  constraint_expr_eval_reason p s t x c k = Ret v.
Proof. intros. by eapply constraint_eval_tree. Qed.

Definition sample_tree : cexp :=
  COr (CLeaf (CE CEXPR_ATTR CEXPR_USER CEXPR_EQ ebitmap_init None))
      (CLeaf (CE CEXPR_NAMES CEXPR_TYPE CEXPR_EQ (bits [1]) (Some (TS (bits [2]) ebitmap_init 0)))).

Lemma constraint_is_tree_value_witness :
  constraint_expr_eval_reason sample su_context app_context None 1 sample_constraint = Ret true.
Proof.
  apply (constraint_is_tree_value sample su_context app_context None 1 sample_constraint sample_tree true (Some "file"%string)).
  - vm_compute. reflexivity.
  - reflexivity.
  - vm_compute. reflexivity.
  - discriminate.
Defined.

(** A constraint that would need one more stack cell than the machine has
    evaluates to false. *)
Theorem constraint_overflow_denies p s t x e l stk :
  is_leaf e = true → Z.of_nat (length stk) = CEXPR_MAXDEPTH →
  eval_exprs p s t x (e :: l) stk = Ret false.
Proof. intros. by apply stack_overflow. Qed.

Lemma constraint_overflow_denies_witness :
  eval_exprs sample su_context app_context None (expr sample_constraint) [true; true; true; true; true] = Ret false.
Proof.
  apply (constraint_overflow_denies sample su_context app_context None); reflexivity.
Defined.

(** [sepol_validate_transition] is undefined for every class that has a
    [validatetrans] constraint: it evaluates the constraint for the class 0, and
    the explanation built first reads the name before the first class. *)
Theorem validate_transition_out_of_bounds p o n t c cl k ks :
  class_ok p c → class_struct p c = Ret cl → validatetrans cl = k :: ks →
  sepol_validate_transition p (Some o) (Some n) (Some t) c = Undef.
Proof. intros. by eapply validate_transition_undef. Qed.

Definition trans_class : class_datum :=
  CLD 1 None None (symtab_of_list [("read", PD 1)]%string) [] [sample_constraint] 0 0 0 0.
Definition sample_trans : policydb :=
  policy_with sample_types [trans_class] empty_avtab ebitmap_init [] [BD 1 0 0; BD 2 1 0] empty_avtab.

Lemma validate_transition_out_of_bounds_witness :
  sepol_validate_transition sample_trans (Some su_context) (Some app_context) (Some su_context) 1 = Undef.
Proof.
  apply (validate_transition_out_of_bounds sample_trans su_context app_context su_context 1 trans_class sample_constraint []).
  - split; [split; [reflexivity|vm_compute; discriminate]|reflexivity].
  - vm_compute. reflexivity.
  - reflexivity.
Defined.

(** [sepol_validate_transition_reason_buffer] accepts exactly the
    transitions that satisfy every [validatetrans] constraint of the class. *)
Theorem validate_transition_reason_exact p o n t c cl :
  class_ok p c → class_struct p c = Ret cl →
  sepol_validate_transition_reason_buffer p (Some o) (Some n) (Some t) c = Ret 0 ↔
  Forall (λ k, constraint_expr_eval_reason p o n (Some t) c k = Ret true) (validatetrans cl).
Proof. intros. by apply validate_transition_reason_spec. Qed.

Lemma validate_transition_reason_exact_witness :
  sepol_validate_transition_reason_buffer sample_trans (Some su_context) (Some app_context) (Some su_context) 1 = Ret 0 ↔
  Forall (λ k, constraint_expr_eval_reason sample_trans su_context app_context (Some su_context) 1 k = Ret true)
    (validatetrans trans_class).
Proof.
  apply (validate_transition_reason_exact sample_trans su_context app_context su_context 1 trans_class).
  - split; [split; [reflexivity|vm_compute; discriminate]|reflexivity].
  - vm_compute. reflexivity.
Defined.

(** On the reverse Polish notation of a boolean expression that needs at most
    COND_EXPR_MAXDEPTH stack cells, [cond_evaluate_expr] computes its value for
    the states of the booleans. *)
Theorem cond_is_tree_value p a v :
  beval (bool_value p) a = Some v → bneed a <= COND_EXPR_MAXDEPTH →
  cond_evaluate_expr p (bpostfix a) = Ret (Z.b2z v).
Proof. apply cond_evaluate_tree. Qed.

Lemma cond_is_tree_value_witness :
  cond_evaluate_expr sample (bpostfix (BOp COND_XOR (BVar 1) (BNot (BVar 2)))) = Ret (Z.b2z false).
Proof.
  apply (cond_is_tree_value sample (BOp COND_XOR (BVar 1) (BNot (BVar 2)))); [vm_compute; reflexivity|discriminate].
Defined.

(** [evaluate_conds] gives every conditional the value of its expression and
    keeps the rules in step: those of the true list are enabled exactly when the
    value is true, those of the false list exactly when it is false. *)
Theorem evaluate_conds_consistent p :
  Forall (λ n, ∃ v, cond_evaluate_expr p (cd_expr n) = Ret v) (cond_list p) →
  NoDup (cond_list p ≫= addresses) →
  (∀ a, a ∈ cond_list p ≫= addresses → is_Some (node_at (te_cond_avtab p) a)) →
  Forall (consistent (te_cond_avtab p)) (cond_list p) →
  ∃ p', evaluate_conds p = Ret (0, p') ∧
    Forall2 (λ n n', ∃ v, cond_evaluate_expr p (cd_expr n) = Ret v ∧ n' = set_cur_state v n ∧
                          consistent (te_cond_avtab p') n') (cond_list p) (cond_list p').
Proof. apply evaluate_conds_spec. Qed.

(** A conditional with the rule of [one_rule] in its true list, not evaluated yet. *)
Definition x_cond : cond_node := CD 0 [CX COND_BOOL 1; CX COND_NOT 0] [0] [] 0 0 1 [1; 0; 0; 0; 0] 1 0.
Definition sample_cond : policydb :=
  policy_with sample_types [file_class] empty_avtab ebitmap_init [x_cond] [BD 1 0 0; BD 2 1 0] one_rule.

Lemma evaluate_conds_consistent_witness :
  ∃ p', evaluate_conds sample_cond = Ret (0, p') ∧
    Forall2 (λ n n', ∃ v, cond_evaluate_expr sample_cond (cd_expr n) = Ret v ∧ n' = set_cur_state v n ∧
                          consistent (te_cond_avtab p') n') (cond_list sample_cond) (cond_list p').
Proof.
  apply (evaluate_conds_consistent sample_cond).
  - constructor; [|constructor]. eexists. vm_compute. reflexivity.
  - apply NoDup_singleton.
  - intros a Ha. vm_compute in Ha. apply list_elem_of_singleton in Ha as ->. vm_compute. eexists. reflexivity.
  - constructor; [|constructor]. split.
    + intros a Ha. vm_compute in Ha. apply list_elem_of_singleton in Ha as ->. vm_compute. reflexivity.
    + intros a Ha. by apply not_elem_of_nil in Ha.
Defined.

(** On an expression of at most five booleans that does not end in a
    negation, [cond_normalize_expr] stores the truth table of the expression, bit
    by bit, and leaves the policy (the states of its booleans included) as it
    was. *)
Theorem cond_normalize_truth_table p cn qs x (val : Z → Z) :
  let n := (listed_bools (cd_expr cn)).1 in
  let used := take (Z.to_nat n) (listed_bools (cd_expr cn)).2 in
  last (cd_expr cn) = Some x → cx_expr_type x ≠ COND_NOT → n <= COND_MAX_BOOLS →
  Forall2 (λ b q, bool_ptr p b = Ret q) used qs → NoDup qs →
  Forall (λ q, is_Some (at_index (bool_mem p) q)) qs →
  (∀ k, 0 <= k < 2 ^ n → cond_evaluate_expr (under p qs k) (cd_expr cn) = Ret (val k) ∧ val k ≠ -1) →
  ∃ cn', cond_normalize_expr p cn = Ret (0, p, cn') ∧ cd_expr cn' = cd_expr cn ∧ nbools cn' = n ∧
    true_list cn' = true_list cn ∧ false_list cn' = false_list cn ∧
    ∀ k, 0 <= k < 2 ^ n → Z.testbit (expr_pre_comp cn') k = negb (val k =? 0).
Proof. apply cond_normalize_ok. Qed.

(** [x && !y] *)
Definition x_and_not_y : cond_node :=
  CD 0 [CX COND_BOOL 1; CX COND_BOOL 2; CX COND_NOT 0; CX COND_AND 0] [0] [] 0 0 0 [0; 0; 0; 0; 0] 0 0.

Lemma cond_normalize_truth_table_witness :
  ∃ cn', cond_normalize_expr sample x_and_not_y = Ret (0, sample, cn') ∧ cd_expr cn' = cd_expr x_and_not_y ∧
    nbools cn' = 2 ∧ true_list cn' = [0] ∧ false_list cn' = [] ∧
    ∀ k, 0 <= k < 4 → Z.testbit (expr_pre_comp cn') k = negb ((if k =? 1 then 1 else 0) =? 0).
Proof.
  apply (cond_normalize_truth_table sample x_and_not_y [0; 1] (CX COND_AND 0) (λ k, if k =? 1 then 1 else 0)).
  - reflexivity.
  - discriminate.
  - discriminate.
  - repeat constructor.
  - apply NoDup_cons. split; [|apply NoDup_singleton]. intros H. apply list_elem_of_singleton in H. discriminate.
  - repeat constructor; eexists; reflexivity.
  - intros k Hk. change (0 <= k < 4) in Hk.
    assert (k = 0 ∨ k = 1 ∨ k = 2 ∨ k = 3) as [->|[->|[->| ->]]] by lia; split; try reflexivity; discriminate.
Defined.

(** [cond_expr_equal] takes different conditionals for equal: the truth
    tables of [x && !y] and [y && !x] list their booleans in a different order,
    the comparison ignores the order, and the two have different values. *)
Theorem cond_equal_unsound :
  ∃ p cn1 cn2 cn1' cn2', cond_normalize_expr p cn1 = Ret (0, p, cn1') ∧ cond_normalize_expr p cn2 = Ret (0, p, cn2') ∧
    cond_expr_equal cn1' cn2' = true ∧
    cond_evaluate_expr p (cd_expr cn1') = Ret 0 ∧ cond_evaluate_expr p (cd_expr cn2') = Ret 1.
Proof.
  exists sample, x_and_not_y, (CD 0 [CX COND_BOOL 2; CX COND_BOOL 1; CX COND_NOT 0; CX COND_AND 0] [] [] 0 0 0 [0; 0; 0; 0; 0] 0 0).
  eexists _, _. split; [vm_compute; reflexivity|]. split; [vm_compute; reflexivity|]. vm_compute. by split_and!.
Qed.

(** ** The tables *)

(** [hashtab_insert] refines insertion in a finite map: a new key is added,
    an existing key fails with SEPOL_EEXIST and leaves the table alone, and
    SEPOL_ENOMEM is only returned when an allocation fails or the table is NULL;
    chains stay sorted and counted. *)
Theorem hashtab_insert_refines (h : hashtab_t string Z) k d m :
  hashtab_wf h →
  let '(rc, h', m') := hashtab_insert h k d m in
  hashtab_wf h' ∧
  ((rc = SEPOL_OK ∧ hashtab_search h k = None ∧ ∀ k', hashtab_search h' k' = if decide (k' = k) then Some d else hashtab_search h k') ∨
   (rc = SEPOL_EEXIST ∧ is_Some (hashtab_search h k) ∧ h' = h) ∨
   (rc = SEPOL_ENOMEM ∧ h' = h ∧ (plenty m → h = None))).
Proof.
  intros Hw. pose proof (hashtab_insert_correct h k d m Hw I) as H.
  destruct (hashtab_insert h k d m) as [[rc h'] m']. destruct H as (Hw'&_&H). split; [done|].
  rewrite (hashtab_search_correct h k) by done. destruct H as [(->&Hn&Hm)|[H|H]]; [left|by right; left|by right; right].
  split; [done|]. split; [done|]. intros k'. rewrite !hashtab_search_correct, Hm by done.
  destruct (decide (k' = k)) as [->|Hne]; [by rewrite lookup_insert_eq|by rewrite lookup_insert_ne].
Qed.

Lemma hashtab_insert_refines_witness :
  let '(rc, h', m') := hashtab_insert (table (p_types sample)) "shell"%string 3 [] in
  hashtab_wf h' ∧
  ((rc = SEPOL_OK ∧ hashtab_search (table (p_types sample)) "shell"%string = None ∧
    ∀ k', hashtab_search h' k' = if decide (k' = "shell"%string) then Some 3 else hashtab_search (table (p_types sample)) k') ∨
   (rc = SEPOL_EEXIST ∧ is_Some (hashtab_search (table (p_types sample)) "shell"%string) ∧ h' = table (p_types sample)) ∨
   (rc = SEPOL_ENOMEM ∧ h' = table (p_types sample) ∧ (plenty [] → table (p_types sample) = None))).
Proof. exact (hashtab_insert_refines (table (p_types sample)) "shell" 3 [] (ok_types sample sample_policy_ok)). Defined.

(** [hashtab_remove] takes exactly the entry of the key out of the table and
    hands its key and datum over; a key that is not there changes nothing. *)
Theorem hashtab_remove_refines (h : hashtab_t string Z) k :
  hashtab_wf h →
  let '(rc, h', e) := hashtab_remove h k in
  hashtab_wf h' ∧
  ((rc = SEPOL_OK ∧ (∃ d, hashtab_search h k = Some d ∧ e = Some (k, d)) ∧
    ∀ k', hashtab_search h' k' = if decide (k' = k) then None else hashtab_search h k') ∨
   (rc = SEPOL_ENOENT ∧ hashtab_search h k = None ∧ h' = h ∧ e = None)).
Proof.
  intros Hw. pose proof (hashtab_remove_correct h k Hw I) as H.
  destruct (hashtab_remove h k) as [[rc h'] e]. destruct H as (Hw'&H). split; [done|].
  rewrite (hashtab_search_correct h k) by done. destruct H as [(->&He&Hm)|H]; [left|by right].
  split; [done|]. split; [done|]. intros k'. rewrite !hashtab_search_correct, Hm by done.
  destruct (decide (k' = k)) as [->|Hne]; [by rewrite lookup_delete_eq|by rewrite lookup_delete_ne].
Qed.

Lemma hashtab_remove_refines_witness :
  let '(rc, h', e) := hashtab_remove (table (p_types sample)) "su"%string in
  hashtab_wf h' ∧
  ((rc = SEPOL_OK ∧ (∃ d, hashtab_search (table (p_types sample)) "su"%string = Some d ∧ e = Some ("su"%string, d)) ∧
    ∀ k', hashtab_search h' k' = if decide (k' = "su"%string) then None else hashtab_search (table (p_types sample)) k') ∨
   (rc = SEPOL_ENOENT ∧ hashtab_search (table (p_types sample)) "su"%string = None ∧ h' = table (p_types sample) ∧ e = None)).
Proof. exact (hashtab_remove_refines (table (p_types sample)) "su" (ok_types sample sample_policy_ok)). Defined.

(** [hashtab_map] runs the function on every entry once, in some order, and
    stops at the first entry for which it returns a non-zero value. *)
Theorem hashtab_map_visits_all {S} (h : hashtab_t string Z) (apply : string → Z → M S Z) s :
  hashtab_wf h →
  ∃ l, l ≡ₚ map_to_list (to_map h) ∧ hashtab_map h apply s = map_chain apply l s.
Proof. apply hashtab_map_correct. Qed.

Lemma hashtab_map_visits_all_witness :
  ∃ l, l ≡ₚ map_to_list (to_map (table (p_types sample))) ∧
    hashtab_map (table (p_types sample)) (λ _ d n, Ret (0, n + d)) 0 = map_chain (λ _ d n, Ret (0, n + d)) l 0.
Proof.
  exact (hashtab_map_visits_all (table (p_types sample)) (λ _ d n, Ret (0, n + d)) 0 (ok_types sample sample_policy_ok)).
Defined.

(** [hashtab_replace] does not count the entry it adds for a new key. *)
Theorem hashtab_replace_miscounts :
  ∃ (h h' : hashtab_val string Z), hashtab_wf (Some h) ∧ hashtab_replace (Some h) "a"%string 1 [] = (SEPOL_OK, Some h', None, []) ∧
    hashtab_search (Some h') "a"%string = Some 1 ∧ nel h' = 0 ∧ length (entries h') = 1%nat ∧ ¬ hashtab_wf (Some h').
Proof.
  destruct (table_of (D := Z) []) as [h|] eqn:E; [|by vm_compute in E].
  exists h. eexists. split; [rewrite <- E; apply table_of_wf|]. vm_compute in E. injection E as <-.
  split; [vm_compute; reflexivity|]. split; [reflexivity|]. split; [reflexivity|]. split; [reflexivity|].
  intros [_ Hn]. vm_compute in Hn. discriminate.
Qed.

(** [avtab_insert]: a rule of the same key and kind makes it fail with
    SEPOL_EEXIST and change nothing (extended permissions apart); so does, with
    SEPOL_ENOMEM, a table without slots or an allocation that fails; otherwise
    the rule is added, its own copy of the extended permissions included, and
    no other rule changes. *)
Theorem avtab_insert_spec h k d m :
  avtab_wf h → avkey_ok k →
  let '(rc, h', m') := avtab_insert h k d m in
  (rc = 0 ∧ avtab_wf h' ∧ avtab_nodes h' ≡ₚ AN (fresh h) k (new_datum k d) 0 0 :: avtab_nodes h ∧
   (has_bits (not_enabled (specified k)) AVTAB_XPERMS = false → avtab_search h k = None)) ∨
  (rc = SEPOL_EEXIST ∧ h' = h ∧ is_Some (avtab_search h k)) ∨
  (rc = SEPOL_ENOMEM ∧ h' = h ∧ (plenty m → av_htable h = None)).
Proof.
  intros Hw Hk. pose proof (avtab_insert_correct h k d m Hw Hk) as H.
  destruct (avtab_insert h k d m) as [[rc h'] m']. destruct H as [_ [(->&Hw'&_&_&Hp&Hf)|H]]; [by left|by right].
Qed.

Lemma avtab_insert_spec_witness :
  let '(rc, h', m') := avtab_insert one_rule (AK 1 1 1 AVTAB_ALLOWED) (AD 1 None) [] in
  (rc = 0 ∧ avtab_wf h' ∧ avtab_nodes h' ≡ₚ AN (fresh one_rule) (AK 1 1 1 AVTAB_ALLOWED) (AD 1 None) 0 0 :: avtab_nodes one_rule ∧
   (has_bits (not_enabled (specified (AK 1 1 1 AVTAB_ALLOWED))) AVTAB_XPERMS = false → avtab_search one_rule (AK 1 1 1 AVTAB_ALLOWED) = None)) ∨
  (rc = SEPOL_EEXIST ∧ h' = one_rule ∧ is_Some (avtab_search one_rule (AK 1 1 1 AVTAB_ALLOWED))) ∨
  (rc = SEPOL_ENOMEM ∧ h' = one_rule ∧ (plenty [] → av_htable one_rule = None)).
Proof.
  apply (avtab_insert_spec one_rule (AK 1 1 1 AVTAB_ALLOWED) (AD 1 None) []).
  - exact (proj1 (proj2 one_rule_ok)).
  - repeat split; discriminate.
Defined.

(** The loop over [avtab_search_node] and [avtab_search_node_next] visits
    exactly the rules for the types and class of the key that share a kind with
    it, each once. *)
Theorem avtab_search_exact h k :
  avtab_wf h → avkey_ok k →
  avtab_search_all h k =
  filter (λ n, key_matches k (not_enabled (specified k)) (key n) = true) (avtab_nodes h).
Proof. apply avtab_search_all_correct. Qed.

Lemma avtab_search_exact_witness :
  avtab_search_all one_rule (AK 2 3 1 AVTAB_AV) =
  filter (λ n, key_matches (AK 2 3 1 AVTAB_AV) (not_enabled AVTAB_AV) (key n) = true) (avtab_nodes one_rule).
Proof.
  apply (avtab_search_exact one_rule (AK 2 3 1 AVTAB_AV)).
  - exact (proj1 (proj2 one_rule_ok)).
  - repeat split; discriminate.
Defined.

(** [avtab_insert] keeps the rules (extended permissions apart) unique per
    key and kind. *)
Theorem avtab_insert_keeps_unique h k d m :
  avtab_wf h → avkey_ok k → avtab_unique h → avtab_unique (avtab_insert h k d m).1.2.
Proof. apply avtab_insert_unique. Qed.

Lemma avtab_insert_keeps_unique_witness : avtab_unique (avtab_insert one_rule (AK 2 3 1 AVTAB_AUDITALLOW) (AD 1 None) []).1.2.
Proof.
  apply (avtab_insert_keeps_unique one_rule (AK 2 3 1 AVTAB_AUDITALLOW) (AD 1 None) []).
  - exact (proj1 (proj2 one_rule_ok)).
  - repeat split; discriminate.
  - exact (proj1 (proj2 (proj2 one_rule_ok))).
Defined.

(** [avtab_alloc] computes the number of slots with its shifting loop: a
    power of two between 2 and 2^20 that depends on the number of bits of the
    number of rules, and an empty table of that size. *)
Theorem avtab_alloc_slots h nrules m :
  0 < nrules < 2 ^ 32 → av_htable h = None → plenty m →
  let '(rc, h', m') := avtab_alloc h nrules m in
  rc = 0 ∧ avtab_wf h' ∧ avtab_nodes h' = [] ∧ nslot h' = alloc_nslot nrules ∧ 2 <= nslot h' <= 2 ^ 20.
Proof.
  intros Hn Hh Hm. pose proof (avtab_alloc_correct h nrules m ltac:(lia) Hh) as H.
  destruct (avtab_alloc h nrules m) as [[rc h'] m']. destruct H as [Hp [(->&Hw&He&_&Hs)|(->&_)]].
  - destruct (Hs ltac:(lia)) as [Hns _]. split_and!; try done; rewrite Hns; unfold alloc_nslot;
      pose proof (Z.log2_nonneg nrules).
    + change 2 with (2 ^ 1) at 1. apply Z.pow_le_mono_r; [lia|]. zcase; lia.
    + apply Z.pow_le_mono_r; lia.
  - by destruct (Hp Hm).
Qed.

Lemma avtab_alloc_slots_witness :
  let '(rc, h', m') := avtab_alloc (AVT None 0 0 0 0) 30000 [] in
  rc = 0 ∧ avtab_wf h' ∧ avtab_nodes h' = [] ∧ nslot h' = alloc_nslot 30000 ∧ 2 <= nslot h' <= 2 ^ 20.
Proof.
  apply (avtab_alloc_slots (AVT None 0 0 0 0) 30000 []); [split; reflexivity|reflexivity|exact plenty_nil].
Defined.

(** ** Sets and levels *)

(** [ebitmap_set_bit] sets or clears one bit of the set the bitmap stands
    for, keeping the list of words sorted, without empty words and with the right
    bound; the last 64 positions of the 32-bit range are refused with -EINVAL,
    and a failed allocation changes nothing. *)
Theorem ebitmap_set_bit_spec e bit v m :
  ebitmap_wf e → 0 <= bit < 2 ^ 32 →
  let '(rc, e', m') := ebitmap_set_bit e bit v m in
  (plenty m → bit_ok bit → rc = 0) ∧
  ((rc = 0 ∧ bit_ok bit ∧ ebitmap_wf e' ∧ ∀ j, ebitmap_get_bit e' j = if j =? bit then v else ebitmap_get_bit e j) ∨
   (rc = - EINVAL ∧ e' = e ∧ ¬ bit_ok bit) ∨ (rc = - ENOMEM ∧ e' = e ∧ v = true)).
Proof.
  intros He Hb. pose proof (ebitmap_set_bit_correct e bit v m He Hb) as H.
  destruct (ebitmap_set_bit e bit v m) as [[rc e'] m']. destruct H as [Hp H]. split; [|done].
  intros P Hbit. by apply Hp.
Qed.

Lemma ebitmap_set_bit_spec_witness :
  let '(rc, e', m') := ebitmap_set_bit (bits [1; 70]) 1 false [] in
  (plenty [] → bit_ok 1 → rc = 0) ∧
  ((rc = 0 ∧ bit_ok 1 ∧ ebitmap_wf e' ∧ ∀ j, ebitmap_get_bit e' j = if j =? 1 then false else ebitmap_get_bit (bits [1; 70]) j) ∨
   (rc = - EINVAL ∧ e' = bits [1; 70] ∧ ¬ bit_ok 1) ∨ (rc = - ENOMEM ∧ e' = bits [1; 70] ∧ false = true)).
Proof.
  apply (ebitmap_set_bit_spec (bits [1; 70]) 1 false []); [small_bits|split; [discriminate|reflexivity]].
Defined.

(** [ebitmap_or] computes the union. *)
Theorem ebitmap_or_union e1 e2 m :
  ebitmap_wf e1 → ebitmap_wf e2 →
  set_result m (λ j, ebitmap_get_bit e1 j || ebitmap_get_bit e2 j) (ebitmap_or e1 e2 m).
Proof. apply ebitmap_or_correct. Qed.

Lemma ebitmap_or_union_witness :
  set_result [] (λ j, ebitmap_get_bit (bits [1; 70]) j || ebitmap_get_bit (bits [3; 200]) j)
    (ebitmap_or (bits [1; 70]) (bits [3; 200]) []).
Proof. apply (ebitmap_or_union (bits [1; 70]) (bits [3; 200]) []); small_bits. Defined.

(** [ebitmap_contains] decides inclusion. *)
Theorem ebitmap_contains_inclusion e1 e2 :
  ebitmap_wf e1 → ebitmap_wf e2 →
  ebitmap_contains e1 e2 = true ↔ ∀ j, ebitmap_get_bit e2 j = true → ebitmap_get_bit e1 j = true.
Proof. apply ebitmap_contains_correct. Qed.

Lemma ebitmap_contains_inclusion_witness :
  ebitmap_contains (bits [1; 70]) (bits [70]) = true ↔
  ∀ j, ebitmap_get_bit (bits [70]) j = true → ebitmap_get_bit (bits [1; 70]) j = true.
Proof. apply (ebitmap_contains_inclusion (bits [1; 70]) (bits [70])); small_bits. Defined.

(** The loop [ebitmap_for_each_bit], restricted to the bits that are set,
    visits exactly the elements of the set, in increasing order. *)
Theorem ebitmap_iteration e :
  ebitmap_wf e →
  StronglySorted Z.lt (ebitmap_set_bits e) ∧ ∀ j, j ∈ ebitmap_set_bits e ↔ ebitmap_get_bit e j = true.
Proof.
  intros He. split; [by apply ebitmap_set_bits_sorted|]. intros j. symmetry. split; intros H; by apply elem_of_set_bits.
Qed.

Lemma ebitmap_iteration_witness :
  StronglySorted Z.lt (ebitmap_set_bits (bits [70; 1])) ∧
  ∀ j, j ∈ ebitmap_set_bits (bits [70; 1]) ↔ ebitmap_get_bit (bits [70; 1]) j = true.
Proof. apply (ebitmap_iteration (bits [70; 1])). small_bits. Defined.

(** Dominance of MLS levels is a partial order: reflexive, transitive and
    antisymmetric up to equality of the levels. *)
Theorem mls_dominance_partial_order l1 l2 l3 :
  level_wf l1 → level_wf l2 → level_wf l3 →
  mls_level_dom l1 l1 = true ∧
  (mls_level_dom l1 l2 = true → mls_level_dom l2 l3 = true → mls_level_dom l1 l3 = true) ∧
  (mls_level_dom l1 l2 = true → mls_level_dom l2 l1 = true → mls_level_eq l1 l2 = true).
Proof.
  intros H1 H2 H3. split; [by apply mls_level_dom_refl|]. split; [by apply mls_level_dom_trans|].
  intros. apply mls_level_eq_spec. by apply mls_level_dom_antisym.
Qed.

Lemma mls_dominance_partial_order_witness :
  mls_level_dom (ML 2 (bits [1; 70])) (ML 2 (bits [1; 70])) = true ∧
  (mls_level_dom (ML 2 (bits [1; 70])) (ML 1 (bits [70])) = true →
   mls_level_dom (ML 1 (bits [70])) (ML 1 (bits [])) = true → mls_level_dom (ML 2 (bits [1; 70])) (ML 1 (bits [])) = true) ∧
  (mls_level_dom (ML 2 (bits [1; 70])) (ML 1 (bits [70])) = true →
   mls_level_dom (ML 1 (bits [70])) (ML 2 (bits [1; 70])) = true → mls_level_eq (ML 2 (bits [1; 70])) (ML 1 (bits [70])) = true).
Proof. apply (mls_dominance_partial_order (ML 2 (bits [1; 70])) (ML 1 (bits [70])) (ML 1 (bits []))); unfold level_wf; cbn [cat]; small_bits. Defined.

(** [mls_compute_context_len] computes exactly the length of the text
    [mls_sid_to_context] writes, so the buffer allocated with it is filled and
    not overrun. *)
Theorem mls_text_fits p c len out :
  mls_compute_context_len p c = Ret len → mls_sid_to_context p c = Ret out →
  len = Z.of_nat (String.length out).
Proof. intros H1 H2. by rewrite (context_text_length p c len out H1 H2). Qed.

(** A text can stand for two contexts: the loops do not see the gap between
    two words of a category bitmap, and write the categories 62, 63 and 128 like
    those from 62 to 128. *)
Theorem mls_text_ambiguous :
  ∃ p c1 c2, context_wf c1 ∧ context_wf c2 ∧ context_cmp c1 c2 = false ∧
    mls_sid_to_context p c1 = Ret ":s0:c62.c128"%string ∧ mls_sid_to_context p c2 = Ret ":s0:c62.c128"%string.
Proof.
  set (l1 := ML 1 (bits [62; 63; 128])). set (l2 := ML 1 (bits (seqZ 62 67))).
  exists sample_mls, (CTX 1 1 1 (MR l1 l1)), (CTX 1 1 1 (MR l2 l2)).
  assert (level_wf l1) by (unfold level_wf, l1; cbn [cat]; small_bits).
  assert (level_wf l2).
  { unfold level_wf, l2; cbn [cat]. apply bits_wf. apply Forall_forall. intros i Hi%elem_of_seqZ. lia. }
  split; [by split|]. split; [by split|]. vm_compute. by split_and!.
Qed.

(** A context accepted by [mls_context_isvalid] has a high level that
    dominates its low level, both with a sensitivity of the policy and
    categories that the sensitivity admits, and unless its role is object_r the
    range is within the range of its user. *)
Theorem mls_valid_context p c :
  mls p ≠ 0 → level_wf (level0 (range c)) → level_wf (level1 (range c)) →
  mls_context_isvalid p c = Ret true →
  mls_level_dom (level1 (range c)) (level0 (range c)) = true ∧
  level_admitted p (level0 (range c)) ∧ level_admitted p (level1 (range c)) ∧
  (role c ≠ OBJECT_R_VAL → ∃ u, val_to_struct (user_val_to_struct p) (user_mem p) (user c - 1) = Ret (Some u) ∧
    mls_range_contains (exp_range u) (range c) = true).
Proof. apply mls_context_isvalid_true. Qed.

Definition mls_context (l : list Z) : context_struct := CTX 1 1 1 (MR (ML 1 (bits l)) (ML 1 (bits l))).

Lemma mls_text_fits_witness : 11 = Z.of_nat (String.length ":s0:c3,c130"%string).
Proof. apply (mls_text_fits sample_mls (mls_context [3; 130]) 11 ":s0:c3,c130"%string); vm_compute; reflexivity. Defined.

Lemma mls_valid_context_witness :
  mls_level_dom (ML 1 (bits [3])) (ML 1 (bits [3])) = true ∧
  level_admitted sample_mls (ML 1 (bits [3])) ∧ level_admitted sample_mls (ML 1 (bits [3])) ∧
  (1 ≠ OBJECT_R_VAL → ∃ u, val_to_struct (user_val_to_struct sample_mls) (user_mem sample_mls) (1 - 1) = Ret (Some u) ∧
    mls_range_contains (exp_range u) (range (mls_context [3])) = true).
Proof.
  apply (mls_valid_context sample_mls (mls_context [3])).
  - discriminate.
  - unfold level_wf; cbn [mls_context range level0 cat]. small_bits.
  - unfold level_wf; cbn [mls_context range level1 cat]. small_bits.
  - vm_compute. reflexivity.
Defined.
