(* ===== verification/FileProperties.v ===== *)
(** * The properties of policy files

    Reading, writing and indexing of binary policies, each theorem with an
    instance at the policy of SampleFile.v. *)

From S2P Require Import Prelude Policyfile Ebitmap EbitmapFile Hashtab SymtabFile Avtab Context Policydb Mls MlsFile.
From S2P Require Import Expand Cond Services ClassFile SymbolFile PtrTable RuleEdit ExpandAv AvtabFile TransFile CondFile LabelFile.
From S2P Require Import Indexes Reindex PolicydbFile PolicydbSound TypeMaps Samples SampleFile.

(** ** Accepted files *)

(** Readers and writers of the parts of modules that never succeed. *)
Definition no_module : policydb_compat_info → policydb → R policydb := λ _ _, fail (-1).
Definition no_ranges : policydb → R policydb := λ _, fail (-1).

(** C6: every policy that [load_policydb] accepts from the bytes of a kernel
    policy of version 20 or later is well formed, whatever the bytes are and
    whatever allocations fail: every symbol is found under its value in the
    array of its kind and only there, the rules are in order and unique, the
    caches of roles and users are the expansions of their sets, the contexts
    are valid and the attribute maps are inverse to each other. *)
Theorem loaded_policy_good rm rr data s p s' :
  Forall byte_ok data → kernel_image data → load_policydb rm rr data s = Ret (Some p, s') → policy_good p.
Proof.
  intros Hd Hk H. destruct (load_policydb_good rm rr data s p s' Hd H) as (hdr&info&c&m&s1&E&G).
  apply G; by apply (read_header_kernel data c m hdr info s1 Hk E).
Qed.

Lemma loaded_policy_good_witness : policy_good filed_loaded.
Proof.
  apply (loaded_policy_good (λ _, mret) mret filed_image (false, []) filed_loaded (false, [])).
  - apply (bool_decide_unpack _). vm_compute. reflexivity.
  - split; [vm_compute; reflexivity|]. vm_compute. discriminate.
  - exact filed_loads.
Defined.




(** ** Writing and reading back *)

(** C31: the pass of [policydb_write] that only counts computes the size of the
    image exactly: a buffer of that size is filled to its last byte, with the
    header, the symbol tables, the rules, the labels and the attribute maps in
    this order. *)
Theorem policy_image_size cm wm wr p v info m :
  header_ok p info → represents p v → symbols_ok p v → PolicydbFile.rules_ok cm p v → labels_ok p → type_maps_ok p →
  let bytes := policydb_bytes cm p v info in
  let n := Z.of_nat (length bytes) in
  n < 2 ^ 32 →
  policydb_write wm wr p (FS (PF PF_LEN [] 0 []) cm m) = Ret (POLICYDB_SUCCESS, FS (PF PF_LEN [] n []) cm m) ∧
  policydb_write wm wr p (FS (PF PF_USE_MEMORY [] n []) cm m) = Ret (POLICYDB_SUCCESS, FS (PF PF_USE_MEMORY [] 0 bytes) cm m).
Proof.
  intros H1 H2 H3 H4 H5 H6. cbv zeta. intros Hn.
  destruct (emits_policydb cm wm wr p v info H1 H2 H3 H4 H5 H6) as [Hw Hl]. split.
  - by rewrite Hl.
  - rewrite Hw by done. by rewrite Z.sub_diag.
Qed.

Lemma policy_image_size_witness :
  let n := Z.of_nat (length (policydb_bytes false filed filed_tables filed_info)) in
  policydb_write (λ _ _, w_fail 1) (λ _, w_fail 1) filed (FS (PF PF_LEN [] 0 []) false []) =
    Ret (POLICYDB_SUCCESS, FS (PF PF_LEN [] n []) false []) ∧
  policydb_write (λ _ _, w_fail 1) (λ _, w_fail 1) filed (FS (PF PF_USE_MEMORY [] n []) false []) =
    Ret (POLICYDB_SUCCESS, FS (PF PF_USE_MEMORY [] 0 (policydb_bytes false filed filed_tables filed_info)) false []).
Proof.
  apply (policy_image_size false (λ _ _, w_fail 1) (λ _, w_fail 1) filed filed_tables filed_info []).
  - exact filed_header.
  - exact filed_represents.
  - exact filed_symbols.
  - exact filed_rules.
  - exact filed_labels.
  - exact filed_maps.
  - vm_compute. reflexivity.
Defined.

(** With room and memory, [w] writes some bytes, and from an image that begins
    with them [r] reads a value that satisfies [Q] and stops behind them. *)
Definition reads_back {A} (cm : bool) (w : writer) (r : R A) (Q : A → Prop) : Prop :=
  ∃ bs, emits cm w bs ∧ parses_to cm r bs Q.

(** A bitmap is read back from its bytes; and whatever the bytes are,
    [ebitmap_read] returns without reading out of bounds, and what it accepts
    is a well-formed bitmap. *)
Theorem ebitmap_reads_back cm e : ebitmap_wf e → reads_back cm (ebitmap_write e) ebitmap_read (λ e', e' = e) ∧ sound ebitmap_read ebitmap_wf.
Proof.
  intros He. split; [|apply sound_ebitmap]. exists (ebitmap_bytes e). split; [apply emits_ebitmap|].
  by eapply parses_to_of; [apply parses_ebitmap, He|].
Qed.

Lemma ebitmap_reads_back_witness :
  reads_back false (ebitmap_write (bits [0; 63; 64; 1000])) ebitmap_read (λ e', e' = bits [0; 63; 64; 1000]) ∧ sound ebitmap_read ebitmap_wf.
Proof. apply (ebitmap_reads_back false (bits [0; 63; 64; 1000])). small_bits. Defined.

(** The rules of a table are read back into an empty table: the same rules,
    each once, in well-formed chains. *)
Theorem avtab_reads_back cm p a :
  POLICYDB_VERSION_AVTAB <= policyvers p → target_platform p = SEPOL_TARGET_SELINUX →
  avtab_wf (te_avtab p) → avtab_unique (te_avtab p) → Forall (storable cm (policyvers p)) (avtab_nodes (te_avtab p)) →
  avtab_nodes (te_avtab p) ≠ [] → Z.of_nat (length (avtab_nodes (te_avtab p))) < 2 ^ 32 → av_htable a = None →
  reads_back cm (avtab_write p (te_avtab p)) (avtab_read (policyvers p) a)
    (λ h, avtab_wf h ∧ rule_of <$> avtab_nodes h ≡ₚ rule_of <$> avtab_nodes (te_avtab p)).
Proof.
  intros Hv Ht Hw Hu Hs Hn Hl Ha. exists (avtab_bytes cm (te_avtab p)). split.
  - assert (oldvers p = false) as Ho by (unfold oldvers; rewrite (proj2 (Z.ltb_ge _ _) Hv); apply andb_false_r).
    unfold avtab_write. rewrite Ho. by apply emits_avtab.
  - by apply parses_avtab.
Qed.

Lemma avtab_reads_back_witness :
  reads_back false (avtab_write filed one_rule) (avtab_read 30 (AVT None 0 0 0 0))
    (λ h, avtab_wf h ∧ rule_of <$> avtab_nodes h ≡ₚ rule_of <$> avtab_nodes one_rule).
Proof.
  destruct one_rule_ok as (_&Hw&Hu&_).
  apply (avtab_reads_back false filed (AVT None 0 0 0 0)); [done|done|exact Hw|exact Hu|exact (ru_av _ _ _ filed_rules)|by vm_compute|by vm_compute|done].
Defined.

(** C32: a list of conditionals is read back: every conditional with its state,
    its expression and the rules of its two branches, in their order; the table
    of conditional rules is rebuilt around them. *)
Theorem conditionals_read_back cm p p0 :
  POLICYDB_VERSION_AVTAB <= policyvers p0 → oldvers p = false →
  target_platform p = SEPOL_TARGET_SELINUX →
  avtab_wf (te_avtab p) → avtab_wf (te_avtab p0) →
  rule_of <$> avtab_nodes (te_avtab p0) ≡ₚ rule_of <$> avtab_nodes (te_avtab p) →
  branches_ok (te_avtab p) (te_cond_avtab p) ((λ n, (true_list n, false_list n)) <$> cond_list p) →
  Forall (cond_node_ok cm p0 (te_cond_avtab p)) (cond_list p) → Forall (cond_node_ok cm p (te_cond_avtab p)) (cond_list p) →
  Z.of_nat (length (cond_list p)) < 2 ^ 31 → av_htable (te_cond_avtab p0) = None → 0 < av_nel (te_avtab p0) < 2 ^ 32 →
  reads_back cm (cond_write_list p (cond_list p)) (cond_read_list p0)
    (λ r, Forall2 (same_cond (te_cond_avtab p) r.2) (cond_list p) r.1 ∧ avtab_wf r.2).
Proof.
  intros Hv Ho Ht Hw Hw0 Hr Hb Hc0 Hc Hl Ha Hn. exists (cond_list_bytes cm (te_cond_avtab p) (cond_list p)). split.
  - by apply emits_cond_list.
  - by apply parses_cond_list.
Qed.

Definition before_conds : policydb := set_te_cond_avtab (AVT None 0 0 0 0) filed_loaded.

Lemma before_conds_te : te_avtab before_conds = te_avtab filed_loaded.
Proof. unfold before_conds. generalize filed_loaded. by intros []. Qed.

Lemma conditionals_read_back_witness :
  reads_back false (cond_write_list filed_loaded (cond_list filed_loaded)) (cond_read_list before_conds)
    (λ r, Forall2 (same_cond (te_cond_avtab filed_loaded) r.2) (cond_list filed_loaded) r.1 ∧ avtab_wf r.2).
Proof.
  destruct (pg_rules _ filed_loaded_good) as [_ _ [Hw _] [Hb _]].
  apply (conditionals_read_back false filed_loaded before_conds).
  - vm_compute. discriminate.
  - vm_compute. reflexivity.
  - vm_compute. reflexivity.
  - exact Hw.
  - rewrite before_conds_te. exact Hw.
  - rewrite before_conds_te. reflexivity.
  - exact Hb.
  - apply filed_loaded_cond_ok; vm_compute; [reflexivity|discriminate].
  - apply filed_loaded_cond_ok; vm_compute; [reflexivity|discriminate].
  - vm_compute. reflexivity.
  - reflexivity.
  - split; vm_compute; reflexivity.
Defined.

(** C33: an entry of the table of classes is read back with everything the format
    keeps, its common looked up again, and the roles, types and users likewise;
    [object_r] is read and dropped. *)
Theorem symbols_read_back cm p :
  (∀ k d, class_ok p k d → reads_back cm (class_write p k d) (class_entry p) (λ e, e = Some (k, stored_class p d))) ∧
  (∀ k d, role_ok p k d → reads_back cm (role_write p k d) (role_entry p)
     (λ e, e = if String.eqb k "object_r" then None else Some (k, stored_role p d))) ∧
  (∀ k d, type_ok p k d → reads_back cm (type_write p k d) (type_entry p) (λ e, e = Some (k, stored_type p d))) ∧
  (∀ k d, user_ok p k d → reads_back cm (user_write p k d) (user_entry p) (λ e, e = Some (k, stored_user p d))).
Proof.
  split_and!; intros k d H.
  - exists (class_bytes p k d). split; [by apply emits_class|]. by eapply parses_to_of; [apply parses_class|].
  - exists (role_bytes p k d). destruct H as [] eqn:E. split; [by apply emits_role|].
    eapply parses_to_of; [by apply parses_role|]. done.
  - exists (type_bytes p k d). destruct H as [] eqn:E. split; [by apply emits_type|]. by eapply parses_to_of; [apply parses_type|].
  - exists (user_bytes p k d). split; [apply emits_user, H|]. by eapply parses_to_of; [apply parses_user|].
Qed.

Lemma symbols_read_back_witness :
  reads_back false (class_write filed "file" stored_file_class) (class_entry filed)
    (λ e, e = Some ("file"%string, stored_class filed stored_file_class)).
Proof. apply (proj1 (symbols_read_back false filed)). exact stored_file_class_ok. Defined.

Lemma bind_same {A B} (f g : A → list B) l : (∀ x, f x = g x) → l ≫= f = l ≫= g.
Proof. intros H. induction l as [|x l IH]; [done|]. by rewrite !bind_cons, IH, H. Qed.

(** C34: the object contexts and the labels of file systems are read back as they
    are: every kind with its entries in order, the file systems by name and their
    paths by decreasing length. *)
Theorem labels_read_back cm p p0 n :
  target_platform p = SEPOL_TARGET_SELINUX → target_platform p0 = SEPOL_TARGET_SELINUX →
  policy_type p = policy_type p0 → policyvers p = policyvers p0 →
  ocontexts p0 = no_labels → genfs p0 = [] → 0 <= n <= OCON_NUM → length (ocontexts p) = Z.to_nat OCON_NUM →
  drop (Z.to_nat n) (ocontexts p) = replicate (Z.to_nat (OCON_NUM - n)) [] →
  kinds_ok (ocontext_ok_selinux p) 0 (ocontexts p) → kinds_ok (ocontext_ok_selinux p0) 0 (ocontexts p) →
  genfs_ok p (genfs p) → genfs_ok p0 (genfs p) →
  reads_back cm (ocontext_write n p) (ocontext_read n p0) (λ q, q = set_ocontexts (ocontexts p) p0) ∧
  reads_back cm (genfs_write p) (genfs_read p0) (λ l, l = genfs p).
Proof.
  intros Ht Ht0 Hk Hv Ho Hg Hn Hl Hd Hc Hc0 Hf Hf0.
  assert (Hb : ∀ x, context_bytes p x = context_bytes p0 x) by (intros x; unfold context_bytes, kern_or_base; by rewrite Hk, Hv).
  assert (Ho' : ∀ i x, ocontext_bytes_selinux p i x = ocontext_bytes_selinux p0 i x)
    by (intros i x; unfold ocontext_bytes_selinux; by rewrite !Hb).
  assert (Hks : ∀ k i ls, kinds_bytes (ocontext_bytes_selinux p) i k ls = kinds_bytes (ocontext_bytes_selinux p0) i k ls).
  { intros k. induction k as [|k IH]; intros i [|l ls]; [done..|]. cbn [kinds_bytes]. by rewrite IH, (bind_same _ _ l (Ho' i)). }
  assert (Hgs : genfs_bytes p (genfs p) = genfs_bytes p0 (genfs p)).
  { unfold genfs_bytes. f_equal. apply bind_same. intros g. unfold genfs_one_bytes. do 3 f_equal. apply bind_same.
    intros x. unfold genfs_entry_bytes. by rewrite Hb. }
  split.
  - eexists. split; [apply emits_ocontexts; [done|lia|done]|]. rewrite Hks. by eapply parses_to_of; [apply parses_ocontexts|].
  - eexists. split; [by apply emits_genfs|]. rewrite Hgs. by eapply parses_to_of; [apply parses_genfs|].
Qed.

Definition before_labels : policydb := set_genfs [] (set_ocontexts no_labels filed).

Lemma labels_read_back_witness :
  reads_back false (ocontext_write 7 filed) (ocontext_read 7 before_labels) (λ q, q = set_ocontexts (ocontexts filed) before_labels) ∧
  reads_back false (genfs_write filed) (genfs_read before_labels) (λ l, l = genfs filed).
Proof.
  destruct filed_labels as [Hl Hc Hg _].
  apply (labels_read_back false filed before_labels 7); try reflexivity.
  - vm_compute. split; discriminate.
  - exact Hc.
  - exact Hc.
  - exact Hg.
  - exact Hg.
Defined.

(** ** Rules *)





(** [policydb_index_others] on the tables of any file that was read: with
    enough memory it returns; the status is 0 with every array of values, every
    array of names and every cache built, or it is an error, and then some value
    is out of range or taken twice, or a role has a type that is not declared. *)
Theorem index_others_complete p m :
  tables_loaded p → plenty m →
  ∃ rc p' m', policydb_index_others (p, m) = Ret (rc, (p', m')) ∧ plenty m' ∧
    ((rc = 0 ∧ others_built (plenty m) p p') ∨ (rc ≠ 0 ∧ ¬ others_good p)).
Proof.
  intros Hp Hm. pose proof (behaves_index_others p m Hp) as H. unfold behaves in H. cbn [snd] in H.
  destruct (policydb_index_others (p, m)) as [[rc [p' m']]| |]; [|done..]. destruct H as [Hm' [H|[Hrc [?|?]]]]; [|done|];
    exists rc, p', m'; (split; [done|split; [by apply Hm'|]]); [by left|by right].
Qed.

Lemma index_others_complete_witness :
  ∃ rc p' m', policydb_index_others (filed, []) = Ret (rc, (p', m')) ∧ plenty m' ∧
    ((rc = 0 ∧ others_built (plenty []) filed p') ∨ (rc ≠ 0 ∧ ¬ others_good filed)).
Proof. apply (index_others_complete filed []); [exact filed_tables_loaded|exact plenty_nil]. Defined.


