(* ===== verification/ServerProperties.v ===== *)
(** * Properties of the security server over SIDs

    SIDs and contexts: what is assigned stays, what a text means, what a label
    request answers, and what a new policy does to the SIDs in use. *)

From S2P Require Import Prelude Policyfile Ebitmap Hashtab SymtabFile Avtab Context Policydb Expand Mls MlsFile Cond SymbolFile AvtabFile LabelFile Indexes Reindex PolicydbFile PolicydbSound TypeMaps Services Sidtab MlsText ContextText SidServer SidFacts PlainNames Samples SampleFile SampleServer.

(** ** SIDs *)





(** ** Text *)

(** C23: on an accepted policy the text that [context_to_string] writes for a valid
    context, with the users, roles, types, sensitivities and categories of its
    names, is read back by [context_from_string] as that same context, when no
    name contains a separator, the type's name is not an attribute's, and no run
    of categories crosses a gap of the bitmap. *)
Theorem context_text_read_back p c u r t m rc text len m' :
  policy_good p → context_is_valid p c = Ret true → plain_names p c u r t →
  context_to_string p c m = Ret (rc, Some (text, len), m') → len < 2 ^ 32 - 1 →
  len = slen text + 1 ∧
  ∀ n m1, slen text <= n <= len → plenty m1 →
  ∃ m2, context_from_string p text n m1 = Ret (STATUS_SUCCESS, Some c, m2) ∧ plenty m2.
Proof.
  intros G Hv Hn H Hlen. split; [by eapply context_text_fits|].
  eapply context_text_roundtrip; [apply Hn..| |exact H|done]. apply plain_named; [apply G|done|done].
Qed.

Lemma context_text_read_back_witness : ∃ m2,
  context_from_string mls_loaded "u:r:su:s0-s0:c0.c2" 19 [] = Ret (STATUS_SUCCESS, Some (ranged 2 [0; 1; 2]), m2) ∧ plenty m2.
Proof.
  apply (context_text_read_back mls_loaded (ranged 2 [0; 1; 2]) "u" "r" "su" [] 0 "u:r:su:s0-s0:c0.c2" 19 []).
  - exact mls_loaded_good.
  - vm_compute. reflexivity.
  - exact ranged_named.
  - vm_compute. reflexivity.
  - reflexivity.
  - split; [vm_compute; discriminate|reflexivity].
  - constructor.
Defined.

(** C22: a SID that a request returns, for a text or for a new object, stands for a
    context that is valid in the policy in use; the request changes the table
    only by adding that SID. *)
Theorem request_sids_valid s m p : sidtab_wf (sv_sidtab s) → sv_policydb s = Some p →
  (∀ text len want rc sid s' m', sepol_context_to_sid text len want (s, m) = Ret ((rc, sid), (s', m')) →
     grown (sv_sidtab s) (sv_sidtab s') ∧ sv_policydb s' = Some p ∧
     (rc = STATUS_SUCCESS → want = true →
      ∃ k c, sid = Some k ∧ 0 < k ∧ sid_map (sv_sidtab s') !! k = Some c ∧ context_is_valid p c = Ret true)) ∧
  (∀ ssid tsid tclass spec rc sid s' m', compute_sid ssid tsid tclass spec (s, m) = Ret ((rc, sid), (s', m')) →
     grown (sv_sidtab s) (sv_sidtab s') ∧ sv_policydb s' = Some p ∧
     (rc = 0 →
      ∃ k c, sid = Some k ∧ 0 < k ∧ sid_map (sv_sidtab s') !! k = Some c ∧ context_is_valid p c = Ret true)).
Proof.
  intros Hs Hp. split; [|intros; by eapply compute_sid_valid]. intros text len want rc sid s' m' H. by eapply text_sid_valid.
Qed.

(** The server after a request. *)
Definition after {A} (r : M sstate A) (s : sstate) : sstate := match r s with Ret (_, s') => s' | _ => s end.

Definition asked : sstate := Eval vm_compute in after (sepol_context_to_sid "u:object_r:su" 14 true) (served, []).

Lemma asked_sid : sepol_context_to_sid "u:object_r:su" 14 true (served, []) = Ret ((STATUS_SUCCESS, Some 3), asked).
Proof. vm_compute. reflexivity. Qed.

Lemma request_sids_valid_witness : sv_policydb asked.1 = Some filed_loaded ∧
  ∃ k c, Some 3 = Some k ∧ 0 < k ∧ sid_map (sv_sidtab asked.1) !! k = Some c ∧ context_is_valid filed_loaded c = Ret true.
Proof.
  destruct (proj1 (request_sids_valid served [] filed_loaded first_table_wf eq_refl) _ _ _ _ _ _ _ asked_sid) as (_&Hp&Hv).
  split; [exact Hp|apply Hv; reflexivity].
Defined.

(** ** Labels *)

(** C24: the label requests of the network answer with a SID of the context of the
    first entry that fits - the protocol and port range, the prefix and key range,
    the device and port, the address under the entry's mask, the name of the
    interface - and with the initial SID of the kind when none does; they fail
    only when no SID can be given, and keep the SIDs in use. *)
Theorem network_labels s m p : server_ok s → sv_policydb s = Some p →
  (∀ protocol port, answers s m (oc_context0 <$> find (port_fits protocol port) (labels_of p OCON_PORT)) SECINITSID_PORT
     (sepol_port_sid protocol port (s, m))) ∧
  (∀ prefix pkey, answers s m (oc_context0 <$> find (pkey_fits prefix pkey) (labels_of p OCON_IBPKEY)) SECINITSID_UNLABELED
     (sepol_ibpkey_sid prefix pkey (s, m))) ∧
  (∀ dev port, answers s m (oc_context0 <$> find (endport_fits dev port) (labels_of p OCON_IBENDPORT)) SECINITSID_UNLABELED
     (sepol_ibendport_sid dev port (s, m))) ∧
  (∀ addr, answers s m (oc_context0 <$> find (node_fits addr) (labels_of p OCON_NODE)) SECINITSID_NODE
     (sepol_node_sid AF_INET [addr] 4 (s, m))) ∧
  (∀ addr, length addr = 4%nat →
     answers s m (oc_context0 <$> find (node6_fits addr) (labels_of p OCON_NODE6)) SECINITSID_NODE (sepol_node_sid AF_INET6 addr 16 (s, m))) ∧
  (∀ name, answers_two s m ((λ c, (oc_context0 c, oc_context1 c)) <$> find (name_fits name) (labels_of p OCON_NETIF))
     (SECINITSID_NETIF, SECINITSID_NETMSG) (sepol_netif_sid name (s, m))).
Proof.
  intros Hs Hp. split_and!; intros.
  - apply one_kind; [done..|]. label_key.
  - apply one_kind; [done..|]. label_key.
  - apply one_kind; [done..|]. label_key.
  - apply one_kind; [done..|]. label_key.
  - unfold sepol_node_sid. cbn [Z.eqb negb]. rewrite H. apply one_kind; [done..|]. label_key.
  - apply two_kind; [done..|]. label_key.
Qed.

Lemma port_80 : oc_context0 <$> find (port_fits 6 80) (labels_of filed_loaded OCON_PORT) = Some (stored_context 2).
Proof. vm_compute. reflexivity. Qed.

Lemma port_81 : oc_context0 <$> find (port_fits 6 81) (labels_of filed_loaded OCON_PORT) = None.
Proof. vm_compute. reflexivity. Qed.

Lemma network_labels_witness :
  answers served [] (Some (stored_context 2)) SECINITSID_PORT (sepol_port_sid 6 80 (served, [])) ∧
  answers served [] None SECINITSID_PORT (sepol_port_sid 6 81 (served, [])).
Proof.
  rewrite <- port_80, <- port_81. destruct (network_labels served [] filed_loaded served_ok eq_refl) as [H _].
  split; [exact (H 6 80)|exact (H 6 81)].
Defined.

(** A request for the label of a path takes, among the entries of the file
    system whose path is a prefix of it and whose class fits, one with the longest
    path; without one it fails with ENOENT and the unlabelled SID, and changes
    nothing. *)
Theorem genfs_longest_prefix s m p name path sclass : server_ok s → sv_policydb s = Some p →
  ∃ rc sid s' m', sepol_genfs_sid name path sclass (s, m) = Ret ((rc, sid), (s', m')) ∧
    server_ok s' ∧ grown (sv_sidtab s) (sv_sidtab s') ∧ (plenty m → plenty m') ∧
    match genfs_label p name path sclass with
    | None => rc = - ENOENT ∧ sid = Some SECINITSID_UNLABELED ∧ s' = s ∧
        (∀ g c, g ∈ genfs p → fstype g = name → c ∈ gf_head g → path_fits path sclass c = false)
    | Some c =>
        (∃ g, g ∈ genfs p ∧ fstype g = name ∧ c ∈ gf_head g ∧ path_fits path sclass c = true ∧
           ∀ c', c' ∈ gf_head g → path_fits path sclass c' = true → strlen (oc_path c') <= strlen (oc_path c)) ∧
        ((rc = 0 ∧ ∃ k, sid = Some k ∧ sid_map (sv_sidtab s') !! k = Some (oc_context0 c)) ∨
         (rc = - ENOMEM ∧ sid = None ∧ no_room (sv_sidtab s') m))
    end.
Proof.
  intros Hs Hp. destruct (sepol_genfs_sid_correct s m p name path sclass Hs Hp) as (rc&sid&s'&m'&E&Hs'&Hg&Hpl&H).
  exists rc, sid, s', m'. do 4 (split; [done|]). destruct Hs as [_ Hl]. destruct (lo_sorted _ _ (Hl p Hp)) as [Hsort Hpaths].
  destruct (genfs_label p name path sclass) as [c|] eqn:Ec.
  - split; [by apply (genfs_label_longest p)|done].
  - destruct H as (->&->&->). do 3 (split; [done|]). by apply genfs_label_none.
Qed.

Lemma proc_net : genfs_label filed_loaded "proc" "/net/tcp" 7 = Some (plain_label (OC_name "/net") 0 (stored_context 1) 0).
Proof. vm_compute. reflexivity. Qed.

Lemma genfs_longest_prefix_witness : ∃ rc sid s' m', sepol_genfs_sid "proc" "/net/tcp" 7 (served, []) = Ret ((rc, sid), (s', m')) ∧
  ((rc = 0 ∧ ∃ k, sid = Some k ∧ sid_map (sv_sidtab s') !! k = Some (stored_context 1)) ∨
   (rc = - ENOMEM ∧ sid = None ∧ no_room (sv_sidtab s') [])).
Proof.
  destruct (genfs_longest_prefix served [] filed_loaded "proc" "/net/tcp" 7 served_ok eq_refl) as (rc&sid&s'&m'&E&_&_&_&H).
  rewrite proc_net in H. destruct H as [_ H]. exists rc, sid, s', m'. split; [exact E|exact H].
Defined.

(** ** A new policy *)

(** C18: a reload that succeeds puts the policy of the image in use; a SID of the old
    table either disappears or stands for a context that is valid in the new policy
    and has the user, the role and the type of the same names; no SID is added and
    the table is open.  For the image of a kernel policy for SELinux the server is
    as well formed as at the start. *)
Theorem reload_keeps_valid rm rr data junk s m s' m' :
  sidtab_wf (sv_sidtab s) → sid_map (sv_sidtab s) ≠ ∅ →
  sepol_load_policy rm rr data junk (s, m) = Ret (0, (s', m')) →
  ∃ oldp newp, sv_policydb s = Some oldp ∧ sv_policydb s' = Some newp ∧
    (∃ c, load_policydb rm rr data (sv_compat s, m) = Ret (Some newp, c)) ∧
    shutdown (sv_sidtab s') = 0 ∧
    (∀ sid, match sid_map (sv_sidtab s) !! sid with
            | Some c => converted oldp newp c (sid_map (sv_sidtab s') !! sid)
            | None => sid_map (sv_sidtab s') !! sid = None
            end) ∧
    (Forall byte_ok data → kernel_image data → target_platform newp = SEPOL_TARGET_SELINUX → policy_good newp ∧ server_ok s').
Proof.
  intros Hs Hne H. destruct (sepol_load_policy_ok rm rr data junk s m s' m' Hs Hne H) as (oldp&newp&Eo&En&(c&Hload)&Hw&Hsh&Hmap).
  exists oldp, newp. do 2 (split; [done|]). split; [by exists c|]. do 2 (split; [done|]). intros Hd Hk Ht.
  assert (G : policy_good newp).
  { destruct (load_policydb_good rm rr data _ newp c Hd Hload) as (hdr&info&c1&m1&s1&E&G).
    apply G; by apply (read_header_kernel data c1 m1 hdr info s1 Hk E). }
  split; [exact G|]. split; [exact Hw|]. intros p Hp. rewrite En in Hp. apply (inj Some) in Hp as <-. by apply loaded_label_sids.
Qed.

Definition reloaded : sstate := Eval vm_compute in after (sepol_load_policy (λ _, mret) mret filed_image no_table) (served, []).

Lemma served_reloads : sepol_load_policy (λ _, mret) mret filed_image no_table (served, []) = Ret (0, reloaded).
Proof. vm_compute. reflexivity. Qed.

Lemma reload_keeps_valid_witness : ∃ oldp newp, sv_policydb served = Some oldp ∧ sv_policydb reloaded.1 = Some newp ∧
  converted oldp newp (stored_context 2) (sid_map (sv_sidtab reloaded.1) !! 2) ∧ server_ok reloaded.1.
Proof.
  assert (E2 : sid_map first_table !! 2 = Some (stored_context 2)) by (vm_compute; reflexivity).
  destruct (reload_keeps_valid (λ _, mret) mret filed_image no_table served [] reloaded.1 reloaded.2 first_table_wf)
    as (oldp&newp&Eo&En&_&_&Hmap&Hok).
  - intros E. change (sv_sidtab served) with first_table in E. rewrite E, lookup_empty in E2. discriminate E2.
  - exact served_reloads.
  - exists oldp, newp. split; [exact Eo|]. split; [exact En|]. specialize (Hmap 2). change (sv_sidtab served) with first_table in Hmap.
    rewrite E2 in Hmap. split; [exact Hmap|]. destruct filed_kernel as [Hb Hk]. apply (Hok Hb Hk).
    assert (Ht : option_map target_platform (sv_policydb reloaded.1) = Some SEPOL_TARGET_SELINUX) by (vm_compute; reflexivity).
    rewrite En in Ht. injection Ht as Ht. exact Ht.
Defined.



(** *** SIDs that are used again *)






(** The text [<<none>>] names no context: its record is the NULL pointer, which is
    followed. *)
Lemma none_undefined p m : plenty m → context_from_string p "<<none>>" 9 m = Undef.
Proof.
  intros Hm. unfold context_from_string. cbn [zero_or_saturated]. destruct (malloc_plenty m Hm) as (m1&E&Hm1). 
  change (zero_or_saturated 9) with false. cbn [negb]. rewrite E. reflexivity.
Qed.
