(* ===== verification/CheckProperties.v ===== *)
(** * Properties of the checks on policies

    What a policy that passes the check of a neverallow rule never grants, when a rule
    is reported, and what the check of extended permissions misses; what the check of
    bounds finds, what it means for decisions, and what it misses. *)

From S2P Require Import Prelude Ebitmap Hashtab Avtab Context Policydb Mls Cond Services Sepolicy RuleEdit PolicydbFile PolicydbSound TypeMaps CondFile Assertion Hierarchy Samples SampleFile.

(** ** Accepted policies *)

Lemma loaded_cond_wf p : policy_good p → avtab_wf (te_cond_avtab p).
Proof. intros G. by destruct (rg_conds _ (pg_rules _ G)) as [[? _ _ _ _] _]. Qed.

(** The tables and maps of an accepted policy after any evaluation of its
    conditionals. *)
Lemma good_te_wf p t : policy_good p → nprim (p_types p) < 2 ^ 16 → switched (te_cond_avtab p) t →
  ∀ q, te_avtab q = te_avtab p → te_cond_avtab q = t → type_attr_map q = type_attr_map p → te_wf q.
Proof.
  intros G Hn [_ Hw] q Et Ec Ea. unfold te_wf, attrs_ok. rewrite Et, Ec, Ea. split; [apply (rg_te _ (pg_rules _ G))|].
  split; [by apply Hw, loaded_cond_wf|]. intros i e He.
  destruct (tm_type _ (pg_maps _ G) _ _ He) as (e'&[= <-]&Hwe&_&Hlt). split; [done|]. intros j Hj. specialize (Hlt j Hj). lia.
Qed.

(** C10: a neverallow rule on permissions that an accepted policy passes
    protects: whatever values the booleans are given and the conditionals get,
    no decision of the security server allows one type a permission that the rule
    forbids it. *)
Theorem neverallow_protects p r m m' bm q rc0 s t c b fuel req avd0 r0 rc avd rs :
  policy_good p → nprim (p_types p) < 2 ^ 16 → rule_wf r → av_specified r ≠ AVRULE_XPERMS_NEVERALLOW →
  check_assertion p r m = Ret (0, m') → evaluate_conds (set_bool_mem bm p) = Ret (rc0, q) →
  forbids r (type s - 1) (type t - 1) c b → 0 <= b < 32 → class_ok p c →
  plain_type p (type s - 1) = true → plain_type p (type t - 1) = true →
  context_struct_compute_av fuel q s t c req avd0 r0 = Ret (rc, avd, rs) →
  Z.testbit (allowed avd) b = false.
Proof.
  intros G Hn Hr Hplain Hc Hev Hf Hb Hcl Hps Hpt H. apply evaluate_conds_switched in Hev as (l&tab&->&Hsw).
  apply not_true_iff_false. intros Hbit.
  assert (Ht : te_allows (set_te_cond_avtab tab (set_cond_list l (set_bool_mem bm p))) (type s) (type t) c b).
  { assert (Hwf : te_wf (set_te_cond_avtab tab (set_cond_list l (set_bool_mem bm p)))) by by eapply good_te_wf.
    apply (compute_av_allowed _ c b Hwf Hcl Hb _ _ _ _ _ _ _ _ _ H) in Hbit. by inversion Hbit. }
  revert Ht. eapply (check_assertion_protects p _ r m m'); try done; [apply (pg_maps _ G)|lia].
Qed.

(** neverallow { untrusted_app su } self:file { read write } *)
Definition never_self : avrule :=
  AVR AVRULE_NEVERALLOW RULE_SELF (TS (bits [0; 1]) ebitmap_init 0) (TS ebitmap_init ebitmap_init 0) [CPN 1 3] None.

Lemma never_self_wf : rule_wf never_self.
Proof. split_and!; [cbn [stypes types never_self]; small_bits|apply ebitmap_wf_init|by repeat constructor]. Qed.

(** The booleans: x is set, its rule is enabled. *)
Definition x_is_set : list cond_bool_datum := [BD 1 1 0; BD 2 0 0].

Definition filed_x : policydb := default policydb_zero
  (match evaluate_conds (set_bool_mem x_is_set filed_loaded) with Ret (_, q) => Some q | _ => None end).

Lemma filed_x_evaluates : evaluate_conds (set_bool_mem x_is_set filed_loaded) = Ret (0, filed_x).
Proof. vm_compute. reflexivity. Qed.

Lemma neverallow_protects_witness : ∃ avd rs,
  context_struct_compute_av 2 filed_x (stored_context 2) (stored_context 2) 1 3 zero_avd (Some 0) = Ret (0, avd, rs) ∧
  Z.testbit (allowed avd) 1 = false.
Proof.
  eexists _, _. split; [vm_compute; reflexivity|].
  eapply (neverallow_protects filed_loaded never_self [] [] x_is_set filed_x 0 (stored_context 2) (stored_context 2)
    1 1 2 3 zero_avd (Some 0)).
  - exact filed_loaded_good.
  - vm_compute. reflexivity.
  - exact never_self_wf.
  - discriminate.
  - vm_compute. reflexivity.
  - exact filed_x_evaluates.
  - split; [vm_compute; reflexivity|]. split; [by right|]. exists (CPN 1 3). split; [by left|done].
  - lia.
  - split; [|lia]. vm_compute. split; [reflexivity|discriminate].
  - vm_compute. reflexivity.
  - vm_compute. reflexivity.
  - vm_compute. reflexivity.
Defined.

(** ** Exactness *)

(** C11: when memory suffices and the keys of the tables are types of the policy,
    a neverallow rule on permissions fails exactly when some rule, enabled or not,
    grants something the rule forbids to members of its types; rules whose target
    is [self] are compared on the same member. *)
Theorem neverallow_exact p r m : rule_wf r → av_specified r ≠ AVRULE_XPERMS_NEVERALLOW → plenty m →
  Forall (key_known p) (rules_of p) →
  ∃ rc m', check_assertion p r m = Ret (rc, m') ∧ plenty m' ∧
    (rc = 1 ∧ Exists (violates p r) (rules_of p) ∨ rc = 0 ∧ ¬ Exists (violates p r) (rules_of p)).
Proof.
  intros Hr Hplain Hm Hk. destruct (check_assertion_wp p r Hr Hplain m Hk) as (rc&m'&E&Hp&H0&H1&_).
  destruct (Hp Hm) as [Hm' [->| ->]].
  - exists 0, m'. split_and!; [done..|]. right. by auto.
  - exists 1, m'. split_and!; [done..|]. left. by auto.
Qed.

Lemma filed_keys_known : Forall (key_known filed_loaded) (rules_of filed_loaded).
Proof.
  assert (E : rules_of filed_loaded = [AN 0 (AK 2 3 1 1) (AD 3 None) 0 0; AN 0 (AK 1 2 1 1) (AD 2 None) 0 1])
    by by vm_compute.
  assert (Ea : attr_type_map filed_loaded = [Some (bits [0]); Some (bits [1]); Some (bits [0])]) by by vm_compute.
  rewrite E. unfold key_known, types_with. rewrite Ea.
  repeat constructor; (do 2 eexists; split; [reflexivity|]; split; [reflexivity|]; split; small_bits).
Qed.

Lemma neverallow_exact_witness : ∃ rc m', check_assertion filed_loaded never_self [] = Ret (rc, m') ∧ plenty m' ∧
    (rc = 1 ∧ Exists (violates filed_loaded never_self) (rules_of filed_loaded) ∨
     rc = 0 ∧ ¬ Exists (violates filed_loaded never_self) (rules_of filed_loaded)).
Proof.
  apply (neverallow_exact filed_loaded never_self []); [exact never_self_wf|discriminate|exact plenty_nil|exact filed_keys_known].
Defined.

(** ** Extended permissions *)






(** ** Bounds *)




















