(* ===== verification/RecordProperties.v ===== *)
(** * Properties of the record interface

    What a client that changes a policy through records can rely on, and what it
    cannot: labels that are read back, the requests they change, users and
    booleans. *)

From S2P Require Import Prelude Policyfile Ebitmap Hashtab SymtabFile Avtab Context Policydb Expand Mls MlsFile Cond SymbolFile AvtabFile LabelFile CondFile Indexes Reindex PolicydbFile PolicydbSound TypeMaps Services Assertion Sidtab MlsText ContextText Records PolicyRecords SymbolRecords SidServer SidFacts PlainNames RecordFacts UserFacts Samples SampleFile SampleServer.

(** ** Labels *)

Lemma same_bytes_refl l : same_bytes l l = Ret true.
Proof.
  unfold same_bytes. rewrite (proj2 (Nat.ltb_ge _ _)) by lia. rewrite firstn_all. assert (memcmp l l = 0) as ->; [|done].
  induction l as [|x l IH]; [done|]. cbn [memcmp]. by rewrite Z.eqb_refl.
Qed.

Lemma known_proto proto : 0 <= proto <= 2 → (sepol2ipproto proto <? 0) = false.
Proof. intros Hp. assert (proto = 0 ∨ proto = 1 ∨ proto = 2) as [->|[->| ->]] by lia; done. Qed.

Lemma strcmp_dev_refl s : slen s < 64 → strcmp_dev s s = Ret 0.
Proof.
  intros Hs. unfold strcmp_dev. destruct (Z.leb_spec IB_DEVICE_NAME_MAX (slen s)) as [Hge|_]; [unfold IB_DEVICE_NAME_MAX in Hge; lia|].
  by rewrite andb_false_r, strcmp_refl.
Qed.

(** The same computations in another form. *)
Lemma stored_found_ext {R} (modify modify' : M st Z) (query query' : policydb → E (option R)) r p kind x m :
  modify (p, m) = modify' (p, m) → (∀ q m, query q m = query' q m) →
  stored_and_found modify' query' r p kind x m → stored_and_found modify query r p kind x m.
Proof. intros Em Eq (m'&E&Hm'&H). exists m'. rewrite Em. split; [done|]. split; [done|]. intros m1 Hm1. rewrite Eq. by apply H. Qed.

(** C28: on an accepted policy, a port, an address, an InfiniBand key or port that is
    given as a record, with the names of a valid context and numbers of the size of
    the entry, is added in front of the labels of its kind, and a query for it
    answers with the same record. *)
Theorem label_records_read_back p c con m : policy_good p → names_context p c con → plenty m →
  (∀ low high proto, 0 <= proto <= 2 → 0 <= low → low <= high → high < 2 ^ 16 →
     let r := PORT low high proto (Some con) in let key := PORT_KEY low high proto in
     stored_and_found (sepol_port_modify key r) (λ p', sepol_port_query p' key) r p OCON_PORT
       (OC (OC_port (sepol2ipproto proto) low high) 0 c zero_context 0 0) m) ∧
  (∀ proto addr mask, addr_ok proto addr → addr_ok proto mask →
     let r := NODE addr mask proto (Some con) in let key := NODE_KEY addr mask proto in
     stored_and_found (sepol_node_modify key r) (λ p', sepol_node_query p' key) r p
       (if proto =? SEPOL_PROTO_IP4 then OCON_NODE else OCON_NODE6) (OC (node_entry proto addr mask) 0 c zero_context 0 0) m) ∧
  (∀ prefix low high, 0 <= low → low <= high → high < 2 ^ 16 →
     let r := IBPKEY prefix low high (Some con) in let key := IBPKEY_KEY prefix low high in
     stored_and_found (sepol_ibpkey_modify key r) (λ p', sepol_ibpkey_query p' key) r p OCON_IBPKEY
       (OC (OC_ibpkey prefix low high) 0 c zero_context 0 0) m) ∧
  (∀ dev port, slen dev < 64 → byte_ok port →
     let r := IBEP (Some dev) port (Some con) in let key := IBEP_KEY dev port in
     stored_and_found (sepol_ibendport_modify key r) (λ p', sepol_ibendport_query p' key) r p OCON_IBENDPORT
       (OC (OC_ibendport dev port) 0 c zero_context 0 0) m).
Proof.
  intros G H Hm. pose proof (pg_indexed _ G) as P. destruct (pg_labels _ G) as [L _]. split_and!.
  - intros low high proto Hp Hl Hh Hmax r key. apply stored_found_ext with
      (o ← on_policy (λ q, port_from_record q r); match o with None => mret STATUS_ERR | Some x => _ ← attach OCON_PORT x; mret STATUS_SUCCESS end)
      (λ p', label_query p' OCON_PORT (same_port (sepol2ipproto proto) low high) (port_to_record p')).
    + unfold sepol_port_modify. cbn [pk_proto key]. by rewrite known_proto.
    + intros q m1. unfold sepol_port_query, checked. cbn [pk_proto pk_low pk_high key]. rewrite known_proto by done. by rewrite (e_bind _ _ m1 (sepol2ipproto proto) m1).
    + apply (stored_is_found p L OCON_PORT _ port_to_record); [done| |done| |done]; [intros m1 Hm1; by apply port_stored|].
      unfold same_port; cbn [oc_u]. by rewrite !Z.eqb_refl.
  - intros proto addr mask Ha Hk r key.
    assert (node_kind proto = Some (if proto =? SEPOL_PROTO_IP4 then OCON_NODE else OCON_NODE6)) as Hkind by (destruct Ha as [_ [[-> _]|[-> _]]]; done).
    unfold sepol_node_modify, sepol_node_query. cbn [nk_proto key]. rewrite Hkind.
    apply (stored_is_found p L _ _ (λ q, node_to_record q proto)); [by destruct (proto =? _)| |done| |done]; [intros m1 Hm1; by apply node_stored|].
    unfold same_node. rewrite node_bytes_stored by done. cbn [mbind outcome_bind nk_addr nk_mask key]. by rewrite !same_bytes_refl.
  - intros prefix low high Hl Hh Hmax r key.
    apply (stored_is_found p L OCON_IBPKEY _ ibpkey_to_record); [done| |done| |done]; [intros m1 Hm1; by apply ibpkey_stored|].
    unfold same_ibpkey; cbn. by rewrite !Z.eqb_refl.
  - intros dev port Hd Hp r key.
    apply (stored_is_found p L OCON_IBENDPORT _ ibendport_to_record); [done| |done| |done]; [intros m1 Hm1; apply ibendport_stored; (done || lia)|].
    unfold same_ibendport; cbn [oc_u epk_port epk_dev key]. by rewrite Z.eqb_refl, strcmp_dev_refl.
Qed.

Lemma label_records_read_back_witness :
  let con := CR (Some "u") (Some "r") (Some "su") (Some "s0-s0:c0.c2")%string in
  stored_and_found (sepol_port_modify (PORT_KEY 1024 2048 SEPOL_PROTO_TCP) (PORT 1024 2048 SEPOL_PROTO_TCP (Some con)))
    (λ p', sepol_port_query p' (PORT_KEY 1024 2048 SEPOL_PROTO_TCP)) (PORT 1024 2048 SEPOL_PROTO_TCP (Some con)) mls_loaded OCON_PORT
    (OC (OC_port IPPROTO_TCP 1024 2048) 0 (ranged 2 [0; 1; 2]) zero_context 0 0) [].
Proof.
  intros con. apply (proj1 (label_records_read_back mls_loaded (ranged 2 [0; 1; 2]) con [] mls_loaded_good ranged_record (Forall_nil_2 _)) 1024 2048 SEPOL_PROTO_TCP);
    vm_compute; intuition discriminate.
Defined.

(** ** Ports *)

(** C29: changing a port by a record, whatever the key is, adds an entry even when the
    ports have one already, and leaves the others behind it: from then on the server
    answers for the ports of the range and protocol of the record with a SID of the
    record's context, and for all others as before. *)
Theorem port_modify_takes_effect s p c con low high proto key m :
  server_ok s → sv_policydb s = Some p → policy_good p → names_context p c con →
  0 <= proto <= 2 → 0 <= low → low <= high → high < 2 ^ 16 → 0 <= sepol2ipproto (pk_proto key) → plenty m →
  ∃ x p' m', sepol_port_modify key (PORT low high proto (Some con)) (p, m) = Ret (STATUS_SUCCESS, (p', m')) ∧
    labels_of p' OCON_PORT = x :: labels_of p OCON_PORT ∧
    let s' := with_policy (Some p') s in
    server_ok s' ∧ ∀ protocol port m1,
      answers s' m1
        (if (protocol =? sepol2ipproto proto) && (low <=? port) && (port <=? high) then Some c
         else oc_context0 <$> find (port_fits protocol port) (labels_of p OCON_PORT)) SECINITSID_PORT
        (sepol_port_sid protocol port (s', m1)).
Proof.
  intros Hs Hp G H Hpr Hl Hh Hmax Hkey Hm. pose proof (pg_indexed _ G) as P. destruct (pg_labels _ G) as [L _].
  destruct (port_stored p P m Hm c con low high proto H Hpr Hl Hh Hmax) as [(m1&E1&Hm1) _]. set (x := OC _ _ _ _ _ _) in *.
  exists x, (label_stored p OCON_PORT x), m1.
  destruct (server_relabelled s p Hs Hp OCON_PORT (x :: labels_of p OCON_PORT)) as [Hs' Hl'];
    [done|constructor; [split; [apply fresh_labelled|done]|by apply (kind_good s p Hs Hp)]|].
  split; [|split; [exact Hl'|split; [exact Hs'|]]].
  - unfold sepol_port_modify. destruct (Z.ltb_spec (sepol2ipproto (pk_proto key)) 0); [lia|].
    by apply (attached p L OCON_PORT (λ q, port_from_record q (PORT low high proto (Some con)))).
  - intros protocol port m2. cbv zeta in Hs', Hl'. set (p' := set_ocontexts _ p) in *.
    assert (Ha : answers (with_policy (Some p') s) m2 (oc_context0 <$> find (port_fits protocol port) (labels_of p' OCON_PORT)) SECINITSID_PORT
      (sepol_port_sid protocol port (with_policy (Some p') s, m2))) by (apply one_kind; [done..|label_key]).
    rewrite Hl' in Ha. cbn [find port_fits oc_u x] in Ha. rewrite (Z.eqb_sym protocol). by destruct (_ && _ && _).
Qed.

(** The sample has a label for port 80. *)
Lemma port_modify_takes_effect_witness :
  let key := PORT_KEY 80 80 SEPOL_PROTO_TCP in
  ∃ x p' m', sepol_port_modify key (PORT 80 90 SEPOL_PROTO_TCP (Some (CR (Some "u") (Some "r") (Some "untrusted_app") None)))%string (filed_loaded, []) =
      Ret (STATUS_SUCCESS, (p', m')) ∧
    labels_of p' OCON_PORT = x :: labels_of filed_loaded OCON_PORT ∧
    answers (with_policy (Some p') served) [] (Some (stored_context 1)) SECINITSID_PORT (sepol_port_sid IPPROTO_TCP 80 (with_policy (Some p') served, [])).
Proof.
  intros key. destruct (port_modify_takes_effect served filed_loaded (stored_context 1) (CR (Some "u") (Some "r") (Some "untrusted_app") None)%string
    80 90 SEPOL_PROTO_TCP key [] served_ok eq_refl filed_loaded_good served_record) as (x&p'&m'&E&Hl&_&H);
    [vm_compute; intuition discriminate..|constructor|].
  exists x, p', m'. split; [exact E|]. split; [exact Hl|]. exact (H IPPROTO_TCP 80 []).
Defined.

(** ** Interfaces *)

(** C30: changing an interface by a record of the same name replaces its first entry, or
    adds one when there is none: from then on the server answers for the interface with
    SIDs of the record's contexts, for every other interface as before, and a query
    answers with the record. *)
Theorem iface_modify_takes_effect s p name c0 con0 c1 con1 m :
  server_ok s → sv_policydb s = Some p → policy_good p → names_context p c0 con0 → names_context p c1 con1 → plenty m →
  let record := IFACE (Some name) (Some con0) (Some con1) in
  ∃ p' m', sepol_iface_modify (IFACE_KEY name) record (p, m) = Ret (STATUS_SUCCESS, (p', m')) ∧
    length (labels_of p' OCON_NETIF) = (length (labels_of p OCON_NETIF) + match find (name_fits name) (labels_of p OCON_NETIF) with Some _ => 0 | None => 1 end)%nat ∧
    (∀ m1, plenty m1 → ∃ m2, sepol_iface_query p' (IFACE_KEY name) m1 = Ret (Some (Some record), m2)) ∧
    let s' := with_policy (Some p') s in
    server_ok s' ∧ ∀ n m1,
      answers_two s' m1
        (if streq name n then Some (c0, c1)
         else (λ c, (oc_context0 c, oc_context1 c)) <$> find (name_fits n) (labels_of p OCON_NETIF)) (SECINITSID_NETIF, SECINITSID_NETMSG)
        (sepol_netif_sid n (s', m1)).
Proof.
  intros Hs Hp G H0 H1 Hm record. pose proof (pg_indexed _ G) as P.
  destruct (iface_stored p P m Hm name c0 con0 c1 con1 H0 H1) as [(m1&E1&Hm1) _]. set (x := OC _ _ _ _ _ _) in *.
  destruct (kind_good s p Hs Hp OCON_NETIF) as [El Hl]; [done|].
  destruct (iface_list_changed (labels_of p OCON_NETIF) name x) as (l&Hrun&Hfind&Hlen&Hall); [|done|].
  { eapply Forall_impl; [exact Hl|]. by intros ? [_ ?]. }
  destruct (server_relabelled s p Hs Hp OCON_NETIF l) as [Hs' Hl']; [done|apply Hall; [exact Hl|split; [apply fresh_labelled|right; by left]]|].
  cbv zeta in Hs', Hl'. set (p' := set_ocontexts _ p) in *. exists p', m1. rewrite Hl'. split; [|split; [exact Hlen|split; [|split; [exact Hs'|]]]].
  - unfold sepol_iface_modify, mbind, M_bind. rewrite (on_policy_run (λ q, iface_from_record q record) p m _ _ E1). by apply iface_change_run.
  - intros m2 Hm2. destruct (iface_stored p P m2 Hm2 name c0 con0 c1 con1 H0 H1) as [_ (m3&E3&_)]. exists m3.
    apply (iface_query_run p p' name x); [| | |reflexivity|exact E3].
    + rewrite Hl', Hfind. by rewrite (proj2 (streq_spec name name)).
    + rewrite Hl'. apply Hall; [|right; by left]. eapply Forall_impl; [exact Hl|]. by intros ? [_ ?].
    + destruct (kind_good _ p' Hs' eq_refl OCON_NETIF) as [Ek _]; [done|]. by apply (kind_labels_of p' OCON_NETIF _ ltac:(done) Ek).
  - intros n m2. assert (Ha : answers_two (with_policy (Some p') s) m2 ((λ c, (oc_context0 c, oc_context1 c)) <$> find (name_fits n) (labels_of p' OCON_NETIF))
      (SECINITSID_NETIF, SECINITSID_NETMSG) (sepol_netif_sid n (with_policy (Some p') s, m2))) by (apply two_kind; [done..|label_key]).
    rewrite Hl', Hfind in Ha. by destruct (streq name n).
Qed.

Lemma iface_modify_takes_effect_witness :
  let con := CR (Some "u") (Some "r") (Some "untrusted_app") None in
  ∃ p' m', sepol_iface_modify (IFACE_KEY "lo") (IFACE (Some "lo") (Some con) (Some con)) (filed_loaded, []) = Ret (STATUS_SUCCESS, (p', m')) ∧
    answers_two (with_policy (Some p') served) [] (Some (stored_context 1, stored_context 1)) (SECINITSID_NETIF, SECINITSID_NETMSG)
      (sepol_netif_sid "lo" (with_policy (Some p') served, [])).
Proof.
  intros con. destruct (iface_modify_takes_effect served filed_loaded "lo" (stored_context 1) con (stored_context 1) con []
    served_ok eq_refl filed_loaded_good served_record served_record (Forall_nil_2 _)) as (p'&m'&E&_&_&_&H).
  exists p', m'. split; [exact E|]. exact (H "lo"%string []).
Defined.

(** ** Booleans *)



Lemma run_step {A B} (c : M st A) (f : A → M st B) s a s1 : c s = Ret (a, s1) → (c ≫= f) s = f a s1.
Proof. intros E. unfold mbind, M_bind. by rewrite E. Qed.






(** ** Users *)

(** C27: changing a user that is there, by any record and with any result, leaves no
    context of the user valid but those with the role object_r: its cache of roles is
    emptied and only that of a new user is filled. *)
Theorem user_modify_invalidates p key user q d c m rc p' m' :
  policy_good p → hashtab_search (table (p_users p)) (uk_name key) = Some q → at_index (user_mem p) q = Some d →
  Context.user c = u_value d → role c ≠ OBJECT_R_VAL → plenty m →
  sepol_user_modify key user (p, m) = Ret (rc, (p', m')) → context_is_valid p' c ≠ Ret true.
Proof.
  intros G Hq Hd Hu Hr Hm H. pose proof (pi_users _ (pg_indexed _ G)) as P.
  apply (emptied_invalid p q (u_value d) m' p' c P (io_wf _ _ P)); [by eexists| |by unfold value_at; cbn; rewrite Hd|done|done].
  exact (modify_empties p q (u_value d) key user d m Hq Hd eq_refl Hm rc (p', m') H).
Qed.

(** The user of the sample as a query gives it, written back. *)
Lemma user_modify_invalidates_witness : context_is_valid filed_loaded (stored_context 1) = Ret true ∧
  ∃ p' m', sepol_user_modify (USER_KEY "u") (USER (Some "u") None None ["object_r"; "r"])%string (filed_loaded, []) = Ret (STATUS_SUCCESS, (p', m')) ∧
    context_is_valid p' (stored_context 1) ≠ Ret true.
Proof.
  split; [vm_compute; reflexivity|].
  assert (Hrun : exists s, sepol_user_modify (USER_KEY "u") (USER (Some "u") None None ["object_r"; "r"])%string (filed_loaded, []) = Ret (STATUS_SUCCESS, s)).
  { eexists. vm_compute. reflexivity. }
  destruct Hrun as [[p' m'] E]. exists p', m'. split; [exact E|].
  refine (user_modify_invalidates filed_loaded (USER_KEY "u") (USER (Some "u") None None ["object_r"; "r"])%string 0
    (default (user_datum_init 0) (at_index (user_mem filed_loaded) 0)) (stored_context 1) [] STATUS_SUCCESS p' m' filed_loaded_good _ _ _ _ (Forall_nil_2 _) E);
    vm_compute; (reflexivity || discriminate).
Defined.

Lemma fresh_user_run p name m : hashtab_search (table (p_users p)) name = None → plenty m →
  ∃ m', fresh_user name (p, m) = Ret (Some (Z.of_nat (length (user_mem p)), true), (set_user_mem (user_mem p ++ [user_datum_init 0]) p, m')) ∧ plenty m'.
Proof.
  intros Hq Hm. destruct (malloc_plenty m Hm) as (m1&E&Hm1). exists m1. split; [|done]. unfold fresh_user.
  rewrite (run_step _ _ _ (p_users p) (p, m)) by done. rewrite Hq. rewrite (run_step _ _ _ true (p, m1)) by (unfold alloc, with_mem; cbn [snd]; by rewrite E). done.
Qed.

Lemma level_valid_user p name d h ns l : at_index (sym_val_to_name p) SYM_USERS ≠ None →
  level_valid (with_user name d h ns p) l = level_valid p l.
Proof.
  intros Hs. unfold level_valid, val_to_name. cbn [p_levels p_cats sym_val_to_name with_user set_user_mem set_user_val_to_struct set_sym_val_to_name set_p_users].
  by rewrite at_set_index_ne by done.
Qed.

(** A valid context with another user, one that has its role and its range. *)
Lemma user_swapped p name d h ns c : index_of user_kind p → 0 <= nprim (p_users p) → context_is_valid p c = Ret true →
  ebitmap_get_bit (u_cache d) (role c - 1) = true → mls p = 0 ∨ mls_range_contains (exp_range d) (range c) = true →
  context_is_valid (with_user name d h ns p) (CTX (nprim (p_users p) + 1) (role c) (type c) (range c)) = Ret true.
Proof.
  intros [_ Hlen _ _ (ns0&Ens&_)] Hp Hv Hc Hr. cbn [k_arr k_tab k_sym user_kind] in *.
  assert (Hu : val_to_struct (user_val_to_struct (with_user name d h ns p)) (user_mem (with_user name d h ns p)) (nprim (p_users p) + 1 - 1) = Ret (Some d)).
  { replace (nprim (p_users p) + 1 - 1) with (nprim (p_users p)) by lia. unfold val_to_struct.
    change (user_val_to_struct (with_user name d h ns p)) with (user_val_to_struct p ++ [Some (Z.of_nat (length (user_mem p)))]).
    change (user_mem (with_user name d h ns p)) with (user_mem p ++ [d]).
    rewrite (at_last _ (nprim (p_users p))) by done. cbn [deref mbind outcome_bind]. by rewrite (at_last _ (Z.of_nat (length (user_mem p)))). }
  assert (Hlv : ∀ l, level_valid (with_user name d h ns p) l = level_valid p l) by (intros l; apply level_valid_user; by rewrite Ens).
  assert (Hrange : (nprim (p_users p) + 1 =? 0) || (nprim (p_users (with_user name d h ns p)) <? nprim (p_users p) + 1) = false).
  { change (nprim (p_users (with_user name d h ns p))) with (nprim (p_users p) + 1). apply orb_false_iff. split; [apply Z.eqb_neq|apply Z.ltb_ge]; lia. }
  assert (Hm : mls_context_isvalid p c = Ret true → mls_context_isvalid (with_user name d h ns p) (CTX (nprim (p_users p) + 1) (role c) (type c) (range c)) = Ret true).
  { unfold mls_context_isvalid. change (mls (with_user name d h ns p)) with (mls p). cbn [range role Context.user]. destruct (Z.eqb_spec (mls p) 0) as [|Hne]; [done|].
    destruct (negb (mls_level_dom _ _)); [done|]. rewrite !Hlv. destruct (level_valid p (level0 _)) as [[]| |]; try done. cbn [mbind outcome_bind negb].
    destruct (level_valid p (level1 _)) as [[]| |]; try done. cbn [mbind outcome_bind negb]. destruct (role c =? OBJECT_R_VAL); [done|]. intros _.
    rewrite Hrange, Hu. cbn [mbind outcome_bind]. destruct Hr as [?| ->]; done. }
  unfold context_is_valid in *. cbn [Context.user role type range].
  change (nprim (p_roles (with_user name d h ns p))) with (nprim (p_roles p)). change (nprim (p_types (with_user name d h ns p))) with (nprim (p_types p)).
  change (role_val_to_struct (with_user name d h ns p)) with (role_val_to_struct p). change (role_mem (with_user name d h ns p)) with (role_mem p).
  destruct ((role c =? 0) || _); [done|]. rewrite Hrange. destruct ((Context.user c =? 0) || _); [done|]. destruct ((type c =? 0) || _); [done|].
  destruct (negb (role c =? OBJECT_R_VAL)); [|by apply Hm]. destruct (val_to_struct (role_val_to_struct p) _ _) as [[rd|]| |]; try done. cbn [mbind outcome_bind] in *.
  destruct (negb (ebitmap_get_bit (r_cache rd) _)); [done|]. rewrite Hu. cbn [mbind outcome_bind]. rewrite Hc. cbn [negb].
  destruct (val_to_struct (user_val_to_struct p) _ _) as [[ud|]| |]; try done. cbn [mbind outcome_bind] in Hv.
  destruct (negb (ebitmap_get_bit (u_cache ud) _)); [done|by apply Hm].
Qed.

(** C26: changing a user that is not there adds one under the next value, with the roles
    that the roles of the record dominate and the level and the range of the record; the
    arrays and names are still those of the table, and every valid context is valid for the
    new user too when it has the role and the range. *)
Theorem user_added p key user es dl rg m :
  policy_good p → hashtab_search (table (p_users p)) (uk_name key) = None → is_Some (table (p_users p)) → 0 < nprim (p_users p) < 2 ^ 32 - 1 →
  Forall2 (dominated p) (us_roles user) es → user_levels p user dl rg → plenty m →
  ∃ d p' m', sepol_user_modify key user (p, m) = Ret (STATUS_SUCCESS, (p', m')) ∧
    user_mem p' = user_mem p ++ [d] ∧ to_map (table (p_users p')) = <[uk_name key := Z.of_nat (length (user_mem p))]> (to_map (table (p_users p))) ∧
    nprim (p_users p') = nprim (p_users p) + 1 ∧ index_of user_kind p' ∧
    u_value d = nprim (p_users p) + 1 ∧ exp_dfltlevel d = dl ∧ exp_range d = rg ∧
    (∀ j, ebitmap_get_bit (u_cache d) j = true ↔ ∃ e, e ∈ es ∧ ebitmap_get_bit e j = true) ∧
    (∀ c, context_is_valid p c = Ret true → ebitmap_get_bit (u_cache d) (role c - 1) = true → mls p = 0 ∨ mls_range_contains rg (range c) = true →
       context_is_valid p' (CTX (u_value d) (role c) (type c) (range c)) = Ret true).
Proof.
  intros G Hq Ht Hnp Hes Hlv Hm. pose proof (pi_users _ (pg_indexed _ G)) as P. pose proof P as [Hwf _ _ _ (ns&Ens&Hlns&_)]. cbn [k_tab k_sym user_kind] in *.
  destruct (fresh_user_run p (uk_name key) m) as (m0&E0&Hm0); [done..|].
  assert (∃ m1, sepol_user_get_roles user m = Ret (Some (us_roles user), m1) ∧ plenty m1) as (m1&Er&Hm1).
  { destruct (malloc_plenty m Hm) as (m1&Em&?). exists m1. split; [|done]. unfold sepol_user_get_roles, e_malloc, mbind, E_bind. by rewrite Em. }
  destruct (fresh_user_run p (uk_name key) m1) as (m2&E2&Hm2); [done..|].
  destruct (add_dominated_runs p (user_mem p) (us_roles user) es Hes (user_datum_init 0) m2 (ebitmap_wf_init) Hm2) as (ok&[p3 m3]&E3&Hm3&->&e&Ep&He&Hbits).
  cbn [fst snd] in *. subst p3. set (d1 := with_roles e (user_datum_init 0)) in *.
  destruct (set_user_mls_runs p (user_mem p) d1 user dl rg m3 Hlv eq_refl eq_refl Hm3) as (ok&[p4 m4]&E4&Hm4&->&Ep). cbn [fst snd] in *. subst p4.
  set (d2 := with_exp_range rg (with_dfltlevel dl d1)) in *.
  destruct (register_runs p d2 (uk_name key) ns m4 P Ht Hq Ens Hlns ltac:(lia) eq_refl He Hm4) as (ok&[p5 m5]&E5&Hm5&->&h&Ep&Hh&Hmap).
  cbn [fst snd] in *. set (d3 := with_cache _ _) in *. exists d3, p5, m5.
  split_and!; [|by subst p5|by subst p5|by subst p5| |done|done|done| |].
  - unfold sepol_user_modify. rewrite (run_step _ _ _ (Some (us_roles user)) (p, m1)) by (unfold on_policy; cbn [fst snd]; by rewrite Er).
    rewrite (run_step _ _ _ _ _ E2), (run_step _ _ _ _ _ E3). cbn [negb]. rewrite (run_step _ _ _ _ _ E4). cbn [negb]. by rewrite (run_step _ _ _ _ _ E5).
  - subst p5. apply with_user_indexed; try done; [by rewrite <- hashtab_search_correct| |lia].
    intros k x Hk. pose proof (pi_user _ (pg_indexed _ G)) as Hin. unfold in_store in Hin. rewrite Forall_forall in Hin.
    destruct (Hin (k, x)) as (y&Hy&_); [by apply elem_of_table_entries|]. by exists y.
  - intros j. cbn [u_cache d3 with_cache]. change (rs_roles (u_roles d2)) with e. rewrite Hbits. cbn [u_roles user_datum_init rs_roles role_set_init].
    rewrite get_bit_init. split; [by intros [?|?]|by right].
  - intros c Hv Hc Hr. subst p5. change (u_value d3) with (nprim (p_users p) + 1). apply user_swapped; [done|lia|done..].
Qed.

(** A second user of the sample, with the role r. *)
Lemma user_added_witness : ∃ d p' m',
  sepol_user_modify (USER_KEY "new") (USER (Some "new") None None ["r"])%string (filed_loaded, []) = Ret (STATUS_SUCCESS, (p', m')) ∧
  user_mem p' = user_mem filed_loaded ++ [d] ∧ u_value d = 2 ∧ context_is_valid p' (CTX (u_value d) 2 1 mls_range_init) = Ret true.
Proof.
  assert (E : mls filed_loaded = 0) by (vm_compute; reflexivity). set (rd := default sample_role (at_index (role_mem filed_loaded) 1)).
  destruct (user_added filed_loaded (USER_KEY "new") (USER (Some "new") None None ["r"])%string [dominates rd] mls_level_init mls_range_init []
    filed_loaded_good) as (d&p'&m'&Hrun&Hmem&_&_&_&Hd&_&_&Hb&Hv); [vm_compute; reflexivity|by eexists; vm_compute|vm_compute; intuition reflexivity| | |exact (Forall_nil_2 _)|].
  - constructor; [|constructor]. exists 1, rd. split; [vm_compute; reflexivity|]. split; [vm_compute; reflexivity|]. split; [reflexivity|]. vm_compute; intuition discriminate.
  - unfold user_levels. rewrite E. by split_and!.
  - exists d, p', m'. split; [exact Hrun|]. split; [exact Hmem|]. split; [rewrite Hd; vm_compute; reflexivity|].
    apply (Hv (stored_context 1)); [vm_compute; reflexivity| |by left]. apply Hb. exists (dominates rd). split; [by left|vm_compute; reflexivity].
Defined.

(** ** Iteration *)

Definition two_nodes : policydb :=
  label_stored (label_stored filed_loaded OCON_NODE (OC (node_entry SEPOL_PROTO_IP4 [1; 2; 3; 4] [255; 0; 0; 0]) 0 (stored_context 1) zero_context 0 0))
    OCON_NODE6 (OC (node_entry SEPOL_PROTO_IP6 (replicate 16 1) (replicate 16 255)) 0 (stored_context 1) zero_context 0 0).

(** A handler that returns 1 asks to leave the iteration; it is called for an IPv6
    address after it did so for the IPv4 one. *)
Lemma node_iterate_goes_on :
  ∃ m', sepol_node_iterate two_nodes (λ _ calls, (1, calls + 1)) 0 [] = Ret (STATUS_SUCCESS, 2, m').
Proof. eexists. vm_compute. reflexivity. Qed.
